(* ===== verification/_CoqProject ===== *)
-Q . S2P
Prelude.v
Memory.v
Bytes.v
Layout.v
Machine.v
Descriptors.v
Acpi.v
Frame.v
Paging.v
Features.v
PageTree.v
PageMap.v
PageUnmap.v
AddressSpace.v
VirtMem.v
Stack.v
Spaces.v
Destroy.v
Ring.v
Tcb.v
Entry.v
Device.v
Apic.v
Kernel.v
Scheduler.v
Registers.v
Tasks.v
Interrupts.v
User.v
Cpio.v
Elf.v
UserElf.v
Loader.v
Boot.v
Syscall.v
DuskSys.v
Programs.v
Serial.v
Ipc.v
Caps.v
Calls.v
Create.v
Console.v
Keeps.v
System.v
Safety.v
Bootstrap.v
KernelSpace.v
Drivers.v
Main.v
Startup.v
