(* ===== verification/Prelude.v ===== *)
(** * A verification development for the dusk microkernel

    dusk is a small microkernel for x86_64 written in Rust ([src/src]), with a first user program,
    omega3, and a system call library ([src/userspace]).  This library is a shallow embedding of
    its core logic and of the theorems that make it correct.  Source paths below are relative to
    the directory of the repository.

    ** The program and its parts

    At boot the kernel reads the memory map, builds the frame allocator, its own page tables and
    the scheduler, finds the program omega3 in the initramfs, loads it into a fresh address space
    and switches to it.  From then on it runs only when a task makes a system call or faults.
    The layers use each other in this order, and the files follow them:

    - [Prelude] (this file): 64-bit integers with checked, saturating and panicking arithmetic,
      [result], the outcomes of a computation, the monad [M] of stateful fallible code with its
      notations, tactics and the lemmas that all files share.
    - [Memory]: byte-addressed memory and the types of [src/memory/mod.rs] (memory map, direct
      map, permissions, kernel layout, boot strings, initramfs).  [Bytes]: slices of bytes.
    - [Frame]: the physical frame allocator, [src/memory/frame.rs].  Its bitmap lies in the same
      memory that it hands out.
    - [Paging], [PageTree], [PageMap], [PageUnmap]: the page tables of
      [src/arch/x86_64/paging.rs]; the definitions, the theory of the tree of tables, and the
      correctness of mapping and unmapping.
    - [AddressSpace]: user and kernel address spaces and the table of them,
      [src/memory/address_space.rs].  [VirtMem]: accesses that the CPU translates.
    - [Stack]: stacks with guard pages and the pool of kernel stacks, [src/memory/stack.rs].
    - [Ring], [Tcb]: ring buffers with the interface [Fifo]; mailboxes, handle tables and thread
      control blocks, [src/task/tcb.rs].
    - [Kernel]: the record [KState] of all statics of the kernel and the CPU state, and the
      accessors that mask interrupts.  [Scheduler], [Registers], [Tasks]: the scheduler,
      [src/task/scheduler.rs], against an abstract scheduler.
    - [User]: checking and copying user memory, [src/memory/user.rs].
    - [Cpio], [Elf], [Loader]: the initramfs reader of the kernel and the one of omega3, the ELF
      parser and the loader with the bootstrap of the first task ([src/format/cpio.rs],
      [userspace/omega3/src/cpio.rs], [src/format/elf.rs], [src/task/bootstrap.rs]).
    - [Syscall], [Ipc]: the dispatcher and the handlers of [src/syscall/mod.rs] and
      [src/syscall/table.rs], and the theorems about messages.
    - [Layout], [Acpi]: packed structures in memory, and the firmware tables of
      [src/platform/acpi.rs] read through them.
    - [Machine], [Descriptors], [Entry]: a processor with the instructions the kernel's assembly
      uses; the descriptor tables of [src/arch/x86_64/gdt.rs] and [interrupts/idt.rs] as it
      decodes them; the context switch of [cpu.rs], the entry of system calls of [syscall.rs], of
      interrupts of [interrupts/idt.rs] and of user mode of [mod.rs] as code that it runs.
    - [Features], [Boot]: the checks and enabling of processor features of [cpu.rs], and the boot
      protocol of [src/boot/limine.rs] turned into the kernel's boot information.
    - [Device], [Apic], [Serial], [Interrupts]: devices behind ports, memory-mapped registers and
      machine-specific registers, as a class of hardware; the drivers of the local APIC, of the I/O
      APIC and of the timers ([apic.rs], [io_apic.rs], [pit.rs], [timer.rs]) and of the serial
      port ([src/debug/serial.rs]) on it; the handlers of exceptions and interrupts
      ([interrupts/exceptions.rs], [interrupts/mod.rs]).
    - [Destroy]: the destruction of page tables of [src/arch/x86_64/paging.rs].
    - [Spaces], [Caps]: all address spaces and all handles of all tasks together.
    - [Calls], [Create], [Console]: the system calls of [src/syscall/table.rs] on frames and
      mappings, on address spaces and on the console, each as one step of that state.
    - [Keeps], [System], [Safety]: what the scheduler keeps; every call but the creation of tasks
      as a step of the whole system, with what is left of a call that switched away; all sequences
      of such steps.
    - [DuskSys]: the system call wrappers of [userspace/dusk-sys/src/lib.rs], as the registers they
      set and what they make of the answer.
    - [UserElf], [Programs]: the ELF parser of omega3, [userspace/omega3/src/elf.rs]; omega3 itself
      and the two programs it starts, [userspace/omega3/src/main.rs], [userspace/echo/src/main.rs] and
      [userspace/client/src/main.rs], as interaction trees whose events are system calls and accesses
      to their own memory.
    - [Bootstrap]: the start of the first task ([src/task/bootstrap.rs] and the end of [kernel_main])
      as what brings the state of [Safety] about.
    - [KernelSpace]: the kernel's own address space as [new_kernel] of
      [src/memory/address_space.rs] builds it.
    - [Drivers]: the drivers on hardware that answers anything.
    - [Main], [Startup]: [_start] and [kernel_main] of [src/main.rs] with [init] and
      [enter_kernel] of [src/arch/x86_64/mod.rs], the composition of all of the above, and what they
      establish. The object that one hands to the other through memory is passed along, and its
      bytes, whose order the compiler chooses, overwrite the frame it lies in.

    ** How the code is modelled

    A function of the kernel becomes a function of type [M S A], from a state to an [outcome]:
    [Done] with a result and the next state, [Panic] with the message the code panics with, or
    [Halt] where the code stops the CPU for good.  [S] is the part of the state that the function
    can reach: [MState] is physical memory with the allocator, CR3 and the log of flushed TLB
    entries, [KState] the whole kernel.  [Result] and [Option] of the code are values, never
    outcomes, so the error paths with their rollbacks are ordinary branches.  Arithmetic is that
    of a build with overflow checks and debug assertions: an overflow of [+], [-] or [*] panics,
    and theorems that a function answers [Done] also show that it does not overflow.  The
    operations that wrap or saturate by name do so in the model.

    Page tables, the bitmap of the allocator, stacks and the user's pages share one byte-addressed
    memory; nothing is assumed about their being apart, it is part of the invariants.  Interrupts
    are off whenever kernel code runs on shared state, which the model shows as the saved and
    restored interrupt flag.  A system call that gives the CPU away is cut at the context switch:
    [Suspended] holds what the task does when it runs again.

    What is not in the repository is a parameter: CPUID and the page attribute table as a
    [PagingConfig] (with [config_wf]: the physical address width lies between 13 and 52 bits),
    the boot memory map as the list of its regions.

    ** What the theorems show

    - Frames: the allocator refines a map from frames to their states, hands out only free frames,
      zeroed, and never writes anything else but its bitmap ([off_frame]); construction from any sane memory map
      establishes the invariant; a sequence of operations never hands a frame out twice.
    - Page tables: [map] and [unmap] change the translation of exactly one page, keep the tree
      well formed and the contents of all other frames, give back exactly the tables of the page's
      path that become empty ([vacated], in both directions), and leave everything as it was
      on an error; entries round trip.
    - Address spaces: ranges are mapped completely or not at all, user spaces never reach kernel
      memory and share the kernel half; tables of spaces hand out fresh identifiers.
    - Stacks: never more than the slots, never two overlapping, with the guard page unmapped.
    - Scheduler: every operation refines an abstract scheduler with a queue of tasks; exactly one
      task runs, the ready queue holds each ready task once, and yielding is fair.
    - Messages: [sys_send] and [sys_recv] deliver first in, first out, wake the receiver, never
      leave the buffer of the receiver, and report every error without an effect.
    - File formats: the parsers never panic or run away on any input, accept what is well formed
      and find what was packed; the loader puts exactly the segments into the address space.
    - Firmware tables: the root table and the MADT are found and read back entry by entry as
      firmware wrote them, damaged ones are rejected, and the iterator ends within the table
      whatever memory holds.
    - Processor: descriptors decode to what the selectors are used for; a context switch, a system
      call and an interrupt give back every register, and a new thread starts in user mode with
      nothing of the kernel in its registers.
    - Devices: interrupts are routed to the vector and processor asked for, the timer's to the pin,
      with the polarity and the trigger that the firmware's table gives ISA interrupt 0 (read
      bit by bit in [override_route]); the timer's frequency is measured within the error of
      one poll and all programmed counts fit their registers; what is printed leaves the serial
      port byte by byte in order; every exception ends in the reason of an independent table
      ([fault_reason]) and every interrupt of the controller in its record and its acknowledgement.
    - The system: whatever calls but task creation the tasks make, in whatever order they block, wake each other,
      fault and take turns, no call panics, the machine halts only when no task is ready, and
      handles and pages of all address spaces never name a freed frame, a page table or each
      other's frames. Each call returns, with the effect or the error its arguments ask for, and
      writes no other byte of a frame that holds data ([data_kept]), on an error none at all;
      mapping and unmapping undo each other; a new address space is empty below and shares the
      kernel above; destroying one frees exactly its own tables; a write sends exactly the
      buffer; the user library and the kernel agree on the calling convention.
    - The start: from a complete answer of the boot loader and a memory map in order ([map_ok]) on, on a
      processor with the features needed, with devices that may answer anything, the
      kernel panics for one of fifteen reasons, waits for a device, or runs its first task in a
      state from which the system is safe in that sense (so up to the first creation of a task); no addition, index or assertion
      fails on the way. The kernel's page table maps the direct map and the kernel's image as the
      memory map and the linker say, and nothing below. Pages of a task may also lie in frames
      that the allocator does not know, as those of the initramfs do, but never in the bitmap.
    - Boot: a processor without a required feature is refused before any register changes, and
      the boot information is what the boot loader's responses say, region by region with the kind
      that the protocol gives its type, or the error of the first missing one.

    ** Bounds and fuel

    Loops over a known range are folds over that range.  The walks recurse over the list of page
    table levels (at most five).  [find_file] runs for at most one round per byte of the archive,
    as every entry is longer than its header, and [find_file_total] shows that this is enough.
    The MADT iterator runs for at most one round per byte of the table ([entries_fuel], enough by
    [madt_entries_safe]), the program headers of omega3's parser for one round per header. Loops that poll a device (the
    wait for the timer, for the serial transmitter, for the APIC's delivery) take fuel that the
    theorems bound by the time the device is busy, which the class of hardware makes finite.
    ** Not modelled

    The text that is printed with arguments, the contents of the kernel's own stacks, and the
    formatting of panics. Over all sequences of calls the creation of tasks is left out; the
    first program itself makes that call, so the safety theorems reach up to it. The steps of the
    running system are calls, resumed calls and faults: stores of user code and interrupts of devices
    are not among them. While the kernel waits for the timer, interrupts arrive at the pause
    instruction only ([spin_loop]), and the separate stack that the interrupt table gives vector 8 is
    not modelled: its frame is built as that of the other vectors. Physical addresses of exactly 12 bits,
    which the feature check accepts, are outside [config_wf]. The
    programs of user space are modelled without theorems of their own. *)

From stdpp Require Export base list numbers strings sets relations.
From Stdlib Require Export ZArith Lia.

Open Scope Z_scope.

(** * Machine integers *)

(** Every [usize] and [u64] of the kernel is a [Z] in [[0, 2^64)]; the target is
    x86_64, so the two widths agree. *)
Abbreviation usize := Z (only parsing).
Abbreviation PhysicalAddr := Z (only parsing).
Abbreviation VirtualAddr := Z (only parsing).

Definition W64 : Z := 2 ^ 64.

Definition is_u64 (x : Z) : Prop := 0 ≤ x < W64.

Definition checked_add (a b : usize) : option usize :=
  if a + b <? W64 then Some (a + b) else None.

Definition checked_sub (a b : usize) : option usize :=
  if b <=? a then Some (a - b) else None.

Definition checked_mul (a b : usize) : option usize :=
  if a * b <? W64 then Some (a * b) else None.

Definition saturating_add (a b : usize) : usize :=
  if a + b <? W64 then a + b else W64 - 1.

Definition div_ceil (a b : usize) : usize := (a + b - 1) / b.

(** Bitwise complement of a 64-bit word, Rust's [!x]. *)
Definition not64 (x : Z) : Z := Z.lxor x (W64 - 1).

(** * Results and panics *)

(** Rust's [Result<A, E>]. *)
Inductive result (A E : Type) : Type :=
| Ok (a : A)
| Err (e : E).
Arguments Ok {A E} a.
Arguments Err {A E} e.

Definition ok_or {A E} (o : option A) (e : E) : result A E :=
  match o with Some a => Ok a | None => Err e end.

Definition map_err {A E F} (f : E → F) (r : result A E) : result A F :=
  match r with Ok a => Ok a | Err e => Err (f e) end.

Definition result_bind {A B E} (r : result A E) (k : A → result B E) : result B E :=
  match r with Ok a => k a | Err e => Err e end.

Definition is_err {A E} (r : result A E) : bool :=
  match r with Ok _ => false | Err _ => true end.

(** The outcome of running a piece of kernel code: it returns, it reaches a
    [panic!] (an [assert!], an [unwrap]/[expect] of nothing, an index out of
    bounds, or an arithmetic overflow, which a debug build checks), or it stops
    in [hcf]. *)
Inductive outcome (A : Type) : Type :=
| Done (a : A)
| Panic (why : string)
| Halt.
Arguments Done {A} a.
Arguments Panic {A} why.
Arguments Halt {A}.

(** Kernel code over a state [S]. *)
Definition M (S A : Type) : Type := S → outcome (A * S).

Definition ret {S A} (a : A) : M S A := λ s, Done (a, s).

Definition bind {S A B} (c : M S A) (k : A → M S B) : M S B := λ s,
  match c s with
  | Done (a, s') => k a s'
  | Panic w => Panic w
  | Halt => Halt
  end.

Definition panic {S A} (why : string) : M S A := λ _, Panic why.
Definition halt {S A} : M S A := λ _, Halt.

Definition get {S} : M S S := λ s, Done (s, s).
Definition put {S} (s : S) : M S unit := λ _, Done (tt, s).
Definition gets {S A} (f : S → A) : M S A := λ s, Done (f s, s).
Definition modify {S} (f : S → S) : M S unit := λ s, Done (tt, f s).

(** [assert!], [expect] and the overflow checks of a debug build. *)
Definition massert {S} (b : bool) (why : string) : M S unit :=
  if b then ret tt else panic why.

Definition expect {S A} (o : option A) (why : string) : M S A :=
  match o with Some a => ret a | None => panic why end.

Definition uadd {S} (a b : usize) : M S usize :=
  expect (checked_add a b) "attempt to add with overflow".
Definition usub {S} (a b : usize) : M S usize :=
  expect (checked_sub a b) "attempt to subtract with overflow".
Definition umul {S} (a b : usize) : M S usize :=
  expect (checked_mul a b) "attempt to multiply with overflow".

(** The [?] operator inside kernel code. *)
Definition bind_ok {S A B E} (c : M S (result A E)) (k : A → M S (result B E)) :
    M S (result B E) :=
  bind c (λ r, match r with Ok a => k a | Err e => ret (Err e) end).

(** What a run returned, without the state it left. *)
Definition returned {A S} (o : outcome (A * S)) : option A :=
  match o with Done (a, _) => Some a | _ => None end.

Declare Scope dusk_scope.
Delimit Scope dusk_scope with dusk.

Notation "'let!' x ':=' c 'in' k" := (bind c (λ x, k))
  (at level 10, x pattern, c at level 100, k at level 200) : dusk_scope.
Notation "'let?' x ':=' c 'in' k" := (bind_ok c (λ x, k))
  (at level 10, x pattern, c at level 100, k at level 200) : dusk_scope.
Notation "'do!' c ;;; k" := (bind c (λ _, k))
  (at level 10, c at level 100, k at level 200) : dusk_scope.
Notation "'let*' x ':=' r 'in' k" := (result_bind r (λ x, k))
  (at level 10, x pattern, r at level 100, k at level 200) : dusk_scope.

#[global] Open Scope dusk_scope.

(** [for x in l { body }] whose body cannot leave the loop early. *)
Fixpoint mfor {S A} (l : list A) (body : A → M S unit) : M S unit :=
  match l with
  | [] => ret tt
  | x :: l => do! body x ;;; mfor l body
  end.

(** [for x in l { body }] whose body may return an error through [?]. *)
Fixpoint mfor_ok {S A E} (l : list A) (body : A → M S (result unit E)) :
    M S (result unit E) :=
  match l with
  | [] => ret (Ok tt)
  | x :: l => let? _ := body x in mfor_ok l body
  end.

(** [l.find(p)] for a predicate that may panic. *)
Fixpoint mfind {S A} (l : list A) (p : A → M S bool) : M S (option A) :=
  match l with
  | [] => ret None
  | x :: l => let! b := p x in if b : bool then ret (Some x) else mfind l p
  end.

(** A Rust range [a..b]: empty when [b <= a]. *)
Definition range (a b : usize) : list Z := seqZ a (b - a).

(** * Arrays indexed by [usize] *)

Definition zget {A} (l : list A) (i : Z) : option A :=
  if (0 <=? i) && (i <? Z.of_nat (length l)) then l !! Z.to_nat i else None.

Definition zset {A} (l : list A) (i : Z) (x : A) : list A :=
  if (0 <=? i) && (i <? Z.of_nat (length l)) then <[Z.to_nat i := x]> l else l.

(** The first empty slot of an array of options,
    [iter().position(Option::is_none)]. *)
Fixpoint position_none {A} (l : list (option A)) : option Z :=
  match l with
  | [] => None
  | None :: _ => Some 0
  | Some _ :: l => Z.succ <$> position_none l
  end.

(** * Shared lemmas *)

Lemma checked_add_Some a b c : checked_add a b = Some c ↔ c = a + b ∧ a + b < W64.
Proof. unfold checked_add. destruct (Z.ltb_spec (a + b) W64); naive_solver lia. Qed.

Lemma checked_add_None a b : checked_add a b = None ↔ W64 ≤ a + b.
Proof. unfold checked_add. destruct (Z.ltb_spec (a + b) W64); naive_solver lia. Qed.

Lemma checked_add_lt a b : a + b < W64 → checked_add a b = Some (a + b).
Proof. intros. by apply checked_add_Some. Qed.

Lemma checked_sub_le a b : b ≤ a → checked_sub a b = Some (a - b).
Proof. intros. unfold checked_sub. by rewrite (proj2 (Z.leb_le _ _)). Qed.

Lemma checked_sub_None a b : checked_sub a b = None ↔ a < b.
Proof. unfold checked_sub. destruct (Z.leb_spec b a); naive_solver lia. Qed.

Lemma checked_mul_lt a b : a * b < W64 → checked_mul a b = Some (a * b).
Proof. intros. unfold checked_mul. by rewrite (proj2 (Z.ltb_lt _ _)). Qed.

Lemma uadd_lt {S} a b (s : S) : a + b < W64 → uadd a b s = Done (a + b, s).
Proof. intros. unfold uadd. by rewrite checked_add_lt. Qed.

Lemma usub_le {S} a b (s : S) : b ≤ a → usub a b s = Done (a - b, s).
Proof. intros. unfold usub. by rewrite checked_sub_le. Qed.

Lemma umul_lt {S} a b (s : S) : a * b < W64 → umul a b s = Done (a * b, s).
Proof. intros. unfold umul. by rewrite checked_mul_lt. Qed.

(** ** Running kernel code *)

Lemma bind_Done {S A B} (c : M S A) (k : A → M S B) s a s' :
  c s = Done (a, s') → bind c k s = k a s'.
Proof. intros H. unfold bind. by rewrite H. Qed.

Lemma bind_Panic {S A B} (c : M S A) (k : A → M S B) s w :
  c s = Panic w → bind c k s = Panic w.
Proof. intros H. unfold bind. by rewrite H. Qed.

Lemma bind_Done_inv {S A B} (c : M S A) (k : A → M S B) s r :
  bind c k s = Done r → ∃ a s', c s = Done (a, s') ∧ k a s' = Done r.
Proof. unfold bind. destruct (c s) as [[a s']| |]; naive_solver. Qed.

Lemma bind_get {S B} (k : S → M S B) s : bind get k s = k s s.
Proof. done. Qed.
Lemma bind_put {S B} (k : unit → M S B) s s' : bind (put s') k s = k tt s'.
Proof. done. Qed.
Lemma bind_modify {S B} f (k : unit → M S B) s : bind (modify f) k s = k tt (f s).
Proof. done. Qed.
Lemma bind_gets {S A B} (f : S → A) (k : A → M S B) s : bind (gets f) k s = k (f s) s.
Proof. done. Qed.
Lemma bind_ret {S A B} (a : A) (k : A → M S B) s : bind (ret a) k s = k a s.
Proof. done. Qed.
Lemma bind_ok_ret {S A B E} (r : result A E) (k : A → M S (result B E)) s :
  bind_ok (ret r) k s = match r with Ok a => k a s | Err e => Done (Err e, s) end.
Proof. by destruct r. Qed.
Lemma bind_assoc {S A B C} (c : M S A) (k : A → M S B) (h : B → M S C) s :
  bind (bind c k) h s = bind c (λ a, bind (k a) h) s.
Proof. unfold bind. by destruct (c s) as [[a s']| |]. Qed.

Lemma bind_ext {S A B} (c : M S A) (k h : A → M S B) s :
  (∀ a s', k a s' = h a s') → bind c k s = bind c h s.
Proof. intros H. unfold bind. destruct (c s) as [[a s']| |]; [apply H|done|done]. Qed.

Lemma bind_ok_Ok {S A B E} (c : M S (result A E)) (k : A → M S (result B E)) s a s' :
  c s = Done (Ok a, s') → bind_ok c k s = k a s'.
Proof. intros H. unfold bind_ok, bind. by rewrite H. Qed.

Lemma bind_ok_Err {S A B E} (c : M S (result A E)) (k : A → M S (result B E)) s e s' :
  c s = Done (Err e, s') → bind_ok c k s = Done (Err e, s').
Proof. intros H. unfold bind_ok, bind. by rewrite H. Qed.

Lemma returned_Done {A S} (o : outcome (A * S)) a b s :
  o = Done (a, s) → returned o = Some b → a = b.
Proof. intros ->. by intros [= ->]. Qed.

(** Hoare-style rule for a loop: an invariant over the elements already seen. *)
Lemma mfor_inv {S A} (I : list A → S → Prop) (body : A → M S unit) (l : list A) s :
  I [] s →
  (∀ pre x post s0, l = pre ++ x :: post → I pre s0 →
     ∃ s1, body x s0 = Done (tt, s1) ∧ I (pre ++ [x]) s1) →
  ∃ s', mfor l body s = Done (tt, s') ∧ I l s'.
Proof.
  intros H0 Hstep.
  assert (Hgen : ∀ post pre s0, l = pre ++ post → I pre s0 →
    ∃ s', mfor post body s0 = Done (tt, s') ∧ I l s').
  { induction post as [|x post IH]; intros pre s0 Hl HI; simpl.
    - exists s0. rewrite app_nil_r in Hl. by subst.
    - destruct (Hstep pre x post s0 Hl HI) as (s1 & E & HI1).
      rewrite (bind_Done _ _ _ _ _ E). apply (IH (pre ++ [x])); [|done].
      by rewrite <- app_assoc. }
  by apply (Hgen l []).
Qed.

(** A search whose predicate neither panics nor changes the state is [find]. *)
Lemma mfind_find {S A} (p : A → M S bool) (f : A → bool) (l : list A) s :
  (∀ x, x ∈ l → p x s = Done (f x, s)) → mfind l p s = Done (List.find f l, s).
Proof.
  induction l as [|x l IH]; intros H; simpl; [done|].
  rewrite (bind_Done _ _ _ (f x) s) by (apply H; left).
  destruct (f x); [done|]. apply IH. intros y Hy. apply H. by right.
Qed.

(** ** Ranges and arrays *)

Lemma elem_of_range x a b : x ∈ range a b ↔ a ≤ x < b.
Proof. unfold range. rewrite elem_of_seqZ. lia. Qed.

Lemma range_split a b pre x post :
  range a b = pre ++ x :: post →
  x = a + Z.of_nat (length pre) ∧ pre = range a x ∧ x < b.
Proof.
  intros H.
  assert (Hx : range a b !! length pre = Some x)
    by (rewrite H; by apply list_lookup_middle).
  apply lookup_seqZ in Hx as [-> Hlt].
  split_and!; [done| |lia].
  transitivity (take (length pre) (range a b)); [by rewrite H, take_app_length|].
  apply list_eq. intros i. unfold range.
  destruct (decide (i < length pre)%nat).
  - rewrite lookup_take_lt by done. rewrite 2 lookup_seqZ_lt by lia. done.
  - rewrite lookup_take_ge by lia. symmetry. apply lookup_seqZ_ge. lia.
Qed.

Lemma range_snoc a b : a ≤ b → range a (b + 1) = range a b ++ [b].
Proof.
  intros H. unfold range. replace (b + 1 - a) with (b - a + 1) by lia.
  rewrite seqZ_app by lia. do 2 f_equal. rewrite seqZ_cons by lia. simpl. f_equal. lia.
Qed.

Lemma range_cons a b : a < b → range a b = a :: range (a + 1) b.
Proof.
  intros H. unfold range. rewrite seqZ_cons by lia. f_equal. rewrite Z.add_1_r. f_equal. lia.
Qed.

Lemma range_empty a b : b ≤ a → range a b = [].
Proof. intros. unfold range. apply seqZ_nil. lia. Qed.

Lemma zget_lookup {A} (l : list A) i : 0 ≤ i → zget l i = l !! Z.to_nat i.
Proof.
  intros. unfold zget. rewrite (proj2 (Z.leb_le _ _)) by done. simpl.
  destruct (Z.ltb_spec i (Z.of_nat (length l))); [done|].
  symmetry. apply lookup_ge_None. lia.
Qed.

Lemma zget_Some_lt {A} (l : list A) i x :
  zget l i = Some x → 0 ≤ i < Z.of_nat (length l).
Proof.
  unfold zget. destruct (Z.leb_spec 0 i), (Z.ltb_spec i (Z.of_nat (length l)));
    simpl; naive_solver lia.
Qed.

Lemma zget_is_Some {A} (l : list A) i :
  0 ≤ i < Z.of_nat (length l) → is_Some (zget l i).
Proof. intros. rewrite zget_lookup by lia. apply lookup_lt_is_Some. lia. Qed.

Lemma zset_insert {A} (l : list A) i x : 0 ≤ i → zset l i x = <[Z.to_nat i := x]> l.
Proof.
  intros. unfold zset. rewrite (proj2 (Z.leb_le _ _)) by done. simpl.
  destruct (Z.ltb_spec i (Z.of_nat (length l))); [done|].
  symmetry. apply list_insert_ge. lia.
Qed.

Lemma length_zset {A} (l : list A) i x : length (zset l i x) = length l.
Proof. unfold zset. destruct (_ && _); [apply length_insert|done]. Qed.

Lemma zget_zset_eq {A} (l : list A) i x :
  0 ≤ i < Z.of_nat (length l) → zget (zset l i x) i = Some x.
Proof.
  intros. rewrite zset_insert, zget_lookup by lia.
  apply list_lookup_insert_eq. lia.
Qed.

Lemma zget_zset_ne {A} (l : list A) i j x : i ≠ j → zget (zset l i x) j = zget l j.
Proof.
  intros Hne. unfold zget. rewrite length_zset.
  destruct (Z.leb_spec 0 j); [|done]. destruct (Z.ltb_spec j (Z.of_nat (length l))); [|done].
  simpl. unfold zset. destruct (Z.leb_spec 0 i); [|done].
  destruct (Z.ltb_spec i (Z.of_nat (length l))); [|done]. simpl.
  apply list_lookup_insert_ne. lia.
Qed.

Lemma zget_zset {A} (l : list A) i j x :
  0 ≤ i < Z.of_nat (length l) →
  zget (zset l i x) j = if decide (i = j) then Some x else zget l j.
Proof.
  intros. case_decide; subst; [by apply zget_zset_eq|by apply zget_zset_ne].
Qed.

Lemma position_none_Some {A} (l : list (option A)) i :
  position_none l = Some i →
  0 ≤ i < Z.of_nat (length l) ∧ zget l i = Some None ∧
  ∀ j, 0 ≤ j < i → ∃ x, zget l j = Some (Some x).
Proof.
  revert i. induction l as [|[x|] l IH]; intros i; simpl; [done| |].
  - destruct (position_none l) as [k|]; [|done]. intros [= <-].
    destruct (IH k eq_refl) as (Hk & Hn & Hj).
    assert (Hs : ∀ j, 0 ≤ j → zget (Some x :: l) (Z.succ j) = zget l j).
    { intros j Hj0. rewrite !zget_lookup by lia. by rewrite Z2Nat.inj_succ by lia. }
    split_and!; [lia|lia|by rewrite Hs by lia|].
    intros j Hj'. destruct (decide (j = 0)) as [->|]; [by exists x|].
    destruct (Hj (j - 1)) as [y Hy]; [lia|]. exists y. rewrite <- Hy, <- Hs by lia. f_equal. lia.
  - intros [= <-]. split_and!; [lia|lia|done|lia].
Qed.

Lemma position_none_None {A} (l : list (option A)) :
  position_none l = None → ∀ i o, l !! i = Some o → is_Some o.
Proof.
  induction l as [|[x|] l IH]; simpl; [done| |done].
  destruct (position_none l); [done|]. intros _ [|i] o; simpl; [|by apply IH].
  intros [= <-]. eauto.
Qed.

(** ** Bit masks *)

Lemma land_mask a k : 0 ≤ k → Z.land a (2 ^ k - 1) = a mod 2 ^ k.
Proof.
  intros. rewrite <- Z.land_ones by done. f_equal. rewrite Z.ones_equiv. lia.
Qed.

Lemma is_u64_bits a : is_u64 a ↔ 0 ≤ a ∧ ∀ n, 64 ≤ n → Z.testbit a n = false.
Proof.
  unfold is_u64, W64. split.
  - intros [H0 H1]. split; [done|]. intros n Hn.
    destruct (decide (a = 0)) as [->|]; [apply Z.bits_0|].
    apply Z.bits_above_log2; [done|].
    assert (Z.log2 a < 64) by (apply Z.log2_lt_pow2; lia). lia.
  - intros [H0 H1]. split; [done|].
    destruct (decide (a = 0)) as [->|]; [done|].
    apply Z.log2_lt_pow2; [lia|].
    destruct (decide (Z.log2 a < 64)); [done|].
    specialize (H1 (Z.log2 a) ltac:(lia)). rewrite Z.bit_log2 in H1 by lia. done.
Qed.

Lemma testbit_not64 x n :
  Z.testbit (not64 x) n = xorb (Z.testbit x n) ((0 <=? n) && (n <? 64)).
Proof.
  unfold not64. rewrite Z.lxor_spec. f_equal.
  change (W64 - 1) with (Z.ones 64).
  destruct (Z.leb_spec 0 n); simpl; [|by rewrite Z.testbit_neg_r by lia].
  rewrite Z.testbit_ones_nonneg by lia. done.
Qed.

(** [a & !(2^k - 1)] rounds [a] down to a multiple of [2^k]. *)
Lemma land_not64_mask a k :
  is_u64 a → 0 ≤ k ≤ 64 → Z.land a (not64 (2 ^ k - 1)) = a - a mod 2 ^ k.
Proof.
  intros Ha Hk. apply is_u64_bits in Ha as [Ha0 Ha].
  assert (E : a - a mod 2 ^ k = Z.ldiff a (Z.ones k)).
  { rewrite Z.ldiff_ones_r by lia. rewrite Z.shiftr_div_pow2, Z.shiftl_mul_pow2 by lia.
    pose proof (Z.div_mod a (2 ^ k)). lia. }
  rewrite E. apply Z.bits_inj'. intros n Hn.
  rewrite Z.land_spec, Z.ldiff_spec, testbit_not64.
  replace (2 ^ k - 1) with (Z.ones k) by (rewrite Z.ones_equiv; lia).
  rewrite Z.testbit_ones_nonneg by lia.
  destruct (Z.leb_spec 0 n); [|lia]. simpl.
  destruct (Z.ltb_spec n 64); [by rewrite xorb_true_r|].
  rewrite Ha by lia. done.
Qed.

Lemma land_pow2_eqb e k : 0 ≤ k → (Z.land e (Z.shiftl 1 k) =? 0) = negb (Z.testbit e k).
Proof.
  intros Hk. rewrite Z.shiftl_1_l.
  destruct (Z.testbit e k) eqn:E; simpl.
  - apply Z.eqb_neq. intros H.
    assert (Z.testbit (Z.land e (2 ^ k)) k = false) as H1 by (rewrite H; apply Z.bits_0).
    rewrite Z.land_spec, E, Z.pow2_bits_true in H1 by done. done.
  - apply Z.eqb_eq, Z.bits_inj'. intros n Hn. rewrite Z.land_spec, Z.bits_0, Z.pow2_bits_eqb by done.
    destruct (Z.eqb_spec k n); [subst; by rewrite E|apply andb_false_r].
Qed.

(** ** Automation *)

(** Linear arithmetic over division and remainder by constants. *)
Ltac dmlia := Z.div_mod_to_equations; lia.

(** Split the boolean comparisons of an [if] in the goal into propositions. *)
Ltac case_bool :=
  match goal with
  | |- context [?a <? ?b] => destruct (Z.ltb_spec a b)
  | |- context [?a <=? ?b] => destruct (Z.leb_spec a b)
  | |- context [?a =? ?b] => destruct (Z.eqb_spec a b)
  end.

(** Linear arithmetic with the word size made explicit. *)
Ltac ulia := unfold is_u64, W64 in *; lia.

(** Run the administrative commands at the head of a sequence. *)
Ltac mred :=
  repeat first [rewrite bind_get | rewrite bind_put | rewrite bind_modify | rewrite bind_gets
               | rewrite bind_ret | rewrite bind_ok_ret | progress cbn beta iota].

(** Run the first command of a sequence, given its outcome. *)
Tactic Notation "mstep" uconstr(lem) := erewrite bind_Done by (apply lem; ulia || done).

Create HintDb dusk.
#[export] Hint Resolve length_zset : dusk.
#[export] Hint Rewrite @length_zset : dusk.
#[export] Hint Rewrite @zget_zset_eq @zget_zset_ne using lia : dusk.
