(* ===== verification/Memory.v ===== *)
(** * Kernel memory and the shared memory types

    The byte-addressed memory the kernel reads and writes through the direct map,
    with the little-endian accesses of [ptr.read]/[ptr.write], and the data types
    of [src/memory/mod.rs]: memory regions, the boot memory map, the direct map,
    page permissions and boot strings. *)

From S2P Require Import Prelude.

(** ** Raw memory *)

(** Memory as the kernel addresses it: one 8-bit cell for every virtual address
    of the direct map.  Two memories are the same when every cell is. *)
Definition memory : Type := Z → Z.

Definition mem_eq (m m' : memory) : Prop := ∀ a, m a mod 256 = m' a mod 256.

Definition load8 (m : memory) (a : VirtualAddr) : Z := m a mod 256.

Definition store8 (m : memory) (a : VirtualAddr) (v : Z) : memory :=
  λ x, if x =? a then v mod 256 else m x.

(** [core::ptr::write_bytes(a, v, len)] *)
Definition write_bytes (m : memory) (a : VirtualAddr) (v len : Z) : memory :=
  λ x, if (a <=? x) && (x <? a + len) then v mod 256 else m x.

(** Little-endian access to [n] consecutive bytes. *)
Fixpoint load_le (n : nat) (m : memory) (a : VirtualAddr) : Z :=
  match n with
  | O => 0
  | S n => load8 m a + 256 * load_le n m (a + 1)
  end.

Fixpoint store_le (n : nat) (m : memory) (a : VirtualAddr) (v : Z) : memory :=
  match n with
  | O => m
  | S n => store8 (store_le n m (a + 1) (v / 256)) a v
  end.

Definition load64 (m : memory) (a : VirtualAddr) : Z := load_le 8 m a.
Definition store64 (m : memory) (a : VirtualAddr) (v : Z) : memory := store_le 8 m a v.

(** ** Data types of src/memory/mod.rs *)

Record PagePermissions := mkPagePermissions {
  writable : bool;
  executable : bool;
  user_accessible : bool;
}.

Inductive MemoryRegionKind :=
| Usable | RegionReserved | AcpiReclaimable | AcpiNvs | BadMemory
| BootloaderReclaimable | KernelAndModules | Framebuffer | MappedReserved.

#[export] Instance MemoryRegionKind_eq_dec : EqDecision MemoryRegionKind.
Proof. solve_decision. Defined.

Inductive CachePolicy := Uncacheable | WriteBack.

Record MemoryRegion := mkMemoryRegion {
  region_start : PhysicalAddr;
  region_length : usize;
  region_kind : MemoryRegionKind;
}.

Record DirectMap := mkDirectMap { offset : usize }.

Definition DirectMap_translate (self : DirectMap) (addr : PhysicalAddr) : option VirtualAddr :=
  checked_add addr (offset self).

Definition EMPTY_MEMORY_REGION : MemoryRegion := mkMemoryRegion 0 0 RegionReserved.
Definition MAX_MEMORY_REGIONS : usize := 128.

Inductive MemoryMapError := TooManyRegions.

Record MemoryMap := mkMemoryMap {
  entries : list MemoryRegion;
  len : usize;
}.

Definition MemoryMap_new : MemoryMap :=
  mkMemoryMap (replicate (Z.to_nat MAX_MEMORY_REGIONS) EMPTY_MEMORY_REGION) 0.

Definition MemoryMap_push (entry : MemoryRegion) : M MemoryMap (result unit MemoryMapError) :=
  let! self := get in
  if MAX_MEMORY_REGIONS <=? len self then ret (Err TooManyRegions)
  else
    do! massert (len self <? Z.of_nat (length (entries self))) "index out of bounds" ;;;
    let! len' := uadd (len self) 1 in
    do! put (mkMemoryMap (zset (entries self) (len self) entry) len') ;;;
    ret (Ok tt).

Definition MemoryMap_iter (self : MemoryMap) : list MemoryRegion :=
  take (Z.to_nat (len self)) (entries self).

(** [BootString<N>]: the command line copied into a fixed array. *)
Record BootString := mkBootString { bs_bytes : list Z; bs_len : usize }.

Definition BootString_from_bytes (N : usize) (bytes : list Z) : outcome BootString :=
  let len := Z.of_nat (length bytes) in
  if len <=? N
  then Done (mkBootString (bytes ++ replicate (Z.to_nat (N - len)) 0) len)
  else Panic "range end index out of range for slice".

(** The bytes [as_str] hands to [from_utf8]. *)
Definition BootString_as_bytes (self : BootString) : list Z :=
  take (Z.to_nat (bs_len self)) (bs_bytes self).

(** * Lemmas on memory *)

#[export] Instance mem_eq_equiv : Equivalence mem_eq.
Proof.
  split; [by intros m a|by intros m m' H a|].
  intros m1 m2 m3 H1 H2 a. by rewrite (H1 a), (H2 a).
Qed.

#[export] Instance load8_proper : Proper (mem_eq ==> eq ==> eq) load8.
Proof. intros m m' H a ? <-. apply H. Qed.

#[export] Instance load_le_proper n : Proper (mem_eq ==> eq ==> eq) (load_le n).
Proof.
  induction n as [|n IH]; intros m m' H a ? <-; simpl; [done|].
  rewrite (load8_proper m m' H a a eq_refl). by rewrite (IH m m' H (a + 1) (a + 1) eq_refl).
Qed.

#[export] Instance load64_proper : Proper (mem_eq ==> eq ==> eq) load64.
Proof. apply load_le_proper. Qed.

Lemma load8_range m a : 0 ≤ load8 m a < 256.
Proof. apply Z.mod_pos_bound. lia. Qed.

Lemma load8_store8_eq m a v : load8 (store8 m a v) a = v mod 256.
Proof. unfold load8, store8. rewrite Z.eqb_refl. apply Z.mod_mod. lia. Qed.

Lemma load8_store8_ne m a b v : a ≠ b → load8 (store8 m a v) b = load8 m b.
Proof. intros. unfold load8, store8. by rewrite (proj2 (Z.eqb_neq b a)) by congruence. Qed.

Lemma load8_write_bytes_in m a v n b :
  a ≤ b < a + n → load8 (write_bytes m a v n) b = v mod 256.
Proof.
  intros. unfold load8, write_bytes.
  rewrite (proj2 (Z.leb_le a b)), (proj2 (Z.ltb_lt b (a + n))) by lia. apply Z.mod_mod. lia.
Qed.

Lemma load8_write_bytes_out m a v n b :
  b < a ∨ a + n ≤ b → load8 (write_bytes m a v n) b = load8 m b.
Proof.
  intros. unfold load8, write_bytes.
  destruct (Z.leb_spec a b), (Z.ltb_spec b (a + n)); simpl; done || lia.
Qed.

Lemma load8_store_le_out n m a v b :
  b < a ∨ a + Z.of_nat n ≤ b → load8 (store_le n m a v) b = load8 m b.
Proof.
  revert m a v. induction n as [|n IH]; intros m a v H; simpl; [done|].
  rewrite load8_store8_ne by lia. apply IH. lia.
Qed.

Lemma load_le_ext n m m' a :
  (∀ b, a ≤ b < a + Z.of_nat n → load8 m b = load8 m' b) → load_le n m a = load_le n m' a.
Proof.
  revert a. induction n as [|n IH]; intros a H; simpl; [done|].
  rewrite (H a) by lia. rewrite (IH (a + 1)); [done|]. intros. apply H. lia.
Qed.

Lemma load_le_range n m a : 0 ≤ load_le n m a < 256 ^ Z.of_nat n.
Proof.
  revert a. induction n as [|n IH]; intros a; [done|].
  rewrite Nat2Z.inj_succ, Z.pow_succ_r by lia. simpl.
  pose proof (load8_range m a). pose proof (IH (a + 1)). lia.
Qed.

Lemma load_le_store_le_eq n m a v :
  0 ≤ v < 256 ^ Z.of_nat n → load_le n (store_le n m a v) a = v.
Proof.
  revert m a v. induction n as [|n IH]; intros m a v Hv.
  { simpl in *. lia. }
  rewrite Nat2Z.inj_succ, Z.pow_succ_r in Hv by lia. simpl.
  rewrite load8_store8_eq.
  rewrite (load_le_ext n _ (store_le n m (a + 1) (v / 256))).
  2:{ intros. apply load8_store8_ne. lia. }
  rewrite IH by (split; [dmlia|apply Z.div_lt_upper_bound; lia]). dmlia.
Qed.

Lemma load64_range m a : is_u64 (load64 m a).
Proof. apply (load_le_range 8). Qed.

Lemma load64_store64_eq m a v : is_u64 v → load64 (store64 m a v) a = v.
Proof. intros. by apply load_le_store_le_eq. Qed.

Lemma load8_store64_out m a v b :
  b < a ∨ a + 8 ≤ b → load8 (store64 m a v) b = load8 m b.
Proof. apply (load8_store_le_out 8). Qed.

Lemma load64_ext m m' a :
  (∀ b, a ≤ b < a + 8 → load8 m b = load8 m' b) → load64 m a = load64 m' a.
Proof. apply (load_le_ext 8). Qed.

Lemma load64_store64_ne m a b v :
  b + 8 ≤ a ∨ a + 8 ≤ b → load64 (store64 m a v) b = load64 m b.
Proof. intros. apply load64_ext. intros. apply load8_store64_out. lia. Qed.

Lemma load64_write_bytes_out m a v n b :
  b + 8 ≤ a ∨ a + n ≤ b → load64 (write_bytes m a v n) b = load64 m b.
Proof. intros. apply load64_ext. intros. apply load8_write_bytes_out. lia. Qed.

Lemma load64_zeroed m a n b :
  a ≤ b → b + 8 ≤ a + n → load64 (write_bytes m a 0 n) b = 0.
Proof.
  intros. unfold load64.
  assert (H8 : ∀ k c, a ≤ c → c + Z.of_nat k ≤ a + n →
    load_le k (write_bytes m a 0 n) c = 0).
  { induction k as [|k IH]; intros c H1 H2; simpl; [done|].
    rewrite load8_write_bytes_in, (IH (c + 1)) by lia. done. }
  apply H8; lia.
Qed.

(** ** The direct map *)

Lemma translate_Some dm p v :
  DirectMap_translate dm p = Some v ↔ v = p + offset dm ∧ p + offset dm < W64.
Proof. apply checked_add_Some. Qed.

Lemma translate_lt dm p : p + offset dm < W64 → DirectMap_translate dm p = Some (p + offset dm).
Proof. apply checked_add_lt. Qed.

(** ** The boot memory map *)

Definition MemoryMap_wf (self : MemoryMap) : Prop :=
  length (entries self) = 128%nat ∧ 0 ≤ len self ≤ MAX_MEMORY_REGIONS.

Lemma MemoryMap_new_wf : MemoryMap_wf MemoryMap_new.
Proof. done. Qed.

(** [push] appends to what [iter] yields, or reports a full map and changes nothing. *)
Lemma MemoryMap_push_spec self e :
  MemoryMap_wf self →
  if MAX_MEMORY_REGIONS <=? len self
  then MemoryMap_push e self = Done (Err TooManyRegions, self)
  else ∃ self', MemoryMap_push e self = Done (Ok tt, self') ∧ MemoryMap_wf self' ∧
         MemoryMap_iter self' = MemoryMap_iter self ++ [e].
Proof.
  intros [Hl [H0 H1]]. unfold MemoryMap_push, bind, get.
  destruct (Z.leb_spec MAX_MEMORY_REGIONS (len self)); [done|].
  rewrite Hl. unfold MAX_MEMORY_REGIONS in *.
  rewrite (proj2 (Z.ltb_lt (len self) _)) by lia. simpl.
  rewrite uadd_lt by (unfold W64; lia).
  eexists. split; [done|]. split.
  - split; simpl; [by rewrite length_zset|unfold MAX_MEMORY_REGIONS; lia].
  - unfold MemoryMap_iter; simpl. rewrite zset_insert by done.
    replace (Z.to_nat (len self + 1)) with (S (Z.to_nat (len self))) by lia.
    rewrite (take_S_r _ _ e) by (apply list_lookup_insert_eq; lia).
    by rewrite take_insert_ge by lia.
Qed.
