(* ===== verification/Bytes.v ===== *)
(** * Byte strings

    Slices of bytes, their indexing and sub-slicing, which panic or answer [None] out of range,
    and little-endian words.  Shared by the file formats and by the accesses to virtual memory. *)

From S2P Require Import Prelude Memory.

Abbreviation bytes := (list Z) (only parsing).

Definition is_bytes (b : bytes) : Prop := Forall (λ x, 0 ≤ x < 256) b.

Definition slice_len (b : bytes) : usize := Z.of_nat (length b).

(** [&b[start..end]] *)
Definition slice {S} (b : bytes) (start end_ : usize) : M S bytes :=
  do! massert (start <=? end_) "slice index starts after its end" ;;;
  do! massert (end_ <=? slice_len b) "range end index out of range" ;;;
  ret (take (Z.to_nat (end_ - start)) (drop (Z.to_nat start) b)).

(** [b.get(start..end)] *)
Definition slice_get (b : bytes) (start end_ : usize) : option bytes :=
  if (start <=? end_) && (end_ <=? slice_len b)
  then Some (take (Z.to_nat (end_ - start)) (drop (Z.to_nat start) b))
  else None.

(** [b.chunks_exact(n)]: a shorter rest is left out. *)
Definition chunks_exact (n : nat) (b : bytes) : list bytes :=
  (λ i, take n (drop (i * n) b)) <$> seq 0 (length b / n).

(** The bytes of a little-endian word. *)
Fixpoint le_bytes (n : nat) (v : Z) : list Z :=
  match n with
  | O => []
  | S n => v mod 256 :: le_bytes n (v / 256)
  end.

Fixpoint of_le_bytes (bytes : list Z) : Z :=
  match bytes with
  | [] => 0
  | b :: bytes => b + 256 * of_le_bytes bytes
  end.

(** The little-endian word of [n] bytes at an offset. *)
Definition word (n : nat) (b : bytes) (offset : usize) : Z :=
  of_le_bytes (take n (drop (Z.to_nat offset) b)).

(** ** Lemmas *)

Lemma slice_Done {S} b start end_ (s : S) :
  0 ≤ start ≤ end_ → end_ ≤ slice_len b →
  slice b start end_ s = Done (take (Z.to_nat (end_ - start)) (drop (Z.to_nat start) b), s).
Proof.
  intros H1 H2. unfold slice, massert. rewrite (proj2 (Z.leb_le start end_)) by lia. mred.
  by rewrite (proj2 (Z.leb_le end_ (slice_len b))) by lia.
Qed.

Lemma slice_sub {A} (b : list A) (i n : nat) :
  (i + n ≤ length b)%nat → ∃ pre post, b = pre ++ take n (drop i b) ++ post.
Proof.
  intros H. exists (take i b), (drop n (drop i b)). by rewrite take_drop, take_drop.
Qed.

Lemma length_le_bytes n v : length (le_bytes n v) = n.
Proof. revert v. induction n as [|n IH]; intros v; simpl; [done|]. by rewrite IH. Qed.

Lemma le_bytes_range n v : Forall (λ b, 0 ≤ b < 256) (le_bytes n v).
Proof.
  revert v. induction n as [|n IH]; intros v; simpl; constructor; [|done]. by apply Z.mod_pos_bound.
Qed.

Lemma of_le_bytes_le_bytes n v : 0 ≤ v < 256 ^ Z.of_nat n → of_le_bytes (le_bytes n v) = v.
Proof.
  revert v. induction n as [|n IH]; intros v Hv.
  { simpl in *. lia. }
  rewrite Nat2Z.inj_succ, Z.pow_succ_r in Hv by lia. simpl.
  rewrite IH by (split; [dmlia|apply Z.div_lt_upper_bound; lia]).
  pose proof (Z.div_mod v 256 ltac:(lia)). lia.
Qed.

Lemma of_le_bytes_range b : is_bytes b → 0 ≤ of_le_bytes b < 256 ^ slice_len b.
Proof.
  unfold slice_len. induction 1 as [|x b Hx _ IH]; [done|]. cbn [of_le_bytes length].
  rewrite Nat2Z.inj_succ, Z.pow_succ_r by lia. lia.
Qed.

Lemma is_bytes_slice b i n : is_bytes b → is_bytes (take n (drop i b)).
Proof. intros. by apply Forall_take, Forall_drop. Qed.

Lemma word_range n b offset : is_bytes b → 0 ≤ word n b offset < 256 ^ Z.of_nat n.
Proof.
  intros Hb. unfold word. pose proof (of_le_bytes_range _ (is_bytes_slice b (Z.to_nat offset) n Hb)).
  assert (256 ^ slice_len (take n (drop (Z.to_nat offset) b)) ≤ 256 ^ Z.of_nat n); [|lia].
  apply Z.pow_le_mono_r; [lia|]. unfold slice_len. rewrite length_take. lia.
Qed.

Lemma slice_get_Some b start end_ c :
  0 ≤ start →
  slice_get b start end_ = Some c ↔
  start ≤ end_ ∧ end_ ≤ slice_len b ∧ c = take (Z.to_nat (end_ - start)) (drop (Z.to_nat start) b).
Proof.
  intros H0. unfold slice_get.
  destruct (Z.leb_spec start end_), (Z.leb_spec end_ (slice_len b)); naive_solver lia.
Qed.

Lemma slice_get_length b start end_ c :
  0 ≤ start → slice_get b start end_ = Some c → slice_len c = end_ - start.
Proof.
  intros H0 H%slice_get_Some; [|done]. destruct H as (H1 & H2 & ->). unfold slice_len in *.
  rewrite length_take, length_drop. lia.
Qed.

Lemma chunks_exact_length n b c : c ∈ chunks_exact n b → length c = n.
Proof.
  unfold chunks_exact. rewrite list_elem_of_fmap. intros (i & -> & Hi%elem_of_seq).
  rewrite length_take, length_drop. destruct n as [|n]; [simpl; lia|].
  pose proof (Nat.div_mod_eq (length b) (Datatypes.S n)). nia.
Qed.

Lemma chunks_exact_join n (cs : list bytes) :
  (0 < n)%nat → Forall (λ c, length c = n) cs → chunks_exact n (mjoin cs) = cs.
Proof.
  intros Hn Hcs. unfold chunks_exact.
  assert (Hl : length (mjoin cs) = (length cs * n)%nat).
  { induction Hcs as [|c cs Hc _ IH]; [done|]. change (mjoin (c :: cs)) with (c ++ mjoin cs).
    rewrite length_app, IH. simpl. lia. }
  rewrite Hl, Nat.div_mul by lia. clear Hl. apply list_eq. intros i. rewrite list_lookup_fmap.
  destruct (decide (i < length cs)%nat) as [Hi|Hi].
  2: { rewrite lookup_seq_ge by lia. simpl. symmetry. apply lookup_ge_None. lia. }
  rewrite lookup_seq_lt by done. simpl.
  revert i Hi. induction Hcs as [|c cs Hc _ IH]; intros i Hi; [simpl in Hi; lia|].
  change (mjoin (c :: cs)) with (c ++ mjoin cs). destruct i as [|i].
  - simpl. rewrite drop_0, take_app_length'; done.
  - simpl in *. replace (n + i * n)%nat with (length c + i * n)%nat by lia. rewrite drop_app_add. apply IH. lia.
Qed.

Lemma chunks_exact_cons n b :
  (0 < n)%nat → (n ≤ length b)%nat → chunks_exact n b = take n b :: chunks_exact n (drop n b).
Proof.
  intros Hn Hl. unfold chunks_exact. rewrite length_drop.
  assert (E : (length b / n = S ((length b - n) / n))%nat).
  { replace (length b) with (length b - n + 1 * n)%nat at 1 by lia. rewrite Nat.div_add by lia. lia. }
  rewrite E. cbn [seq]. rewrite fmap_cons. cbn [Nat.mul]. rewrite drop_0. f_equal.
  rewrite <- fmap_S_seq, <- list_fmap_compose. apply list_fmap_ext. intros i x _. cbn [compose].
  rewrite drop_drop. do 2 f_equal.
Qed.

Lemma is_bytes_chunk n b c : is_bytes b → c ∈ chunks_exact n b → is_bytes c.
Proof.
  unfold chunks_exact. rewrite list_elem_of_fmap. intros Hb (i & -> & _). by apply is_bytes_slice.
Qed.
