(* ===== verification/Layout.v ===== *)
(** * Packed structures in memory

    [core::ptr::read_unaligned] of a [#[repr(C, packed)]] structure: a layout has the size of a
    type, how a value is read from memory and the bytes that stand for it.  Layouts of
    structures are put together from those of their fields, in the order of the fields. *)

From S2P Require Import Prelude Memory Bytes.

(** ** Definitions *)

(** The bytes from [a] on, [n] of them. *)
Definition bytes_at (m : memory) (a : VirtualAddr) (n : Z) : bytes :=
  (λ i, load8 m (a + i)) <$> range 0 n.

Record layout (T : Type) := mkLayout {
  size_of : Z;
  decode : bytes → T;
  encode : T → bytes;
}.
Arguments mkLayout {T}.
Arguments size_of {T}.
Arguments decode {T}.
Arguments encode {T}.

Definition read_unaligned {T} (l : layout T) (m : memory) (a : VirtualAddr) : T :=
  decode l (bytes_at m a (size_of l)).

(** An unsigned integer of [n] bytes. *)
Definition uint (n : nat) : layout Z := mkLayout (Z.of_nat n) of_le_bytes (le_bytes n).

(** [[u8; n]] *)
Definition byte_array (n : nat) : layout bytes := mkLayout (Z.of_nat n) id id.

Definition pair_layout {A B} (l : layout A) (r : layout B) : layout (A * B) :=
  mkLayout (size_of l + size_of r)
    (λ b, (decode l (take (Z.to_nat (size_of l)) b), decode r (drop (Z.to_nat (size_of l)) b)))
    (λ x, encode l x.1 ++ encode r x.2).

(** A structure whose fields are the nested pair [A]. *)
Definition struct {A B} (l : layout A) (make : A → B) (fields : B → A) : layout B :=
  mkLayout (size_of l) (λ b, make (decode l b)) (λ x, encode l (fields x)).

Infix "#>" := pair_layout (at level 45, right associativity) : dusk_scope.

(** Where the bytes [b] lie in memory. *)
Definition stored (m : memory) (a : VirtualAddr) (b : bytes) : Prop := bytes_at m a (slice_len b) = b.

(** ** Laws *)

(** A layout fits the values in [valid]: their bytes are as many as the size says, and they are
    read back. *)
Class LayoutOk {T} (l : layout T) (valid : T → Prop) : Prop := {
  encode_length x : valid x → slice_len (encode l x) = size_of l;
  decode_encode x : valid x → decode l (encode l x) = x;
}.

#[export] Instance uint_ok n : LayoutOk (uint n) (λ v, 0 ≤ v < 256 ^ Z.of_nat n).
Proof.
  split; intros x Hx; simpl; [by unfold slice_len; rewrite length_le_bytes|by apply of_le_bytes_le_bytes].
Qed.

#[export] Instance byte_array_ok n : LayoutOk (byte_array n) (λ b, length b = n).
Proof. split; intros x Hx; simpl; [by unfold slice_len; subst|done]. Qed.

#[export] Instance pair_ok {A B} (l : layout A) (r : layout B) P Q :
  LayoutOk l P → LayoutOk r Q → LayoutOk (l #> r) (λ x, P x.1 ∧ Q x.2).
Proof.
  intros Hl Hr. split; intros [x y] [Hx Hy]; simpl in *.
  - unfold slice_len. rewrite length_app, Nat2Z.inj_add.
    change (slice_len (encode l x) + slice_len (encode r y) = size_of l + size_of r).
    by rewrite (encode_length x Hx), (encode_length y Hy).
  - rewrite <- (encode_length x Hx). unfold slice_len. rewrite Nat2Z.id, take_app_length, drop_app_length.
    by rewrite (decode_encode x Hx), (decode_encode y Hy).
Qed.

Lemma struct_ok {A B} (l : layout A) (make : A → B) fields P :
  LayoutOk l P → (∀ x, make (fields x) = x) → LayoutOk (struct l make fields) (λ x, P (fields x)).
Proof.
  intros Hl Hm. split; intros x Hx; simpl; [by apply encode_length|].
  by rewrite (decode_encode (fields x) Hx).
Qed.

(** ** Bytes in memory *)

Lemma length_bytes_at m a n : length (bytes_at m a n) = Z.to_nat n.
Proof. unfold bytes_at. rewrite length_fmap. unfold range. rewrite length_seqZ. lia. Qed.

Lemma slice_len_bytes_at m a n : 0 ≤ n → slice_len (bytes_at m a n) = n.
Proof. intros. unfold slice_len. rewrite length_bytes_at. lia. Qed.

Lemma bytes_at_lookup m a n i :
  bytes_at m a n !! i = if decide (Z.of_nat i < n) then Some (load8 m (a + Z.of_nat i)) else None.
Proof.
  unfold bytes_at. rewrite list_lookup_fmap. unfold range. case_decide.
  - rewrite lookup_seqZ_lt by lia. simpl. do 2 f_equal.
  - by rewrite lookup_seqZ_ge by lia.
Qed.

Lemma bytes_at_app m a n k : 0 ≤ n → 0 ≤ k → bytes_at m a (n + k) = bytes_at m a n ++ bytes_at m (a + n) k.
Proof.
  intros. apply list_eq. intros i. rewrite bytes_at_lookup.
  destruct (decide (Z.of_nat i < n)).
  - rewrite lookup_app_l, bytes_at_lookup, !decide_True by (rewrite ?length_bytes_at; lia). done.
  - rewrite lookup_app_r, length_bytes_at, bytes_at_lookup by (rewrite length_bytes_at; lia).
    destruct (decide (Z.of_nat i < n + k)); [rewrite decide_True by lia|by rewrite decide_False by lia].
    do 2 f_equal. lia.
Qed.

Lemma is_bytes_bytes_at m a n : is_bytes (bytes_at m a n).
Proof. apply Forall_fmap, Forall_forall. intros i _. apply load8_range. Qed.

(** What is read depends on nothing but the bytes of the structure. *)
Lemma bytes_at_ext m m' a n :
  (∀ x, a ≤ x < a + n → load8 m x = load8 m' x) → bytes_at m a n = bytes_at m' a n.
Proof.
  intros H. apply list_eq. intros i. rewrite !bytes_at_lookup. case_decide; [|done]. f_equal. apply H. lia.
Qed.

Lemma read_unaligned_ext {T} (l : layout T) m m' a :
  (∀ x, a ≤ x < a + size_of l → load8 m x = load8 m' x) → read_unaligned l m a = read_unaligned l m' a.
Proof. intros H. unfold read_unaligned. by rewrite (bytes_at_ext m m' a (size_of l)). Qed.

Lemma stored_app m a b c : stored m a (b ++ c) ↔ stored m a b ∧ stored m (a + slice_len b) c.
Proof.
  unfold stored. assert (E : slice_len (b ++ c) = slice_len b + slice_len c)
    by (unfold slice_len; rewrite length_app; lia).
  rewrite E, bytes_at_app by (unfold slice_len; lia). split.
  - intros H. apply app_inj_1 in H; [done|]. rewrite length_bytes_at. unfold slice_len. lia.
  - by intros [-> ->].
Qed.

(** Reading back what was laid out. *)
Lemma read_stored {T} (l : layout T) valid `{!LayoutOk l valid} m a x :
  valid x → stored m a (encode l x) → read_unaligned l m a = x.
Proof.
  intros Hx Hs. unfold read_unaligned. rewrite <- (encode_length x Hx). unfold stored in Hs. rewrite Hs.
  by apply decode_encode.
Qed.
