(* ===== verification/Machine.v ===== *)
(** * The processor

    The part of x86_64 that the kernel's assembly uses: the general registers, the stack, [swapgs],
    the ways into the kernel ([syscall] and interrupts) and out of it ([sysretq] and [iretq]).
    Memory is addressed by virtual addresses.  The arithmetic flags are left out but for the zero
    flag, the only one the assembly tests; [rflags] is what the processor pushes and loads. *)

From S2P Require Import Prelude Memory.

(** ** State *)

Inductive reg := RAX | RBX | RCX | RDX | RSI | RDI | RBP | RSP | R8 | R9 | R10 | R11 | R12 | R13 | R14 | R15.

#[export] Instance reg_eq_dec : EqDecision reg.
Proof. solve_decision. Defined.

Record cpu := mkCpu {
  regs : reg → Z;
  rip : Z;
  rflags : Z;
  zf : bool;
  cs : Z;
  ss : Z;
  msrs : Z → Z;
  ram : memory;
}.

Definition set_reg (r : reg) (v : Z) (c : cpu) : cpu :=
  mkCpu (λ x, if decide (x = r) then v else regs c x) (rip c) (rflags c) (zf c) (cs c) (ss c) (msrs c) (ram c).
Definition set_rip (v : Z) (c : cpu) : cpu :=
  mkCpu (regs c) v (rflags c) (zf c) (cs c) (ss c) (msrs c) (ram c).
Definition set_rflags (v : Z) (c : cpu) : cpu :=
  mkCpu (regs c) (rip c) v (zf c) (cs c) (ss c) (msrs c) (ram c).
Definition set_zf (b : bool) (c : cpu) : cpu :=
  mkCpu (regs c) (rip c) (rflags c) b (cs c) (ss c) (msrs c) (ram c).
Definition set_segments (code stack : Z) (c : cpu) : cpu :=
  mkCpu (regs c) (rip c) (rflags c) (zf c) code stack (msrs c) (ram c).
Definition set_msr (i v : Z) (c : cpu) : cpu :=
  mkCpu (regs c) (rip c) (rflags c) (zf c) (cs c) (ss c) (λ x, if x =? i then v else msrs c x) (ram c).
Definition set_ram (m : memory) (c : cpu) : cpu :=
  mkCpu (regs c) (rip c) (rflags c) (zf c) (cs c) (ss c) (msrs c) m.

(** The privilege level is that of the code segment. *)
Definition cpl (c : cpu) : Z := Z.land (cs c) 3.

Definition IA32_EFER : Z := 0xC0000080.
Definition IA32_STAR : Z := 0xC0000081.
Definition IA32_LSTAR : Z := 0xC0000082.
Definition IA32_CSTAR : Z := 0xC0000083.
Definition IA32_FMASK : Z := 0xC0000084.
Definition IA32_GS_BASE : Z := 0xC0000101.
Definition IA32_KERNEL_GS_BASE : Z := 0xC0000102.

Definition gs_base (c : cpu) : Z := msrs c IA32_GS_BASE.
Definition kernel_gs_base (c : cpu) : Z := msrs c IA32_KERNEL_GS_BASE.

Definition wrap64 (v : Z) : Z := v mod W64.

(** ** Instructions *)

Inductive operand :=
| Reg (r : reg)
| Imm (v : Z)
| Mem (base : reg) (disp : Z)   (* [base + disp] *)
| Gs (disp : Z).                (* gs:[disp] *)

Inductive instr :=
| Push (o : operand)
| Pop (o : operand)
| Mov (dst src : operand)
| Xor (r : reg)                 (* xor r, r *)
| AddRsp (n : Z)                (* add rsp, n *)
| Swapgs
| Cld
| TestByte (o : operand) (mask : Z)
| Jz (skipped : nat)            (* jz over so many instructions *)
| LoadSegment                   (* mov ds/es/fs, selector *)
| LoadGs                        (* mov gs, selector *)
| Call (f : cpu → cpu)          (* a function of the kernel *)
| Ret
| Iretq
| Sysretq.

Definition address_of (o : operand) (c : cpu) : Z :=
  match o with
  | Mem base disp => wrap64 (regs c base + disp)
  | Gs disp => wrap64 (gs_base c + disp)
  | Reg _ | Imm _ => 0
  end.

Definition value_of (o : operand) (c : cpu) : Z :=
  match o with
  | Reg r => regs c r
  | Imm v => v
  | Mem _ _ | Gs _ => load64 (ram c) (address_of o c)
  end.

Definition assign (o : operand) (v : Z) (c : cpu) : cpu :=
  match o with
  | Reg r => set_reg r v c
  | Imm _ => c
  | Mem _ _ | Gs _ => set_ram (store64 (ram c) (address_of o c) v) c
  end.

Definition push (v : Z) (c : cpu) : cpu :=
  let sp := wrap64 (regs c RSP - 8) in set_ram (store64 (ram c) sp v) (set_reg RSP sp c).

Definition popped (c : cpu) : Z := load64 (ram c) (regs c RSP).
Definition drop_top (c : cpu) : cpu := set_reg RSP (wrap64 (regs c RSP + 8)) c.

(** The word the processor takes from the stack in place [i]. *)
Definition stack_word (c : cpu) (i : Z) : Z := load64 (ram c) (wrap64 (regs c RSP + 8 * i)).

Definition swapgs (c : cpu) : cpu :=
  set_msr IA32_GS_BASE (kernel_gs_base c) (set_msr IA32_KERNEL_GS_BASE (gs_base c) c).

(** [iretq] takes rip, cs, rflags, rsp and ss. *)
Definition iretq (c : cpu) : cpu :=
  set_rip (stack_word c 0) (set_segments (stack_word c 1) (stack_word c 4)
    (set_rflags (stack_word c 2) (set_reg RSP (stack_word c 3) c))).

(** [sysretq] returns to rcx with the flags in r11 and the user segments that STAR names. *)
Definition SYSRET_FLAGS : Z := 0x3C7FD7.

Definition sysretq (c : cpu) : cpu :=
  let base := Z.land (Z.shiftr (msrs c IA32_STAR) 48) 0xFFFF in
  set_rip (regs c RCX) (set_segments (Z.lor (base + 16) 3) (Z.lor (base + 8) 3)
    (set_rflags (Z.lor (Z.land (regs c R11) SYSRET_FLAGS) 2) c)).

(** The address that [Call] pushes is not looked at by any of the code; [rip] is tracked only where
    control leaves it. *)
Definition exec (i : instr) (c : cpu) : cpu :=
  match i with
  | Push o => push (value_of o c) c
  | Pop o => assign o (popped c) (drop_top c)
  | Mov dst src => assign dst (value_of src c) c
  | Xor r => set_reg r 0 c
  | AddRsp n => set_reg RSP (wrap64 (regs c RSP + n)) c
  | Swapgs => swapgs c
  | Cld => set_rflags (Z.land (rflags c) (not64 (Z.shiftl 1 10))) c
  | TestByte o mask => set_zf (Z.land (load8 (ram c) (address_of o c)) mask =? 0) c
  | Jz _ => c
  | LoadSegment => c
  | LoadGs => set_msr IA32_GS_BASE 0 c
  | Call f => f (push (rip c) c)
  | Ret => set_rip (popped c) (drop_top c)
  | Iretq => iretq c
  | Sysretq => sysretq c
  end.

(** Straight-line code with forward jumps: [skip] instructions are still to be jumped over. *)
Fixpoint run_from (skip : nat) (l : list instr) (c : cpu) : cpu :=
  match l with
  | [] => c
  | i :: l =>
      match skip with
      | S skip => run_from skip l c
      | O => match i with
             | Jz n => run_from (if zf c then n else O) l c
             | i => run_from O l (exec i c)
             end
      end
  end.

Definition run (l : list instr) (c : cpu) : cpu := run_from 0 l c.

(** ** Into the kernel *)

(** [syscall], executed at the instruction before [rip]. *)
Definition syscall (c : cpu) : cpu :=
  let star := Z.land (Z.shiftr (msrs c IA32_STAR) 32) 0xFFFC in
  set_rip (msrs c IA32_LSTAR) (set_segments star (star + 8)
    (set_rflags (Z.land (rflags c) (not64 (msrs c IA32_FMASK)))
      (set_reg RCX (rip c) (set_reg R11 (rflags c) c)))).

Definition push_all (vs : list Z) (c : cpu) : cpu := fold_left (λ c v, push v c) vs c.

(** An interrupt through an interrupt gate: the stack is that of the task state segment when the
    code interrupted is the user's, aligned to 16 bytes in any case; [error] is the error code of
    the exceptions that have one. *)
Definition interrupt (entry selector rsp0 : Z) (error : option Z) (c : cpu) : cpu :=
  let sp := if cpl c =? 3 then rsp0 else regs c RSP in
  let c' := push_all ([ss c; regs c RSP; rflags c; cs c; rip c] ++ match error with Some e => [e] | None => [] end)
              (set_reg RSP (Z.land sp (not64 15)) c) in
  set_rip entry (set_segments selector (if cpl c =? 3 then 0 else ss c)
    (set_rflags (Z.land (rflags c) (not64 0x34300)) c')).

(** ** The stack *)

(** The words [ws] lie at [a], the first one lowest. *)
Definition words_at (m : memory) (a : Z) (ws : list Z) : Prop :=
  ∀ i w, ws !! i = Some w → load64 m (a + 8 * Z.of_nat i) = w.

(** Memory is the same but for the bytes in [[lo, hi)]. *)
Definition same_but (lo hi : Z) (m m' : memory) : Prop := ∀ x, x < lo ∨ hi ≤ x → load8 m x = load8 m' x.

Lemma same_but_refl lo hi m : same_but lo hi m m.
Proof. by intros x _. Qed.

Lemma same_but_trans lo hi m1 m2 m3 : same_but lo hi m1 m2 → same_but lo hi m2 m3 → same_but lo hi m1 m3.
Proof. intros H1 H2 x Hx. by rewrite (H1 x Hx), (H2 x Hx). Qed.

Lemma same_but_weaken lo hi lo' hi' m m' : same_but lo hi m m' → lo' ≤ lo → hi ≤ hi' → same_but lo' hi' m m'.
Proof. intros H H1 H2 x Hx. apply H. lia. Qed.

Lemma same_but_store lo hi m a v : lo ≤ a → a + 8 ≤ hi → same_but lo hi m (store64 m a v).
Proof. intros H1 H2 x Hx. symmetry. apply load8_store64_out. lia. Qed.

Lemma same_but_load64 lo hi m m' a : same_but lo hi m m' → a + 8 ≤ lo ∨ hi ≤ a → load64 m' a = load64 m a.
Proof. intros H Ha. apply load64_ext. intros x Hx. symmetry. apply H. lia. Qed.

Lemma words_at_cons m a w ws : words_at m a (w :: ws) ↔ load64 m a = w ∧ words_at m (a + 8) ws.
Proof.
  split.
  - intros H. split; [rewrite <- (H 0%nat w eq_refl); f_equal; lia|].
    intros i x Hi. rewrite <- (H (S i) x Hi). f_equal. lia.
  - intros [H1 H2] [|i] x Hi; [simplify_eq/=; f_equal; lia|]. rewrite <- (H2 i x Hi). f_equal. lia.
Qed.

Lemma words_at_nil m a : words_at m a [].
Proof. by intros i w Hi. Qed.

Lemma words_at_same lo hi m m' a ws :
  same_but lo hi m m' → words_at m a ws → a + 8 * Z.of_nat (length ws) ≤ lo ∨ hi ≤ a → words_at m' a ws.
Proof.
  intros H Hw Ha i w Hi. rewrite (same_but_load64 lo hi m m'); [by apply Hw|done|].
  apply lookup_lt_Some in Hi. lia.
Qed.

(** ** Running code *)

Lemma wrap64_small v : 0 ≤ v < W64 → wrap64 v = v.
Proof. apply Z.mod_small. Qed.

Lemma run_nil c : run [] c = c.
Proof. done. Qed.

Lemma run_cons i l c : (∀ n, i ≠ Jz n) → run (i :: l) c = run l (exec i c).
Proof. intros H. unfold run. simpl. destruct i; try done. by edestruct H. Qed.

Lemma run_app l l' c : Forall (λ i, ∀ n, i ≠ Jz n) l → run (l ++ l') c = run l' (run l c).
Proof. intros H. revert c. induction H as [|i l Hi _ IH]; intros c; [done|]. simpl. rewrite !run_cons by done. apply IH. Qed.

Lemma regs_set_reg_eq r v c : regs (set_reg r v c) r = v.
Proof. cbn. by rewrite decide_True. Qed.

Lemma regs_set_reg_ne r r' v c : r' ≠ r → regs (set_reg r v c) r' = regs c r'.
Proof. intros. cbn. by rewrite decide_False. Qed.

(** Everything but the general registers and memory is as before. *)
Record rest_same (c c' : cpu) : Prop := {
  rs_rip : rip c' = rip c;
  rs_rflags : rflags c' = rflags c;
  rs_zf : zf c' = zf c;
  rs_cs : cs c' = cs c;
  rs_ss : ss c' = ss c;
  rs_msrs : msrs c' = msrs c;
}.

#[export] Instance rest_same_preorder : PreOrder rest_same.
Proof. split; [by split|]. intros c1 c2 c3 [] []. split; congruence. Qed.

(** Pushing registers one after the other. *)
Record pushed (rs : list reg) (c c' : cpu) : Prop := {
  pu_rsp : regs c' RSP = regs c RSP - 8 * Z.of_nat (length rs);
  pu_regs : ∀ r, r ≠ RSP → regs c' r = regs c r;
  pu_rest : rest_same c c';
  pu_words : words_at (ram c') (regs c' RSP) (rev (regs c <$> rs));
  pu_ram : same_but (regs c' RSP) (regs c RSP) (ram c) (ram c');
}.

Lemma words_at_app m a ws ws' :
  words_at m a (ws ++ ws') ↔ words_at m a ws ∧ words_at m (a + 8 * Z.of_nat (length ws)) ws'.
Proof.
  revert a. induction ws as [|w ws IH]; intros a.
  { cbn [app length]. rewrite Z.add_0_r. pose proof (words_at_nil m a). tauto. }
  cbn [app]. rewrite !words_at_cons, IH. cbn [length].
  replace (a + 8 + 8 * Z.of_nat (length ws)) with (a + 8 * Z.of_nat (S (length ws))) by lia. tauto.
Qed.

Lemma run_pushes (rs : list reg) c :
  RSP ∉ rs → 8 * Z.of_nat (length rs) ≤ regs c RSP < W64 → Forall (λ r, is_u64 (regs c r)) rs →
  pushed rs c (run (Push ∘ Reg <$> rs) c).
Proof.
  revert c. induction rs as [|r rs IH]; intros c Hn Hb Hu.
  { rewrite fmap_nil, run_nil. split; cbn [length]; [lia|done|done|apply words_at_nil|apply same_but_refl]. }
  rewrite fmap_cons, run_cons by done. cbn [length] in Hb. apply not_elem_of_cons in Hn as [Hr Hn].
  apply Forall_cons in Hu as [Hu Hus]. set (c1 := exec _ c).
  assert (H1 : regs c1 RSP = regs c RSP - 8) by (apply wrap64_small; lia).
  assert (H2 : ∀ x, x ≠ RSP → regs c1 x = regs c x) by (intros x Hx; cbn; by rewrite decide_False).
  assert (H3 : ram c1 = store64 (ram c) (regs c RSP - 8) (regs c r)) by (cbn; by rewrite wrap64_small by lia).
  destruct (IH c1) as [P1 P2 P3 P4 P5]; [done|lia| |].
  { eapply Forall_impl; [|intros x Hx; exact Hx]. apply Forall_forall. intros x Hx. rewrite H2 by (intros ->; done).
    by apply (proj1 (Forall_forall _ _) Hus). }
  assert (Hm : regs c1 <$> rs = regs c <$> rs).
  { apply list_fmap_ext. intros i x Hi. apply H2. intros ->. apply Hn. by eapply list_elem_of_lookup_2. }
  split.
  - rewrite P1, H1. cbn [length]. lia.
  - intros x Hx. rewrite P2, H2; done.
  - etransitivity; [|exact P3]. by split.
  - cbn [fmap list_fmap rev]. apply words_at_app. rewrite Hm in P4. split; [exact P4|].
    rewrite length_rev, length_fmap, P1, H1. apply words_at_cons. split; [|apply words_at_nil].
    rewrite (same_but_load64 _ _ _ _ _ P5) by (right; lia). rewrite H3.
    replace (_ + _) with (regs c RSP - 8) by lia. by apply load64_store64_eq.
  - eapply same_but_trans; [|eapply same_but_weaken; [exact P5|lia|lia]].
    rewrite H3. apply same_but_store; lia.
Qed.

(** Popping registers one after the other. *)
Record pop_into (rs : list reg) (ws : list Z) (c c' : cpu) : Prop := {
  po_rsp : regs c' RSP = regs c RSP + 8 * Z.of_nat (length rs);
  po_regs : ∀ i r w, rs !! i = Some r → ws !! i = Some w → regs c' r = w;
  po_others : ∀ r, r ∉ rs → r ≠ RSP → regs c' r = regs c r;
  po_rest : rest_same c c';
  po_ram : ram c' = ram c;
}.

Lemma run_pops (rs : list reg) (ws : list Z) c :
  RSP ∉ rs → NoDup rs → length ws = length rs → 0 ≤ regs c RSP →
  regs c RSP + 8 * Z.of_nat (length rs) < W64 → words_at (ram c) (regs c RSP) ws →
  pop_into rs ws c (run (Pop ∘ Reg <$> rs) c).
Proof.
  revert ws c. induction rs as [|r rs IH]; intros ws c Hn Hd Hl H0 Hb Hw.
  { rewrite fmap_nil, run_nil. split; cbn [length]; [lia|done|done|done|done]. }
  destruct ws as [|w ws]; [done|]. rewrite fmap_cons, run_cons by done. cbn [length] in Hb.
  apply not_elem_of_cons in Hn as [Hr Hn]. apply NoDup_cons in Hd as [Hd Hds].
  apply words_at_cons in Hw as [Hw Hws]. set (c1 := exec _ c).
  assert (H1 : regs c1 RSP = regs c RSP + 8).
  { cbn. rewrite decide_False by done. cbn. apply wrap64_small. lia. }
  assert (H2 : regs c1 r = w) by (cbn; rewrite decide_True by done; exact Hw).
  assert (H3 : ∀ x, x ≠ r → x ≠ RSP → regs c1 x = regs c x)
    by (intros x Hx Hx'; cbn; rewrite decide_False by done; cbn; by rewrite decide_False).
  destruct (IH ws c1) as [P1 P2 P3 P4 P5]; [done|done|by injection Hl|lia|lia|by rewrite H1|].
  split.
  - rewrite P1, H1. cbn [length]. lia.
  - intros [|i] x y Hi Hy; cbn in Hi, Hy; [|by eapply P2]. injection Hi as <-. injection Hy as <-.
    by rewrite P3.
  - intros x [Hx Hx']%not_elem_of_cons Hx''. by rewrite P3, H3.
  - etransitivity; [|exact P4]. by split.
  - by rewrite P5.
Qed.

Lemma run_push_imms vs c : run (Push ∘ Imm <$> vs) c = push_all vs c.
Proof. revert c. induction vs as [|v vs IH]; intros c; [done|]. rewrite fmap_cons, run_cons by done. apply IH. Qed.

Lemma push_all_app vs ws c : push_all (vs ++ ws) c = push_all ws (push_all vs c).
Proof. apply fold_left_app. Qed.

(** Pushing looks at nothing but the registers and memory. *)
Lemma push_all_view vs c d :
  regs c = regs d → ram c = ram d →
  regs (push_all vs c) = regs (push_all vs d) ∧ ram (push_all vs c) = ram (push_all vs d) ∧ rest_same c (push_all vs c).
Proof.
  revert c d. induction vs as [|v vs IH]; intros c d Hr Hm; [done|].
  destruct (IH (push v c) (push v d)) as (H1 & H2 & H3).
  - unfold push. cbn [set_ram set_reg regs]. by rewrite Hr.
  - unfold push. cbn [set_ram set_reg ram regs]. by rewrite Hr, Hm.
  - split_and!; [exact H1|exact H2|]. by transitivity (push v c).
Qed.
