(* ===== verification/Descriptors.v ===== *)
(** * Descriptor tables

    Model of [src/arch/x86_64/gdt.rs] and of [src/arch/x86_64/interrupts/idt.rs] with the vectors
    that [exceptions.rs] and [apic_vectors.rs] install, and the decoding of descriptors that the
    processor does. *)

From S2P Require Import Prelude Memory Bytes Layout.

(** ** Segments *)

Definition KERNEL_CODE_SELECTOR : Z := 1 * 8.
Definition KERNEL_DATA_SELECTOR : Z := 2 * 8.
Definition USER_DATA_SELECTOR : Z := Z.lor (3 * 8) 3.
Definition USER_CODE_SELECTOR : Z := Z.lor (4 * 8) 3.
Definition TSS_SELECTOR : Z := 5 * 8.

Definition DOUBLE_FAULT_STACK_SIZE : usize := 16 * 1024.

Definition SEGMENT_PRESENT : Z := Z.shiftl 1 47.
Definition CODE_DATA_DESCRIPTOR : Z := Z.shiftl 1 44.
Definition USER_PRIVILEGE : Z := Z.shiftl 3 45.
Definition EXECUTABLE : Z := Z.shiftl 1 43.
Definition READ_WRITE : Z := Z.shiftl 1 41.
Definition GRANULARITY : Z := Z.shiftl 1 55.
Definition SIZE : Z := Z.shiftl 1 54.
Definition LONG_MODE : Z := Z.shiftl 1 53.

(** [a | b | ...] *)
Definition flags (l : list Z) : Z := foldr Z.lor 0 l.

Definition kernel_code_descriptor : Z :=
  flags [SEGMENT_PRESENT; CODE_DATA_DESCRIPTOR; EXECUTABLE; READ_WRITE; LONG_MODE; GRANULARITY].
Definition kernel_data_descriptor : Z :=
  flags [SEGMENT_PRESENT; CODE_DATA_DESCRIPTOR; READ_WRITE; SIZE; GRANULARITY].
Definition user_code_descriptor : Z :=
  flags [SEGMENT_PRESENT; CODE_DATA_DESCRIPTOR; USER_PRIVILEGE; EXECUTABLE; READ_WRITE; LONG_MODE; GRANULARITY].
Definition user_data_descriptor : Z :=
  flags [SEGMENT_PRESENT; CODE_DATA_DESCRIPTOR; USER_PRIVILEGE; READ_WRITE; SIZE; GRANULARITY].

Record TaskStateSegment := mkTss {
  privilege_stacks : list Z;   (* [u64; 3] *)
  interrupt_stacks : list Z;   (* [u64; 7] *)
  iomap_base : Z;
}.

(** Its layout in memory, with the reserved fields. *)
Definition Tss_layout : layout TaskStateSegment :=
  struct (uint 4 #> (uint 8 #> uint 8 #> uint 8) #> uint 8 #>
          (uint 8 #> uint 8 #> uint 8 #> uint 8 #> uint 8 #> uint 8 #> uint 8) #> uint 8 #> uint 2 #> uint 2)
    (λ '(_, ((p0, (p1, p2)), (_, ((i0, (i1, (i2, (i3, (i4, (i5, i6)))))), (_, (_, io)))))),
       mkTss [p0; p1; p2] [i0; i1; i2; i3; i4; i5; i6] io)
    (λ t, let p i := default 0 (zget (privilege_stacks t) i) in
          let s i := default 0 (zget (interrupt_stacks t) i) in
          (0, ((p 0, (p 1, p 2)), (0, ((s 0, (s 1, (s 2, (s 3, (s 4, (s 5, s 6)))))), (0, (0, iomap_base t))))))).

Definition SIZE_OF_TSS : Z := size_of Tss_layout.

Definition TaskStateSegment_new : TaskStateSegment := mkTss (replicate 3 0) (replicate 7 0) SIZE_OF_TSS.

(** [tss as u64] is [base]. *)
Definition tss_descriptor (base : Z) : Z * Z :=
  let limit := SIZE_OF_TSS - 1 in
  (flags [Z.land limit 0xFFFF; Z.shiftl (Z.land base 0x00FFFFFF) 16; Z.shiftl 0x09 40; Z.shiftl 1 47;
          Z.shiftl (Z.land (Z.shiftr limit 16) 0x0F) 48; Z.shiftl (Z.land (Z.shiftr base 24) 0xFF) 56],
   Z.shiftr base 32).

(** The table and the task state segment that [gdt::init] leaves, given where the segment and the
    double fault stack lie. *)
Definition gdt_init (tss_base double_fault_stack : Z) : list Z * TaskStateSegment :=
  let stack_top := double_fault_stack + DOUBLE_FAULT_STACK_SIZE in
  let tss := TaskStateSegment_new in
  let tss := mkTss (privilege_stacks tss) (zset (interrupt_stacks tss) 0 stack_top) (iomap_base tss) in
  let '(tss_low, tss_high) := tss_descriptor tss_base in
  ([0; kernel_code_descriptor; kernel_data_descriptor; user_data_descriptor; user_code_descriptor;
    tss_low; tss_high], tss).

Definition gdt_set_kernel_stack (stack_top : VirtualAddr) (tss : TaskStateSegment) : TaskStateSegment :=
  mkTss (zset (privilege_stacks tss) 0 stack_top) (interrupt_stacks tss) (iomap_base tss).

(** ** How the processor reads them *)

Definition field (v lo n : Z) : Z := Z.land (Z.shiftr v lo) (Z.ones n).

(** The descriptor a selector names. *)
Definition descriptor_of (gdt : list Z) (selector : Z) : option Z := zget gdt (Z.shiftr selector 3).

Record SegmentInfo := mkSegmentInfo {
  seg_present : bool; seg_dpl : Z; seg_system : bool; seg_code : bool; seg_long : bool; seg_default_32 : bool;
}.

Definition segment_info (d : Z) : SegmentInfo :=
  mkSegmentInfo (Z.testbit d 47) (field d 45 2) (negb (Z.testbit d 44)) (Z.testbit d 43)
    (Z.testbit d 53) (Z.testbit d 54).

Definition tss_base_of (low high : Z) : Z :=
  Z.lor (Z.lor (field low 16 24) (Z.shiftl (field low 56 8) 24)) (Z.shiftl high 32).
Definition tss_limit_of (low : Z) : Z := Z.lor (field low 0 16) (Z.shiftl (field low 48 4) 16).
Definition system_type_of (low : Z) : Z := field low 40 4.

(** ** Gates *)

Record IdtEntry := mkIdtEntry {
  offset_low : Z; code_selector : Z; ist : Z; attributes : Z; offset_middle : Z; offset_high : Z;
}.

Definition IdtEntry_layout : layout IdtEntry :=
  struct (uint 2 #> uint 2 #> uint 1 #> uint 1 #> uint 2 #> uint 4 #> uint 4)
    (λ '(l, (c, (i, (a, (mi, (h, _)))))), mkIdtEntry l c i a mi h)
    (λ e, (offset_low e, (code_selector e, (ist e, (attributes e, (offset_middle e, (offset_high e, 0))))))).

Definition IdtEntry_missing : IdtEntry := mkIdtEntry 0 0 0 0 0 0.

Definition INTERRUPT_GATE : Z := 14.
Definition GATE_PRESENT : Z := Z.shiftl 1 7.
Definition KERNEL_INTERRUPT_GATE : Z := Z.lor GATE_PRESENT INTERRUPT_GATE.
Definition USER_DPL : Z := Z.shiftl 3 5.
Definition USER_INTERRUPT_GATE : Z := flags [GATE_PRESENT; USER_DPL; INTERRUPT_GATE].

Abbreviation Idt := (list IdtEntry) (only parsing).

Definition Idt_new : Idt := replicate 256 IdtEntry_missing.

Definition set_handler_address (idt : Idt) (vector address ist attributes : Z) : Idt :=
  zset idt vector
    (mkIdtEntry (address mod 2 ^ 16) KERNEL_CODE_SELECTOR (Z.land ist 7) attributes
       (Z.shiftr address 16 mod 2 ^ 16) (Z.shiftr address 32 mod 2 ^ 32)).

Definition set_handler (vector handler ist : Z) (idt : Idt) : Idt :=
  set_handler_address idt vector handler ist KERNEL_INTERRUPT_GATE.
Definition set_user_handler (vector handler ist : Z) (idt : Idt) : Idt :=
  set_handler_address idt vector handler ist USER_INTERRUPT_GATE.

Definition PIT_CALIBRATION_VECTOR : Z := 0xF1.
Definition APIC_TIMER_VECTOR : Z := 0xFD.
Definition APIC_ERROR_VECTOR : Z := 0xFE.
Definition APIC_SPURIOUS_VECTOR : Z := 0xFF.

Section idt.
(** The address of the stub that is generated for a vector. *)
Context (stub : Z → Z).

Definition exceptions_install (idt : Idt) : Idt :=
  let idt := set_handler 0 (stub 0) 0 idt in
  let idt := set_handler 1 (stub 1) 0 idt in
  let idt := set_handler 2 (stub 2) 0 idt in
  let idt := set_user_handler 3 (stub 3) 0 idt in
  let idt := set_handler 6 (stub 6) 0 idt in
  let idt := set_handler 7 (stub 7) 0 idt in
  let idt := set_handler 8 (stub 8) 1 idt in
  let idt := set_handler 10 (stub 10) 0 idt in
  let idt := set_handler 11 (stub 11) 0 idt in
  let idt := set_handler 12 (stub 12) 0 idt in
  let idt := set_handler 13 (stub 13) 0 idt in
  let idt := set_handler 14 (stub 14) 0 idt in
  let idt := set_handler 16 (stub 16) 0 idt in
  let idt := set_handler 17 (stub 17) 0 idt in
  let idt := set_handler 18 (stub 18) 0 idt in
  let idt := set_handler 19 (stub 19) 0 idt in
  set_user_handler 0x80 (stub 0x80) 0 idt.

Definition apic_vectors_install (idt : Idt) : Idt :=
  let idt := set_handler PIT_CALIBRATION_VECTOR (stub PIT_CALIBRATION_VECTOR) 0 idt in
  let idt := set_handler APIC_ERROR_VECTOR (stub APIC_ERROR_VECTOR) 0 idt in
  let idt := set_handler APIC_TIMER_VECTOR (stub APIC_TIMER_VECTOR) 0 idt in
  set_handler APIC_SPURIOUS_VECTOR (stub APIC_SPURIOUS_VECTOR) 0 idt.

Definition idt_init : Idt := apic_vectors_install (exceptions_install Idt_new).

End idt.

(** A gate as the processor reads it. *)
Record Gate := mkGate { gate_target : Z; gate_selector : Z; gate_stack : Z; gate_dpl : Z }.

Definition gate_of (e : IdtEntry) : option Gate :=
  if Z.testbit (attributes e) 7 && (Z.land (attributes e) 0xF =? 14) then
    Some (mkGate
      (Z.lor (Z.lor (offset_low e) (Z.shiftl (offset_middle e) 16)) (Z.shiftl (offset_high e) 32))
      (code_selector e) (Z.land (ist e) 7) (field (attributes e) 5 2))
  else None.

(** ** What the tables say *)

(** The vectors with a gate, and those the user may call. *)
Definition exception_vectors : list Z := [0; 1; 2; 3; 6; 7; 8; 10; 11; 12; 13; 14; 16; 17; 18; 19; 0x80].
Definition apic_vectors : list Z := [0xF1; 0xFD; 0xFE; 0xFF].
Definition user_vectors : list Z := [3; 0x80].

Definition gate_spec (stub : Z → Z) (v : Z) : option Gate :=
  if bool_decide (v ∈ exception_vectors ++ apic_vectors) then
    Some (mkGate (stub v) KERNEL_CODE_SELECTOR (if v =? 8 then 1 else 0)
            (if bool_decide (v ∈ user_vectors) then 3 else 0))
  else None.

(** ** Lemmas *)

(** A 64-bit value from its parts. *)
Lemma join_parts a : is_u64 a →
  Z.lor (Z.lor (a mod 2 ^ 16) (Z.shiftl (Z.shiftr a 16 mod 2 ^ 16) 16)) (Z.shiftl (Z.shiftr a 32 mod 2 ^ 32) 32) = a.
Proof.
  intros [H0 H]%is_u64_bits. apply Z.bits_inj'. intros n Hn. rewrite !Z.lor_spec, <- !Z.land_ones by lia.
  rewrite Z.land_spec, Z.testbit_ones_nonneg, !Z.shiftl_spec by lia.
  destruct (Z.ltb_spec n 16).
  - rewrite !(Z.testbit_neg_r _ (n - _)) by lia. by rewrite andb_true_r, !orb_false_r.
  - rewrite andb_false_r, !Z.land_spec. cbn [orb]. rewrite !Z.shiftr_spec, Z.testbit_ones_nonneg by lia.
    replace (n - 16 + 16) with n by lia. destruct (Z.ltb_spec (n - 16) 16).
    + rewrite (Z.testbit_neg_r _ (n - 32)) by lia. by rewrite andb_true_r, orb_false_r.
    + rewrite andb_false_r. cbn [orb]. rewrite Z.shiftr_spec, Z.testbit_ones_nonneg by lia.
      replace (n - 32 + 32) with n by lia. destruct (Z.ltb_spec (n - 32) 32); [by rewrite andb_true_r|].
      rewrite andb_false_r. symmetry. apply H. lia.
Qed.

(** The gate that a handler gets. *)
Lemma gate_of_handler handler i attrs :
  is_u64 handler → 0 ≤ i ≤ 7 → attrs = KERNEL_INTERRUPT_GATE ∨ attrs = USER_INTERRUPT_GATE →
  gate_of (mkIdtEntry (handler mod 2 ^ 16) KERNEL_CODE_SELECTOR (Z.land i 7) attrs
       (Z.shiftr handler 16 mod 2 ^ 16) (Z.shiftr handler 32 mod 2 ^ 32)) =
  Some (mkGate handler KERNEL_CODE_SELECTOR i (field attrs 5 2)).
Proof.
  intros Hh Hi Ha. unfold gate_of. cbn [attributes offset_low offset_middle offset_high code_selector ist].
  rewrite join_parts by done. change 7 with (Z.ones 3). rewrite <- Z.land_assoc, Z.land_diag, Z.land_ones by lia.
  rewrite Z.mod_small by (simpl; lia). by destruct Ha as [-> | ->].
Qed.

Lemma zget_set_handler idt v h i attrs w :
  length idt = 256%nat → 0 ≤ v < 256 →
  zget (set_handler_address idt v h i attrs) w =
  if decide (v = w) then Some (mkIdtEntry (h mod 2 ^ 16) KERNEL_CODE_SELECTOR (Z.land i 7) attrs
       (Z.shiftr h 16 mod 2 ^ 16) (Z.shiftr h 32 mod 2 ^ 32)) else zget idt w.
Proof. intros Hl Hv. apply zget_zset. lia. Qed.

Lemma length_set_handler idt v h i attrs : length (set_handler_address idt v h i attrs) = length idt.
Proof. apply length_zset. Qed.

(** The bits of a sum of disjoint fields. *)
Lemma field_testbit v lo n k : 0 ≤ lo → 0 ≤ n → 0 ≤ k → Z.testbit (field v lo n) k = (k <? n) && Z.testbit v (k + lo).
Proof.
  intros Hl Hn Hk. unfold field. rewrite Z.land_spec, Z.shiftr_spec, Z.testbit_ones_nonneg by done.
  apply andb_comm.
Qed.

Lemma testbit_small v n k : 0 ≤ v < 2 ^ n → n ≤ k → Z.testbit v k = false.
Proof.
  intros Hv Hk. destruct (decide (n < 0)); [rewrite Z.pow_neg_r in Hv by done; lia|].
  rewrite <- (Z.mod_small v (2 ^ n)) by done. apply Z.mod_pow2_bits_high. lia.
Qed.

(** The bits of the low word of a task state segment's descriptor. *)
Lemma tss_low_testbit base n :
  is_u64 base → 0 ≤ n →
  Z.testbit (tss_descriptor base).1 n =
  (Z.testbit 0x67 n || Z.testbit (Z.shiftl 0x89 40) n) ||
  ((16 <=? n) && (n <? 40) && Z.testbit base (n - 16)) || ((56 <=? n) && (n <? 64) && Z.testbit base (n - 32)).
Proof.
  intros Hb Hn. cbn [tss_descriptor fst flags foldr]. rewrite !Z.lor_spec.
  change (Z.land (SIZE_OF_TSS - 1) 0xFFFF) with 0x67.
  change (Z.shiftl (Z.land (Z.shiftr (SIZE_OF_TSS - 1) 16) 15) 48) with 0. rewrite !Z.bits_0.
  assert (E1 : Z.testbit (Z.shiftl (Z.land base 0x00FFFFFF) 16) n = (16 <=? n) && (n <? 40) && Z.testbit base (n - 16)).
  { rewrite Z.shiftl_spec, Z.land_spec by done. change 0x00FFFFFF with (Z.ones 24).
    destruct (Z.leb_spec 16 n); [|by rewrite Z.testbit_neg_r by lia]. rewrite Z.testbit_ones_nonneg by lia.
    destruct (Z.ltb_spec (n - 16) 24), (Z.ltb_spec n 40); try lia; by rewrite ?andb_true_r, ?andb_false_r. }
  assert (E2 : Z.testbit (Z.shiftl (Z.land (Z.shiftr base 24) 0xFF) 56) n = (56 <=? n) && (n <? 64) && Z.testbit base (n - 32)).
  { rewrite Z.shiftl_spec, Z.land_spec by done. change 0xFF with (Z.ones 8).
    destruct (Z.leb_spec 56 n); [|by rewrite Z.testbit_neg_r by lia]. rewrite Z.shiftr_spec, Z.testbit_ones_nonneg by lia.
    replace (n - 56 + 24) with (n - 32) by lia.
    destruct (Z.ltb_spec (n - 56) 8), (Z.ltb_spec n 64); try lia; by rewrite ?andb_true_r, ?andb_false_r. }
  rewrite E1, E2. change (Z.shiftl 0x89 40) with (Z.lor (Z.shiftl 9 40) (Z.shiftl 1 47)). rewrite Z.lor_spec.
  rewrite orb_false_r. cbn [orb].
  destruct (Z.testbit 0x67 n), (Z.testbit (Z.shiftl 9 40) n), (Z.testbit (Z.shiftl 1 47) n); cbn [orb];
    rewrite ?orb_true_r, ?orb_false_r; done.
Qed.

(** A range of bits whose every bit is known. *)
Lemma field_ext v lo n w :
  0 ≤ lo → 0 ≤ n → 0 ≤ w < 2 ^ n → (∀ k, 0 ≤ k < n → Z.testbit v (k + lo) = Z.testbit w k) → field v lo n = w.
Proof.
  intros Hl Hn Hw H. apply Z.bits_inj'. intros k Hk. rewrite field_testbit by done.
  destruct (Z.ltb_spec k n); cbn [andb]; [by apply H; lia|]. symmetry. by apply testbit_small with n.
Qed.

Lemma tss_fields base :
  is_u64 base →
  let d := (tss_descriptor base).1 in
  field d 0 16 = 0x67 ∧ field d 48 4 = 0 ∧ field d 40 4 = 9 ∧ Z.testbit d 47 = true ∧
  field d 16 24 = field base 0 24 ∧ field d 56 8 = field base 24 8.
Proof.
  intros Hb d. assert (Hbit := λ n Hn, tss_low_testbit base n Hb Hn). fold d in Hbit.
  assert (Hsmall : ∀ k lo n, 0 ≤ n → 0 ≤ lo → field k lo n < 2 ^ n ∧ 0 ≤ field k lo n).
  { intros k lo n Hn Hl. unfold field. rewrite Z.land_ones by done. pose proof (Z.mod_pos_bound (Z.shiftr k lo) (2 ^ n) ltac:(lia)). lia. }
  split_and!; [apply field_ext; try done..| |apply field_ext; try done|apply field_ext; try done].
  - intros k Hk. rewrite Hbit by lia. rewrite (proj2 (Z.leb_gt 56 _)) by lia.
    destruct (Z.leb_spec 16 (k + 0)); [lia|]. rewrite Z.shiftl_spec_low by lia. cbn [andb]. by rewrite !orb_false_r, Z.add_0_r.
  - intros k Hk. rewrite Hbit by lia. assert (k = 0 ∨ k = 1 ∨ k = 2 ∨ k = 3) as [-> | [-> | [-> | ->]]] by lia; done.
  - intros k Hk. rewrite Hbit by lia. assert (k = 0 ∨ k = 1 ∨ k = 2 ∨ k = 3) as [-> | [-> | [-> | ->]]] by lia; done.
  - by rewrite Hbit by lia.
  - pose proof (Hsmall base 0 24). lia.
  - intros k Hk. rewrite Hbit by lia. rewrite field_testbit, (testbit_small 0x67 7) by lia.
    rewrite Z.shiftl_spec_low by lia. rewrite (proj2 (Z.leb_le 16 _)), (proj2 (Z.leb_gt 56 _)) by lia.
    rewrite !(proj2 (Z.ltb_lt _ _)) by lia. cbn [andb orb]. rewrite orb_false_r. f_equal. lia.
  - pose proof (Hsmall base 24 8). lia.
  - intros k Hk. rewrite Hbit by lia. rewrite field_testbit, (testbit_small 0x67 7) by lia. rewrite (testbit_small (Z.shiftl 0x89 40) 48) by (lia || by vm_compute).
    rewrite (proj2 (Z.leb_le 16 _)), (proj2 (Z.leb_le 56 _)), (proj2 (Z.ltb_ge (k + 56) 40)), !(proj2 (Z.ltb_lt _ _)) by lia.
    cbn [andb orb]. f_equal. lia.
Qed.

Lemma join_base base :
  is_u64 base →
  Z.lor (Z.lor (field base 0 24) (Z.shiftl (field base 24 8) 24)) (Z.shiftl (Z.shiftr base 32) 32) = base.
Proof.
  intros [H0 _]. apply Z.bits_inj'. intros n Hn. rewrite !Z.lor_spec, field_testbit, !Z.shiftl_spec by lia.
  rewrite Z.add_0_r. destruct (Z.ltb_spec n 24).
  { rewrite !(Z.testbit_neg_r _ (n - _)) by lia. by rewrite !orb_false_r. }
  rewrite field_testbit by lia. replace (n - 24 + 24) with n by lia. cbn [andb orb].
  destruct (Z.ltb_spec (n - 24) 8).
  { rewrite (Z.testbit_neg_r _ (n - 32)) by lia. by rewrite orb_false_r. }
  rewrite Z.shiftr_spec by lia. cbn [andb orb]. f_equal. lia.
Qed.

(** The tables the kernel loads mean what it relies on. Every selector names a present segment of
    its privilege: long-mode code for the kernel and for the user, data for both, and the task
    state segment, whose base and limit the processor decodes back; and for any placement of the
    stubs exactly the installed vectors have a gate, to their own stub in the kernel's code
    segment, only breakpoint and 0x80 open to the user, and only the double fault on its own
    stack, whose top the task state segment holds. *)
Theorem descriptors_correct (tss_base double_fault_stack : Z) (stub : Z → Z) :
  is_u64 tss_base → (∀ v, is_u64 (stub v)) →
  let '(gdt, tss) := gdt_init tss_base double_fault_stack in
  segment_info <$> descriptor_of gdt KERNEL_CODE_SELECTOR = Some (mkSegmentInfo true 0 false true true false) ∧
  segment_info <$> descriptor_of gdt KERNEL_DATA_SELECTOR = Some (mkSegmentInfo true 0 false false false true) ∧
  segment_info <$> descriptor_of gdt USER_CODE_SELECTOR = Some (mkSegmentInfo true 3 false true true false) ∧
  segment_info <$> descriptor_of gdt USER_DATA_SELECTOR = Some (mkSegmentInfo true 3 false false false true) ∧
  (∃ low high, descriptor_of gdt TSS_SELECTOR = Some low ∧ descriptor_of gdt (TSS_SELECTOR + 8) = Some high ∧
     Z.testbit low 47 = true ∧ system_type_of low = 9 ∧ tss_base_of low high = tss_base ∧
     tss_limit_of low = SIZE_OF_TSS - 1) ∧
  zget (interrupt_stacks tss) 0 = Some (double_fault_stack + DOUBLE_FAULT_STACK_SIZE) ∧
  ∀ v, 0 ≤ v < 256 → gate_of <$> zget (idt_init stub) v = Some (gate_spec stub v).
Proof.
  intros Hb Hstub. destruct (tss_fields tss_base Hb) as (F1 & F2 & F3 & F4 & F5 & F6).
  split_and!; [done..| |done|].
  - exists (tss_descriptor tss_base).1, (Z.shiftr tss_base 32). split_and!; [done|done|exact F4|exact F3| |].
    + unfold tss_base_of. rewrite F5, F6. by apply join_base.
    + unfold tss_limit_of. by rewrite F1, F2.
  - intros v Hv. unfold idt_init, apic_vectors_install, exceptions_install, set_handler, set_user_handler,
      PIT_CALIBRATION_VECTOR, APIC_TIMER_VECTOR, APIC_ERROR_VECTOR, APIC_SPURIOUS_VECTOR.
    repeat (rewrite zget_set_handler by (by rewrite ?length_set_handler); case_decide;
      [subst v; cbn [fmap option_fmap option_map]; rewrite gate_of_handler by (apply Hstub || lia || tauto); done|]).
    destruct (zget_is_Some Idt_new v Hv) as [e He]. pose proof He as He'.
    rewrite zget_lookup in He' by lia. apply lookup_replicate in He' as [-> _]. rewrite He.
    cbn [fmap option_fmap option_map]. unfold gate_spec. rewrite bool_decide_false; [done|].
    unfold exception_vectors, apic_vectors. cbn [app]. rewrite !not_elem_of_cons. split_and!; try congruence.
    apply not_elem_of_nil.
Qed.

Lemma descriptors_correct_witness :
  gate_of <$> zget (idt_init (λ v, 0xFFFFFFFF80001000 + 16 * v mod 256)) 14 =
    Some (Some (mkGate 0xFFFFFFFF800010E0 KERNEL_CODE_SELECTOR 0 0)).
Proof.
  refine (proj2 (proj2 (proj2 (proj2 (proj2 (proj2
    (descriptors_correct 0xFFFFFFFF80123456 0xFFFFFFFF80200000 (λ v, 0xFFFFFFFF80001000 + 16 * v mod 256) _ _)))))) 14 _).
  - by vm_compute.
  - intros v. unfold is_u64, W64. pose proof (Z.mod_pos_bound (16 * v) 256 ltac:(lia)). lia.
  - lia.
Defined.
