(* ===== verification/Acpi.v ===== *)
(** * ACPI tables

    Model of [src/platform/acpi.rs]: finding the root table, looking a table up by its signature,
    and the entries of the MADT with the three questions the kernel asks of them.  The tables lie
    in memory that is only read, so the functions take the memory as an argument. *)

From S2P Require Import Prelude Memory Bytes Layout.

(** ** Definitions *)

Inductive AcpiError :=
| InvalidInput | AddressOverflow | InvalidSdtLength | InvalidRootTableLength | MalformedAcpiTable
| MalformedMadt | MissingIoApic | MultipleIoApicsUnsupported.

(** *** Structures *)

Record Rsdp := mkRsdp {
  rsdp_signature : bytes;
  rsdp_checksum : Z;
  rsdp_oem_id : bytes;
  rsdp_revision : Z;
  rsdp_rsdt_address : Z;
}.

Definition Rsdp_layout : layout Rsdp :=
  struct (byte_array 8 #> uint 1 #> byte_array 6 #> uint 1 #> uint 4)
    (λ '(s, (c, (o, (r, a)))), mkRsdp s c o r a)
    (λ x, (rsdp_signature x, (rsdp_checksum x, (rsdp_oem_id x, (rsdp_revision x, rsdp_rsdt_address x))))).

Record Xsdp := mkXsdp {
  xsdp_rsdp : Rsdp;
  xsdp_length : Z;
  xsdp_xsdt_address : Z;
  xsdp_extended_checksum : Z;
  xsdp_reserved : bytes;
}.

Definition Xsdp_layout : layout Xsdp :=
  struct (Rsdp_layout #> uint 4 #> uint 8 #> uint 1 #> byte_array 3)
    (λ '(p, (l, (a, (c, r)))), mkXsdp p l a c r)
    (λ x, (xsdp_rsdp x, (xsdp_length x, (xsdp_xsdt_address x, (xsdp_extended_checksum x, xsdp_reserved x))))).

Record SDTHeader := mkSDTHeader {
  hd_signature : bytes;
  hd_length : Z;
  hd_revision : Z;
  hd_checksum : Z;
  hd_oem_id : bytes;
  hd_oem_table_id : bytes;
  hd_oem_revision : Z;
  hd_creator_id : Z;
  hd_creator_revision : Z;
}.

Definition SDTHeader_layout : layout SDTHeader :=
  struct (byte_array 4 #> uint 4 #> uint 1 #> uint 1 #> byte_array 6 #> byte_array 8 #>
          uint 4 #> uint 4 #> uint 4)
    (λ '(s, (l, (r, (c, (o, (t, (v, (i, w)))))))), mkSDTHeader s l r c o t v i w)
    (λ x, (hd_signature x, (hd_length x, (hd_revision x, (hd_checksum x, (hd_oem_id x,
           (hd_oem_table_id x, (hd_oem_revision x, (hd_creator_id x, hd_creator_revision x))))))))).

Record Sdt := mkSdt { sdt_physical_addr : PhysicalAddr; sdt_length : usize; sdt_signature : bytes }.

Inductive RootTable := Rsdt (sdt : Sdt) | Xsdt (sdt : Sdt).

Record AcpiTables := mkAcpiTables { acpi_direct_map : DirectMap; acpi_root : RootTable }.

Record MadtBody := mkMadtBody { body_local_apic_address : Z; body_flags : Z }.

Definition MadtBody_layout : layout MadtBody :=
  struct (uint 4 #> uint 4) (λ '(a, f), mkMadtBody a f) (λ x, (body_local_apic_address x, body_flags x)).

Record Madt := mkMadt {
  madt_acpi : AcpiTables;
  madt_table : Sdt;
  local_apic_address : PhysicalAddr;
  madt_flags : Z;
}.

Record MadtEntryHeader := mkMadtEntryHeader { eh_kind : Z; eh_length : Z }.

Definition MadtEntryHeader_layout : layout MadtEntryHeader :=
  struct (uint 1 #> uint 1) (λ '(k, l), mkMadtEntryHeader k l) (λ x, (eh_kind x, eh_length x)).

Record LocalApicEntry := mkLocalApicEntry { la_processor_id : Z; la_id : Z; la_flags : Z }.

Definition LocalApicEntry_layout : layout LocalApicEntry :=
  struct (uint 1 #> uint 1 #> uint 4) (λ '(p, (i, f)), mkLocalApicEntry p i f)
    (λ x, (la_processor_id x, (la_id x, la_flags x))).

Record IoApicEntry := mkIoApicEntry {
  io_id : Z; io_reserved : Z; io_apic_address : Z; io_global_system_interrupt_base : Z;
}.

Definition IoApicEntry_layout : layout IoApicEntry :=
  struct (uint 1 #> uint 1 #> uint 4 #> uint 4) (λ '(i, (r, (a, g))), mkIoApicEntry i r a g)
    (λ x, (io_id x, (io_reserved x, (io_apic_address x, io_global_system_interrupt_base x)))).

Record InterruptSourceOverride := mkInterruptSourceOverride {
  iso_bus : Z; iso_source : Z; iso_global_interrupt : Z; iso_flags : Z;
}.

Definition InterruptSourceOverride_layout : layout InterruptSourceOverride :=
  struct (uint 1 #> uint 1 #> uint 4 #> uint 2) (λ '(b, (s, (g, f))), mkInterruptSourceOverride b s g f)
    (λ x, (iso_bus x, (iso_source x, (iso_global_interrupt x, iso_flags x)))).

Record IoApicNmiEntry := mkIoApicNmiEntry {
  nmi_source : Z; nmi_reserved : Z; nmi_flags : Z; nmi_global_system_interrupt : Z;
}.

Definition IoApicNmiEntry_layout : layout IoApicNmiEntry :=
  struct (uint 1 #> uint 1 #> uint 2 #> uint 4) (λ '(s, (r, (f, g))), mkIoApicNmiEntry s r f g)
    (λ x, (nmi_source x, (nmi_reserved x, (nmi_flags x, nmi_global_system_interrupt x)))).

Record LocalApicNmiEntry := mkLocalApicNmiEntry { ln_processor_id : Z; ln_flags : Z; ln_lint_num : Z }.

Definition LocalApicNmiEntry_layout : layout LocalApicNmiEntry :=
  struct (uint 1 #> uint 2 #> uint 1) (λ '(p, (f, l)), mkLocalApicNmiEntry p f l)
    (λ x, (ln_processor_id x, (ln_flags x, ln_lint_num x))).

Record LocalApicAddressOverride := mkLocalApicAddressOverride {
  lo_reserved : Z; lo_local_apic_address : Z;
}.

Definition LocalApicAddressOverride_layout : layout LocalApicAddressOverride :=
  struct (uint 2 #> uint 8) (λ '(r, a), mkLocalApicAddressOverride r a)
    (λ x, (lo_reserved x, lo_local_apic_address x)).

Record LocalX2ApicEntry := mkLocalX2ApicEntry {
  x2_reserved : Z; x2_local_x2apic_id : Z; x2_flags : Z; x2_acpi_processor_uid : Z;
}.

Definition LocalX2ApicEntry_layout : layout LocalX2ApicEntry :=
  struct (uint 2 #> uint 4 #> uint 4 #> uint 4) (λ '(r, (i, (f, u))), mkLocalX2ApicEntry r i f u)
    (λ x, (x2_reserved x, (x2_local_x2apic_id x, (x2_flags x, x2_acpi_processor_uid x)))).

Inductive MadtEntry :=
| LocalApic (e : LocalApicEntry)
| IoApic (e : IoApicEntry)
| SourceOverride (e : InterruptSourceOverride)
| IoApicNmi (e : IoApicNmiEntry)
| LocalApicNmi (e : LocalApicNmiEntry)
| AddressOverride (e : LocalApicAddressOverride)
| LocalX2Apic (e : LocalX2ApicEntry)
| Unknown (kind length : Z).

Record IoApicInfo := mkIoApicInfo {
  info_id : Z; info_apic_address : PhysicalAddr; info_global_system_interrupt_base : Z;
}.

Inductive InterruptPolarity := ActiveHigh | ActiveLow.
Inductive TriggerMode := Edge | Level.

Record IsaIrqRoute := mkIsaIrqRoute { gsi : Z; polarity : InterruptPolarity; trigger : TriggerMode }.

(** *** Reading tables *)

Section reading.
Context (m : memory).

Definition AcpiTables_read {T} (self : AcpiTables) (l : layout T) (physical_addr : PhysicalAddr) :
    result T AcpiError :=
  let* virtual_addr := ok_or (DirectMap_translate (acpi_direct_map self) physical_addr) AddressOverflow in
  Ok (read_unaligned l m virtual_addr).

(** The loop of [checksum_valid]. *)
Fixpoint checksum_from (virtual_addr : VirtualAddr) (indices : list Z) (sum : Z) : result Z AcpiError :=
  match indices with
  | [] => Ok sum
  | i :: indices =>
      let* byte_addr := ok_or (checked_add virtual_addr i) AddressOverflow in
      checksum_from virtual_addr indices ((sum + load8 m byte_addr) mod 256)
  end.

Definition checksum_valid (self : AcpiTables) (physical_addr : PhysicalAddr) (length : usize) :
    result bool AcpiError :=
  let* virtual_addr := ok_or (DirectMap_translate (acpi_direct_map self) physical_addr) AddressOverflow in
  let* sum := checksum_from virtual_addr (range 0 length) 0 in
  Ok (sum =? 0).

(** The sums of [from_rsdp], over bytes behind a pointer. *)
Definition pointer_sum (p : VirtualAddr) (length : usize) : Z :=
  fold_left (λ sum i, (sum + load8 m (p + i)) mod 256) (range 0 length) 0.

Definition ascii (s : string) : bytes := (λ c, Z.of_N (Ascii.N_of_ascii c)) <$> String.list_ascii_of_string s.

(** The root table at [address], with its checksum and signature checked. *)
Definition root_table (direct_map : DirectMap) (address : PhysicalAddr) (signature : bytes)
    (make : Sdt → RootTable) : result RootTable AcpiError :=
  let* p := ok_or (DirectMap_translate direct_map address) AddressOverflow in
  let sdt := read_unaligned SDTHeader_layout m p in
  if negb (pointer_sum p (hd_length sdt) =? 0) then Err MalformedAcpiTable
  else if negb (bool_decide (hd_signature sdt = signature)) then Err MalformedAcpiTable
  else Ok (make (mkSdt address (hd_length sdt) (hd_signature sdt))).

Definition AcpiTables_from_rsdp (rsdp_ptr : VirtualAddr) (direct_map : DirectMap) :
    result AcpiTables AcpiError :=
  let rsdp := read_unaligned Rsdp_layout m rsdp_ptr in
  if negb (pointer_sum rsdp_ptr (size_of Rsdp_layout) =? 0) then Err MalformedAcpiTable
  else if negb (bool_decide (rsdp_signature rsdp = ascii "RSD PTR ")) then Err MalformedAcpiTable
  else
    let* root :=
      (if 2 <=? rsdp_revision rsdp then
         let xsdp := read_unaligned Xsdp_layout m rsdp_ptr in
         if xsdp_length xsdp <? size_of Xsdp_layout then Err MalformedAcpiTable
         else if negb (pointer_sum rsdp_ptr (xsdp_length xsdp) =? 0) then Err MalformedAcpiTable
         else root_table direct_map (xsdp_xsdt_address xsdp) (ascii "XSDT") Xsdt
       else root_table direct_map (rsdp_rsdt_address rsdp) (ascii "RSDT") Rsdt) in
    Ok (mkAcpiTables direct_map root).

Definition RootTable_table (self : RootTable) : Sdt := match self with Rsdt sdt | Xsdt sdt => sdt end.

Definition RootTable_entry_width (self : RootTable) : usize :=
  match self with Rsdt _ => 4 | Xsdt _ => 8 end.

Definition RootTable_entry_count (self : RootTable) : result usize AcpiError :=
  let* payload_length :=
    ok_or (checked_sub (sdt_length (RootTable_table self)) (size_of SDTHeader_layout)) InvalidSdtLength in
  if negb (payload_length mod RootTable_entry_width self =? 0) then Err InvalidRootTableLength
  else Ok (payload_length / RootTable_entry_width self).

(** The loop of [find_table] over the entries of the root table. *)
Fixpoint find_table_from (self : AcpiTables) (signature : bytes) (entries_start : usize)
    (indices : list Z) : result (option Sdt) AcpiError :=
  match indices with
  | [] => Ok None
  | i :: indices =>
      let* product := ok_or (checked_mul i (RootTable_entry_width (acpi_root self))) AddressOverflow in
      let* entry_addr := ok_or (checked_add entries_start product) AddressOverflow in
      let* physical_addr :=
        match acpi_root self with
        | Rsdt _ => AcpiTables_read self (uint 4) entry_addr
        | Xsdt _ => AcpiTables_read self (uint 8) entry_addr
        end in
      let* header := AcpiTables_read self SDTHeader_layout physical_addr in
      if hd_length header <? size_of SDTHeader_layout then Err InvalidSdtLength
      else if negb (bool_decide (hd_signature header = signature))
      then find_table_from self signature entries_start indices
      else
        let* valid := checksum_valid self physical_addr (hd_length header) in
        if negb valid then Err MalformedAcpiTable
        else Ok (Some (mkSdt physical_addr (hd_length header) (hd_signature header)))
  end.

Definition AcpiTables_find_table (self : AcpiTables) (signature : bytes) :
    result (option Sdt) AcpiError :=
  let root := RootTable_table (acpi_root self) in
  let* entries_start :=
    ok_or (checked_add (sdt_physical_addr root) (size_of SDTHeader_layout)) AddressOverflow in
  let* count := RootTable_entry_count (acpi_root self) in
  find_table_from self signature entries_start (range 0 count).

(** [init], with the pointer of the boot information. *)
Definition acpi_init (rsdp : VirtualAddr) (direct_map : DirectMap) : result AcpiTables AcpiError :=
  let* acpi_table := AcpiTables_from_rsdp rsdp direct_map in Ok acpi_table.

(** *** The MADT *)

Definition MADT_ENTRIES_OFFSET : usize := size_of SDTHeader_layout + size_of MadtBody_layout.

Definition Madt_parse (acpi : AcpiTables) (table : Sdt) : result Madt AcpiError :=
  if negb (bool_decide (sdt_signature table = ascii "APIC")) then Err InvalidInput
  else if sdt_length table <? size_of SDTHeader_layout + size_of MadtBody_layout
  then Err MalformedAcpiTable
  else
    let* body_addr :=
      ok_or (checked_add (sdt_physical_addr table) (size_of SDTHeader_layout)) AddressOverflow in
    let* body := AcpiTables_read acpi MadtBody_layout body_addr in
    Ok (mkMadt acpi table (body_local_apic_address body) (body_flags body)).

Definition AcpiTables_madt (self : AcpiTables) : result (option Madt) AcpiError :=
  let* o := AcpiTables_find_table self (ascii "APIC") in
  match o with
  | Some table => let* madt := Madt_parse self table in Ok (Some madt)
  | None => Ok None
  end.

Record MadtEntries := mkMadtEntries {
  it_acpi : AcpiTables; it_current : PhysicalAddr; it_end : PhysicalAddr;
}.

Definition set_it_current (a : PhysicalAddr) (self : MadtEntries) : MadtEntries :=
  mkMadtEntries (it_acpi self) a (it_end self).

Definition read_body {T} (self : MadtEntries) (l : layout T) (header : MadtEntryHeader) :
    result T AcpiError :=
  let required_length := size_of MadtEntryHeader_layout + size_of l in
  if eh_length header <? required_length then Err MalformedAcpiTable
  else
    let* body_addr :=
      ok_or (checked_add (it_current self) (size_of MadtEntryHeader_layout)) AddressOverflow in
    AcpiTables_read (it_acpi self) l body_addr.

(** [Ok(f(self.read_body(&header)?))] *)
Definition body_as {T} (self : MadtEntries) (l : layout T) (header : MadtEntryHeader)
    (f : T → MadtEntry) : result MadtEntry AcpiError :=
  let* body := read_body self l header in Ok (f body).

Definition read_entry (self : MadtEntries) (header : MadtEntryHeader) : result MadtEntry AcpiError :=
  match eh_kind header with
  | 0 => body_as self LocalApicEntry_layout header LocalApic
  | 1 => body_as self IoApicEntry_layout header IoApic
  | 2 => body_as self InterruptSourceOverride_layout header SourceOverride
  | 3 => body_as self IoApicNmiEntry_layout header IoApicNmi
  | 4 => body_as self LocalApicNmiEntry_layout header LocalApicNmi
  | 5 => body_as self LocalApicAddressOverride_layout header AddressOverride
  | 9 => body_as self LocalX2ApicEntry_layout header LocalX2Apic
  | kind => Ok (Unknown kind (eh_length header))
  end.

(** The entry, and where the iterator stands afterwards. *)
Definition read_next (self : MadtEntries) : result (MadtEntry * MadtEntries) AcpiError :=
  let* header := AcpiTables_read (it_acpi self) MadtEntryHeader_layout (it_current self) in
  let* entry := read_entry self header in
  let* current := ok_or (checked_add (it_current self) (eh_length header)) AddressOverflow in
  Ok (entry, set_it_current current self).

Definition MadtEntries_next (self : MadtEntries) :
    option (result MadtEntry AcpiError) * MadtEntries :=
  let current := it_current self in
  let end_ := it_end self in
  let finished := set_it_current end_ self in
  if current =? end_ then (None, self)
  else if end_ <? current then (Some (Err MalformedAcpiTable), finished)
  else
    let remaining := end_ - current in
    if remaining <? size_of MadtEntryHeader_layout then (Some (Err MalformedAcpiTable), finished)
    else
      match AcpiTables_read (it_acpi self) MadtEntryHeader_layout current with
      | Err error => (Some (Err error), finished)
      | Ok header =>
          let length := eh_length header in
          if (length <? size_of MadtEntryHeader_layout) || (remaining <? length)
          then (Some (Err MalformedAcpiTable), finished)
          else
            match read_next self with
            | Ok (entry, self) => (Some (Ok entry), self)
            | Err error => (Some (Err error), finished)
            end
      end.

(** What the iterator yields in at most [fuel] steps, and where it stands then. *)
Fixpoint MadtEntries_run (fuel : nat) (self : MadtEntries) :
    list (result MadtEntry AcpiError) * MadtEntries :=
  match fuel with
  | O => ([], self)
  | S fuel =>
      match MadtEntries_next self with
      | (None, self) => ([], self)
      | (Some item, self) =>
          let '(items, self) := MadtEntries_run fuel self in (item :: items, self)
      end
  end.

(** Every step but one consumes at least the two bytes of a header. *)
Definition entries_fuel (self : MadtEntries) : nat := S (Z.to_nat (it_end self - it_current self)).

Definition Madt_entries (self : Madt) : result MadtEntries AcpiError :=
  let* current :=
    ok_or (checked_add (sdt_physical_addr (madt_table self)) MADT_ENTRIES_OFFSET) AddressOverflow in
  let* end_ :=
    ok_or (checked_add (sdt_physical_addr (madt_table self)) (sdt_length (madt_table self))) AddressOverflow in
  Ok (mkMadtEntries (madt_acpi self) current end_).

(** The items a [for] loop over [self.entries()?] sees. *)
Definition Madt_items (self : Madt) : result (list (result MadtEntry AcpiError)) AcpiError :=
  let* it := Madt_entries self in Ok (fst (MadtEntries_run (entries_fuel it) it)).

Fixpoint apply_overrides (address : PhysicalAddr) (items : list (result MadtEntry AcpiError)) :
    result PhysicalAddr AcpiError :=
  match items with
  | [] => Ok address
  | item :: items =>
      let* entry := item in
      match entry with
      | AddressOverride o => apply_overrides (lo_local_apic_address o) items
      | _ => apply_overrides address items
      end
  end.

Definition effective_local_apic_address (self : Madt) : result PhysicalAddr AcpiError :=
  let* items := Madt_items self in apply_overrides (local_apic_address self) items.

Definition io_apic_item (item : result MadtEntry AcpiError) : option (result IoApicInfo AcpiError) :=
  match item with
  | Ok (IoApic e) =>
      Some (Ok (mkIoApicInfo (io_id e) (io_apic_address e) (io_global_system_interrupt_base e)))
  | Ok _ => None
  | Err error => Some (Err error)
  end.

Definition io_apics (self : Madt) : result (list (result IoApicInfo AcpiError)) AcpiError :=
  let* items := Madt_items self in Ok (omap io_apic_item items).

Definition sole_io_apic (self : Madt) : result IoApicInfo AcpiError :=
  let* entries := io_apics self in
  match entries with
  | [] => Err MissingIoApic
  | first :: entries =>
      let* first := first in
      match entries with
      | [] => Ok first
      | second :: _ => let* _ := second in Err MultipleIoApicsUnsupported
      end
  end.

Definition polarity_of (flags : Z) : result InterruptPolarity AcpiError :=
  match Z.land flags 3 with
  | 0 => Ok ActiveHigh
  | 1 => Ok ActiveHigh
  | 3 => Ok ActiveLow
  | _ => Err MalformedMadt
  end.

Definition trigger_of (flags : Z) : result TriggerMode AcpiError :=
  match Z.land (Z.shiftr flags 2) 3 with
  | 0 => Ok Edge
  | 1 => Ok Edge
  | 3 => Ok Level
  | _ => Err MalformedMadt
  end.

Fixpoint route_from (irq : Z) (items : list (result MadtEntry AcpiError)) : result IsaIrqRoute AcpiError :=
  match items with
  | [] => Ok (mkIsaIrqRoute irq ActiveHigh Edge)
  | item :: items =>
      let* entry := item in
      match entry with
      | SourceOverride o =>
          if negb (iso_bus o =? 0) then route_from irq items
          else if negb (iso_source o =? irq) then route_from irq items
          else
            let* p := polarity_of (iso_flags o) in
            let* t := trigger_of (iso_flags o) in
            Ok (mkIsaIrqRoute (iso_global_interrupt o) p t)
      | _ => route_from irq items
      end
  end.

Definition isa_irq_route (self : Madt) (irq : Z) : result IsaIrqRoute AcpiError :=
  let* items := Madt_items self in route_from irq items.

End reading.

(** ** Iterating over the entries *)

Section entries.
Context (m : memory).
Implicit Types (it : MadtEntries) (items : list (result MadtEntry AcpiError)).

(** What one step of the iterator does. *)
Inductive stepped it : option (result MadtEntry AcpiError) * MadtEntries → Prop :=
| stepped_end : it_current it = it_end it → stepped it (None, it)
| stepped_err e : it_current it ≠ it_end it → stepped it (Some (Err e), set_it_current (it_end it) it)
| stepped_ok e a : it_current it + 2 ≤ a ≤ it_end it → stepped it (Some (Ok e), set_it_current a it).

Lemma read_next_Ok it e it' :
  read_next m it = Ok (e, it') → ∃ h, AcpiTables_read m (it_acpi it) MadtEntryHeader_layout (it_current it) = Ok h ∧
    it' = set_it_current (it_current it + eh_length h) it.
Proof.
  unfold read_next. destruct (AcpiTables_read _ _ _ _) as [h|]; simpl; [|done].
  destruct (read_entry _ _ _); simpl; [|done].
  destruct (checked_add _ _) as [ad|] eqn:Ea; simpl; [|done]. intros [= <- <-].
  apply checked_add_Some in Ea as [-> _]. eauto.
Qed.

Lemma next_stepped it : stepped it (MadtEntries_next m it).
Proof.
  unfold MadtEntries_next. destruct (Z.eqb_spec (it_current it) (it_end it)); [by constructor|].
  destruct (Z.ltb_spec (it_end it) (it_current it)); [by constructor|].
  destruct (Z.ltb_spec (it_end it - it_current it) (size_of MadtEntryHeader_layout)); [by constructor|].
  destruct (AcpiTables_read _ _ _ _) as [h|] eqn:Eh; [|by constructor].
  destruct (Z.ltb_spec (eh_length h) (size_of MadtEntryHeader_layout)); [by constructor|].
  destruct (Z.ltb_spec (it_end it - it_current it) (eh_length h)); simpl; [by constructor|].
  destruct (read_next m it) as [[e it']|] eqn:En; [|by constructor].
  apply read_next_Ok in En as (h' & Eh' & ->). rewrite Eh in Eh'. injection Eh' as <-.
  constructor. change (size_of MadtEntryHeader_layout) with 2 in *. lia.
Qed.

(** A list of items with an error at most at its end. *)
Definition err_last items : Prop :=
  ∃ es tail, items = (Ok <$> es) ++ tail ∧ (tail = [] ∨ ∃ e, tail = [Err e]).

Lemma run_at_end fuel it : it_current it = it_end it → MadtEntries_run m fuel it = ([], it).
Proof.
  intros E. destruct fuel; simpl; [done|]. unfold MadtEntries_next. by rewrite (proj2 (Z.eqb_eq _ _)).
Qed.

(** With enough fuel the iterator comes to its end. *)
Lemma run_total fuel it :
  (Z.to_nat (it_end it - it_current it) < fuel)%nat →
  ∃ items, MadtEntries_run m fuel it = (items, set_it_current (it_end it) it) ∧ err_last items.
Proof.
  revert it. induction fuel as [|fuel IH]; intros it Hf; [lia|]. simpl.
  destruct (next_stepped it) as [E|e E|e a Ha].
  - exists []. split; [by destruct it; simpl in *; subst|]. exists [], []. naive_solver.
  - rewrite run_at_end by done. exists [Err e]. split; [done|]. exists [], [Err e]. naive_solver.
  - destruct (IH (set_it_current a it)) as (items & -> & es & tail & -> & Ht); [simpl; lia|].
    exists (Ok e :: (Ok <$> es) ++ tail). split; [done|]. by exists (e :: es), tail.
Qed.

Lemma run_fuel fuel fuel' it :
  (Z.to_nat (it_end it - it_current it) < fuel)%nat → (fuel ≤ fuel')%nat →
  MadtEntries_run m fuel' it = MadtEntries_run m fuel it.
Proof.
  revert fuel' it. induction fuel as [|fuel IH]; intros fuel' it Hf Hl; [lia|].
  destruct fuel' as [|fuel']; [lia|]. simpl.
  destruct (next_stepped it) as [E|e E|e a Ha]; [done|by rewrite !run_at_end|].
  rewrite (IH fuel'); [done|simpl; lia|lia].
Qed.

End entries.

(** ** The entries are all that is read *)

Section footprint.
Context (m m' : memory).

Lemma read_ext {T} acpi (l : layout T) pa :
  (∀ x, pa ≤ x < pa + size_of l → load8 m (x + offset (acpi_direct_map acpi)) = load8 m' (x + offset (acpi_direct_map acpi))) →
  AcpiTables_read m acpi l pa = AcpiTables_read m' acpi l pa.
Proof.
  intros H. unfold AcpiTables_read, DirectMap_translate.
  destruct (checked_add _ _) as [va|] eqn:E; simpl; [|done]. apply checked_add_Some in E as [-> _].
  f_equal. apply read_unaligned_ext. intros x Hx.
  rewrite <- (Z.sub_add (offset (acpi_direct_map acpi)) x). apply H. lia.
Qed.

Definition same_bytes (dm : DirectMap) (lo hi : PhysicalAddr) : Prop :=
  ∀ x, lo ≤ x < hi → load8 m (x + offset dm) = load8 m' (x + offset dm).

Lemma read_body_ext {T} it (l : layout T) h :
  same_bytes (acpi_direct_map (it_acpi it)) (it_current it) (it_current it + eh_length h) →
  read_body m it l h = read_body m' it l h.
Proof.
  intros H. unfold read_body. destruct (Z.ltb_spec (eh_length h) (size_of MadtEntryHeader_layout + size_of l)); [done|].
  destruct (checked_add _ _) as [a|] eqn:E; simpl; [|done]. apply checked_add_Some in E as [-> _].
  apply read_ext. change (size_of MadtEntryHeader_layout) with 2 in *. intros x Hx. apply H. lia.
Qed.

Lemma read_entry_ext it h :
  same_bytes (acpi_direct_map (it_acpi it)) (it_current it) (it_current it + eh_length h) →
  read_entry m it h = read_entry m' it h.
Proof.
  intros H. unfold read_entry, body_as.
  repeat first [by rewrite (read_body_ext it _ h H) | case_match; try done].
Qed.

Lemma next_ext it :
  same_bytes (acpi_direct_map (it_acpi it)) (it_current it) (it_end it) →
  MadtEntries_next m it = MadtEntries_next m' it.
Proof.
  intros H. unfold MadtEntries_next. destruct (Z.eqb_spec (it_current it) (it_end it)); [done|].
  destruct (Z.ltb_spec (it_end it) (it_current it)); [done|].
  destruct (Z.ltb_spec (it_end it - it_current it) (size_of MadtEntryHeader_layout)) as [|Hr]; [done|].
  assert (E : AcpiTables_read m (it_acpi it) MadtEntryHeader_layout (it_current it) =
              AcpiTables_read m' (it_acpi it) MadtEntryHeader_layout (it_current it)).
  { apply read_ext. intros x Hx. apply H. lia. }
  unfold read_next. rewrite <- !E. destruct (AcpiTables_read m _ _ _) as [h|]; [|done]. cbn [result_bind].
  destruct (Z.ltb_spec (eh_length h) (size_of MadtEntryHeader_layout)); [done|].
  destruct (Z.ltb_spec (it_end it - it_current it) (eh_length h)); [done|]. cbn [orb].
  rewrite (read_entry_ext it h); [done|]. intros x Hx. apply H. lia.
Qed.

Lemma run_ext fuel it :
  same_bytes (acpi_direct_map (it_acpi it)) (it_current it) (it_end it) →
  MadtEntries_run m fuel it = MadtEntries_run m' fuel it.
Proof.
  revert it. induction fuel as [|fuel IH]; intros it H; [done|]. simpl.
  rewrite <- (next_ext it H). destruct (next_stepped m it) as [E|e E|e a Ha]; [done|by rewrite !run_at_end|].
  rewrite IH; [done|]. simpl. intros x Hx. apply H. lia.
Qed.

End footprint.

(** ** Tables as firmware lays them out *)

Definition is_uint (n : nat) (v : Z) : Prop := 0 ≤ v < 256 ^ Z.of_nat n.

Definition LocalApicEntry_valid (x : LocalApicEntry) : Prop :=
  is_uint 1 (la_processor_id x) ∧ is_uint 1 (la_id x) ∧ is_uint 4 (la_flags x).
Definition IoApicEntry_valid (x : IoApicEntry) : Prop :=
  is_uint 1 (io_id x) ∧ is_uint 1 (io_reserved x) ∧ is_uint 4 (io_apic_address x) ∧
  is_uint 4 (io_global_system_interrupt_base x).
Definition InterruptSourceOverride_valid (x : InterruptSourceOverride) : Prop :=
  is_uint 1 (iso_bus x) ∧ is_uint 1 (iso_source x) ∧ is_uint 4 (iso_global_interrupt x) ∧
  is_uint 2 (iso_flags x).
Definition IoApicNmiEntry_valid (x : IoApicNmiEntry) : Prop :=
  is_uint 1 (nmi_source x) ∧ is_uint 1 (nmi_reserved x) ∧ is_uint 2 (nmi_flags x) ∧
  is_uint 4 (nmi_global_system_interrupt x).
Definition LocalApicNmiEntry_valid (x : LocalApicNmiEntry) : Prop :=
  is_uint 1 (ln_processor_id x) ∧ is_uint 2 (ln_flags x) ∧ is_uint 1 (ln_lint_num x).
Definition LocalApicAddressOverride_valid (x : LocalApicAddressOverride) : Prop :=
  is_uint 2 (lo_reserved x) ∧ is_uint 8 (lo_local_apic_address x).
Definition LocalX2ApicEntry_valid (x : LocalX2ApicEntry) : Prop :=
  is_uint 2 (x2_reserved x) ∧ is_uint 4 (x2_local_x2apic_id x) ∧ is_uint 4 (x2_flags x) ∧
  is_uint 4 (x2_acpi_processor_uid x).
Definition MadtBody_valid (x : MadtBody) : Prop :=
  is_uint 4 (body_local_apic_address x) ∧ is_uint 4 (body_flags x).
Definition SDTHeader_valid (x : SDTHeader) : Prop :=
  length (hd_signature x) = 4%nat ∧ is_uint 4 (hd_length x) ∧ is_uint 1 (hd_revision x) ∧
  is_uint 1 (hd_checksum x) ∧ length (hd_oem_id x) = 6%nat ∧ length (hd_oem_table_id x) = 8%nat ∧
  is_uint 4 (hd_oem_revision x) ∧ is_uint 4 (hd_creator_id x) ∧ is_uint 4 (hd_creator_revision x).
Definition Rsdp_valid (x : Rsdp) : Prop :=
  length (rsdp_signature x) = 8%nat ∧ is_uint 1 (rsdp_checksum x) ∧ length (rsdp_oem_id x) = 6%nat ∧
  is_uint 1 (rsdp_revision x) ∧ is_uint 4 (rsdp_rsdt_address x).
Definition Xsdp_valid (x : Xsdp) : Prop :=
  Rsdp_valid (xsdp_rsdp x) ∧ is_uint 4 (xsdp_length x) ∧ is_uint 8 (xsdp_xsdt_address x) ∧
  is_uint 1 (xsdp_extended_checksum x) ∧ length (xsdp_reserved x) = 3%nat.

(** Every structure fits its layout. *)
Ltac solve_layout := refine (struct_ok _ _ _ _ _ _); intros []; reflexivity.

#[export] Instance LocalApicEntry_ok : LayoutOk LocalApicEntry_layout LocalApicEntry_valid.
Proof. solve_layout. Qed.
#[export] Instance IoApicEntry_ok : LayoutOk IoApicEntry_layout IoApicEntry_valid.
Proof. solve_layout. Qed.
#[export] Instance InterruptSourceOverride_ok :
  LayoutOk InterruptSourceOverride_layout InterruptSourceOverride_valid.
Proof. solve_layout. Qed.
#[export] Instance IoApicNmiEntry_ok : LayoutOk IoApicNmiEntry_layout IoApicNmiEntry_valid.
Proof. solve_layout. Qed.
#[export] Instance LocalApicNmiEntry_ok : LayoutOk LocalApicNmiEntry_layout LocalApicNmiEntry_valid.
Proof. solve_layout. Qed.
#[export] Instance LocalApicAddressOverride_ok :
  LayoutOk LocalApicAddressOverride_layout LocalApicAddressOverride_valid.
Proof. solve_layout. Qed.
#[export] Instance LocalX2ApicEntry_ok : LayoutOk LocalX2ApicEntry_layout LocalX2ApicEntry_valid.
Proof. solve_layout. Qed.
#[export] Instance MadtBody_ok : LayoutOk MadtBody_layout MadtBody_valid.
Proof. solve_layout. Qed.
#[export] Instance SDTHeader_ok : LayoutOk SDTHeader_layout SDTHeader_valid.
Proof. solve_layout. Qed.
#[export] Instance Rsdp_ok : LayoutOk Rsdp_layout Rsdp_valid.
Proof. solve_layout. Qed.
#[export] Instance Xsdp_ok : LayoutOk Xsdp_layout Xsdp_valid.
Proof. solve_layout. Qed.

(** The kind of an entry and the bytes that follow its header. *)
Definition entry_kind (e : MadtEntry) : Z :=
  match e with
  | LocalApic _ => 0 | IoApic _ => 1 | SourceOverride _ => 2 | IoApicNmi _ => 3
  | LocalApicNmi _ => 4 | AddressOverride _ => 5 | LocalX2Apic _ => 9 | Unknown kind _ => kind
  end.

Definition entry_body (e : MadtEntry) : bytes :=
  match e with
  | LocalApic x => encode LocalApicEntry_layout x
  | IoApic x => encode IoApicEntry_layout x
  | SourceOverride x => encode InterruptSourceOverride_layout x
  | IoApicNmi x => encode IoApicNmiEntry_layout x
  | LocalApicNmi x => encode LocalApicNmiEntry_layout x
  | AddressOverride x => encode LocalApicAddressOverride_layout x
  | LocalX2Apic x => encode LocalX2ApicEntry_layout x
  | Unknown _ _ => []
  end.

(** An entry of a table and the bytes that a later version of it may add. *)
Definition entry_bytes (e : MadtEntry * bytes) : bytes :=
  entry_kind e.1 :: (2 + slice_len (entry_body e.1 ++ e.2)) :: entry_body e.1 ++ e.2.

Definition madt_entry_valid (e : MadtEntry * bytes) : Prop :=
  slice_len (entry_bytes e) < 256 ∧
  match e.1 with
  | LocalApic x => LocalApicEntry_valid x
  | IoApic x => IoApicEntry_valid x
  | SourceOverride x => InterruptSourceOverride_valid x
  | IoApicNmi x => IoApicNmiEntry_valid x
  | LocalApicNmi x => LocalApicNmiEntry_valid x
  | AddressOverride x => LocalApicAddressOverride_valid x
  | LocalX2Apic x => LocalX2ApicEntry_valid x
  | Unknown kind length => 0 ≤ kind < 256 ∧ kind ∉ [0; 1; 2; 3; 4; 5; 9] ∧ length = slice_len (entry_bytes e)
  end.

Definition entries_bytes (es : list (MadtEntry * bytes)) : bytes := mjoin (entry_bytes <$> es).

(** The entries, as the specification of the format reads them. *)
Definition address_override (e : MadtEntry) : option PhysicalAddr :=
  match e with AddressOverride o => Some (lo_local_apic_address o) | _ => None end.

Definition io_apic_info (e : MadtEntry) : option IoApicInfo :=
  match e with
  | IoApic e => Some (mkIoApicInfo (io_id e) (io_apic_address e) (io_global_system_interrupt_base e))
  | _ => None
  end.

Definition isa_override (irq : Z) (e : MadtEntry) : option InterruptSourceOverride :=
  match e with
  | SourceOverride o => if (iso_bus o =? 0) && (iso_source o =? irq) then Some o else None
  | _ => None
  end.

(** The interrupt flags of the format, bit by bit: bits 0 and 1 are the polarity, bits 2 and 3 the
    trigger mode.  Both clear, the line conforms to its bus, and ISA lines are active high and edge
    triggered; the lower bit alone says so explicitly; both set, the line is active low, or level
    triggered; the upper bit alone is reserved. *)
Definition inti_polarity (flags : Z) : option InterruptPolarity :=
  match Z.testbit flags 1, Z.testbit flags 0 with
  | false, _ => Some ActiveHigh
  | true, true => Some ActiveLow
  | true, false => None
  end.

Definition inti_trigger (flags : Z) : option TriggerMode :=
  match Z.testbit flags 3, Z.testbit flags 2 with
  | false, _ => Some Edge
  | true, true => Some Level
  | true, false => None
  end.

Definition override_route (o : InterruptSourceOverride) : result IsaIrqRoute AcpiError :=
  match inti_polarity (iso_flags o), inti_trigger (iso_flags o) with
  | Some p, Some t => Ok (mkIsaIrqRoute (iso_global_interrupt o) p t)
  | _, _ => Err MalformedMadt
  end.

Definition route_spec (irq : Z) (es : list MadtEntry) : result IsaIrqRoute AcpiError :=
  match head (omap (isa_override irq) es) with
  | Some o => override_route o
  | None => Ok (mkIsaIrqRoute irq ActiveHigh Edge)
  end.

Definition sole_spec (es : list MadtEntry) : result IoApicInfo AcpiError :=
  match omap io_apic_info es with
  | [] => Err MissingIoApic
  | [info] => Ok info
  | _ => Err MultipleIoApicsUnsupported
  end.

(** ** Reading a laid out table *)

Section laid_out.
Context (m : memory) (acpi : AcpiTables).
Abbreviation off := (offset (acpi_direct_map acpi)).

Lemma AcpiTables_read_stored {T} (l : layout T) valid `{!LayoutOk l valid} pa x :
  valid x → stored m (pa + off) (encode l x) → pa + off < W64 → AcpiTables_read m acpi l pa = Ok x.
Proof.
  intros Hx Hs Hw. unfold AcpiTables_read, DirectMap_translate. rewrite checked_add_lt by done. simpl.
  f_equal. by apply (read_stored l valid).
Qed.

(** Reading the body of an entry whose header is known. *)
Lemma body_as_stored {T} (l : layout T) valid `{!LayoutOk l valid} it h (f : T → MadtEntry) x :
  valid x → it_acpi it = acpi → 0 ≤ off → 0 ≤ size_of l → stored m (it_current it + off + 2) (encode l x) →
  2 + size_of l ≤ eh_length h → it_current it + eh_length h + off < W64 →
  body_as m it l h f = Ok (f x).
Proof.
  intros Hx Ha Ho Hsz Hs Hl Hw. unfold body_as, read_body. change (size_of MadtEntryHeader_layout) with 2.
  rewrite (proj2 (Z.ltb_ge _ _)) by done. rewrite checked_add_lt by lia. simpl.
  rewrite Ha, (AcpiTables_read_stored l valid _ x Hx); [done| |lia].
  by replace (it_current it + 2 + off) with (it_current it + off + 2) by lia.
Qed.

Lemma unknown_kind it k n :
  0 ≤ k → k ∉ [0; 1; 2; 3; 4; 5; 9] → read_entry m it (mkMadtEntryHeader k n) = Ok (Unknown k n).
Proof.
  intros Hk Hn. unfold read_entry. cbn [eh_kind eh_length]. rewrite !not_elem_of_cons in Hn.
  destruct Hn as (? & ? & ? & ? & ? & ? & ? & _). repeat (case_match; try lia); done.
Qed.

Lemma read_entry_stored e pad it :
  madt_entry_valid (e, pad) → it_acpi it = acpi → 0 ≤ off →
  stored m (it_current it + off + 2) (entry_body e) →
  it_current it + slice_len (entry_bytes (e, pad)) + off < W64 →
  read_entry m it (mkMadtEntryHeader (entry_kind e) (slice_len (entry_bytes (e, pad)))) = Ok e.
Proof.
  intros [Hl Hv] Ha Ho Hs Hw. unfold read_entry. cbn [eh_kind eh_length].
  assert (Hlen : 2 + slice_len (entry_body e) ≤ slice_len (entry_bytes (e, pad))).
  { unfold entry_bytes, slice_len. simpl. rewrite length_app. lia. }
  unfold madt_entry_valid in *. remember (slice_len (entry_bytes (e, pad))) as n eqn:En. clear En Hl.
  destruct e as [x|x|x|x|x|x|x|kind len]; cbn [entry_kind entry_body fst] in *;
    [rewrite (encode_length x Hv) in Hlen; eapply body_as_stored;
      [typeclasses eauto|exact Hv|exact Ha|exact Ho|by vm_compute|exact Hs|exact Hlen|exact Hw] ..|].
  destruct Hv as (Hk & Hn & ->). apply unknown_kind; [lia|done].
Qed.

Lemma entry_header_stored a e : 
  stored m a (entry_bytes e) → madt_entry_valid e →
  read_unaligned MadtEntryHeader_layout m a = mkMadtEntryHeader (entry_kind e.1) (slice_len (entry_bytes e)) ∧
  stored m (a + 2) (entry_body e.1).
Proof.
  intros Hs [Hl Hv]. change (entry_bytes e) with ([entry_kind e.1; 2 + slice_len (entry_body e.1 ++ e.2)] ++ entry_body e.1 ++ e.2) in Hs.
  assert (El : 2 + slice_len (entry_body e.1 ++ e.2) = slice_len (entry_bytes e))
    by (unfold entry_bytes, slice_len; simpl length; lia).
  rewrite !stored_app in Hs. destruct Hs as (H1 & H2 & _). split; [|exact H2].
  unfold read_unaligned. unfold stored in H1. change (size_of MadtEntryHeader_layout) with 2.
  change (slice_len [entry_kind e.1; 2 + slice_len (entry_body e.1 ++ e.2)]) with 2 in H1. rewrite H1, El.
  generalize (entry_kind e.1) (slice_len (entry_bytes e)). intros k n. cbn. f_equal; destruct k, n; done.
Qed.

(** One step over an entry. *)
Lemma next_stored e it :
  madt_entry_valid e → it_acpi it = acpi → 0 ≤ off → stored m (it_current it + off) (entry_bytes e) →
  it_current it + slice_len (entry_bytes e) ≤ it_end it → it_end it + off < W64 →
  MadtEntries_next m it = (Some (Ok e.1), set_it_current (it_current it + slice_len (entry_bytes e)) it).
Proof.
  intros He Ha Ho Hs Hend Hw. destruct (entry_header_stored _ _ Hs He) as [Hh Hbody].
  assert (Hn : 2 ≤ slice_len (entry_bytes e)) by (unfold entry_bytes, slice_len; simpl length; lia).
  destruct e as [e pad]. pose proof (read_entry_stored e pad it He Ha Ho Hbody ltac:(lia)) as He'.
  cbn [fst] in *. remember (slice_len (entry_bytes (e, pad))) as n eqn:En. clear En.
  assert (Hr : AcpiTables_read m (it_acpi it) MadtEntryHeader_layout (it_current it) =
               Ok (mkMadtEntryHeader (entry_kind e) n)).
  { unfold AcpiTables_read, DirectMap_translate. rewrite Ha, checked_add_lt by lia. cbn [ok_or result_bind].
    by rewrite Hh. }
  unfold MadtEntries_next, read_next. rewrite Hr. change (size_of MadtEntryHeader_layout) with 2.
  cbn [result_bind eh_length]. rewrite He', checked_add_lt by lia. cbn [result_bind ok_or].
  rewrite (proj2 (Z.eqb_neq _ _)), !(proj2 (Z.ltb_ge _ _)) by lia. done.
Qed.

Lemma entries_bytes_cons e es : entries_bytes (e :: es) = entry_bytes e ++ entries_bytes es.
Proof. done. Qed.

Lemma run_stored es fuel it :
  Forall madt_entry_valid es → it_acpi it = acpi → 0 ≤ off → stored m (it_current it + off) (entries_bytes es) →
  it_end it = it_current it + slice_len (entries_bytes es) → it_end it + off < W64 →
  (length es ≤ fuel)%nat →
  (MadtEntries_run m fuel it).1 = Ok ∘ fst <$> es.
Proof.
  intros Hes Ha Ho. revert fuel it Ha. induction Hes as [|e es He Hes IH]; intros fuel it Ha Hs Hend Hw Hf.
  { rewrite run_at_end; [done|]. unfold slice_len in Hend. simpl in Hend. lia. }
  rewrite entries_bytes_cons in *. apply stored_app in Hs as [Hs1 Hs2].
  assert (El : slice_len (entry_bytes e ++ entries_bytes es) = slice_len (entry_bytes e) + slice_len (entries_bytes es))
    by (unfold slice_len; rewrite length_app; lia).
  destruct fuel as [|fuel]; [simpl in Hf; lia|]. cbn [MadtEntries_run].
  rewrite (next_stored e it He Ha Ho Hs1) by (unfold slice_len in *; lia).
  specialize (IH fuel (set_it_current (it_current it + slice_len (entry_bytes e)) it) Ha).
  destruct (MadtEntries_run m fuel _) as [items it']. cbn [fst] in *. rewrite fmap_cons. f_equal.
  apply IH; cbn [set_it_current it_current it_end]; [|lia|lia|simpl in Hf; lia].
  by replace (it_current it + slice_len (entry_bytes e) + off) with (it_current it + off + slice_len (entry_bytes e)) by lia.
Qed.

End laid_out.

Lemma length_entries_bytes es : (length es ≤ length (entries_bytes es))%nat.
Proof.
  induction es as [|e es IH]; [done|]. rewrite entries_bytes_cons, length_app. simpl. lia.
Qed.

(** ** The questions asked of a MADT *)

Lemma apply_overrides_spec a es :
  apply_overrides a (Ok <$> es) = Ok (default a (last (omap address_override es))).
Proof.
  revert a. induction es as [|e es IH]; intros a; [done|].
  destruct e; cbn; rewrite IH; try done. rewrite last_cons. by destruct (last (omap address_override es)).
Qed.

Lemma io_apic_items (es : list MadtEntry) : omap io_apic_item (Ok <$> es) = Ok <$> omap io_apic_info es.
Proof. induction es as [|e es IH]; [done|]. destruct e; cbn; by rewrite IH. Qed.

Lemma land_3 x : Z.land x 3 = Z.b2z (Z.testbit x 0) + 2 * Z.b2z (Z.testbit x 1).
Proof.
  change 3 with (Z.ones 2). rewrite Z.land_ones, !Z.testbit_spec' by lia.
  change (2 ^ 0) with 1. change (2 ^ 1) with 2. change (2 ^ 2) with 4. dmlia.
Qed.

Lemma polarity_of_inti flags : polarity_of flags = ok_or (inti_polarity flags) MalformedMadt.
Proof.
  unfold polarity_of, inti_polarity. rewrite land_3.
  by destruct (Z.testbit flags 0), (Z.testbit flags 1).
Qed.

Lemma trigger_of_inti flags : trigger_of flags = ok_or (inti_trigger flags) MalformedMadt.
Proof.
  unfold trigger_of, inti_trigger. rewrite land_3, !Z.shiftr_spec by lia.
  change (0 + 2) with 2. change (1 + 2) with 3. by destruct (Z.testbit flags 2), (Z.testbit flags 3).
Qed.

Lemma route_from_spec irq es : route_from irq (Ok <$> es) = route_spec irq es.
Proof.
  unfold route_spec. induction es as [|e es IH]; [done|].
  destruct e as [| |o| | | | |]; cbn; try done.
  destruct (Z.eqb_spec (iso_bus o) 0), (Z.eqb_spec (iso_source o) irq); cbn; try done.
  rewrite polarity_of_inti, trigger_of_inti. unfold override_route.
  by destruct (inti_polarity _), (inti_trigger _).
Qed.

Section madt.
Context (m : memory) (acpi : AcpiTables).
Abbreviation off := (offset (acpi_direct_map acpi)).

(** A MADT with body [b] and entries [es] lies at [pa]. *)
Record madt_at (pa : PhysicalAddr) (h : SDTHeader) (b : MadtBody) (es : list (MadtEntry * bytes)) : Prop := {
  ma_header : SDTHeader_valid h;
  ma_signature : hd_signature h = ascii "APIC";
  ma_body : MadtBody_valid b;
  ma_entries : Forall madt_entry_valid es;
  ma_length : hd_length h = MADT_ENTRIES_OFFSET + slice_len (entries_bytes es);
  ma_stored : stored m (pa + off) (encode SDTHeader_layout h ++ encode MadtBody_layout b ++ entries_bytes es);
  ma_bounds : 0 ≤ pa ∧ 0 ≤ off ∧ pa + hd_length h + off < W64;
}.

(** The MADT the kernel sees there. *)
Definition madt_of (pa : PhysicalAddr) (h : SDTHeader) (b : MadtBody) : Madt :=
  mkMadt acpi (mkSdt pa (hd_length h) (hd_signature h)) (body_local_apic_address b) (body_flags b).

(** The addresses of the table. *)
Definition madt_byte (pa : PhysicalAddr) (h : SDTHeader) (x : VirtualAddr) : Prop := pa + off ≤ x < pa + off + hd_length h.

Lemma madt_at_parts pa h b es :
  madt_at pa h b es →
  stored m (pa + off) (encode SDTHeader_layout h) ∧ stored m (pa + off + 36) (encode MadtBody_layout b) ∧
  stored m (pa + off + 44) (entries_bytes es).
Proof.
  intros H. pose proof (ma_stored _ _ _ _ H) as Hs. rewrite !stored_app in Hs. destruct Hs as (H1 & H2 & H3).
  rewrite (encode_length h (ma_header _ _ _ _ H)), (encode_length b (ma_body _ _ _ _ H)) in *.
  change (size_of SDTHeader_layout) with 36 in *. change (size_of MadtBody_layout) with 8 in *.
  split_and!; [done|done|]. by replace (pa + off + 44) with (pa + off + 36 + 8) by lia.
Qed.

Lemma madt_parse_spec pa h b es :
  madt_at pa h b es →
  Madt_parse m acpi (mkSdt pa (hd_length h) (hd_signature h)) = Ok (madt_of pa h b).
Proof.
  intros H. pose proof (madt_at_parts _ _ _ _ H) as (_ & Hb & _). destruct (ma_bounds _ _ _ _ H) as (H0 & H1 & H2).
  pose proof (ma_length _ _ _ _ H) as Hl. unfold Madt_parse. cbn [sdt_signature sdt_length sdt_physical_addr].
  rewrite bool_decide_true by apply (ma_signature _ _ _ _ H). cbn [negb].
  change (size_of SDTHeader_layout + size_of MadtBody_layout) with 44. change (size_of SDTHeader_layout) with 36.
  change MADT_ENTRIES_OFFSET with 44 in Hl. unfold slice_len in Hl.
  rewrite (proj2 (Z.ltb_ge _ _)), checked_add_lt by lia. cbn [ok_or result_bind].
  rewrite (AcpiTables_read_stored m acpi MadtBody_layout MadtBody_valid _ b (ma_body _ _ _ _ H)); [done| |lia].
  by replace (pa + 36 + off) with (pa + off + 36) by lia.
Qed.

Lemma madt_items_spec pa h b es :
  madt_at pa h b es → Madt_items m (madt_of pa h b) = Ok (Ok <$> es.*1).
Proof.
  intros H. pose proof (madt_at_parts _ _ _ _ H) as (_ & _ & He). destruct (ma_bounds _ _ _ _ H) as (H0 & H1 & H2).
  pose proof (ma_length _ _ _ _ H) as Hl. change MADT_ENTRIES_OFFSET with 44 in Hl.
  pose proof (length_entries_bytes es) as Hn. unfold Madt_items, Madt_entries, madt_of.
  cbn [madt_table sdt_physical_addr sdt_length madt_acpi]. change MADT_ENTRIES_OFFSET with 44.
  unfold slice_len in Hl. rewrite !checked_add_lt by lia. cbn [ok_or result_bind].
  rewrite (run_stored m acpi es); try done; cbn [it_current it_end].
  - by rewrite <- list_fmap_compose.
  - apply ma_entries with (1 := H).
  - by replace (pa + 44 + off) with (pa + off + 44) by lia.
  - unfold slice_len. lia.
  - unfold entries_fuel. cbn [it_current it_end]. lia.
Qed.

End madt.

(** The MADT iterator terminates on any memory whatever: with the fuel of the model it comes to
    the end of the table, more fuel changes nothing, an error ends the iteration, and nothing
    but the bytes of the table behind its fixed part is looked at. *)
Theorem madt_entries_safe m madt it :
  Madt_entries madt = Ok it →
  ∃ items, MadtEntries_run m (entries_fuel it) it = (items, set_it_current (it_end it) it) ∧
    err_last items ∧
    (∀ fuel, (entries_fuel it ≤ fuel)%nat → MadtEntries_run m fuel it = MadtEntries_run m (entries_fuel it) it) ∧
    (∀ m', same_bytes m m' (acpi_direct_map (madt_acpi madt))
       (sdt_physical_addr (madt_table madt) + MADT_ENTRIES_OFFSET)
       (sdt_physical_addr (madt_table madt) + sdt_length (madt_table madt)) →
     MadtEntries_run m' (entries_fuel it) it = MadtEntries_run m (entries_fuel it) it).
Proof.
  intros H. destruct (run_total m (entries_fuel it) it) as (items & Hr & He); [unfold entries_fuel; lia|].
  exists items. split_and!; [done|done|intros; apply run_fuel; unfold entries_fuel in *; lia|].
  intros m' Hm. symmetry. apply run_ext. unfold Madt_entries in H.
  destruct (checked_add _ MADT_ENTRIES_OFFSET) as [c|] eqn:Ec; simpl in H; [|done].
  destruct (checked_add _ (sdt_length _)) as [e|] eqn:Ee; simpl in H; [|done]. injection H as <-.
  apply checked_add_Some in Ec as [-> _], Ee as [-> _]. exact Hm.
Qed.

Lemma madt_answers m acpi pa h b es irq :
  madt_at m acpi pa h b es →
  effective_local_apic_address m (madt_of acpi pa h b) =
    Ok (default (body_local_apic_address b) (last (omap address_override es.*1))) ∧
  sole_io_apic m (madt_of acpi pa h b) = sole_spec es.*1 ∧
  isa_irq_route m (madt_of acpi pa h b) irq = route_spec irq es.*1.
Proof.
  intros H. pose proof (madt_items_spec m acpi _ _ _ _ H) as Hi.
  unfold effective_local_apic_address, sole_io_apic, io_apics, isa_irq_route. rewrite Hi. cbn [result_bind].
  rewrite apply_overrides_spec, io_apic_items, route_from_spec. split_and!; try done.
  unfold sole_spec. by destruct (omap io_apic_info es.*1) as [|x [|y l]].
Qed.

(** The table is where it was in a memory that agrees on its bytes. *)
Lemma madt_at_ext m m' acpi pa h b es :
  madt_at m acpi pa h b es → (∀ x, madt_byte acpi pa h x → load8 m' x = load8 m x) → madt_at m' acpi pa h b es.
Proof.
  intros [H1 H2 H3 H4 H5 H6 H7] Hm. split; try done. unfold stored in *. rewrite <- H6 at 2. symmetry.
  apply bytes_at_ext. intros i Hi. symmetry. apply Hm. unfold madt_byte.
  assert (El : slice_len (encode SDTHeader_layout h ++ encode MadtBody_layout b ++ entries_bytes es) = hd_length h).
  { unfold slice_len. rewrite !length_app, !Nat2Z.inj_add.
    pose proof (encode_length h H1) as E1. pose proof (encode_length b H3) as E2. unfold slice_len in *.
    rewrite E1, E2, H5. change (size_of SDTHeader_layout) with 36. change (size_of MadtBody_layout) with 8.
    change MADT_ENTRIES_OFFSET with 44. lia. }
  rewrite El in Hi. lia.
Qed.

(** C27: A MADT that firmware has laid out in memory is parsed and read back entry by entry, longer
    and unknown entries included, and the three questions of the kernel get the answers that the
    format gives them: the last address override counts, a single I/O APIC must be present, and
    the first override of the ISA interrupt routes it, with the polarity and the trigger mode that
    the bits of its flags stand for (a reserved combination is refused), and an interrupt without
    one goes to the pin of its number, active high and edge triggered. *)
Theorem madt_correct m acpi pa h b es irq :
  madt_at m acpi pa h b es →
  Madt_parse m acpi (mkSdt pa (hd_length h) (hd_signature h)) = Ok (madt_of acpi pa h b) ∧
  Madt_items m (madt_of acpi pa h b) = Ok (Ok <$> es.*1) ∧
  effective_local_apic_address m (madt_of acpi pa h b) =
    Ok (default (body_local_apic_address b) (last (omap address_override es.*1))) ∧
  sole_io_apic m (madt_of acpi pa h b) = sole_spec es.*1 ∧
  isa_irq_route m (madt_of acpi pa h b) irq = route_spec irq es.*1.
Proof.
  intros H. split; [by apply madt_parse_spec with es|]. split; [by apply madt_items_spec|]. by apply madt_answers.
Qed.

(** ** Checksums *)

Definition byte_sum (b : bytes) : Z := foldr Z.add 0 b mod 256.

Lemma fold_sum (f : Z → Z) (l : list Z) s :
  fold_left (λ sum i, (sum + f i) mod 256) l (s mod 256) = (s + foldr Z.add 0 (f <$> l)) mod 256.
Proof.
  revert s. induction l as [|i l IH]; intros s; cbn [fold_left fmap list_fmap foldr]; [by rewrite Z.add_0_r|].
  rewrite Z.add_mod_idemp_l by lia. rewrite IH. f_equal. lia.
Qed.

Lemma pointer_sum_spec m p n : pointer_sum m p n = byte_sum (bytes_at m p n).
Proof. unfold pointer_sum, byte_sum, bytes_at. exact (fold_sum (λ i, load8 m (p + i)) (range 0 n) 0). Qed.

Lemma checksum_from_spec m va n s (idx : list Z) :
  va + n ≤ W64 → Forall (λ i, i < n) idx →
  checksum_from m va idx s = Ok (fold_left (λ sum i, (sum + load8 m (va + i)) mod 256) idx s).
Proof.
  intros Hw Hi. revert s. induction Hi as [|i idx Hi _ IH]; intros s; [done|]. cbn [checksum_from fold_left].
  rewrite checked_add_lt by lia. apply IH.
Qed.

Lemma checksum_valid_spec m acpi pa n :
  0 < n → pa + offset (acpi_direct_map acpi) + n ≤ W64 →
  checksum_valid m acpi pa n = Ok (byte_sum (bytes_at m (pa + offset (acpi_direct_map acpi)) n) =? 0).
Proof.
  intros H0 Hw. unfold checksum_valid, DirectMap_translate. rewrite checked_add_lt by lia. cbn [ok_or result_bind].
  rewrite (checksum_from_spec m _ n) by (done || apply Forall_forall; intros i Hi%elem_of_range; lia).
  cbn [result_bind]. do 2 f_equal. exact (pointer_sum_spec m _ n).
Qed.

(** A single changed byte changes the sum. *)
Lemma byte_sum_change m m' a n x :
  a ≤ x < a + n → load8 m x ≠ load8 m' x → (∀ y, y ≠ x → load8 m y = load8 m' y) →
  byte_sum (bytes_at m a n) ≠ byte_sum (bytes_at m' a n).
Proof.
  intros Hx Hne Heq. replace n with ((x - a) + (1 + (a + n - x - 1))) by lia.
  rewrite !bytes_at_app by lia. rewrite (bytes_at_ext m m' a (x - a)) by (intros; apply Heq; lia).
  rewrite (bytes_at_ext m m' (a + (x - a) + 1)) by (intros; apply Heq; lia).
  unfold byte_sum. rewrite !foldr_app. replace (a + (x - a)) with x by lia.
  set (t := foldr Z.add 0 (bytes_at m' _ _)). set (l := bytes_at m' a (x - a)).
  assert (E : ∀ u, foldr Z.add u l = foldr Z.add 0 l + u).
  { intros u. induction l as [|y l IH]; cbn [foldr]; [lia|]. rewrite IH. lia. }
  assert (E1 : ∀ v, foldr Z.add t (bytes_at v x 1) = load8 v x + t).
  { intros v. change (bytes_at v x 1) with [load8 v (x + 0)]. by rewrite Z.add_0_r. }
  rewrite !E1, (E (load8 m x + t)), (E (load8 m' x + t)).
  pose proof (load8_range m x). pose proof (load8_range m' x). intros Hmod.
  assert ((load8 m x - load8 m' x) mod 256 = 0); [|dmlia].
  replace (load8 m x - load8 m' x) with
    (foldr Z.add 0 l + (load8 m x + t) - (foldr Z.add 0 l + (load8 m' x + t))) by lia.
  rewrite Zminus_mod, Hmod, Z.sub_diag. done.
Qed.

(** ** Finding tables *)

Section root.
Context (m : memory) (acpi : AcpiTables).
Abbreviation off := (offset (acpi_direct_map acpi)).
Abbreviation width := (RootTable_entry_width (acpi_root acpi)).
Abbreviation root := (RootTable_table (acpi_root acpi)).

(** A table with header [h] lies at [pa]. *)
Record table_at (pa : PhysicalAddr) (h : SDTHeader) : Prop := {
  ta_valid : SDTHeader_valid h;
  ta_length : size_of SDTHeader_layout ≤ hd_length h;
  ta_stored : stored m (pa + off) (encode SDTHeader_layout h);
  ta_bounds : 0 ≤ pa ∧ 0 ≤ off ∧ pa + hd_length h + off < W64;
}.

(** The root table points to the tables [ts]. *)
Record root_lists (ts : list (PhysicalAddr * SDTHeader)) : Prop := {
  rl_tables : Forall (λ t, table_at t.1 t.2) ts;
  rl_pointers : Forall (λ t, is_uint (Z.to_nat width) t.1) ts;
  rl_length : sdt_length root = size_of SDTHeader_layout + width * Z.of_nat (length ts);
  rl_stored : stored m (sdt_physical_addr root + off + size_of SDTHeader_layout)
                (mjoin ((λ t, le_bytes (Z.to_nat width) t.1) <$> ts));
  rl_bounds : 0 ≤ sdt_physical_addr root ∧ 0 ≤ off ∧ sdt_physical_addr root + sdt_length root + off < W64;
}.

Lemma table_header pa h : table_at pa h → AcpiTables_read m acpi SDTHeader_layout pa = Ok h.
Proof.
  intros []. apply (AcpiTables_read_stored m acpi SDTHeader_layout SDTHeader_valid); [done|done|].
  change (size_of SDTHeader_layout) with 36 in *. lia.
Qed.

Definition find_table_spec (sig : bytes) (ts : list (PhysicalAddr * SDTHeader)) : result (option Sdt) AcpiError :=
  match List.find (λ t, bool_decide (hd_signature t.2 = sig)) ts with
  | None => Ok None
  | Some (pa, h) =>
      if byte_sum (bytes_at m (pa + off) (hd_length h)) =? 0
      then Ok (Some (mkSdt pa (hd_length h) (hd_signature h))) else Err MalformedAcpiTable
  end.

Lemma width_pos : 0 < width.
Proof. by destruct (acpi_root acpi). Qed.

Lemma read_pointer addr p :
  is_uint (Z.to_nat width) p → stored m (addr + off) (le_bytes (Z.to_nat width) p) → addr + off < W64 →
  match acpi_root acpi with
  | Rsdt _ => AcpiTables_read m acpi (uint 4) addr
  | Xsdt _ => AcpiTables_read m acpi (uint 8) addr
  end = Ok p.
Proof.
  intros Hp Hs Hw. destruct (acpi_root acpi); simpl in *; by eapply AcpiTables_read_stored; [apply uint_ok|..].
Qed.

Lemma find_table_from_spec sig start (ts : list (PhysicalAddr * SDTHeader)) (i : Z) :
  0 ≤ i → 0 ≤ start → 0 ≤ off → start + width * (i + Z.of_nat (length ts)) + off < W64 →
  Forall (λ t, table_at t.1 t.2) ts → Forall (λ t, is_uint (Z.to_nat width) t.1) ts →
  stored m (start + width * i + off) (mjoin ((λ t, le_bytes (Z.to_nat width) t.1) <$> ts)) →
  find_table_from m acpi sig start (range i (i + Z.of_nat (length ts))) = find_table_spec sig ts.
Proof.
  intros Hi Hstart Ho Hw Ht. revert i Hi Hw. pose proof width_pos as Hwd. unfold find_table_spec.
  induction Ht as [|[pa h] ts Ht _ IH]; intros i Hi Hw Hp Hs.
  { cbn [length]. by rewrite range_empty by lia. }
  apply Forall_cons in Hp as [Hp Hps]. cbn [fst snd length] in *.
  change (mjoin _) with (le_bytes (Z.to_nat width) pa ++ mjoin ((λ t, le_bytes (Z.to_nat width) t.1) <$> ts)) in Hs.
  apply stored_app in Hs as [Hs1 Hs2]. unfold slice_len in Hs2. rewrite length_le_bytes in Hs2.
  rewrite range_cons by lia. cbn [find_table_from List.find].
  rewrite checked_mul_lt by nia. cbn [ok_or result_bind]. rewrite checked_add_lt by nia. cbn [ok_or result_bind].
  rewrite (read_pointer _ pa Hp); [|by replace (start + i * width + off) with (start + width * i + off) by lia|lia].
  cbn [result_bind]. rewrite (table_header pa h Ht). cbn [result_bind].
  rewrite (proj2 (Z.ltb_ge _ _)) by apply (ta_length _ _ Ht). cbn [snd].
  destruct (bool_decide_reflect (hd_signature h = sig)); cbn [negb].
  - pose proof (ta_length _ _ Ht) as Hlen. pose proof (ta_bounds _ _ Ht). change (size_of SDTHeader_layout) with 36 in Hlen.
    rewrite checksum_valid_spec by lia. cbn [result_bind].
    by destruct (byte_sum _ =? 0).
  - replace (i + Z.of_nat (S (length ts))) with (i + 1 + Z.of_nat (length ts)) by lia.
    apply IH; [lia|lia|done|].
    by replace (start + width * (i + 1) + off) with (start + width * i + off + Z.of_nat (Z.to_nat width)) by lia.
Qed.

Lemma find_table_correct sig ts :
  root_lists ts → AcpiTables_find_table m acpi sig = find_table_spec sig ts.
Proof.
  intros [Ht Hp Hl Hs Hb]. pose proof width_pos as Hwd. unfold AcpiTables_find_table, RootTable_entry_count.
  change (size_of SDTHeader_layout) with 36 in *. rewrite checked_add_lt by nia. cbn [ok_or result_bind].
  rewrite checked_sub_le by nia. cbn [ok_or result_bind].
  replace (sdt_length root - 36) with (Z.of_nat (length ts) * width) by lia.
  rewrite Z.mod_mul, Z.div_mul by lia. cbn [negb Z.eqb result_bind].
  apply (find_table_from_spec sig _ ts 0); try done; try nia.
  by replace (sdt_physical_addr root + 36 + width * 0 + off) with (sdt_physical_addr root + off + 36) by lia.
Qed.

End root.

(** ** Discovery *)

Section discovery.
Context (m : memory) (dm : DirectMap) (p : VirtualAddr).

(** A root table with header [h] lies at [pa]. *)
Record root_at (pa : PhysicalAddr) (h : SDTHeader) (signature : bytes) : Prop := {
  ra_valid : SDTHeader_valid h;
  ra_signature : hd_signature h = signature;
  ra_stored : stored m (pa + offset dm) (encode SDTHeader_layout h);
  ra_sum : byte_sum (bytes_at m (pa + offset dm) (hd_length h)) = 0;
  ra_bounds : pa + offset dm < W64;
}.

(** The pointer structure at [p], in its old form or in that of revision 2, leads to a root table. *)
Inductive firmware : RootTable → Prop :=
| fw_rsdt r h :
    Rsdp_valid r → rsdp_signature r = ascii "RSD PTR " → rsdp_revision r < 2 →
    stored m p (encode Rsdp_layout r) → byte_sum (encode Rsdp_layout r) = 0 →
    root_at (rsdp_rsdt_address r) h (ascii "RSDT") →
    firmware (Rsdt (mkSdt (rsdp_rsdt_address r) (hd_length h) (hd_signature h)))
| fw_xsdt x h :
    Xsdp_valid x → rsdp_signature (xsdp_rsdp x) = ascii "RSD PTR " → 2 ≤ rsdp_revision (xsdp_rsdp x) →
    stored m p (encode Xsdp_layout x) → byte_sum (encode Rsdp_layout (xsdp_rsdp x)) = 0 →
    size_of Xsdp_layout ≤ xsdp_length x → byte_sum (bytes_at m p (xsdp_length x)) = 0 →
    root_at (xsdp_xsdt_address x) h (ascii "XSDT") →
    firmware (Xsdt (mkSdt (xsdp_xsdt_address x) (hd_length h) (hd_signature h))).

Lemma root_table_spec pa h sig make :
  root_at pa h sig → root_table m dm pa sig make = Ok (make (mkSdt pa (hd_length h) (hd_signature h))).
Proof.
  intros []. unfold root_table, DirectMap_translate. rewrite checked_add_lt by done. cbn [ok_or result_bind].
  rewrite (read_stored SDTHeader_layout SDTHeader_valid m _ h) by done.
  rewrite pointer_sum_spec, ra_sum0, bool_decide_true by done. done.
Qed.

(** What both forms of the pointer structure share. *)
Lemma rsdp_checks r :
  Rsdp_valid r → stored m p (encode Rsdp_layout r) → byte_sum (encode Rsdp_layout r) = 0 →
  read_unaligned Rsdp_layout m p = r ∧ pointer_sum m p (size_of Rsdp_layout) = 0.
Proof.
  intros Hr Hs Hsum. split; [by apply (read_stored Rsdp_layout Rsdp_valid)|].
  rewrite pointer_sum_spec, <- (encode_length r Hr). unfold stored in Hs. by rewrite Hs.
Qed.

Lemma from_rsdp_spec root : firmware root → AcpiTables_from_rsdp m p dm = Ok (mkAcpiTables dm root).
Proof.
  intros [r h Hr Hsig Hrev Hs Hsum Hroot|x h Hx Hsig Hrev Hs Hsum Hlen Hsum2 Hroot]; unfold AcpiTables_from_rsdp.
  - destruct (rsdp_checks r Hr Hs Hsum) as [-> ->]. cbn [Z.eqb negb].
    rewrite bool_decide_true, (proj2 (Z.leb_gt _ _)) by done. cbn [negb].
    by rewrite (root_table_spec _ h).
  - pose proof (read_stored Xsdp_layout Xsdp_valid m p x Hx Hs) as ->.
    change (encode Xsdp_layout x) with (encode Rsdp_layout (xsdp_rsdp x) ++
      encode (uint 4 #> uint 8 #> uint 1 #> byte_array 3)
        (xsdp_length x, (xsdp_xsdt_address x, (xsdp_extended_checksum x, xsdp_reserved x)))) in Hs.
    apply stored_app in Hs as [Hs _]. destruct (rsdp_checks _ (proj1 Hx) Hs Hsum) as [-> ->]. cbn [Z.eqb negb].
    rewrite bool_decide_true, (proj2 (Z.leb_le _ _)) by done. cbn [negb].
    rewrite (proj2 (Z.ltb_ge _ _)), pointer_sum_spec, Hsum2 by done. cbn [Z.eqb negb].
    by rewrite (root_table_spec _ h).
Qed.

End discovery.

(** From the pointer the boot loader hands over, the kernel finds the root table that firmware
    has laid out, in either form, and in it the first table with the MADT's signature; and if
    a single byte of that MADT were different, it would be rejected. *)
Theorem acpi_discovery m dm p root ts pa h b es :
  let acpi := mkAcpiTables dm root in
  firmware m dm p root → root_lists m acpi ts →
  List.find (λ t, bool_decide (hd_signature t.2 = ascii "APIC")) ts = Some (pa, h) →
  madt_at m acpi pa h b es →
  byte_sum (bytes_at m (pa + offset dm) (hd_length h)) = 0 →
  AcpiTables_from_rsdp m p dm = Ok acpi ∧
  AcpiTables_madt m acpi = Ok (Some (madt_of acpi pa h b)) ∧
  ∀ m' x, pa + offset dm ≤ x < pa + offset dm + hd_length h →
    load8 m' x ≠ load8 m x → (∀ y, y ≠ x → load8 m' y = load8 m y) → root_lists m' acpi ts →
    AcpiTables_madt m' acpi = Err MalformedAcpiTable.
Proof.
  intros acpi Hf Hr Hfind Hm Hsum. split_and!; [by apply from_rsdp_spec| |].
  - unfold AcpiTables_madt. rewrite (find_table_correct m acpi _ ts Hr). unfold find_table_spec.
    rewrite Hfind. cbn [acpi acpi_direct_map]. rewrite Hsum. cbn [Z.eqb result_bind].
    by rewrite (madt_parse_spec m acpi pa h b es Hm).
  - intros m' x Hx Hne Heq Hr'. unfold AcpiTables_madt.
    rewrite (find_table_correct m' acpi _ ts Hr'). unfold find_table_spec. rewrite Hfind. cbn [acpi acpi_direct_map].
    rewrite (proj2 (Z.eqb_neq _ _)); [done|]. rewrite <- Hsum. by apply byte_sum_change with x.
Qed.

(** ** A small firmware image *)

(** Memory that holds [b] at [a] and zeros elsewhere. *)
Definition image (parts : list (VirtualAddr * bytes)) : memory := λ x,
  match List.find (λ '(a, b), (a <=? x) && (x <? a + slice_len b)) parts with
  | Some (a, b) => default 0 (zget b (x - a))
  | None => 0
  end.

(** The header of a table with its checksum filled in. *)
Definition table_header_for (signature : string) (rest : bytes) : SDTHeader :=
  let h c := mkSDTHeader (ascii signature) (36 + slice_len rest) 1 c (ascii "DUSKOS") (ascii "DUSKTABL") 1 1 1 in
  h ((- byte_sum (encode SDTHeader_layout (h 0) ++ rest)) mod 256).

Definition demo_entries : list (MadtEntry * bytes) :=
  [(LocalApic (mkLocalApicEntry 0 0 1), []);
   (IoApic (mkIoApicEntry 2 0 0xFEC00000 0), []);
   (Unknown 0x42 5, [1; 2; 3]);
   (SourceOverride (mkInterruptSourceOverride 0 0 2 0), []);
   (SourceOverride (mkInterruptSourceOverride 0 9 9 0xF), [0; 0]);
   (AddressOverride (mkLocalApicAddressOverride 0 0xFEE00000), [])].

Definition demo_body : MadtBody := mkMadtBody 0xFEE01000 1.
Definition demo_madt_rest : bytes := encode MadtBody_layout demo_body ++ entries_bytes demo_entries.
Definition demo_madt_header : SDTHeader := table_header_for "APIC" demo_madt_rest.
Definition demo_xsdt_rest : bytes := le_bytes 8 0x300.
Definition demo_xsdt_header : SDTHeader := table_header_for "XSDT" demo_xsdt_rest.

Definition demo_xsdp : Xsdp :=
  let r c := mkRsdp (ascii "RSD PTR ") c (ascii "DUSKOS") 2 0 in
  let rsdp := r ((- byte_sum (encode Rsdp_layout (r 0))) mod 256) in
  let x c := mkXsdp rsdp 36 0x200 c [0; 0; 0] in
  x ((- byte_sum (encode Xsdp_layout (x 0))) mod 256).

Definition demo_acpi_memory : memory :=
  image [(0x1100, encode Xsdp_layout demo_xsdp);
         (0x1200, encode SDTHeader_layout demo_xsdt_header ++ demo_xsdt_rest);
         (0x1300, encode SDTHeader_layout demo_madt_header ++ demo_madt_rest)].

Definition demo_acpi : AcpiTables :=
  mkAcpiTables (mkDirectMap 0x1000) (Xsdt (mkSdt 0x200 44 (ascii "XSDT"))).

Ltac in_range := unfold is_uint; vm_compute; split_and?; (discriminate || reflexivity).

Lemma demo_madt_at : madt_at demo_acpi_memory demo_acpi 0x300 demo_madt_header demo_body demo_entries.
Proof.
  split; [in_range|done|in_range| |done|by vm_compute|in_range].
  repeat constructor; try in_range. set_solver by lia.
Qed.

Lemma demo_root_lists : root_lists demo_acpi_memory demo_acpi [(0x300, demo_madt_header)].
Proof.
  split; [|repeat constructor; in_range|done|by vm_compute|in_range].
  repeat constructor; try in_range; by vm_compute.
Qed.

Lemma demo_firmware : firmware demo_acpi_memory (mkDirectMap 0x1000) 0x1100 (Xsdt (mkSdt 0x200 44 (ascii "XSDT"))).
Proof.
  refine (fw_xsdt _ _ _ demo_xsdp demo_xsdt_header _ _ _ _ _ _ _ _); try by vm_compute.
Qed.

Lemma acpi_discovery_witness :
  AcpiTables_madt demo_acpi_memory demo_acpi = Ok (Some (madt_of demo_acpi 0x300 demo_madt_header demo_body)).
Proof.
  refine (proj1 (proj2 (acpi_discovery demo_acpi_memory _ 0x1100 _ _ 0x300 demo_madt_header demo_body demo_entries
    demo_firmware demo_root_lists _ demo_madt_at _))); by vm_compute.
Defined.

Lemma madt_correct_witness :
  isa_irq_route demo_acpi_memory (madt_of demo_acpi 0x300 demo_madt_header demo_body) 9 =
    Ok (mkIsaIrqRoute 9 ActiveLow Level) ∧
  effective_local_apic_address demo_acpi_memory (madt_of demo_acpi 0x300 demo_madt_header demo_body) = Ok 0xFEE00000.
Proof.
  destruct (madt_correct _ _ _ _ _ _ 9 demo_madt_at) as (_ & _ & E & _ & R).
  split; [transitivity (route_spec 9 demo_entries.*1); [exact R|]|etransitivity; [exact E|]]; vm_compute; reflexivity.
Defined.

Lemma madt_entries_safe_witness :
  ∃ items, MadtEntries_run demo_acpi_memory 1000
    (mkMadtEntries demo_acpi 0x32C 0x367) = (items, mkMadtEntries demo_acpi 0x367 0x367) ∧ err_last items.
Proof.
  destruct (madt_entries_safe demo_acpi_memory (madt_of demo_acpi 0x300 demo_madt_header demo_body)
    (mkMadtEntries demo_acpi 0x32C 0x367)) as (items & Hr & He & Hf & _); [by vm_compute|].
  exists items. split; [|done]. rewrite Hf, Hr; [done|]. vm_compute. lia.
Defined.
