(* ===== verification/Frame.v ===== *)
(** * The physical frame allocator

    Model of [src/memory/frame.rs]: the two-bit-per-frame [Bitmap] kept in memory,
    [FrameAllocator] with its boot-time construction, allocation, deallocation and
    reclaiming, and [FrameAddr].  The bitmap is read and written in the same memory
    that [alloc] zeroes frames of, so that the theorems also say that the allocator
    never damages its own bookkeeping. *)

From S2P Require Import Prelude Memory.

Definition FRAME_SIZE : usize := 4096.

Definition align_up_to_frame (addr : usize) : option usize :=
  (λ addr, Z.land addr (not64 (FRAME_SIZE - 1))) <$> checked_add addr (FRAME_SIZE - 1).

Definition align_down_to_frame (addr : usize) : usize :=
  Z.land addr (not64 (FRAME_SIZE - 1)).

Inductive FrameState := Reserved | Free | Allocated.

#[export] Instance FrameState_eq_dec : EqDecision FrameState.
Proof. solve_decision. Defined.

(** The [repr(u8)] discriminants. *)
Definition FrameState_u8 (s : FrameState) : Z :=
  match s with Reserved => 0 | Free => 1 | Allocated => 2 end.

(** ** Bitmap *)

Record Bitmap := mkBitmap {
  bm_start : VirtualAddr;
  frame_count : usize;
}.

Definition Bitmap_state {S} (self : Bitmap) (m : memory) (frame_idx : usize) : M S FrameState :=
  do! massert (frame_idx <? frame_count self) "frame index out of bounds" ;;;
  let byte_idx := frame_idx / 4 in
  let shift := (frame_idx mod 4) * 2 in
  let byte := load8 m (bm_start self + byte_idx) in
  match Z.land (Z.shiftr byte shift) 3 with
  | 0 => ret Reserved
  | 1 => ret Free
  | 2 => ret Allocated
  | _ => panic "invalid frame state"
  end.

Definition Bitmap_set_state {S} (self : Bitmap) (m : memory) (frame_idx : usize)
    (state : FrameState) : M S memory :=
  do! massert (frame_idx <? frame_count self) "frame index out of bounds" ;;;
  let byte_idx := frame_idx / 4 in
  let shift := (frame_idx mod 4) * 2 in
  let ptr := bm_start self + byte_idx in
  let byte := load8 m ptr in
  let mask := Z.shiftl 3 shift in
  ret (store8 m ptr
    (Z.lor (Z.land byte (Z.lxor mask 255)) (Z.shiftl (FrameState_u8 state) shift))).

(** ** FrameAddr *)

(** [FrameAddr] and [OwnedFrame] wrap the start address of a frame. *)
Abbreviation FrameAddr := Z (only parsing).

Definition FrameAddr_from_start_address (address : PhysicalAddr) : option FrameAddr :=
  if negb (address mod FRAME_SIZE =? 0) then None else Some address.

Definition FrameAddr_from_index {S} (index : usize) : M S FrameAddr := umul index FRAME_SIZE.

Definition FrameAddr_index (self : FrameAddr) : usize := self / FRAME_SIZE.

(** ** FrameAllocator *)

Inductive FrameAllocatorInitError :=
| AddressOverflow | NoUsableFrames | NoBitmapStorage | BitmapOutsideDirectMap.

Record FrameAllocator := mkFrameAllocator {
  bitmap : Bitmap;
  next_search : usize;
  allocatable_frames : usize;
  free_frames : usize;
  direct_map : DirectMap;
}.

(** What the memory-management code works on: memory, the frame allocator that is
    passed down as [&mut FrameAllocator], the page-table base register, and the
    pages [invlpg] was executed for (most recent first). *)
Record MState := mkMState {
  ms_mem : memory;
  ms_fa : FrameAllocator;
  ms_cr3 : Z;
  ms_flushed : list VirtualAddr;
}.

Definition set_mem (m : memory) (s : MState) : MState :=
  mkMState m (ms_fa s) (ms_cr3 s) (ms_flushed s).
Definition set_fa (fa : FrameAllocator) (s : MState) : MState :=
  mkMState (ms_mem s) fa (ms_cr3 s) (ms_flushed s).

Definition should_track (kind : MemoryRegionKind) : bool :=
  match kind with
  | Usable | BootloaderReclaimable | AcpiReclaimable => true
  | _ => false
  end.
Definition can_store_bitmap (kind : MemoryRegionKind) : bool := bool_decide (kind = Usable).
Definition is_initially_free (kind : MemoryRegionKind) : bool := bool_decide (kind = Usable).

(** A [Range<usize>] as its two ends. *)
Definition usable_frame_range (region : MemoryRegion) :
    result (usize * usize) FrameAllocatorInitError :=
  let* region_end :=
    ok_or (checked_add (region_start region) (region_length region)) AddressOverflow in
  let* start := ok_or (align_up_to_frame (region_start region)) AddressOverflow in
  let end_ := align_down_to_frame region_end in
  Ok (start / FRAME_SIZE, end_ / FRAME_SIZE).

Definition range_is_empty (r : usize * usize) : bool := negb (r.1 <? r.2).
Definition range_len (r : usize * usize) : usize := if r.1 <? r.2 then r.2 - r.1 else 0.

(** First loop of [new]: the end of the highest tracked frame range. *)
Fixpoint new_highest_frame (regions : list MemoryRegion) (highest : option usize) :
    result (option usize) FrameAllocatorInitError :=
  match regions with
  | [] => Ok highest
  | region :: regions =>
      if negb (should_track (region_kind region)) then new_highest_frame regions highest
      else
        let* r := usable_frame_range region in
        if range_is_empty r then new_highest_frame regions highest
        else new_highest_frame regions
               (Some (match highest with None => r.2 | Some current => Z.max current r.2 end))
  end.

(** Second loop: the first usable range long enough to hold the bitmap. *)
Fixpoint new_bitmap_start (regions : list MemoryRegion) (bitmap_frame_count : usize) :
    result (option usize) FrameAllocatorInitError :=
  match regions with
  | [] => Ok None
  | region :: regions =>
      if negb (can_store_bitmap (region_kind region))
      then new_bitmap_start regions bitmap_frame_count
      else
        let* r := usable_frame_range region in
        if range_is_empty r then new_bitmap_start regions bitmap_frame_count
        else if range_len r <? bitmap_frame_count
        then new_bitmap_start regions bitmap_frame_count
        else Ok (Some r.1)
  end.

(** Third loop: mark the usable frames free, with the two counters as locals. *)
Definition new_free_frame (bitmap : Bitmap) (bitmap_start bitmap_end frame_idx : usize) :
    M (memory * usize * usize) unit :=
  if (bitmap_start <=? frame_idx) && (frame_idx <? bitmap_end) then ret tt
  else
    let! (m, allocatable, free) := get in
    let! m := Bitmap_set_state bitmap m frame_idx Free in
    let! allocatable := uadd allocatable 1 in
    let! free := uadd free 1 in
    put (m, allocatable, free).

Definition new_free_region (bitmap : Bitmap) (bitmap_start bitmap_end : usize)
    (region : MemoryRegion) : M (memory * usize * usize) (result unit FrameAllocatorInitError) :=
  if negb (is_initially_free (region_kind region)) then ret (Ok tt)
  else
    let? r := ret (usable_frame_range region) in
    do! mfor (range r.1 r.2) (new_free_frame bitmap bitmap_start bitmap_end) ;;;
    ret (Ok tt).

Definition FrameAllocator_new (regions : list MemoryRegion) (dm : DirectMap) :
    M memory (result FrameAllocator FrameAllocatorInitError) :=
  let? highest := ret (new_highest_frame regions None) in
  let? highest_frame := ret (ok_or highest NoUsableFrames) in
  let bitmap_bytes := div_ceil highest_frame 4 in
  let bitmap_frame_count := div_ceil bitmap_bytes FRAME_SIZE in
  let? bitmap_storage_bytes :=
    ret (ok_or (checked_mul bitmap_frame_count FRAME_SIZE) AddressOverflow) in
  let? start := ret (new_bitmap_start regions bitmap_frame_count) in
  let? bitmap_start_frame := ret (ok_or start NoBitmapStorage) in
  let! bitmap_physical_addr := umul bitmap_start_frame FRAME_SIZE in
  let? bitmap_virtual :=
    ret (ok_or (DirectMap_translate dm bitmap_physical_addr) BitmapOutsideDirectMap) in
  do! modify (λ m, write_bytes m bitmap_virtual 0 bitmap_storage_bytes) ;;;
  let bitmap := mkBitmap bitmap_virtual highest_frame in
  let? bitmap_end_frame :=
    ret (ok_or (checked_add bitmap_start_frame bitmap_frame_count) AddressOverflow) in
  λ m,
    match mfor_ok regions (new_free_region bitmap bitmap_start_frame bitmap_end_frame)
            (m, 0, 0) with
    | Done (Ok _, (m, allocatable, free)) =>
        (let! next_search := uadd bitmap_start_frame bitmap_frame_count in
         ret (Ok (mkFrameAllocator bitmap next_search allocatable free dm))) m
    | Done (Err e, (m, _, _)) => Done (Err e, m)
    | Panic w => Panic w
    | Halt => Halt
    end.

(** [(start..end).find(|&index| self.bitmap.state(index) == Free)] *)
Definition find_free_in (start end_ : usize) : M MState (option usize) :=
  let! s := get in
  mfind (range start end_) (λ index,
    let! st := Bitmap_state (bitmap (ms_fa s)) (ms_mem s) index in
    ret (bool_decide (st = Free))).

Definition find_free_frame : M MState (option usize) :=
  let! s := get in
  let fa := ms_fa s in
  let! found := find_free_in (next_search fa) (frame_count (bitmap fa)) in
  match found with
  | Some i => ret (Some i)
  | None => find_free_in 0 (next_search fa)
  end.

Definition reclaim_frame (frame_idx : usize) : M MState unit :=
  let! s := get in
  let fa := ms_fa s in
  let! st := Bitmap_state (bitmap fa) (ms_mem s) frame_idx in
  if negb (bool_decide (st = Reserved)) then ret tt
  else
    let! m := Bitmap_set_state (bitmap fa) (ms_mem s) frame_idx Free in
    let! allocatable := uadd (allocatable_frames fa) 1 in
    let! free := uadd (free_frames fa) 1 in
    put (set_mem m (set_fa
      (mkFrameAllocator (bitmap fa) (Z.min (next_search fa) frame_idx)
         allocatable free (direct_map fa)) s)).

Definition reclaim_region (region_kind' : MemoryRegionKind) (region : MemoryRegion) :
    M MState unit :=
  if bool_decide (region_kind region = region_kind') then
    match usable_frame_range region with
    | Ok r => mfor (range r.1 r.2) reclaim_frame
    | Err _ => panic "invalid memory region"
    end
  else ret tt.

Definition FrameAllocator_reclaim_regions (memory_map : list MemoryRegion)
    (region_kind : MemoryRegionKind) : M MState unit :=
  match region_kind with
  | BootloaderReclaimable | AcpiReclaimable => mfor memory_map (reclaim_region region_kind)
  | _ => ret tt
  end.

Definition FrameAllocator_alloc_nozero : M MState (option FrameAddr) :=
  let! s := get in
  if free_frames (ms_fa s) =? 0 then ret None
  else
    let! found := find_free_frame in
    match found with
    | None => ret None
    | Some frame_idx =>
        let fa := ms_fa s in
        let! m := Bitmap_set_state (bitmap fa) (ms_mem s) frame_idx Allocated in
        let! free := usub (free_frames fa) 1 in
        do! put (set_mem m (set_fa
          (mkFrameAllocator (bitmap fa) (saturating_add frame_idx 1)
             (allocatable_frames fa) free (direct_map fa)) s)) ;;;
        let! frame := FrameAddr_from_index frame_idx in
        ret (Some frame)
    end.

Definition FrameAllocator_alloc : M MState (option FrameAddr) :=
  let! o := FrameAllocator_alloc_nozero in
  match o with
  | None => ret None
  | Some frame =>
      let! s := get in
      let! start := expect (DirectMap_translate (direct_map (ms_fa s)) frame)
                      "frame is outside the direct map" in
      do! put (set_mem (write_bytes (ms_mem s) start 0 FRAME_SIZE) s) ;;;
      ret (Some frame)
  end.

Definition FrameAllocator_dealloc (frame : FrameAddr) : M MState unit :=
  let! s := get in
  let fa := ms_fa s in
  let frame_idx := FrameAddr_index frame in
  let! st := Bitmap_state (bitmap fa) (ms_mem s) frame_idx in
  match st with
  | Allocated =>
      let! m := Bitmap_set_state (bitmap fa) (ms_mem s) frame_idx Free in
      let! free := uadd (free_frames fa) 1 in
      put (set_mem m (set_fa
        (mkFrameAllocator (bitmap fa) (Z.min (next_search fa) frame_idx)
           (allocatable_frames fa) free (direct_map fa)) s))
  | Free => panic "attempted to free free frame"
  | Reserved => panic "attempted to free reserved frame"
  end.

(** * Specification *)

(** The two-bit cell of frame [i]. *)
Definition cell (b : Bitmap) (m : memory) (i : Z) : Z :=
  Z.land (Z.shiftr (load8 m (bm_start b + i / 4)) ((i mod 4) * 2)) 3.

(** [bitmap_rep b m l]: the bitmap [b] in memory [m] records the frame states [l]. *)
Record bitmap_rep (b : Bitmap) (m : memory) (l : list FrameState) : Prop := {
  rep_length : Z.of_nat (length l) = frame_count b;
  rep_cell : ∀ i st, l !! i = Some st → cell b m (Z.of_nat i) = FrameState_u8 st;
}.

Definition count_state (st : FrameState) (l : list FrameState) : Z :=
  Z.of_nat (length (filter (λ x, x = st) l)).

(** Where frame [i] lies in the direct map. *)
Definition frame_virt (dm : DirectMap) (i : Z) : Z := i * FRAME_SIZE + offset dm.

(** The bytes of the bitmap and frame [i] do not overlap. *)
Definition off_bitmap (b : Bitmap) (dm : DirectMap) (i : Z) : Prop :=
  frame_virt dm i + FRAME_SIZE ≤ bm_start b ∨
  bm_start b + div_ceil (frame_count b) 4 ≤ frame_virt dm i.

(** The allocator's invariant: the bitmap records [l], the counters count it, the
    search hint is in range, the bitmap's own storage is not allocatable and the
    direct map covers all tracked frames. *)
Record fa_inv (s : MState) (l : list FrameState) : Prop := {
  inv_rep : bitmap_rep (bitmap (ms_fa s)) (ms_mem s) l;
  inv_free : free_frames (ms_fa s) = count_state Free l;
  inv_allocatable : allocatable_frames (ms_fa s) = count_state Free l + count_state Allocated l;
  inv_next : 0 ≤ next_search (ms_fa s) ≤ frame_count (bitmap (ms_fa s));
  inv_storage : ∀ i st, l !! i = Some st → st ≠ Reserved →
    off_bitmap (bitmap (ms_fa s)) (direct_map (ms_fa s)) (Z.of_nat i);
  inv_offset : 0 ≤ offset (direct_map (ms_fa s));
  inv_cover : frame_virt (direct_map (ms_fa s)) (frame_count (bitmap (ms_fa s))) ≤ W64;
}.

(** ** Bitmap lemmas *)

Definition cell_write_ok (byte sh sh' c : Z) : bool :=
  let byte' := Z.lor (Z.land byte (Z.lxor (Z.shiftl 3 sh) 255)) (Z.shiftl c sh) in
  (0 <=? byte') && (byte' <? 256) &&
  (Z.land (Z.shiftr byte' sh') 3 =? if sh =? sh' then c else Z.land (Z.shiftr byte sh') 3).

Lemma cell_write_all :
  forallb (λ byte, forallb (λ sh, forallb (λ sh', forallb (cell_write_ok byte sh sh') [0; 1; 2])
    [0; 2; 4; 6]) [0; 2; 4; 6]) (seqZ 0 256) = true.
Proof. by vm_compute. Qed.

Lemma shift_cases i : (i mod 4) * 2 ∈ [0; 2; 4; 6].
Proof.
  assert (i mod 4 = 0 ∨ i mod 4 = 1 ∨ i mod 4 = 2 ∨ i mod 4 = 3) as H by dmlia.
  destruct H as [->|[->|[->| ->]]]; set_solver.
Qed.

Lemma cell_write byte i j st :
  0 ≤ byte < 256 → cell_write_ok byte ((i mod 4) * 2) ((j mod 4) * 2) (FrameState_u8 st) = true.
Proof.
  intros Hb. pose proof cell_write_all as H.
  rewrite forallb_forall in H. specialize (H byte).
  rewrite <- list_elem_of_In, elem_of_seqZ in H. specialize (H ltac:(lia)).
  rewrite forallb_forall in H. specialize (H ((i mod 4) * 2)).
  rewrite <- list_elem_of_In in H. specialize (H (shift_cases i)).
  rewrite forallb_forall in H. specialize (H ((j mod 4) * 2)).
  rewrite <- list_elem_of_In in H. specialize (H (shift_cases j)).
  rewrite forallb_forall in H. apply H. rewrite <- list_elem_of_In.
  destruct st; repeat constructor.
Qed.

(** The memory [set_state] leaves. *)
Definition set_cell (b : Bitmap) (m : memory) (i : Z) (st : FrameState) : memory :=
  let shift := (i mod 4) * 2 in
  store8 m (bm_start b + i / 4)
    (Z.lor (Z.land (load8 m (bm_start b + i / 4)) (Z.lxor (Z.shiftl 3 shift) 255))
       (Z.shiftl (FrameState_u8 st) shift)).

Lemma cell_set_cell b m i j st :
  cell b (set_cell b m i st) j = if i =? j then FrameState_u8 st else cell b m j.
Proof.
  unfold cell, set_cell.
  destruct (decide (i / 4 = j / 4)) as [E|E].
  - rewrite E, load8_store8_eq.
    pose proof (cell_write (load8 m (bm_start b + j / 4)) i j st (load8_range _ _)) as H.
    unfold cell_write_ok in H. apply andb_true_iff in H as [H H3].
    apply andb_true_iff in H as [H1 H2].
    apply Z.leb_le in H1. apply Z.ltb_lt in H2. apply Z.eqb_eq in H3.
    rewrite Z.mod_small by lia. rewrite H3.
    destruct (Z.eqb_spec ((i mod 4) * 2) ((j mod 4) * 2)), (Z.eqb_spec i j); done || dmlia.
  - rewrite load8_store8_ne by lia.
    destruct (Z.eqb_spec i j); [congruence|done].
Qed.

Lemma Bitmap_state_rep {S} b m l i st (s : S) :
  bitmap_rep b m l → 0 ≤ i → l !! Z.to_nat i = Some st → Bitmap_state b m i s = Done (st, s).
Proof.
  intros [Hl Hc] Hi Hst. pose proof (lookup_lt_Some _ _ _ Hst) as Hlt.
  unfold Bitmap_state, massert. rewrite (proj2 (Z.ltb_lt _ _)) by lia.
  unfold bind, ret. specialize (Hc _ _ Hst). rewrite Z2Nat.id in Hc by done.
  unfold cell in Hc. rewrite Hc. by destruct st.
Qed.

Lemma Bitmap_state_oob {S} b m i (s : S) :
  frame_count b ≤ i → Bitmap_state b m i s = Panic "frame index out of bounds".
Proof. intros. unfold Bitmap_state, massert. by rewrite (proj2 (Z.ltb_ge _ _)). Qed.

Lemma Bitmap_set_state_eq {S} b m i st (s : S) :
  i < frame_count b → Bitmap_set_state b m i st s = Done (set_cell b m i st, s).
Proof. intros. unfold Bitmap_set_state, massert. by rewrite (proj2 (Z.ltb_lt _ _)). Qed.

Lemma set_cell_rep b m l i st :
  bitmap_rep b m l → 0 ≤ i → bitmap_rep b (set_cell b m i st) (<[Z.to_nat i := st]> l).
Proof.
  intros [Hl Hc] Hi. split; [by rewrite length_insert|].
  intros j st' Hj. rewrite cell_set_cell.
  apply list_lookup_insert_Some in Hj as [(<- & <- & _)|[Hne Hj]].
  - by rewrite Z2Nat.id, Z.eqb_refl by done.
  - rewrite (proj2 (Z.eqb_neq i (Z.of_nat j))) by lia. by apply Hc.
Qed.

(** The bitmap survives any change of memory outside its own bytes. *)
Lemma bitmap_rep_frame b m m' l :
  bitmap_rep b m l →
  (∀ a, bm_start b ≤ a < bm_start b + div_ceil (frame_count b) 4 → load8 m' a = load8 m a) →
  bitmap_rep b m' l.
Proof.
  intros [Hl Hc] Hm. split; [done|]. intros i st Hi.
  rewrite <- (Hc _ _ Hi). unfold cell. rewrite Hm; [done|].
  pose proof (lookup_lt_Some _ _ _ Hi). unfold div_ceil. dmlia.
Qed.

Lemma set_cell_out b m i st a :
  a ≠ bm_start b + i / 4 → load8 (set_cell b m i st) a = load8 m a.
Proof. intros. unfold set_cell. by rewrite load8_store8_ne by congruence. Qed.

(** ** Counting *)

Lemma count_state_range st l : 0 ≤ count_state st l ≤ Z.of_nat (length l).
Proof. unfold count_state. pose proof (length_filter (λ x, x = st) l). lia. Qed.

Lemma count_state_insert st l i old new :
  l !! i = Some old →
  count_state st (<[i := new]> l) =
  count_state st l - (if decide (old = st) then 1 else 0) + (if decide (new = st) then 1 else 0).
Proof.
  intros H. pose proof (lookup_lt_Some _ _ _ H) as Hlt. unfold count_state.
  rewrite insert_take_drop by done.
  rewrite <- (take_drop_middle l i old H) at 3.
  rewrite !filter_app, !filter_cons, !length_app.
  destruct (decide (old = st)), (decide (new = st)); rewrite ?length_cons; lia.
Qed.

Lemma count_state_pos st l i : l !! i = Some st → 0 < count_state st l.
Proof.
  intros H. unfold count_state.
  assert (st ∈ filter (λ x, x = st) l) as Hin
    by (apply list_elem_of_filter; split; [done|by eapply list_elem_of_lookup_2]).
  destruct (filter _ l); [by apply not_elem_of_nil in Hin|simpl; lia].
Qed.

Lemma count_state_0 st l : count_state st l = 0 ↔ (st ∉ l).
Proof.
  unfold count_state. split.
  - intros H Hin. apply list_elem_of_lookup in Hin as [i Hi].
    apply count_state_pos in Hi. unfold count_state in Hi. lia.
  - intros Hni. destruct (filter (λ x, x = st) l) eqn:E; [done|].
    assert (f ∈ filter (λ x, x = st) l) as Hf by (rewrite E; left).
    apply list_elem_of_filter in Hf as [-> ?]. done.
Qed.

Lemma count_state_two l : count_state Free l + count_state Allocated l ≤ Z.of_nat (length l).
Proof.
  unfold count_state. induction l as [|x l IH]; [done|].
  rewrite !filter_cons, !length_cons. destruct x; repeat case_decide; simplify_eq; simpl; lia.
Qed.

(** ** The abstract allocator *)

(** Frame states and the search hint, without memory, bits or counters. *)
Record AbsAlloc := mkAbs { a_frames : list FrameState; a_next : nat }.

(** Next fit: the first free frame at or after the hint, else the first one. *)
Definition next_fit (a : AbsAlloc) : option nat :=
  match list_find (λ st, st = Free) (drop (a_next a) (a_frames a)) with
  | Some (k, _) => Some (a_next a + k)%nat
  | None => fst <$> list_find (λ st, st = Free) (take (a_next a) (a_frames a))
  end.

Definition abs_alloc (a : AbsAlloc) : option nat * AbsAlloc :=
  match next_fit a with
  | None => (None, a)
  | Some i => (Some i, mkAbs (<[i := Allocated]> (a_frames a)) (S i))
  end.

Definition abs_dealloc (i : nat) (a : AbsAlloc) : option AbsAlloc :=
  if decide (a_frames a !! i = Some Allocated)
  then Some (mkAbs (<[i := Free]> (a_frames a)) (Nat.min (a_next a) i))
  else None.

(** The concrete allocator implements the abstract one. *)
Definition refines (s : MState) (a : AbsAlloc) : Prop :=
  fa_inv s (a_frames a) ∧ next_search (ms_fa s) = Z.of_nat (a_next a).

Lemma next_fit_Free a i : next_fit a = Some i → a_frames a !! i = Some Free.
Proof.
  unfold next_fit. destruct (list_find _ (drop _ _)) as [[k st]|] eqn:E.
  - intros [= <-]. apply list_find_Some in E as (H & -> & _).
    by rewrite lookup_drop in H.
  - destruct (list_find _ (take _ _)) as [[k st]|] eqn:E'; [|done].
    intros [= <-]. apply list_find_Some in E' as (H & -> & _).
    by apply lookup_take_Some in H as [? _].
Qed.

Lemma next_fit_None a : next_fit a = None ↔ (Free ∉ a_frames a).
Proof.
  assert ((Free ∉ a_frames a) ↔
    (Free ∉ take (a_next a) (a_frames a)) ∧ (Free ∉ drop (a_next a) (a_frames a))) as ->
    by (by rewrite <- not_elem_of_app, take_drop).
  unfold next_fit. destruct (list_find _ (drop _ _)) as [[k st]|] eqn:E.
  - split; [done|]. intros [_ []]. apply list_find_Some in E as (H & -> & _).
    by eapply list_elem_of_lookup_2.
  - apply list_find_None in E. rewrite Forall_forall in E.
    destruct (list_find _ (take _ _)) as [[k st]|] eqn:E'; simpl.
    + split; [done|]. intros [[] _]. apply list_find_Some in E' as (H & -> & _).
      by eapply list_elem_of_lookup_2.
    + apply list_find_None in E'. rewrite Forall_forall in E'. naive_solver.
Qed.

(** Searching indices with [find] is searching the list with [list_find]. *)
Lemma find_range_list_find (l : list FrameState) (a b : nat) :
  (a ≤ b ≤ length l)%nat →
  List.find (λ i, bool_decide (l !! Z.to_nat i = Some Free)) (range (Z.of_nat a) (Z.of_nat b)) =
  (λ p : nat * FrameState, Z.of_nat (a + p.1)) <$>
    list_find (λ st, st = Free) (drop a (take b l)).
Proof.
  intros Hab. remember (b - a)%nat as n eqn:En. revert a b Hab En.
  induction n as [|n IH]; intros a b Hab En.
  - unfold range. replace (Z.of_nat b - Z.of_nat a) with 0 by lia.
    rewrite drop_ge; [done|]. rewrite length_take. lia.
  - unfold range. rewrite seqZ_cons by lia.
    destruct (lookup_lt_is_Some_2 l a) as [st Hst]; [lia|].
    rewrite (drop_S _ st a) by (rewrite lookup_take_lt by lia; done). simpl.
    rewrite Nat2Z.id, Hst.
    destruct (decide (st = Free)) as [->|Hne].
    + simpl. by rewrite Nat.add_0_r.
    + rewrite bool_decide_false by congruence.
      replace (Z.pred (Z.of_nat b - Z.of_nat a)) with (Z.of_nat b - Z.of_nat (S a)) by lia.
      rewrite <- Nat2Z.inj_succ.
      change (seqZ (Z.of_nat (S a)) (Z.of_nat b - Z.of_nat (S a)))
        with (range (Z.of_nat (S a)) (Z.of_nat b)).
      rewrite IH by lia. destruct (list_find _ _) as [[k x]|]; simpl; [|done].
      f_equal. lia.
Qed.

Section with_inv.
Context (s : MState) (l : list FrameState) (Hinv : fa_inv s l).

Lemma inv_length : Z.of_nat (length l) = frame_count (bitmap (ms_fa s)).
Proof. by destruct (inv_rep _ _ Hinv). Qed.

Lemma inv_index_bound i st : l !! i = Some st → Z.of_nat i < frame_count (bitmap (ms_fa s)).
Proof. intros H. apply lookup_lt_Some in H. pose proof inv_length. lia. Qed.

Lemma inv_frame_count_bound : frame_count (bitmap (ms_fa s)) * FRAME_SIZE ≤ W64.
Proof.
  pose proof (inv_cover _ _ Hinv). pose proof (inv_offset _ _ Hinv).
  unfold frame_virt in *. lia.
Qed.

Lemma inv_state i st : 
  0 ≤ i → l !! Z.to_nat i = Some st →
  ∀ S (t : S), Bitmap_state (bitmap (ms_fa s)) (ms_mem s) i t = Done (st, t).
Proof. intros. eapply Bitmap_state_rep; [apply Hinv|done|done]. Qed.

Lemma find_free_in_spec (a b : nat) :
  (a ≤ b ≤ length l)%nat →
  find_free_in (Z.of_nat a) (Z.of_nat b) s =
  Done ((λ p : nat * FrameState, Z.of_nat (a + p.1)) <$>
          list_find (λ st, st = Free) (drop a (take b l)), s).
Proof.
  intros Hab. unfold find_free_in. mred.
  rewrite (mfind_find _ (λ i, bool_decide (l !! Z.to_nat i = Some Free))).
  - by rewrite find_range_list_find.
  - intros i Hi. apply elem_of_range in Hi.
    destruct (lookup_lt_is_Some_2 l (Z.to_nat i)) as [st Hst]; [lia|].
    rewrite (bind_Done _ _ _ st s) by (apply inv_state; lia || done).
    unfold ret. do 2 f_equal. rewrite Hst. apply bool_decide_ext. naive_solver.
Qed.

Lemma find_free_frame_spec (n : nat) :
  next_search (ms_fa s) = Z.of_nat n →
  find_free_frame s = Done (Z.of_nat <$> next_fit (mkAbs l n), s).
Proof.
  intros Hn. pose proof inv_length as Hl. pose proof (inv_next _ _ Hinv) as Hb.
  unfold find_free_frame. mred. rewrite <- Hl, Hn.
  rewrite (bind_Done _ _ _ _ _ (find_free_in_spec n (length l) ltac:(lia))).
  rewrite (take_ge l (length l)) by lia. unfold next_fit; simpl.
  destruct (list_find _ (drop n l)) as [[k st]|]; simpl; [done|].
  pose proof (find_free_in_spec 0 n ltac:(lia)) as H.
  change (Z.of_nat 0) with 0 in H. rewrite H, drop_0. by destruct (list_find _ (take n l)).
Qed.
End with_inv.

(** ** One frame changes state *)

(** The allocator after frame [i] moved to state [new], as every operation leaves it. *)
Definition with_frame (s : MState) (i : Z) (new : FrameState) (next alloc free : Z) : MState :=
  set_mem (set_cell (bitmap (ms_fa s)) (ms_mem s) i new)
    (set_fa (mkFrameAllocator (bitmap (ms_fa s)) next alloc free (direct_map (ms_fa s))) s).

Lemma fa_inv_with_frame s l i old new next alloc free :
  fa_inv s l → l !! i = Some old → new ≠ Reserved →
  off_bitmap (bitmap (ms_fa s)) (direct_map (ms_fa s)) (Z.of_nat i) →
  0 ≤ next ≤ frame_count (bitmap (ms_fa s)) →
  free = free_frames (ms_fa s) - (if decide (old = Free) then 1 else 0)
           + (if decide (new = Free) then 1 else 0) →
  alloc = allocatable_frames (ms_fa s) + (if decide (old = Reserved) then 1 else 0) →
  fa_inv (with_frame s (Z.of_nat i) new next alloc free) (<[i := new]> l).
Proof.
  intros Hinv Hi Hnew Hoff Hnext -> ->. split; simpl; try apply Hinv; try done.
  - pose proof (set_cell_rep _ _ _ (Z.of_nat i) new (inv_rep _ _ Hinv) ltac:(lia)) as H.
    by rewrite Nat2Z.id in H.
  - rewrite (count_state_insert _ _ _ _ _ Hi). by rewrite (inv_free _ _ Hinv).
  - rewrite !(count_state_insert _ _ _ _ _ Hi), (inv_allocatable _ _ Hinv).
    destruct old, new; repeat case_decide; simplify_eq; lia.
  - intros j st Hj Hst.
    apply list_lookup_insert_Some in Hj as [(<- & _ & _)|[_ Hj]]; [done|].
    by eapply (inv_storage _ _ Hinv).
Qed.

Lemma with_frame_mem s i new next alloc free a :
  0 ≤ i < frame_count (bitmap (ms_fa s)) →
  (a < bm_start (bitmap (ms_fa s)) ∨
   bm_start (bitmap (ms_fa s)) + div_ceil (frame_count (bitmap (ms_fa s))) 4 ≤ a) →
  load8 (ms_mem (with_frame s i new next alloc free)) a = load8 (ms_mem s) a.
Proof.
  intros Hi Ha. apply set_cell_out. unfold div_ceil in Ha. dmlia.
Qed.

(** Zeroing a frame that does not overlap the bitmap keeps the invariant. *)
Lemma fa_inv_mem s l m' :
  fa_inv s l →
  (∀ a, bm_start (bitmap (ms_fa s)) ≤ a <
        bm_start (bitmap (ms_fa s)) + div_ceil (frame_count (bitmap (ms_fa s))) 4 →
        load8 m' a = load8 (ms_mem s) a) →
  fa_inv (set_mem m' s) l.
Proof.
  intros Hinv Hm. split; simpl; try apply Hinv.
  eapply bitmap_rep_frame; [apply Hinv|done].
Qed.

(** ** Specifications of the operations *)

Lemma alloc_nozero_spec s a :
  refines s a →
  ∃ s', FrameAllocator_alloc_nozero s =
          Done ((λ i, Z.of_nat i * FRAME_SIZE) <$> fst (abs_alloc a), s') ∧
        refines s' (snd (abs_alloc a)) ∧
        match fst (abs_alloc a) with
        | None => s' = s
        | Some i => s' = with_frame s (Z.of_nat i) Allocated (Z.of_nat i + 1)
            (allocatable_frames (ms_fa s)) (free_frames (ms_fa s) - 1)
        end.
Proof.
  destruct a as [l n]. intros [Hinv Hn]. simpl in Hinv, Hn.
  unfold FrameAllocator_alloc_nozero, abs_alloc. mred.
  destruct (Z.eqb_spec (free_frames (ms_fa s)) 0) as [E|E].
  { rewrite (inv_free _ _ Hinv), count_state_0 in E.
    rewrite (proj2 (next_fit_None (mkAbs l n)) E). by exists s. }
  rewrite (bind_Done _ _ _ _ _ (find_free_frame_spec s l Hinv n Hn)).
  destruct (next_fit (mkAbs l n)) as [i|] eqn:Ei; simpl.
  2:{ exists s. done. }
  pose proof (next_fit_Free _ _ Ei) as Hi. simpl in Hi.
  pose proof (inv_index_bound _ _ Hinv _ _ Hi) as Hlt.
  pose proof (inv_frame_count_bound _ _ Hinv) as Hfc. unfold FRAME_SIZE in *.
  mstep Bitmap_set_state_eq.
  pose proof (count_state_pos _ _ _ Hi) as Hpos. rewrite <- (inv_free _ _ Hinv) in Hpos.
  mstep usub_le.
  mred. unfold saturating_add.
  rewrite (proj2 (Z.ltb_lt _ _)) by (unfold W64 in *; lia).
  unfold FrameAddr_from_index.
  unfold FRAME_SIZE, W64 in *. mstep umul_lt.
  eexists. split; [reflexivity|]. split; [|done]. split; simpl; [|lia].
  apply (fa_inv_with_frame s l i Free Allocated); try done; simpl; try lia.
  by eapply (inv_storage _ _ Hinv).
Qed.

Lemma off_bitmap_zero b dm m i a :
  off_bitmap b dm i →
  bm_start b ≤ a < bm_start b + div_ceil (frame_count b) 4 →
  load8 (write_bytes m (i * FRAME_SIZE + offset dm) 0 FRAME_SIZE) a = load8 m a.
Proof.
  unfold off_bitmap, frame_virt. intros H Ha. apply load8_write_bytes_out. lia.
Qed.

(** Same allocator geometry, register state and flush log. *)
Definition same_layout (s s' : MState) : Prop :=
  bitmap (ms_fa s') = bitmap (ms_fa s) ∧ direct_map (ms_fa s') = direct_map (ms_fa s) ∧
  ms_cr3 s' = ms_cr3 s ∧ ms_flushed s' = ms_flushed s.

(** Address [a] is outside the bitmap's bytes. *)
Definition outside_bitmap (s : MState) (a : Z) : Prop :=
  a < bm_start (bitmap (ms_fa s)) ∨
  bm_start (bitmap (ms_fa s)) + div_ceil (frame_count (bitmap (ms_fa s))) 4 ≤ a.

(** Address [a] lies in frame [i] of the direct map. *)
Definition in_frame (dm : DirectMap) (i a : Z) : Prop :=
  frame_virt dm i ≤ a < frame_virt dm i + FRAME_SIZE.

Lemma alloc_spec s a :
  refines s a →
  ∃ s', FrameAllocator_alloc s =
          Done ((λ i, Z.of_nat i * FRAME_SIZE) <$> fst (abs_alloc a), s') ∧
        refines s' (snd (abs_alloc a)) ∧ same_layout s s' ∧
        match fst (abs_alloc a) with
        | None => s' = s
        | Some i =>
            (∀ x, in_frame (direct_map (ms_fa s)) (Z.of_nat i) x → load8 (ms_mem s') x = 0) ∧
            (∀ x, outside_bitmap s x → ¬ in_frame (direct_map (ms_fa s)) (Z.of_nat i) x →
               load8 (ms_mem s') x = load8 (ms_mem s) x)
        end.
Proof.
  intros Href. destruct (alloc_nozero_spec s a Href) as (s1 & E & Href1 & Hs1).
  unfold FrameAllocator_alloc. rewrite (bind_Done _ _ _ _ _ E).
  unfold abs_alloc in *. destruct (next_fit a) as [i|] eqn:Ei; simpl in *.
  2:{ subst s1. exists s. done. }
  destruct Href as [Hinv Hn]. pose proof (next_fit_Free _ _ Ei) as Hi.
  pose proof (inv_index_bound _ _ Hinv _ _ Hi) as Hlt.
  pose proof (inv_cover _ _ Hinv) as Hcov. unfold frame_virt in Hcov.
  subst s1. mred. simpl.
  rewrite translate_lt by (unfold FRAME_SIZE in *; lia). simpl.
  eexists. split; [reflexivity|]. split; [|split; [done|split]].
  - destruct Href1 as [Hinv1 Hn1]. split; [|done].
    apply fa_inv_mem; [done|]. simpl. intros x Hx.
    eapply off_bitmap_zero; [|done]. by eapply (inv_storage _ _ Hinv).
  - intros x Hx. simpl. unfold in_frame, frame_virt in Hx.
    by rewrite load8_write_bytes_in.
  - intros x Hout Hx. simpl. unfold in_frame, frame_virt in Hx.
    rewrite load8_write_bytes_out by lia.
    apply (with_frame_mem s (Z.of_nat i) Allocated 0 0 0); [lia|done].
Qed.

Lemma dealloc_spec s a i :
  refines s a → 0 ≤ i →
  match a_frames a !! Z.to_nat i with
  | Some Allocated =>
      ∃ a', abs_dealloc (Z.to_nat i) a = Some a' ∧
        FrameAllocator_dealloc (i * FRAME_SIZE) s =
          Done (tt, with_frame s i Free (Z.min (next_search (ms_fa s)) i)
                      (allocatable_frames (ms_fa s)) (free_frames (ms_fa s) + 1)) ∧
        refines (with_frame s i Free (Z.min (next_search (ms_fa s)) i)
                   (allocatable_frames (ms_fa s)) (free_frames (ms_fa s) + 1)) a'
  | Some Free => FrameAllocator_dealloc (i * FRAME_SIZE) s = Panic "attempted to free free frame"
  | Some Reserved =>
      FrameAllocator_dealloc (i * FRAME_SIZE) s = Panic "attempted to free reserved frame"
  | None => FrameAllocator_dealloc (i * FRAME_SIZE) s = Panic "frame index out of bounds"
  end.
Proof.
  intros [Hinv Hn] Hi. unfold FrameAllocator_dealloc, FrameAddr_index. mred.
  rewrite Z.div_mul by done. pose proof (inv_length _ _ Hinv) as Hlen.
  destruct (a_frames a !! Z.to_nat i) as [st|] eqn:Hst.
  2:{ apply bind_Panic, Bitmap_state_oob. apply lookup_ge_None in Hst. lia. }
  pose proof (inv_index_bound _ _ Hinv _ _ Hst) as Hlt.
  rewrite (bind_Done _ _ _ st s) by (by eapply inv_state).
  destruct st; [done|done|].
  rewrite Z2Nat.id in Hlt by done. mstep Bitmap_set_state_eq.
  pose proof (inv_frame_count_bound _ _ Hinv) as Hfc.
  pose proof (count_state_two (a_frames a)) as Hcnt.
  pose proof (count_state_range Free (a_frames a)) as Hr.
  pose proof (inv_free _ _ Hinv) as Hfree. unfold FRAME_SIZE in *.
  mstep uadd_lt. eexists. unfold abs_dealloc. rewrite decide_True by done.
  split; [reflexivity|]. split; [done|]. split; simpl; [|lia].
  pose proof (fa_inv_with_frame s (a_frames a) (Z.to_nat i) Allocated Free
    (Z.min (next_search (ms_fa s)) i) (allocatable_frames (ms_fa s))
    (free_frames (ms_fa s) + 1) Hinv Hst) as H.
  rewrite Z2Nat.id in H by done. pose proof (inv_next _ _ Hinv).
  apply H; [done| |lia|simpl; lia|simpl; lia].
  pose proof (inv_storage _ _ Hinv _ _ Hst ltac:(done)) as Hs.
  by rewrite Z2Nat.id in Hs by done.
Qed.

(** ** Construction at boot *)

Definition region_wf (r : MemoryRegion) : Prop :=
  is_u64 (region_start r) ∧ is_u64 (region_length r).

(** The frames of a usable region, and of the whole memory map. *)
Definition frames_of (r : MemoryRegion) : list Z :=
  if is_initially_free (region_kind r) then
    match usable_frame_range r with Ok (a, b) => range a b | Err _ => [] end
  else [].

Definition usable_frames (regions : list MemoryRegion) : list Z := regions ≫= frames_of.

(** The states [new] records: [marked n lo hi done] has the frames of [done] outside
    [[lo, hi)] free and all others reserved. *)
Definition marked (n : Z) (lo hi : Z) (done : list Z) : list FrameState :=
  (λ i, if decide (i ∈ done ∧ ¬ (lo ≤ i < hi)) then Free else Reserved) <$> seqZ 0 n.

Lemma align_down_spec a : is_u64 a → align_down_to_frame a = a - a mod 4096.
Proof. intros. by apply (land_not64_mask a 12). Qed.

Lemma align_up_spec a :
  is_u64 a →
  align_up_to_frame a =
    if a + 4095 <? W64 then Some (a + 4095 - (a + 4095) mod 4096) else None.
Proof.
  intros Ha. unfold align_up_to_frame, checked_add. change (FRAME_SIZE - 1) with 4095.
  destruct (Z.ltb_spec (a + 4095) W64); [|done]. simpl. f_equal.
  apply (land_not64_mask (a + 4095) 12); unfold is_u64 in *; lia.
Qed.

Lemma usable_frame_range_Ok r a b :
  region_wf r → usable_frame_range r = Ok (a, b) →
  a = (region_start r + 4095) / 4096 ∧ b = (region_start r + region_length r) / 4096 ∧
  0 ≤ a ∧ 0 ≤ b ∧ b * 4096 < W64.
Proof.
  intros [Hs Hlen]. unfold usable_frame_range.
  destruct (checked_add (region_start r) (region_length r)) as [e|] eqn:E; [|done].
  apply checked_add_Some in E as [-> He]. simpl.
  rewrite align_up_spec, align_down_spec by ulia.
  case_bool; [|done]. simpl. unfold FRAME_SIZE.
  intros [= <- <-]. ulia || (unfold is_u64, W64 in *; split_and!; dmlia).
Qed.

Lemma new_highest_frame_spec regions h0 h :
  Forall region_wf regions → new_highest_frame regions h0 = Ok (Some h) →
  (∀ h1, h0 = Some h1 → 0 ≤ h1 ∧ h1 * 4096 < W64) →
  (∀ h1, h0 = Some h1 → h1 ≤ h) ∧
  (∀ r, r ∈ regions → should_track (region_kind r) = true →
     ∃ a b, usable_frame_range r = Ok (a, b) ∧ (a < b → b ≤ h)) ∧
  0 ≤ h ∧ h * 4096 < W64.
Proof.
  revert h0. induction regions as [|r regions IH]; intros h0 Hwf; simpl.
  { intros [= ->] Hh. split_and!; [naive_solver lia|by intros r ?%not_elem_of_nil|..];
      by apply Hh. }
  apply Forall_cons in Hwf as [Hr Hwf].
  destruct (should_track (region_kind r)) eqn:Et; simpl.
  2:{ intros H Hh. destruct (IH _ Hwf H Hh) as (H1 & H2 & H3). split_and!; [done| |lia..].
      intros r' [->|Hin]%elem_of_cons ?; [congruence|by apply H2]. }
  destruct (usable_frame_range r) as [[a b]|] eqn:Er; [|done]. simpl.
  pose proof (usable_frame_range_Ok _ _ _ Hr Er) as (_ & _ & _ & Hb0 & Hb1).
  unfold range_is_empty. simpl. destruct (Z.ltb_spec a b); simpl; intros H0 Hh.
  - destruct (IH _ Hwf H0) as (H1 & H2 & H3).
    { intros h1 [= <-]. destruct h0 as [h0|]; [|done]. specialize (Hh _ eq_refl). lia. }
    specialize (H1 _ eq_refl). split_and!; [|..|lia|lia].
    + intros h1 ->. lia.
    + intros r' [->|Hin]%elem_of_cons ?; [|by apply H2].
      exists a, b. split; [done|]. destruct h0; lia.
  - destruct (IH _ Hwf H0 Hh) as (H1 & H2 & H3). split_and!; [done| |lia..].
    intros r' [->|Hin]%elem_of_cons ?; [|by apply H2]. exists a, b. split; [done|lia].
Qed.

(** The highest frame ends a tracked region. *)
Lemma new_highest_frame_max regions h0 h :
  new_highest_frame regions h0 = Ok (Some h) →
  h0 = Some h ∨ ∃ r a, r ∈ regions ∧ should_track (region_kind r) = true ∧ usable_frame_range r = Ok (a, h).
Proof.
  revert h0. induction regions as [|r regions IH]; intros h0; simpl; [by intros [= ->]; left|].
  assert (Hc : ∀ h1, (h1 = Some h ∨ ∃ r' a, r' ∈ regions ∧ should_track (region_kind r') = true ∧ usable_frame_range r' = Ok (a, h)) →
    h1 = Some h ∨ ∃ r' a, r' ∈ r :: regions ∧ should_track (region_kind r') = true ∧ usable_frame_range r' = Ok (a, h)).
  { intros h1 [?|(r' & a & ? & ?)]; [by left|right]. exists r', a. split; [by right|done]. }
  destruct (should_track (region_kind r)) eqn:Et; simpl; [|intros H; by apply Hc, IH].
  destruct (usable_frame_range r) as [[a b]|] eqn:Er; [|done]. simpl. destruct (range_is_empty (a, b)); intros H; [by apply Hc, IH|].
  destruct (Hc _ (IH _ H)) as [Hb|?]; [|by right]. injection Hb as Hb.
  assert (Hd : b = h ∨ h0 = Some h).
  { destruct h0 as [h0|]; [|by left]. destruct (Z.max_spec h0 b) as [[_ E]|[_ E]]; rewrite E in Hb; subst; [by left|by right]. }
  destruct Hd as [->|?]; [right|by left]. exists r, a. split; [left|done].
Qed.

Lemma new_bitmap_start_spec regions n st :
  new_bitmap_start regions n = Ok (Some st) →
  ∃ r b, r ∈ regions ∧ region_kind r = Usable ∧ usable_frame_range r = Ok (st, b) ∧
         st < b ∧ st + n ≤ b.
Proof.
  induction regions as [|r regions IH]; simpl; [done|].
  assert (new_bitmap_start regions n = Ok (Some st) →
    ∃ r' b, r' ∈ r :: regions ∧ region_kind r' = Usable ∧ usable_frame_range r' = Ok (st, b) ∧
         st < b ∧ st + n ≤ b) as IH'.
  { intros H. destruct (IH H) as (r' & b & ? & ?). exists r', b. split; [by right|done]. }
  destruct (can_store_bitmap (region_kind r)) eqn:Ek; simpl; [|done].
  apply bool_decide_eq_true in Ek.
  destruct (usable_frame_range r) as [[a b]|] eqn:Er; [|done]. simpl.
  unfold range_is_empty, range_len. simpl. destruct (Z.ltb_spec a b); simpl; [|done].
  destruct (Z.ltb_spec (b - a) n); [done|]. intros [= <-].
  exists r, b. split_and!; [by left|done..|lia].
Qed.

Section marking.
Context (b : Bitmap) (lo hi : Z).
Hypothesis Hfc : 0 ≤ frame_count b ∧ frame_count b * 4096 < W64.

Lemma lookup_marked n ds i st :
  marked n lo hi ds !! i = Some st ↔
  Z.of_nat i < n ∧
  st = if decide (Z.of_nat i ∈ ds ∧ ¬ (lo ≤ Z.of_nat i < hi)) then Free else Reserved.
Proof.
  unfold marked. rewrite list_lookup_fmap, fmap_Some. setoid_rewrite lookup_seqZ.
  split; [intros (x & [-> ?] & ->)|intros [? ->]; eexists]; rewrite Z.add_0_l; done.
Qed.

Lemma length_marked n ds : 0 ≤ n → Z.of_nat (length (marked n lo hi ds)) = n.
Proof. intros. unfold marked. rewrite length_fmap, length_seqZ. lia. Qed.

Lemma marked_snoc_in n ds i :
  lo ≤ i < hi → marked n lo hi (ds ++ [i]) = marked n lo hi ds.
Proof.
  intros. unfold marked. apply list_fmap_ext. intros k x _.
  destruct (decide (x = i)) as [->|]; repeat case_decide; try done; set_solver.
Qed.

Lemma marked_snoc_out n ds i :
  ¬ (lo ≤ i < hi) → 0 ≤ i → marked n lo hi (ds ++ [i]) = <[Z.to_nat i := Free]> (marked n lo hi ds).
Proof.
  intros Hi H0. apply list_eq. intros k. apply option_eq. intros st.
  rewrite list_lookup_insert_Some, !lookup_marked.
  destruct (decide (Z.to_nat i = k)) as [<-|Hne].
  - rewrite Z2Nat.id by done. rewrite decide_True by set_solver.
    unfold marked. rewrite length_fmap, length_seqZ.
    split; [intros [? ->]; left; split_and!; [done..|lia]|].
    intros [(_ & <- & ?)|[? _]]; [split; [lia|done]|done].
  - rewrite (decide_ext (Z.of_nat k ∈ ds ++ [i] ∧ ¬ lo ≤ Z.of_nat k < hi)
               (Z.of_nat k ∈ ds ∧ ¬ lo ≤ Z.of_nat k < hi)).
    + split; [intros [? ->]; by right|by intros [[? _]|(_ & ? & ->)]].
    + rewrite elem_of_app, list_elem_of_singleton.
      split; [intros [[?|?] ?]; [done|lia]|tauto].
Qed.

(** The state of the third loop after the frames [ds]. *)
Definition marking (ds : list Z) (st : memory * Z * Z) : Prop :=
  bitmap_rep b st.1.1 (marked (frame_count b) lo hi ds) ∧
  st.1.2 = count_state Free (marked (frame_count b) lo hi ds) ∧
  st.2 = count_state Free (marked (frame_count b) lo hi ds).

Lemma new_free_frame_spec ds i st :
  marking ds st → 0 ≤ i < frame_count b → i ∉ ds →
  ∃ st', new_free_frame b lo hi i st = Done (tt, st') ∧ marking (ds ++ [i]) st' ∧
    ∀ a, a < bm_start b ∨ bm_start b + div_ceil (frame_count b) 4 ≤ a →
      load8 st'.1.1 a = load8 st.1.1 a.
Proof.
  destruct st as [[m al] fr]. intros (Hrep & Hal & Hfr) Hi Hni. simpl in *.
  unfold new_free_frame.
  destruct (decide (lo ≤ i < hi)) as [Hs|Hs].
  { rewrite (proj2 (Z.leb_le lo i)), (proj2 (Z.ltb_lt i hi)) by lia.
    exists (m, al, fr). split; [done|]. unfold marking. by rewrite marked_snoc_in by lia. }
  replace ((lo <=? i) && (i <? hi)) with false
    by (destruct (Z.leb_spec lo i), (Z.ltb_spec i hi); simpl; done || lia).
  pose proof (count_state_range Free (marked (frame_count b) lo hi ds)) as Hr.
  rewrite length_marked in Hr by lia.
  assert (marked (frame_count b) lo hi ds !! Z.to_nat i = Some Reserved) as Hl.
  { apply lookup_marked. rewrite Z2Nat.id by lia. rewrite decide_False by tauto.
    split; [lia|done]. }
  mred. mstep Bitmap_set_state_eq. mstep uadd_lt. mstep uadd_lt.
  eexists. split; [reflexivity|]. split.
  - unfold marking; simpl. rewrite marked_snoc_out by lia.
    rewrite (count_state_insert _ _ _ _ _ Hl); simpl.
    split; [apply set_cell_rep; [done|lia]|lia].
  - simpl. intros a Ha. apply set_cell_out. unfold div_ceil in Ha. dmlia.
Qed.

Lemma new_free_frames_spec fs ds st :
  marking ds st → NoDup (ds ++ fs) → (∀ i, i ∈ fs → 0 ≤ i < frame_count b) →
  ∃ st', mfor fs (new_free_frame b lo hi) st = Done (tt, st') ∧ marking (ds ++ fs) st' ∧
    ∀ a, a < bm_start b ∨ bm_start b + div_ceil (frame_count b) 4 ≤ a →
      load8 st'.1.1 a = load8 st.1.1 a.
Proof.
  revert ds st. induction fs as [|i fs IH]; intros ds st Hm Hnd Hin; simpl.
  { exists st. by rewrite app_nil_r. }
  assert (i ∉ ds) as Hni.
  { apply NoDup_app in Hnd as (_ & H & _). intros Hds. by eapply (H i); [|left]. }
  destruct (new_free_frame_spec ds i st Hm (Hin i ltac:(left)) Hni) as (st1 & E & Hm1 & Ho1).
  rewrite (bind_Done _ _ _ _ _ E).
  destruct (IH (ds ++ [i]) st1) as (st2 & E2 & Hm2 & Ho2);
    [done|by rewrite <- app_assoc|intros j Hj; apply Hin; by right|].
  exists st2. rewrite <- app_assoc in Hm2. split_and!; [done..|].
  intros a Ha. by rewrite Ho2, Ho1.
Qed.

Lemma new_free_region_spec r ds st :
  marking ds st → NoDup (ds ++ frames_of r) →
  (is_initially_free (region_kind r) = true →
     ∃ x y, usable_frame_range r = Ok (x, y) ∧ 0 ≤ x ∧ (x < y → y ≤ frame_count b)) →
  ∃ st', new_free_region b lo hi r st = Done (Ok tt, st') ∧ marking (ds ++ frames_of r) st' ∧
    ∀ a, a < bm_start b ∨ bm_start b + div_ceil (frame_count b) 4 ≤ a →
      load8 st'.1.1 a = load8 st.1.1 a.
Proof.
  intros Hm Hnd Hr. unfold new_free_region, frames_of in *.
  destruct (is_initially_free (region_kind r)) eqn:Ek; simpl.
  2:{ exists st. by rewrite app_nil_r. }
  destruct (Hr eq_refl) as (x & y & Er & Hx & Hy). rewrite Er in *. mred. simpl.
  destruct (new_free_frames_spec (range x y) ds st Hm Hnd) as (st1 & E & Hm1 & Ho1).
  { intros i Hi%elem_of_range. lia. }
  exists st1. by rewrite (bind_Done _ _ _ _ _ E).
Qed.

Lemma new_free_regions_spec regions ds st :
  marking ds st → NoDup (ds ++ usable_frames regions) →
  (∀ r, r ∈ regions → is_initially_free (region_kind r) = true →
     ∃ x y, usable_frame_range r = Ok (x, y) ∧ 0 ≤ x ∧ (x < y → y ≤ frame_count b)) →
  ∃ st', mfor_ok regions (new_free_region b lo hi) st = Done (Ok tt, st') ∧
    marking (ds ++ usable_frames regions) st' ∧
    ∀ a, a < bm_start b ∨ bm_start b + div_ceil (frame_count b) 4 ≤ a →
      load8 st'.1.1 a = load8 st.1.1 a.
Proof.
  revert ds st. induction regions as [|r regions IH]; intros ds st Hm Hnd Hr; simpl.
  { exists st. by rewrite app_nil_r. }
  change (usable_frames (r :: regions)) with (frames_of r ++ usable_frames regions) in *.
  rewrite app_assoc in Hnd |- *.
  destruct (new_free_region_spec r ds st) as (st1 & E & Hm1 & Ho1);
    [done|by apply NoDup_app in Hnd as [? _]|apply Hr; left|].
  rewrite (bind_ok_Ok _ _ _ _ _ E).
  destruct (IH _ st1 Hm1 Hnd) as (st2 & E2 & Hm2 & Ho2); [intros r' ?; apply Hr; by right|].
  exists st2. split_and!; [done..|]. intros a Ha. by rewrite Ho2, Ho1.
Qed.
End marking.

Lemma zeroed_rep b m n :
  0 ≤ frame_count b → div_ceil (frame_count b) 4 ≤ n → ∀ lo hi,
  bitmap_rep b (write_bytes m (bm_start b) 0 n) (marked (frame_count b) lo hi []).
Proof.
  intros H0 Hn lo hi. split; [by apply length_marked|].
  intros i st [Hi ->]%lookup_marked.
  rewrite decide_False by (intros [?%not_elem_of_nil _]; done).
  unfold cell. rewrite load8_write_bytes_in by (unfold div_ceil in Hn; dmlia).
  change (0 mod 256) with 0. by rewrite Z.shiftr_0_l.
Qed.

Lemma count_marked_nil st n lo hi : st ≠ Reserved → count_state st (marked n lo hi []) = 0.
Proof.
  intros Hst. apply count_state_0. intros Hin. apply list_elem_of_lookup in Hin as [i Hi].
  apply lookup_marked in Hi as [_ ->].
  by rewrite decide_False in Hst by (intros [?%not_elem_of_nil _]; done).
Qed.

Lemma count_marked_Allocated n lo hi ds : count_state Allocated (marked n lo hi ds) = 0.
Proof.
  apply count_state_0. intros Hin. apply list_elem_of_lookup in Hin as [i Hi].
  apply lookup_marked in Hi as [_ Hi]. by case_decide.
Qed.

(** Number of frames the bitmap of [h] frames occupies. *)
Definition bitmap_frames (h : Z) : Z := div_ceil (div_ceil h 4) FRAME_SIZE.

Lemma bitmap_frames_bounds h :
  0 ≤ h → h * 4096 < W64 →
  div_ceil h 4 ≤ bitmap_frames h * 4096 ∧ bitmap_frames h * 4096 < W64 ∧ 0 ≤ bitmap_frames h.
Proof. unfold bitmap_frames, div_ceil, FRAME_SIZE, W64. intros. split_and!; dmlia. Qed.

(** What [new] does once the sizes and the place of the bitmap are known. *)
Lemma new_spec_ok regions dm m h lo :
  Forall region_wf regions → NoDup (usable_frames regions) →
  new_highest_frame regions None = Ok (Some h) →
  new_bitmap_start regions (bitmap_frames h) = Ok (Some lo) →
  lo * FRAME_SIZE + offset dm < W64 →
  ∃ m' n, FrameAllocator_new regions dm m =
      Done (Ok (mkFrameAllocator (mkBitmap (lo * FRAME_SIZE + offset dm) h)
                  (lo + bitmap_frames h) n n dm), m') ∧
    marking (mkBitmap (lo * FRAME_SIZE + offset dm) h) lo (lo + bitmap_frames h)
      (usable_frames regions) (m', n, n) ∧
    0 ≤ h ∧ 0 ≤ lo ∧ 0 ≤ bitmap_frames h ∧ lo + bitmap_frames h ≤ h.
Proof.
  intros Hwf Hnd Hh Hlo Htr.
  destruct (new_highest_frame_spec _ _ _ Hwf Hh ltac:(done)) as (_ & Htrack & Hh0 & Hh1).
  destruct (new_bitmap_start_spec _ _ _ Hlo) as (r & y & Hr & Hk & Er & Hlt & Hfit).
  rewrite Forall_forall in Hwf.
  pose proof (usable_frame_range_Ok _ _ _ (Hwf r Hr) Er) as (_ & _ & Hlo0 & _ & Hy).
  destruct (Htrack r Hr ltac:(by rewrite Hk)) as (x' & y' & Er' & Hle).
  rewrite Er in Er'. injection Er' as <- <-. specialize (Hle Hlt).
  destruct (bitmap_frames_bounds h Hh0 Hh1) as (Hb1 & Hb2 & Hb3).
  set (b := mkBitmap (lo * FRAME_SIZE + offset dm) h) in *.
  unfold FrameAllocator_new. rewrite Hh. mred. cbn [ok_or].
  fold (bitmap_frames h). mred. rewrite checked_mul_lt by done. cbn [ok_or]. mred.
  rewrite Hlo. mred. cbn [ok_or]. mred. unfold FRAME_SIZE in *.
  mstep umul_lt. rewrite translate_lt by done. cbn [ok_or]. mred.
  rewrite checked_add_lt by ulia. cbn [ok_or]. mred.
  destruct (new_free_regions_spec b lo (lo + bitmap_frames h) ltac:(done) regions []
    (write_bytes m (bm_start b) 0 (bitmap_frames h * 4096), 0, 0)) as (st & E & Hm & _).
  - split; [by apply zeroed_rep|]. simpl. by rewrite count_marked_nil.
  - done.
  - intros r' Hr' Hf. apply bool_decide_eq_true in Hf.
    destruct (Htrack r' Hr' ltac:(by rewrite Hf)) as (x' & y' & Er' & ?).
    pose proof (usable_frame_range_Ok _ _ _ (Hwf r' Hr') Er'). exists x', y'. tauto.
  - subst b. unfold FRAME_SIZE in *. simpl in E. rewrite E. destruct st as [[m' n1] n2].
    assert (n1 = n2) as -> by (destruct Hm as (_ & E1 & E2); simpl in E1, E2; congruence).
    exists m', n2. mstep uadd_lt. split_and!; try done; try lia.
Qed.

(** ** Reclaiming boot memory *)

Definition abs_reclaim (a : AbsAlloc) (i : Z) : AbsAlloc :=
  if decide (a_frames a !! Z.to_nat i = Some Reserved)
  then mkAbs (<[Z.to_nat i := Free]> (a_frames a)) (Nat.min (a_next a) (Z.to_nat i))
  else a.

Definition frames_of_kind (k : MemoryRegionKind) (r : MemoryRegion) : list Z :=
  if decide (region_kind r = k) then
    match usable_frame_range r with Ok (a, b) => range a b | Err _ => [] end
  else [].

(** The same geometry and the same memory around the bitmap. *)
Definition same_rest (s s' : MState) : Prop :=
  same_layout s s' ∧ ∀ x, outside_bitmap s x → load8 (ms_mem s') x = load8 (ms_mem s) x.

#[export] Instance same_rest_preorder : PreOrder same_rest.
Proof.
  split; [by intros s|]. intros s1 s2 s3 [(E1 & E2 & E3 & E4) Hm] [(F1 & F2 & F3 & F4) Hn].
  split; [split_and!; congruence|]. intros x Hx. rewrite Hn; [by apply Hm|]. unfold outside_bitmap in *. by rewrite E1.
Qed.

Lemma reclaim_frame_spec s a i :
  refines s a → 0 ≤ i < frame_count (bitmap (ms_fa s)) →
  off_bitmap (bitmap (ms_fa s)) (direct_map (ms_fa s)) i →
  ∃ s', reclaim_frame i s = Done (tt, s') ∧ refines s' (abs_reclaim a i) ∧ same_rest s s'.
Proof.
  intros [Hinv Hn] Hi Hoff. unfold reclaim_frame, abs_reclaim. mred.
  pose proof (inv_length _ _ Hinv) as Hlen.
  destruct (lookup_lt_is_Some_2 (a_frames a) (Z.to_nat i)) as [st Hst]; [lia|].
  rewrite (bind_Done _ _ _ st s) by (by eapply inv_state; [|lia|]).
  destruct (decide (st = Reserved)) as [->|Hne].
  2:{ rewrite bool_decide_false, decide_False by congruence. by exists s. }
  rewrite bool_decide_true, (decide_True (P:=a_frames a !! _ = _)) by done. simpl.
  mstep Bitmap_set_state_eq.
  pose proof (inv_frame_count_bound _ _ Hinv) as Hfc. unfold FRAME_SIZE in *.
  pose proof (count_state_two (a_frames a)) as Hcnt.
  pose proof (count_state_range Allocated (a_frames a)).
  pose proof (inv_free _ _ Hinv). pose proof (inv_allocatable _ _ Hinv).
  pose proof (inv_next _ _ Hinv). mstep uadd_lt. mstep uadd_lt.
  eexists. split; [reflexivity|].
  split; [|split; [done|]; intros x Hx; by apply (with_frame_mem s i Free 0 0 0)]. split; simpl; [|lia].
  pose proof (fa_inv_with_frame s (a_frames a) (Z.to_nat i) Reserved Free
    (Z.min (next_search (ms_fa s)) i) (allocatable_frames (ms_fa s) + 1)
    (free_frames (ms_fa s) + 1) Hinv Hst ltac:(done)) as H'.
  rewrite Z2Nat.id in H' by lia. apply H'; [done|lia|simpl; lia|simpl; lia].
Qed.

Lemma reclaim_frames_spec fs s a :
  refines s a →
  (∀ i, i ∈ fs → 0 ≤ i < frame_count (bitmap (ms_fa s)) ∧
     off_bitmap (bitmap (ms_fa s)) (direct_map (ms_fa s)) i) →
  ∃ s', mfor fs reclaim_frame s = Done (tt, s') ∧ refines s' (foldl abs_reclaim a fs) ∧
        same_rest s s'.
Proof.
  revert s a. induction fs as [|i fs IH]; intros s a Href Hfs; simpl; [by exists s|].
  destruct (Hfs i ltac:(left)) as [Hi Hoff].
  destruct (reclaim_frame_spec s a i Href Hi Hoff) as (s1 & E & Href1 & Hl1).
  rewrite (bind_Done _ _ _ _ _ E).
  destruct (IH s1 _ Href1) as (s2 & E2 & Href2 & Hl2).
  { destruct Hl1 as [(-> & -> & _) _]. intros j Hj. apply Hfs. by right. }
  exists s2. split_and!; [done..|by etrans].
Qed.

Lemma reclaim_regions_spec k regions s a :
  refines s a →
  (∀ r, r ∈ regions → region_kind r = k → ∃ p, usable_frame_range r = Ok p) →
  (∀ i, i ∈ regions ≫= frames_of_kind k → 0 ≤ i < frame_count (bitmap (ms_fa s)) ∧
     off_bitmap (bitmap (ms_fa s)) (direct_map (ms_fa s)) i) →
  ∃ s', mfor regions (reclaim_region k) s = Done (tt, s') ∧
        refines s' (foldl abs_reclaim a (regions ≫= frames_of_kind k)) ∧ same_rest s s'.
Proof.
  revert s a. induction regions as [|r regions IH]; intros s a Href Hok Hfs; simpl;
    [by exists s|].
  rewrite foldl_app.
  assert (∃ s1, reclaim_region k r s = Done (tt, s1) ∧
    refines s1 (foldl abs_reclaim a (frames_of_kind k r)) ∧ same_rest s s1)
    as (s1 & E & Href1 & Hl1).
  { unfold reclaim_region. csimpl in Hfs.
    destruct (decide (region_kind r = k)) as [Hk|Hk].
    - rewrite bool_decide_true by done. destruct (Hok r ltac:(left) Hk) as [[x y] Er].
      assert (frames_of_kind k r = range x y) as Hf
        by (unfold frames_of_kind; by rewrite decide_True, Er).
      rewrite Er, Hf. apply reclaim_frames_spec; [done|].
      intros i Hi. apply Hfs. rewrite elem_of_app, Hf. by left.
    - rewrite bool_decide_false by done. unfold frames_of_kind.
      rewrite decide_False by done. by exists s. }
  rewrite (bind_Done _ _ _ _ _ E). clear E.
  destruct (IH s1 _ Href1) as (s2 & E2 & Href2 & Hl2).
  { intros r' ?. apply Hok. by right. }
  { destruct Hl1 as [(-> & -> & _) _]. intros j Hj. apply Hfs. csimpl. rewrite elem_of_app. by right. }
  exists s2. split_and!; [done..|by etrans].
Qed.

Lemma lookup_abs_reclaim a j i :
  0 ≤ j →
  a_frames (abs_reclaim a j) !! i =
  match a_frames a !! i with
  | Some Reserved => Some (if decide (Z.of_nat i = j) then Free else Reserved)
  | o => o
  end.
Proof.
  intros Hj. unfold abs_reclaim.
  destruct (decide (a_frames a !! Z.to_nat j = Some Reserved)) as [Hd|Hd]; simpl.
  - destruct (decide (Z.of_nat i = j)) as [<-|Hne].
    + rewrite Nat2Z.id in *. rewrite Hd. apply list_lookup_insert_eq.
      by apply lookup_lt_Some in Hd.
    + rewrite list_lookup_insert_ne by lia. by destruct (a_frames a !! i) as [[]|].
  - destruct (decide (Z.of_nat i = j)) as [<-|Hne].
    + rewrite Nat2Z.id in Hd. by destruct (a_frames a !! i) as [[]|].
    + by destruct (a_frames a !! i) as [[]|].
Qed.

(** Folding [abs_reclaim] frees exactly the reserved frames of the list. *)
Lemma foldl_abs_reclaim fs a i :
  (∀ j, j ∈ fs → 0 ≤ j) →
  a_frames (foldl abs_reclaim a fs) !! i =
  match a_frames a !! i with
  | Some Reserved => Some (if decide (Z.of_nat i ∈ fs) then Free else Reserved)
  | o => o
  end.
Proof.
  revert a. induction fs as [|j fs IH]; intros a Hfs; simpl.
  { by destruct (a_frames a !! i) as [[]|]. }
  rewrite IH by (intros; apply Hfs; by right).
  rewrite lookup_abs_reclaim by (apply Hfs; left).
  destruct (a_frames a !! i) as [[]|]; try done.
  destruct (decide (Z.of_nat i = j)) as [<-|Hne].
  - by rewrite (decide_True (P:=Z.of_nat i ∈ _)) by left.
  - f_equal. apply decide_ext. rewrite elem_of_cons. naive_solver.
Qed.

(** The finished allocator satisfies the invariant, given that the direct map
    reaches every tracked frame. *)
Lemma new_fa_inv regions dm m' h lo n cr3 fl :
  marking (mkBitmap (lo * FRAME_SIZE + offset dm) h) lo (lo + bitmap_frames h)
    (usable_frames regions) (m', n, n) →
  0 ≤ h → h * 4096 < W64 → 0 ≤ lo → lo + bitmap_frames h ≤ h → 0 ≤ offset dm →
  frame_virt dm h ≤ W64 →
  refines (mkMState m' (mkFrameAllocator (mkBitmap (lo * FRAME_SIZE + offset dm) h)
                          (lo + bitmap_frames h) n n dm) cr3 fl)
    (mkAbs (marked h lo (lo + bitmap_frames h) (usable_frames regions))
       (Z.to_nat (lo + bitmap_frames h))).
Proof.
  intros (Hrep & Hn & _) H0 Hh Hlo Hfit Hoff Hcov. simpl in *.
  destruct (bitmap_frames_bounds h H0 Hh) as (Hb1 & Hb2 & Hb3).
  split; [|simpl; lia]. split; simpl; try done; try lia.
  - by rewrite count_marked_Allocated, Z.add_0_r.
  - intros i st [Hi ->]%lookup_marked Hst.
    case_decide as Hd; [|done]. destruct Hd as [_ Hd].
    unfold off_bitmap, frame_virt, FRAME_SIZE in *; simpl. lia.
Qed.

Lemma translate_ok_or_inv dm p (e : FrameAllocatorInitError) v :
  ok_or (DirectMap_translate dm p) e = Ok v → v = p + offset dm ∧ p + offset dm < W64.
Proof.
  destruct (DirectMap_translate dm p) eqn:E; [|done]. intros [= <-]. by apply translate_Some.
Qed.

(** [new] never panics: it either fails without touching memory or reaches the
    situation of [new_spec_ok]. *)
Lemma new_cases regions dm m :
  Forall region_wf regions → NoDup (usable_frames regions) →
  (∃ e, FrameAllocator_new regions dm m = Done (Err e, m)) ∨
  ∃ h lo, new_highest_frame regions None = Ok (Some h) ∧
    new_bitmap_start regions (bitmap_frames h) = Ok (Some lo) ∧
    lo * FRAME_SIZE + offset dm < W64 ∧ h * 4096 < W64.
Proof.
  intros Hwf Hnd.
  unfold FrameAllocator_new.
  destruct (new_highest_frame regions None) as [[h|]|e] eqn:Hh; mred; cbn [ok_or]; mred;
    [|left; eexists; reflexivity..].
  destruct (new_highest_frame_spec _ _ _ Hwf Hh ltac:(done)) as (_ & Htrack & Hh0 & Hh1).
  destruct (bitmap_frames_bounds h Hh0 Hh1) as (Hb1 & Hb2 & Hb3).
  fold (bitmap_frames h). rewrite checked_mul_lt by done. cbn [ok_or]. mred.
  destruct (new_bitmap_start regions (bitmap_frames h)) as [[lo|]|e] eqn:Hlo; mred;
    cbn [ok_or]; mred; [|left; eexists; reflexivity..].
  destruct (new_bitmap_start_spec _ _ _ Hlo) as (r & y & Hr & Hk & Er & Hlt & Hfit).
  rewrite Forall_forall in Hwf.
  pose proof (usable_frame_range_Ok _ _ _ (Hwf r Hr) Er) as (_ & _ & Hlo0 & _ & Hy).
  unfold FRAME_SIZE in *. mstep umul_lt.
  destruct (DirectMap_translate dm (lo * 4096)) as [v|] eqn:Hv; cbn [ok_or]; mred.
  - apply translate_Some in Hv as [-> ?]. right. by exists h, lo.
  - left. eexists. reflexivity.
Qed.

(** * Properties *)

(** Setting the state of a frame is read back for that frame and for no other: the
    two-bit packing of [Bitmap::set_state] and [Bitmap::state] is lossless, on every
    bitmap and memory. *)
Theorem bitmap_get_set (b : Bitmap) (m : memory) (i j : Z) (st : FrameState) :
  i < frame_count b →
  ∃ m', Bitmap_set_state b m i st tt = Done (m', tt) ∧
    Bitmap_state b m' j tt = if i =? j then Done (st, tt) else Bitmap_state b m j tt.
Proof.
  intros Hi. exists (set_cell b m i st). split; [by apply Bitmap_set_state_eq|].
  pose proof (cell_set_cell b m i j st) as Hc. unfold cell in Hc. unfold Bitmap_state.
  rewrite Hc. destruct (Z.eqb_spec i j) as [<-|]; [|done].
  unfold massert. rewrite (proj2 (Z.ltb_lt i (frame_count b))) by lia. by destruct st.
Qed.

Lemma bitmap_get_set_witness :
  ∃ m', Bitmap_set_state (mkBitmap 100 9) (λ _, 0) 5 Allocated tt = Done (m', tt) ∧
    Bitmap_state (mkBitmap 100 9) m' 5 tt = Done (Allocated, tt).
Proof. apply (bitmap_get_set (mkBitmap 100 9) (λ _, 0) 5 5 Allocated); simpl; lia. Defined.

(** [FrameAllocator::new] is total on well-formed, non-overlapping memory maps: it
    reports an error and leaves memory alone, or it returns an allocator that
    satisfies the invariant, in which exactly the frames of usable regions outside
    the bitmap's own frames are free and every other frame is reserved. *)
Theorem new_correct (regions : list MemoryRegion) (dm : DirectMap) (m : memory) (cr3 : Z) :
  Forall region_wf regions → NoDup (usable_frames regions) → 0 ≤ offset dm →
  (∃ e, FrameAllocator_new regions dm m = Done (Err e, m)) ∨
  ∃ fa m' lo hi, FrameAllocator_new regions dm m = Done (Ok fa, m') ∧
    bm_start (bitmap fa) = frame_virt dm lo ∧ lo < hi ≤ frame_count (bitmap fa) ∧
    (frame_virt dm (frame_count (bitmap fa)) ≤ W64 →
     fa_inv (mkMState m' fa cr3 []) (marked (frame_count (bitmap fa)) lo hi (usable_frames regions))).
Proof.
  intros Hwf Hnd Hoff.
  destruct (new_cases regions dm m Hwf Hnd) as [H|(h & lo & Hh & Hlo & Htr & Hb)]; [by left|].
  right. destruct (new_spec_ok _ _ m _ _ Hwf Hnd Hh Hlo Htr)
    as (m' & n & E & Hm & H0 & Hlo0 & Hbf & Hfit).
  eexists _, m', lo, (lo + bitmap_frames h). split; [done|]. simpl. split; [done|].
  split; [|intros Hcov; apply (new_fa_inv regions dm m' h lo n cr3 []); done].
  destruct (new_highest_frame_spec _ _ _ Hwf Hh ltac:(done)) as (_ & Htrack & _).
  destruct (new_bitmap_start_spec _ _ _ Hlo) as (r & y & Hr & Hk & Er & Hlt & _).
  destruct (Htrack r Hr ltac:(by rewrite Hk)) as (x' & y' & Er' & Hle).
  rewrite Er in Er'. injection Er' as <- <-. specialize (Hle Hlt).
  split; [|done]. unfold bitmap_frames, div_ceil, FRAME_SIZE. dmlia.
Qed.

(** A small machine: three megabytes are not needed to exercise the allocator, six
    frames are.  Frame 1 holds the bitmap, frames 2 to 5 are free. *)
Definition demo_regions : list MemoryRegion :=
  [mkMemoryRegion 0x800 0x800 RegionReserved; mkMemoryRegion 0x1000 0x5000 Usable].
Definition demo_dm : DirectMap := mkDirectMap 0xFFFF800000000000.
Definition demo_mem : memory := λ _, 0xAB.

Lemma demo_regions_wf : Forall region_wf demo_regions.
Proof. repeat (apply Forall_cons; split; [by vm_compute|]). apply Forall_nil. done. Qed.

Lemma demo_regions_nodup : NoDup (usable_frames demo_regions).
Proof. apply (bool_decide_unpack _). by vm_compute. Qed.

Lemma new_correct_witness :
  (∃ e, FrameAllocator_new demo_regions demo_dm demo_mem = Done (Err e, demo_mem)) ∨
  ∃ fa m' lo hi, FrameAllocator_new demo_regions demo_dm demo_mem = Done (Ok fa, m') ∧
    bm_start (bitmap fa) = frame_virt demo_dm lo ∧ lo < hi ≤ frame_count (bitmap fa) ∧
    (frame_virt demo_dm (frame_count (bitmap fa)) ≤ W64 →
     fa_inv (mkMState m' fa 0 [])
       (marked (frame_count (bitmap fa)) lo hi (usable_frames demo_regions))).
Proof.
  apply (new_correct demo_regions demo_dm demo_mem 0 demo_regions_wf demo_regions_nodup).
  by vm_compute.
Defined.

(** The allocator [new] builds on the small machine. *)
Definition demo_state : MState :=
  match FrameAllocator_new demo_regions demo_dm demo_mem with
  | Done (Ok fa, m) => mkMState m fa 0 []
  | _ => mkMState demo_mem (mkFrameAllocator (mkBitmap 0 0) 0 0 0 demo_dm) 0 []
  end.
Definition demo_abs : AbsAlloc :=
  mkAbs [Reserved; Reserved; Free; Free; Free; Free] 2.

Lemma demo_refines : refines demo_state demo_abs.
Proof.
  destruct (new_spec_ok demo_regions demo_dm demo_mem 6 1 demo_regions_wf demo_regions_nodup
    eq_refl eq_refl ltac:(by vm_compute)) as (m' & n & E & Hm & _).
  unfold demo_state. rewrite E.
  apply (new_fa_inv demo_regions demo_dm m' 6 1 n 0 []); try done; by vm_compute.
Qed.

(** C6: [FrameAllocator::alloc] implements the abstract next-fit allocator: it never
    panics, hands out the frame the specification names, leaves it filled with zeroes,
    records it as allocated, and changes no byte outside that frame and the bitmap. *)
Theorem alloc_refines (s : MState) (a : AbsAlloc) :
  refines s a →
  ∃ s', FrameAllocator_alloc s =
          Done ((λ i, Z.of_nat i * FRAME_SIZE) <$> fst (abs_alloc a), s') ∧
        refines s' (snd (abs_alloc a)) ∧
        match fst (abs_alloc a) with
        | None => s' = s
        | Some i =>
            (∀ x, in_frame (direct_map (ms_fa s)) (Z.of_nat i) x → load8 (ms_mem s') x = 0) ∧
            (∀ x, outside_bitmap s x → ¬ in_frame (direct_map (ms_fa s)) (Z.of_nat i) x →
               load8 (ms_mem s') x = load8 (ms_mem s) x)
        end.
Proof.
  intros H. destruct (alloc_spec s a H) as (s' & E & Hr & _ & Hm). exists s'. done.
Qed.

Lemma alloc_refines_witness :
  ∃ s', FrameAllocator_alloc demo_state = Done (Some (2 * FRAME_SIZE), s') ∧
        refines s' (mkAbs [Reserved; Reserved; Allocated; Free; Free; Free] 3).
Proof.
  destruct (alloc_refines demo_state demo_abs demo_refines) as (s' & E & Hr & _).
  exists s'. split; [exact E|exact Hr].
Defined.

(** Allocation is complete: it fails exactly when no frame is free, which is exactly
    when the free counter is zero. *)
Theorem alloc_none_iff_exhausted (s : MState) (l : list FrameState) :
  fa_inv s l →
  (FrameAllocator_alloc s = Done (None, s) ↔ Free ∉ l) ∧
  (FrameAllocator_alloc s = Done (None, s) ↔ free_frames (ms_fa s) = 0).
Proof.
  intros Hinv. pose proof (inv_next _ _ Hinv) as Hnx.
  assert (refines s (mkAbs l (Z.to_nat (next_search (ms_fa s))))) as Href
    by (split; [done|simpl; lia]).
  destruct (alloc_spec _ _ Href) as (s' & E & _ & _ & Hm).
  assert (FrameAllocator_alloc s = Done (None, s) ↔ Free ∉ l) as Hiff.
  { pose proof (next_fit_None (mkAbs l (Z.to_nat (next_search (ms_fa s))))) as Hnf.
    simpl in Hnf. rewrite E, <- Hnf. unfold abs_alloc in *.
    destruct (next_fit _); simpl in *; [done|]. by subst. }
  split; [done|]. rewrite Hiff, (inv_free _ _ Hinv). symmetry. apply count_state_0.
Qed.

Lemma alloc_none_iff_exhausted_witness :
  FrameAllocator_alloc demo_state = Done (None, demo_state) ↔
  free_frames (ms_fa demo_state) = 0.
Proof.
  apply (alloc_none_iff_exhausted demo_state (a_frames demo_abs)). apply demo_refines.
Defined.

(** [FrameAllocator::dealloc] accepts exactly the frames that are allocated: a double
    free, freeing a reserved frame and freeing an untracked frame all panic, and an
    accepted frame is returned to the free pool of the specification. *)
Theorem dealloc_refines (s : MState) (a : AbsAlloc) (i : Z) :
  refines s a → 0 ≤ i →
  match abs_dealloc (Z.to_nat i) a with
  | Some a' => ∃ s', FrameAllocator_dealloc (i * FRAME_SIZE) s = Done (tt, s') ∧ refines s' a' ∧
      ∀ x, outside_bitmap s x → load8 (ms_mem s') x = load8 (ms_mem s) x
  | None => ∃ why, FrameAllocator_dealloc (i * FRAME_SIZE) s = Panic why
  end.
Proof.
  intros Href Hi. pose proof (dealloc_spec s a i Href Hi) as H. unfold abs_dealloc in *.
  destruct (a_frames a !! Z.to_nat i) as [[]|] eqn:Est.
  1,2,4: by eexists.
  rewrite decide_True in * by done. destruct H as (a' & [= <-] & E & Hr).
  eexists. split_and!; [done..|]. intros x Hx. apply with_frame_mem; [|done].
  destruct Href as [Hinv _]. pose proof (inv_index_bound _ _ Hinv _ _ Est). lia.
Qed.

Lemma dealloc_refines_witness : ∃ why, FrameAllocator_dealloc (2 * FRAME_SIZE) demo_state = Panic why.
Proof. apply (dealloc_refines demo_state demo_abs 2 demo_refines). done. Defined.

(** Freeing a freshly allocated frame restores the frame states and the counters. *)
Theorem alloc_dealloc_roundtrip (s : MState) (l : list FrameState) :
  fa_inv s l → Free ∈ l →
  ∃ f s1 s2, FrameAllocator_alloc s = Done (Some f, s1) ∧
    FrameAllocator_dealloc f s1 = Done (tt, s2) ∧ fa_inv s2 l ∧
    free_frames (ms_fa s2) = free_frames (ms_fa s) ∧
    allocatable_frames (ms_fa s2) = allocatable_frames (ms_fa s).
Proof.
  intros Hinv Hin. pose proof (inv_next _ _ Hinv) as Hnx.
  assert (refines s (mkAbs l (Z.to_nat (next_search (ms_fa s))))) as Href
    by (split; [done|simpl; lia]).
  destruct (alloc_spec _ _ Href) as (s1 & E1 & Hr1 & _ & _). unfold abs_alloc in *.
  destruct (next_fit _) as [i|] eqn:Ei; [|by apply next_fit_None in Ei].
  pose proof (next_fit_Free _ _ Ei) as Hi. simpl in *.
  pose proof (dealloc_spec s1 _ (Z.of_nat i) Hr1 ltac:(lia)) as H. simpl in H.
  rewrite Nat2Z.id, list_lookup_insert_eq in H by (by eapply lookup_lt_Some).
  destruct H as (a' & Ha' & E2 & [Hinv2 _]). unfold abs_dealloc in Ha'. simpl in Ha'.
  rewrite list_lookup_insert_eq, decide_True in Ha' by (done || by eapply lookup_lt_Some).
  injection Ha' as <-. simpl in Hinv2. rewrite list_insert_insert_eq, list_insert_id in Hinv2 by done.
  eexists _, s1, _. split_and!; [exact E1|exact E2|done|..].
  - by rewrite (inv_free _ _ Hinv2), (inv_free _ _ Hinv).
  - by rewrite (inv_allocatable _ _ Hinv2), (inv_allocatable _ _ Hinv).
Qed.

Lemma alloc_dealloc_roundtrip_witness :
  ∃ f s1 s2, FrameAllocator_alloc demo_state = Done (Some f, s1) ∧
    FrameAllocator_dealloc f s1 = Done (tt, s2) ∧ fa_inv s2 (a_frames demo_abs) ∧
    free_frames (ms_fa s2) = free_frames (ms_fa demo_state) ∧
    allocatable_frames (ms_fa s2) = allocatable_frames (ms_fa demo_state).
Proof.
  apply (alloc_dealloc_roundtrip demo_state (a_frames demo_abs)); [apply demo_refines|].
  simpl. set_solver.
Defined.

(** ** Clients of the allocator *)

(** A client holds the [OwnedFrame]s it was given; it may ask for a frame and give
    back one it holds.  [OwnedFrame] is neither [Clone] nor [Copy]. *)
Inductive client_step : MState * list FrameAddr → MState * list FrameAddr → Prop :=
| client_alloc s s' f own :
    FrameAllocator_alloc s = Done (Some f, s') → client_step (s, own) (s', f :: own)
| client_alloc_none s s' own :
    FrameAllocator_alloc s = Done (None, s') → client_step (s, own) (s', own)
| client_dealloc s s' f own1 own2 :
    FrameAllocator_dealloc f s = Done (tt, s') →
    client_step (s, own1 ++ f :: own2) (s', own1 ++ own2).

(** What a client may rely on: every frame it holds is allocated, and held once. *)
Definition client_inv (c : MState * list FrameAddr) : Prop :=
  ∃ a, refines c.1 a ∧ NoDup c.2 ∧
    ∀ f, f ∈ c.2 → ∃ i, f = Z.of_nat i * FRAME_SIZE ∧ a_frames a !! i = Some Allocated.

Lemma client_inv_step c c' : client_inv c → client_step c c' → client_inv c'.
Proof.
  intros (a & Href & Hnd & Hown) Hstep.
  destruct Hstep as [s s' f own E|s s' own E|s s' f own1 own2 E]; simpl in *.
  - destruct (alloc_spec s a Href) as (s1 & E1 & Hr1 & _). rewrite E in E1.
    unfold abs_alloc in *. destruct (next_fit a) as [i|] eqn:Ei; [|done].
    simpl in *. injection E1 as -> <-. pose proof (next_fit_Free _ _ Ei) as Hi.
    exists (mkAbs (<[i := Allocated]> (a_frames a)) (S i)). split; [done|]. simpl. split.
    + constructor; [|done]. intros Hin. destruct (Hown _ Hin) as (j & Hj & Hal).
      assert (i = j) as -> by (unfold FRAME_SIZE in *; lia). congruence.
    + intros f' [->|Hin]%elem_of_cons.
      { exists i. split; [done|]. apply list_lookup_insert_eq. by eapply lookup_lt_Some. }
      destruct (Hown _ Hin) as (j & -> & Hal). exists j. split; [done|].
      rewrite list_lookup_insert_ne by congruence. done.
  - destruct (alloc_spec s a Href) as (s1 & E1 & Hr1 & _ & Hs). rewrite E in E1.
    unfold abs_alloc in *. destruct (next_fit a); [done|]. simpl in *.
    injection E1 as <-. subst. by exists a.
  - destruct (Hown f) as (i & -> & Hal); [set_solver|].
    pose proof (dealloc_spec s a (Z.of_nat i) Href ltac:(lia)) as H.
    rewrite Nat2Z.id, Hal in H. destruct H as (a' & Ha' & E1 & Hr1).
    rewrite E in E1. injection E1 as ->.
    unfold abs_dealloc in Ha'. rewrite decide_True in Ha' by done. injection Ha' as <-.
    eexists. split; [done|]. simpl.
    assert (Permutation (own1 ++ Z.of_nat i * FRAME_SIZE :: own2)
      (Z.of_nat i * FRAME_SIZE :: own1 ++ own2)) as Hp by by rewrite Permutation_middle.
    rewrite Hp in Hnd. apply NoDup_cons in Hnd as [Hni Hnd]. split; [done|].
    intros f' Hf'. destruct (Hown f') as (j & -> & Hal'); [set_solver|].
    exists j. split; [done|].
    rewrite list_lookup_insert_ne by (intros ->; done). done.
Qed.

(** C11: No frame is ever handed out twice while it is held, and a client that frees only
    what it holds never drives the allocator into a panic: after any sequence of
    allocations and deallocations the frames held are distinct, the next allocation
    returns, and every held frame can be given back. *)
Theorem ownership_safe (s0 : MState) (a0 : AbsAlloc) (s : MState) (own : list FrameAddr) :
  refines s0 a0 → rtc client_step (s0, []) (s, own) →
  NoDup own ∧ (∃ r, FrameAllocator_alloc s = Done r) ∧
  (∀ f, f ∈ own → ∃ s', FrameAllocator_dealloc f s = Done (tt, s')).
Proof.
  intros Href Hsteps.
  assert (client_inv (s, own)) as (a & Hr & Hnd & Hown).
  { eapply (rtc_ind_l (λ c, client_inv c → client_inv (s, own))); [done| |done|].
    - intros c c' Hstep _ IH Hc. apply IH. by eapply client_inv_step.
    - exists a0. split_and!; [done|constructor|by intros f ?%not_elem_of_nil]. }
  split_and!; [done|..].
  - destruct (alloc_spec _ _ Hr) as (s' & E & _). eauto.
  - intros f Hf. destruct (Hown f Hf) as (i & -> & Hal).
    pose proof (dealloc_spec s a (Z.of_nat i) Hr ltac:(lia)) as H.
    rewrite Nat2Z.id, Hal in H. destruct H as (a' & _ & E & _). eauto.
Qed.

Lemma ownership_safe_witness :
  ∃ s, rtc client_step (demo_state, []) (s, [12288; 8192]) ∧ NoDup [12288; 8192].
Proof.
  destruct (alloc_spec demo_state demo_abs demo_refines) as (s1 & E1 & Hr1 & _).
  destruct (alloc_spec s1 _ Hr1) as (s2 & E2 & _).
  assert (rtc client_step (demo_state, []) (s2, [12288; 8192])) as Hrun.
  { eapply rtc_l; [apply client_alloc; exact E1|].
    eapply rtc_l; [apply client_alloc; exact E2|]. apply rtc_refl. }
  exists s2. split; [exact Hrun|].
  apply (ownership_safe demo_state demo_abs s2 _ demo_refines Hrun).
Defined.

(** [reclaim_regions] hands exactly the still reserved frames of the regions of the
    given kind to the allocator and leaves every other frame as it was. *)
Theorem reclaim_correct (k : MemoryRegionKind) (regions : list MemoryRegion) (s : MState)
    (l : list FrameState) :
  (k = BootloaderReclaimable ∨ k = AcpiReclaimable) →
  fa_inv s l →
  (∀ r, r ∈ regions → region_kind r = k → ∃ p, usable_frame_range r = Ok p) →
  (∀ i, i ∈ regions ≫= frames_of_kind k → 0 ≤ i < frame_count (bitmap (ms_fa s)) ∧
     off_bitmap (bitmap (ms_fa s)) (direct_map (ms_fa s)) i) →
  ∃ s' l', FrameAllocator_reclaim_regions regions k s = Done (tt, s') ∧ fa_inv s' l' ∧
    ∀ i, l' !! i = match l !! i with
                   | Some Reserved =>
                       Some (if decide (Z.of_nat i ∈ regions ≫= frames_of_kind k)
                             then Free else Reserved)
                   | o => o
                   end.
Proof.
  intros Hk Hinv Hok Hfs. pose proof (inv_next _ _ Hinv) as Hnx.
  assert (refines s (mkAbs l (Z.to_nat (next_search (ms_fa s))))) as Href
    by (split; [done|simpl; lia]).
  destruct (reclaim_regions_spec k regions s _ Href Hok Hfs) as (s' & E & [Hinv' _] & _).
  eexists s', _. split_and!; [|exact Hinv'|].
  - unfold FrameAllocator_reclaim_regions. by destruct Hk; subst k.
  - intros i. rewrite foldl_abs_reclaim; [done|]. intros j Hj. by apply Hfs.
Qed.

(** The small machine extended by one page of bootloader memory above the bitmap. *)
Definition demo_boot_regions : list MemoryRegion :=
  demo_regions ++ [mkMemoryRegion 0 0x1000 BootloaderReclaimable].

Lemma reclaim_correct_witness :
  ∃ s' l', FrameAllocator_reclaim_regions demo_boot_regions BootloaderReclaimable demo_state =
             Done (tt, s') ∧ fa_inv s' l' ∧ l' !! 0%nat = Some Free ∧ l' !! 1%nat = Some Reserved.
Proof.
  destruct (reclaim_correct BootloaderReclaimable demo_boot_regions demo_state
    (a_frames demo_abs)) as (s' & l' & E & Hinv & Hl').
  - by left.
  - apply demo_refines.
  - intros r Hr Hk. unfold demo_boot_regions, demo_regions in Hr.
    repeat (apply elem_of_cons in Hr as [->|Hr]; [try done; by eexists|]).
    by apply not_elem_of_nil in Hr.
  - change (demo_boot_regions ≫= frames_of_kind BootloaderReclaimable) with [0].
    intros i ->%list_elem_of_singleton. split; [by vm_compute|]. left. by vm_compute.
  - exists s', l'. split_and!; [exact E|exact Hinv|by rewrite Hl'|by rewrite Hl'].
Defined.

(** ** The contract for clients

    What page tables, stacks and address spaces rely on, without the search hint: an
    allocated frame was free and arrives zeroed, and no operation touches the bytes of
    another tracked frame. *)

Definition kept_frame (s s' : MState) (i : nat) : Prop :=
  ∀ x, in_frame (direct_map (ms_fa s)) (Z.of_nat i) x → load8 (ms_mem s') x = load8 (ms_mem s) x.

(** The bitmap determines the states. *)
Lemma fa_inv_unique s s' l l' :
  ms_mem s' = ms_mem s → bitmap (ms_fa s') = bitmap (ms_fa s) → fa_inv s l → fa_inv s' l' → l' = l.
Proof.
  intros Em Eb H H'. destruct (inv_rep _ _ H) as [L1 C1], (inv_rep _ _ H') as [L2 C2]. rewrite Em, Eb in *.
  apply list_eq_same_length with (length l); [done|lia|]. intros i x y _ Hx Hy.
  specialize (C1 i y Hy). rewrite (C2 i x Hx) in C1. by destruct x, y.
Qed.

#[export] Instance same_layout_preorder : PreOrder same_layout.
Proof.
  split; [by intros s|]. intros s1 s2 s3 (E1 & E2 & E3 & E4) (F1 & F2 & F3 & F4).
  unfold same_layout. by rewrite F1, F2, F3, F4.
Qed.

(** The allocator keeps its bitmap, and the direct map is the same. *)
Definition same_area (s s' : MState) : Prop :=
  bitmap (ms_fa s') = bitmap (ms_fa s) ∧ direct_map (ms_fa s') = direct_map (ms_fa s).

#[export] Instance same_area_preorder : PreOrder same_area.
Proof. split; [done|]. intros s1 s2 s3 [E1 E2] [F1 F2]. unfold same_area. by rewrite F1, F2. Qed.

Lemma same_area_layout s s' : same_layout s s' → same_area s s'.
Proof. by intros (? & ? & _). Qed.

Lemma same_area_fa s s' : ms_fa s' = ms_fa s → same_area s s'.
Proof. unfold same_area. by intros ->. Qed.

Lemma off_bitmap_outside s i x :
  off_bitmap (bitmap (ms_fa s)) (direct_map (ms_fa s)) i → in_frame (direct_map (ms_fa s)) i x →
  outside_bitmap s x.
Proof. unfold off_bitmap, in_frame, outside_bitmap. lia. Qed.

Lemma in_frame_inj dm i j x : in_frame dm i x → in_frame dm j x → i = j.
Proof. unfold in_frame, frame_virt, FRAME_SIZE. lia. Qed.

Lemma fa_inv_refines s l :
  fa_inv s l → refines s (mkAbs l (Z.to_nat (next_search (ms_fa s)))).
Proof. intros H. pose proof (inv_next _ _ H). split; simpl; [done|lia]. Qed.

Lemma alloc_contract s l :
  fa_inv s l →
  (FrameAllocator_alloc s = Done (None, s) ∧ Free ∉ l) ∨
  (∃ i s', FrameAllocator_alloc s = Done (Some (Z.of_nat i * FRAME_SIZE), s') ∧
     l !! i = Some Free ∧ fa_inv s' (<[i := Allocated]> l) ∧ same_layout s s' ∧
     (∀ x, in_frame (direct_map (ms_fa s)) (Z.of_nat i) x → load8 (ms_mem s') x = 0) ∧
     (∀ j st, l !! j = Some st → st ≠ Reserved → j ≠ i → kept_frame s s' j)).
Proof.
  intros Hinv. destruct (alloc_spec _ _ (fa_inv_refines _ _ Hinv)) as (s' & E & [Hr _] & Hl & Hm).
  unfold abs_alloc in *. destruct (next_fit _) as [i|] eqn:Ei; simpl in *.
  - right. exists i, s'. pose proof (next_fit_Free _ _ Ei) as Hi. simpl in Hi.
    destruct Hm as [Hz Hk]. split_and!; try done. intros j st Hj Hst Hne x Hx.
    apply Hk; [eapply off_bitmap_outside; [by eapply (inv_storage _ _ Hinv)|done]|].
    intros Hx'. pose proof (in_frame_inj _ _ _ _ Hx Hx'). lia.
  - left. apply next_fit_None in Ei. by subst.
Qed.

(** A frame none of whose bytes the bitmap occupies, whatever its state. *)
Definition off_frame (s : MState) (j : nat) : Prop :=
  off_bitmap (bitmap (ms_fa s)) (direct_map (ms_fa s)) (Z.of_nat j).

Lemma off_frame_layout s s' j : same_layout s s' → off_frame s j → off_frame s' j.
Proof. intros (E1 & E2 & _). unfold off_frame. by rewrite E1, E2. Qed.

Lemma used_off_frame s l j st : fa_inv s l → l !! j = Some st → st ≠ Reserved → off_frame s j.
Proof. intros H. apply (inv_storage _ _ H). Qed.

(** Neither operation writes to frames away from the bitmap, the frame given out apart. *)
Lemma alloc_off s l i s' :
  fa_inv s l → FrameAllocator_alloc s = Done (Some (Z.of_nat i * FRAME_SIZE), s') →
  ∀ j, off_frame s j → j ≠ i → kept_frame s s' j.
Proof.
  intros Hinv E0 j Hj Hne x Hx. destruct (alloc_spec _ _ (fa_inv_refines _ _ Hinv)) as (s1 & E & _ & _ & Hm).
  rewrite E0 in E. unfold abs_alloc in *. destruct (next_fit _) as [n|]; simpl in *; [|done].
  injection E as En <-. assert (i = n) as <- by (unfold FRAME_SIZE in En; lia).
  apply Hm; [by eapply off_bitmap_outside|]. intros Hx'. pose proof (in_frame_inj _ _ _ _ Hx Hx'). lia.
Qed.

Lemma dealloc_off s l i s' :
  fa_inv s l → l !! i = Some Allocated → FrameAllocator_dealloc (Z.of_nat i * FRAME_SIZE) s = Done (tt, s') →
  ∀ j, off_frame s j → kept_frame s s' j.
Proof.
  intros Hinv Hi E0 j Hj x Hx.
  pose proof (dealloc_spec _ _ (Z.of_nat i) (fa_inv_refines _ _ Hinv) ltac:(lia)) as H.
  simpl in H. rewrite Nat2Z.id, Hi in H. destruct H as (a' & _ & E & _). rewrite E0 in E. injection E as ->.
  apply with_frame_mem; [pose proof (inv_index_bound _ _ Hinv _ _ Hi); lia|]. by eapply off_bitmap_outside.
Qed.

(** A frame that data can be stored in: one that is allocated, or one that the allocator never gives
    out, away from its bitmap. *)
Definition data_frame (l : list FrameState) (s : MState) (k : nat) : Prop :=
  l !! k = Some Allocated ∨
  l !! k ≠ Some Free ∧ off_bitmap (bitmap (ms_fa s)) (direct_map (ms_fa s)) (Z.of_nat k) ∧
    frame_virt (direct_map (ms_fa s)) (Z.of_nat k + 1) ≤ W64.

Lemma data_frame_mono l l' s s' k :
  same_area s s' → (l !! k = Some Allocated → l' !! k = Some Allocated) →
  (l' !! k = Some Free → l !! k = Some Free) → data_frame l s k → data_frame l' s' k.
Proof.
  intros [E1 E2] Ha Hf [Hk|(Hk & Ho & Hw)]; [left; auto|right]. rewrite E1, E2. split_and!; [|done..]. auto.
Qed.

Lemma data_frame_used l s k : data_frame l s k → l !! k ≠ Some Free.
Proof. intros [Hk|[Hk _]]; congruence. Qed.

Lemma data_off_frame s l j : fa_inv s l → data_frame l s j → off_frame s j.
Proof. intros H [Hj|(_ & Hj & _)]; [by eapply used_off_frame|done]. Qed.

(** No byte of a frame that holds data differs, but those of [P]. *)
Definition data_kept (l : list FrameState) (P : Z → Prop) (s s' : MState) : Prop :=
  ∀ j x, data_frame l s j → in_frame (direct_map (ms_fa s)) (Z.of_nat j) x → ¬ P x →
    load8 (ms_mem s') x = load8 (ms_mem s) x.

Lemma data_kept_refl l P s : data_kept l P s s.
Proof. done. Qed.

Lemma data_kept_frames l P s s' : (∀ j, data_frame l s j → kept_frame s s' j) → data_kept l P s s'.
Proof. intros H j x Hj Hx _. by apply (H j). Qed.

(** The same without the zeroing. *)
Lemma alloc_nozero_contract s l :
  fa_inv s l →
  (FrameAllocator_alloc_nozero s = Done (None, s) ∧ Free ∉ l) ∨
  (∃ i s', FrameAllocator_alloc_nozero s = Done (Some (Z.of_nat i * FRAME_SIZE), s') ∧
     l !! i = Some Free ∧ fa_inv s' (<[i := Allocated]> l) ∧ same_layout s s' ∧
     (∀ j st, l !! j = Some st → st ≠ Reserved → kept_frame s s' j)).
Proof.
  intros Hinv. destruct (alloc_nozero_spec _ _ (fa_inv_refines _ _ Hinv)) as (s' & E & [Hr _] & Hs').
  unfold abs_alloc in *. destruct (next_fit _) as [i|] eqn:Ei; simpl in *.
  - right. exists i, s'. pose proof (next_fit_Free _ _ Ei) as Hi. simpl in Hi.
    split_and!; [done|done|done|by rewrite Hs'|]. intros j st Hj Hst x Hx. rewrite Hs'.
    apply with_frame_mem; [pose proof (inv_index_bound _ _ Hinv _ _ Hi); lia|].
    eapply off_bitmap_outside; [by eapply (inv_storage _ _ Hinv)|done].
  - left. apply next_fit_None in Ei. by subst.
Qed.

Lemma alloc_nozero_off s l i s' :
  fa_inv s l → FrameAllocator_alloc_nozero s = Done (Some (Z.of_nat i * FRAME_SIZE), s') →
  ∀ j, off_frame s j → kept_frame s s' j.
Proof.
  intros Hinv E0 j Hj x Hx. destruct (alloc_nozero_spec _ _ (fa_inv_refines _ _ Hinv)) as (s1 & E & _ & Hs).
  rewrite E0 in E. unfold abs_alloc in *. destruct (next_fit _) as [n|] eqn:En; simpl in *; [|done].
  injection E as _ <-. rewrite Hs. apply next_fit_Free in En. simpl in En.
  apply with_frame_mem; [pose proof (inv_index_bound _ _ Hinv _ _ En); lia|]. by eapply off_bitmap_outside.
Qed.

Lemma dealloc_contract s l i :
  fa_inv s l → l !! i = Some Allocated →
  ∃ s', FrameAllocator_dealloc (Z.of_nat i * FRAME_SIZE) s = Done (tt, s') ∧
    fa_inv s' (<[i := Free]> l) ∧ same_layout s s' ∧
    (∀ j st, l !! j = Some st → st ≠ Reserved → kept_frame s s' j).
Proof.
  intros Hinv Hi.
  pose proof (dealloc_spec _ _ (Z.of_nat i) (fa_inv_refines _ _ Hinv) ltac:(lia)) as H.
  simpl in H. rewrite Nat2Z.id, Hi in H. destruct H as (a' & Ha' & E & [Hr _]).
  unfold abs_dealloc in Ha'. simpl in Ha'. rewrite decide_True in Ha' by done.
  injection Ha' as <-. eexists. split_and!; [done|done|done|]. intros j st Hj Hst x Hx.
  apply with_frame_mem; [pose proof (inv_index_bound _ _ Hinv _ _ Hi); lia|].
  eapply off_bitmap_outside; [by eapply (inv_storage _ _ Hinv)|done].
Qed.
