(* ===== verification/Paging.v ===== *)
(** * x86_64 page tables

    Model of [src/arch/x86_64/paging.rs]: page table entries, the walk that
    translates an address, and [PageTable] with mapping, unmapping, destruction and
    the sharing of the kernel half.  Tables live in the frames the allocator of
    [Frame] hands out and are read and written through the direct map. *)

From S2P Require Import Prelude Memory Frame.

Definition PAGE_SIZE : usize := 4096.
Definition PAGE_TABLE_ENTRIES : usize := 512.

(** ** Configuration *)

Inductive PagingMode := FourLevel | FiveLevel.

Record PagingConfig := mkPagingConfig {
  physical_address_bits : Z;
  global_pages : bool;
  nx_enabled : bool;
  mode : PagingMode;
}.

(** The feature flags [cpu::detect_features_and_enable] reports. *)
Record CpuFeatures := mkCpuFeatures {
  cf_nx_supported : bool;
  cf_nx_enabled : bool;
  cf_global_pages : bool;
  cf_physical_address_bits : Z;
  cf_virtual_address_bits : Z;
  cf_five_level_paging_active : bool;
}.

Definition PagingConfig_from_features (features : CpuFeatures) : PagingConfig :=
  mkPagingConfig (cf_physical_address_bits features) (cf_global_pages features)
    (cf_nx_enabled features)
    (if cf_five_level_paging_active features then FiveLevel else FourLevel).

Definition physical_address_mask (self : PagingConfig) : usize :=
  Z.land (Z.shiftl 1 (physical_address_bits self) - 1) (not64 0xFFF).

Definition physical_address_limit (self : PagingConfig) : usize :=
  Z.shiftl 1 (physical_address_bits self).

Inductive PageTableLevel := Pml5 | Pml4 | Pdpt | PageDirectory.

#[export] Instance PageTableLevel_eq_dec : EqDecision PageTableLevel.
Proof. solve_decision. Defined.

Definition virtual_address_bits (self : PagingMode) : Z :=
  match self with FourLevel => 48 | FiveLevel => 57 end.

Definition intermediate_levels (self : PagingMode) : list PageTableLevel :=
  match self with
  | FourLevel => [Pml4; Pdpt; PageDirectory]
  | FiveLevel => [Pml5; Pml4; Pdpt; PageDirectory]
  end.

Definition level_shift (self : PageTableLevel) : Z :=
  match self with Pml5 => 48 | Pml4 => 39 | Pdpt => 30 | PageDirectory => 21 end.

Definition level_index (self : PageTableLevel) (address : usize) : usize :=
  Z.land (Z.shiftr address (level_shift self)) 0x1FF.

Definition large_page_size (self : PageTableLevel) : option usize :=
  match self with
  | Pdpt => Some (Z.shiftl 1 30)
  | PageDirectory => Some (Z.shiftl 1 21)
  | Pml5 | Pml4 => None
  end.

(** ** Entries *)

Inductive PageTableEntryError := EntryPhysicalAddressTooLarge | EntryNoExecuteUnsupported.

(** [PageTableEntry] is a transparent [u64]. *)
Abbreviation PageTableEntry := Z (only parsing).

Definition PRESENT : Z := Z.shiftl 1 0.
Definition WRITABLE : Z := Z.shiftl 1 1.
Definition USER_ACCESSIBLE : Z := Z.shiftl 1 2.
Definition WRITE_THROUGH : Z := Z.shiftl 1 3.
Definition CACHE_DISABLED : Z := Z.shiftl 1 4.
Definition HUGE_PAGE : Z := Z.shiftl 1 7.
Definition GLOBAL : Z := Z.shiftl 1 8.
Definition NX : Z := Z.shiftl 1 63.

Definition PageTableEntry_new (physical_address : PhysicalAddr) (permissions : PagePermissions)
    (cache_policy : CachePolicy) (config : PagingConfig) (global : bool) :
    result PageTableEntry PageTableEntryError :=
  if physical_address_limit config <=? physical_address then Err EntryPhysicalAddressTooLarge
  else
    let value := Z.lor physical_address PRESENT in
    let value := if writable permissions then Z.lor value WRITABLE else value in
    let value := if user_accessible permissions then Z.lor value USER_ACCESSIBLE else value in
    let* value :=
      if negb (executable permissions) then
        if negb (nx_enabled config) then Err EntryNoExecuteUnsupported
        else Ok (Z.lor value NX)
      else Ok value in
    let value := if global && global_pages config then Z.lor value GLOBAL else value in
    let value := match cache_policy with
                 | WriteBack => value
                 | Uncacheable => Z.lor value (Z.lor CACHE_DISABLED WRITE_THROUGH)
                 end in
    Ok value.

Definition PageTableEntry_new_table (frame : FrameAddr) (user_accessible : bool)
    (config : PagingConfig) : result PageTableEntry PageTableEntryError :=
  if physical_address_limit config <=? frame then Err EntryPhysicalAddressTooLarge
  else
    let value := Z.lor (Z.lor frame PRESENT) WRITABLE in
    let value := if user_accessible then Z.lor value USER_ACCESSIBLE else value in
    Ok value.

Definition PageTableEntry_null : PageTableEntry := 0.

Definition entry_physical_address (self : PageTableEntry) (config : PagingConfig) : PhysicalAddr :=
  Z.land self (physical_address_mask config).

Definition is_present (self : PageTableEntry) : bool := negb (Z.land self PRESENT =? 0).
Definition entry_writable (self : PageTableEntry) : bool := negb (Z.land self WRITABLE =? 0).
Definition entry_executable (self : PageTableEntry) : bool := Z.land self NX =? 0.
Definition is_user_accessible (self : PageTableEntry) : bool :=
  negb (Z.land self USER_ACCESSIBLE =? 0).
Definition is_huge (self : PageTableEntry) : bool := negb (Z.land self HUGE_PAGE =? 0).
Definition is_global (self : PageTableEntry) : bool := negb (Z.land self GLOBAL =? 0).

Definition entry_table_frame (self : PageTableEntry) (config : PagingConfig) : option FrameAddr :=
  if negb (is_present self) || is_huge self then None
  else FrameAddr_from_start_address (entry_physical_address self config).

Definition entry_leaf_frame (self : PageTableEntry) (config : PagingConfig) : option FrameAddr :=
  if negb (is_present self) then None
  else FrameAddr_from_start_address (entry_physical_address self config).

Definition entry_permissions (self : PageTableEntry) : PagePermissions :=
  mkPagePermissions (entry_writable self) (entry_executable self) (is_user_accessible self).

(** ** Page tables *)

Inductive PageTableMapError :=
| MapInvalidVirtualAddress | MapVirtualAddressUnaligned | MapPhysicalAddressTooLarge
| MapPageAlreadyMapped | MapHugePageConflict | MapNoExecuteUnsupported | MapOutOfFrames
| MapPageTableOutsideDirectMap | MapInvalidPageTableEntry.

Inductive PageTableUnmapError :=
| UnmapInvalidVirtualAddress | UnmapVirtualAddressUnaligned | UnmapPageNotMapped
| UnmapHugePageConflict | UnmapPageTableOutsideDirectMap | UnmapInvalidPageTableEntry.

Record EntryLocation := mkEntryLocation { loc_table : FrameAddr; loc_index : usize }.

Inductive PageTableCreateError := CreatePhysicalAddressTooLarge | CreateOutOfFrames.

Record PageTable := mkPageTable {
  pt_direct_map : DirectMap;
  pt_config : PagingConfig;
  pt_frame : FrameAddr;
}.

Record PageTableMapping := mkPageTableMapping { permissions : PagePermissions }.

Definition p1_index (addr : usize) : usize := Z.land (Z.shiftr addr 12) 0x1FF.
Definition page_offset (addr : usize) : usize := Z.land addr 0xFFF.

Definition translate_huge_page (entry : PageTableEntry) (virtual_addr page_size : usize)
    (config : PagingConfig) : option PhysicalAddr :=
  let physical_base := Z.land (entry_physical_address entry config) (not64 (page_size - 1)) in
  let offset := Z.land virtual_addr (page_size - 1) in
  checked_add physical_base offset.

Definition levels (self : PageTable) : list PageTableLevel :=
  intermediate_levels (mode (pt_config self)).

(** [table]/[table_mut]: where the table stored in a frame is accessed. *)
Definition PageTable_table (self : PageTable) (frame : FrameAddr) : option VirtualAddr :=
  DirectMap_translate (pt_direct_map self) frame.

(** [table[index]] and [table[index] = entry] for the table at [base]; every index is
    below 512. *)
Definition entry_at (m : memory) (base : VirtualAddr) (index : usize) : PageTableEntry :=
  load64 m (base + 8 * index).
Definition set_entry (m : memory) (base : VirtualAddr) (index : usize) (e : PageTableEntry) : memory :=
  store64 m (base + 8 * index) e.

(** Two's complement reading of a 64-bit word, [x as isize]. *)
Definition as_isize (x : Z) : Z := if x <? 2 ^ 63 then x else x - W64.

Definition is_canonical (self : PageTable) (addr : usize) : bool :=
  let bits := virtual_address_bits (mode (pt_config self)) in
  let shift := 64 - bits in
  (Z.shiftr (as_isize (Z.shiftl addr shift mod W64)) shift) mod W64 =? addr.

Definition read_cr3 (config : PagingConfig) : M MState FrameAddr :=
  let! s := get in
  expect (FrameAddr_from_start_address (Z.land (ms_cr3 s) (physical_address_mask config)))
    "CR3 contains an unaligned page-table address".

Definition is_active (self : PageTable) : M MState bool :=
  let! cr3 := read_cr3 (pt_config self) in
  ret (cr3 =? pt_frame self).

Definition PageTable_new (dm : DirectMap) (config : PagingConfig) :
    M MState (result PageTable PageTableCreateError) :=
  let! o := FrameAllocator_alloc in
  match o with
  | None => ret (Err CreateOutOfFrames)
  | Some frame =>
      if physical_address_limit config <=? frame then
        do! FrameAllocator_dealloc frame ;;;
        ret (Err CreatePhysicalAddressTooLarge)
      else ret (Ok (mkPageTable dm config frame))
  end.

(** [to_physical]'s loop over the remaining levels, from [table_frame]. *)
Fixpoint to_physical_from (self : PageTable) (m : memory) (address : usize)
    (lvls : list PageTableLevel) (table_frame : FrameAddr) : option PhysicalAddr :=
  match lvls with
  | [] =>
      page_table ← PageTable_table self table_frame;
      let entry := entry_at m page_table (p1_index address) in
      physical_base ← entry_leaf_frame entry (pt_config self);
      checked_add physical_base (page_offset address)
  | level :: lvls =>
      table ← PageTable_table self table_frame;
      let entry := entry_at m table (level_index level address) in
      if negb (is_present entry) then None
      else if is_huge entry then
        size ← large_page_size level;
        translate_huge_page entry address size (pt_config self)
      else
        next ← entry_table_frame entry (pt_config self);
        to_physical_from self m address lvls next
  end.

Definition PageTable_to_physical (self : PageTable) (m : memory) (addr : VirtualAddr) :
    option PhysicalAddr :=
  if negb (is_canonical self addr) then None
  else to_physical_from self m addr (levels self) (pt_frame self).

Definition PageTable_to_virtual (self : PageTable) (addr : PhysicalAddr) : option VirtualAddr :=
  DirectMap_translate (pt_direct_map self) addr.

(** [permissions.x &= entry_permissions.x] for the three flags. *)
Definition and_permissions (p q : PagePermissions) : PagePermissions :=
  mkPagePermissions (writable p && writable q) (executable p && executable q)
    (user_accessible p && user_accessible q).

Fixpoint mapping_from (self : PageTable) (m : memory) (address : usize)
    (lvls : list PageTableLevel) (table_frame : FrameAddr) (perms : PagePermissions) :
    option PageTableMapping :=
  match lvls with
  | [] =>
      page_table ← PageTable_table self table_frame;
      let entry := entry_at m page_table (p1_index address) in
      if negb (is_present entry) then None
      else Some (mkPageTableMapping (and_permissions perms (entry_permissions entry)))
  | level :: lvls =>
      table ← PageTable_table self table_frame;
      let entry := entry_at m table (level_index level address) in
      if negb (is_present entry) then None
      else
        let perms := and_permissions perms (entry_permissions entry) in
        if is_huge entry then
          _ ← large_page_size level; Some (mkPageTableMapping perms)
        else
          next ← entry_table_frame entry (pt_config self);
          mapping_from self m address lvls next perms
  end.

Definition PageTable_mapping (self : PageTable) (m : memory) (virtual_addr : VirtualAddr) :
    option PageTableMapping :=
  if negb (is_canonical self virtual_addr) then None
  else mapping_from self m virtual_addr (levels self) (pt_frame self)
         (mkPagePermissions true true true).

Definition get_next_level (self : PageTable) (m : memory) (parent : FrameAddr) (index : usize)
    (level : PageTableLevel) : result FrameAddr PageTableUnmapError :=
  let* parent_table := ok_or (PageTable_table self parent) UnmapPageTableOutsideDirectMap in
  let entry := entry_at m parent_table index in
  if is_huge entry then
    match large_page_size level with
    | Some _ => Err UnmapHugePageConflict
    | None => Err UnmapInvalidPageTableEntry
    end
  else ok_or (entry_table_frame entry (pt_config self)) UnmapPageNotMapped.

Definition flush_tlb_if_active (self : PageTable) (page : VirtualAddr) : M MState unit :=
  do! massert (is_canonical self page) "assertion failed" ;;;
  let! active := is_active self in
  if active : bool then
    modify (λ s, mkMState (ms_mem s) (ms_fa s) (ms_cr3 s) (page :: ms_flushed s))
  else ret tt.

(** [entry.0 |= USER_ACCESSIBLE] at every recorded location. *)
Definition apply_user_upgrades (self : PageTable) (upgrades : list EntryLocation) :
    M MState unit :=
  mfor upgrades (λ location,
    let! base := expect (PageTable_table self (loc_table location))
                   "validated page table left the direct map" in
    modify (λ s, set_mem (set_entry (ms_mem s) base (loc_index location)
      (Z.lor (entry_at (ms_mem s) base (loc_index location)) USER_ACCESSIBLE)) s)).


(** ** Mapping *)

Definition map_entry_error (error : PageTableEntryError) : PageTableMapError :=
  match error with
  | EntryPhysicalAddressTooLarge => MapPhysicalAddressTooLarge
  | EntryNoExecuteUnsupported => MapNoExecuteUnsupported
  end.

(** The validating walk of [map].  It yields the first missing entry with its depth, the
    table the walk stopped in, and the entries to be made user accessible. *)
Fixpoint map_walk (self : PageTable) (m : memory) (address : usize) (user : bool)
    (lvls : list PageTableLevel) (depth : nat) (table_frame : FrameAddr)
    (upgrades : list EntryLocation) :
    result (option (nat * EntryLocation) * FrameAddr * list EntryLocation) PageTableMapError :=
  match lvls with
  | [] => Ok (None, table_frame, upgrades)
  | level :: lvls =>
      let index := level_index level address in
      let* table := ok_or (PageTable_table self table_frame) MapPageTableOutsideDirectMap in
      let entry := entry_at m table index in
      if negb (is_present entry)
      then Ok (Some (depth, mkEntryLocation table_frame index), table_frame, upgrades)
      else if is_huge entry then
        match large_page_size level with
        | Some _ => Err MapHugePageConflict
        | None => Err MapInvalidPageTableEntry
        end
      else
        let upgrades :=
          if user && negb (is_user_accessible entry)
          then upgrades ++ [mkEntryLocation table_frame index] else upgrades in
        let* next := ok_or (entry_table_frame entry (pt_config self)) MapInvalidPageTableEntry in
        map_walk self m address user lvls (S depth) next upgrades
  end.

(** [self.table_mut(frame)[index] = entry] after the walk validated [frame]. *)
Definition write_entry (self : PageTable) (frame : FrameAddr) (index : usize)
    (entry : PageTableEntry) (why : string) : M MState unit :=
  let! base := expect (PageTable_table self frame) why in
  modify (λ s, set_mem (set_entry (ms_mem s) base index entry) s).

(** First loop of the preparation: allocate the private tables.  The frames owned so far
    are returned with the error, too, because the caller frees them. *)
Fixpoint alloc_private (self : PageTable) (user : bool) (count : nat) (tables : list FrameAddr) :
    M MState (result unit PageTableMapError * list FrameAddr) :=
  match count with
  | O => ret (Ok tt, tables)
  | S count =>
      let! o := FrameAllocator_alloc in
      match o with
      | None => ret (Err MapOutOfFrames, tables)
      | Some frame =>
          let tables := tables ++ [frame] in
          match PageTableEntry_new_table frame user (pt_config self) with
          | Err _ => ret (Err MapPhysicalAddressTooLarge, tables)
          | Ok _ => alloc_private self user count tables
          end
      end
  end.

(** Second loop: every private table gets the entry of its successor, the last one the
    leaf.  [lvls] are the levels below the missing entry, one for each link. *)
Fixpoint link_private (self : PageTable) (address : usize) (user : bool) (leaf : PageTableEntry)
    (lvls : list PageTableLevel) (tables : list FrameAddr) :
    M MState (result unit PageTableMapError) :=
  match tables with
  | [] => ret (Ok tt)
  | private_frame :: rest =>
      match rest with
      | child :: _ =>
          let? child_entry := ret (map_err (λ _, MapPhysicalAddressTooLarge)
            (PageTableEntry_new_table child user (pt_config self))) in
          match lvls with
          | [] => panic "index out of bounds"
          | level :: lvls =>
              let? base := ret (ok_or (PageTable_table self private_frame)
                                  MapPageTableOutsideDirectMap) in
              do! modify (λ s, set_mem (set_entry (ms_mem s) base (level_index level address)
                                          child_entry) s) ;;;
              link_private self address user leaf lvls rest
          end
      | [] =>
          let? base := ret (ok_or (PageTable_table self private_frame)
                              MapPageTableOutsideDirectMap) in
          do! modify (λ s, set_mem (set_entry (ms_mem s) base (p1_index address) leaf) s) ;;;
          ret (Ok tt)
      end
  end.

(** The closure [prepare_result] is computed with, and the frames it came to own. *)
Definition prepare_private (self : PageTable) (address : usize) (user : bool)
    (leaf : PageTableEntry) (missing_depth : nat) :
    M MState (result PageTableEntry PageTableMapError * list FrameAddr) :=
  let! (r, tables) := alloc_private self user (length (levels self) - missing_depth) [] in
  match r with
  | Err e => ret (Err e, tables)
  | Ok _ =>
      let! r := link_private self address user leaf (drop (S missing_depth) (levels self)) tables in
      match r with
      | Err e => ret (Err e, tables)
      | Ok _ =>
          let! first := expect (head tables) "called `Option::unwrap()` on a `None` value" in
          ret (map_err (λ _, MapPhysicalAddressTooLarge)
                 (PageTableEntry_new_table first user (pt_config self)), tables)
      end
  end.

Definition PageTable_map (self : PageTable) (mapped_addr : VirtualAddr) (frame : FrameAddr)
    (permissions : PagePermissions) (cache_policy : CachePolicy) (global : bool) :
    M MState (result unit PageTableMapError) :=
  let address := mapped_addr in
  if negb (is_canonical self address) then ret (Err MapInvalidVirtualAddress)
  else if negb (address mod PAGE_SIZE =? 0) then ret (Err MapVirtualAddressUnaligned)
  else
    let? leaf_entry := ret (map_err map_entry_error
      (PageTableEntry_new frame permissions cache_policy (pt_config self) global)) in
    let user := user_accessible permissions in
    let! s := get in
    let? (first_missing, table_frame, upgrades) :=
      ret (map_walk self (ms_mem s) address user (levels self) 0 (pt_frame self) []) in
    match first_missing with
    | None =>
        let? pt := ret (ok_or (PageTable_table self table_frame) MapPageTableOutsideDirectMap) in
        if is_present (entry_at (ms_mem s) pt (p1_index address))
        then ret (Err MapPageAlreadyMapped)
        else
          do! apply_user_upgrades self upgrades ;;;
          do! write_entry self table_frame (p1_index address) leaf_entry
                "validated page table left the direct map" ;;;
          do! flush_tlb_if_active self mapped_addr ;;;
          ret (Ok tt)
    | Some (missing_depth, location) =>
        let! (prepared, private_tables) :=
          prepare_private self address user leaf_entry missing_depth in
        match prepared with
        | Err error =>
            do! mfor (rev private_tables) FrameAllocator_dealloc ;;;
            ret (Err error)
        | Ok publication_entry =>
            do! apply_user_upgrades self upgrades ;;;
            do! write_entry self (loc_table location) (loc_index location) publication_entry
                  "validated publication table left the direct map" ;;;
            do! flush_tlb_if_active self mapped_addr ;;;
            ret (Ok tt)
        end
    end.

(** ** Unmapping *)

(** The tables on the way to [address], the root first. *)
Fixpoint unmap_walk (self : PageTable) (m : memory) (address : usize)
    (lvls : list PageTableLevel) (current_table : FrameAddr) :
    result (list FrameAddr) PageTableUnmapError :=
  match lvls with
  | [] => Ok [current_table]
  | level :: lvls =>
      let* next := get_next_level self m current_table (level_index level address) level in
      let* below := unmap_walk self m address lvls next in
      Ok (current_table :: below)
  end.

(** [table.iter().all(|entry| !entry.is_present())] *)
Definition table_is_empty (m : memory) (base : VirtualAddr) : bool :=
  forallb (λ i, negb (is_present (entry_at m base i))) (range 0 PAGE_TABLE_ENTRIES).

(** The loop over the depths, deepest first: unlink tables that became empty. *)
Fixpoint unmap_prune (self : PageTable) (address : usize) (table_frames : list FrameAddr)
    (depth : nat) (child_is_empty : bool) (deallocatable_frames : list FrameAddr) :
    M MState (list FrameAddr) :=
  match depth with
  | O => ret deallocatable_frames
  | S depth =>
      if negb child_is_empty then ret deallocatable_frames
      else
        let! parent_frame_addr := expect (table_frames !! depth) "unwrap on None" in
        let! child_frame := expect (table_frames !! S depth) "unwrap on None" in
        let! level := expect (levels self !! depth) "index out of bounds" in
        do! write_entry self parent_frame_addr (level_index level address) PageTableEntry_null
              "validated page table left the direct map" ;;;
        let! child_is_empty :=
          (if (0 <? depth)%nat then
             let! base := expect (PageTable_table self parent_frame_addr)
                            "validated page table left the direct map" in
             gets (λ s, table_is_empty (ms_mem s) base)
           else ret child_is_empty) in
        unmap_prune self address table_frames depth child_is_empty
          (deallocatable_frames ++ [child_frame])
  end.

Definition PageTable_unmap (self : PageTable) (mapped_addr : VirtualAddr) :
    M MState (result FrameAddr PageTableUnmapError) :=
  if negb (is_canonical self mapped_addr) then ret (Err UnmapInvalidVirtualAddress)
  else if negb (mapped_addr mod PAGE_SIZE =? 0) then ret (Err UnmapVirtualAddressUnaligned)
  else
    let address := mapped_addr in
    let! s := get in
    let? table_frames := ret (unmap_walk self (ms_mem s) address (levels self) (pt_frame self)) in
    let! current_table := expect (last table_frames) "unreachable" in
    let? page_table := ret (ok_or (PageTable_table self current_table)
                              UnmapPageTableOutsideDirectMap) in
    let entry := entry_at (ms_mem s) page_table (p1_index address) in
    let? frame := ret (ok_or (entry_leaf_frame entry (pt_config self)) UnmapPageNotMapped) in
    do! modify (λ s, set_mem (set_entry (ms_mem s) page_table (p1_index address)
                                PageTableEntry_null) s) ;;;
    let! child_is_empty := gets (λ s, table_is_empty (ms_mem s) page_table) in
    let! deallocatable_frames :=
      unmap_prune self address table_frames (length (levels self)) child_is_empty [] in
    do! flush_tlb_if_active self mapped_addr ;;;
    do! mfor deallocatable_frames FrameAllocator_dealloc ;;;
    ret (Ok frame).

(** ** Sharing, activation and destruction *)

Definition copy_kernel_mappings_to (self destination : PageTable) : M MState unit :=
  let! src := expect (PageTable_table self (pt_frame self))
                "source page table outside direct map" in
  let! dest := expect (PageTable_table destination (pt_frame destination))
                 "destination page table outside direct map" in
  let! s0 := get in
  mfor (range 256 512) (λ i,
    modify (λ s, set_mem (set_entry (ms_mem s) dest i (entry_at (ms_mem s0) src i)) s)).

Definition PageTable_activate (self : PageTable) : M MState unit :=
  modify (λ s, mkMState (ms_mem s) (ms_fa s) (pt_frame self) (ms_flushed s)).

(** One round of the loops of [destroy_children] and [destroy_user]. *)
Definition destroy_entry (self : PageTable) (children : FrameAddr → M MState unit)
    (table : FrameAddr) (idx : usize) : M MState unit :=
  let! base := expect (PageTable_table self table) "page table outside direct map" in
  let! entry := gets (λ s, entry_at (ms_mem s) base idx) in
  if negb (is_present entry) || is_huge entry then ret tt
  else
    let! child := expect (entry_table_frame entry (pt_config self)) "invalid page table entry" in
    do! children child ;;;
    do! write_entry self table idx PageTableEntry_null "page table outside direct map" ;;;
    FrameAllocator_dealloc child.

(** [destroy_children]: [lvls] are the levels from the current depth down. *)
Fixpoint destroy_children (self : PageTable) (lvls : list PageTableLevel) (table : FrameAddr) :
    M MState unit :=
  match lvls with
  | [] => ret tt
  | _ :: lvls =>
      mfor (range 0 PAGE_TABLE_ENTRIES) (destroy_entry self (destroy_children self lvls) table)
  end.

Definition PageTable_destroy (self : PageTable) : M MState unit :=
  let! active := is_active self in
  do! massert (negb active) "attempted to destroy active page table" ;;;
  do! destroy_children self (levels self) (pt_frame self) ;;;
  FrameAllocator_dealloc (pt_frame self).

Definition PageTable_destroy_user (self : PageTable) : M MState unit :=
  let! active := is_active self in
  do! massert (negb active) "attempted to destroy active page table" ;;;
  do! mfor (range 0 256)
        (destroy_entry self (destroy_children self (drop 1 (levels self))) (pt_frame self)) ;;;
  FrameAllocator_dealloc (pt_frame self).

(** * Entries: encoding and decoding *)

(** What the architecture guarantees of [CPUID]'s physical address width. *)
Definition config_wf (config : PagingConfig) : Prop := 12 < physical_address_bits config ≤ 52.

(** A frame an entry can hold. *)
Definition frame_ok (config : PagingConfig) (frame : FrameAddr) : Prop :=
  0 ≤ frame < physical_address_limit config ∧ frame mod FRAME_SIZE = 0.

Lemma is_present_bit e : is_present e = Z.testbit e 0.
Proof. unfold is_present, PRESENT. rewrite land_pow2_eqb by done. apply negb_involutive. Qed.
Lemma entry_writable_bit e : entry_writable e = Z.testbit e 1.
Proof. unfold entry_writable, WRITABLE. rewrite land_pow2_eqb by done. apply negb_involutive. Qed.
Lemma is_user_bit e : is_user_accessible e = Z.testbit e 2.
Proof.
  unfold is_user_accessible, USER_ACCESSIBLE. rewrite land_pow2_eqb by done. apply negb_involutive.
Qed.
Lemma is_huge_bit e : is_huge e = Z.testbit e 7.
Proof. unfold is_huge, HUGE_PAGE. rewrite land_pow2_eqb by done. apply negb_involutive. Qed.
Lemma is_global_bit e : is_global e = Z.testbit e 8.
Proof. unfold is_global, GLOBAL. rewrite land_pow2_eqb by done. apply negb_involutive. Qed.
Lemma entry_executable_bit e : entry_executable e = negb (Z.testbit e 63).
Proof. unfold entry_executable, NX. by rewrite land_pow2_eqb by done. Qed.

Lemma testbit_mask config n :
  config_wf config → 0 ≤ n →
  Z.testbit (physical_address_mask config) n = (12 <=? n) && (n <? physical_address_bits config).
Proof.
  intros [H1 H2] Hn. unfold physical_address_mask.
  rewrite Z.land_spec, testbit_not64, Z.shiftl_1_l.
  replace (2 ^ physical_address_bits config - 1) with (Z.ones (physical_address_bits config))
    by (rewrite Z.ones_equiv; lia).
  change 0xFFF with (Z.ones 12). rewrite !Z.testbit_ones_nonneg by lia.
  repeat case_bool; simpl; lia || done.
Qed.

Lemma frame_ok_bits config frame n :
  config_wf config → frame_ok config frame → 0 ≤ n →
  n < 12 ∨ physical_address_bits config ≤ n → Z.testbit frame n = false.
Proof.
  intros [H1 H2] [[Hf0 Hf1] Hal] Hn Hor. unfold physical_address_limit in Hf1.
  rewrite Z.shiftl_1_l in Hf1. destruct Hor as [Hlo|Hhi].
  - replace frame with (frame / FRAME_SIZE * 2 ^ 12) by (unfold FRAME_SIZE in *; dmlia).
    rewrite Z.mul_pow2_bits by lia. apply Z.testbit_neg_r. lia.
  - destruct (decide (frame = 0)) as [->|]; [apply Z.bits_0|].
    apply Z.bits_above_log2; [done|].
    assert (Z.log2 frame < physical_address_bits config) by (apply Z.log2_lt_pow2; lia). lia.
Qed.

(** The bits of an entry [PageTableEntry::new] builds. *)
Definition flag_bits (permissions : PagePermissions) (cache_policy : CachePolicy)
    (config : PagingConfig) (global : bool) (n : Z) : bool :=
  (n =? 0) || (writable permissions && (n =? 1)) || (user_accessible permissions && (n =? 2)) ||
  (match cache_policy with Uncacheable => (n =? 3) || (n =? 4) | WriteBack => false end) ||
  (global && global_pages config && (n =? 8)) || (negb (executable permissions) && (n =? 63)).

Lemma entry_new_bits frame p cp config g e n :
  PageTableEntry_new frame p cp config g = Ok e → 0 ≤ n →
  Z.testbit e n = Z.testbit frame n || flag_bits p cp config g n.
Proof.
  unfold PageTableEntry_new, flag_bits. intros H Hn.
  assert (Hb : ∀ k, 0 ≤ k → Z.testbit (Z.shiftl 1 k) n = (n =? k)).
  { intros k Hk. rewrite Z.shiftl_1_l, Z.pow2_bits_eqb by done. apply Z.eqb_sym. }
  destruct (_ <=? _); [done|].
  destruct p as [[] [] []], cp, g, (global_pages config), (nx_enabled config);
    simpl in H; try done; injection H as <-;
    unfold PRESENT, WRITABLE, USER_ACCESSIBLE, NX, GLOBAL, CACHE_DISABLED, WRITE_THROUGH;
    rewrite ?Z.lor_spec, ?Hb by done;
    destruct (Z.testbit frame n); simpl; rewrite ?orb_true_r, ?orb_false_r; try done;
    repeat case_bool; done.
Qed.

Lemma entry_new_table_bits frame user config e n :
  PageTableEntry_new_table frame user config = Ok e → 0 ≤ n →
  Z.testbit e n = Z.testbit frame n || ((n =? 0) || (n =? 1) || (user && (n =? 2))).
Proof.
  unfold PageTableEntry_new_table. intros H Hn.
  assert (Hb : ∀ k, 0 ≤ k → Z.testbit (Z.shiftl 1 k) n = (n =? k)).
  { intros k Hk. rewrite Z.shiftl_1_l, Z.pow2_bits_eqb by done. apply Z.eqb_sym. }
  destruct (_ <=? _); [done|].
  destruct user; injection H as <-; unfold PRESENT, WRITABLE, USER_ACCESSIBLE;
    rewrite ?Z.lor_spec, ?Hb by done; by rewrite <- ?orb_assoc, ?orb_false_r.
Qed.

Lemma entry_physical_address_bits config e frame :
  config_wf config → frame_ok config frame →
  (∀ n, 12 ≤ n < physical_address_bits config → Z.testbit e n = Z.testbit frame n) →
  entry_physical_address e config = frame.
Proof.
  intros Hc Hf H. apply Z.bits_inj'. intros n Hn. unfold entry_physical_address.
  rewrite Z.land_spec, testbit_mask by done.
  destruct (Z.leb_spec 12 n), (Z.ltb_spec n (physical_address_bits config)); simpl.
  - rewrite andb_true_r. by apply H.
  - rewrite andb_false_r. symmetry. apply (frame_ok_bits config); auto.
  - rewrite andb_false_r. symmetry. apply (frame_ok_bits config); auto.
  - rewrite andb_false_r. symmetry. apply (frame_ok_bits config); auto.
Qed.

Lemma entry_bits_u64 config e frame (flags : Z → bool) :
  config_wf config → frame_ok config frame →
  (∀ n, 0 ≤ n → Z.testbit e n = Z.testbit frame n || flags n) →
  (∀ n, 64 ≤ n → flags n = false) → is_u64 e.
Proof.
  intros Hc Hf H Hfl.
  assert (Hhi : ∀ n, 64 ≤ n → Z.testbit e n = false).
  { intros n Hn. destruct Hc. rewrite H, Hfl, orb_false_r by lia.
    apply (frame_ok_bits config); [split; lia|done|lia|lia]. }
  apply is_u64_bits. split; [|done].
  apply Z.bits_iff_nonneg_ex. exists 64. intros n Hn. apply Hhi. lia.
Qed.

(** The entries of a page table that refer to a next-level table. *)
Record is_table_entry (config : PagingConfig) (e : PageTableEntry) (frame : FrameAddr)
    (user : bool) : Prop := {
  te_u64 : is_u64 e;
  te_present : is_present e = true;
  te_huge : is_huge e = false;
  te_frame : entry_physical_address e config = frame;
  te_writable : entry_writable e = true;
  te_executable : entry_executable e = true;
  te_user : is_user_accessible e = user;
}.

(** The entries that map a page. *)
Record is_leaf_entry (config : PagingConfig) (e : PageTableEntry) (frame : FrameAddr)
    (p : PagePermissions) : Prop := {
  le_u64 : is_u64 e;
  le_present : is_present e = true;
  le_huge : is_huge e = false;
  le_frame : entry_physical_address e config = frame;
  le_permissions : entry_permissions e = p;
}.

Ltac entry_bit Hc Hf Hb :=
  rewrite Hb by lia; rewrite (frame_ok_bits _ _ _ Hc Hf) by (destruct Hc; lia); simpl.

Lemma entry_new_decode config frame p cp g e :
  config_wf config → frame_ok config frame →
  PageTableEntry_new frame p cp config g = Ok e → is_leaf_entry config e frame p.
Proof.
  intros Hc Hf H. pose proof (λ n, entry_new_bits frame p cp config g e n H) as Hb.
  assert (Hfl : ∀ n, 8 < n → n ≠ 63 → flag_bits p cp config g n = false).
  { intros n Hn Hn'. unfold flag_bits.
    rewrite !(proj2 (Z.eqb_neq n _)) by lia. destruct cp; simpl; by rewrite !andb_false_r. }
  split.
  - apply (entry_bits_u64 config e frame (flag_bits p cp config g)); auto.
    intros n Hn. apply Hfl; lia.
  - rewrite is_present_bit. by entry_bit Hc Hf Hb.
  - rewrite is_huge_bit. entry_bit Hc Hf Hb. unfold flag_bits. destruct cp; simpl;
      by rewrite !andb_false_r.
  - apply entry_physical_address_bits; [done..|]. intros n Hn. destruct Hc.
    rewrite Hb, Hfl by lia. apply orb_false_r.
  - unfold entry_permissions.
    rewrite entry_writable_bit, entry_executable_bit, is_user_bit, !Hb by done.
    rewrite !(frame_ok_bits _ _ _ Hc Hf) by (destruct Hc; lia).
    destruct p as [w x u], cp; unfold flag_bits; simpl;
      rewrite ?andb_false_r, ?andb_true_r, ?orb_false_r; simpl; by rewrite ?negb_involutive.
Qed.

Lemma entry_new_table_decode config frame user e :
  config_wf config → frame_ok config frame →
  PageTableEntry_new_table frame user config = Ok e → is_table_entry config e frame user.
Proof.
  intros Hc Hf H. pose proof (λ n, entry_new_table_bits frame user config e n H) as Hb.
  split.
  - apply (entry_bits_u64 config e frame (λ n, (n =? 0) || (n =? 1) || (user && (n =? 2)))); auto.
    intros n Hn. rewrite !(proj2 (Z.eqb_neq n _)) by lia. apply andb_false_r.
  - rewrite is_present_bit. by entry_bit Hc Hf Hb.
  - rewrite is_huge_bit. entry_bit Hc Hf Hb. apply andb_false_r.
  - apply entry_physical_address_bits; [done..|]. intros n Hn.
    rewrite Hb, !(proj2 (Z.eqb_neq n _)) by lia. rewrite andb_false_r. apply orb_false_r.
  - rewrite entry_writable_bit. by entry_bit Hc Hf Hb.
  - rewrite entry_executable_bit. entry_bit Hc Hf Hb. by rewrite andb_false_r.
  - rewrite is_user_bit. entry_bit Hc Hf Hb. apply andb_true_r.
Qed.

(** [map]'s upgrade: making an entry user accessible changes that flag only. *)
Lemma testbit_user_upgrade e n :
  0 ≤ n → Z.testbit (Z.lor e USER_ACCESSIBLE) n = Z.testbit e n || (n =? 2).
Proof.
  intros Hn. unfold USER_ACCESSIBLE.
  rewrite Z.lor_spec, Z.shiftl_1_l, Z.pow2_bits_eqb, (Z.eqb_sym 2 n) by done. done.
Qed.

Lemma user_upgrade_flags e :
  is_present (Z.lor e USER_ACCESSIBLE) = is_present e ∧
  is_huge (Z.lor e USER_ACCESSIBLE) = is_huge e ∧
  entry_writable (Z.lor e USER_ACCESSIBLE) = entry_writable e ∧
  entry_executable (Z.lor e USER_ACCESSIBLE) = entry_executable e ∧
  is_user_accessible (Z.lor e USER_ACCESSIBLE) = true.
Proof.
  rewrite !is_present_bit, !is_huge_bit, !entry_writable_bit, !entry_executable_bit, !is_user_bit.
  rewrite !testbit_user_upgrade by done. simpl. by rewrite !orb_false_r, orb_true_r.
Qed.

Lemma user_upgrade_address config e :
  config_wf config →
  entry_physical_address (Z.lor e USER_ACCESSIBLE) config = entry_physical_address e config.
Proof.
  intros Hc. apply Z.bits_inj'. intros n Hn. unfold entry_physical_address.
  rewrite !Z.land_spec, testbit_mask, testbit_user_upgrade by done.
  destruct (Z.eqb_spec n 2); [subst; by rewrite !andb_false_r|]. by rewrite orb_false_r.
Qed.

Lemma user_upgrade_id e : is_user_accessible e = true → Z.lor e USER_ACCESSIBLE = e.
Proof.
  rewrite is_user_bit. intros H. apply Z.bits_inj'. intros n Hn.
  rewrite testbit_user_upgrade by done.
  destruct (Z.eqb_spec n 2); [by subst; rewrite H|apply orb_false_r].
Qed.

Lemma user_upgrade_u64 e : is_u64 e → is_u64 (Z.lor e USER_ACCESSIBLE).
Proof.
  intros [H0 H]%is_u64_bits. apply is_u64_bits. split.
  - apply Z.lor_nonneg. done.
  - intros n Hn. rewrite testbit_user_upgrade, H, (proj2 (Z.eqb_neq n 2)) by lia. done.
Qed.

(** The frame an entry names is always aligned: the mask clears the offset bits. *)
Lemma entry_physical_address_aligned config e :
  config_wf config → entry_physical_address e config mod FRAME_SIZE = 0.
Proof.
  intros Hc. change FRAME_SIZE with (2 ^ 12). rewrite <- Z.land_ones by done.
  apply Z.bits_inj'. intros n Hn. unfold entry_physical_address.
  rewrite !Z.land_spec, testbit_mask, Z.testbit_ones_nonneg, Z.bits_0 by done.
  repeat case_bool; simpl; rewrite ?andb_false_r; lia || done.
Qed.

Lemma entry_physical_address_ok config e :
  config_wf config → frame_ok config (entry_physical_address e config).
Proof.
  intros Hc. split; [|by apply entry_physical_address_aligned].
  unfold entry_physical_address, physical_address_limit. rewrite Z.shiftl_1_l.
  assert (E : Z.land e (physical_address_mask config) =
    Z.land (Z.land e (physical_address_mask config)) (Z.ones (physical_address_bits config))).
  { apply Z.bits_inj'. intros n Hn. destruct Hc as [Hc1 Hc2].
    rewrite !Z.land_spec, testbit_mask, Z.testbit_ones_nonneg by (done || lia).
    repeat case_bool; simpl; by rewrite ?andb_false_r, ?andb_true_r. }
  rewrite E, Z.land_ones by (destruct Hc; lia). apply Z.mod_pos_bound.
  apply Z.pow_pos_nonneg; destruct Hc; lia.
Qed.

Lemma frame_addr_aligned a : a mod FRAME_SIZE = 0 → FrameAddr_from_start_address a = Some a.
Proof. intros H. unfold FrameAddr_from_start_address. by rewrite H. Qed.

Lemma entry_table_frame_eq config e :
  config_wf config →
  entry_table_frame e config =
  if negb (is_present e) || is_huge e then None else Some (entry_physical_address e config).
Proof.
  intros. unfold entry_table_frame. rewrite frame_addr_aligned; [done|].
  by apply entry_physical_address_aligned.
Qed.

Lemma entry_leaf_frame_eq config e :
  config_wf config →
  entry_leaf_frame e config = if negb (is_present e) then None else Some (entry_physical_address e config).
Proof.
  intros. unfold entry_leaf_frame. rewrite frame_addr_aligned; [done|].
  by apply entry_physical_address_aligned.
Qed.

(** * Entries round-trip *)

Lemma entry_new_error_cause frame perms cp config g e :
  PageTableEntry_new frame perms cp config g = Err e →
  match e with
  | EntryPhysicalAddressTooLarge => physical_address_limit config ≤ frame
  | EntryNoExecuteUnsupported => executable perms = false ∧ nx_enabled config = false
  end.
Proof.
  unfold PageTableEntry_new. destruct (Z.leb_spec (physical_address_limit config) frame).
  { by intros [= <-]. }
  destruct (executable perms), (nx_enabled config); simpl; intros [=]; by subst.
Qed.

Lemma entry_new_Ok_lt frame perms cp config g e :
  PageTableEntry_new frame perms cp config g = Ok e → frame < physical_address_limit config.
Proof. unfold PageTableEntry_new. destruct (Z.leb_spec (physical_address_limit config) frame); done. Qed.

Lemma entry_new_global frame perms cp config g e :
  config_wf config → frame_ok config frame →
  PageTableEntry_new frame perms cp config g = Ok e → is_global e = g && global_pages config.
Proof.
  intros Hc Hf H. rewrite is_global_bit, (entry_new_bits _ _ _ _ _ _ _ H) by done.
  rewrite (frame_ok_bits _ _ _ Hc Hf) by (destruct Hc; lia). unfold flag_bits. simpl.
  by destruct cp; simpl; rewrite !andb_false_r, ?orb_false_r, ?andb_true_r.
Qed.

(** What [PageTableEntry::new] encodes, the accessors decode: the frame, the three
    permissions and the global flag, never as a huge page; and it refuses only frames
    beyond the physical address width and no-execute mappings without NX support. *)
Theorem entry_roundtrip (config : PagingConfig) (frame : FrameAddr) (perms : PagePermissions)
    (cp : CachePolicy) (g : bool) :
  config_wf config → is_u64 frame → frame mod FRAME_SIZE = 0 →
  match PageTableEntry_new frame perms cp config g with
  | Ok e => is_u64 e ∧ entry_leaf_frame e config = Some frame ∧ entry_permissions e = perms ∧
      is_huge e = false ∧ is_global e = g && global_pages config
  | Err EntryPhysicalAddressTooLarge => physical_address_limit config ≤ frame
  | Err EntryNoExecuteUnsupported => executable perms = false ∧ nx_enabled config = false
  end.
Proof.
  intros Hc Hu Hal. destruct (PageTableEntry_new frame perms cp config g) as [e|e] eqn:E.
  2:{ apply entry_new_error_cause in E. by destruct e. }
  pose proof (entry_new_Ok_lt _ _ _ _ _ _ E) as Hlt.
  assert (frame_ok config frame) as Hf by (split; [unfold is_u64 in Hu; lia|done]).
  pose proof (entry_new_decode _ _ _ _ _ _ Hc Hf E) as [D1 D2 D3 D4 D5].
  rewrite entry_leaf_frame_eq, D2, D4, (entry_new_global _ _ _ _ _ _ Hc Hf E) by done. done.
Qed.

Lemma entry_roundtrip_witness :
  ∃ e, PageTableEntry_new 0x5000 (mkPagePermissions true false true) Uncacheable
         (mkPagingConfig 40 true true FourLevel) true = Ok e ∧
       entry_leaf_frame e (mkPagingConfig 40 true true FourLevel) = Some 0x5000 ∧
       entry_permissions e = mkPagePermissions true false true.
Proof.
  pose proof (entry_roundtrip (mkPagingConfig 40 true true FourLevel) 0x5000
    (mkPagePermissions true false true) Uncacheable true) as H.
  eexists. split; [reflexivity|].
  destruct H as (_ & H1 & H2 & _); [split; simpl; lia|done|done|]. split; [exact H1|exact H2].
Defined.
