(* ===== verification/Features.v ===== *)
(** * Features of the processor

    Model of [detect_features_and_enable] of [src/arch/x86_64/cpu.rs]: what CPUID must report for the
    kernel to run, and which control bits are set.  CPUID is a parameter; the two control registers
    that the function writes keep what is written to them. *)

From S2P Require Import Prelude Memory Bytes Frame Paging.

(** ** Definitions *)

Inductive CpuFeaturesError :=
| CpuidFeaturesNotSupported | SyscallNotSupported | InvalidPhysicalAddressWidth | InvalidVirtualAddressWidth.

Record CpuidResult := mkCpuidResult { eax : Z; ebx : Z; ecx : Z; edx : Z }.

(** [IA32_EFER] and CR4. *)
Record ControlRegs := mkControlRegs { efer : Z; cr4 : Z }.

Definition read_efer : M ControlRegs Z := gets efer.
Definition write_efer (v : Z) : M ControlRegs unit := modify (λ c, mkControlRegs v (cr4 c)).
Definition read_cr4 : M ControlRegs Z := gets cr4.
Definition write_cr4 (v : Z) : M ControlRegs unit := modify (λ c, mkControlRegs (efer c) v).

Definition bit_set (v i : Z) : bool := negb (Z.land v (Z.shiftl 1 i) =? 0).

Section detect.
Context (cpuid : Z → CpuidResult).

Definition detect_features_and_enable : M ControlRegs (result CpuFeatures CpuFeaturesError) :=
  let cpuid_result := cpuid 0x80000000 in
  if eax cpuid_result <? 0x80000008 then ret (Err CpuidFeaturesNotSupported)
  else
    let cpuid_result := cpuid 0x80000001 in
    let nx_supported := bit_set (edx cpuid_result) 20 in
    let syscall_supported := bit_set (edx cpuid_result) 11 in
    if negb syscall_supported then ret (Err SyscallNotSupported)
    else
      let! e := read_efer in
      do! write_efer (Z.lor e 1) ;;;
      let cpuid_result := cpuid 0x80000008 in
      let physical_address_bits := Z.land (eax cpuid_result) 0xFF in
      if negb ((12 <=? physical_address_bits) && (physical_address_bits <=? 52))
      then ret (Err InvalidPhysicalAddressWidth)
      else
        let virtual_address_bits := Z.land (Z.shiftr (eax cpuid_result) 8) 0xFF in
        let! c := read_cr4 in
        let five_level_paging_active := bit_set c 12 in
        let required_virtual_address_bits := if five_level_paging_active then 57 else 48 in
        if virtual_address_bits <? required_virtual_address_bits then ret (Err InvalidVirtualAddressWidth)
        else
          let cpuid_result := cpuid 1 in
          let global_pages := bit_set (edx cpuid_result) 13 in
          do! (if global_pages then let! c := read_cr4 in write_cr4 (Z.lor c (Z.shiftl 1 7)) else ret tt) ;;;
          let features nx_enabled :=
            mkCpuFeatures nx_supported nx_enabled global_pages physical_address_bits virtual_address_bits
              five_level_paging_active in
          if nx_supported then
            let msr_supported := bit_set (edx cpuid_result) 5 in
            if negb msr_supported then ret (Err CpuidFeaturesNotSupported)
            else
              let! e := read_efer in
              do! write_efer (Z.lor e (Z.shiftl 1 11)) ;;;
              let! e := read_efer in
              ret (Ok (features (bit_set e 11)))
          else ret (Ok (features false)).
End detect.

(** ** Specification *)

(** The processor as CPUID describes it. *)
Record Processor := mkProcessor {
  p_extended : bool; p_syscall : bool; p_nx : bool; p_global : bool; p_msr : bool; p_physical : Z; p_virtual : Z;
}.

Definition processor_of (cpuid : Z → CpuidResult) : Processor :=
  mkProcessor (0x80000008 <=? eax (cpuid 0x80000000)) (Z.testbit (edx (cpuid 0x80000001)) 11)
    (Z.testbit (edx (cpuid 0x80000001)) 20) (Z.testbit (edx (cpuid 1)) 13) (Z.testbit (edx (cpuid 1)) 5)
    (Z.land (eax (cpuid 0x80000008)) 0xFF) (Z.land (Z.shiftr (eax (cpuid 0x80000008)) 8) 0xFF).

(** What is missing, in the order in which it is found out; [la57]: five-level paging is on. *)
Definition missing (p : Processor) (la57 : bool) : option CpuFeaturesError :=
  if negb (p_extended p) then Some CpuidFeaturesNotSupported
  else if negb (p_syscall p) then Some SyscallNotSupported
  else if (p_physical p <? 12) || (52 <? p_physical p) then Some InvalidPhysicalAddressWidth
  else if p_virtual p <? (if la57 then 57 else 48) then Some InvalidVirtualAddressWidth
  else if p_nx p && negb (p_msr p) then Some CpuidFeaturesNotSupported
  else None.

(** The bits of the control registers that may have been set: system calls, no-execute pages,
    global pages. *)
Record enabled (p : Processor) (c c' : ControlRegs) : Prop := {
  en_efer : ∀ i, Z.testbit (efer c') i = Z.testbit (efer c) i || (i =? 0) || (p_nx p && (i =? 11));
  en_cr4 : ∀ i, Z.testbit (cr4 c') i = Z.testbit (cr4 c) i || (p_global p && (i =? 7));
}.

Lemma bit_set_testbit v i : 0 ≤ i → bit_set v i = Z.testbit v i.
Proof. intros Hi. unfold bit_set. by rewrite land_pow2_eqb, negb_involutive. Qed.

Lemma lor_bit v k i : 0 ≤ k → Z.testbit (Z.lor v (Z.shiftl 1 k)) i = Z.testbit v i || (i =? k).
Proof.
  intros Hk. rewrite Z.lor_spec, Z.shiftl_1_l. f_equal. rewrite Z.pow2_bits_eqb by done. apply Z.eqb_sym.
Qed.

(** C39: The kernel accepts exactly the processors that have what it needs, and reports the first thing
    that is missing.  On an accepted one it enables system calls, and global pages and no-execute pages
    where they exist, sets no other control bit, and describes it so that the paging configuration
    built from it says no-execute exactly when it is on and has the mode of CR4.  The configuration is one
    that the theory of page tables covers under one further condition, that physical addresses have more
    than 12 bits: the code also accepts a width of exactly 12, and that one the theory leaves out. *)
Theorem features_correct (cpuid : Z → CpuidResult) (c : ControlRegs) :
  let p := processor_of cpuid in
  let la57 := Z.testbit (cr4 c) 12 in
  ∃ r c', detect_features_and_enable cpuid c = Done (r, c') ∧
  match r with
  | Err e => missing p la57 = Some e
  | Ok f => missing p la57 = None ∧ enabled p c c' ∧
      f = mkCpuFeatures (p_nx p) (p_nx p) (p_global p) (p_physical p) (p_virtual p) la57 ∧
      nx_enabled (PagingConfig_from_features f) = Z.testbit (efer c') 11 && p_nx p ∧
      (mode (PagingConfig_from_features f) = FiveLevel ↔ la57 = true) ∧
      (p_physical p ≠ 12 → config_wf (PagingConfig_from_features f))
  end.
Proof.
  cbv zeta. unfold detect_features_and_enable, missing. cbn [processor_of p_extended p_syscall p_physical p_virtual p_nx p_msr p_global].
  rewrite !bit_set_testbit by lia.
  rewrite Z.ltb_antisym. destruct (0x80000008 <=? eax (cpuid 0x80000000)); cbn [negb]; [|by eexists _, c].
  destruct (Z.testbit (edx (cpuid 0x80000001)) 11); cbn [negb]; [|by eexists _, c].
  unfold read_efer, write_efer, read_cr4, write_cr4. rewrite bind_gets, bind_modify.
  set (pb := Z.land (eax (cpuid 0x80000008)) 0xFF). set (vb := Z.land (Z.shiftr (eax (cpuid 0x80000008)) 8) 0xFF).
  destruct (Z.leb_spec 12 pb), (Z.leb_spec pb 52), (Z.ltb_spec pb 12), (Z.ltb_spec 52 pb); try lia; cbn [negb andb orb];
    try (by eexists _, _).
  rewrite bind_gets. cbn [cr4]. rewrite bit_set_testbit by lia. set (la57 := Z.testbit (cr4 c) 12).
  destruct (vb <? (if la57 then 57 else 48)); [by eexists _, _|].
  set (c1 := mkControlRegs (Z.lor (efer c) 1) (cr4 c)).
  set (pge := Z.testbit (edx (cpuid 1)) 13). set (nx := Z.testbit (edx (cpuid 0x80000001)) 20).
  set (c2 := mkControlRegs (Z.lor (efer c) 1) (if pge then Z.lor (cr4 c) (Z.shiftl 1 7) else cr4 c)).
  assert (E2 : (if pge then let! c := gets cr4 in modify (λ c0, mkControlRegs (efer c0) (Z.lor c (Z.shiftl 1 7)))
                else ret tt) c1 = Done (tt, c2)) by (unfold c1, c2; by destruct pge).
  rewrite (bind_Done _ _ _ _ _ E2).
  assert (H4 : ∀ i, Z.testbit (cr4 c2) i = Z.testbit (cr4 c) i || pge && (i =? 7)).
  { intros i. unfold c2. cbn [cr4]. destruct pge; [by rewrite lor_bit|by rewrite orb_false_r]. }
  assert (Hm : ∀ b, mode (PagingConfig_from_features (mkCpuFeatures nx b pge pb vb la57)) = FiveLevel ↔ la57 = true).
  { intros b. generalize la57. intros []; split; done. }
  assert (Hw : pb ≠ 12 → 12 < pb ≤ 52) by lia.
  assert (He : ∀ i, Z.testbit (Z.lor (efer c) 1) i = Z.testbit (efer c) i || (i =? 0)) by (intros i; exact (lor_bit (efer c) 0 i ltac:(lia))).
  destruct nx eqn:Enx; cbn [andb].
  - destruct (Z.testbit (edx (cpuid 1)) 5); cbn [negb]; [|by eexists _, _].
    rewrite bind_gets, bind_modify, bind_gets. cbn [efer]. rewrite bit_set_testbit, lor_bit, orb_true_r by lia.
    eexists _, _. split; [reflexivity|]. split; [done|]. split; [|split; [done|split; [|split; [apply Hm|exact Hw]]]].
    + constructor; intros i; [|exact (H4 i)]. change (p_nx (processor_of cpuid)) with nx. rewrite Enx. cbn [efer].
      rewrite lor_bit by lia. change (efer c2) with (Z.lor (efer c) 1). by rewrite (He i).
    + cbn [efer]. by rewrite lor_bit, orb_true_r by lia.
  - eexists _, _. split; [reflexivity|]. split; [done|]. split; [|split; [done|split; [|split; [apply Hm|exact Hw]]]].
    + constructor; intros i; [|exact (H4 i)]. change (p_nx (processor_of cpuid)) with nx. rewrite Enx. cbn [andb].
      rewrite orb_false_r. exact (He i).
    + by rewrite andb_false_r.
Qed.

(** A processor with everything, and one without a way to write the no-execute bit. *)
Example features_example :
  let cpuid f := if f =? 0x80000000 then mkCpuidResult 0x80000008 0 0 0
                 else if f =? 0x80000001 then mkCpuidResult 0 0 0 0x100800
                 else if f =? 0x80000008 then mkCpuidResult 0x3028 0 0 0 else mkCpuidResult 0 0 0 0x2020 in
  detect_features_and_enable cpuid (mkControlRegs 0x500 0x20) =
    Done (Ok (mkCpuFeatures true true true 40 48 false), mkControlRegs 0xD01 0xA0).
Proof. vm_compute. reflexivity. Qed.
