(* ===== verification/PageTree.v ===== *)
(** * The tree of page tables

    A page table seen as what the hardware walks: a graph of tables, each a function
    from indices to entries.  This file is the theory the theorems on mapping,
    unmapping and destruction share: what a walk resolves to, the tree invariant
    (every table is allocated and is reached along exactly one path), and the
    elementary changes to a tree: linking an empty table, writing a leaf, raising
    user flags and cutting an entry. *)

From S2P Require Import Prelude Memory Frame Paging.

(** Tables as the walk sees them, by frame and index. *)
Definition heap : Type := FrameAddr → usize → PageTableEntry.

Definition hupd (h : heap) (t : FrameAddr) (i : usize) (e : PageTableEntry) : heap :=
  λ f j, if (f =? t) && (j =? i) then e else h f j.

Definition idx_ok (i : Z) : Prop := 0 ≤ i < PAGE_TABLE_ENTRIES.

Lemma hupd_eq h t i e : hupd h t i e t i = e.
Proof. unfold hupd. by rewrite !Z.eqb_refl. Qed.

Lemma hupd_ne h t i e f j : (f, j) ≠ (t, i) → hupd h t i e f j = h f j.
Proof.
  intros H. unfold hupd. destruct (Z.eqb_spec f t), (Z.eqb_spec j i); simpl; congruence.
Qed.

Lemma hupd_cases h t i e f j :
  (f = t ∧ j = i ∧ hupd h t i e f j = e) ∨ ((f, j) ≠ (t, i) ∧ hupd h t i e f j = h f j).
Proof.
  destruct (decide ((f, j) = (t, i))) as [[= -> ->]|Hne].
  - left. by rewrite hupd_eq.
  - right. by rewrite hupd_ne.
Qed.

#[export] Instance EntryLocation_eq_dec : EqDecision EntryLocation.
Proof. solve_decision. Defined.

Section tree.
Context (config : PagingConfig) (Hconfig : config_wf config).

(** The table reached from [f] along a path of indices. *)
Fixpoint follow (h : heap) (f : FrameAddr) (p : list Z) : option FrameAddr :=
  match p with
  | [] => Some f
  | i :: p => g ← entry_table_frame (h f i) config; follow h g p
  end.

(** The entries the walk meets along a full path, up to the one that maps the address: a
    leaf at the end of the path, or a huge page before it. *)
Fixpoint resolve (h : heap) (f : FrameAddr) (p : list Z) : option (list PageTableEntry) :=
  match p with
  | [] => None
  | i :: q =>
      let e := h f i in
      if negb (is_present e) then None
      else match q with
           | [] => Some [e]
           | _ :: _ =>
               if is_huge e then Some [e]
               else g ← entry_table_frame e config; cons e <$> resolve h g q
           end
  end.

(** The entries met along a path of tables. *)
Fixpoint along (h : heap) (f : FrameAddr) (p : list Z) : list PageTableEntry :=
  match p with
  | [] => []
  | i :: q => h f i :: match entry_table_frame (h f i) config with
                       | Some g => along h g q
                       | None => []
                       end
  end.

(** The invariant of the tables below [root], [n] levels above the leaf tables.  Tables
    are frames of [A]; no two paths reach the same table, so there is no sharing and
    no cycle; intermediate entries never restrict writing or execution; and a page a
    user may access has no kernel-only entry on its path. *)
Record tree_inv (n : nat) (A : FrameAddr → Prop) (root : FrameAddr) (h : heap) : Prop := {
  ti_table : ∀ p f, Forall idx_ok p → (length p ≤ n)%nat → follow h root p = Some f → A f;
  ti_inj : ∀ p q f, Forall idx_ok p → Forall idx_ok q → (length p ≤ n)%nat → (length q ≤ n)%nat →
    follow h root p = Some f → follow h root q = Some f → p = q;
  ti_flags : ∀ p f i, Forall idx_ok p → idx_ok i → (length p < n)%nat → follow h root p = Some f →
    is_Some (entry_table_frame (h f i) config) →
    entry_writable (h f i) = true ∧ entry_executable (h f i) = true;
  ti_user : ∀ p es e, Forall idx_ok p → length p = S n → resolve h root p = Some (es ++ [e]) →
    is_user_accessible e = true → Forall (λ x, is_user_accessible x = true) es;
}.

Lemma table_frame_Some e g :
  entry_table_frame e config = Some g ↔
  is_present e = true ∧ is_huge e = false ∧ g = entry_physical_address e config.
Proof.
  rewrite entry_table_frame_eq by done.
  destruct (is_present e), (is_huge e); simpl; naive_solver.
Qed.

Lemma follow_app h f p q : follow h f (p ++ q) = g ← follow h f p; follow h g q.
Proof.
  revert f. induction p as [|i p IH]; intros f; simpl; [done|].
  destruct (entry_table_frame _ _); simpl; [apply IH|done].
Qed.

Lemma follow_snoc h f p i :
  follow h f (p ++ [i]) = g ← follow h f p; entry_table_frame (h g i) config.
Proof.
  rewrite follow_app. destruct (follow h f p) as [g|]; simpl; [|done].
  by destruct (entry_table_frame _ _).
Qed.

Lemma resolve_table h f i q g :
  q ≠ [] → entry_table_frame (h f i) config = Some g →
  resolve h f (i :: q) = cons (h f i) <$> resolve h g q.
Proof.
  intros Hq E. simpl. rewrite E. apply table_frame_Some in E as (-> & -> & _).
  by destruct q.
Qed.

Lemma resolve_app h f p g q :
  q ≠ [] → follow h f p = Some g →
  resolve h f (p ++ q) = app (along h f p) <$> resolve h g q.
Proof.
  intros Hq. revert f. induction p as [|i p IH]; intros f Hf; simpl in Hf.
  - injection Hf as ->. simpl. by destruct (resolve h g q).
  - destruct (entry_table_frame (h f i) config) as [g'|] eqn:E; [|done].
    change ((i :: p) ++ q) with (i :: (p ++ q)).
    rewrite (resolve_table _ _ _ _ g') by (done || by destruct p).
    rewrite IH by done. simpl. rewrite E. by destruct (resolve h g q).
Qed.

Lemma resolve_length h f p es : resolve h f p = Some es → (0 < length es ≤ length p)%nat.
Proof.
  revert f es. induction p as [|i q IH]; intros f es; simpl; [done|].
  destruct (negb _); [done|]. destruct q as [|j q]; [intros [= <-]; simpl; lia|].
  destruct (is_huge _); [intros [= <-]; simpl; lia|].
  destruct (entry_table_frame _ _) as [g|]; [|done].
  change (mbind _ (Some g)) with (cons (h f i) <$> resolve h g (j :: q)).
  destruct (resolve h g (j :: q)) as [es'|] eqn:E; [|done].
  intros [= <-]. apply IH in E. simpl in *. lia.
Qed.

Lemma along_length h f p g : follow h f p = Some g → length (along h f p) = length p.
Proof.
  revert f. induction p as [|i p IH]; intros f; simpl; [done|].
  destruct (entry_table_frame _ _); simpl; [|done]. intros H. by rewrite IH.
Qed.

(** A walk that stops early or fails does so at an entry that leads to no table. *)
Lemma follow_None h f p :
  follow h f p = None → ∃ q i r g, p = q ++ i :: r ∧ follow h f q = Some g ∧
    entry_table_frame (h g i) config = None.
Proof.
  revert f. induction p as [|i p IH]; intros f H; simpl in H; [done|].
  destruct (entry_table_frame (h f i) config) as [g|] eqn:E.
  - destruct (IH g H) as (q & j & r & g' & -> & Hq & Hj).
    exists (i :: q), j, r, g'. split_and!; [done| |done]. simpl. by rewrite E.
  - by exists [], i, p, f.
Qed.

(** ** Walks depend only on the entries they meet *)

Lemma walk_ext h h' f p :
  (∀ q j g, (q ++ [j]) `prefix_of` p → follow h f q = Some g → h' g j = h g j) →
  follow h' f p = follow h f p ∧ resolve h' f p = resolve h f p ∧ along h' f p = along h f p.
Proof.
  revert f. induction p as [|i p IH]; intros f H; [done|].
  assert (Hi : h' f i = h f i) by (apply (H [] i f); [by exists p|done]).
  simpl. rewrite Hi. destruct (entry_table_frame (h f i) config) as [g|] eqn:E.
  - destruct (IH g) as (Hf & Hr & Ha).
    { intros q j g' [r Hr] Hq. apply (H (i :: q) j g'); [by exists r; rewrite Hr|].
      simpl. by rewrite E. }
    change (mbind (λ g, follow h' g p) (Some g)) with (follow h' g p).
    change (mbind (λ g, follow h g p) (Some g)) with (follow h g p).
    split_and!; [done| |by rewrite Ha].
    destruct (negb _); [done|]. destruct p; [done|]. destruct (is_huge _); [done|].
    change (cons (h f i) <$> resolve h' g (z :: p) = cons (h f i) <$> resolve h g (z :: p)).
    by rewrite Hr.
  - split_and!; [done| |done]. destruct (negb _); [done|]. by destruct p.
Qed.

Lemma prefix_ok (p q : list Z) : p `prefix_of` q → Forall idx_ok q → Forall idx_ok p.
Proof. intros [r ->] H. by apply Forall_app in H as [? _]. Qed.

Section inv.
Context (n : nat) (A : FrameAddr → Prop) (root : FrameAddr) (h : heap).
Context (Hinv : tree_inv n A root h).

Lemma tree_walk_agree h' p :
  Forall idx_ok p → (length p ≤ S n)%nat → (∀ g j, A g → idx_ok j → h' g j = h g j) →
  follow h' root p = follow h root p ∧ resolve h' root p = resolve h root p ∧
  along h' root p = along h root p.
Proof.
  intros Hp Hlen Hag. apply walk_ext. intros q j g Hpre Hq.
  pose proof (prefix_ok _ _ Hpre Hp) as [Hq1 Hj]%Forall_app. apply Hag.
  - apply (ti_table _ _ _ _ Hinv q); [done| |done].
    apply prefix_length in Hpre. rewrite length_app in Hpre. simpl in Hpre. lia.
  - by apply Forall_inv in Hj.
Qed.

Lemma tree_inv_agree h' : (∀ g j, A g → idx_ok j → h' g j = h g j) → tree_inv n A root h'.
Proof.
  intros Hag. assert (Hw := λ p Hp Hl, tree_walk_agree h' p Hp Hl Hag). split.
  - intros p f Hp Hl Hf. rewrite (proj1 (Hw p Hp ltac:(lia))) in Hf. by eapply (ti_table _ _ _ _ Hinv).
  - intros p q f Hp Hq Hlp Hlq Hf Hf'.
    rewrite (proj1 (Hw p Hp ltac:(lia))) in Hf. rewrite (proj1 (Hw q Hq ltac:(lia))) in Hf'.
    by eapply (ti_inj _ _ _ _ Hinv).
  - intros p f i Hp Hi Hl Hf. rewrite (proj1 (Hw p Hp ltac:(lia))) in Hf.
    rewrite (Hag f i); [by eapply (ti_flags _ _ _ _ Hinv)| |done].
    eapply (ti_table _ _ _ _ Hinv); [done| |done]. lia.
  - intros p es e Hp Hl Hr. rewrite (proj1 (proj2 (Hw p Hp ltac:(lia)))) in Hr.
    by eapply (ti_user _ _ _ _ Hinv).
Qed.

Lemma tree_inv_weaken (A' : FrameAddr → Prop) :
  (∀ p f, Forall idx_ok p → (length p ≤ n)%nat → follow h root p = Some f → A' f) →
  tree_inv n A' root h.
Proof. intros HA. destruct Hinv. by split. Qed.

Context (p : list Z) (t : FrameAddr) (i : Z).
Context (Hp : Forall idx_ok p) (Hi : idx_ok i) (Hlen : (length p ≤ n)%nat).
Context (Hfollow : follow h root p = Some t).

(** A change of one entry is seen only by the walks through it. *)
Lemma walk_upd_other e q :
  Forall idx_ok q → (length q ≤ S n)%nat → ¬ (p ++ [i]) `prefix_of` q →
  follow (hupd h t i e) root q = follow h root q ∧
  resolve (hupd h t i e) root q = resolve h root q ∧
  along (hupd h t i e) root q = along h root q.
Proof.
  intros Hq Hl Hnp. apply walk_ext. intros r j g Hpre Hr. apply hupd_ne. intros [= -> ->].
  pose proof (prefix_ok _ _ Hpre Hq) as [Hr1 _]%Forall_app.
  assert (r = p) as ->; [|done].
  apply prefix_length in Hpre. rewrite length_app in Hpre. simpl in Hpre.
  eapply (ti_inj _ _ _ _ Hinv); [done..| |done|done|done]. lia.
Qed.

Lemma not_prefix_snoc (q : list Z) (j : Z) : ¬ (q ++ [j]) `prefix_of` q.
Proof. intros Hpre%prefix_length. rewrite length_app in Hpre. simpl in Hpre. lia. Qed.

Lemma follow_upd_self e :
  follow (hupd h t i e) root p = Some t ∧ along (hupd h t i e) root p = along h root p.
Proof.
  destruct (walk_upd_other e p) as (-> & _ & ->); [done|lia|apply not_prefix_snoc|done].
Qed.

Lemma follow_upd_through e r :
  follow (hupd h t i e) root (p ++ i :: r) =
  g ← entry_table_frame e config; follow (hupd h t i e) g r.
Proof.
  rewrite follow_app, (proj1 (follow_upd_self e)). simpl. by rewrite hupd_eq.
Qed.

Lemma resolve_upd_through e r :
  resolve (hupd h t i e) root (p ++ i :: r) =
  app (along h root p) <$> resolve (hupd h t i e) t (i :: r).
Proof.
  destruct (follow_upd_self e) as [Hf <-]. by apply resolve_app.
Qed.

Lemma resolve_absent r : is_present (h t i) = false → resolve h root (p ++ i :: r) = None.
Proof.
  intros Hnp. rewrite (resolve_app _ _ _ t) by done. simpl. by rewrite Hnp.
Qed.

(** ** Writing an entry that leads to no further table *)

(** A leaf, whose path is accessible to users if the leaf is, or a non-present entry. *)
Definition put_ok (e : PageTableEntry) : Prop :=
  is_present e = false ∨
  (length p = n ∧
   (is_user_accessible e = true → Forall (λ x, is_user_accessible x = true) (along h root p))).

Lemma follow_put e q :
  put_ok e → Forall idx_ok q → (length q ≤ n)%nat →
  follow (hupd h t i e) root q =
  if decide ((p ++ [i]) `prefix_of` q) then None else follow h root q.
Proof.
  intros He Hq Hl. case_decide as Hpre; [|apply walk_upd_other; done || lia].
  destruct Hpre as [r ->]. rewrite <- app_assoc. simpl.
  rewrite follow_upd_through. destruct He as [He|[He _]].
  - destruct (entry_table_frame e config) eqn:E; [|done].
    apply table_frame_Some in E as (E & _). congruence.
  - rewrite !length_app in Hl. simpl in Hl. lia.
Qed.

Lemma resolve_put_leaf e :
  length p = n → is_present e = true →
  resolve (hupd h t i e) root (p ++ [i]) = Some (along h root p ++ [e]).
Proof.
  intros Hl He. rewrite resolve_upd_through. simpl. rewrite hupd_eq. by rewrite He.
Qed.

Lemma resolve_put_absent e r :
  is_present e = false → resolve (hupd h t i e) root (p ++ i :: r) = None.
Proof. intros He. rewrite resolve_upd_through. simpl. rewrite hupd_eq. by rewrite He. Qed.

Lemma tree_put e : put_ok e → tree_inv n A root (hupd h t i e).
Proof.
  intros He. assert (Hf := λ q, follow_put e q He). split.
  - intros q f Hq Hl. rewrite Hf by done. case_decide; [done|]. by apply (ti_table _ _ _ _ Hinv).
  - intros q q' f Hq Hq' Hl Hl'. rewrite !Hf by done. repeat case_decide; try done.
    by apply (ti_inj _ _ _ _ Hinv).
  - intros q f j Hq Hj Hl. rewrite Hf by (done || lia). case_decide as Hnp; [done|]. intros Hqf.
    destruct (hupd_cases h t i e f j) as [(-> & -> & E)|[_ E]]; rewrite E.
    2: by apply (ti_flags _ _ _ _ Hinv q).
    intros [g Hg]. destruct He as [He|[He _]].
    + apply table_frame_Some in Hg as [Hg _]. congruence.
    + assert (q = p) as -> by (apply (ti_inj _ _ _ _ Hinv q p t); try done; lia). lia.
  - intros q es x Hq Hl Hr.
    destruct (decide ((p ++ [i]) `prefix_of` q)) as [[r ->]|Hnp].
    2:{ rewrite (proj1 (proj2 (walk_upd_other e q Hq ltac:(lia) Hnp))) in Hr.
        by eapply (ti_user _ _ _ _ Hinv). }
    rewrite <- app_assoc in Hr. simpl in Hr. destruct He as [He|[He Hu]].
    + by rewrite resolve_put_absent in Hr.
    + rewrite !length_app in Hl. simpl in Hl.
      assert (r = []) as -> by (apply length_zero_iff_nil; lia).
      rewrite resolve_upd_through in Hr. simpl in Hr. rewrite hupd_eq in Hr.
      destruct (is_present e); [|done]. simpl in Hr. injection Hr as Hr.
      apply app_inj_tail in Hr as [<- <-]. done.
Qed.

(** ** Linking an empty table *)

Context (c : FrameAddr) (e : PageTableEntry) (user : bool).
Context (Hdepth : (length p < n)%nat) (Habsent : is_present (h t i) = false).
Context (Htable : is_table_entry config e c user) (Hc : A c).
Context (Hfresh : ∀ q, Forall idx_ok q → (length q ≤ n)%nat → follow h root q ≠ Some c).
Context (Hempty : ∀ j, idx_ok j → is_present (h c j) = false).

Lemma link_edge : entry_table_frame e config = Some c.
Proof.
  apply table_frame_Some. destruct Htable. by subst.
Qed.

Lemma link_child_absent j : idx_ok j → is_present (hupd h t i e c j) = false.
Proof.
  intros Hj. rewrite hupd_ne; [by apply Hempty|]. intros [= -> _]. by apply (Hfresh p).
Qed.

Lemma follow_link q :
  Forall idx_ok q → (length q ≤ n)%nat →
  follow (hupd h t i e) root q =
  if decide (q = p ++ [i]) then Some c else follow h root q.
Proof.
  intros Hq Hl. destruct (decide ((p ++ [i]) `prefix_of` q)) as [[r ->]|Hnp].
  - apply Forall_app in Hq as [_ Hr]. rewrite <- app_assoc. simpl. rewrite follow_upd_through.
    rewrite link_edge. simpl. rewrite follow_app, Hfollow. simpl.
    assert (entry_table_frame (h t i) config = None) as ->.
    { destruct (entry_table_frame (h t i) config) eqn:E; [|done].
      apply table_frame_Some in E as [E _]. congruence. }
    destruct r as [|j r]; simpl; [by rewrite decide_True|].
    rewrite decide_False by (intros E%app_inv_head; done).
    apply Forall_cons in Hr as [Hj _].
    destruct (entry_table_frame (hupd h t i e c j) config) eqn:E; [|done].
    apply table_frame_Some in E as [E _]. by rewrite link_child_absent in E.
  - rewrite decide_False by (intros ->; by apply Hnp). by apply walk_upd_other; [..|lia|].
Qed.

Lemma resolve_link q :
  Forall idx_ok q → length q = S n → resolve (hupd h t i e) root q = resolve h root q.
Proof.
  intros Hq Hl. destruct (decide ((p ++ [i]) `prefix_of` q)) as [[r ->]|Hnp].
  2: by apply walk_upd_other; [..|lia|].
  apply Forall_app in Hq as [_ Hr]. rewrite <- app_assoc in *. simpl in *.
  rewrite resolve_absent by done. rewrite resolve_upd_through.
  destruct r as [|j r]; [rewrite !length_app in Hl; simpl in Hl; lia|].
  apply Forall_cons in Hr as [Hj _].
  rewrite (resolve_table _ _ _ _ c) by (done || rewrite hupd_eq; apply link_edge).
  simpl. by rewrite link_child_absent by done.
Qed.

Lemma tree_link : tree_inv n A root (hupd h t i e).
Proof.
  split.
  - intros q f Hq Hl. rewrite follow_link by done. case_decide; [by intros [= <-]|].
    by apply (ti_table _ _ _ _ Hinv).
  - intros q q' f Hq Hq' Hl Hl'. rewrite !follow_link by done.
    repeat case_decide; subst; try done.
    + intros [= <-] Hx. by apply Hfresh in Hx.
    + intros Hx [= <-]. by apply Hfresh in Hx.
    + by apply (ti_inj _ _ _ _ Hinv).
  - intros q f j Hq Hj Hl. rewrite follow_link by (done || lia). case_decide as E; intros Hf.
    + injection Hf as <-. intros [g Hg]. apply table_frame_Some in Hg as [Hg _].
      by rewrite link_child_absent in Hg.
    + destruct (hupd_cases h t i e f j) as [(-> & -> & Ee)|[_ Ee]]; rewrite Ee.
      * intros _. by destruct Htable.
      * by apply (ti_flags _ _ _ _ Hinv q).
  - intros q es x Hq Hl. rewrite resolve_link by done. by apply (ti_user _ _ _ _ Hinv).
Qed.

Lemma along_link : along (hupd h t i e) root (p ++ [i]) = along h root p ++ [e].
Proof.
  assert (Hgen : ∀ f q g, follow (hupd h t i e) f q = Some g →
    along (hupd h t i e) f (q ++ [i]) = along (hupd h t i e) f q ++ [hupd h t i e g i]).
  { intros f q. revert f. induction q as [|j q IH]; intros f g; simpl.
    - intros [= ->]. by destruct (entry_table_frame _ _).
    - destruct (entry_table_frame _ _) as [g'|]; [|done]. simpl. intros Hg. by rewrite (IH _ g). }
  destruct (follow_upd_self e) as [Hf Ha]. rewrite (Hgen _ _ t Hf), Ha. by rewrite hupd_eq.
Qed.
End inv.

(** ** Raising user flags *)

Definition upgrade (h : heap) (ups : list EntryLocation) : heap := λ f i,
  if bool_decide (mkEntryLocation f i ∈ ups) then Z.lor (h f i) USER_ACCESSIBLE else h f i.

(** [y] is [x], perhaps with the user flag raised. *)
Definition raised (x y : PageTableEntry) : Prop := y = x ∨ y = Z.lor x USER_ACCESSIBLE.

Lemma upgrade_raised h ups f i : raised (h f i) (upgrade h ups f i).
Proof. unfold upgrade. case_bool_decide; [by right|by left]. Qed.

Lemma raised_flags x y :
  raised x y →
  is_present y = is_present x ∧ is_huge y = is_huge x ∧ entry_writable y = entry_writable x ∧
  entry_executable y = entry_executable x ∧
  (is_user_accessible x = true → is_user_accessible y = true) ∧
  entry_table_frame y config = entry_table_frame x config.
Proof.
  intros [->| ->]; [done|]. destruct (user_upgrade_flags x) as (E1 & E2 & E3 & E4 & E5).
  rewrite !entry_table_frame_eq, E1, E2, E3, E4, E5 by done.
  by rewrite user_upgrade_address by done.
Qed.

Lemma follow_upgrade h ups f p : follow (upgrade h ups) f p = follow h f p.
Proof.
  revert f. induction p as [|i p IH]; intros f; simpl; [done|].
  destruct (raised_flags _ _ (upgrade_raised h ups f i)) as (_ & _ & _ & _ & _ & ->).
  destruct (entry_table_frame _ _); simpl; [apply IH|done].
Qed.

(** What a walk resolves to, with user flags raised on the way. *)
Definition raised_walk (es es' : list PageTableEntry) : Prop :=
  ∃ pre pre' e, es = pre ++ [e] ∧ es' = pre' ++ [e] ∧ Forall2 raised pre pre'.

Section upgrade.
Context (n : nat) (A : FrameAddr → Prop) (root : FrameAddr) (h : heap) (ups : list EntryLocation).
Context (Hinv : tree_inv n A root h).
Context (Hups : ∀ loc, loc ∈ ups → ∃ p, Forall idx_ok p ∧ (length p < n)%nat ∧
  follow h root p = Some (loc_table loc) ∧
  is_Some (entry_table_frame (h (loc_table loc) (loc_index loc)) config)).

(** No entry a walk ends in is raised. *)
Lemma upgrade_end p f i :
  Forall idx_ok p → (length p ≤ n)%nat → follow h root p = Some f →
  length p = n ∨ is_huge (h f i) = true → upgrade h ups f i = h f i.
Proof.
  intros Hp Hl Hf Hend. unfold upgrade. case_bool_decide as Hin; [|done].
  destruct (Hups _ Hin) as (q & Hq & Hlq & Hfq & [g Hg]). simpl in *.
  assert (p = q) as -> by (apply (ti_inj _ _ _ _ Hinv p q f); auto with lia).
  apply table_frame_Some in Hg as (_ & Hg & _).
  destruct Hend; [lia|congruence].
Qed.

Lemma resolve_upgrade p f q :
  Forall idx_ok p → follow h root p = Some f → (length p + length q = S n)%nat →
  Forall idx_ok q →
  option_Forall2 raised_walk (resolve h f q) (resolve (upgrade h ups) f q).
Proof.
  revert p f. induction q as [|i q IH]; intros p f Hp Hf Hl Hq; [constructor|].
  simpl in Hl. apply Forall_cons in Hq as [Hi Hq].
  pose proof (raised_flags _ _ (upgrade_raised h ups f i)) as (Ep & Eh & _ & _ & _ & Et).
  simpl. rewrite Ep, Eh, Et.
  destruct (is_present (h f i)) eqn:Epr; simpl; [|constructor].
  assert (Hsame : length p = n ∨ is_huge (h f i) = true →
    option_Forall2 raised_walk (Some [h f i]) (Some [upgrade h ups f i])).
  { intros Hend. rewrite (upgrade_end p f i) by (done || lia).
    constructor. by exists [], [], (h f i). }
  destruct q as [|j q]; [apply Hsame; left; simpl in Hl; lia|].
  destruct (is_huge (h f i)) eqn:Ehu; [apply Hsame; by right|].
  destruct (entry_table_frame (h f i) config) as [g|] eqn:Eg; [|constructor].
  change (option_Forall2 raised_walk (cons (h f i) <$> resolve h g (j :: q))
    (cons (upgrade h ups f i) <$> resolve (upgrade h ups) g (j :: q))).
  assert (follow h root (p ++ [i]) = Some g) as Hg by (rewrite follow_snoc, Hf; done).
  destruct (IH (p ++ [i]) g) as [es es' (pre & pre' & e & -> & -> & HF)|]; [|done|..|constructor].
  - apply Forall_app. split; [done|by constructor].
  - rewrite length_app. simpl in *. lia.
  - done.
  - constructor. exists (h f i :: pre), (upgrade h ups f i :: pre'), e.
    split_and!; [done..|]. constructor; [apply upgrade_raised|done].
Qed.

Lemma raised_user pre pre' :
  Forall2 raised pre pre' → Forall (λ x, is_user_accessible x = true) pre →
  Forall (λ x, is_user_accessible x = true) pre'.
Proof.
  intros HF Hu. induction HF as [|x y pre pre' Hr HF IH]; [done|].
  apply Forall_cons in Hu as [Hx Hu]. constructor; [|by apply IH].
  by apply (raised_flags _ _ Hr).
Qed.

Lemma tree_upgrade : tree_inv n A root (upgrade h ups).
Proof.
  split.
  - intros p f. rewrite follow_upgrade. apply (ti_table _ _ _ _ Hinv).
  - intros p q f. rewrite !follow_upgrade. apply (ti_inj _ _ _ _ Hinv).
  - intros p f i. rewrite follow_upgrade. intros Hp Hi Hl Hf.
    pose proof (raised_flags _ _ (upgrade_raised h ups f i)) as (_ & _ & -> & -> & _ & ->).
    by apply (ti_flags _ _ _ _ Hinv p).
  - intros p es e Hp Hl Hr Hu.
    pose proof (resolve_upgrade [] root p (Forall_nil_2 _) eq_refl Hl Hp) as HF. rewrite Hr in HF.
    inversion HF as [es0 es' (pre & pre' & x & -> & E & HF') Hr' E'|]; subst; clear HF.
    apply app_inj_tail in E as [-> ->].
    eapply raised_user; [done|]. by apply (ti_user _ _ _ _ Hinv p pre x).
Qed.
End upgrade.

(** ** Effective permissions *)

(** Every entry on the way restricts the access. *)
Definition walk_permissions (es : list PageTableEntry) : PagePermissions :=
  mkPagePermissions (forallb entry_writable es) (forallb entry_executable es)
    (forallb is_user_accessible es).

Lemma raised_permissions pre pre' e :
  Forall2 raised pre pre' →
  (is_user_accessible e = true → Forall (λ x, is_user_accessible x = true) pre) →
  walk_permissions (pre' ++ [e]) = walk_permissions (pre ++ [e]).
Proof.
  intros HF Hu. unfold walk_permissions. rewrite !forallb_app. simpl. rewrite !andb_true_r.
  assert (forallb entry_writable pre' = forallb entry_writable pre ∧
    forallb entry_executable pre' = forallb entry_executable pre) as [-> ->].
  { clear Hu. induction HF as [|x y pre pre' Hr HF [IH1 IH2]]; simpl; [done|].
    destruct (raised_flags _ _ Hr) as (_ & _ & -> & -> & _). by rewrite IH1, IH2. }
  f_equal. destruct (is_user_accessible e); [|by rewrite !andb_false_r].
  specialize (Hu eq_refl). rewrite !andb_true_r.
  pose proof (raised_user _ _ HF Hu) as Hu'.
  transitivity true; [|symmetry]; apply forallb_forall; intros x Hx;
    [rewrite Forall_forall in Hu'; apply Hu'|rewrite Forall_forall in Hu; apply Hu];
    by apply list_elem_of_In.
Qed.

(** ** Publishing a chain of new tables that ends in a leaf *)

Section publish.
Context (E : FrameAddr → PageTableEntry) (leaf : PageTableEntry).

(** Below entry [is] of [t]: the tables [ts], each linked from its predecessor, then the
    leaf. *)
Fixpoint publish (h : heap) (t : FrameAddr) (ix : list Z) (ts : list FrameAddr) : heap :=
  match ix, ts with
  | i :: ix, c :: ts => publish (hupd h t i (E c)) c ix ts
  | i :: _, [] => hupd h t i leaf
  | [], _ => h
  end.

Definition heap_eq (h h' : heap) : Prop := ∀ f i, h f i = h' f i.

#[local] Instance heap_eq_equiv : Equivalence heap_eq.
Proof.
  split; [by intros h f i|by intros h h' H f i|].
  intros h1 h2 h3 H1 H2 f i. by rewrite (H1 f i), (H2 f i).
Qed.

#[local] Instance hupd_proper : Proper (heap_eq ==> eq ==> eq ==> eq ==> heap_eq) hupd.
Proof. intros h h' H t ? <- i ? <- e ? <- f j. unfold hupd. by rewrite (H f j). Qed.

#[local] Instance publish_proper : Proper (heap_eq ==> eq ==> eq ==> eq ==> heap_eq) publish.
Proof.
  intros h h' H t ? <- ix ? <- ts ? <-. revert h h' H t ts.
  induction ix as [|i ix IH]; intros h h' H t ts; simpl; [done|].
  destruct ts as [|c ts]; [by rewrite H|]. apply IH. by rewrite H.
Qed.

Lemma hupd_comm h t i e t' i' e' :
  t ≠ t' → heap_eq (hupd (hupd h t i e) t' i' e') (hupd (hupd h t' i' e') t i e).
Proof.
  intros Hne f j. unfold hupd. destruct (Z.eqb_spec f t), (Z.eqb_spec f t'); simpl; congruence.
Qed.

(** Filling the new tables before linking the first one is the same as linking first. *)
Lemma publish_last h t i e c ix ts :
  t ∉ c :: ts → heap_eq (publish (hupd h t i e) c ix ts) (hupd (publish h c ix ts) t i e).
Proof.
  revert h c ts. induction ix as [|j ix IH]; intros h c ts Hni; simpl; [done|].
  apply not_elem_of_cons in Hni as [Htc Hni].
  destruct ts as [|c' ts]; [by apply hupd_comm|].
  rewrite <- IH by done. by rewrite (hupd_comm h t i e c j) by done.
Qed.

Lemma publish_other h t i ix ts f j :
  f ∉ ts → (f, j) ≠ (t, i) → publish h t (i :: ix) ts f j = h f j.
Proof.
  revert h t i ts. induction ix as [|i' ix IH]; intros h t i ts Hf Hne; destruct ts as [|c ts]; simpl.
  1-3: by apply hupd_ne.
  apply not_elem_of_cons in Hf as [Hfc Hf]. change (publish (hupd h t i (E c)) c (i' :: ix) ts f j = h f j).
  rewrite IH; [by apply hupd_ne|done|congruence].
Qed.

Lemma upgrade_hupd h ups t i e :
  mkEntryLocation t i ∉ ups → heap_eq (upgrade (hupd h t i e) ups) (hupd (upgrade h ups) t i e).
Proof.
  intros Hni f j. unfold upgrade.
  destruct (hupd_cases h t i e f j) as [(-> & -> & ->)|[Hne ->]].
  - by rewrite bool_decide_false, hupd_eq.
  - by rewrite hupd_ne.
Qed.

Lemma upgrade_publish h ups t ix ts :
  (∀ loc, loc ∈ ups → loc_table loc ∉ t :: ts) →
  heap_eq (upgrade (publish h t ix ts) ups) (publish (upgrade h ups) t ix ts).
Proof.
  revert h t ts. induction ix as [|i ix IH]; intros h t ts Hni; simpl; [done|].
  assert (mkEntryLocation t i ∉ ups) as Hti.
  { intros Hin. apply (Hni _ Hin). simpl. left. }
  destruct ts as [|c ts]; [by apply upgrade_hupd|].
  rewrite IH.
  - by rewrite upgrade_hupd.
  - intros loc Hloc. specialize (Hni _ Hloc). set_solver.
Qed.

Lemma along_flags n A root h p t :
  tree_inv n A root h → Forall idx_ok p → (length p ≤ n)%nat → follow h root p = Some t →
  Forall (λ x, entry_writable x = true ∧ entry_executable x = true) (along h root p).
Proof.
  intros Hinv. revert t. induction p as [|i p IH] using rev_ind; intros t Hp Hl Hf; [constructor|].
  apply Forall_app in Hp as [Hp Hi]. rewrite length_app in Hl. simpl in Hl.
  rewrite follow_snoc in Hf. destruct (follow h root p) as [g|] eqn:Eg; [|done]. simpl in Hf.
  assert (along h root (p ++ [i]) = along h root p ++ [h g i]) as ->.
  { clear -Eg. revert root Eg. induction p as [|j p IH]; intros f Eg; simpl in *.
    - injection Eg as ->. by destruct (entry_table_frame _ _).
    - destruct (entry_table_frame (h f j) config); [|done]. simpl in *. by rewrite IH. }
  apply Forall_app. split; [apply (IH g); done || lia|]. constructor; [|done].
  apply (ti_flags _ _ _ _ Hinv p); try done || lia. by apply Forall_inv in Hi.
Qed.

Context (n : nat) (A : FrameAddr → Prop) (root : FrameAddr) (user : bool).
Context (Hleaf : is_present leaf = true).
Context (Huser : is_user_accessible leaf = true → user = true).

(** What publishing achieves: the one new path resolves to the leaf through entries that
    do not restrict it, and every other path resolves as before. *)
Record published (h h' : heap) (q : list Z) (ts : list FrameAddr) : Prop := {
  pub_inv : tree_inv n A root h';
  pub_new : ∃ es, resolve h' root q = Some (es ++ [leaf]) ∧ length es = n ∧
    Forall (λ x, entry_writable x = true ∧ entry_executable x = true) es ∧
    (user = true → Forall (λ x, is_user_accessible x = true) es);
  pub_other : ∀ q', Forall idx_ok q' → length q' = S n → q' ≠ q →
    resolve h' root q' = resolve h root q';
  pub_tables : ∀ q' f, Forall idx_ok q' → (length q' ≤ n)%nat → follow h' root q' = Some f →
    f ∈ ts ∨ follow h root q' = Some f;
}.

Lemma publish_spec h p t i ix ts :
  tree_inv n A root h → Forall idx_ok (p ++ i :: ix) →
  length (p ++ i :: ix) = S n → length ts = length ix →
  follow h root p = Some t → is_present (h t i) = false →
  (user = true → Forall (λ x, is_user_accessible x = true) (along h root p)) →
  NoDup ts →
  (∀ c, c ∈ ts → is_table_entry config (E c) c user ∧ A c ∧
     (∀ q, Forall idx_ok q → (length q ≤ n)%nat → follow h root q ≠ Some c) ∧
     (∀ j, idx_ok j → is_present (h c j) = false)) →
  published h (publish h t (i :: ix) ts) (p ++ i :: ix) ts.
Proof.
  revert h p t i ts. induction ix as [|i' ix IH]; intros h p t i ts Hinv Hq Hl Hts Hf Habs Hu Hnd Hc.
  - apply length_zero_iff_nil in Hts as ->. simpl.
    apply Forall_app in Hq as [Hp Hi]. apply Forall_inv in Hi.
    rewrite length_app in Hl. simpl in Hl. assert (length p = n) as Hpl by lia. split.
    + apply (tree_put n A) with (p := p); try done; [lia|]. right. auto.
    + exists (along h root p). rewrite (resolve_put_leaf n A) by (done || lia).
      erewrite along_length by done. split_and!; [done|done| |done].
      eapply along_flags; try done. lia.
    + intros q' Hq' Hl' Hne. apply (walk_upd_other n A) with (p := p); try done; try lia.
      intros [r ->]. apply Hne. rewrite !length_app in Hl'. simpl in Hl'.
      assert (r = []) as -> by (apply length_zero_iff_nil; lia). by rewrite app_nil_r.
    + intros q' f Hq' Hl'. rewrite (follow_put n A) with (p := p); try done; [|lia|right; auto].
      case_decide; [done|]. by right.
  - destruct ts as [|c ts]; [done|]. simpl in Hts. apply NoDup_cons in Hnd as [Hni Hnd].
    pose proof Hq as Hq0. apply Forall_app in Hq as [Hp Hi].
    apply Forall_cons in Hi as [Hi Hix]. rewrite length_app in Hl. simpl in Hl.
    destruct (Hc c) as (Hte & HA & Hfr & Hem); [left|].
    assert (Hpn : (length p < n)%nat) by lia.
    assert (Hpl : (length p ≤ n)%nat) by lia.
    set (h1 := hupd h t i (E c)). assert (Hinv1 : tree_inv n A root h1).
    { apply (tree_link n A) with (p := p) (c := c) (user := user); done. }
    assert (Hf1 := follow_link n A root h Hinv p t i Hp Hpl Hf c (E c) user Hpn Habs Hte HA Hfr Hem).
    assert (Hr1 := resolve_link n A root h Hinv p t i Hp Hpl Hf c (E c) user Hpn Habs Hte HA Hfr Hem).
    fold h1 in Hf1, Hr1.
    destruct (IH h1 (p ++ [i]) c i' ts) as [P1 P2 P3 P4]; try done.
    + by rewrite <- app_assoc.
    + rewrite !length_app in *. simpl in *. lia.
    + lia.
    + rewrite Hf1; [by rewrite decide_True| |rewrite length_app; simpl; lia].
      apply Forall_app. split; [done|by constructor].
    + unfold h1. rewrite hupd_ne; [apply Hem; by apply Forall_inv in Hix|].
      intros [= -> _]. by apply (Hfr p).
    + intros Hus. unfold h1. erewrite along_link by done. apply Forall_app.
      split; [by apply Hu|]. constructor; [|done]. rewrite (te_user _ _ _ _ Hte). done.
    + intros d Hd. destruct (Hc d) as (Hte' & HA' & Hfr' & Hem'); [by right|].
      split_and!; try done.
      * intros q Hq Hlq. rewrite Hf1 by done. case_decide; [|by apply Hfr'].
        intros [= ->]. done.
      * intros j Hj. unfold h1. rewrite hupd_ne; [by apply Hem'|].
        intros [= -> _]. by apply (Hfr' p).
    + rewrite <- app_assoc in P2, P3. simpl in P2, P3. split; [done|done| |].
      * intros q' Hq' Hl' Hne. simpl. rewrite P3 by done. by apply Hr1.
      * intros q' f Hq' Hl' Hfq. destruct (P4 q' f Hq' Hl' Hfq) as [?|Hf']; [left; by right|].
        rewrite Hf1 in Hf' by done. case_decide; [injection Hf' as <-; left; left|by right].
Qed.
End publish.
End tree.
