(* ===== verification/PageMap.v ===== *)
(** * Correctness of page-table operations

    The theorems about [PageTable] of [Paging]: translation, mapping, unmapping and
    destruction, proved over the tree of [PageTree] and the contract of the frame
    allocator in [Frame]. *)

From S2P Require Import Prelude Memory Frame Paging PageTree.

(** The indices the walk for [a] uses, the leaf index last. *)
Definition path_of (lvls : list PageTableLevel) (a : usize) : list Z :=
  map (λ lv, level_index lv a) lvls ++ [p1_index a].

Definition path (self : PageTable) (a : usize) : list Z := path_of (levels self) a.

(** The tables in memory, through the direct map. *)
Definition heap_of (self : PageTable) (m : memory) : heap := λ f i,
  entry_at m (f + offset (pt_direct_map self)) i.

(** A frame that may hold a table: tracked, allocated, and addressable by an entry. *)
Definition table_ok (config : PagingConfig) (l : list FrameState) (f : FrameAddr) : Prop :=
  frame_ok config f ∧ l !! Z.to_nat (f / FRAME_SIZE) = Some Allocated.

(** The invariant of a page table together with the frame allocator. *)
Record pt_inv (self : PageTable) (s : MState) (l : list FrameState) : Prop := {
  pi_config : config_wf (pt_config self);
  pi_alloc : fa_inv s l;
  pi_dm : direct_map (ms_fa s) = pt_direct_map self;
  pi_tree : tree_inv (pt_config self) (length (levels self)) (table_ok (pt_config self) l)
              (pt_frame self) (heap_of self (ms_mem s));
}.

(** [f] is one of the tables of the page table. *)
Definition own_table (self : PageTable) (m : memory) (f : FrameAddr) : Prop :=
  ∃ p, Forall idx_ok p ∧ (length p ≤ length (levels self))%nat ∧
    follow (pt_config self) (heap_of self m) (pt_frame self) p = Some f.

Lemma index_range a k : 0 ≤ k → idx_ok (Z.land (Z.shiftr a k) 0x1FF).
Proof.
  intros. change 0x1FF with (Z.ones 9). rewrite Z.land_ones by done.
  apply Z.mod_pos_bound. done.
Qed.

Lemma level_index_ok lv a : idx_ok (level_index lv a).
Proof. apply index_range. by destruct lv. Qed.

Lemma p1_index_ok a : idx_ok (p1_index a).
Proof. by apply index_range. Qed.

Lemma path_of_ok lvls a : Forall idx_ok (path_of lvls a).
Proof.
  apply Forall_app. split; [|constructor; [apply p1_index_ok|done]].
  apply Forall_forall. intros i (lv & -> & _)%list_elem_of_fmap. apply level_index_ok.
Qed.

Lemma path_of_length lvls a : length (path_of lvls a) = S (length lvls).
Proof. unfold path_of. rewrite length_app, length_map. simpl. lia. Qed.

(** ** Frames and addresses *)

Lemma table_ok_index config l f :
  table_ok config l f → f = Z.of_nat (Z.to_nat (f / FRAME_SIZE)) * FRAME_SIZE.
Proof. intros [[[H0 _] Hal] _]. unfold FRAME_SIZE in *. rewrite Z2Nat.id; dmlia. Qed.

Section frames.
Context (s : MState) (l : list FrameState) (Hfa : fa_inv s l).

Lemma table_ok_translate config f :
  table_ok config l f → DirectMap_translate (direct_map (ms_fa s)) f =
    Some (f + offset (direct_map (ms_fa s))).
Proof.
  intros Hf. pose proof (table_ok_index _ _ _ Hf) as Hi. destruct Hf as [_ Hf].
  apply translate_lt. pose proof (inv_index_bound _ _ Hfa _ _ Hf) as Hlt.
  pose proof (inv_cover _ _ Hfa) as Hc. unfold frame_virt, FRAME_SIZE in *. lia.
Qed.

Lemma table_ok_in_frame config f j b :
  table_ok config l f → idx_ok j → 0 ≤ b < 8 →
  in_frame (direct_map (ms_fa s)) (Z.of_nat (Z.to_nat (f / FRAME_SIZE)))
    (f + offset (direct_map (ms_fa s)) + 8 * j + b).
Proof.
  intros Hf Hj Hb. pose proof (table_ok_index _ _ _ Hf) as Hi.
  unfold in_frame, frame_virt, idx_ok, PAGE_TABLE_ENTRIES in *. rewrite <- Hi.
  unfold FRAME_SIZE. lia.
Qed.

Lemma table_ok_off_bitmap config f j b :
  table_ok config l f → idx_ok j → 0 ≤ b < 8 →
  outside_bitmap s (f + offset (direct_map (ms_fa s)) + 8 * j + b).
Proof.
  intros Hf Hj Hb. eapply off_bitmap_outside; [|by eapply table_ok_in_frame].
  eapply (inv_storage _ _ Hfa); [apply Hf|done].
Qed.
End frames.

(** Two table entries are the same entry or do not overlap. *)
Lemma entry_disjoint f g i j :
  f mod FRAME_SIZE = 0 → g mod FRAME_SIZE = 0 → idx_ok i → idx_ok j → (f, i) ≠ (g, j) →
  f + 8 * i + 8 ≤ g + 8 * j ∨ g + 8 * j + 8 ≤ f + 8 * i.
Proof.
  unfold FRAME_SIZE, idx_ok, PAGE_TABLE_ENTRIES. intros Hf Hg Hi Hj Hne.
  destruct (decide (f = g)) as [->|Hfg].
  - assert (i ≠ j) by congruence. lia.
  - dmlia.
Qed.

Section bridge.
Context (self : PageTable).
Abbreviation h_of := (heap_of self).
Abbreviation off := (offset (pt_direct_map self)).
Abbreviation cfg := (pt_config self).
Abbreviation nlev := (length (levels self)).

Lemma heap_of_set m t i e f j :
  t mod FRAME_SIZE = 0 → f mod FRAME_SIZE = 0 → idx_ok i → idx_ok j → is_u64 e →
  h_of (set_entry m (t + off) i e) f j = hupd (h_of m) t i e f j.
Proof.
  intros Ht Hf Hi Hj He.
  destruct (hupd_cases (h_of m) t i e f j) as [(-> & -> & ->)|[Hne ->]].
  - by apply load64_store64_eq.
  - apply load64_store64_ne. destruct (entry_disjoint f t j i) as [H|H]; try done; lia.
Qed.

Context (s : MState) (l : list FrameState) (Hinv : pt_inv self s l).

Lemma own_table_ok f : own_table self (ms_mem s) f → table_ok cfg l f.
Proof. intros (p & Hp & Hl & Hf). by eapply (ti_table _ _ _ _ _ (pi_tree _ _ _ Hinv)). Qed.

Lemma table_translate f : table_ok cfg l f → PageTable_table self f = Some (f + off).
Proof.
  intros Hf. unfold PageTable_table. rewrite <- (pi_dm _ _ _ Hinv).
  by eapply table_ok_translate; [apply Hinv|].
Qed.

(** ** Translation through resolved walks *)

(** The address a walk that met the entries [es] yields. *)
Fixpoint phys_from (lvls : list PageTableLevel) (a : usize) (es : list PageTableEntry) :
    option PhysicalAddr :=
  match es, lvls with
  | [e], [] => checked_add (entry_physical_address e cfg) (page_offset a)
  | [e], lv :: _ => size ← large_page_size lv; translate_huge_page e a size cfg
  | _ :: es, _ :: lvls => phys_from lvls a es
  | _, _ => None
  end.

(** Whether the walk ended in something that maps: a page, or a large enough level. *)
Fixpoint maps_from (lvls : list PageTableLevel) (es : list PageTableEntry) : bool :=
  match es, lvls with
  | [_], [] => true
  | [_], lv :: _ => bool_decide (is_Some (large_page_size lv))
  | _ :: es, _ :: lvls => maps_from lvls es
  | _, _ => false
  end.

Lemma and_permissions_assoc p q r :
  and_permissions (and_permissions p q) r = and_permissions p (and_permissions q r).
Proof. unfold and_permissions. simpl. by rewrite !andb_assoc. Qed.

Lemma walk_permissions_cons e es :
  walk_permissions (e :: es) = and_permissions (entry_permissions e) (walk_permissions es).
Proof. done. Qed.

Lemma walk_permissions_nil : walk_permissions [] = mkPagePermissions true true true.
Proof. done. Qed.

Lemma and_permissions_true p : and_permissions p (mkPagePermissions true true true) = p.
Proof. destruct p. unfold and_permissions. simpl. by rewrite !andb_true_r. Qed.

Lemma from_resolve lvls a q f perms :
  Forall idx_ok q → (length q + length lvls = nlev)%nat →
  follow cfg (h_of (ms_mem s)) (pt_frame self) q = Some f →
  let r := resolve cfg (h_of (ms_mem s)) f (path_of lvls a) in
  to_physical_from self (ms_mem s) a lvls f = r ≫= phys_from lvls a ∧
  mapping_from self (ms_mem s) a lvls f perms =
    (r ≫= λ es, if maps_from lvls es
                then Some (mkPageTableMapping (and_permissions perms (walk_permissions es)))
                else None).
Proof.
  pose proof (pi_config _ _ _ Hinv) as Hcfg. pose proof (pi_tree _ _ _ Hinv) as Htree.
  revert q f perms. induction lvls as [|lv lvls IH]; intros q f perms Hq Hl Hf r;
    (assert (table_ok cfg l f) as Hok by (apply own_table_ok; exists q; split_and!; auto with lia)).
  - subst r. simpl. rewrite table_translate by done. simpl.
    change (entry_at (ms_mem s) (f + off) (p1_index a)) with (h_of (ms_mem s) f (p1_index a)).
    rewrite entry_leaf_frame_eq by done.
    destruct (is_present _); simpl; [|done]. split; [done|].
    by rewrite walk_permissions_cons, walk_permissions_nil, and_permissions_true.
  - set (i := level_index lv a). subst r.
    assert (path_of (lv :: lvls) a = i :: path_of lvls a) as -> by done.
    assert (Hne : path_of lvls a ≠ []) by (by destruct lvls).
    destruct (path_of lvls a) as [|j q'] eqn:Epath; [done|]. simpl.
    rewrite table_translate by done. simpl. fold i.
    change (entry_at (ms_mem s) (f + off) i) with (h_of (ms_mem s) f i).
    destruct (is_present (h_of (ms_mem s) f i)) eqn:Ep; simpl; [|done].
    destruct (is_huge (h_of (ms_mem s) f i)) eqn:Eh; simpl.
    { rewrite walk_permissions_cons, walk_permissions_nil, and_permissions_true.
      by destruct (large_page_size lv). }
    destruct (entry_table_frame (h_of (ms_mem s) f i) cfg) as [g|] eqn:Eg; simpl; [|done].
    destruct (IH (q ++ [i]) g (and_permissions perms (entry_permissions (h_of (ms_mem s) f i))))
      as [IH1 IH2].
    { apply Forall_app. split; [done|]. constructor; [apply level_index_ok|done]. }
    { rewrite length_app. simpl in *. lia. }
    { rewrite follow_snoc, Hf. done. }
    rewrite IH1, IH2.
    change (h_of (ms_mem s) g j) with (heap_of self (ms_mem s) g j).
    change ((if negb (is_present (h_of (ms_mem s) g j)) then None else _))
      with (resolve cfg (h_of (ms_mem s)) g (j :: q')).
    destruct (resolve cfg (h_of (ms_mem s)) g (j :: q')) as [es|] eqn:Er; simpl; [|done].
    apply resolve_length in Er. destruct es as [|e es]; simpl in Er; [lia|].
    rewrite and_permissions_assoc. by rewrite <- walk_permissions_cons.
Qed.
End bridge.

Section view.
Context (self : PageTable).
Abbreviation h_of := (heap_of self).
Abbreviation cfg := (pt_config self).
Abbreviation nlev := (length (levels self)).

(** What the entries of the walk for [v] are. *)
Definition walk (m : memory) (v : VirtualAddr) : option (list PageTableEntry) :=
  resolve cfg (h_of m) (pt_frame self) (path self v).

Lemma view_walk s l v :
  pt_inv self s l → is_canonical self v = true →
  PageTable_to_physical self (ms_mem s) v = walk (ms_mem s) v ≫= phys_from self (levels self) v ∧
  PageTable_mapping self (ms_mem s) v =
    (walk (ms_mem s) v ≫= λ es, if maps_from (levels self) es
       then Some (mkPageTableMapping (walk_permissions es)) else None).
Proof.
  intros Hinv Hv. unfold PageTable_to_physical, PageTable_mapping. rewrite Hv. simpl.
  destruct (from_resolve self s l Hinv (levels self) v [] (pt_frame self)
    (mkPagePermissions true true true)) as [-> ->]; done.
Qed.

Lemma phys_from_last lvls a pre pre' e :
  length pre = length pre' →
  phys_from self lvls a (pre' ++ [e]) = phys_from self lvls a (pre ++ [e]) ∧
  maps_from lvls (pre' ++ [e]) = maps_from lvls (pre ++ [e]).
Proof.
  revert pre' lvls. induction pre as [|x pre IH]; intros pre' lvls Hl; destruct pre' as [|y pre'];
    simpl in Hl; try lia; [done|].
  destruct (IH pre' (tail lvls)) as [IH1 IH2]; [lia|].
  assert (∃ z zs, pre' ++ [e] = z :: zs) as (z & zs & E) by (destruct pre'; simpl; eauto).
  assert (∃ z zs, pre ++ [e] = z :: zs) as (z' & zs' & E') by (destruct pre; simpl; eauto).
  simpl. rewrite E, E' in *. by destruct lvls.
Qed.

(** Same view of [v]: translation and permissions. *)
Definition same_view (m m' : memory) (v : VirtualAddr) : Prop :=
  PageTable_to_physical self m' v = PageTable_to_physical self m v ∧
  PageTable_mapping self m' v = PageTable_mapping self m v.

(** The walk for [v] passes a table on every level and ends in a leaf table. *)
Definition walks_to_leaf (m : memory) (v : VirtualAddr) : Prop :=
  ∃ es, walk m v = Some es ∧ length es = S nlev.

(** Same view, and resolved at the same level or not at all. *)
Definition same_page (m m' : memory) (v : VirtualAddr) : Prop :=
  same_view m m' v ∧ (is_canonical self v = true → length <$> walk m' v = length <$> walk m v).

Lemma same_page_leaf m m' v :
  same_page m m' v → is_canonical self v = true → walks_to_leaf m' v ↔ walks_to_leaf m v.
Proof.
  intros [_ H] Hc. specialize (H Hc). unfold walks_to_leaf.
  destruct (walk m' v) as [es'|], (walk m v) as [es|]; try done.
  injection H as H. split; intros (es0 & [= <-] & ?); eexists; (split; [done|]); congruence.
Qed.

Lemma view_not_canonical m m' v : is_canonical self v = false → same_page m m' v.
Proof.
  intros Hv. unfold same_page, same_view, PageTable_to_physical, PageTable_mapping. by rewrite Hv.
Qed.

Lemma view_same s l s' l' v :
  pt_inv self s l → pt_inv self s' l' → walk (ms_mem s') v = walk (ms_mem s) v →
  same_page (ms_mem s) (ms_mem s') v.
Proof.
  intros Hinv Hinv' E. destruct (is_canonical self v) eqn:Hv; [|by apply view_not_canonical].
  unfold same_page, same_view, walks_to_leaf.
  destruct (view_walk _ _ _ Hinv Hv) as [-> ->], (view_walk _ _ _ Hinv' Hv) as [-> ->].
  by rewrite E.
Qed.

Lemma view_raised s l s' l' v :
  pt_inv self s l → pt_inv self s' l' →
  option_Forall2 raised_walk (walk (ms_mem s) v) (walk (ms_mem s') v) →
  same_page (ms_mem s) (ms_mem s') v.
Proof.
  intros Hinv Hinv' HF. destruct (is_canonical self v) eqn:Hv; [|by apply view_not_canonical].
  unfold same_page, same_view, walks_to_leaf.
  destruct (view_walk _ _ _ Hinv Hv) as [-> ->], (view_walk _ _ _ Hinv' Hv) as [-> ->].
  destruct (walk (ms_mem s) v) as [es|] eqn:Er, (walk (ms_mem s') v) as [es'|] eqn:Er';
    try (inversion HF; fail); [|done].
  assert (raised_walk es es') as (pre & pre' & e & -> & -> & HR) by (by inversion HF). simpl.
  destruct (phys_from_last (levels self) v pre pre' e) as [-> ->];
    [by eapply Forall2_length|].
  assert (length (pre' ++ [e]) = length (pre ++ [e])) as Hlen
    by (rewrite !length_app; f_equal; symmetry; by eapply Forall2_length).
  rewrite (raised_permissions (pt_config self) (pi_config _ _ _ Hinv) pre pre'); [|done|].
  { split; [done|]. intros _. cbn [fmap option_fmap option_map]. by rewrite Hlen. }
  intros Hu. eapply (ti_user _ _ _ _ _ (pi_tree _ _ _ Hinv)); [..|exact Er|done].
  - apply path_of_ok.
  - apply path_of_length.
Qed.
End view.

(** ** Canonical addresses *)

(** The lower and the upper half of the address space. *)
Lemma is_canonical_spec self a :
  is_u64 a →
  is_canonical self a = true ↔
  a < 2 ^ (virtual_address_bits (mode (pt_config self)) - 1) ∨
  W64 - 2 ^ (virtual_address_bits (mode (pt_config self)) - 1) ≤ a.
Proof.
  intros Ha. unfold is_canonical, as_isize. rewrite Z.eqb_eq.
  destruct (mode _); simpl virtual_address_bits; simpl Z.sub;
    rewrite Z.shiftl_mul_pow2, Z.shiftr_div_pow2 by lia; unfold is_u64, W64 in *;
    case_bool; dmlia.
Qed.

Lemma index_div a k : 0 ≤ k → Z.land (Z.shiftr a k) 0x1FF = a / 2 ^ k mod 512.
Proof.
  intros. change 0x1FF with (Z.ones 9). by rewrite Z.land_ones, Z.shiftr_div_pow2 by done.
Qed.

(** The walk distinguishes any two canonical pages. *)
Lemma path_inj self a b :
  is_u64 a → is_u64 b → is_canonical self a = true → is_canonical self b = true →
  path self a = path self b → a / PAGE_SIZE = b / PAGE_SIZE.
Proof.
  intros Ha Hb Ca%is_canonical_spec Cb%is_canonical_spec; [|done..].
  unfold path, path_of, levels, level_index, p1_index, PAGE_SIZE. unfold is_u64, W64 in *.
  destruct (mode _); simpl in *; rewrite !index_div by done; intros [=]; dmlia.
Qed.

Lemma path_page self a b : a / PAGE_SIZE = b / PAGE_SIZE → path self a = path self b.
Proof.
  unfold PAGE_SIZE. intros E. unfold path, path_of.
  assert (Hix : ∀ k, 12 ≤ k → Z.shiftr a k = Z.shiftr b k).
  { intros k Hk. rewrite !Z.shiftr_div_pow2 by lia.
    replace (2 ^ k) with (4096 * 2 ^ (k - 12))
      by (change 4096 with (2 ^ 12); rewrite <- Z.pow_add_r by lia; f_equal; lia).
    rewrite <- !Z.div_div by lia. by rewrite E. }
  f_equal.
  - apply map_ext. intros lv. unfold level_index. rewrite Hix; [done|by destruct lv].
  - unfold p1_index. by rewrite Hix.
Qed.

(** ** Writing tables *)

(** Writes confined to the table frames [T]: the allocator and every other frame are as before. *)
Record writes_in (l : list FrameState) (T : FrameAddr → Prop) (s s' : MState) : Prop := {
  wi_fa : fa_inv s' l;
  wi_layout : same_layout s s';
  wi_kept : ∀ k, ¬ T (Z.of_nat k * FRAME_SIZE) → kept_frame s s' k;
}.

Lemma writes_in_refl l T s : fa_inv s l → writes_in l T s s.
Proof. intros H. by split. Qed.

Lemma kept_trans s s' s'' k :
  direct_map (ms_fa s') = direct_map (ms_fa s) →
  kept_frame s s' k → kept_frame s' s'' k → kept_frame s s'' k.
Proof. intros E H1 H2 x Hx. rewrite <- H1 by done. apply H2. by rewrite E. Qed.

Lemma kept_frame_trans s s' s'' k :
  same_layout s s' → kept_frame s s' k → kept_frame s' s'' k → kept_frame s s'' k.
Proof. intros (_ & E & _). by apply kept_trans. Qed.

Lemma writes_in_trans l T s s' s'' : writes_in l T s s' → writes_in l T s' s'' → writes_in l T s s''.
Proof.
  intros [A1 B1 C1] [A2 B2 C2]. split; [done|by etrans|]. intros k HT.
  eapply kept_frame_trans; eauto.
Qed.

Lemma writes_in_mono l (T T' : FrameAddr → Prop) s s' :
  (∀ f, T f → T' f) → writes_in l T s s' → writes_in l T' s s'.
Proof. intros HT [? ? HK]. split; [done|done|]. intros k Hn. apply HK; auto. Qed.

Section writes.
Context (self : PageTable) (l : list FrameState).
Abbreviation h_of := (heap_of self).
Abbreviation cfg := (pt_config self).
Abbreviation off := (offset (pt_direct_map self)).

(** The tables of [s] read as [h]. *)
Definition reads_as (s : MState) (h : heap) : Prop :=
  direct_map (ms_fa s) = pt_direct_map self ∧
  ∀ f j, table_ok cfg l f → idx_ok j → h_of (ms_mem s) f j = h f j.

Lemma reads_as_table s h t :
  fa_inv s l → reads_as s h → table_ok cfg l t → PageTable_table self t = Some (t + off).
Proof.
  intros Hfa [Hdm _] Ht. unfold PageTable_table. rewrite <- Hdm.
  by eapply table_ok_translate.
Qed.

Lemma set_entry_step s h t i e :
  fa_inv s l → reads_as s h → table_ok cfg l t → idx_ok i → is_u64 e →
  let s' := set_mem (set_entry (ms_mem s) (t + off) i e) s in
  writes_in l (eq t) s s' ∧ reads_as s' (hupd h t i e).
Proof.
  intros Hfa [Hdm Hh] Ht Hi He s'.
  assert (Hout : ∀ x, load8 (ms_mem s') x ≠ load8 (ms_mem s) x →
    ∃ b, 0 ≤ b < 8 ∧ x = t + offset (direct_map (ms_fa s)) + 8 * i + b).
  { intros x Hx. rewrite Hdm.
    destruct (decide (t + off + 8 * i ≤ x < t + off + 8 * i + 8)).
    - exists (x - (t + off + 8 * i)). lia.
    - destruct Hx. apply load8_store64_out. lia. }
  assert (Hsame : ∀ x, (∀ b, 0 ≤ b < 8 → x ≠ t + offset (direct_map (ms_fa s)) + 8 * i + b) →
    load8 (ms_mem s') x = load8 (ms_mem s) x).
  { intros x Hx. destruct (decide (load8 (ms_mem s') x = load8 (ms_mem s) x)) as [|Hne]; [done|].
    destruct (Hout x Hne) as (b & Hb & ->). by destruct (Hx b Hb). }
  split; [split|split].
  - apply fa_inv_mem; [done|]. intros x Hx. apply Hsame. intros b Hb ->.
    pose proof (table_ok_off_bitmap _ _ Hfa _ _ _ b Ht Hi Hb) as Hob. unfold outside_bitmap in Hob. lia.
  - done.
  - intros k Hne x Hx. apply Hsame. intros b Hb ->.
    pose proof (table_ok_in_frame s _ _ _ _ b Ht Hi Hb) as Hin.
    apply Hne. rewrite (table_ok_index _ _ _ Ht) at 1. f_equal.
    by eapply in_frame_inj.
  - done.
  - intros f j Hf Hj. simpl. rewrite heap_of_set by (apply Ht || apply Hf || done).
    destruct (hupd_cases (h_of (ms_mem s)) t i e f j) as [(-> & -> & ->)|[Hne ->]].
    + by rewrite hupd_eq.
    + rewrite hupd_ne by done. by apply Hh.
Qed.

Lemma write_entry_spec s h t i e why :
  fa_inv s l → reads_as s h → table_ok cfg l t → idx_ok i → is_u64 e →
  ∃ s', write_entry self t i e why s = Done (tt, s') ∧
    writes_in l (eq t) s s' ∧ reads_as s' (hupd h t i e).
Proof.
  intros Hfa Hh Ht Hi He. unfold write_entry. rewrite (reads_as_table s h) by done.
  eexists. split; [reflexivity|]. by apply set_entry_step.
Qed.

Lemma reads_as_ext s h h' :
  reads_as s h → (∀ f j, table_ok cfg l f → idx_ok j → h f j = h' f j) → reads_as s h'.
Proof. intros [Hdm Hh] He. split; [done|]. intros f j Hf Hj. rewrite Hh; auto. Qed.

Lemma upgrade_snoc h ups loc f i :
  upgrade h (ups ++ [loc]) f i =
  if decide (mkEntryLocation f i = loc) then Z.lor (upgrade h ups f i) USER_ACCESSIBLE
  else upgrade h ups f i.
Proof.
  unfold upgrade. repeat case_bool_decide; case_decide; try done; set_unfold; try naive_solver.
  by rewrite <- Z.lor_assoc, Z.lor_diag.
Qed.

Lemma apply_user_upgrades_spec s h ups :
  fa_inv s l → reads_as s h →
  (∀ loc, loc ∈ ups → table_ok cfg l (loc_table loc) ∧ idx_ok (loc_index loc)) →
  ∃ s', apply_user_upgrades self ups s = Done (tt, s') ∧
    writes_in l (λ f, ∃ loc, loc ∈ ups ∧ loc_table loc = f) s s' ∧ reads_as s' (upgrade h ups).
Proof.
  intros Hfa Hh Hups.
  apply (mfor_inv (λ pre s', writes_in l (λ f, ∃ loc, loc ∈ ups ∧ loc_table loc = f) s s' ∧
    reads_as s' (upgrade h pre))).
  { split; [by apply writes_in_refl|]. eapply reads_as_ext; [done|]. intros. unfold upgrade.
    by rewrite bool_decide_false by apply not_elem_of_nil. }
  intros pre [t i] post s0 -> [Hw Hr].
  destruct (Hups (mkEntryLocation t i)) as [Ht Hi]; [set_solver|]. simpl in *.
  rewrite (reads_as_table s0 (upgrade h pre)) by (done || apply Hw). simpl.
  destruct (set_entry_step s0 (upgrade h pre) t i
    (Z.lor (entry_at (ms_mem s0) (t + off) i) USER_ACCESSIBLE)) as [Hw' Hr']; try done.
  { apply Hw. }
  { apply user_upgrade_u64, load64_range. }
  eexists. split; [reflexivity|]. split.
  - eapply writes_in_trans; [done|]. eapply writes_in_mono; [|done].
    intros f <-. exists (mkEntryLocation t i). split; [set_solver|done].
  - eapply reads_as_ext; [done|]. intros f j Hf Hj. rewrite upgrade_snoc. case_decide as E.
    + injection E as -> ->. rewrite hupd_eq.
      change (entry_at (ms_mem s0) (t + off) i) with (h_of (ms_mem s0) t i).
      by rewrite (proj2 Hr t i Ht Hi).
    + rewrite hupd_ne; [done|]. congruence.
Qed.
End writes.

(** ** Allocating and releasing several frames *)

Definition frame_at (k : nat) : FrameAddr := Z.of_nat k * FRAME_SIZE.

Definition set_all (st : FrameState) (ks : list nat) (l : list FrameState) : list FrameState :=
  foldl (λ l k, <[k := st]> l) l ks.

Lemma length_set_all st ks l : length (set_all st ks l) = length l.
Proof. revert l. induction ks as [|k ks IH]; intros l; simpl; [done|]. by rewrite IH, length_insert. Qed.

Lemma lookup_set_all st ks l j :
  (∀ k, k ∈ ks → (k < length l)%nat) →
  set_all st ks l !! j = if bool_decide (j ∈ ks) then Some st else l !! j.
Proof.
  revert l. induction ks as [|k ks IH]; intros l Hk.
  { by rewrite bool_decide_false by apply not_elem_of_nil. }
  change (set_all st (k :: ks) l) with (set_all st ks (<[k := st]> l)).
  rewrite IH by (intros k' ?; rewrite length_insert; apply Hk; by right).
  destruct (decide (j = k)) as [->|Hne].
  - rewrite (list_lookup_insert_eq l k) by (apply Hk; left).
    rewrite (bool_decide_true (k ∈ k :: ks)) by left. by case_bool_decide.
  - rewrite list_lookup_insert_ne by done.
    rewrite (bool_decide_ext (j ∈ k :: ks) (j ∈ ks)); [done|]. set_solver.
Qed.

Lemma set_all_free_back ks l :
  (∀ k, k ∈ ks → l !! k = Some Free) → set_all Free (rev ks) (set_all Allocated ks l) = l.
Proof.
  intros H. apply list_eq. intros j.
  assert (Hlt : ∀ k, k ∈ ks → (k < length l)%nat) by (intros; eapply lookup_lt_Some; eauto).
  rewrite lookup_set_all.
  2:{ intros k Hk%list_elem_of_In%in_rev%list_elem_of_In. rewrite length_set_all. auto. }
  rewrite lookup_set_all by done.
  rewrite (bool_decide_ext (j ∈ rev ks) (j ∈ ks)).
  2:{ rewrite !list_elem_of_In. symmetry. apply in_rev. }
  repeat case_bool_decide; try done. symmetry. auto.
Qed.

Lemma load64_all_zero m a : (∀ b, a ≤ b < a + 8 → load8 m b = 0) → load64 m a = 0.
Proof.
  intros H. rewrite <- (load64_zeroed m a 8 a) by lia. apply load64_ext. intros b Hb.
  by rewrite H, load8_write_bytes_in by lia.
Qed.

Lemma dealloc_all s l ks :
  fa_inv s l → NoDup ks → (∀ k, k ∈ ks → l !! k = Some Allocated) →
  ∃ s', mfor (map frame_at ks) FrameAllocator_dealloc s = Done (tt, s') ∧
    fa_inv s' (set_all Free ks l) ∧ same_layout s s' ∧
    (∀ j st, l !! j = Some st → st ≠ Reserved → kept_frame s s' j).
Proof.
  revert s l. induction ks as [|k ks IH]; intros s l Hfa Hnd Hks; simpl.
  { exists s. done. }
  apply NoDup_cons in Hnd as [Hni Hnd].
  destruct (dealloc_contract s l k Hfa) as (s1 & E1 & Hfa1 & Hl1 & Hk1); [apply Hks; left|].
  rewrite (bind_Done _ _ _ _ _ E1).
  destruct (IH s1 (<[k := Free]> l) Hfa1 Hnd) as (s2 & E2 & Hfa2 & Hl2 & Hk2).
  { intros k' Hk'. rewrite list_lookup_insert_ne by (intros ->; done). apply Hks. by right. }
  exists s2. split_and!; [done|done|by etrans|].
  intros j st Hj Hst. eapply kept_frame_trans; [done|by eapply Hk1|].
  destruct (decide (j = k)) as [->|].
  - apply (Hk2 k Free); [|done]. apply list_lookup_insert_eq. by eapply lookup_lt_Some.
  - apply (Hk2 j st); [|done]. by rewrite list_lookup_insert_ne.
Qed.

Lemma dealloc_all_off s l ks s' :
  fa_inv s l → NoDup ks → (∀ k, k ∈ ks → l !! k = Some Allocated) →
  mfor (map frame_at ks) FrameAllocator_dealloc s = Done (tt, s') → ∀ j, off_frame s j → kept_frame s s' j.
Proof.
  revert s l. induction ks as [|k ks IH]; intros s l Hfa Hnd Hks; simpl; [by intros [= <-]|].
  apply NoDup_cons in Hnd as [Hni Hnd].
  destruct (dealloc_contract s l k Hfa) as (s1 & E1 & Hfa1 & Hl1 & _); [apply Hks; left|].
  rewrite (bind_Done _ _ _ _ _ E1). intros E j Hj.
  eapply kept_frame_trans; [done|by eapply (dealloc_off s l k); [..|apply Hks; left| |]|].
  eapply (IH s1 (<[k := Free]> l) Hfa1 Hnd); [|done|by eapply off_frame_layout].
  intros k' Hk'. rewrite list_lookup_insert_ne by (intros ->; done). apply Hks. by right.
Qed.

Section private.
Context (self : PageTable) (user : bool).
Abbreviation cfg := (pt_config self).

(** The frames [ks] were taken from the free ones and zeroed; nothing else changed. *)
Record took (s s' : MState) (l : list FrameState) (ks : list nat) : Prop := {
  tk_fa : fa_inv s' (set_all Allocated ks l);
  tk_layout : same_layout s s';
  tk_nodup : NoDup ks;
  tk_free : ∀ k, k ∈ ks → l !! k = Some Free;
  tk_zero : ∀ k x, k ∈ ks → in_frame (direct_map (ms_fa s)) (Z.of_nat k) x → load8 (ms_mem s') x = 0;
  tk_kept : ∀ j st, l !! j = Some st → st ≠ Reserved → j ∉ ks → kept_frame s s' j;
  tk_off : ∀ j, off_frame s j → j ∉ ks → kept_frame s s' j;
}.

Lemma took_nil s l : fa_inv s l → took s s l [].
Proof. intros H. split; try done; by intros ? ?%not_elem_of_nil || intros ? ? ?%not_elem_of_nil || constructor. Qed.

Lemma took_cons s s1 s2 l k ks :
  l !! k = Some Free → fa_inv s1 (<[k := Allocated]> l) → same_layout s s1 →
  (∀ x, in_frame (direct_map (ms_fa s)) (Z.of_nat k) x → load8 (ms_mem s1) x = 0) →
  (∀ j st, l !! j = Some st → st ≠ Reserved → j ≠ k → kept_frame s s1 j) →
  (∀ j, off_frame s j → j ≠ k → kept_frame s s1 j) →
  took s1 s2 (<[k := Allocated]> l) ks → took s s2 l (k :: ks).
Proof.
  intros Hk Hfa1 Hl1 Hz Hkept Hoff [T1 T2 T3 T4 T5 T6 T7]. pose proof (lookup_lt_Some _ _ _ Hk) as Hlt.
  assert (k ∉ ks) as Hni.
  { intros Hin. specialize (T4 _ Hin). rewrite list_lookup_insert_eq in T4 by done. done. }
  pose proof Hl1 as (_ & L2 & _ & _). split.
  - done.
  - by etrans.
  - by constructor.
  - intros k' [->|Hin]%elem_of_cons; [done|]. specialize (T4 _ Hin).
    rewrite list_lookup_insert_ne in T4 by (intros ->; done). done.
  - intros k' x [->|Hin]%elem_of_cons Hx.
    + rewrite <- (Hz x Hx). apply (T6 k Allocated); [by apply list_lookup_insert_eq|done|done|].
      by rewrite L2.
    + apply (T5 k'); [done|]. by rewrite L2.
  - intros j st Hj Hst Hnj. apply not_elem_of_cons in Hnj as [Hjk Hnj].
    eapply kept_frame_trans; [done|by eapply Hkept|].
    apply (T6 j st); try done. by rewrite list_lookup_insert_ne.
  - intros j Hj Hnj. apply not_elem_of_cons in Hnj as [Hjk Hnj].
    eapply kept_frame_trans; [done|by apply Hoff|]. apply T7; [by eapply off_frame_layout|done].
Qed.

Lemma alloc_private_spec count s l tables :
  fa_inv s l →
  ∃ r s' ks, alloc_private self user count tables s =
      Done ((r, tables ++ map frame_at ks), s') ∧
    took s s' l ks ∧
    match r with
    | Ok _ => length ks = count ∧ ∀ k, k ∈ ks → frame_at k < physical_address_limit cfg
    | Err e => (e = MapOutOfFrames ∧ (length ks < count)%nat ∧ Free ∉ set_all Allocated ks l) ∨
               (e = MapPhysicalAddressTooLarge ∧
                ∃ k, k ∈ ks ∧ physical_address_limit cfg ≤ frame_at k)
    end.
Proof.
  revert s l tables. induction count as [|count IH]; intros s l tables Hfa; simpl.
  { exists (Ok tt), s, []. simpl. rewrite app_nil_r. split_and!; [done|by apply took_nil|done|].
    by intros k ?%not_elem_of_nil. }
  destruct (alloc_contract s l Hfa) as [[E Hno]|(k & s1 & E & Hk & Hfa1 & Hl1 & Hz & Hkept)].
  { rewrite (bind_Done _ _ _ _ _ E). exists (Err MapOutOfFrames), s, []. simpl.
    rewrite app_nil_r. split_and!; [done|by apply took_nil|]. left. split_and!; [done|lia|done]. }
  rewrite (bind_Done _ _ _ _ _ E). unfold PageTableEntry_new_table.
  destruct (Z.leb_spec (physical_address_limit cfg) (Z.of_nat k * FRAME_SIZE)) as [Hlim|Hlim].
  { exists (Err MapPhysicalAddressTooLarge), s1, [k]. split_and!; [done| |].
    - eapply took_cons; try done; [by eapply alloc_off|by apply took_nil].
    - right. split; [done|]. exists k. split; [left|done]. }
  destruct (IH s1 (<[k := Allocated]> l) (tables ++ [Z.of_nat k * FRAME_SIZE]) Hfa1)
    as (r & s2 & ks & E2 & Ht & Hr).
  exists r, s2, (k :: ks). split_and!.
  - rewrite E2. rewrite <- app_assoc. done.
  - eapply took_cons; try done. by eapply alloc_off.
  - destruct r as [[]|e]; simpl.
    + destruct Hr as [<- Hr]. split; [done|]. intros k' [->|Hin]%elem_of_cons; auto.
    + destruct Hr as [(-> & Hlen & Hno)|(-> & k' & Hin & Hk')].
      * left. split_and!; [done|lia|done].
      * right. split; [done|]. exists k'. split; [by right|done].
Qed.

(** The entry that links a private table. *)
Definition link_entry (c : FrameAddr) : PageTableEntry :=
  match PageTableEntry_new_table c user cfg with Ok e => e | Err _ => 0 end.

Lemma link_entry_ok c :
  c < physical_address_limit cfg → PageTableEntry_new_table c user cfg = Ok (link_entry c).
Proof.
  intros Hc. unfold link_entry, PageTableEntry_new_table.
  by rewrite (proj2 (Z.leb_gt _ _)).
Qed.
End private.

Lemma link_entry_decode self user c l :
  config_wf (pt_config self) → table_ok (pt_config self) l c →
  is_table_entry (pt_config self) (link_entry self user c) c user.
Proof.
  intros Hc [Hf _]. eapply entry_new_table_decode; [done|done|].
  apply link_entry_ok. apply Hf.
Qed.

Lemma link_private_spec self user leaf a l lvls c rest s h :
  config_wf (pt_config self) → fa_inv s l → reads_as self l s h → is_u64 leaf →
  length rest = length lvls → (∀ d, d ∈ c :: rest → table_ok (pt_config self) l d) →
  ∃ s', link_private self a user leaf lvls (c :: rest) s = Done (Ok tt, s') ∧
    writes_in l (λ f, f ∈ c :: rest) s s' ∧
    reads_as self l s' (publish (link_entry self user) leaf h c (path_of lvls a) rest).
Proof.
  intros Hcfg. revert c rest s h. induction lvls as [|lv lvls IH]; intros c rest s h Hfa Hr Hleaf Hlen Hok.
  - destruct rest; [|done].
    assert (table_ok (pt_config self) l c) as Hc by (apply Hok; left).
    simpl. rewrite (reads_as_table self l s h) by done. mred.
    destruct (set_entry_step self l s h c (p1_index a) leaf) as [Hw Hr']; try done.
    { apply p1_index_ok. }
    eexists. split; [reflexivity|]. split; [|done].
    eapply writes_in_mono; [|done]. intros f <-. left.
  - destruct rest as [|c' rest]; [done|]. simpl in Hlen.
    assert (table_ok (pt_config self) l c) as Hc by (apply Hok; left).
    assert (table_ok (pt_config self) l c') as Hc' by (apply Hok; right; left).
    cbn [link_private]. rewrite link_entry_ok by apply Hc'.
    rewrite (reads_as_table self l s h) by done. cbn [ok_or map_err]. mred.
    destruct (set_entry_step self l s h c (level_index lv a) (link_entry self user c'))
      as [Hw Hr']; try done.
    { apply level_index_ok. }
    { by eapply te_u64, link_entry_decode. }
    destruct (IH c' rest _ _ (wi_fa _ _ _ _ Hw) Hr') as (s' & E & Hw' & Hr''); [done|lia| |].
    { intros d Hd. apply Hok. by right. }
    exists s'. split; [exact E|]. split; [|exact Hr''].
    eapply writes_in_trans; (eapply writes_in_mono; [|done]).
    + intros f <-. left.
    + intros f Hf. by right.
Qed.

(** ** The validating walk of [map] *)

Section map_walk.
Context (self : PageTable) (s : MState) (l : list FrameState) (a : usize) (user : bool).
Context (Hinv : pt_inv self s l).
Abbreviation cfg := (pt_config self).
Abbreviation h := (heap_of self (ms_mem s)).
Abbreviation root := (pt_frame self).
Abbreviation nlev := (length (levels self)).

(** The entries the walk asks to raise: linking entries on the path, and enough of
    them. *)
Record ups_ok (ups : list EntryLocation) (p : list Z) : Prop := {
  uo_loc : ∀ loc, loc ∈ ups → ∃ q, Forall idx_ok q ∧ (length q < nlev)%nat ∧
    follow cfg h root q = Some (loc_table loc) ∧ idx_ok (loc_index loc) ∧
    is_Some (entry_table_frame (h (loc_table loc) (loc_index loc)) cfg) ∧
    (q ++ [loc_index loc]) `prefix_of` p;
  uo_user : user = true →
    Forall (λ x, is_user_accessible x = true) (along cfg (upgrade h ups) root p);
}.

Lemma along_snoc g f p i t :
  follow cfg g f p = Some t → along cfg g f (p ++ [i]) = along cfg g f p ++ [g t i].
Proof.
  revert f. induction p as [|j p IH]; intros f Hf; simpl in *.
  - injection Hf as ->. by destruct (entry_table_frame _ _).
  - destruct (entry_table_frame (g f j) cfg); [|done]. simpl in *. by rewrite IH.
Qed.

Lemma along_upgrade_mono ups ups' p t :
  follow cfg h root p = Some t → (∀ x, x ∈ ups → x ∈ ups') →
  Forall (λ x, is_user_accessible x = true) (along cfg (upgrade h ups) root p) →
  Forall (λ x, is_user_accessible x = true) (along cfg (upgrade h ups') root p).
Proof.
  intros Hf Hsub. pose proof (pi_config _ _ _ Hinv) as Hcfg. revert Hf. generalize root as f.
  induction p as [|i p IH]; intros f Hf Hu; simpl in *; [constructor|].
  destruct (raised_flags cfg Hcfg _ _ (upgrade_raised h ups f i)) as (_ & _ & _ & _ & _ & E1).
  destruct (raised_flags cfg Hcfg _ _ (upgrade_raised h ups' f i)) as (_ & _ & _ & _ & _ & E2).
  rewrite E1 in Hu. rewrite E2. destruct (entry_table_frame (h f i) cfg) as [g|]; [|done].
  apply Forall_cons in Hu as [Hx Hu]. constructor; [|by apply IH].
  revert Hx. unfold upgrade. repeat case_bool_decide; try done; [naive_solver|].
  intros _. apply user_upgrade_flags.
Qed.

(** The walk stops at a missing entry, at the leaf table, or at a huge page. *)
Lemma map_walk_spec lvls1 lvls2 f ups :
  levels self = lvls1 ++ lvls2 →
  follow cfg h root (map (λ lv, level_index lv a) lvls1) = Some f →
  ups_ok ups (map (λ lv, level_index lv a) lvls1) →
  match map_walk self (ms_mem s) a user lvls2 (length lvls1) f ups with
  | Err e => (e = MapHugePageConflict ∨ e = MapInvalidPageTableEntry) ∧
      ∃ es, walk self (ms_mem s) a = Some es ∧ (length es ≤ nlev)%nat
  | Ok (missing, t, ups') =>
      ∃ la lb, levels self = la ++ lb ∧
        follow cfg h root (map (λ lv, level_index lv a) la) = Some t ∧
        ups_ok ups' (map (λ lv, level_index lv a) la) ∧
        match missing with
        | None => lb = []
        | Some (d, loc) => ∃ lv lc, lb = lv :: lc ∧ d = length la ∧
            loc = mkEntryLocation t (level_index lv a) ∧
            is_present (h t (level_index lv a)) = false
        end
  end.
Proof.
  pose proof (pi_config _ _ _ Hinv) as Hcfg.
  revert lvls1 f ups. induction lvls2 as [|lv lvls2 IH]; intros lvls1 f ups Hlv Hf Hups; simpl.
  { by exists lvls1, []. }
  assert (Hidx : Forall idx_ok (map (λ lv, level_index lv a) lvls1)).
  { apply Forall_forall. intros i (x & -> & _)%list_elem_of_fmap. apply level_index_ok. }
  assert (Hlen : (length (map (λ lv, level_index lv a) lvls1) < nlev)%nat)
    by (rewrite Hlv, length_map, length_app; simpl; lia).
  rewrite (table_translate self s l Hinv).
  2:{ apply (own_table_ok self s l Hinv). eexists. split_and!; [done|lia|done]. }
  simpl. change (entry_at (ms_mem s) (f + offset (pt_direct_map self)) (level_index lv a))
    with (h f (level_index lv a)).
  destruct (is_present (h f (level_index lv a))) eqn:Ep; simpl.
  2:{ exists lvls1, (lv :: lvls2). split_and!; try done. by exists lv, lvls2. }
  destruct (is_huge (h f (level_index lv a))) eqn:Eh.
  { assert (∃ es, walk self (ms_mem s) a = Some es ∧ (length es ≤ nlev)%nat) as Hw.
    { exists (along cfg h root (map (λ lv, level_index lv a) lvls1) ++ [h f (level_index lv a)]). split.
      - unfold walk, path, path_of. rewrite Hlv, map_app. simpl. rewrite <- app_assoc.
        rewrite (resolve_app cfg Hcfg _ _ _ f) by done. simpl. rewrite Ep, Eh. simpl.
        by destruct (map _ lvls2 ++ [p1_index a]).
      - rewrite length_app, (along_length cfg _ _ _ f) by done. cbn [length]. lia. }
    destruct (large_page_size lv); split; auto. }
  destruct (entry_table_frame (h f (level_index lv a)) cfg) as [g|] eqn:Eg.
  2:{ rewrite entry_table_frame_eq, Ep, Eh in Eg by done. done. }
  simpl. set (ups1 := if user && negb _ then _ else ups).
  specialize (IH (lvls1 ++ [lv]) g ups1). rewrite length_app, Nat.add_1_r in IH. simpl in IH.
  rewrite map_app in IH. simpl in IH. apply IH.
  - by rewrite <- app_assoc.
  - rewrite follow_snoc, Hf. done.
  - assert (Hsub : ∀ x, x ∈ ups → x ∈ ups1)
      by (intros x Hx; unfold ups1; destruct (_ && _); set_solver).
    destruct Hups as [U1 U2]. split.
    + intros loc Hloc. assert (loc ∈ ups ∨ loc = mkEntryLocation f (level_index lv a)) as [Hold| ->].
      { unfold ups1 in Hloc. destruct (user && _); set_solver. }
      * destruct (U1 _ Hold) as (q & ? & ? & ? & ? & ? & ?). exists q. split_and!; try done. by apply prefix_app_r.
      * eexists. split_and!; [done|done|done|apply level_index_ok| |done]. simpl. rewrite Eg. eauto.
    + intros Hu. rewrite (along_snoc _ _ _ _ f) by (rewrite follow_upgrade; done).
      apply Forall_app. split; [eapply along_upgrade_mono; eauto|]. constructor; [|done].
      unfold upgrade, ups1. rewrite Hu. simpl.
      destruct (is_user_accessible (h f (level_index lv a))) eqn:Eu; simpl.
      * case_bool_decide; [apply user_upgrade_flags|done].
      * rewrite bool_decide_true by set_solver. apply user_upgrade_flags.
Qed.
End map_walk.

(** [is_canonical] accepts exactly the two halves of the address space the paging mode
    can translate: addresses whose upper bits all equal the top translated bit. *)
Theorem canonical_halves (self : PageTable) (a : usize) :
  is_u64 a →
  is_canonical self a = true ↔
  a < 2 ^ (virtual_address_bits (mode (pt_config self)) - 1) ∨
  W64 - 2 ^ (virtual_address_bits (mode (pt_config self)) - 1) ≤ a.
Proof. apply is_canonical_spec. Qed.

Lemma canonical_halves_witness :
  is_canonical (mkPageTable (mkDirectMap 0) (mkPagingConfig 40 true true FourLevel) 0)
    0xFFFF800000000000 = true.
Proof. apply canonical_halves; [done|]. right. done. Defined.

(** ** The result of [map] *)

(** [self] is the page table the processor uses. *)
Definition active_root (self : PageTable) (s : MState) : bool :=
  Z.land (ms_cr3 s) (physical_address_mask (pt_config self)) =? pt_frame self.

(** The state after [page] was flushed from the TLB, if it had to be. *)
Definition flushed (self : PageTable) (page : VirtualAddr) (s : MState) : MState :=
  mkMState (ms_mem s) (ms_fa s) (ms_cr3 s)
    (if active_root self s then page :: ms_flushed s else ms_flushed s).

Lemma is_active_spec self s :
  config_wf (pt_config self) → is_active self s = Done (active_root self s, s).
Proof.
  intros Hc. unfold is_active, read_cr3, active_root. rewrite bind_assoc. mred.
  rewrite frame_addr_aligned; [done|]. by apply entry_physical_address_aligned.
Qed.

Lemma flush_spec self s page :
  config_wf (pt_config self) → is_canonical self page = true →
  flush_tlb_if_active self page s = Done (tt, flushed self page s).
Proof.
  intros Hc Hp. unfold flush_tlb_if_active, massert. rewrite Hp, bind_ret.
  rewrite (bind_Done _ _ _ _ _ (is_active_spec self s Hc)). unfold flushed.
  destruct (active_root self s); [done|]. by destruct s.
Qed.

(** The page of [v] is mapped to [frame] with exactly [perms]. *)
Definition maps_page (self : PageTable) (m : memory) (v : VirtualAddr) (frame : FrameAddr)
    (perms : PagePermissions) : Prop :=
  ∀ x, is_u64 x → x / PAGE_SIZE = v / PAGE_SIZE →
    PageTable_to_physical self m x = Some (frame + x mod PAGE_SIZE) ∧
    PageTable_mapping self m x = Some (mkPageTableMapping perms).

Definition unmapped_page (self : PageTable) (m : memory) (v : VirtualAddr) : Prop :=
  ∀ x, is_u64 x → x / PAGE_SIZE = v / PAGE_SIZE →
    (PageTable_to_physical self m x = None ∧ PageTable_mapping self m x = None) ∧
    (is_canonical self x = true → walk self m x = None).

Definition others_same (self : PageTable) (m m' : memory) (v : VirtualAddr) : Prop :=
  ∀ x, is_u64 x → x / PAGE_SIZE ≠ v / PAGE_SIZE → same_page self m m' x.

Lemma canonical_page self x v :
  is_u64 x → is_u64 v → x / PAGE_SIZE = v / PAGE_SIZE → is_canonical self x = is_canonical self v.
Proof.
  intros Hx Hv E. apply eq_bool_prop_intro.
  rewrite !Is_true_true, !is_canonical_spec by done. unfold PAGE_SIZE, is_u64, W64 in *.
  destruct (mode _); simpl; dmlia.
Qed.

Section commit.
Context (self : PageTable) (s : MState) (l : list FrameState).
Context (Hinv : pt_inv self s l).
Abbreviation cfg := (pt_config self).
Abbreviation root := (pt_frame self).
Abbreviation nlev := (length (levels self)).

Lemma walk_page m x v : x / PAGE_SIZE = v / PAGE_SIZE → walk self m x = walk self m v.
Proof. intros E. unfold walk. by rewrite (path_page self x v). Qed.

Lemma walk_None_unmapped v : is_u64 v → walk self (ms_mem s) v = None → unmapped_page self (ms_mem s) v.
Proof.
  intros Hv Hw x Hx E. destruct (is_canonical self x) eqn:Hc.
  - destruct (view_walk self s l x Hinv Hc) as [-> ->]. by rewrite (walk_page _ x v), Hw.
  - unfold PageTable_to_physical, PageTable_mapping. by rewrite Hc.
Qed.

Lemma unmapped_page_same m m' v :
  (∀ x, is_u64 x → x / PAGE_SIZE = v / PAGE_SIZE → same_page self m m' x) →
  unmapped_page self m' v ↔ unmapped_page self m v.
Proof.
  intros Hs. unfold unmapped_page. split; intros H x Hx Ex; destruct (H x Hx Ex) as [[E1 E2] E3], (Hs x Hx Ex) as [[V1 V2] V3].
  - rewrite <- V1, <- V2. split; [done|]. intros Hc. specialize (V3 Hc). rewrite E3 in V3 by done.
    by destruct (walk self m x).
  - rewrite V1, V2. split; [done|]. intros Hc. specialize (V3 Hc). rewrite E3 in V3 by done.
    by destruct (walk self m' x).
Qed.

Lemma page_offset_mod x : page_offset x = x mod PAGE_SIZE.
Proof. by apply (land_mask x 12). Qed.

Lemma phys_from_leaf x frame leaf lvls es :
  frame_ok cfg frame → entry_physical_address leaf cfg = frame → length es = length lvls →
  phys_from self lvls x (es ++ [leaf]) = Some (frame + x mod PAGE_SIZE) ∧
  maps_from lvls (es ++ [leaf]) = true.
Proof.
  intros [[Hf0 Hf1] _] Hleaf. unfold physical_address_limit in Hf1. rewrite Z.shiftl_1_l in Hf1.
  destruct (pi_config _ _ _ Hinv) as [_ Hb].
  assert (2 ^ physical_address_bits cfg ≤ 2 ^ 52) by (apply Z.pow_le_mono_r; lia).
  revert es. induction lvls as [|lv lvls IH]; intros [|e es'] Hl; simpl in Hl; try lia; simpl.
  - rewrite Hleaf, page_offset_mod. split; [|done]. apply checked_add_lt.
    pose proof (Z.mod_pos_bound x PAGE_SIZE ltac:(done)). unfold PAGE_SIZE, W64 in *. lia.
  - destruct (IH es') as [<- <-]; [lia|]. by destruct (es' ++ [leaf]) eqn:E'; [destruct es'|].
Qed.

Lemma walk_to_leaf_translates v :
  is_canonical self v = true → walks_to_leaf self (ms_mem s) v →
  is_Some (PageTable_to_physical self (ms_mem s) v).
Proof.
  intros Hc (es & Hes & Hlen). rewrite (proj1 (view_walk self s l v Hinv Hc)), Hes. simpl.
  destruct (exists_last (l := es)) as (pre & e & ->); [by destruct es|].
  rewrite length_app in Hlen. simpl in Hlen.
  rewrite (proj1 (phys_from_leaf v _ e (levels self) pre
    (entry_physical_address_ok _ _ (pi_config _ _ _ Hinv)) eq_refl ltac:(lia))). eauto.
Qed.

Lemma walk_leaf_maps v frame perms es leaf :
  is_u64 v → is_canonical self v = true → frame_ok cfg frame → is_leaf_entry cfg leaf frame perms →
  walk self (ms_mem s) v = Some (es ++ [leaf]) → length es = nlev →
  Forall (λ x, entry_writable x = true ∧ entry_executable x = true) es →
  (user_accessible perms = true → Forall (λ x, is_user_accessible x = true) es) →
  maps_page self (ms_mem s) v frame perms.
Proof.
  intros Hv Hcv Hf Hleaf Hw Hlen Hflags Hu x Hx E.
  assert (is_canonical self x = true) as Hc by (by rewrite (canonical_page self x v)).
  destruct (view_walk self s l x Hinv Hc) as [-> ->]. rewrite (walk_page _ x v), Hw by done. simpl.
  destruct (phys_from_leaf x frame leaf (levels self) es) as [-> ->];
    [done|by destruct Hleaf|done|]. split; [done|]. do 2 f_equal.
  rewrite <- (le_permissions _ _ _ _ Hleaf).
  unfold walk_permissions, entry_permissions. rewrite !forallb_app. simpl. rewrite !andb_true_r.
  assert (Hall : ∀ (P : Z → bool), Forall (λ x, P x = true) es → forallb P es = true).
  { intros P HP. apply forallb_forall. intros y Hy. rewrite Forall_forall in HP.
    apply HP. by apply list_elem_of_In. }
  rewrite !Hall by (eapply Forall_impl; [done|]; by intros ? []).
  f_equal. destruct (is_user_accessible leaf) eqn:El; [|by rewrite andb_false_r].
  rewrite Hall; [done|]. apply Hu. rewrite <- (le_permissions _ _ _ _ Hleaf). done.
Qed.
End commit.

(** A state whose tables read the same has the same view. *)
Lemma pt_inv_agree self s s' l :
  pt_inv self s l → fa_inv s' l → direct_map (ms_fa s') = direct_map (ms_fa s) →
  (∀ f j, table_ok (pt_config self) l f → idx_ok j →
     heap_of self (ms_mem s') f j = heap_of self (ms_mem s) f j) →
  pt_inv self s' l ∧ (∀ x, same_page self (ms_mem s) (ms_mem s') x) ∧
  (∀ f, own_table self (ms_mem s') f → own_table self (ms_mem s) f).
Proof.
  intros Hinv Hfa Hdm Hag. pose proof (pi_tree _ _ _ Hinv) as Htree.
  assert (Hinv' : pt_inv self s' l).
  { split; [apply Hinv|done|rewrite Hdm; apply Hinv|]. by eapply tree_inv_agree. }
  assert (Hw := λ q Hq Hl, tree_walk_agree _ _ _ _ _ Htree (heap_of self (ms_mem s')) q Hq Hl Hag).
  split; [done|]. split.
  - intros x. apply (view_same self s l s' l); [done..|].
    apply Hw; [apply path_of_ok|]. unfold path. rewrite path_of_length. lia.
  - intros f (q & Hq & Hl & Hf). exists q. rewrite <- (proj1 (Hw q Hq ltac:(lia))). done.
Qed.

Lemma kept_heap self s s' l f j :
  direct_map (ms_fa s) = pt_direct_map self → table_ok (pt_config self) l f → idx_ok j →
  kept_frame s s' (Z.to_nat (f / FRAME_SIZE)) →
  heap_of self (ms_mem s') f j = heap_of self (ms_mem s) f j.
Proof.
  intros Hdm Hf Hj Hk. unfold heap_of, entry_at. apply load64_ext. intros b Hb.
  set (d := b - (f + offset (pt_direct_map self) + 8 * j)).
  replace b with (f + offset (direct_map (ms_fa s)) + 8 * j + d) by (rewrite Hdm; unfold d; lia).
  apply Hk. eapply table_ok_in_frame; [done|done|unfold d; lia].
Qed.

Lemma count_set_all ks l :
  count_state Free l ≤ count_state Free (set_all Allocated ks l) + Z.of_nat (length ks).
Proof.
  revert l. induction ks as [|k ks IH]; intros l; [simpl; lia|].
  change (set_all Allocated (k :: ks) l) with (set_all Allocated ks (<[k := Allocated]> l)).
  specialize (IH (<[k := Allocated]> l)). rewrite length_cons.
  destruct (l !! k) as [old|] eqn:E.
  - rewrite (count_state_insert _ _ _ _ _ E) in IH. repeat case_decide; try done; lia.
  - rewrite list_insert_ge in IH by (by apply lookup_ge_None). rewrite (list_insert_ge l) by (by apply lookup_ge_None). lia.
Qed.

Section took.
Context (self : PageTable) (s : MState) (l : list FrameState).
Context (Hinv : pt_inv self s l).
Abbreviation cfg := (pt_config self).
Abbreviation root := (pt_frame self).
Abbreviation nlev := (length (levels self)).

(** Taking free frames does not disturb the tables. *)
Lemma took_heap s1 ks f j :
  took s s1 l ks → table_ok cfg l f → idx_ok j →
  heap_of self (ms_mem s1) f j = heap_of self (ms_mem s) f j.
Proof.
  intros Ht Hf Hj. eapply kept_heap; [apply Hinv|done|done|].
  eapply (tk_kept _ _ _ _ Ht); [apply Hf|done|].
  intros Hin. pose proof (tk_free _ _ _ _ Ht _ Hin). destruct Hf as [_ Hf]. congruence.
Qed.

Lemma took_zero s1 ks k j :
  took s s1 l ks → k ∈ ks → idx_ok j → heap_of self (ms_mem s1) (frame_at k) j = 0.
Proof.
  intros Ht Hk Hj. apply load64_all_zero. intros b Hb.
  apply (tk_zero _ _ _ _ Ht k); [done|]. rewrite (pi_dm _ _ _ Hinv).
  unfold in_frame, frame_virt, frame_at, idx_ok, PAGE_TABLE_ENTRIES, FRAME_SIZE in *. lia.
Qed.

Lemma took_allocated s1 ks k :
  took s s1 l ks → l !! k = Some Allocated → set_all Allocated ks l !! k = Some Allocated.
Proof.
  intros Ht Hk. rewrite lookup_set_all; [by case_bool_decide|].
  intros k' Hk'. by eapply lookup_lt_Some, (tk_free _ _ _ _ Ht).
Qed.

Lemma took_table_ok s1 ks f :
  took s s1 l ks → table_ok cfg l f → table_ok cfg (set_all Allocated ks l) f.
Proof. intros Ht [Hf Hl]. split; [done|by eapply took_allocated]. Qed.

Lemma frame_at_index k : Z.to_nat (frame_at k / FRAME_SIZE) = k.
Proof. unfold frame_at. rewrite Z.div_mul by done. lia. Qed.

Lemma took_new_ok s1 ks k :
  took s s1 l ks → k ∈ ks → frame_at k < physical_address_limit cfg →
  table_ok cfg (set_all Allocated ks l) (frame_at k).
Proof.
  intros Ht Hk Hlim. split.
  - split; [unfold frame_at, FRAME_SIZE in *; lia|]. unfold frame_at. by rewrite Z.mod_mul.
  - rewrite frame_at_index, lookup_set_all; [by rewrite bool_decide_true|].
    intros k' Hk'. by eapply lookup_lt_Some, (tk_free _ _ _ _ Ht).
Qed.

Lemma took_fresh s1 ks k f :
  took s s1 l ks → k ∈ ks → table_ok cfg l f → f ≠ frame_at k.
Proof.
  intros Ht Hk [_ Hf] ->. rewrite frame_at_index, (tk_free _ _ _ _ Ht _ Hk) in Hf. done.
Qed.

Lemma frame_at_nodup (ks : list nat) : NoDup ks → NoDup (map frame_at ks).
Proof. apply NoDup_fmap_2. intros x y E. unfold frame_at, FRAME_SIZE in E. lia. Qed.

Lemma took_tree s1 ks :
  took s s1 l ks →
  tree_inv cfg nlev (table_ok cfg (set_all Allocated ks l)) root (heap_of self (ms_mem s1)) ∧
  ∀ q, Forall idx_ok q → (length q ≤ S nlev)%nat →
    follow cfg (heap_of self (ms_mem s1)) root q = follow cfg (heap_of self (ms_mem s)) root q ∧
    resolve cfg (heap_of self (ms_mem s1)) root q = resolve cfg (heap_of self (ms_mem s)) root q ∧
    along cfg (heap_of self (ms_mem s1)) root q = along cfg (heap_of self (ms_mem s)) root q.
Proof.
  intros Ht. pose proof (pi_tree _ _ _ Hinv) as Htree. split.
  - eapply tree_inv_weaken.
    + eapply tree_inv_agree; [done|]. intros g j Hg Hj. by eapply took_heap.
    + intros p f Hp Hl Hf. eapply took_table_ok; [done|].
      rewrite (proj1 (tree_walk_agree cfg nlev _ root _ Htree _ p Hp ltac:(lia)
        (λ g j Hg Hj, took_heap s1 ks g j Ht Hg Hj))) in Hf.
      by eapply (ti_table _ _ _ _ _ Htree).
  - intros q Hq Hlq. apply (tree_walk_agree cfg nlev _ root _ Htree); try done.
    intros g j Hg Hj. by eapply took_heap.
Qed.

Context (s1 : MState) (ks : list nat) (Ht : took s s1 l ks).
Context (ups : list EntryLocation) (v : VirtualAddr) (frame : FrameAddr) (perms : PagePermissions).
Context (leaf : PageTableEntry) (p : list Z) (t : FrameAddr) (i : Z) (ix : list Z).
Context (Hleaf : is_leaf_entry cfg leaf frame perms).
Context (Hlim : ∀ k, k ∈ ks → frame_at k < physical_address_limit cfg).
Context (Hpath : path self v = p ++ i :: ix) (Hks : length ks = length ix).
Context (Hf : follow cfg (heap_of self (ms_mem s)) root p = Some t).
Context (Habs : is_present (heap_of self (ms_mem s) t i) = false).
Context (Hups : ups_ok self s (user_accessible perms) ups p).
Abbreviation l1 := (set_all Allocated ks l).
Abbreviation h0 := (heap_of self (ms_mem s)).
Abbreviation h1 := (heap_of self (ms_mem s1)).
Abbreviation h2 := (upgrade h1 ups).
Abbreviation h3 := (publish (link_entry self (user_accessible perms)) leaf h2 t (i :: ix)
                      (map frame_at ks)).

Lemma path_split : Forall idx_ok p ∧ idx_ok i ∧ Forall idx_ok ix ∧
  (length p + length ix)%nat = nlev.
Proof.
  pose proof (path_of_ok (levels self) v) as Hpok. pose proof (path_of_length (levels self) v) as Hl.
  fold (path self v) in Hpok, Hl. rewrite Hpath in Hpok, Hl.
  apply Forall_app in Hpok as [Hp Hiix]. apply Forall_cons in Hiix as [Hi Hix].
  rewrite length_app in Hl. simpl in Hl. split_and!; auto with lia.
Qed.

Lemma ups_took loc :
  loc ∈ ups → ∃ p, Forall idx_ok p ∧ (length p < nlev)%nat ∧
    follow cfg h1 root p = Some (loc_table loc) ∧
    is_Some (entry_table_frame (h1 (loc_table loc) (loc_index loc)) cfg).
Proof.
  intros Hloc. destruct (uo_loc _ _ _ _ _ Hups _ Hloc) as (q & Hq & Hlq & Hfq & Hil & Hsome & _).
  exists q. split_and!; [done|done| |].
  - by rewrite (proj1 (proj2 (took_tree s1 ks Ht) q Hq ltac:(lia))).
  - erewrite took_heap; [done|done| |done].
    eapply (ti_table _ _ _ _ _ (pi_tree _ _ _ Hinv)); [done| |done]. lia.
Qed.

Lemma ups_path_user :
  user_accessible perms = true → Forall (λ x, is_user_accessible x = true) (along cfg h2 root p).
Proof.
  intros Hu. destruct path_split as (Hp & Hi & Hix & Hl).
  pose proof (pi_config _ _ _ Hinv) as Hcfg.
  pose proof (uo_user _ _ _ _ _ Hups Hu) as HU.
  assert (∀ q j g, (q ++ [j]) `prefix_of` p → follow cfg (upgrade h0 ups) root q = Some g →
    h2 g j = upgrade h0 ups g j) as Hag;
    [|by rewrite (proj2 (proj2 (walk_ext cfg (upgrade h0 ups) h2 root p Hag)))].
  intros q j g Hpre Hq. rewrite follow_upgrade in Hq by done.
  pose proof (prefix_ok _ _ Hpre Hp) as [Hq1 Hj]%Forall_app. apply Forall_inv in Hj.
  unfold upgrade. erewrite took_heap; [done|done| |done].
  apply prefix_length in Hpre. rewrite length_app in Hpre. simpl in Hpre.
  eapply (ti_table _ _ _ _ _ (pi_tree _ _ _ Hinv)); [done| |done]. lia.
Qed.

Lemma commit_published :
  published cfg leaf nlev (table_ok cfg l1) root (user_accessible perms) h2 h3 (p ++ i :: ix)
    (map frame_at ks).
Proof.
  pose proof (pi_config _ _ _ Hinv) as Hcfg. destruct path_split as (Hp & Hi & Hix & Hl).
  destruct (took_tree s1 ks Ht) as [Htree1 Hw1].
  assert (table_ok cfg l t) as Htok
    by (eapply (ti_table _ _ _ _ _ (pi_tree _ _ _ Hinv)); [exact Hp| |exact Hf]; lia).
  apply (publish_spec cfg Hcfg).
  - apply (le_present _ _ _ _ Hleaf).
  - rewrite <- (le_permissions _ _ _ _ Hleaf). done.
  - apply tree_upgrade; [done..|]. intros. by apply ups_took.
  - apply Forall_app. split; [done|by constructor].
  - rewrite length_app. simpl. lia.
  - by rewrite length_map.
  - rewrite follow_upgrade, (proj1 (Hw1 p Hp ltac:(lia))) by done. done.
  - destruct (raised_flags cfg Hcfg _ _ (upgrade_raised h1 ups t i)) as (-> & _).
    by erewrite took_heap.
  - apply ups_path_user.
  - apply frame_at_nodup, Ht.
  - intros c (k & -> & Hk)%list_elem_of_fmap.
    assert (table_ok cfg l1 (frame_at k)) as Hkok by (eapply took_new_ok; eauto).
    split_and!; [by eapply link_entry_decode|done| |].
    + intros q Hq Hlq. rewrite follow_upgrade, (proj1 (Hw1 q Hq ltac:(lia))) by done. intros Hc.
      eapply (took_fresh s1 ks k (frame_at k)); [done|done| |done].
      by eapply (ti_table _ _ _ _ _ (pi_tree _ _ _ Hinv)).
    + intros j Hj.
      destruct (raised_flags cfg Hcfg _ _ (upgrade_raised h1 ups (frame_at k) j)) as (-> & _).
      by erewrite took_zero.
Qed.

Lemma commit_spec s4 :
  is_u64 v → is_canonical self v = true → frame_ok cfg frame →
  fa_inv s4 l1 → reads_as self l1 s4 h3 →
  pt_inv self s4 l1 ∧ maps_page self (ms_mem s4) v frame perms ∧ walks_to_leaf self (ms_mem s4) v ∧
  unmapped_page self (ms_mem s) v ∧ others_same self (ms_mem s) (ms_mem s4) v ∧
  (∀ f, own_table self (ms_mem s4) f → own_table self (ms_mem s) f ∨ f ∈ map frame_at ks).
Proof.
  intros Hv Hcv Hframe Hfa4 [Hdm4 Hread]. pose proof (pi_config _ _ _ Hinv) as Hcfg.
  destruct path_split as (Hp & Hi & Hix & Hl). destruct (took_tree s1 ks Ht) as [Htree1 Hw1].
  destruct commit_published as [P1 (es & P2 & P3 & P4 & P5) P6 P7].
  assert (Hinv4 : pt_inv self s4 l1).
  { split; try done. eapply tree_inv_agree; [exact P1|]. intros; by apply Hread. }
  assert (Hres4 : ∀ x, walk self (ms_mem s4) x = resolve cfg h3 root (path self x)).
  { intros x. apply (tree_walk_agree cfg nlev _ root _ P1).
    - apply path_of_ok.
    - unfold path. rewrite path_of_length. done.
    - intros; by apply Hread. }
  split_and!; [done|..].
  - eapply (walk_leaf_maps self s4 l1 Hinv4); try done. by rewrite Hres4, Hpath.
  - exists (es ++ [leaf]). rewrite Hres4, Hpath. split; [done|]. rewrite length_app. simpl. lia.
  - apply (walk_None_unmapped self s l Hinv); [done|]. unfold walk. rewrite Hpath.
    by apply (resolve_absent cfg Hcfg root h0 p t).
  - intros x Hx Hne. destruct (is_canonical self x) eqn:Hcx; [|by apply view_not_canonical].
    apply (view_raised self s l s4 l1); [done..|]. rewrite Hres4, P6.
    + unfold walk. rewrite <- (proj1 (proj2 (Hw1 (path self x) (path_of_ok _ _)
        ltac:(unfold path; rewrite path_of_length; lia)))).
      eapply (resolve_upgrade cfg Hcfg nlev _ root h1 ups Htree1 ups_took []); try done.
      * apply path_of_length.
      * apply path_of_ok.
    + apply path_of_ok.
    + apply path_of_length.
    + rewrite <- Hpath. intros E. apply Hne. by apply (path_inj self).
  - intros f (q & Hq & Hlq & Hfq).
    rewrite (proj1 (tree_walk_agree cfg nlev _ root _ P1 (heap_of self (ms_mem s4)) q Hq ltac:(lia)
      Hread)) in Hfq.
    destruct (P7 q f Hq Hlq Hfq) as [?|Hf']; [by right|left]. exists q. split_and!; [done|done|].
    rewrite follow_upgrade in Hf' by done. by rewrite <- (proj1 (Hw1 q Hq ltac:(lia))).
Qed.
End took.

(** Entry [j] of table [f] lies on the way to the page of [v]. *)
Definition path_entry (self : PageTable) (m : memory) (v : VirtualAddr) (f : FrameAddr) (j : Z) : Prop :=
  ∃ q r, path self v = q ++ j :: r ∧
    follow (pt_config self) (heap_of self m) (pt_frame self) q = Some f.

(** No entry of the tables changed but those on the way to [v]. *)
Definition entries_kept (self : PageTable) (v : VirtualAddr) (m m' : memory) : Prop :=
  ∀ f j, own_table self m f → idx_ok j → ¬ path_entry self m v f j →
    heap_of self m' f j = heap_of self m f j.

(** What was written before outside all allocated frames makes no difference. *)
Lemma entries_kept_before self v s s1 s2 l :
  pt_inv self s l → (∀ k, l !! k = Some Allocated → kept_frame s s1 k) →
  entries_kept self v (ms_mem s1) (ms_mem s2) → entries_kept self v (ms_mem s) (ms_mem s2).
Proof.
  intros Hinv Hk He f j Hf Hj Hno. pose proof (pi_tree _ _ _ Hinv) as Htree.
  assert (Hag : ∀ f j, table_ok (pt_config self) l f → idx_ok j →
    heap_of self (ms_mem s1) f j = heap_of self (ms_mem s) f j).
  { intros g i Hg Hi. eapply kept_heap; [apply Hinv|done|done|]. apply Hk, Hg. }
  assert (Hw := λ q Hq Hl, proj1 (tree_walk_agree _ _ _ _ _ Htree (heap_of self (ms_mem s1)) q Hq Hl Hag)).
  rewrite <- Hag by (done || by apply (own_table_ok self s l Hinv)). apply He; [|done|].
  - destruct Hf as (q & Hq & Hl & Hfq). exists q. by rewrite Hw by (done || lia).
  - intros (q & r & Hp & Hfq). apply Hno. exists q, r. split; [done|].
    pose proof (path_of_ok (levels self) v) as Hok. pose proof (path_of_length (levels self) v) as Hlen.
    fold (path self v) in Hok, Hlen. rewrite Hp in Hok, Hlen. apply Forall_app in Hok as [Hq _].
    rewrite length_app in Hlen. simpl in Hlen. by rewrite <- Hw by (done || lia).
Qed.

(** Every frame that was allocated still is, and unless it holds one of the page table's
    own tables, its contents are untouched. *)
Definition bystanders_kept (self : PageTable) (s s' : MState) (l l' : list FrameState) : Prop :=
  ∀ k, l !! k = Some Allocated → l' !! k = Some Allocated ∧
    (¬ own_table self (ms_mem s) (frame_at k) → kept_frame s s' k).

(** The promise of a successful [map]. *)
Record map_ok_post (self : PageTable) (v : VirtualAddr) (frame : FrameAddr)
    (perms : PagePermissions) (s s' : MState) (l l' : list FrameState) : Prop := {
  mo_inv : pt_inv self s' l';
  mo_new : maps_page self (ms_mem s') v frame perms;
  mo_leaf : walks_to_leaf self (ms_mem s') v;
  mo_old : unmapped_page self (ms_mem s) v;
  mo_others : others_same self (ms_mem s) (ms_mem s') v;
  mo_kept : bystanders_kept self s s' l l';
  mo_tables : ∀ f, own_table self (ms_mem s') f → own_table self (ms_mem s) f ∨
    ∃ k, f = frame_at k ∧ l !! k = Some Free;
  mo_flush : ms_flushed s' = (if active_root self s then v :: ms_flushed s else ms_flushed s);
  mo_entries : entries_kept self v (ms_mem s) (ms_mem s');
  mo_states : ∀ k, l' !! k = l !! k ∨ (l !! k = Some Free ∧ l' !! k = Some Allocated);
  mo_cr3 : ms_cr3 s' = ms_cr3 s;
  mo_area : same_area s s';
  mo_data : ∀ k, data_frame l s k → ¬ own_table self (ms_mem s) (frame_at k) → kept_frame s s' k;
}.

(** The promise of a failed one: nothing observable happened. *)
Record map_err_post (self : PageTable) (s s' : MState) (l : list FrameState) : Prop := {
  me_inv : pt_inv self s' l;
  me_view : ∀ x, same_page self (ms_mem s) (ms_mem s') x;
  me_kept : bystanders_kept self s s' l l;
  me_tables : ∀ f, own_table self (ms_mem s') f → own_table self (ms_mem s) f;
  me_flush : ms_flushed s' = ms_flushed s;
  me_all : ∀ k, l !! k = Some Allocated → kept_frame s s' k;
  me_cr3 : ms_cr3 s' = ms_cr3 s;
  me_area : same_area s s';
  me_data : ∀ k, data_frame l s k → kept_frame s s' k;
}.

Lemma map_err_post_refl self s l : pt_inv self s l → map_err_post self s s l.
Proof. intros H. by split. Qed.

Lemma pt_inv_flushed self s l v : pt_inv self s l → pt_inv self (flushed self v s) l.
Proof. intros [H1 H2 H3 H4]. split; try done. by destruct H2. Qed.

Section map_cases.
Local Arguments levels : simpl never.
Context (self : PageTable) (s : MState) (l : list FrameState) (Hinv : pt_inv self s l).
Context (v : VirtualAddr) (frame : FrameAddr) (perms : PagePermissions) (leaf : PageTableEntry).
Context (Hv : is_u64 v) (Hcv : is_canonical self v = true).
Context (Hframe : frame_ok (pt_config self) frame).
Context (Hleaf : is_leaf_entry (pt_config self) leaf frame perms).
Abbreviation cfg := (pt_config self).
Abbreviation user := (user_accessible perms).
Abbreviation root := (pt_frame self).
Abbreviation h0 := (heap_of self (ms_mem s)).
Context (ups : list EntryLocation) (la : list PageTableLevel) (t : FrameAddr).
Abbreviation p := (map (λ lv, level_index lv v) la).
Context (lb : list PageTableLevel) (Hlevels : levels self = la ++ lb).
Context (Hf : follow cfg h0 root p = Some t) (Hups : ups_ok self s user ups p).

Lemma la_ok : Forall idx_ok p ∧ (length p ≤ length (levels self))%nat.
Proof.
  split; [|rewrite Hlevels, length_map, length_app; lia].
  apply Forall_forall. intros i (lv & -> & _)%list_elem_of_fmap. apply level_index_ok.
Qed.

Lemma t_own : own_table self (ms_mem s) t.
Proof. destruct la_ok. by exists p. Qed.

Lemma ups_own loc : loc ∈ ups → own_table self (ms_mem s) (loc_table loc) ∧ idx_ok (loc_index loc).
Proof.
  intros Hloc. destruct (uo_loc _ _ _ _ _ Hups _ Hloc) as (q & Hq & Hlq & Hfq & Hil & _).
  split; [|done]. exists q. split_and!; [done|lia|done].
Qed.

Lemma map_entries s1 s4 ks i ix :
  took s s1 l ks → path self v = p ++ i :: ix →
  reads_as self (set_all Allocated ks l) s4
    (publish (link_entry self user) leaf (upgrade (heap_of self (ms_mem s1)) ups) t (i :: ix)
       (map frame_at ks)) →
  entries_kept self v (ms_mem s) (ms_mem s4).
Proof.
  intros Ht Hpath [_ Hr] f j Hfo Hj Hno. pose proof (own_table_ok self s l Hinv f Hfo) as Hok.
  rewrite Hr by (done || by eapply took_table_ok). rewrite publish_other.
  - unfold upgrade. rewrite bool_decide_false; [by eapply took_heap|]. intros Hin.
    destruct (uo_loc _ _ _ _ _ Hups _ Hin) as (q & _ & _ & Hfq & _ & _ & [r Hpre]). apply Hno.
    exists q, (r ++ i :: ix). split; [|done]. rewrite Hpath, Hpre. simpl. by rewrite <- !app_assoc.
  - intros (k & -> & Hin)%list_elem_of_fmap. by eapply took_fresh.
  - intros [= -> ->]. apply Hno. by exists p, ix.
Qed.

(** From the writes of [map] to its promise. *)
Lemma map_finish s1 s4 ks i ix :
  took s s1 l ks → (∀ k, k ∈ ks → frame_at k < physical_address_limit cfg) →
  path self v = p ++ i :: ix → length ks = length ix → is_present (h0 t i) = false →
  writes_in (set_all Allocated ks l) (λ f, own_table self (ms_mem s) f ∨ f ∈ map frame_at ks) s1 s4 →
  reads_as self (set_all Allocated ks l) s4
    (publish (link_entry self user) leaf (upgrade (heap_of self (ms_mem s1)) ups) t (i :: ix)
       (map frame_at ks)) →
  map_ok_post self v frame perms s (flushed self v s4) l (set_all Allocated ks l).
Proof.
  intros Ht Hlim Hpath Hks Habs Hw Hr.
  destruct (commit_spec self s l Hinv s1 ks Ht ups v frame perms leaf p t i ix Hleaf Hlim Hpath Hks
    Hf Habs Hups s4 Hv Hcv Hframe (wi_fa _ _ _ _ Hw) Hr) as (C1 & C2 & C2' & C3 & C4 & C5).
  split; try done.
  - by apply pt_inv_flushed.
  - intros k Hk. split; [by eapply took_allocated|]. intros Hno.
    assert (k ∉ ks) as Hni.
    { intros Hin. pose proof (tk_free _ _ _ _ Ht _ Hin). congruence. }
    apply (kept_frame_trans s s1 s4 k).
    + apply Ht.
    + by eapply (tk_kept _ _ _ _ Ht).
    + apply (wi_kept _ _ _ _ Hw). intros [?|(k' & E & Hin)%list_elem_of_fmap]; [done|].
      assert (k = k') as -> by (unfold frame_at, FRAME_SIZE in E; lia). done.
  - intros f [?|(k & -> & Hin)%list_elem_of_fmap]%C5; [by left|right]. exists k.
    split; [done|]. by apply Ht.
  - simpl. unfold active_root.
    destruct (wi_layout _ _ _ _ Hw) as (_ & _ & E3 & E4), (tk_layout _ _ _ _ Ht) as (_ & _ & E3' & E4').
    by rewrite E3, E4, E3', E4'.
  - by eapply map_entries.
  - intros k. rewrite lookup_set_all; [|intros k' Hk'; by eapply lookup_lt_Some, (tk_free _ _ _ _ Ht)].
    case_bool_decide as Hin; [right|by left]. split; [by apply Ht|done].
  - simpl. destruct (wi_layout _ _ _ _ Hw) as (_ & _ & -> & _). apply (tk_layout _ _ _ _ Ht).
  - etrans; [apply same_area_layout, Ht|]. exact (same_area_layout _ _ (wi_layout _ _ _ _ Hw)).
  - intros k Hk Hno. assert (k ∉ ks) as Hni.
    { intros Hin. pose proof (tk_free _ _ _ _ Ht _ Hin). by apply data_frame_used in Hk. }
    apply (kept_frame_trans s s1 s4 k); [apply Ht|apply (tk_off _ _ _ _ Ht); [|done]|].
    + by eapply data_off_frame; [apply Hinv|].
    + apply (wi_kept _ _ _ _ Hw). intros [?|(k' & E & Hin)%list_elem_of_fmap]; [done|].
      assert (k = k') as -> by (unfold frame_at, FRAME_SIZE in E; lia). done.
Qed.

Lemma map_leaf_case :
  lb = [] → is_present (h0 t (p1_index v)) = false →
  ∃ s', (do! apply_user_upgrades self ups ;;;
         do! write_entry self t (p1_index v) leaf "validated page table left the direct map" ;;;
         do! flush_tlb_if_active self v ;;; ret (Ok (E := PageTableMapError) tt)) s =
        Done (Ok tt, s') ∧ map_ok_post self v frame perms s s' l l.
Proof.
  intros Hlb Habs. pose proof (pi_alloc _ _ _ Hinv) as Hfa.
  assert (reads_as self l s h0) as Hr0 by (split; [apply Hinv|done]).
  destruct (apply_user_upgrades_spec self l s h0 ups Hfa Hr0) as (s1 & E1 & W1 & R1).
  { intros loc Hloc. destruct (ups_own _ Hloc) as [Ho Hi]. split; [|done].
    by apply (own_table_ok self s l Hinv). }
  rewrite (bind_Done _ _ _ _ _ E1).
  destruct (write_entry_spec self l s1 (upgrade h0 ups) t (p1_index v) leaf
    "validated page table left the direct map" (wi_fa _ _ _ _ W1) R1) as (s2 & E2 & W2 & R2).
  { apply (own_table_ok self s l Hinv), t_own. }
  { apply p1_index_ok. }
  { apply Hleaf. }
  rewrite (bind_Done _ _ _ _ _ E2).
  rewrite (bind_Done _ _ _ _ _ (flush_spec self s2 v (pi_config _ _ _ Hinv) Hcv)).
  eexists. split; [reflexivity|].
  eapply (map_finish s s2 [] (p1_index v) []); try done.
  - by apply took_nil.
  - by intros k ?%not_elem_of_nil.
  - unfold path, path_of. by rewrite Hlevels, Hlb, app_nil_r.
  - eapply writes_in_trans; (eapply writes_in_mono; [|done]); simpl.
    + intros f (loc & Hloc & <-). left. by apply ups_own.
    + intros f <-. left. apply t_own.
Qed.

Context (lv : PageTableLevel) (lc : list PageTableLevel) (Hlb : lb = lv :: lc).
Abbreviation i := (level_index lv v).
Context (Habs : is_present (h0 t i) = false).

Lemma missing_path : path self v = p ++ i :: path_of lc v.
Proof. unfold path, path_of. rewrite Hlevels, Hlb, map_app, <- app_assoc. done. Qed.

(** Preparation either fills a chain of new tables, or fails with the frames it took. *)
Lemma prepare_private_spec :
  ∃ r s' ks, prepare_private self v user leaf (length la) s = Done ((r, map frame_at ks), s') ∧
    match r with
    | Err e => took s s' l ks ∧
        ((e = MapOutOfFrames ∧ Free ∉ set_all Allocated ks l ∧ (length ks ≤ length lc)%nat) ∨
         (e = MapPhysicalAddressTooLarge ∧ ∃ k, k ∈ ks ∧ physical_address_limit cfg ≤ frame_at k))
    | Ok e => ∃ s1 k rest, ks = k :: rest ∧ length rest = length lc ∧ took s s1 l ks ∧
        (∀ k, k ∈ ks → frame_at k < physical_address_limit cfg) ∧
        e = link_entry self user (frame_at k) ∧
        writes_in (set_all Allocated ks l) (λ f, f ∈ map frame_at ks) s1 s' ∧
        reads_as self (set_all Allocated ks l) s' (publish (link_entry self user) leaf
          (heap_of self (ms_mem s1)) (frame_at k) (path_of lc v) (map frame_at rest))
    end.
Proof.
  unfold prepare_private.
  destruct (alloc_private_spec self user (length (levels self) - length la) s l []
    (pi_alloc _ _ _ Hinv)) as (r & s1 & ks & E & Ht & Hr).
  rewrite (bind_Done _ _ _ _ _ E).
  assert (Hcount : (length (levels self) - length la = S (length lc))%nat)
    by (rewrite Hlevels, Hlb, length_app; simpl; lia).
  destruct r as [[]|e].
  2:{ exists (Err e), s1, ks. split; [done|]. split; [done|].
      destruct Hr as [(-> & Hn & Hno)|Hr]; [left|by right]. split_and!; [done|done|lia]. }
  destruct Hr as [Hlen Hlim]. rewrite Hcount in Hlen.
  destruct ks as [|k rest]; [done|]. simpl in Hlen.
  assert (drop (S (length la)) (levels self) = lc) as ->.
  { rewrite Hlevels, Hlb. replace (S (length la)) with (length la + 1)%nat by lia.
    by rewrite <- drop_drop, drop_app_length. }
  assert (Hok : ∀ d, d ∈ map frame_at (k :: rest) →
    table_ok cfg (set_all Allocated (k :: rest) l) d).
  { intros d (k' & -> & Hk')%list_elem_of_fmap. eapply took_new_ok; eauto. }
  destruct (link_private_spec self user leaf v (set_all Allocated (k :: rest) l) lc
    (frame_at k) (map frame_at rest) s1 (heap_of self (ms_mem s1))) as (s2 & E2 & W2 & R2);
    [apply Hinv|apply Ht| |apply Hleaf|rewrite length_map; lia|exact Hok|].
  { split; [|done]. destruct (tk_layout _ _ _ _ Ht) as (_ & -> & _). apply Hinv. }
  cbn [app map]. rewrite (bind_Done _ _ _ _ _ E2). cbn [head expect]. mred.
  rewrite link_entry_ok by (apply Hlim; left).
  exists (Ok (link_entry self user (frame_at k))), s2, (k :: rest). split; [done|].
  exists s1, k, rest. split_and!; try done. lia.
Qed.

Lemma map_rollback s2 ks :
  took s s2 l ks →
  ∃ s', mfor (rev (map frame_at ks)) FrameAllocator_dealloc s2 = Done (tt, s') ∧
    map_err_post self s s' l.
Proof.
  intros Ht. rewrite <- map_rev.
  destruct (dealloc_all s2 (set_all Allocated ks l) (rev ks)) as (s' & E & Hfa & Hl & Hk).
  { apply Ht. }
  { rewrite <- (Permutation_rev ks). apply Ht. }
  { intros k Hin%list_elem_of_In%in_rev%list_elem_of_In. rewrite lookup_set_all.
    - by rewrite bool_decide_true.
    - intros k' Hk'. by eapply lookup_lt_Some, (tk_free _ _ _ _ Ht). }
  exists s'. split; [done|]. rewrite set_all_free_back in Hfa by apply Ht.
  pose proof (tk_layout _ _ _ _ Ht) as Hl1. assert (same_layout s s') as Hl2 by (by etrans).
  assert (Hkept : ∀ k, l !! k = Some Allocated → kept_frame s s' k).
  { intros k Hal. apply (kept_frame_trans s s2 s'); [done|..].
    - eapply (tk_kept _ _ _ _ Ht); [done|done|]. intros Hin.
      pose proof (tk_free _ _ _ _ Ht _ Hin). congruence.
    - eapply Hk; [by eapply took_allocated|done]. }
  destruct (pt_inv_agree self s s' l Hinv Hfa) as (Hinv' & Hview & Hsub).
  { by destruct Hl2 as (_ & -> & _). }
  { intros f j Hfo Hj. eapply kept_heap; [apply Hinv|done|done|]. apply Hkept, Hfo. }
  split; [done|done| |done|by destruct Hl2 as (_ & _ & _ & ->)|done|by destruct Hl2 as (_ & _ & -> & _)|by apply same_area_layout|].
  - intros k Hal. split; [done|]. intros _. by apply Hkept.
  - intros k Hdk. pose proof (data_off_frame _ _ _ (pi_alloc _ _ _ Hinv) Hdk) as Hoff.
    eapply kept_frame_trans; [exact Hl1|apply (tk_off _ _ _ _ Ht); [done|]|].
    + intros Hin. pose proof (tk_free _ _ _ _ Ht _ Hin) as Hf'. destruct Hdk as [Hdk|[Hdk _]]; congruence.
    + eapply (dealloc_all_off s2 (set_all Allocated ks l) (rev ks)); [apply Ht|by rewrite <- (Permutation_rev ks); apply Ht| |exact E|by eapply off_frame_layout].
      intros k' Hin%list_elem_of_In%in_rev%list_elem_of_In. rewrite lookup_set_all by (intros k0 Hk0; by eapply lookup_lt_Some, (tk_free _ _ _ _ Ht)).
      by rewrite bool_decide_true.
Qed.

Lemma map_publish s1 s2 k rest :
  length rest = length lc → took s s1 l (k :: rest) →
  (∀ k', k' ∈ k :: rest → frame_at k' < physical_address_limit cfg) →
  writes_in (set_all Allocated (k :: rest) l) (λ f, f ∈ map frame_at (k :: rest)) s1 s2 →
  reads_as self (set_all Allocated (k :: rest) l) s2 (publish (link_entry self user) leaf
    (heap_of self (ms_mem s1)) (frame_at k) (path_of lc v) (map frame_at rest)) →
  ∃ s', (do! apply_user_upgrades self ups ;;;
         do! write_entry self t i (link_entry self user (frame_at k))
               "validated publication table left the direct map" ;;;
         do! flush_tlb_if_active self v ;;; ret (Ok (E := PageTableMapError) tt)) s2 =
        Done (Ok tt, s') ∧ map_ok_post self v frame perms s s' l (set_all Allocated (k :: rest) l).
Proof.
  intros Hlen Ht Hlim W2 R2. set (l1 := set_all Allocated (k :: rest) l) in *.
  assert (Hold : ∀ f, own_table self (ms_mem s) f → table_ok cfg l1 f ∧ f ∉ map frame_at (k :: rest)).
  { intros f Ho%(own_table_ok self s l Hinv). split; [by eapply took_table_ok|].
    intros (k' & -> & Hin)%list_elem_of_fmap. by eapply took_fresh. }
  destruct (apply_user_upgrades_spec self l1 s2 _ ups (wi_fa _ _ _ _ W2) R2) as (s3 & E3 & W3 & R3).
  { intros loc Hloc. destruct (ups_own _ Hloc) as [Ho Hi]. split; [|done]. by apply Hold. }
  rewrite (bind_Done _ _ _ _ _ E3).
  assert (table_ok cfg l1 (frame_at k)) as Hkok.
  { eapply took_new_ok; [done|left|]. apply Hlim. left. }
  destruct (write_entry_spec self l1 s3 _ t i (link_entry self user (frame_at k))
    "validated publication table left the direct map" (wi_fa _ _ _ _ W3) R3) as (s4 & E4 & W4 & R4).
  { apply Hold, t_own. }
  { apply level_index_ok. }
  { eapply te_u64, link_entry_decode; [apply Hinv|done]. }
  rewrite (bind_Done _ _ _ _ _ E4).
  rewrite (bind_Done _ _ _ _ _ (flush_spec self s4 v (pi_config _ _ _ Hinv) Hcv)).
  eexists. split; [reflexivity|].
  eapply (map_finish s1 s4 (k :: rest) i (path_of lc v)); try done.
  - apply missing_path.
  - rewrite path_of_length. simpl. lia.
  - eapply writes_in_trans; [eapply writes_in_mono; [|exact W2]; by right|].
    eapply writes_in_trans; (eapply writes_in_mono; [|done]); simpl.
    + intros f (loc & Hloc & <-). left. by apply ups_own.
    + intros f <-. left. apply t_own.
  - eapply reads_as_ext; [exact R4|]. intros f j _ _.
    cbn [map publish]. rewrite (publish_last _ _ _ t i _ (frame_at k)) by (apply (Hold t t_own)).
    apply hupd_proper; try done. apply (upgrade_publish cfg (pi_config _ _ _ Hinv)).
    intros loc Hloc. apply (Hold (loc_table loc)). by apply ups_own.
Qed.

Lemma map_missing_case :
  ∃ r s', (let! (prepared, private_tables) := prepare_private self v user leaf (length la) in
           match prepared with
           | Err error =>
               do! mfor (rev private_tables) FrameAllocator_dealloc ;;; ret (Err error)
           | Ok publication_entry =>
               do! apply_user_upgrades self ups ;;;
               do! write_entry self t i publication_entry
                     "validated publication table left the direct map" ;;;
               do! flush_tlb_if_active self v ;;; ret (Ok tt)
           end) s = Done (r, s') ∧
    match r with
    | Ok _ => ∃ l', map_ok_post self v frame perms s s' l l'
    | Err e => map_err_post self s s' l ∧
        ((e = MapOutOfFrames ∧ count_state Free l ≤ Z.of_nat (length lc)) ∨
         (e = MapPhysicalAddressTooLarge ∧ ∃ k, l !! k = Some Free ∧
            physical_address_limit cfg ≤ frame_at k))
    end.
Proof.
  destruct prepare_private_spec as (r & s2 & ks & E & Hr). rewrite (bind_Done _ _ _ _ _ E).
  destruct r as [e|e].
  - destruct Hr as (s1 & k & rest & -> & Hlen & Ht & Hlim & -> & W2 & R2).
    destruct (map_publish s1 s2 k rest Hlen Ht Hlim W2 R2) as (s' & E' & Hpost).
    exists (Ok tt), s'. split; [exact E'|]. eauto.
  - destruct Hr as [Ht Hr]. destruct (map_rollback s2 ks Ht) as (s' & E' & Hpost).
    rewrite (bind_Done _ _ _ _ _ E'). exists (Err e), s'. split_and!; [done|done|].
    destruct Hr as [(-> & Hno & Hn)|(-> & k & Hk & Hlim)]; [left|right]; (split; [done|]).
    + pose proof (count_set_all ks l). apply count_state_0 in Hno. lia.
    + exists k. split; [by apply Ht|done].
Qed.
End map_cases.

(** Why [map] refuses. *)
Definition map_error_cause (self : PageTable) (s : MState) (l : list FrameState) (v : VirtualAddr)
    (frame : FrameAddr) (perms : PagePermissions) (e : PageTableMapError) : Prop :=
  match e with
  | MapInvalidVirtualAddress => is_canonical self v = false
  | MapVirtualAddressUnaligned => v mod PAGE_SIZE ≠ 0
  | MapPhysicalAddressTooLarge =>
      physical_address_limit (pt_config self) ≤ frame ∨
      ∃ k, l !! k = Some Free ∧ physical_address_limit (pt_config self) ≤ frame_at k
  | MapNoExecuteUnsupported => executable perms = false ∧ nx_enabled (pt_config self) = false
  | MapPageAlreadyMapped => is_Some (walk self (ms_mem s) v)
  | MapHugePageConflict | MapInvalidPageTableEntry =>
      ∃ es, walk self (ms_mem s) v = Some es ∧ (length es ≤ length (levels self))%nat
  | MapOutOfFrames => count_state Free l < Z.of_nat (length (levels self))
  | MapPageTableOutsideDirectMap => False
  end.

Lemma map_spec self s l v frame perms cp g :
  pt_inv self s l → is_u64 v → is_u64 frame → frame mod FRAME_SIZE = 0 →
  ∃ r s', PageTable_map self v frame perms cp g s = Done (r, s') ∧
    match r with
    | Ok _ => ∃ l', map_ok_post self v frame perms s s' l l'
    | Err e => map_err_post self s s' l ∧ map_error_cause self s l v frame perms e
    end.
Proof.
  intros Hinv Hv Hfu Hfa. unfold PageTable_map.
  pose proof (map_err_post_refl self s l Hinv) as Hrefl.
  destruct (is_canonical self v) eqn:Hcv; simpl.
  2:{ exists (Err MapInvalidVirtualAddress), s. done. }
  destruct (Z.eqb_spec (v mod PAGE_SIZE) 0) as [Hal|Hal]; simpl.
  2:{ exists (Err MapVirtualAddressUnaligned), s. done. }
  destruct (PageTableEntry_new frame perms cp (pt_config self) g) as [leaf|e] eqn:Eleaf; simpl.
  2:{ apply entry_new_error_cause in Eleaf. exists (Err (map_entry_error e)), s. split; [done|].
      destruct e; simpl; auto. }
  assert (frame_ok (pt_config self) frame) as Hframe.
  { apply entry_new_Ok_lt in Eleaf. unfold is_u64 in Hfu. split; [lia|done]. }
  pose proof (entry_new_decode _ _ _ _ _ _ (pi_config _ _ _ Hinv) Hframe Eleaf) as Hleaf.
  mred. pose proof (map_walk_spec self s l v (user_accessible perms) Hinv [] (levels self)
    (pt_frame self) [] eq_refl eq_refl) as Hw. simpl in Hw.
  destruct (map_walk _ _ _ _ _ _ _ _) as [[[missing t] ups]|e].
  2:{ destruct Hw as [He Hw]; [split; [by intros ? ?%not_elem_of_nil|constructor]|].
      exists (Err e), s. split; [done|]. split; [done|]. destruct He as [->| ->]; exact Hw. }
  destruct Hw as (la & lb & Hlv & Hf & Hups & Hm);
    [split; [by intros ? ?%not_elem_of_nil|constructor]|].
  destruct missing as [[d loc]|].
  - destruct Hm as (lv & lc & Hlb & -> & -> & Habs).
    destruct (map_missing_case self s l Hinv v frame perms leaf Hv Hcv Hframe Hleaf ups la t lb Hlv Hf
      Hups lv lc Hlb Habs) as (r & s' & E & Hr).
    exists r, s'. split; [exact E|]. destruct r as [[]|e]; [done|]. destruct Hr as [Hp Hr].
    split; [done|]. destruct Hr as [[-> Hr]|[-> Hr]]; simpl; [|by right].
    rewrite Hlv, Hlb, length_app. simpl. lia.
  - subst lb. rewrite (table_translate self s l Hinv).
    2:{ eapply (own_table_ok self s l Hinv), (t_own self s v la t []); done. }
    cbn [ok_or]. mred.
    change (entry_at (ms_mem s) (t + _) (p1_index v)) with (heap_of self (ms_mem s) t (p1_index v)).
    destruct (is_present (heap_of self (ms_mem s) t (p1_index v))) eqn:Epr.
    + exists (Err MapPageAlreadyMapped), s. split_and!; [done|done|]. simpl.
      unfold walk, path, path_of. rewrite Hlv, app_nil_r.
      rewrite (resolve_app _ (pi_config _ _ _ Hinv) _ _ _ t) by done. simpl. rewrite Epr. simpl. eauto.
    + destruct (map_leaf_case self s l Hinv v frame perms leaf Hv Hcv Hframe Hleaf ups la t [] Hlv Hf
        Hups eq_refl Epr) as (s' & E & Hpost).
      exists (Ok tt), s'. split; [exact E|]. eauto.
Qed.

(** C3: [PageTable::map] never panics.  When it succeeds, exactly the page asked for becomes
    mapped, to the frame asked for and with exactly the permissions asked for; it was
    unmapped before; every other address translates as before with the same permissions;
    no allocated frame other than the page table's own tables is written; the TLB entry
    is flushed if this table is active; and the tree invariant holds again.  When it
    fails, no translation, no permission and no frame state has changed: frames taken for
    new tables have been given back. *)
Theorem map_correct (self : PageTable) (s : MState) (l : list FrameState) (v : VirtualAddr)
    (frame : FrameAddr) (perms : PagePermissions) (cp : CachePolicy) (g : bool) :
  pt_inv self s l → is_u64 v → is_u64 frame → frame mod FRAME_SIZE = 0 →
  ∃ r s', PageTable_map self v frame perms cp g s = Done (r, s') ∧
    match r with
    | Ok _ => ∃ l', map_ok_post self v frame perms s s' l l'
    | Err _ => map_err_post self s s' l
    end.
Proof.
  intros Hinv Hv Hfu Hfa.
  destruct (map_spec self s l v frame perms cp g Hinv Hv Hfu Hfa) as (r & s' & E & Hr).
  exists r, s'. split; [done|]. destruct r; [done|]. by destruct Hr.
Qed.

(** [PageTable::map] fails only for a reason: if the address is canonical and aligned, the
    frame is addressable, the permissions are supported, the walk finds no mapping, as
    many frames are free as there are levels and all free frames are addressable, it
    succeeds. *)
Theorem map_succeeds (self : PageTable) (s : MState) (l : list FrameState) (v : VirtualAddr)
    (frame : FrameAddr) (perms : PagePermissions) (cp : CachePolicy) (g : bool) :
  pt_inv self s l → is_u64 v → is_u64 frame → frame mod FRAME_SIZE = 0 →
  is_canonical self v = true → v mod PAGE_SIZE = 0 →
  frame < physical_address_limit (pt_config self) →
  executable perms = true ∨ nx_enabled (pt_config self) = true →
  walk self (ms_mem s) v = None →
  Z.of_nat (length (levels self)) ≤ count_state Free l →
  (∀ k, l !! k = Some Free → frame_at k < physical_address_limit (pt_config self)) →
  ∃ s', PageTable_map self v frame perms cp g s = Done (Ok tt, s').
Proof.
  intros Hinv Hv Hfu Hfa Hcv Hal Hlim Hx Hw Hfree Hall.
  destruct (map_spec self s l v frame perms cp g Hinv Hv Hfu Hfa) as (r & s' & E & Hr).
  destruct r as [[]|e]; [eauto|]. destruct Hr as [_ He]. exfalso.
  destruct e; simpl in He; try congruence; try lia.
  - destruct He as [He|(k & Hk & He)]; [lia|]. specialize (Hall k Hk). lia.
  - rewrite Hw in He. by destruct He.
  - destruct He as (es & He & _). congruence.
  - destruct He, Hx; congruence.
  - destruct He as (es & He & _). congruence.
Qed.

(** ** Creating a page table *)

Lemma tree_inv_empty config n (A : FrameAddr → Prop) root h :
  config_wf config → A root → (∀ j, idx_ok j → is_present (h root j) = false) →
  tree_inv config n A root h.
Proof.
  intros Hc HA Hz.
  assert (Hno : ∀ i, idx_ok i → entry_table_frame (h root i) config = None).
  { intros i Hi. rewrite entry_table_frame_eq, Hz by done. done. }
  assert (Hfol : ∀ p f, Forall idx_ok p → follow config h root p = Some f → p = [] ∧ f = root).
  { intros [|i p] f Hp; simpl; [by intros [= ->]|]. apply Forall_cons in Hp as [Hi _].
    by rewrite Hno. }
  split.
  - intros p f Hp _ Hf. by apply Hfol in Hf as [-> ->].
  - intros p q f Hp Hq _ _ Hf Hf'. apply Hfol in Hf as [-> _], Hf' as [-> _]; done.
  - intros p f i Hp Hi _ Hf [g Hg]. apply Hfol in Hf as [-> ->]; [|done].
    by rewrite Hno in Hg.
  - intros [|i p] es e Hp Hl; simpl; [done|]. apply Forall_cons in Hp as [Hi _]. by rewrite Hz.
Qed.

Lemma page_table_new_off s l dm config r s1 :
  fa_inv s l → PageTable_new dm config s = Done (r, s1) →
  ∀ j, off_frame s j → l !! j ≠ Some Free → kept_frame s s1 j.
Proof.
  intros Hfa. unfold PageTable_new.
  destruct (alloc_contract s l Hfa) as [[E _]|(k & s' & E & Hk & Hfa1 & Hl & _)]; rewrite (bind_Done _ _ _ _ _ E).
  { by intros [= _ <-]. }
  assert (Hoff := alloc_off s l k s' Hfa E). destruct (_ <=? _).
  2:{ intros [= _ <-] j Hj Hf. apply Hoff; [done|congruence]. }
  assert (Hk1 : <[k := Allocated]> l !! k = Some Allocated) by (apply list_lookup_insert_eq; by eapply lookup_lt_Some).
  destruct (dealloc_contract s' _ k Hfa1 Hk1) as (s2 & E2 & _). rewrite (bind_Done _ _ _ _ _ E2). intros [= _ <-] j Hj Hf.
  eapply kept_frame_trans; [done|apply Hoff; [done|congruence]|].
  eapply dealloc_off; [exact Hfa1|exact Hk1|exact E2|by eapply off_frame_layout].
Qed.

Lemma page_table_new_spec s l dm config :
  fa_inv s l → direct_map (ms_fa s) = dm → config_wf config →
  ∃ r s', PageTable_new dm config s = Done (r, s') ∧
    match r with
    | Ok self => ∃ k, l !! k = Some Free ∧ self = mkPageTable dm config (frame_at k) ∧
        pt_inv self s' (<[k := Allocated]> l) ∧
        (∀ x, PageTable_to_physical self (ms_mem s') x = None) ∧
        (∀ j, idx_ok j → heap_of self (ms_mem s') (pt_frame self) j = 0) ∧
        (∀ j, j ≠ k → l !! j = Some Allocated → kept_frame s s' j)
    | Err e => fa_inv s' l ∧ same_layout s s' ∧ (e = CreateOutOfFrames → Free ∉ l) ∧
        (∀ j, l !! j = Some Allocated → kept_frame s s' j)
    end.
Proof.
  intros Hfa Hdm Hcfg. unfold PageTable_new.
  destruct (alloc_contract s l Hfa) as [[E Hno]|(k & s1 & E & Hk & Hfa1 & Hl1 & Hz & Hkept)].
  { rewrite (bind_Done _ _ _ _ _ E). by exists (Err CreateOutOfFrames), s. }
  rewrite (bind_Done _ _ _ _ _ E). pose proof (lookup_lt_Some _ _ _ Hk) as Hlt.
  destruct (Z.leb_spec (physical_address_limit config) (Z.of_nat k * FRAME_SIZE)).
  - destruct (dealloc_contract s1 _ k Hfa1) as (s2 & E2 & Hfa2 & Hl2 & Hk2);
      [by apply list_lookup_insert_eq|].
    rewrite (bind_Done _ _ _ _ _ E2). exists (Err CreatePhysicalAddressTooLarge), s2.
    rewrite list_insert_insert_eq, list_insert_id in Hfa2 by done.
    split_and!; [done|done|by etrans|done|]. intros j Hj.
    assert (j ≠ k) by congruence.
    eapply kept_frame_trans; [done|by eapply Hkept|].
    apply (Hk2 j Allocated); [|done]. by rewrite list_lookup_insert_ne.
  - set (self := mkPageTable dm config (frame_at k)). exists (Ok self), s1. split; [done|].
    exists k. assert (Hzero : ∀ j, idx_ok j → heap_of self (ms_mem s1) (frame_at k) j = 0).
    { intros j Hj. apply load64_all_zero. intros b Hb. apply Hz. simpl in Hb. rewrite Hdm.
      unfold in_frame, frame_virt, frame_at, idx_ok, PAGE_TABLE_ENTRIES, FRAME_SIZE in *. lia. }
    assert (Hinv : pt_inv self s1 (<[k := Allocated]> l)).
    { destruct Hl1 as (_ & L2 & _). split; [done|done|by rewrite L2|].
      apply tree_inv_empty; [done| |].
      - split; [split; [unfold frame_at, FRAME_SIZE in *; simpl; lia|apply Z.mod_mul; done]|].
        change (pt_frame self) with (frame_at k). rewrite frame_at_index.
        by apply list_lookup_insert_eq.
      - intros j Hj. change (pt_frame self) with (frame_at k). by rewrite Hzero. }
    split_and!; [done|done|done| |done|].
    + intros x. destruct (is_canonical self x) eqn:Hc.
      * rewrite (proj1 (view_walk self s1 _ x Hinv Hc)). unfold walk.
        pose proof (path_of_ok (levels self) x) as Hok. unfold path.
        destruct (path_of (levels self) x) as [|i q]; [done|].
        apply Forall_cons in Hok as [Hi _]. simpl. by rewrite Hzero.
      * unfold PageTable_to_physical. by rewrite Hc.
    + intros j Hne Hj. by eapply Hkept.
Qed.

(** [PageTable::new] hands out an empty page table: it takes one free frame, maps nothing,
    satisfies the invariant the other operations rely on, and leaves all other allocated
    frames alone.  On failure every frame state is as before, and it reports exhaustion
    only if no frame is free. *)
Theorem page_table_new_correct (s : MState) (l : list FrameState) (dm : DirectMap)
    (config : PagingConfig) :
  fa_inv s l → direct_map (ms_fa s) = dm → config_wf config →
  ∃ r s', PageTable_new dm config s = Done (r, s') ∧
    match r with
    | Ok self => ∃ k, l !! k = Some Free ∧ self = mkPageTable dm config (frame_at k) ∧
        pt_inv self s' (<[k := Allocated]> l) ∧
        (∀ x, PageTable_to_physical self (ms_mem s') x = None) ∧
        (∀ j, j ≠ k → l !! j = Some Allocated → kept_frame s s' j)
    | Err e => fa_inv s' l ∧ same_layout s s' ∧ (e = CreateOutOfFrames → Free ∉ l) ∧
        (∀ j, l !! j = Some Allocated → kept_frame s s' j)
    end.
Proof.
  intros Hfa Hdm Hc. destruct (page_table_new_spec s l dm config Hfa Hdm Hc) as (r & s' & E & Hr).
  exists r, s'. split; [done|]. destruct r; [|done].
  destruct Hr as (k & ? & ? & ? & ? & _ & ?). by exists k.
Qed.

Definition demo_config : PagingConfig := mkPagingConfig 40 true true FourLevel.

Lemma demo_config_wf : config_wf demo_config.
Proof. split; simpl; lia. Qed.

Lemma page_table_new_correct_witness :
  ∃ s', PageTable_new demo_dm demo_config demo_state =
          Done (Ok (mkPageTable demo_dm demo_config 8192), s') ∧
    PageTable_to_physical (mkPageTable demo_dm demo_config 8192) (ms_mem s') 0x1000 = None.
Proof.
  destruct (page_table_new_correct demo_state (a_frames demo_abs) demo_dm demo_config)
    as (r & s' & E & H); [apply demo_refines|done|apply demo_config_wf|].
  assert (r = Ok (mkPageTable demo_dm demo_config 8192)) as ->
    by (eapply returned_Done; [exact E|vm_compute; reflexivity]).
  exists s'. split; [exact E|]. destruct H as (k & _ & _ & _ & H & _). apply H.
Defined.

(** A page table in a small machine, for concrete runs. *)
Definition demo_pt : PageTable := mkPageTable demo_dm demo_config 8192.
Definition demo_pt_state : MState :=
  match PageTable_new demo_dm demo_config demo_state with
  | Done (_, s) => s
  | _ => demo_state
  end.
Definition demo_pt_frames : list FrameState := [Reserved; Reserved; Allocated; Free; Free; Free].

Lemma demo_pt_inv : pt_inv demo_pt demo_pt_state demo_pt_frames.
Proof.
  destruct (page_table_new_spec demo_state (a_frames demo_abs) demo_dm demo_config)
    as (r & s' & E & H); [apply demo_refines|done|apply demo_config_wf|].
  unfold demo_pt_state. rewrite E.
  assert (r = Ok (mkPageTable demo_dm demo_config 8192)) as ->
    by (eapply returned_Done; [exact E|vm_compute; reflexivity]).
  destruct H as (k & Hk & Heq & Hinv & _).
  assert (k = 2%nat) as ->; [|exact Hinv].
  injection Heq as Heq. unfold frame_at, FRAME_SIZE in Heq. lia.
Qed.

Lemma map_correct_witness :
  ∃ s' l', PageTable_map demo_pt 0x1000 0 (mkPagePermissions true true true) WriteBack false
             demo_pt_state = Done (Ok tt, s') ∧
    map_ok_post demo_pt 0x1000 0 (mkPagePermissions true true true) demo_pt_state s' demo_pt_frames l'.
Proof.
  destruct (map_correct demo_pt demo_pt_state demo_pt_frames 0x1000 0
    (mkPagePermissions true true true) WriteBack false) as (r & s' & E & H);
    [apply demo_pt_inv|done|done|done|].
  assert (r = Ok tt) as -> by (eapply returned_Done; [exact E|vm_compute; reflexivity]).
  destruct H as [l' H]. exists s', l'. split; [exact E|exact H].
Defined.

Lemma map_succeeds_witness :
  ∃ s', PageTable_map demo_pt 0x7000 0 (mkPagePermissions false false true) WriteBack false
          demo_pt_state = Done (Ok tt, s').
Proof.
  apply (map_succeeds demo_pt demo_pt_state demo_pt_frames);
    [apply demo_pt_inv|done|done|done|done|done|done|by right|vm_compute; reflexivity|done|].
  intros k Hk. assert (k < 6)%nat as Hlt by (by apply lookup_lt_Some in Hk).
  unfold frame_at, FRAME_SIZE. change (physical_address_limit (pt_config demo_pt)) with (2 ^ 40). lia.
Defined.
