(* ===== verification/PageUnmap.v ===== *)
(** * Unmapping pages

    The theorems about [PageTable::unmap] of [Paging]: the tables that become unreachable are
    exactly the frames given back. *)

From S2P Require Import Prelude Memory Frame Paging PageTree PageMap.

Lemma table_is_empty_spec self m f :
  table_is_empty m (f + offset (pt_direct_map self)) = true ↔
  ∀ j, idx_ok j → is_present (heap_of self m f j) = false.
Proof.
  unfold table_is_empty. rewrite forallb_forall. split.
  - intros H j Hj. apply negb_true_iff, H, list_elem_of_In, elem_of_range. done.
  - intros H j Hj%list_elem_of_In%elem_of_range. apply negb_true_iff, H, Hj.
Qed.

(** Cutting an entry off a tree. *)
Section cut.
Context (config : PagingConfig) (Hcfg : config_wf config).
Context (n : nat) (A : FrameAddr → Prop) (root : FrameAddr) (h : heap).
Context (Hinv : tree_inv config n A root h).
Context (p : list Z) (t : FrameAddr) (i : Z).
Context (Hp : Forall idx_ok p) (Hi : idx_ok i) (Hlen : (length p ≤ n)%nat).
Context (Hf : follow config h root p = Some t).

Lemma cut_tree : tree_inv config n A root (hupd h t i PageTableEntry_null).
Proof. apply (tree_put config Hcfg n A) with (p := p); try done. by left. Qed.

Lemma cut_follow q :
  Forall idx_ok q → (length q ≤ n)%nat →
  follow config (hupd h t i PageTableEntry_null) root q =
  if decide ((p ++ [i]) `prefix_of` q) then None else follow config h root q.
Proof. intros. apply (follow_put config Hcfg n A); try done. by left. Qed.

Lemma cut_resolve q :
  Forall idx_ok q → length q = S n →
  resolve config (hupd h t i PageTableEntry_null) root q =
  if decide ((p ++ [i]) `prefix_of` q) then None else resolve config h root q.
Proof.
  intros Hq Hl. case_decide as Hpre.
  - destruct Hpre as [r ->]. rewrite <- app_assoc. simpl.
    by apply (resolve_put_absent config Hcfg n A).
  - apply (walk_upd_other config n A) with (p := p); try done. lia.
Qed.

(** Cutting off an empty table changes no walk's result, and makes it unreachable. *)
Lemma cut_empty c :
  (length p < n)%nat → entry_table_frame (h t i) config = Some c →
  (∀ j, idx_ok j → is_present (h c j) = false) →
  (∀ q, Forall idx_ok q → length q = S n →
     resolve config (hupd h t i PageTableEntry_null) root q = resolve config h root q) ∧
  (∀ q, Forall idx_ok q → (length q ≤ n)%nat →
     follow config (hupd h t i PageTableEntry_null) root q ≠ Some c).
Proof.
  intros Hpn Hc Hempty.
  assert (Hfc : follow config h root (p ++ [i]) = Some c) by (rewrite follow_snoc, Hf; done).
  split.
  - intros q Hq Hl. rewrite cut_resolve by done. case_decide as Hpre; [|done].
    destruct Hpre as [r ->]. apply Forall_app in Hq as [_ Hr].
    destruct r as [|j r]; [rewrite !length_app in Hl; simpl in Hl; lia|].
    apply Forall_cons in Hr as [Hj _].
    rewrite (resolve_app config Hcfg _ _ _ c) by done. simpl. by rewrite Hempty.
  - intros q Hq Hl. rewrite cut_follow by done. case_decide as Hpre; [done|]. intros Hqc.
    apply Hpre. assert (q = p ++ [i]) as ->; [|done].
    eapply (ti_inj _ _ _ _ _ Hinv); try done; [|rewrite length_app; simpl; lia].
    apply Forall_app. split; [done|by constructor].
Qed.

(** Cutting never makes a table reachable. *)
Lemma cut_follow_sub q f :
  Forall idx_ok q → (length q ≤ n)%nat →
  follow config (hupd h t i PageTableEntry_null) root q = Some f → follow config h root q = Some f.
Proof. intros Hq Hl. rewrite cut_follow by done. by case_decide. Qed.
End cut.

(** The table [f] lies below the root on the way to [v], and from it down the tables on the way
    have no entries but those of the way: without the page of [v] they are empty. *)
Definition vacated (self : PageTable) (m : memory) (v : VirtualAddr) (f : FrameAddr) : Prop :=
  ∃ q r, path self v = q ++ r ∧ q ≠ [] ∧ r ≠ [] ∧
    follow (pt_config self) (heap_of self m) (pt_frame self) q = Some f ∧
    ∀ q' i r' g j, path self v = (q ++ q') ++ i :: r' →
      follow (pt_config self) (heap_of self m) (pt_frame self) (q ++ q') = Some g →
      idx_ok j → j ≠ i → is_present (heap_of self m g j) = false.

(** A split of the path of an address. *)
Lemma path_cut self v q r :
  path self v = q ++ r → r ≠ [] →
  q = take (length q) (map (λ lv, level_index lv v) (levels self)) ∧ Forall idx_ok q ∧
  (length q ≤ length (levels self))%nat.
Proof.
  intros E Hr. pose proof (path_of_ok (levels self) v) as Hok. pose proof (path_of_length (levels self) v) as Hlen.
  change (path_of (levels self) v) with (path self v) in *. rewrite E in Hok, Hlen.
  rewrite length_app in Hlen. apply Forall_app in Hok as [Hq _]. destruct r as [|x r]; [done|]. simpl in Hlen.
  split_and!; [|done|lia]. pose proof (f_equal (take (length q)) E) as Et. rewrite take_app_length in Et.
  rewrite <- Et at 1. unfold path, path_of. rewrite take_app_le; [done|]. rewrite length_map. lia.
Qed.

Section unmap.
Context (self : PageTable) (s : MState) (l : list FrameState) (Hinv : pt_inv self s l).
Context (v : VirtualAddr).
Abbreviation cfg := (pt_config self).
Abbreviation root := (pt_frame self).
Abbreviation nlev := (length (levels self)).
Abbreviation h0 := (heap_of self (ms_mem s)).
Abbreviation ip := (map (λ lv, level_index lv v) (levels self)).

Lemma ip_ok d : Forall idx_ok (take d ip).
Proof.
  apply Forall_take, Forall_forall. intros i (lv & -> & _)%list_elem_of_fmap. apply level_index_ok.
Qed.

Lemma ip_length d : (d ≤ nlev)%nat → length (take d ip) = d.
Proof. intros. rewrite length_take, length_map. lia. Qed.

Lemma ip_step d lv : levels self !! d = Some lv → take (S d) ip = take d ip ++ [level_index lv v].
Proof. intros H. apply take_S_r. by rewrite list_lookup_fmap, H. Qed.

Lemma ip_path d lv : levels self !! d = Some lv → path self v !! d = Some (level_index lv v).
Proof.
  intros H. pose proof (lookup_lt_Some _ _ _ H). unfold path, path_of.
  rewrite lookup_app_l by (rewrite length_map; lia). by rewrite list_lookup_fmap, H.
Qed.

(** The table at depth [d] has one entry on the way. *)
Lemma path_entry_index d f i j :
  (d ≤ nlev)%nat → follow cfg h0 root (take d ip) = Some f → path self v !! d = Some i →
  path_entry self (ms_mem s) v f j → j = i.
Proof.
  intros Hd Hf Hi (q & r & E & Hq). destruct (path_cut self v q (j :: r) E ltac:(done)) as (_ & Hok & Hl).
  assert (q = take d ip) as ->.
  { eapply (ti_inj _ _ _ _ _ (pi_tree _ _ _ Hinv)); [exact Hok|apply ip_ok|exact Hl| |exact Hq|exact Hf].
    rewrite ip_length; lia. }
  rewrite E, lookup_app_r, ip_length, Nat.sub_diag in Hi by (rewrite ?ip_length; lia). by injection Hi.
Qed.

(** The walk of [unmap] collects the tables on the path, or names what stopped it. *)
Lemma unmap_walk_spec la lb f :
  levels self = la ++ lb →
  follow cfg h0 root (map (λ lv, level_index lv v) la) = Some f →
  match unmap_walk self (ms_mem s) v lb f with
  | Ok tfs => length tfs = S (length lb) ∧ ∀ d g, tfs !! d = Some g →
      follow cfg h0 root (take (length la + d) ip) = Some g
  | Err e => (e = UnmapPageNotMapped ∧ walk self (ms_mem s) v = None) ∨
      ((e = UnmapHugePageConflict ∨ e = UnmapInvalidPageTableEntry) ∧
       ∃ q i r g, path self v = q ++ i :: r ∧ r ≠ [] ∧ follow cfg h0 root q = Some g ∧
         is_huge (h0 g i) = true)
  end.
Proof.
  pose proof (pi_config _ _ _ Hinv) as Hcfg.
  revert la f. induction lb as [|lv lb IH]; intros la f Hlv Hf; simpl.
  { split; [done|]. intros [|d] g; simpl; [|done]. intros [= <-].
    rewrite app_nil_r in Hlv. rewrite Nat.add_0_r, Hlv, take_ge by (rewrite length_map; lia). done. }
  assert (Hidx : Forall idx_ok (map (λ lv, level_index lv v) la)).
  { apply Forall_forall. intros i (x & -> & _)%list_elem_of_fmap. apply level_index_ok. }
  unfold get_next_level. rewrite (table_translate self s l Hinv).
  2:{ apply (own_table_ok self s l Hinv). eexists. split_and!; [done| |done].
      rewrite Hlv, length_map, length_app. lia. }
  simpl. change (entry_at (ms_mem s) (f + _) (level_index lv v)) with (h0 f (level_index lv v)).
  assert (Hpath : path self v = map (λ lv, level_index lv v) la ++ level_index lv v :: path_of lb v).
  { unfold path, path_of. rewrite Hlv, map_app, <- app_assoc. done. }
  destruct (is_huge (h0 f (level_index lv v))) eqn:Eh.
  { destruct (large_page_size lv); simpl; right; (split; [auto|]);
      exists (map (λ lv, level_index lv v) la), (level_index lv v), (path_of lb v), f;
      by (split_and!; try done; destruct lb). }
  destruct (entry_table_frame (h0 f (level_index lv v)) cfg) as [g|] eqn:Eg; simpl.
  2:{ left. split; [done|]. unfold walk. rewrite Hpath, (resolve_app cfg Hcfg _ _ _ f) by done.
      rewrite entry_table_frame_eq, Eh, orb_false_r in Eg by done. simpl.
      by destruct (is_present _). }
  specialize (IH (la ++ [lv]) g). rewrite map_app, length_app, <- app_assoc in IH. simpl in IH.
  specialize (IH Hlv ltac:(rewrite follow_snoc, Hf; done)).
  destruct (unmap_walk self (ms_mem s) v lb g) as [tfs|e]; [|done]. simpl.
  destruct IH as [Hl IH]. split; [lia|]. intros [|d] g'; simpl.
  - intros [= <-]. rewrite Nat.add_0_r, Hlv, map_app, take_app_length' by (by rewrite length_map). done.
  - intros Hd. rewrite <- (IH d g' Hd). f_equal. f_equal. lia.
Qed.

Context (tfs : list FrameAddr) (hleaf : heap).

(** The state of the loop that removes empty tables, before depth [d] is looked at. *)
Record prune_inv (d : nat) (s' : MState) (h : heap) (freed : list FrameAddr) : Prop := {
  pr_writes : writes_in l (own_table self (ms_mem s)) s s';
  pr_reads : reads_as self l s' h;
  pr_tree : tree_inv cfg nlev (table_ok cfg l) root h;
  pr_path : ∀ d', (d' ≤ d)%nat → ∃ f, tfs !! d' = Some f ∧ own_table self (ms_mem s) f ∧
    follow cfg h root (take d' ip) = Some f;
  pr_sub : ∀ q f, Forall idx_ok q → (length q ≤ nlev)%nat → follow cfg h root q = Some f →
    follow cfg h0 root q = Some f;
  pr_resolve : ∀ q, Forall idx_ok q → length q = S nlev →
    resolve cfg h root q = resolve cfg hleaf root q;
  pr_entries : ∀ f j, idx_ok j → ¬ path_entry self (ms_mem s) v f j → h f j = h0 f j;
  pr_nodup : NoDup freed;
  pr_freed : ∀ f, f ∈ freed → own_table self (ms_mem s) f ∧
    ∀ q, Forall idx_ok q → (length q ≤ nlev)%nat → follow cfg h root q ≠ Some f;
  pr_above : ∀ f, f ∈ freed ↔ ∃ d', (d < d' ≤ nlev)%nat ∧ tfs !! d' = Some f;
  pr_quiet : ∀ d' f i j, (d < d')%nat → tfs !! d' = Some f → path self v !! d' = Some i → idx_ok j → j ≠ i →
    is_present (h0 f j) = false;
  pr_cut : ∀ f i, tfs !! d = Some f → path self v !! d = Some i → is_present (h f i) = false;
  pr_linked : ∀ q f, Forall idx_ok q → (length q ≤ nlev)%nat → follow cfg h0 root q = Some f →
    f ∈ freed ∨ follow cfg h root q = Some f;
}.

(** The table at depth [d] of the path has no entries left. *)
Definition depth_empty (d : nat) (h : heap) : Prop :=
  ∀ f j, tfs !! d = Some f → idx_ok j → is_present (h f j) = false.

Lemma table_empty_depth d m h f :
  tfs !! d = Some f → table_ok cfg l f →
  (∀ g j, table_ok cfg l g → idx_ok j → heap_of self m g j = h g j) →
  table_is_empty m (f + offset (pt_direct_map self)) = true ↔ depth_empty d h.
Proof.
  intros Hf Hok Hr. rewrite table_is_empty_spec. unfold depth_empty. split.
  - intros H f' j Hf' Hj. simplify_eq. rewrite <- Hr by done. by apply H.
  - intros H j Hj. rewrite Hr by done. by eapply H.
Qed.

(** One round unlinks the empty table at depth [S d]. *)
Lemma prune_round d s' h freed lv f c s2 :
  prune_inv (S d) s' h freed → depth_empty (S d) h → (S d ≤ nlev)%nat →
  levels self !! d = Some lv → tfs !! d = Some f → tfs !! S d = Some c →
  writes_in l (eq f) s' s2 →
  reads_as self l s2 (hupd h f (level_index lv v) PageTableEntry_null) →
  prune_inv d s2 (hupd h f (level_index lv v) PageTableEntry_null) (freed ++ [c]).
Proof.
  intros Hpr Hem Hd Hlv Hf Hc Hw Hr. pose proof (pi_config _ _ _ Hinv) as Hcfg.
  pose proof (pr_tree _ _ _ _ Hpr) as Htree.
  destruct (pr_path _ _ _ _ Hpr d ltac:(lia)) as (f' & Ef & Hfo & Hff).
  destruct (pr_path _ _ _ _ Hpr (S d) ltac:(lia)) as (c' & Ec & Hco & Hcf). simplify_eq.
  pose proof (ip_ok d) as Hpk. pose proof (ip_length d ltac:(lia)) as Hpl.
  assert (Hedge : entry_table_frame (h f (level_index lv v)) cfg = Some c).
  { rewrite (ip_step _ _ Hlv), follow_snoc, Hff in Hcf. done. }
  destruct (cut_empty cfg Hcfg nlev _ root h Htree (take d ip) f (level_index lv v) Hpk
    (level_index_ok _ _) ltac:(lia) Hff c ltac:(lia) Hedge (λ j Hj, Hem c j Hc Hj)) as [Cr Cf].
  split.
  - eapply writes_in_trans; [apply Hpr|]. eapply writes_in_mono; [|done]. by intros ? <-.
  - done.
  - apply (cut_tree cfg Hcfg nlev _ root h Htree (take d ip)); try done. lia.
  - intros d' Hd'. destruct (pr_path _ _ _ _ Hpr d' ltac:(lia)) as (g & Eg & Hgo & Hgf).
    exists g. split_and!; [done|done|].
    rewrite (cut_follow cfg Hcfg nlev _ root h Htree (take d ip)) by
      (done || lia || apply ip_ok || rewrite ip_length; lia).
    rewrite decide_False; [done|]. intros Hpre%prefix_length.
    rewrite length_app, !ip_length in Hpre by lia. simpl in Hpre. lia.
  - intros q g Hq Hl Hqg. apply Hpr; [done..|].
    apply (cut_follow_sub cfg Hcfg nlev _ root h Htree (take d ip) f (level_index lv v));
      done || lia.
  - intros q Hq Hl. rewrite Cr by done. by apply Hpr.
  - intros g j Hj Hno. rewrite hupd_ne; [by apply Hpr|]. intros [= -> ->]. apply Hno.
    exists (take d ip), (drop (S d) ip ++ [p1_index v]). split.
    + change (path self v) with (ip ++ [p1_index v]). rewrite <- (take_drop (S d) ip) at 1.
      rewrite (ip_step _ _ Hlv), <- !app_assoc. done.
    + apply Hpr; [done|lia|done].
  - apply NoDup_app. split_and!; [apply Hpr| |apply NoDup_singleton].
    intros g Hg ->%list_elem_of_singleton. destruct (pr_freed _ _ _ _ Hpr c Hg) as [_ Hun].
    apply (Hun (take (S d) ip)); [apply ip_ok| |done]. rewrite ip_length; lia.
  - intros g [Hg| ->%list_elem_of_singleton]%elem_of_app; [|done].
    destruct (pr_freed _ _ _ _ Hpr g Hg) as [Ho Hun]. split; [done|]. intros q Hq Hl Hqg.
    apply (Hun q Hq Hl).
    apply (cut_follow_sub cfg Hcfg nlev _ root h Htree (take d ip) f (level_index lv v));
      done || lia.
  - intros g. rewrite elem_of_app, list_elem_of_singleton, (pr_above _ _ _ _ Hpr). split.
    + intros [(d' & Hd' & Hg)| ->]; [exists d'; auto with lia|exists (S d); auto with lia].
    + intros (d' & Hd' & Hg). destruct (decide (d' = S d)) as [->|]; [right; congruence|left].
      exists d'. auto with lia.
  - intros d' g i j Hd' Hg Hi Hj Hne. destruct (decide (d' = S d)) as [->|].
    2: by eapply (pr_quiet _ _ _ _ Hpr d'); [lia|..].
    rewrite Hc in Hg. injection Hg as <-. rewrite <- (pr_entries _ _ _ _ Hpr c j Hj); [by eapply Hem|].
    intros Hpe. apply Hne. eapply (path_entry_index (S d)); [lia| |exact Hi|exact Hpe].
    apply (pr_sub _ _ _ _ Hpr); [apply ip_ok|rewrite ip_length; lia|done].
  - intros g i Hg Hi. rewrite (ip_path _ _ Hlv) in Hi. rewrite Hf in Hg. injection Hg as <-. injection Hi as <-.
    by rewrite hupd_eq.
  - intros q g Hq Hl Hqg. destruct (pr_linked _ _ _ _ Hpr q g Hq Hl Hqg) as [?|Hg]; [left; set_solver|].
    rewrite (cut_follow cfg Hcfg nlev _ root h Htree (take d ip)) by (done || lia).
    rewrite <- (ip_step _ _ Hlv). case_decide as Hpre; [left|by right]. destruct Hpre as [r ->].
    rewrite follow_app, Hcf in Hg. destruct r as [|j r]; [injection Hg as <-; set_solver|].
    exfalso. apply Forall_app in Hq as [_ [Hj _]%Forall_cons]. simpl in Hg.
    rewrite (entry_table_frame_eq _ _ Hcfg), (Hem c j Hc Hj) in Hg. done.
Qed.

Lemma unmap_prune_spec d s' h freed empty :
  (d ≤ nlev)%nat → prune_inv d s' h freed → (empty = true ↔ depth_empty d h) →
  ∃ s2 h2 freed2 d2, unmap_prune self v tfs d empty freed s' = Done (freed2, s2) ∧
    (d2 ≤ nlev)%nat ∧ prune_inv d2 s2 h2 freed2 ∧ (d2 = 0%nat ∨ ¬ depth_empty d2 h2).
Proof.
  revert s' h freed empty. induction d as [|d IH]; intros s' h freed empty Hd Hpr Hem; simpl.
  { exists s', h, freed, 0%nat. auto. }
  destruct empty; simpl.
  2:{ exists s', h, freed, (S d). split_and!; [done|done|done|]. right. by intros ?%Hem. }
  pose proof Hem as Hem0. apply proj1 in Hem. specialize (Hem eq_refl).
  destruct (pr_path _ _ _ _ Hpr d ltac:(lia)) as (f & Ef & Hfo & Hff).
  destruct (pr_path _ _ _ _ Hpr (S d) ltac:(lia)) as (c & Ec & _). rewrite Ef, Ec.
  destruct (lookup_lt_is_Some_2 (levels self) d ltac:(lia)) as [lv Hlv]. rewrite Hlv.
  unfold expect at 1 2 3. mred. pose proof (own_table_ok self s l Hinv f Hfo) as Hfok.
  destruct (write_entry_spec self l s' h f (level_index lv v) PageTableEntry_null
    "validated page table left the direct map" (wi_fa _ _ _ _ (pr_writes _ _ _ _ Hpr))
    (pr_reads _ _ _ _ Hpr) Hfok (level_index_ok _ _) ltac:(done)) as (s2 & E2 & W2 & R2).
  rewrite (bind_Done _ _ _ _ _ E2).
  pose proof (prune_round _ _ _ _ _ _ _ _ Hpr Hem Hd Hlv Ef Ec W2 R2) as Hpr2.
  destruct (Nat.ltb_spec 0 d) as [Hd0|Hd0].
  - rewrite bind_assoc. rewrite (reads_as_table self l s2 _ f (wi_fa _ _ _ _ W2) R2 Hfok).
    unfold expect. mred. eapply IH; [lia|done|]. eapply table_empty_depth; try done. apply R2.
  - assert (d = 0%nat) as -> by lia. mred. simpl.
    exists s2, (hupd h f (level_index lv v) PageTableEntry_null), (freed ++ [c]), 0%nat. auto with lia.
Qed.
End unmap.

(** The promise of a successful [unmap]. *)
Record unmap_post (self : PageTable) (v : VirtualAddr) (frame : FrameAddr) (s s' : MState)
    (l l' : list FrameState) : Prop := {
  up_inv : pt_inv self s' l';
  up_frame : ∀ x, is_u64 x → x / PAGE_SIZE = v / PAGE_SIZE →
    PageTable_to_physical self (ms_mem s) x = Some (frame + x mod PAGE_SIZE);
  up_gone : unmapped_page self (ms_mem s') v;
  up_others : others_same self (ms_mem s) (ms_mem s') v;
  up_freed : ∀ k, l' !! k = l !! k ∨
    (l !! k = Some Allocated ∧ l' !! k = Some Free ∧ own_table self (ms_mem s) (frame_at k) ∧
     ¬ own_table self (ms_mem s') (frame_at k));
  up_kept : ∀ k, l !! k = Some Allocated → ¬ own_table self (ms_mem s) (frame_at k) →
    kept_frame s s' k;
  up_tables : ∀ f, own_table self (ms_mem s') f → own_table self (ms_mem s) f;
  up_flush : ms_flushed s' = (if active_root self s then v :: ms_flushed s else ms_flushed s);
  up_entries : entries_kept self v (ms_mem s) (ms_mem s');
  up_cr3 : ms_cr3 s' = ms_cr3 s;
  up_area : same_area s s';
  up_reclaimed : ∀ k, vacated self (ms_mem s) v (frame_at k) →
    l !! k = Some Allocated ∧ l' !! k = Some Free;
  up_only : ∀ k, l' !! k ≠ l !! k → vacated self (ms_mem s) v (frame_at k);
  up_data : ∀ k, data_frame l s k → ¬ own_table self (ms_mem s) (frame_at k) → kept_frame s s' k;
  up_linked : ∀ f, own_table self (ms_mem s) f → vacated self (ms_mem s) v f ∨ own_table self (ms_mem s') f;
}.

(** Why [unmap] refuses. *)
Definition unmap_error_cause (self : PageTable) (s : MState) (v : VirtualAddr)
    (e : PageTableUnmapError) : Prop :=
  match e with
  | UnmapInvalidVirtualAddress => is_canonical self v = false
  | UnmapVirtualAddressUnaligned => v mod PAGE_SIZE ≠ 0
  | UnmapPageNotMapped => walk self (ms_mem s) v = None
  | UnmapHugePageConflict | UnmapInvalidPageTableEntry =>
      ∃ q i r g, path self v = q ++ i :: r ∧ r ≠ [] ∧
        follow (pt_config self) (heap_of self (ms_mem s)) (pt_frame self) q = Some g ∧
        is_huge (heap_of self (ms_mem s) g i) = true
  | UnmapPageTableOutsideDirectMap => False
  end.

Section unmap_finish.
Context (self : PageTable) (s : MState) (l : list FrameState) (Hinv : pt_inv self s l).
Context (v : VirtualAddr) (Hv : is_u64 v) (Hcv : is_canonical self v = true).
Context (t : FrameAddr) (frame : FrameAddr).
Abbreviation cfg := (pt_config self).
Abbreviation root := (pt_frame self).
Abbreviation nlev := (length (levels self)).
Abbreviation h0 := (heap_of self (ms_mem s)).
Abbreviation ip := (map (λ lv, level_index lv v) (levels self)).
Abbreviation hleaf := (hupd h0 t (p1_index v) PageTableEntry_null).
Context (Ht : follow cfg h0 root ip = Some t).
Context (Hleaf : entry_leaf_frame (h0 t (p1_index v)) cfg = Some frame).

Lemma unmap_before x :
  is_u64 x → x / PAGE_SIZE = v / PAGE_SIZE →
  PageTable_to_physical self (ms_mem s) x = Some (frame + x mod PAGE_SIZE).
Proof.
  intros Hx E. pose proof (pi_config _ _ _ Hinv) as Hcfg.
  rewrite (proj1 (view_walk self s l x Hinv ltac:(by rewrite (canonical_page self x v)))).
  rewrite (walk_page self _ x v) by done. unfold walk, path, path_of.
  rewrite (resolve_app cfg Hcfg _ _ _ t) by done. simpl.
  rewrite entry_leaf_frame_eq in Hleaf by done.
  destruct (is_present (h0 t (p1_index v))); simpl in *; [|done]. injection Hleaf as Hleaf.
  apply (phys_from_leaf self s l Hinv); [|done|].
  - rewrite <- Hleaf. by apply entry_physical_address_ok.
  - by rewrite (along_length _ _ _ _ t), length_map by done.
Qed.

Lemma ip_full_ok : Forall idx_ok ip ∧ length ip = nlev.
Proof.
  split; [|by rewrite length_map].
  apply Forall_forall. intros i (lv & -> & _)%list_elem_of_fmap. apply level_index_ok.
Qed.

(** Walks after the leaf was cleared. *)
Lemma hleaf_resolve x :
  is_u64 x → is_canonical self x = true →
  resolve cfg hleaf root (path self x) =
  if decide (x / PAGE_SIZE = v / PAGE_SIZE) then None else walk self (ms_mem s) x.
Proof.
  intros Hx Hcx. destruct ip_full_ok as [Hok Hlen].
  rewrite (cut_resolve cfg (pi_config _ _ _ Hinv) nlev _ root h0 (pi_tree _ _ _ Hinv) ip t);
    try (done || lia || apply path_of_ok || apply path_of_length).
  destruct (decide (x / PAGE_SIZE = v / PAGE_SIZE)) as [E|Hne].
  - rewrite (path_page self x v) by done. by rewrite decide_True.
  - rewrite decide_False; [done|]. intros [r Hr]. apply Hne, (path_inj self); try done.
    fold (path_of (levels self) v) in Hr. fold (path self v) in Hr. rewrite Hr.
    assert (r = []) as ->; [|by rewrite app_nil_r].
    pose proof (path_of_length (levels self) x) as L1. pose proof (path_of_length (levels self) v) as L2.
    fold (path self x) in L1. fold (path self v) in L2.
    rewrite Hr, length_app in L1. apply length_zero_iff_nil. lia.
Qed.

(** The loop stopped at the root or at a table that still has entries: the tables it collected are
    those that have been vacated. *)
Lemma freed_vacated tfs s2 h2 freed d :
  (d ≤ nlev)%nat → length tfs = S nlev →
  (∀ d g, tfs !! d = Some g → follow cfg h0 root (take d ip) = Some g) →
  prune_inv self s l v tfs hleaf d s2 h2 freed → (d = 0%nat ∨ ¬ depth_empty tfs d h2) →
  ∀ f, f ∈ freed ↔ vacated self (ms_mem s) v f.
Proof.
  intros Hd Hlen Hpath Hpr Hstop f. rewrite (pr_above _ _ _ _ _ _ _ _ _ _ Hpr).
  pose proof (path_of_length (levels self) v) as Hpl. fold (path self v) in Hpl.
  assert (Htake : ∀ n, (n ≤ nlev)%nat → take n (path self v) = take n ip).
  { intros n Hn. unfold path, path_of. rewrite take_app_le; [done|]. rewrite length_map. lia. }
  assert (Htf : ∀ q r g, path self v = q ++ r → r ≠ [] → follow cfg h0 root q = Some g →
    (length q ≤ nlev)%nat ∧ tfs !! length q = Some g).
  { intros q r g E Hr Hq. destruct (path_cut self v q r E Hr) as (Eq & _ & Hl). split; [done|].
    destruct (lookup_lt_is_Some_2 tfs (length q) ltac:(lia)) as [g' Hg']. rewrite Hg'. f_equal.
    apply Hpath in Hg'. rewrite <- Eq in Hg'. congruence. }
  split.
  - intros (d' & Hd' & Hf). exists (take d' (path self v)), (drop d' (path self v)).
    assert (Hl : length (take d' (path self v)) = d') by (rewrite length_take; lia). split_and!.
    + by rewrite take_drop.
    + intros E. apply (f_equal length) in E. rewrite Hl in E. simpl in E. lia.
    + intros E. apply (f_equal length) in E. rewrite length_drop in E. simpl in E. lia.
    + rewrite Htake by lia. by apply Hpath.
    + intros q' i r' g j E Hg Hj Hne.
      destruct (Htf (take d' (path self v) ++ q') (i :: r') g E ltac:(done) Hg) as [_ Hgt].
      rewrite length_app, Hl in Hgt. eapply (pr_quiet _ _ _ _ _ _ _ _ _ _ Hpr); [|exact Hgt| |done|exact Hne]; [lia|].
      rewrite E, lookup_app_r, length_app, Hl, Nat.sub_diag by (rewrite length_app, Hl; lia). done.
  - intros (q & r & E & Hq0 & Hr & Hq & Hv'). destruct (Htf q r f E Hr Hq) as [Hql Hqt].
    exists (length q). split; [|done]. split; [|done]. destruct (decide (d < length q)%nat) as [|Hge]; [done|exfalso].
    destruct Hstop as [->|Hstop]; [destruct q; [done|simpl in Hge; lia]|]. apply Hstop. intros g j Hg Hj.
    destruct (lookup_lt_is_Some_2 (path self v) d ltac:(lia)) as [i Hi].
    destruct (decide (j = i)) as [->|Hne]; [by eapply (pr_cut _ _ _ _ _ _ _ _ _ _ Hpr)|].
    rewrite (pr_entries _ _ _ _ _ _ _ _ _ _ Hpr g j Hj).
    2:{ intros Hpe. apply Hne. eapply (path_entry_index self s l Hinv v d); [lia|by apply Hpath|done|done]. }
    assert (Es : path self v = take d (path self v) ++ i :: drop (S d) (path self v)) by (symmetry; by apply take_drop_middle).
    assert (Eqd : take d (path self v) = q ++ take (d - length q) r).
    { rewrite E, take_app. rewrite (take_ge q) by lia. done. }
    rewrite Eqd in Es. eapply Hv'; [exact Es| |done|done]. rewrite <- Eqd, Htake by lia. by apply Hpath.
Qed.

Lemma unmap_finish tfs s2 h2 ks d :
  prune_inv self s l v tfs hleaf d s2 h2 (map frame_at ks) →
  (∀ f, f ∈ map frame_at ks ↔ vacated self (ms_mem s) v f) →
  ∃ s', mfor (map frame_at ks) FrameAllocator_dealloc (flushed self v s2) = Done (tt, s') ∧
    unmap_post self v frame s s' l (set_all Free ks l).
Proof.
  intros Hpr Hvac. pose proof (pr_writes _ _ _ _ _ _ _ _ _ _ Hpr) as W.
  pose proof (pr_reads _ _ _ _ _ _ _ _ _ _ Hpr) as [Hdm R].
  pose proof (pr_tree _ _ _ _ _ _ _ _ _ _ Hpr) as Htree.
  assert (Hks : ∀ k, k ∈ ks → own_table self (ms_mem s) (frame_at k) ∧ l !! k = Some Allocated ∧
    ∀ q, Forall idx_ok q → (length q ≤ nlev)%nat → follow cfg h2 root q ≠ Some (frame_at k)).
  { intros k Hk. destruct (pr_freed _ _ _ _ _ _ _ _ _ _ Hpr (frame_at k)) as [Ho Hun].
    { apply list_elem_of_fmap. eauto. }
    split_and!; [done| |done]. destruct (own_table_ok self s l Hinv _ Ho) as [_ Hal].
    by rewrite frame_at_index in Hal. }
  destruct (dealloc_all (flushed self v s2) l ks) as (s' & E & Hfa & Hl & Hk).
  { destruct (wi_fa _ _ _ _ W). by split. }
  { eapply NoDup_fmap_1, Hpr. }
  { intros k Hin. by apply Hks. }
  exists s'. split; [done|].
  assert (Hlook : ∀ k, set_all Free ks l !! k = if bool_decide (k ∈ ks) then Some Free else l !! k).
  { intros k. apply lookup_set_all. intros k' Hk'. eapply lookup_lt_Some, Hks. done. }
  assert (Hag : ∀ f j, table_ok cfg l f → idx_ok j → heap_of self (ms_mem s') f j = h2 f j).
  { intros f j Hf Hj. rewrite <- R by done.
    apply (kept_heap self (flushed self v s2) s' l); try done. eapply Hk; [apply Hf|done]. }
  assert (Htree' : tree_inv cfg nlev (table_ok cfg l) root (heap_of self (ms_mem s'))).
  { eapply tree_inv_agree; [exact Htree|done]. }
  assert (Hw : ∀ q, Forall idx_ok q → (length q ≤ S nlev)%nat →
    follow cfg (heap_of self (ms_mem s')) root q = follow cfg h2 root q ∧
    resolve cfg (heap_of self (ms_mem s')) root q = resolve cfg h2 root q).
  { intros q Hq Hlq. by destruct (tree_walk_agree cfg nlev _ root _ Htree (heap_of self (ms_mem s'))
      q Hq Hlq Hag) as (? & ? & _). }
  destruct Hl as (L1 & L2 & L3 & L4). destruct (wi_layout _ _ _ _ W) as (M1 & M2 & M3 & M4).
  assert (Hinv' : pt_inv self s' (set_all Free ks l)).
  { split; [apply Hinv|done|by rewrite L2|]. eapply tree_inv_weaken; [done|].
    intros p f Hp Hlp Hf. pose proof (ti_table _ _ _ _ _ Htree' p f Hp Hlp Hf) as [Hfo Hal].
    split; [done|]. rewrite Hlook, bool_decide_false; [done|]. intros Hin.
    rewrite (proj1 (Hw p Hp ltac:(lia))) in Hf. destruct (Hks _ Hin) as (_ & _ & Hun).
    apply (Hun p Hp Hlp). rewrite Hf. f_equal. by eapply table_ok_index. }
  assert (Hwalk : ∀ x, is_u64 x → is_canonical self x = true → walk self (ms_mem s') x =
    if decide (x / PAGE_SIZE = v / PAGE_SIZE) then None else walk self (ms_mem s) x).
  { intros x Hx Hcx. rewrite <- hleaf_resolve by done. unfold walk.
    rewrite (proj2 (Hw (path self x) (path_of_ok _ _) ltac:(unfold path; rewrite path_of_length; lia))).
    apply Hpr; [apply path_of_ok|apply path_of_length]. }
  split; [done|apply unmap_before|..].
  - apply (walk_None_unmapped self s' _ Hinv' v Hv). by rewrite Hwalk, decide_True.
  - intros x Hx Hne. destruct (is_canonical self x) eqn:Hcx; [|by apply view_not_canonical].
    eapply view_same; [done|done|]. by rewrite Hwalk, decide_False.
  - intros k. rewrite Hlook. case_bool_decide as Hin; [|by left]. right.
    destruct (Hks k Hin) as (Ho & Hal & Hun). split_and!; try done.
    intros (q & Hq & Hlq & Hfq). rewrite (proj1 (Hw q Hq ltac:(lia))) in Hfq. by apply (Hun q).
  - intros k Hal Hno. apply (kept_frame_trans s s2 s'); [done|by apply (wi_kept _ _ _ _ W)|].
    by eapply (Hk k Allocated).
  - intros f (q & Hq & Hlq & Hfq). rewrite (proj1 (Hw q Hq ltac:(lia))) in Hfq.
    exists q. split_and!; [done|done|]. by eapply Hpr.
  - rewrite L4. simpl. unfold active_root. by rewrite M3, M4.
  - intros f j Hfo Hj Hno. rewrite Hag by (done || by apply (own_table_ok self s l Hinv)).
    by apply (pr_entries _ _ _ _ _ _ _ _ _ _ Hpr).
  - by rewrite L3.
  - unfold same_area. by rewrite L1, L2.
  - intros k (k' & Ek & Hin)%Hvac%list_elem_of_fmap. assert (k = k') as -> by (unfold frame_at, FRAME_SIZE in Ek; lia).
    rewrite Hlook, bool_decide_true by done. split; [by apply Hks|done].
  - intros k. rewrite Hlook. case_bool_decide as Hin; [|done]. intros _. apply Hvac, list_elem_of_fmap. eauto.
  - intros k Hdk Hno. pose proof (data_off_frame _ _ _ (pi_alloc _ _ _ Hinv) Hdk) as Hoff.
    apply (kept_frame_trans s s2 s'); [by split|by apply (wi_kept _ _ _ _ W)|].
    eapply (dealloc_all_off (flushed self v s2) l ks); [by destruct (wi_fa _ _ _ _ W); split|by eapply NoDup_fmap_1, Hpr|by intros k' Hin; apply Hks|exact E|].
    unfold off_frame in *. simpl. by rewrite M1, M2.
  - intros f (q & Hq & Hlq & Hfq). destruct (pr_linked _ _ _ _ _ _ _ _ _ _ Hpr q f Hq Hlq Hfq) as [Hin|Hg].
    + left. by apply Hvac.
    + right. exists q. split_and!; [done|done|]. by rewrite (proj1 (Hw q Hq ltac:(lia))).
Qed.
End unmap_finish.

Lemma own_tables_frame_at self s l fs :
  pt_inv self s l → (∀ f, f ∈ fs → own_table self (ms_mem s) f) → ∃ ks, fs = map frame_at ks.
Proof.
  intros Hinv Hfs. exists (map (λ f, Z.to_nat (f / FRAME_SIZE)) fs). rewrite map_map.
  induction fs as [|f fs IH]; [done|]. simpl. rewrite <- IH by (intros; apply Hfs; by right).
  f_equal. eapply table_ok_index. apply (own_table_ok self s l Hinv), Hfs. left.
Qed.

(** The loop starts with the leaf entry cleared. *)
Lemma prune_start self s l v tfs t s1 :
  pt_inv self s l → length tfs = S (length (levels self)) →
  (∀ d g, tfs !! d = Some g → follow (pt_config self) (heap_of self (ms_mem s)) (pt_frame self)
     (take d (map (λ lv, level_index lv v) (levels self))) = Some g) →
  tfs !! length (levels self) = Some t →
  writes_in l (eq t) s s1 →
  reads_as self l s1 (hupd (heap_of self (ms_mem s)) t (p1_index v) PageTableEntry_null) →
  prune_inv self s l v tfs (hupd (heap_of self (ms_mem s)) t (p1_index v) PageTableEntry_null)
    (length (levels self)) s1
    (hupd (heap_of self (ms_mem s)) t (p1_index v) PageTableEntry_null) [].
Proof.
  intros Hinv Hlen Hpath Ht Hw Hr.
  assert (Hown : ∀ d g, tfs !! d = Some g → own_table self (ms_mem s) g).
  { intros d g Hg. pose proof (lookup_lt_Some _ _ _ Hg).
    exists (take d (map (λ lv, level_index lv v) (levels self))).
    split_and!; [apply ip_ok|rewrite length_take, length_map; lia|by apply Hpath]. }
  pose proof (Hpath _ _ Ht) as Hf.
  set (ipn := take (length (levels self)) (map (λ lv, level_index lv v) (levels self))) in *.
  assert (Hok : Forall idx_ok ipn ∧ length ipn = length (levels self))
    by (split; [apply ip_ok|by apply ip_length]). destruct Hok as [Hok Hl].
  split.
  - eapply writes_in_mono; [|done]. intros f <-. by eapply Hown.
  - done.
  - apply (cut_tree _ (pi_config _ _ _ Hinv) _ _ _ _ (pi_tree _ _ _ Hinv) ipn); try done. lia.
  - intros d Hd. destruct (lookup_lt_is_Some_2 tfs d ltac:(lia)) as [g Hg].
    exists g. split_and!; [done|by eapply Hown|].
    rewrite (cut_follow _ (pi_config _ _ _ Hinv) _ _ _ _ (pi_tree _ _ _ Hinv) ipn);
      try (done || lia || apply ip_ok || rewrite ip_length; lia).
    rewrite decide_False; [by apply Hpath|]. intros Hpre%prefix_length.
    rewrite length_app, Hl, ip_length in Hpre by lia. simpl in Hpre. lia.
  - intros q f Hq Hlq. rewrite (cut_follow _ (pi_config _ _ _ Hinv) _ _ _ _ (pi_tree _ _ _ Hinv) ipn);
      try (done || lia). by case_decide.
  - done.
  - intros f j Hj Hno. rewrite hupd_ne; [done|]. intros [= -> ->]. apply Hno.
    exists ipn, []. split; [|done]. unfold ipn. rewrite take_ge by (rewrite length_map; lia). done.
  - constructor.
  - by intros f ?%not_elem_of_nil.
  - intros f. split; [by intros ?%not_elem_of_nil|]. intros (d & Hd & _). lia.
  - intros d f i j Hd _ Hi. apply lookup_lt_Some in Hi. unfold path in Hi. rewrite path_of_length in Hi. lia.
  - intros f i Hf' Hi. rewrite Ht in Hf'. injection Hf' as <-. unfold path, path_of in Hi.
    rewrite lookup_app_r, length_map, Nat.sub_diag in Hi by (rewrite length_map; lia). injection Hi as <-.
    by rewrite hupd_eq.
  - intros q f Hq Hlq Hqf. right.
    rewrite (cut_follow _ (pi_config _ _ _ Hinv) _ _ _ _ (pi_tree _ _ _ Hinv) ipn); try (done || lia).
    rewrite decide_False; [done|]. intros Hpre%prefix_length. rewrite length_app, Hl in Hpre. simpl in Hpre. lia.
Qed.

Lemma unmap_spec self s l v :
  pt_inv self s l → is_u64 v →
  ∃ r s', PageTable_unmap self v s = Done (r, s') ∧
    match r with
    | Ok frame => ∃ l', unmap_post self v frame s s' l l'
    | Err e => s' = s ∧ unmap_error_cause self s v e
    end.
Proof.
  intros Hinv Hv. unfold PageTable_unmap. pose proof (pi_config _ _ _ Hinv) as Hcfg.
  destruct (is_canonical self v) eqn:Hcv; simpl.
  2:{ by exists (Err UnmapInvalidVirtualAddress), s. }
  destruct (Z.eqb_spec (v mod PAGE_SIZE) 0) as [Hal|Hal]; simpl.
  2:{ by exists (Err UnmapVirtualAddressUnaligned), s. }
  mred. pose proof (unmap_walk_spec self s l Hinv v [] (levels self) (pt_frame self) eq_refl eq_refl) as Hw.
  destruct (unmap_walk _ _ _ _ _) as [tfs|e].
  2:{ exists (Err e), s. split_and!; [done|done|].
      destruct Hw as [[-> Hw]|[[->| ->] Hw]]; exact Hw. }
  simpl in Hw. destruct Hw as [Hlen Hpath].
  destruct (lookup_lt_is_Some_2 tfs (length (levels self)) ltac:(lia)) as [t Ht].
  pose proof (Hpath _ _ Ht) as Hf. rewrite take_ge in Hf by (rewrite length_map; lia).
  assert (last tfs = Some t) as -> by (by rewrite last_lookup, Hlen).
  assert (own_table self (ms_mem s) t) as Hto.
  { eexists. split_and!; [apply ip_full_ok|by rewrite length_map|done]. }
  pose proof (own_table_ok self s l Hinv t Hto) as Htok.
  unfold expect at 1. mred. rewrite (table_translate self s l Hinv) by done. cbn [ok_or]. mred.
  change (entry_at (ms_mem s) (t + _) (p1_index v)) with (heap_of self (ms_mem s) t (p1_index v)).
  destruct (entry_leaf_frame (heap_of self (ms_mem s) t (p1_index v)) (pt_config self)) as [frame|] eqn:El.
  2:{ exists (Err UnmapPageNotMapped), s. split_and!; [done|done|]. simpl. unfold walk, path, path_of.
      rewrite (resolve_app _ Hcfg _ _ _ t) by done. simpl.
      rewrite entry_leaf_frame_eq in El by done. by destruct (is_present _). }
  cbn [ok_or]. mred.
  destruct (set_entry_step self l s (heap_of self (ms_mem s)) t (p1_index v) PageTableEntry_null)
    as [W1 R1]; [apply Hinv|split; [apply Hinv|done]|done|apply p1_index_ok|done|].
  set (s1 := set_mem _ s) in *.
  pose proof (prune_start self s l v tfs t s1 Hinv Hlen Hpath Ht W1 R1) as Hpr.
  destruct (unmap_prune_spec self s l Hinv v tfs _ _ s1 _ []
    (table_is_empty (ms_mem s1) (t + offset (pt_direct_map self))) ltac:(done) Hpr)
    as (s2 & h2 & freed & d & E2 & Hd & Hpr2 & Hstop).
  { by apply (table_empty_depth self l tfs _ _ _ t Ht Htok (proj2 R1)). }
  rewrite (bind_Done _ _ _ _ _ E2).
  rewrite (bind_Done _ _ _ _ _ (flush_spec self s2 v Hcfg Hcv)).
  destruct (own_tables_frame_at self s l freed Hinv) as [ks ->].
  { intros f Hfr. by apply (pr_freed _ _ _ _ _ _ _ _ _ _ Hpr2). }
  pose proof (freed_vacated self s l Hinv v t tfs s2 h2 _ d Hd Hlen Hpath Hpr2 Hstop) as Hvac.
  destruct (unmap_finish self s l Hinv v Hv Hcv t frame Hf El tfs s2 h2 ks d Hpr2 Hvac) as (s' & E' & Hpost).
  rewrite (bind_Done _ _ _ _ _ E'). exists (Ok frame), s'. split; [done|]. eauto.
Qed.

(** C9: [PageTable::unmap] never panics.  When it succeeds it returns the frame the page was
    mapped to; the page no longer translates; every other address translates as before
    with the same permissions.  The frames it gives back are exactly the tables that the page
    leaves empty: those on the way to it, below the root, that from there down have no entry but
    those of the way.  Each of them was allocated and is free, every other table stays linked,
    no other frame changes state and no other allocated frame changes contents, apart from the
    tables of this page table, of which only entries on the way change; the TLB entry
    is flushed if the table is active.  When it refuses, the state is unchanged and the
    error says why. *)
Theorem unmap_correct (self : PageTable) (s : MState) (l : list FrameState) (v : VirtualAddr) :
  pt_inv self s l → is_u64 v →
  ∃ r s', PageTable_unmap self v s = Done (r, s') ∧
    match r with
    | Ok frame => ∃ l', unmap_post self v frame s s' l l'
    | Err e => s' = s ∧ unmap_error_cause self s v e
    end.
Proof. apply unmap_spec. Qed.

Definition demo_mapped_state : MState :=
  match PageTable_map demo_pt 0x1000 0 (mkPagePermissions true true true) WriteBack false
          demo_pt_state with
  | Done (_, s) => s
  | _ => demo_pt_state
  end.

Lemma demo_mapped : ∃ l, pt_inv demo_pt demo_mapped_state l.
Proof.
  destruct (map_spec demo_pt demo_pt_state demo_pt_frames 0x1000 0
    (mkPagePermissions true true true) WriteBack false) as (r & s' & E & H);
    [apply demo_pt_inv|done|done|done|].
  unfold demo_mapped_state. rewrite E. destruct r; [|destruct H as [[H] _]; eauto].
  destruct H as [l [H]]. eauto.
Qed.

Lemma unmap_correct_witness :
  ∃ s' l l', PageTable_unmap demo_pt 0x1000 demo_mapped_state = Done (Ok 0, s') ∧
    unmap_post demo_pt 0x1000 0 demo_mapped_state s' l l'.
Proof.
  destruct demo_mapped as [l Hl].
  destruct (unmap_correct demo_pt demo_mapped_state l 0x1000 Hl ltac:(done)) as (r & s' & E & H).
  assert (r = Ok 0) as -> by (eapply returned_Done; [exact E|vm_compute; reflexivity]).
  destruct H as [l' H]. exists s', l, l'. split; [exact E|exact H].
Defined.

Lemma map_Ok_aligned self v frame perms cp g s s1 :
  PageTable_map self v frame perms cp g s = Done (Ok tt, s1) → v mod PAGE_SIZE = 0.
Proof.
  unfold PageTable_map. destruct (is_canonical self v); [|done].
  by destruct (Z.eqb_spec (v mod PAGE_SIZE) 0).
Qed.

(** A page whose walk reaches a leaf table can be unmapped. *)
Lemma unmap_leaf_ok self s l v :
  pt_inv self s l → is_u64 v → is_canonical self v = true → v mod PAGE_SIZE = 0 →
  walks_to_leaf self (ms_mem s) v →
  ∃ frame s' l', PageTable_unmap self v s = Done (Ok frame, s') ∧ unmap_post self v frame s s' l l'.
Proof.
  intros Hinv Hv Hcv Hal (es & Hes & Hlen). pose proof (pi_config _ _ _ Hinv) as Hcfg.
  destruct (unmap_spec self s l v Hinv Hv) as (r & s' & E & H).
  destruct r as [frame|e]; [destruct H as [l' H]; eauto|]. exfalso. destruct H as [_ He].
  assert (Hhuge : ¬ ∃ q i r g, path self v = q ++ i :: r ∧ r ≠ [] ∧
    follow (pt_config self) (heap_of self (ms_mem s)) (pt_frame self) q = Some g ∧
    is_huge (heap_of self (ms_mem s) g i) = true).
  { intros (q & i & r & g & Hpath & Hr & Hq & Hh). unfold walk in Hes.
    rewrite Hpath, (resolve_app _ Hcfg _ _ _ g) in Hes by done. simpl in Hes. rewrite Hh in Hes.
    destruct r as [|j r]; [done|]. destruct (is_present _); simpl in Hes; [|done].
    injection Hes as <-. rewrite length_app, (along_length _ _ _ _ g) in Hlen by done.
    pose proof (path_of_length (levels self) v) as Hpl. fold (path self v) in Hpl.
    rewrite Hpath, length_app in Hpl. simpl in *. lia. }
  destruct e; simpl in He; congruence || done || tauto.
Qed.

(** Unmapping right after mapping returns the frame that was mapped and restores every
    translation and every permission. *)
Theorem map_unmap_roundtrip (self : PageTable) (s s1 : MState) (l : list FrameState)
    (v : VirtualAddr) (frame : FrameAddr) (perms : PagePermissions) (cp : CachePolicy) (g : bool) :
  pt_inv self s l → is_u64 v → is_u64 frame → frame mod FRAME_SIZE = 0 →
  PageTable_map self v frame perms cp g s = Done (Ok tt, s1) →
  ∃ s2, PageTable_unmap self v s1 = Done (Ok frame, s2) ∧
    ∀ x, is_u64 x → same_view self (ms_mem s) (ms_mem s2) x.
Proof.
  intros Hinv Hv Hfu Hfa E.
  destruct (map_spec self s l v frame perms cp g Hinv Hv Hfu Hfa) as (r & s1' & E' & H).
  rewrite E in E'. injection E' as <- <-. destruct H as [l1 [Hinv1 Hnew Hleaf Hold Hoth _ _ _]].
  destruct (Hnew v Hv eq_refl) as [Hphys Hmap].
  assert (is_canonical self v = true) as Hcv.
  { unfold PageTable_to_physical in Hphys. by destruct (is_canonical self v). }
  apply map_Ok_aligned in E.
  destruct (unmap_leaf_ok self s1 l1 v Hinv1 Hv Hcv E Hleaf)
    as (frame' & s2 & l2 & E2 & [_ Hfr Hgone Hoth2 _ _ _ _]).
  specialize (Hfr v Hv eq_refl). rewrite Hphys in Hfr.
  assert (frame' = frame) as -> by (injection Hfr as Hfr; lia).
  exists s2. split; [done|]. intros x Hx.
  destruct (decide (x / PAGE_SIZE = v / PAGE_SIZE)) as [Ex|Ex].
  - destruct (Hgone x Hx Ex) as [[G1 G2] _], (Hold x Hx Ex) as [[O1 O2] _].
    unfold same_view. by rewrite G1, G2, O1, O2.
  - destruct (Hoth x Hx Ex) as [[A1 A2] _], (Hoth2 x Hx Ex) as [[B1 B2] _].
    unfold same_view. by rewrite B1, B2, A1, A2.
Qed.

Lemma map_unmap_roundtrip_witness :
  ∃ s2, PageTable_unmap demo_pt 0x1000 demo_mapped_state = Done (Ok 0, s2) ∧
    same_view demo_pt (ms_mem demo_pt_state) (ms_mem s2) 0x1000.
Proof.
  destruct (map_unmap_roundtrip demo_pt demo_pt_state demo_mapped_state demo_pt_frames 0x1000 0
    (mkPagePermissions true true true) WriteBack false) as (s2 & E & H);
    [apply demo_pt_inv|done|done|done| |].
  - destruct (map_spec demo_pt demo_pt_state demo_pt_frames 0x1000 0
      (mkPagePermissions true true true) WriteBack false) as (r & s' & E & _);
      [apply demo_pt_inv|done|done|done|].
    assert (r = Ok tt) as -> by (eapply returned_Done; [exact E|vm_compute; reflexivity]).
    unfold demo_mapped_state. rewrite E. cbn iota. reflexivity.
  - exists s2. split; [exact E|]. assert (is_u64 0x1000) as Hx by (unfold is_u64, W64; lia).
    exact (H 0x1000 Hx).
Defined.
