(* ===== verification/AddressSpace.v ===== *)
(** * Address spaces

    Model of [src/memory/address_space.rs]: the table of address spaces and
    [AddressSpace], which wraps a page table with the rules for kernel and user spaces,
    maps ranges with rollback, and builds the kernel's own address space. *)

From S2P Require Import Prelude Memory Frame Paging PageTree PageMap PageUnmap.

(** [src/memory/user.rs] *)
Definition USER_SPACE_END : VirtualAddr := 0x0000800000000000.

Inductive MapError :=
| InvalidVirtualAddress | VirtualAddressUnaligned | PhysicalAddressTooLarge
| PhysicalAddressUnaligned | RangeLengthUnaligned | MapAddressOverflow | AlreadyMapped
| MappingConflict | UnsupportedPermissions | OutOfMemory | PageTableUnavailable
| CorruptedPageTable | InvalidUserAddress | InvalidUserMap.

Definition MapError_from (error : PageTableMapError) : MapError :=
  match error with
  | MapInvalidVirtualAddress => InvalidVirtualAddress
  | MapVirtualAddressUnaligned => VirtualAddressUnaligned
  | MapPhysicalAddressTooLarge => PhysicalAddressTooLarge
  | MapPageAlreadyMapped => AlreadyMapped
  | MapHugePageConflict => MappingConflict
  | MapNoExecuteUnsupported => UnsupportedPermissions
  | MapOutOfFrames => OutOfMemory
  | MapPageTableOutsideDirectMap => PageTableUnavailable
  | MapInvalidPageTableEntry => CorruptedPageTable
  end.

Inductive UnmapError :=
| UnmapErrInvalidVirtualAddress | UnmapErrVirtualAddressUnaligned | NotMapped
| UnmapErrMappingConflict | UnmapErrPageTableUnavailable | UnmapErrCorruptedPageTable
| UnmapErrInvalidUserAddress.

Definition UnmapError_from (error : PageTableUnmapError) : UnmapError :=
  match error with
  | UnmapInvalidVirtualAddress => UnmapErrInvalidVirtualAddress
  | UnmapVirtualAddressUnaligned => UnmapErrVirtualAddressUnaligned
  | UnmapPageNotMapped => NotMapped
  | UnmapHugePageConflict => UnmapErrMappingConflict
  | UnmapPageTableOutsideDirectMap => UnmapErrPageTableUnavailable
  | UnmapInvalidPageTableEntry => UnmapErrCorruptedPageTable
  end.

Inductive AddressSpaceCreateError :=
| AddressOutsideDirectMap | CreateSpacePhysicalAddressTooLarge | CreateSpaceOutOfMemory
| CreateMap (e : MapError).

Definition AddressSpaceCreateError_from (error : PageTableCreateError) : AddressSpaceCreateError :=
  match error with
  | CreatePhysicalAddressTooLarge => CreateSpacePhysicalAddressTooLarge
  | CreateOutOfFrames => CreateSpaceOutOfMemory
  end.

Inductive AddressSpaceKind := Kernel | User.

#[export] Instance AddressSpaceKind_eq_dec : EqDecision AddressSpaceKind.
Proof. solve_decision. Defined.

Record AddressSpace := mkAddressSpace { root : PageTable; kind : AddressSpaceKind }.

(** ** The table of address spaces *)

Abbreviation AddressSpaceId := Z (only parsing).
Definition MAX_ADDRESS_SPACES : usize := 32.

Record AddressSpaceTable := mkAddressSpaceTable { as_entries : list (option AddressSpace) }.

Definition AddressSpaceTable_new : AddressSpaceTable :=
  mkAddressSpaceTable (replicate (Z.to_nat MAX_ADDRESS_SPACES) None).

Definition AddressSpaceTable_insert (address_space : AddressSpace) :
    M AddressSpaceTable (result AddressSpaceId AddressSpace) :=
  let! self := get in
  match position_none (as_entries self) with
  | Some i =>
      do! put (mkAddressSpaceTable (zset (as_entries self) i (Some address_space))) ;;;
      ret (Ok i)
  | None => ret (Err address_space)
  end.

Definition AddressSpaceTable_get (self : AddressSpaceTable) (id : AddressSpaceId) :
    option AddressSpace :=
  zget (as_entries self) id ≫= λ e, e.

Definition AddressSpaceTable_remove (id : AddressSpaceId) :
    M AddressSpaceTable (option AddressSpace) :=
  let! self := get in
  match zget (as_entries self) id with
  | Some entry =>
      do! put (mkAddressSpaceTable (zset (as_entries self) id None)) ;;;
      ret entry
  | None => ret None
  end.

(** ** Mapping *)

Definition AddressSpace_map (self : AddressSpace) (physical_addr : PhysicalAddr)
    (virtual_addr : VirtualAddr) (permissions : PagePermissions) (cache_policy : CachePolicy) :
    M MState (result unit MapError) :=
  let global := bool_decide (kind self = Kernel) in
  let checked : result unit MapError :=
    if bool_decide (kind self = User) then
      if USER_SPACE_END <=? virtual_addr then Err InvalidUserAddress
      else if negb (user_accessible permissions) then Err InvalidUserMap
      else Ok tt
    else Ok tt in
  let? _ := ret checked in
  let? frame := ret (ok_or (FrameAddr_from_start_address physical_addr)
                       PhysicalAddressUnaligned) in
  let! r := PageTable_map (root self) virtual_addr frame permissions cache_policy global in
  ret (map_err MapError_from r).

(** Undo the first [mapped_pages] pages of a range, the last one first. *)
Definition map_range_rollback (self : AddressSpace) (virtual_start : VirtualAddr)
    (mapped_pages : usize) : M MState unit :=
  mfor (rev (range 0 mapped_pages)) (λ rollback_idx,
    let! rollback_offset := umul rollback_idx FRAME_SIZE in
    let! addr := uadd virtual_start rollback_offset in
    let! r := PageTable_unmap (root self) addr in
    match r with
    | Ok _ => ret tt
    | Err _ => panic "failed to roll back a mapped page"
    end).

(** One round of the loop of [map_range]. *)
Definition map_range_page (self : AddressSpace) (physical_start : PhysicalAddr)
    (virtual_start : VirtualAddr) (permissions : PagePermissions) (cache_policy : CachePolicy)
    (mapped_pages : usize) : M MState (result unit MapError) :=
  let! offset := umul mapped_pages FRAME_SIZE in
  let! physical_addr := uadd physical_start offset in
  let! virtual_addr := uadd virtual_start offset in
  let! r := AddressSpace_map self physical_addr virtual_addr permissions cache_policy in
  match r with
  | Ok _ => ret (Ok tt)
  | Err err =>
      do! map_range_rollback self virtual_start mapped_pages ;;;
      ret (Err err)
  end.

Definition AddressSpace_map_range (self : AddressSpace) (physical_start : PhysicalAddr)
    (virtual_start : VirtualAddr) (length : usize) (permissions : PagePermissions)
    (cache_policy : CachePolicy) : M MState (result unit MapError) :=
  if length =? 0 then ret (Ok tt)
  else if negb (physical_start mod FRAME_SIZE =? 0) then ret (Err PhysicalAddressUnaligned)
  else if negb (virtual_start mod FRAME_SIZE =? 0) then ret (Err VirtualAddressUnaligned)
  else if negb (length mod FRAME_SIZE =? 0) then ret (Err RangeLengthUnaligned)
  else
    let! last_offset := usub length FRAME_SIZE in
    let? _ := ret (ok_or (checked_add physical_start last_offset) MapAddressOverflow) in
    let? _ := ret (ok_or (checked_add virtual_start last_offset) MapAddressOverflow) in
    let page_count := length / FRAME_SIZE in
    mfor_ok (range 0 page_count)
      (map_range_page self physical_start virtual_start permissions cache_policy).

Definition AddressSpace_unmap (self : AddressSpace) (virtual_addr : VirtualAddr) :
    M MState (result FrameAddr UnmapError) :=
  if bool_decide (kind self = User) && (0x0000800000000000 <=? virtual_addr)
  then ret (Err UnmapErrInvalidUserAddress)
  else
    let! r := PageTable_unmap (root self) virtual_addr in
    ret (map_err UnmapError_from r).

Definition AddressSpace_to_physical (self : AddressSpace) (m : memory) (a : VirtualAddr) :
    option PhysicalAddr := PageTable_to_physical (root self) m a.
Definition AddressSpace_to_virtual (self : AddressSpace) (a : PhysicalAddr) : option VirtualAddr :=
  PageTable_to_virtual (root self) a.
Definition AddressSpace_mapping (self : AddressSpace) (m : memory) (a : VirtualAddr) :
    option PageTableMapping := PageTable_mapping (root self) m a.
Definition AddressSpace_activate (self : AddressSpace) : M MState unit :=
  PageTable_activate (root self).

Definition AddressSpace_destroy (self : AddressSpace) : M MState unit :=
  match kind self with
  | Kernel => PageTable_destroy (root self)
  | User => PageTable_destroy_user (root self)
  end.

(** ** Creation *)

Definition AddressSpace_new_user (self : AddressSpace) :
    M MState (result AddressSpace PageTableCreateError) :=
  let? user_root := PageTable_new (pt_direct_map (root self)) (pt_config (root self)) in
  do! copy_kernel_mappings_to (root self) user_root ;;;
  ret (Ok (mkAddressSpace user_root User)).

Record KernelSegment := mkKernelSegment {
  seg_physical_base : PhysicalAddr;
  seg_virtual_base : VirtualAddr;
  seg_length : usize;
  seg_permissions : PagePermissions;
}.

(** The layout has three segments. *)
Record KernelMemoryLayout := mkKernelMemoryLayout {
  segment0 : KernelSegment; segment1 : KernelSegment; segment2 : KernelSegment;
}.

Definition segments (layout : KernelMemoryLayout) : list KernelSegment :=
  [segment0 layout; segment1 layout; segment2 layout].

Definition region_cache_policy (k : MemoryRegionKind) : CachePolicy :=
  match k with MappedReserved | Framebuffer => Uncacheable | _ => WriteBack end.

(** Regions left out of the direct map. *)
Definition region_skipped (layout : KernelMemoryLayout) (region : MemoryRegion) : bool :=
  bool_decide (region_kind region = RegionReserved ∨ region_kind region = BadMemory) ||
  (bool_decide (region_kind region = KernelAndModules) &&
   (region_start region =? seg_physical_base (segment0 layout))).

Definition new_kernel_region (space : AddressSpace) (dm : DirectMap) (layout : KernelMemoryLayout)
    (region : MemoryRegion) : M MState (result unit AddressSpaceCreateError) :=
  if region_skipped layout region then ret (Ok tt)
  else
    let? virtual_start := ret (ok_or (DirectMap_translate dm (region_start region))
                                 AddressOutsideDirectMap) in
    let! res := AddressSpace_map_range space (region_start region) virtual_start
                  (region_length region) (mkPagePermissions true false false)
                  (region_cache_policy (region_kind region)) in
    match res with
    | Ok _ => ret (Ok tt)
    | Err err => do! AddressSpace_destroy space ;;; ret (Err (CreateMap err))
    end.

Fixpoint new_kernel_segments (space : AddressSpace) (segs : list KernelSegment)
    (old_segment_stop : option usize) : M MState (result unit AddressSpaceCreateError) :=
  match segs with
  | [] => ret (Ok tt)
  | segment :: segs =>
      do! massert (match old_segment_stop with
                   | Some stop => seg_physical_base segment =? stop
                   | None => true
                   end) "assertion `left == right` failed" ;;;
      let! stop := uadd (seg_physical_base segment) (seg_length segment) in
      let! res := AddressSpace_map_range space (seg_physical_base segment)
                    (seg_virtual_base segment) (seg_length segment) (seg_permissions segment)
                    WriteBack in
      match res with
      | Ok _ => new_kernel_segments space segs (Some stop)
      | Err err => do! AddressSpace_destroy space ;;; ret (Err (CreateMap err))
      end
  end.

Definition AddressSpace_new_kernel (dm : DirectMap) (memory_regions : list MemoryRegion)
    (layout : KernelMemoryLayout) (paging_config : PagingConfig) :
    M MState (result AddressSpace AddressSpaceCreateError) :=
  let! created := PageTable_new dm paging_config in
  let? pt := ret (map_err AddressSpaceCreateError_from created) in
  let space := mkAddressSpace pt Kernel in
  let? _ := mfor_ok memory_regions (new_kernel_region space dm layout) in
  let? _ := new_kernel_segments space (segments layout) None in
  ret (Ok space).

(** * Lemmas *)

Lemma AddressSpace_map_spec self s l pa va perms cp :
  pt_inv (root self) s l → is_u64 va → is_u64 pa →
  ∃ r s', AddressSpace_map self pa va perms cp s = Done (r, s') ∧
    match r with
    | Ok _ => (kind self = User → va < USER_SPACE_END ∧ user_accessible perms = true) ∧
        ∃ l', map_ok_post (root self) va pa perms s s' l l'
    | Err _ => map_err_post (root self) s s' l
    end.
Proof.
  intros Hinv Hva Hpa. pose proof (map_err_post_refl (root self) s l Hinv) as Hrefl.
  unfold AddressSpace_map.
  assert (Hgo : (kind self = User → va < USER_SPACE_END ∧ user_accessible perms = true) →
    ∀ g, ∃ r s', (let? frame := ret (ok_or (FrameAddr_from_start_address pa) PhysicalAddressUnaligned) in
      let! r := PageTable_map (root self) va frame perms cp g in
      ret (map_err MapError_from r)) s = Done (r, s') ∧
      match r with
      | Ok _ => (kind self = User → va < USER_SPACE_END ∧ user_accessible perms = true) ∧
          ∃ l', map_ok_post (root self) va pa perms s s' l l'
      | Err _ => map_err_post (root self) s s' l
      end).
  { intros Hu g. unfold FrameAddr_from_start_address.
    destruct (Z.eqb_spec (pa mod FRAME_SIZE) 0) as [Hal|Hal]; simpl.
    2:{ exists (Err PhysicalAddressUnaligned), s. done. }
    destruct (map_spec (root self) s l va pa perms cp g Hinv Hva Hpa Hal) as (r & s' & E & Hr).
    mred. rewrite (bind_Done _ _ _ _ _ E). eexists _, s'. split; [done|].
    destruct r as [[]|e]; simpl; [done|]. by destruct Hr. }
  destruct (kind self); simpl.
  - apply (Hgo ltac:(done) true).
  - destruct (Z.leb_spec USER_SPACE_END va).
    { exists (Err InvalidUserAddress), s. done. }
    destruct (user_accessible perms) eqn:Eu; simpl.
    2:{ exists (Err InvalidUserMap), s. done. }
    apply (Hgo ltac:(done) false).
Qed.

Section ranges.
Context (rt : PageTable) (fr : Z → FrameAddr) (vs : Z) (perms : PagePermissions).
Context (s : MState) (l : list FrameState) (Hinv : pt_inv rt s l) (Hvs : 0 ≤ vs).

(** The first [n] pages of the range are mapped, page [i] to [fr i], and nothing else has
    changed. *)
Record range_mapped (n : Z) (s' : MState) (l' : list FrameState) : Prop := {
  rm_inv : pt_inv rt s' l';
  rm_pages : ∀ i, 0 ≤ i < n →
    maps_page rt (ms_mem s') (vs + i * FRAME_SIZE) (fr i) perms ∧
    walks_to_leaf rt (ms_mem s') (vs + i * FRAME_SIZE) ∧
    unmapped_page rt (ms_mem s) (vs + i * FRAME_SIZE);
  rm_others : ∀ x, is_u64 x → (∀ i, 0 ≤ i < n → x / PAGE_SIZE ≠ vs / PAGE_SIZE + i) →
    same_page rt (ms_mem s) (ms_mem s') x;
  rm_kept : ∀ k, l !! k = Some Allocated → ¬ own_table rt (ms_mem s) (frame_at k) →
    l' !! k = Some Allocated ∧ kept_frame s s' k;
  rm_tables : ∀ f, own_table rt (ms_mem s') f → own_table rt (ms_mem s) f ∨
    ∃ k, f = frame_at k ∧ l !! k ≠ Some Allocated;
}.

Lemma page_of i : (vs + i * FRAME_SIZE) / PAGE_SIZE = vs / PAGE_SIZE + i.
Proof. unfold FRAME_SIZE, PAGE_SIZE. by rewrite Z.div_add. Qed.

Lemma range_mapped_0 : range_mapped 0 s l.
Proof. split; try done; [lia|]. intros f Hf. by left. Qed.

Lemma same_page_trans m1 m2 m3 x : same_page rt m1 m2 x → same_page rt m2 m3 x → same_page rt m1 m3 x.
Proof.
  intros [[A1 A2] A3] [[B1 B2] B3]. unfold same_page, same_view. rewrite B1, B2. split; [done|].
  intros Hc. by rewrite B3, A3.
Qed.

Lemma maps_page_same m m' v frame :
  (∀ x, is_u64 x → x / PAGE_SIZE = v / PAGE_SIZE → same_page rt m m' x) →
  maps_page rt m v frame perms → maps_page rt m' v frame perms.
Proof.
  intros Hs Hm x Hx Ex. destruct (Hs x Hx Ex) as [[E1 E2] _]. rewrite E1, E2. by apply Hm.
Qed.

Lemma maps_page_canonical m v frame : is_u64 v → maps_page rt m v frame perms → is_canonical rt v = true.
Proof.
  intros Hv Hm. destruct (Hm v Hv eq_refl) as [Hp _]. unfold PageTable_to_physical in Hp.
  by destruct (is_canonical rt v).
Qed.

(** Changes that leave all pages of the range alone keep it mapped. *)
Lemma range_mapped_same n s' l' s'' l'' :
  vs + n * FRAME_SIZE ≤ W64 → range_mapped n s' l' → pt_inv rt s'' l'' →
  (∀ x, is_u64 x → same_page rt (ms_mem s') (ms_mem s'') x) →
  (∀ k, l !! k = Some Allocated → l' !! k = Some Allocated →
     ¬ own_table rt (ms_mem s') (frame_at k) → l'' !! k = Some Allocated ∧ kept_frame s' s'' k) →
  (∀ f, own_table rt (ms_mem s'') f → own_table rt (ms_mem s') f) →
  range_mapped n s'' l''.
Proof.
  intros Hn [R1 R2 R3 R4 R5] Hinv'' Hsame Hby Htab. split.
  - done.
  - intros i Hi. destruct (R2 i Hi) as (P1 & P2 & P3).
    assert (is_u64 (vs + i * FRAME_SIZE)) as Hu by (unfold FRAME_SIZE in *; ulia).
    split_and!; [| |done].
    + eapply maps_page_same; [|done]. auto.
    + eapply same_page_leaf; [by apply Hsame|by eapply maps_page_canonical|done].
  - intros x Hx Hne. eapply same_page_trans; [by apply R3|by apply Hsame].
  - intros k Hk Hno. destruct (R4 k Hk Hno) as [Hk' Hkept].
    destruct (Hby k Hk Hk') as [Hk'' Hkept'].
    { intros Ho. destruct (R5 _ Ho) as [?|(k' & E & Hna)]; [done|].
      assert (k = k') as -> by (unfold frame_at, FRAME_SIZE in E; lia). done. }
    split; [done|]. by eapply kept_trans; [rewrite (pi_dm _ _ _ R1), (pi_dm _ _ _ Hinv)|..].
  - intros f Hf. by apply R5, Htab.
Qed.

Lemma frame_at_inj k k' : frame_at k = frame_at k' → k = k'.
Proof. unfold frame_at, FRAME_SIZE. lia. Qed.

(** Mapping the next page extends the range. *)
Lemma range_mapped_extend n s' l' s'' l'' :
  0 ≤ n → vs + (n + 1) * FRAME_SIZE ≤ W64 → range_mapped n s' l' →
  (∀ k, l !! k = Some Allocated → l' !! k = Some Allocated) →
  map_ok_post rt (vs + n * FRAME_SIZE) (fr n) perms s' s'' l' l'' →
  range_mapped (n + 1) s'' l''.
Proof.
  intros Hn0 Hn [R1 R2 R3 R4 R5] Hal [M1 M2 M3 M4 M5 M6 M7 _].
  assert (Hoth : ∀ x, is_u64 x → x / PAGE_SIZE ≠ vs / PAGE_SIZE + n →
    same_page rt (ms_mem s') (ms_mem s'') x) by (intros; apply M5; rewrite ?page_of; done).
  split.
  - done.
  - intros i Hi. assert (is_u64 (vs + i * FRAME_SIZE)) as Hu by (unfold FRAME_SIZE in *; ulia).
    destruct (decide (i = n)) as [->|Hin].
    + split_and!; [done|done|]. apply (unmapped_page_same rt (ms_mem s) (ms_mem s')); [|exact M4]. intros x Hx Ex. rewrite page_of in Ex.
      apply R3; [done|]. intros; lia.
    + destruct (R2 i ltac:(lia)) as (P1 & P2 & P3). split_and!; [| |done].
      * eapply maps_page_same; [|done]. intros x Hx Ex. rewrite page_of in Ex.
        apply Hoth; [done|lia].
      * eapply same_page_leaf; [apply Hoth; [done|rewrite page_of; lia]|by eapply maps_page_canonical|done].
  - intros x Hx Hne. eapply same_page_trans; [apply R3; [done|]|apply Hoth; [done|]].
    + intros i Hi. apply Hne. lia.
    + apply Hne. lia.
  - intros k Hk Hno. destruct (R4 k Hk Hno) as [Hk' Hkept].
    destruct (M6 k Hk') as [Hk'' Hkept']. split; [done|].
    eapply kept_trans; [by rewrite (pi_dm _ _ _ R1), (pi_dm _ _ _ Hinv)|done|].
    apply Hkept'. intros Ho. destruct (R5 _ Ho) as [?|(k' & E & Hna)]; [done|].
    by apply frame_at_inj in E as ->.
  - intros f Hf. destruct (M7 f Hf) as [Ho|(k & -> & Hk)]; [by apply R5|].
    right. exists k. split; [done|]. intros Hk'%Hal. congruence.
Qed.

(** Unmapping the last page shrinks it. *)
Lemma range_mapped_shrink n frame s' l' s'' l'' :
  0 ≤ n → vs + (n + 1) * FRAME_SIZE ≤ W64 → range_mapped (n + 1) s' l' →
  unmap_post rt (vs + n * FRAME_SIZE) frame s' s'' l' l'' →
  range_mapped n s'' l''.
Proof.
  intros Hn0 Hn [R1 R2 R3 R4 R5] [U1 U2 U3 U4 U5 U6 U7 _].
  assert (Hoth : ∀ x, is_u64 x → x / PAGE_SIZE ≠ vs / PAGE_SIZE + n →
    same_page rt (ms_mem s') (ms_mem s'') x) by (intros; apply U4; rewrite ?page_of; done).
  destruct (R2 n ltac:(lia)) as (Pn1 & Pn2 & Pn3). split.
  - done.
  - intros i Hi. assert (is_u64 (vs + i * FRAME_SIZE)) as Hu by (unfold FRAME_SIZE in *; ulia).
    destruct (R2 i ltac:(lia)) as (P1 & P2 & P3). split_and!; [| |done].
    + eapply maps_page_same; [|done]. intros x Hx Ex. rewrite page_of in Ex.
      apply Hoth; [done|lia].
    + eapply same_page_leaf; [apply Hoth; [done|rewrite page_of; lia]|by eapply maps_page_canonical|done].
  - intros x Hx Hne. destruct (decide (x / PAGE_SIZE = vs / PAGE_SIZE + n)) as [Ex|Ex].
    + destruct (U3 x Hx ltac:(by rewrite page_of)) as [[G1 G2] G3].
      destruct (Pn3 x Hx ltac:(by rewrite page_of)) as [[O1 O2] O3].
      split; [unfold same_view; by rewrite G1, G2, O1, O2|]. intros Hc. by rewrite G3, O3.
    + eapply same_page_trans; [apply R3; [done|]|by apply Hoth]. intros i Hi.
      destruct (decide (i = n)) as [->|]; [done|]. apply Hne. lia.
  - intros k Hk Hno. destruct (R4 k Hk Hno) as [Hk' Hkept].
    assert (¬ own_table rt (ms_mem s') (frame_at k)) as Hno'.
    { intros Ho. destruct (R5 _ Ho) as [?|(k' & E & Hna)]; [done|]. by apply frame_at_inj in E as ->. }
    split.
    + destruct (U5 k) as [->|(_ & _ & Ho & _)]; done.
    + eapply kept_trans; [by rewrite (pi_dm _ _ _ R1), (pi_dm _ _ _ Hinv)|done|]. by apply U6.
  - intros f Hf. by apply R5, U7.
Qed.
End ranges.

(** ** Mapping ranges *)

Section map_range.
Context (self : AddressSpace) (ps vs : Z) (perms : PagePermissions) (cp : CachePolicy).
Context (s : MState) (l : list FrameState).
Context (Hinv : pt_inv (root self) s l) (Hps : 0 ≤ ps) (Hvs : 0 ≤ vs).
Abbreviation fr := (λ i, ps + i * FRAME_SIZE).
Context (Hpal : ps mod FRAME_SIZE = 0) (Hval : vs mod FRAME_SIZE = 0).

Lemma page_aligned i : (vs + i * FRAME_SIZE) mod PAGE_SIZE = 0.
Proof. unfold FRAME_SIZE, PAGE_SIZE in *. by rewrite Z.mod_add. Qed.

Lemma rollback_spec n s' l' :
  0 ≤ n → vs + n * FRAME_SIZE ≤ W64 → range_mapped (root self) fr vs perms s l n s' l' →
  ∃ s'' l'', map_range_rollback self vs n s' = Done (tt, s'') ∧
    range_mapped (root self) fr vs perms s l 0 s'' l''.
Proof.
  intros Hn. revert s' l'. pattern n. apply natlike_ind; [| |done]; clear n Hn.
  { intros s' l' _ Hr. by exists s', l'. }
  intros n Hn IH s' l' Hb Hr. unfold map_range_rollback in *.
  rewrite <- Z.add_1_r, range_snoc, rev_app_distr in * by lia. simpl. unfold FRAME_SIZE in *.
  rewrite !bind_assoc. mstep umul_lt. rewrite bind_assoc. mstep uadd_lt.
  destruct (rm_pages _ _ _ _ _ _ _ _ _ Hr n ltac:(lia)) as (P1 & P2 & P3).
  assert (is_u64 (vs + n * FRAME_SIZE)) as Hu by (unfold FRAME_SIZE; ulia).
  destruct (unmap_leaf_ok (root self) s' l' (vs + n * FRAME_SIZE) (rm_inv _ _ _ _ _ _ _ _ _ Hr) Hu
    ltac:(by eapply maps_page_canonical) (page_aligned n) P2) as (frame & s1 & l1 & E1 & Hpost).
  unfold FRAME_SIZE in E1. rewrite bind_assoc, (bind_Done _ _ _ _ _ E1). mred.
  apply (IH s1 l1); [lia|].
  eapply (range_mapped_shrink _ _ _ _ _ _ Hinv Hvs n); try done; unfold FRAME_SIZE; lia.
Qed.

(** What [map_range] leaves: all pages mapped, or the views it found. *)
Definition range_result (n : Z) (r : result unit MapError) (s' : MState) : Prop :=
  match r with
  | Ok _ => ∃ l', range_mapped (root self) fr vs perms s l n s' l' ∧
      (∀ k, l !! k = Some Allocated → l' !! k = Some Allocated) ∧
      (kind self = User → ∀ i, 0 ≤ i < n → vs + i * FRAME_SIZE < USER_SPACE_END)
  | Err _ => ∃ l', range_mapped (root self) fr vs perms s l 0 s' l'
  end.

Lemma map_pages_spec n d k s' l' :
  ps + n * FRAME_SIZE ≤ W64 → vs + n * FRAME_SIZE ≤ W64 → k = n - Z.of_nat d → 0 ≤ k →
  range_mapped (root self) fr vs perms s l k s' l' →
  (∀ k, l !! k = Some Allocated → l' !! k = Some Allocated) →
  (kind self = User → ∀ i, 0 ≤ i < k → vs + i * FRAME_SIZE < USER_SPACE_END) →
  ∃ r s'', mfor_ok (range k n) (map_range_page self ps vs perms cp) s' = Done (r, s'') ∧
    range_result n r s''.
Proof.
  intros Hpn Hvn. revert k s' l'. induction d as [|d IH]; intros k s' l' -> Hk Hr Hal Huser.
  { rewrite range_empty by lia. exists (Ok tt), s'. split; [done|]. exists l'.
    replace n with (n - Z.of_nat 0) by lia. done. }
  rewrite range_cons by lia. set (k := n - Z.of_nat (S d)) in *. simpl.
  assert (Hu : is_u64 (vs + k * FRAME_SIZE) ∧ is_u64 (ps + k * FRAME_SIZE))
    by (unfold FRAME_SIZE in *; ulia). destruct Hu as [Hu Hpu].
  assert (Hstep : ∃ r s'', map_range_page self ps vs perms cp k s' = Done (r, s'') ∧
    match r with
    | Ok _ => ∃ l'', range_mapped (root self) fr vs perms s l (k + 1) s'' l'' ∧
        (∀ k, l !! k = Some Allocated → l'' !! k = Some Allocated) ∧
        (kind self = User → vs + k * FRAME_SIZE < USER_SPACE_END)
    | Err _ => ∃ l'', range_mapped (root self) fr vs perms s l 0 s'' l''
    end).
  { unfold map_range_page. unfold FRAME_SIZE in *. mstep umul_lt. mstep uadd_lt. mstep uadd_lt.
    destruct (AddressSpace_map_spec self s' l' (ps + k * 4096) (vs + k * 4096) perms cp
      (rm_inv _ _ _ _ _ _ _ _ _ Hr) Hu Hpu) as (r & s1 & E & Hpost).
    rewrite (bind_Done _ _ _ _ _ E). destruct r as [[]|e].
    - destruct Hpost as [Hus [l1 Hpost]]. exists (Ok tt), s1. split; [done|]. exists l1.
      split_and!; [|intros k' Hk'%Hal; by apply (mo_kept _ _ _ _ _ _ _ _ Hpost)|].
      + eapply (range_mapped_extend _ _ _ _ _ _ Hinv Hvs k); try done. unfold FRAME_SIZE. lia.
      + intros Hkind. by apply Hus.
    - destruct (rollback_spec k s1 l') as (s2 & l2 & E2 & Hr2); [done|unfold FRAME_SIZE; lia| |].
      { eapply (range_mapped_same _ _ _ _ _ _ Hinv Hvs k s' l'); try apply Hpost;
          [unfold FRAME_SIZE; lia|done|intros; by apply Hpost|].
        intros k' _ Hk' Hno. destruct (me_kept _ _ _ _ Hpost k' Hk') as [? Hkp]. auto. }
      rewrite (bind_Done _ _ _ _ _ E2). exists (Err e), s2. split; [done|]. by exists l2. }
  destruct Hstep as (r & s1 & E & Hpost). destruct r as [[]|e].
  - rewrite (bind_ok_Ok _ _ _ _ _ E). destruct Hpost as (l1 & Hr1 & Hal1 & Hu1).
    apply (IH (k + 1) s1 l1); [lia|lia|done|done|]. intros Hkind i Hi.
    destruct (decide (i = k)) as [->|]; [by apply Hu1|]. apply Huser; [done|lia].
  - rewrite (bind_ok_Err _ _ _ _ _ E). exists (Err e), s1. split; [done|]. done.
Qed.

Lemma map_range_spec length :
  is_u64 ps → is_u64 vs → is_u64 length →
  ∃ r s', AddressSpace_map_range self ps vs length perms cp s = Done (r, s') ∧
    range_result (length / FRAME_SIZE) r s'.
Proof.
  intros Hpu Hvu Hlu. unfold AddressSpace_map_range.
  destruct (Z.eqb_spec length 0) as [->|Hnz].
  { exists (Ok tt), s. split; [done|]. exists l. split_and!; [by apply range_mapped_0|done|].
    intros _ i Hi. change (0 / FRAME_SIZE) with 0 in Hi. lia. }
  rewrite Hpal, Hval. simpl.
  assert (Hfail : ∀ e, ∃ r s', Done (Err e, s) = Done (r, s') ∧ range_result (length / FRAME_SIZE) r s').
  { intros e. exists (Err e), s. split; [done|]. exists l. by apply range_mapped_0. }
  destruct (Z.eqb_spec (length mod FRAME_SIZE) 0) as [Hlal|]; simpl; [|apply Hfail].
  assert (4096 ≤ length) as Hge by (unfold FRAME_SIZE, is_u64 in *; dmlia).
  rewrite (bind_Done _ _ _ _ _ (usub_le _ _ s Hge)). mred.
  destruct (checked_add ps _) eqn:E1; cbn [ok_or]; [|apply Hfail].
  destruct (checked_add vs _) eqn:E2; cbn [ok_or]; [|apply Hfail].
  apply checked_add_Some in E1 as [_ E1], E2 as [_ E2].
  eapply (map_pages_spec (length / FRAME_SIZE) (Z.to_nat (length / FRAME_SIZE)) 0 s l).
  - unfold FRAME_SIZE, is_u64, W64 in *. dmlia.
  - unfold FRAME_SIZE, is_u64, W64 in *. dmlia.
  - unfold FRAME_SIZE, is_u64 in *. rewrite Z2Nat.id; dmlia.
  - done.
  - by apply range_mapped_0.
  - done.
  - lia.
Qed.
End map_range.

Lemma map_range_atomic_spec self s l ps vs length perms cp :
  pt_inv (root self) s l → is_u64 ps → is_u64 vs → is_u64 length →
  ∃ r s', AddressSpace_map_range self ps vs length perms cp s = Done (r, s') ∧
    range_result self ps vs perms s l (length / FRAME_SIZE) r s'.
Proof.
  intros Hinv Hps Hvs Hlen.
  destruct (decide (ps mod FRAME_SIZE = 0 ∧ vs mod FRAME_SIZE = 0)) as [[Hp Hv]|Hn].
  { apply map_range_spec; try done; [apply Hps|apply Hvs]. }
  unfold AddressSpace_map_range. destruct (Z.eqb_spec length 0) as [->|Hnz].
  { exists (Ok tt), s. split; [done|]. exists l. split_and!; [by apply range_mapped_0|done|].
    intros _ i Hi. change (0 / FRAME_SIZE) with 0 in Hi. lia. }
  destruct (Z.eqb_spec (ps mod FRAME_SIZE) 0) as [Hp|Hp]; simpl.
  2:{ exists (Err PhysicalAddressUnaligned), s. split; [done|]. exists l. by apply range_mapped_0. }
  destruct (Z.eqb_spec (vs mod FRAME_SIZE) 0) as [Hv|Hv]; simpl; [tauto|].
  exists (Err VirtualAddressUnaligned), s. split; [done|]. exists l. by apply range_mapped_0.
Qed.

(** ** Sharing the kernel half *)

Section new_user.
Context (kr ur : PageTable) (s1 : MState) (l1 : list FrameState) (Hu : pt_inv ur s1 l1).
Context (Hdm : pt_direct_map ur = pt_direct_map kr).

Lemma copy_kernel_mappings_spec :
  table_ok (pt_config kr) l1 (pt_frame kr) →
  ∃ s2, copy_kernel_mappings_to kr ur s1 = Done (tt, s2) ∧ writes_in l1 (eq (pt_frame ur)) s1 s2 ∧
    reads_as ur l1 s2 (λ f j, if (f =? pt_frame ur) && (256 <=? j)
                              then heap_of kr (ms_mem s1) (pt_frame kr) j
                              else heap_of ur (ms_mem s1) f j).
Proof.
  intros Hkt. pose proof (pi_alloc _ _ _ Hu) as Hfa.
  assert (own_table ur (ms_mem s1) (pt_frame ur)) as Hown by (exists []; split_and!; [done|simpl; lia|done]).
  pose proof (own_table_ok ur s1 l1 Hu _ Hown) as Hut.
  assert (reads_as ur l1 s1 (heap_of ur (ms_mem s1))) as Hr by (split; [apply Hu|done]).
  unfold copy_kernel_mappings_to.
  assert (PageTable_table kr (pt_frame kr) = Some (pt_frame kr + offset (pt_direct_map kr))) as ->.
  { unfold PageTable_table. rewrite <- Hdm, <- (pi_dm _ _ _ Hu). by eapply table_ok_translate. }
  rewrite (reads_as_table ur l1 s1 _ (pt_frame ur) Hfa Hr Hut). unfold expect. mred.
  edestruct (mfor_inv (λ pre s2, writes_in l1 (eq (pt_frame ur)) s1 s2 ∧
    reads_as ur l1 s2 (λ f j, if (f =? pt_frame ur) && bool_decide (j ∈ pre)
      then heap_of kr (ms_mem s1) (pt_frame kr) j else heap_of ur (ms_mem s1) f j)))
    as (s2 & E & W & R); [| |exists s2; split_and!; [exact E|exact W|]].
  3:{ eapply reads_as_ext; [exact R|]. intros f j _ Hj. unfold idx_ok, PAGE_TABLE_ENTRIES in Hj.
      cbn beta. assert (bool_decide (j ∈ range 256 512) = (256 <=? j)) as ->; [|done].
      rewrite (bool_decide_ext _ (256 ≤ j)) by (rewrite elem_of_range; lia).
      destruct (Z.leb_spec 256 j); [by apply bool_decide_true|apply bool_decide_false; lia]. }
  - split; [by apply writes_in_refl|]. eapply reads_as_ext; [exact Hr|]. intros f j _ _.
    by rewrite bool_decide_false, andb_false_r by apply not_elem_of_nil.
  - intros pre i post s2 Hsplit [W R].
    assert (i ∈ range 256 512) as Hi%elem_of_range by (rewrite Hsplit; set_solver).
    destruct (set_entry_step ur l1 s2 _ (pt_frame ur) i (heap_of kr (ms_mem s1) (pt_frame kr) i)
      (wi_fa _ _ _ _ W) R Hut) as [W' R'].
    { unfold idx_ok, PAGE_TABLE_ENTRIES. lia. }
    { apply load64_range. }
    eexists. split; [reflexivity|]. split; [by eapply writes_in_trans|].
    eapply reads_as_ext; [exact R'|]. intros f j Hf Hj.
    destruct (hupd_cases (λ f j, if (f =? pt_frame ur) && bool_decide (j ∈ pre)
      then heap_of kr (ms_mem s1) (pt_frame kr) j else heap_of ur (ms_mem s1) f j)
      (pt_frame ur) i (heap_of kr (ms_mem s1) (pt_frame kr) i) f j) as [(-> & -> & ->)|[Hne ->]].
    + rewrite Z.eqb_refl, bool_decide_true by set_solver. done.
    + destruct (Z.eqb_spec f (pt_frame ur)) as [->|]; [|done]. simpl.
      assert (j ≠ i) by congruence. by rewrite (bool_decide_ext (j ∈ pre ++ [i]) (j ∈ pre)) by set_solver.
Qed.
End new_user.

(** A root that repeats the upper half of another root is the root of a tree of its own,
    in which the upper half resolves as it does in the other. *)
Section shared_tree.
Context (config : PagingConfig) (Hcfg : config_wf config) (n : nat) (A A' : FrameAddr → Prop).
Context (kroot uroot : FrameAddr) (h h' : heap) (Htree : tree_inv config n A kroot h).
Context (HA : ∀ f, A f → A' f) (HAu : A' uroot) (Hfresh : ¬ A uroot).
Context (Hag : ∀ f j, A f → idx_ok j → h' f j = h f j).
Context (Hroot : ∀ j, idx_ok j → h' uroot j = if 256 <=? j then h kroot j else 0).

Lemma kroot_A : A kroot.
Proof. apply (ti_table _ _ _ _ _ Htree []); [done|simpl; lia|done]. Qed.

Lemma shared_walk i p :
  idx_ok i → Forall idx_ok p → (length p ≤ n)%nat →
  follow config h' uroot (i :: p) = (if 256 <=? i then follow config h kroot (i :: p) else None) ∧
  resolve config h' uroot (i :: p) = (if 256 <=? i then resolve config h kroot (i :: p) else None).
Proof.
  intros Hi Hp Hl.
  destruct (tree_walk_agree config n A kroot h Htree h' (i :: p)) as (Ef & Er & _);
    [by constructor|simpl; lia|done|].
  destruct (Z.leb_spec 256 i) as [H256|H256].
  - rewrite <- Ef, <- Er. simpl. rewrite Hroot, (Hag kroot i kroot_A) by done.
    by rewrite (proj2 (Z.leb_le 256 i)).
  - simpl. rewrite Hroot by done. by rewrite (proj2 (Z.leb_gt 256 i)) by done.
Qed.

Lemma shared_follow p f :
  Forall idx_ok p → (length p ≤ n)%nat → follow config h' uroot p = Some f →
  (p = [] ∧ f = uroot) ∨ (p ≠ [] ∧ follow config h kroot p = Some f).
Proof.
  intros Hp Hl Hf. destruct p as [|i p]; [left; simpl in Hf; by simplify_eq|right].
  apply Forall_cons in Hp as [Hi Hp]. simpl in Hl.
  rewrite (proj1 (shared_walk i p Hi Hp ltac:(lia))) in Hf. by destruct (256 <=? i).
Qed.

Lemma shared_tree : tree_inv config n A' uroot h'.
Proof.
  split.
  - intros p f Hp Hl Hf. destruct (shared_follow p f Hp Hl Hf) as [[-> ->]|[_ Hf']]; [done|].
    apply HA. by apply (ti_table _ _ _ _ _ Htree p).
  - intros p q f Hp Hq Hl Hl' Hf Hf'.
    pose proof (shared_follow p f Hp Hl Hf) as C1. pose proof (shared_follow q f Hq Hl' Hf') as C2.
    destruct C1 as [[-> E1]|[_ Hf1]], C2 as [[-> E2]|[_ Hf2]]; try done.
    + subst. destruct Hfresh. by apply (ti_table _ _ _ _ _ Htree q).
    + subst. destruct Hfresh. by apply (ti_table _ _ _ _ _ Htree p).
    + by apply (ti_inj _ _ _ _ _ Htree p q f).
  - intros p f i Hp Hi Hl Hf.
    destruct (shared_follow p f Hp ltac:(lia) Hf) as [[-> ->]|[_ Hf1]].
    + rewrite Hroot by done. destruct (256 <=? i).
      * by apply (ti_flags _ _ _ _ _ Htree []).
      * intros [g Hg]. rewrite entry_table_frame_eq in Hg by done. done.
    + rewrite Hag by (done || apply (ti_table _ _ _ _ _ Htree p); done || lia).
      by apply (ti_flags _ _ _ _ _ Htree p).
  - intros [|i p] es e Hp Hl; [done|]. apply Forall_cons in Hp as [Hi Hp].
    rewrite (proj2 (shared_walk i p Hi Hp ltac:(simpl in Hl; lia))).
    destruct (256 <=? i); [|done]. apply (ti_user _ _ _ _ _ Htree); [by constructor|done].
Qed.
End shared_tree.

(** The top index of a canonical address tells the half it lies in. *)
Lemma top_index self x :
  is_u64 x → is_canonical self x = true →
  ∃ i p, path self x = i :: p ∧ length p = length (levels self) ∧ (256 <=? i) = (2 ^ 63 <=? x).
Proof.
  intros Hx Hc%is_canonical_spec; [|done]. pose proof (path_of_length (levels self) x) as Hl.
  fold (path self x) in Hl. unfold is_u64, W64 in *.
  assert (∃ lv lvls, levels self = lv :: lvls ∧
    (256 <=? level_index lv x) = (2 ^ 63 <=? x)) as (lv & lvls & Hlv & Hi).
  { unfold levels, level_index. destruct (mode _); simpl in *; eexists _, _; (split; [done|]);
      simpl; rewrite index_div by done; destruct (Z.leb_spec 256 (x / 2 ^ 48 mod 512)),
      (Z.leb_spec 256 (x / 2 ^ 39 mod 512)), (Z.leb_spec (2 ^ 63) x); try done; dmlia. }
  unfold path in *. rewrite Hlv in *. eexists _, _. split; [done|]. split; [|done].
  simpl in Hl. by injection Hl.
Qed.

Lemma copy_shared kr ur s1 s2 l l1 k :
  pt_inv kr s1 l1 → tree_inv (pt_config kr) (length (levels kr)) (table_ok (pt_config kr) l)
    (pt_frame kr) (heap_of kr (ms_mem s1)) →
  pt_inv ur s1 l1 → l1 = <[k := Allocated]> l → l !! k = Some Free →
  pt_frame ur = frame_at k → pt_direct_map ur = pt_direct_map kr → pt_config ur = pt_config kr →
  (∀ j, idx_ok j → heap_of ur (ms_mem s1) (pt_frame ur) j = 0) →
  writes_in l1 (eq (pt_frame ur)) s1 s2 →
  reads_as ur l1 s2 (λ f j, if (f =? pt_frame ur) && (256 <=? j)
                            then heap_of kr (ms_mem s1) (pt_frame kr) j
                            else heap_of ur (ms_mem s1) f j) →
  pt_inv ur s2 l1 ∧ pt_inv kr s2 l1 ∧ (∀ x, same_page kr (ms_mem s1) (ms_mem s2) x) ∧
  ∀ x, is_u64 x → is_canonical kr x = true →
    walk ur (ms_mem s2) x = if 2 ^ 63 <=? x then walk kr (ms_mem s1) x else None.
Proof.
  intros Hk Htree Hu Hl1 Hfree Hur Hdm Hcfg Hzero W [Rdm R].
  pose proof (pi_config _ _ _ Hk) as Hwf.
  assert (Hsub : ∀ f, table_ok (pt_config kr) l f → table_ok (pt_config kr) l1 f ∧ f ≠ pt_frame ur).
  { intros f [Hf1 Hf2]. assert (Z.to_nat (f / FRAME_SIZE) ≠ k) as Hne by congruence. split.
    - split; [done|]. by rewrite Hl1, list_lookup_insert_ne.
    - rewrite Hur. intros ->. by rewrite frame_at_index in Hne. }
  assert (Hheap : ∀ m, heap_of ur m = heap_of kr m) by (intros; unfold heap_of; by rewrite Hdm).
  assert (Hlev : levels ur = levels kr) by (unfold levels; by rewrite Hcfg).
  assert (Hag : ∀ f j, table_ok (pt_config kr) l f → idx_ok j →
    heap_of kr (ms_mem s2) f j = heap_of kr (ms_mem s1) f j).
  { intros f j Hf Hj. destruct (Hsub f Hf) as [Hf1 Hne]. rewrite <- (Hheap (ms_mem s2)), R by
      (rewrite ?Hcfg; done). rewrite (proj2 (Z.eqb_neq _ _)) by done. simpl. by rewrite Hheap. }
  assert (HAu : table_ok (pt_config kr) l1 (pt_frame ur)).
  { rewrite <- Hcfg. eapply own_table_ok; [exact Hu|]. exists []. split_and!; [done|simpl; lia|done]. }
  assert (Hroot : ∀ j, idx_ok j → heap_of kr (ms_mem s2) (pt_frame ur) j =
    if 256 <=? j then heap_of kr (ms_mem s1) (pt_frame kr) j else 0).
  { intros j Hj. rewrite <- (Hheap (ms_mem s2)), R by (rewrite ?Hcfg; done).
    rewrite Z.eqb_refl. simpl. destruct (256 <=? j); [done|]. by apply Hzero. }
  assert (Hfresh : ¬ table_ok (pt_config kr) l (pt_frame ur)) by (intros Hf; by apply Hsub in Hf as [_ ?]).
  pose proof (shared_tree (pt_config kr) Hwf (length (levels kr)) _ _ (pt_frame kr) (pt_frame ur) _ _ Htree
    (λ f Hf, proj1 (Hsub f Hf)) HAu Hfresh Hag Hroot) as Hshared.
  assert (Hinvu : pt_inv ur s2 l1).
  { split; [by rewrite Hcfg|apply W|done|]. rewrite Hcfg, Hlev, Hheap. done. }
  assert (Htree2 := tree_inv_agree _ _ _ _ _ Htree _ Hag).
  assert (Hinvk : pt_inv kr s2 l1).
  { split; [done|apply W|by rewrite Rdm|]. eapply tree_inv_weaken; [exact Htree2|].
    intros p f Hp Hl Hf. apply Hsub. by apply (ti_table _ _ _ _ _ Htree2 p). }
  split_and!; [done|done| |].
  - intros x. apply (view_same kr s1 l1 s2 l1 x Hk Hinvk).
    apply (tree_walk_agree _ _ _ _ _ Htree); [apply path_of_ok| |done].
    unfold path. rewrite path_of_length. lia.
  - intros x Hx Hc. destruct (top_index kr x Hx Hc) as (i & p & Hpath & Hlp & <-).
    pose proof (path_of_ok (levels kr) x) as Hok. fold (path kr x) in Hok. rewrite Hpath in Hok.
    apply Forall_cons in Hok as [Hi Hp]. unfold walk.
    assert (path ur x = path kr x) as -> by (unfold path; by rewrite Hlev).
    rewrite Hcfg, Hheap, Hpath.
    apply (shared_walk (pt_config kr) (length (levels kr)) (table_ok (pt_config kr) l)); done || lia.
Qed.

Lemma new_user_spec self s l :
  pt_inv (root self) s l →
  ∃ r s', AddressSpace_new_user self s = Done (r, s') ∧
    match r with
    | Ok u => kind u = User ∧ ∃ k, l !! k = Some Free ∧ pt_frame (root u) = frame_at k ∧
        pt_inv (root u) s' (<[k := Allocated]> l) ∧ pt_inv (root self) s' (<[k := Allocated]> l) ∧
        (∀ x, same_page (root self) (ms_mem s) (ms_mem s') x) ∧
        ∀ x, is_u64 x → is_canonical (root self) x = true →
          if 2 ^ 63 <=? x
          then PageTable_to_physical (root u) (ms_mem s') x = PageTable_to_physical (root self) (ms_mem s) x ∧
               PageTable_mapping (root u) (ms_mem s') x = PageTable_mapping (root self) (ms_mem s) x
          else PageTable_to_physical (root u) (ms_mem s') x = None ∧
               PageTable_mapping (root u) (ms_mem s') x = None
    | Err _ => pt_inv (root self) s' l ∧ ∀ x, same_page (root self) (ms_mem s) (ms_mem s') x
    end.
Proof.
  intros Hk. pose proof (pi_config _ _ _ Hk) as Hwf. set (kr := root self) in *.
  unfold AddressSpace_new_user. fold kr.
  destruct (page_table_new_spec s l (pt_direct_map kr) (pt_config kr) (pi_alloc _ _ _ Hk)
    (pi_dm _ _ _ Hk) Hwf) as (r & s1 & E & Hr).
  assert (Hheap : (∀ j, l !! j = Some Allocated → kept_frame s s1 j) → ∀ f j,
    table_ok (pt_config kr) l f → idx_ok j → heap_of kr (ms_mem s1) f j = heap_of kr (ms_mem s) f j).
  { intros Hkept f j Hf Hj. eapply kept_heap; [apply Hk|done|done|]. apply Hkept, Hf. }
  destruct r as [ur|e].
  2:{ rewrite (bind_ok_Err _ _ _ _ _ E). exists (Err e), s1. split; [done|].
      destruct Hr as (Hfa & (_ & Hl & _) & _ & Hkept).
      destruct (pt_inv_agree kr s s1 l Hk Hfa Hl (Hheap Hkept)) as (? & ? & _). done. }
  rewrite (bind_ok_Ok _ _ _ _ _ E). destruct Hr as (k & Hfree & -> & Hu & _ & Hz & Hkept).
  set (ur := mkPageTable _ _ _) in *. set (l1 := <[k := Allocated]> l) in *.
  assert (Hkept' : ∀ j, l !! j = Some Allocated → kept_frame s s1 j).
  { intros j Hj. apply Hkept; [congruence|done]. }
  pose proof (tree_inv_agree _ _ _ _ _ (pi_tree _ _ _ Hk) _ (Hheap Hkept')) as Htree1.
  assert (Hk1 : pt_inv kr s1 l1).
  { split; [done|apply Hu|apply (pi_dm _ _ _ Hu)|]. eapply tree_inv_weaken; [exact Htree1|].
    intros p f Hp Hl Hf. destruct (ti_table _ _ _ _ _ Htree1 p f Hp Hl Hf) as [Hf1 Hf2].
    split; [done|]. unfold l1. rewrite list_lookup_insert_ne; [done|congruence]. }
  destruct (copy_kernel_mappings_spec kr ur s1 l1 Hu eq_refl) as (s2 & E2 & W & R).
  { apply (own_table_ok kr s1 l1 Hk1). exists []. split_and!; [done|simpl; lia|done]. }
  rewrite (bind_Done _ _ _ _ _ E2). exists (Ok (mkAddressSpace ur User)), s2. split; [done|].
  destruct (copy_shared kr ur s1 s2 l l1 k Hk1 Htree1 Hu eq_refl Hfree eq_refl eq_refl eq_refl Hz W R)
    as (Hu2 & Hk2 & Hsame & Hwalk).
  assert (Hw01 : ∀ x, walk kr (ms_mem s1) x = walk kr (ms_mem s) x).
  { intros x. apply (tree_walk_agree _ _ _ _ _ (pi_tree _ _ _ Hk)); [apply path_of_ok| |by apply Hheap].
    unfold path. rewrite path_of_length. lia. }
  split; [done|]. exists k. split_and!; [done|done|done|done| |].
  - intros x. eapply same_page_trans; [|apply Hsame]. by apply (view_same kr s l s1 l1).
  - intros x Hx Hc. simpl root. assert (is_canonical ur x = true) as Hcu by done.
    destruct (view_walk ur s2 l1 x Hu2 Hcu) as [-> ->], (view_walk kr s l x Hk Hc) as [-> ->].
    rewrite Hwalk, Hw01 by done. destruct (2 ^ 63 <=? x); done.
Qed.

(** * Theorems *)

(** [AddressSpace::map_range] is all or nothing and never panics.  On success every page of
    the range, none of which was mapped, maps to the corresponding frame with exactly the
    permissions asked for, and every other address is as before; in a user space the whole
    range lies below the kernel half.  On failure the pages mapped so far are unmapped
    again, and every address translates as before.  Either way no allocated frame other
    than the space's own tables is touched. *)
Theorem map_range_atomic (self : AddressSpace) (s : MState) (l : list FrameState)
    (ps vs length : usize) (perms : PagePermissions) (cp : CachePolicy) :
  pt_inv (root self) s l → is_u64 ps → is_u64 vs → is_u64 length →
  ∃ r s', AddressSpace_map_range self ps vs length perms cp s = Done (r, s') ∧
    range_result self ps vs perms s l (length / FRAME_SIZE) r s'.
Proof.
  apply map_range_atomic_spec.
Qed.

Definition demo_space (k : AddressSpaceKind) : AddressSpace := mkAddressSpace demo_pt k.

Lemma map_range_atomic_witness :
  ∃ s', AddressSpace_map_range (demo_space Kernel) 0 0x1000 0x2000 (mkPagePermissions true true false)
          WriteBack demo_pt_state = Done (Ok tt, s') ∧
    range_result (demo_space Kernel) 0 0x1000 (mkPagePermissions true true false) demo_pt_state
      demo_pt_frames 2 (Ok tt) s'.
Proof.
  destruct (map_range_atomic (demo_space Kernel) demo_pt_state demo_pt_frames 0 0x1000 0x2000
    (mkPagePermissions true true false) WriteBack) as (r & s' & E & H);
    [apply demo_pt_inv|done|done|done|].
  assert (r = Ok tt) as -> by (eapply returned_Done; [exact E|vm_compute; reflexivity]).
  exists s'. split; [exact E|exact H].
Defined.

(** [AddressSpace::new_user] gives a process its own address space: nothing is mapped in the
    lower half, the upper half translates exactly as in the kernel's space and with the same
    permissions, both page tables satisfy the invariant afterwards, and the kernel's own view
    is unchanged. *)
Theorem new_user_correct (self : AddressSpace) (s : MState) (l : list FrameState) :
  pt_inv (root self) s l →
  ∃ r s', AddressSpace_new_user self s = Done (r, s') ∧
    match r with
    | Ok u => kind u = User ∧ ∃ k, l !! k = Some Free ∧ pt_frame (root u) = frame_at k ∧
        pt_inv (root u) s' (<[k := Allocated]> l) ∧ pt_inv (root self) s' (<[k := Allocated]> l) ∧
        (∀ x, same_page (root self) (ms_mem s) (ms_mem s') x) ∧
        ∀ x, is_u64 x → is_canonical (root self) x = true →
          if 2 ^ 63 <=? x
          then PageTable_to_physical (root u) (ms_mem s') x = PageTable_to_physical (root self) (ms_mem s) x ∧
               PageTable_mapping (root u) (ms_mem s') x = PageTable_mapping (root self) (ms_mem s) x
          else PageTable_to_physical (root u) (ms_mem s') x = None ∧
               PageTable_mapping (root u) (ms_mem s') x = None
    | Err _ => pt_inv (root self) s' l ∧ ∀ x, same_page (root self) (ms_mem s) (ms_mem s') x
    end.
Proof. apply new_user_spec. Qed.

Lemma new_user_correct_witness :
  ∃ u s', AddressSpace_new_user (demo_space Kernel) demo_pt_state = Done (Ok u, s') ∧
    PageTable_to_physical (root u) (ms_mem s') 0x1000 = None.
Proof.
  destruct (new_user_correct (demo_space Kernel) demo_pt_state demo_pt_frames)
    as (r & s' & E & H); [apply demo_pt_inv|].
  assert (r = Ok (mkAddressSpace (mkPageTable demo_dm demo_config 12288) User)) as ->
    by (eapply returned_Done; [exact E|vm_compute; reflexivity]).
  eexists _, s'. split; [exact E|]. destruct H as (_ & k & _ & _ & _ & _ & _ & H).
  assert (is_u64 0x1000) as Hx by (unfold is_u64, W64; lia).
  assert (is_canonical (root (demo_space Kernel)) 0x1000 = true) as Hc by (vm_compute; reflexivity).
  exact (proj1 (H 0x1000 Hx Hc)).
Defined.

(** What may happen to a user address space: any of its mapping operations, with any
    arguments and any outcome. *)
Inductive space_step (self : AddressSpace) : MState → MState → Prop :=
| step_map pa va perms cp r s s' :
    is_u64 pa → is_u64 va → AddressSpace_map self pa va perms cp s = Done (r, s') →
    space_step self s s'
| step_map_range ps vs len perms cp r s s' :
    is_u64 ps → is_u64 vs → is_u64 len →
    AddressSpace_map_range self ps vs len perms cp s = Done (r, s') → space_step self s s'
| step_unmap va r s s' :
    is_u64 va → AddressSpace_unmap self va s = Done (r, s') → space_step self s s'.

Lemma user_page_below va x :
  va < USER_SPACE_END → USER_SPACE_END ≤ x → x / PAGE_SIZE ≠ va / PAGE_SIZE.
Proof. unfold USER_SPACE_END, PAGE_SIZE. dmlia. Qed.

Lemma space_step_kernel_half self s s' l :
  kind self = User → pt_inv (root self) s l → space_step self s s' →
  ∃ l', pt_inv (root self) s' l' ∧
    ∀ x, is_u64 x → USER_SPACE_END ≤ x → same_page (root self) (ms_mem s) (ms_mem s') x.
Proof.
  intros Hkind Hinv Hstep.
  destruct Hstep as [pa va perms cp r s s' Hpa Hva E|ps vs len perms cp r s s' Hps Hvs Hlen E
                    |va r s s' Hva E].
  - destruct (AddressSpace_map_spec self s l pa va perms cp Hinv Hva Hpa) as (r' & s1 & E' & H).
    rewrite E in E'. injection E' as <- <-. destruct r as [[]|e].
    + destruct H as [Hu [l' H]]. destruct (Hu Hkind) as [Hlow _]. exists l'. split; [apply H|].
      intros x Hx Hhi. apply H; [done|]. by apply user_page_below.
    + exists l. split; [apply H|]. intros. apply H.
  - destruct (map_range_atomic_spec self s l ps vs len perms cp Hinv Hps Hvs Hlen) as (r' & s1 & E' & H).
    rewrite E in E'. injection E' as <- <-. destruct r as [[]|e]; simpl in H.
    + destruct H as (l' & H & _ & Hlow). exists l'. split; [apply H|]. intros x Hx Hhi.
      apply H; [done|]. intros i Hi. rewrite <- page_of. by apply user_page_below; [apply Hlow|].
    + destruct H as (l' & H). exists l'. split; [apply H|]. intros x Hx _. apply H; [done|lia].
  - unfold AddressSpace_unmap in E. rewrite Hkind in E. simpl in E.
    destruct (Z.leb_spec 0x0000800000000000 va) as [Hhi|Hlow].
    { injection E as <- <-. by exists l. }
    destruct (unmap_spec (root self) s l va Hinv Hva) as (r' & s1 & E' & H).
    rewrite (bind_Done _ _ _ _ _ E') in E. injection E as <- <-. destruct r' as [f|e].
    + destruct H as [l' H]. exists l'. split; [apply H|]. intros x Hx Hhi. apply H; [done|].
      by apply user_page_below.
    + destruct H as [-> _]. by exists l.
Qed.

(** C12: No sequence of operations on a user address space changes how any address of the kernel
    half translates, or the permissions there; and the page table stays well formed. *)
Theorem user_isolation (self : AddressSpace) (s s' : MState) (l : list FrameState) :
  kind self = User → pt_inv (root self) s l → rtc (space_step self) s s' →
  (∃ l', pt_inv (root self) s' l') ∧
  ∀ x, is_u64 x → USER_SPACE_END ≤ x → same_view (root self) (ms_mem s) (ms_mem s') x.
Proof.
  intros Hkind Hinv Hsteps. revert l Hinv. induction Hsteps as [s|s s1 s2 Hstep _ IH]; intros l Hinv.
  { split; [by exists l|]. done. }
  destruct (space_step_kernel_half self s s1 l Hkind Hinv Hstep) as (l1 & Hinv1 & Hsame).
  destruct (IH l1 Hinv1) as [Hfin Hsame2]. split; [done|]. intros x Hx Hhi.
  destruct (Hsame x Hx Hhi) as [[A1 A2] _], (Hsame2 x Hx Hhi) as [B1 B2].
  unfold same_view. by rewrite B1, B2, A1, A2.
Qed.

Lemma user_isolation_witness :
  ∃ s', rtc (space_step (demo_space User)) demo_pt_state s' ∧
    same_view demo_pt (ms_mem demo_pt_state) (ms_mem s') 0xFFFF800000000000.
Proof.
  assert (is_u64 0xFFFF800000000000) as Hx by (unfold is_u64, W64; lia).
  assert (USER_SPACE_END ≤ 0xFFFF800000000000) as Hhi by (unfold USER_SPACE_END; lia).
  destruct (AddressSpace_map_spec (demo_space User) demo_pt_state demo_pt_frames 0 0x1000
    (mkPagePermissions true true true) WriteBack) as (r & s' & E & _); [apply demo_pt_inv|done|done|].
  assert (rtc (space_step (demo_space User)) demo_pt_state s') as Hsteps.
  { assert (is_u64 0 ∧ is_u64 0x1000) as [H0 H1] by (unfold is_u64, W64; lia).
    exact (rtc_once _ _ (step_map _ _ _ _ _ _ _ _ H0 H1 E)). }
  exists s'. split; [exact Hsteps|].
  exact (proj2 (user_isolation (demo_space User) demo_pt_state s' demo_pt_frames eq_refl demo_pt_inv
    Hsteps) _ Hx Hhi).
Defined.

(** The table of address spaces behaves as a map from ids: an inserted space gets an unused
    id below 32, is found under it until it is removed, and no other id is affected;
    insertion fails only when all ids are in use. *)
Theorem address_space_table_correct (t : AddressSpaceTable) (a : AddressSpace) :
  match AddressSpaceTable_insert a t with
  | Done (Ok id, t') =>
      AddressSpaceTable_get t id = None ∧ AddressSpaceTable_get t' id = Some a ∧
      (∀ j, j ≠ id → AddressSpaceTable_get t' j = AddressSpaceTable_get t j) ∧
      ∃ t'', AddressSpaceTable_remove id t' = Done (Some a, t'') ∧
        ∀ j, AddressSpaceTable_get t'' j = AddressSpaceTable_get t j
  | Done (Err b, t') => b = a ∧ t' = t ∧
      ∀ id, 0 ≤ id < Z.of_nat (length (as_entries t)) → is_Some (AddressSpaceTable_get t id)
  | _ => False
  end.
Proof.
  unfold AddressSpaceTable_insert, AddressSpaceTable_get. mred.
  destruct (position_none (as_entries t)) as [id|] eqn:E.
  - apply position_none_Some in E as (Hid & Hn & _). unfold bind, put, ret. simpl.
    rewrite Hn, zget_zset_eq by done. split_and!; [done|done| |].
    + intros j Hj. by rewrite zget_zset_ne.
    + unfold AddressSpaceTable_remove, bind, get. simpl. rewrite zget_zset_eq by done. simpl.
      eexists. split; [done|]. simpl. intros j. destruct (decide (id = j)) as [->|Hne].
      * by rewrite zget_zset_eq, Hn by (rewrite ?length_zset; done).
      * by rewrite !zget_zset_ne.
  - unfold ret. split_and!; [done|done|]. intros id Hid.
    rewrite zget_lookup by lia. destruct (lookup_lt_is_Some_2 (as_entries t) (Z.to_nat id)) as [o Ho]; [lia|].
    rewrite Ho. simpl. by eapply position_none_None.
Qed.
