(* ===== verification/VirtMem.v ===== *)
(** * Accesses through the page tables

    The kernel reads and writes most memory through the direct map; kernel stacks and user
    memory are reached through their virtual addresses, which the CPU translates.  This file
    models such accesses, a fault being a panic, and shows that writing a page that holds no
    table leaves the page table and the allocator alone. *)

From S2P Require Import Prelude Memory Bytes Frame Paging PageTree PageMap PageUnmap AddressSpace.

(** ** Definitions *)

Section cpu.
(** The page table the CPU translates with. *)
Context (cpu : PageTable).

(** Where in the direct map the byte at a virtual address lives. *)
Definition vcell (m : memory) (va : VirtualAddr) : option VirtualAddr :=
  PageTable_to_physical cpu m va ≫= DirectMap_translate (pt_direct_map cpu).

Definition vload8 (va : VirtualAddr) : M MState Z :=
  let! s := get in
  let! a := expect (vcell (ms_mem s) va) "page fault" in
  ret (load8 (ms_mem s) a).

Definition vwritable (m : memory) (va : VirtualAddr) : bool :=
  match PageTable_mapping cpu m va with
  | Some p => writable (permissions p)
  | None => false
  end.

Definition vstore8 (va : VirtualAddr) (v : Z) : M MState unit :=
  let! s := get in
  do! massert (vwritable (ms_mem s) va) "page fault" ;;;
  let! a := expect (vcell (ms_mem s) va) "page fault" in
  put (set_mem (store8 (ms_mem s) a v) s).

Fixpoint vload_bytes (n : nat) (va : VirtualAddr) : M MState (list Z) :=
  match n with
  | O => ret []
  | S n =>
      let! b := vload8 va in
      let! rest := vload_bytes n (va + 1) in
      ret (b :: rest)
  end.

Fixpoint vstore_bytes (bytes : list Z) (va : VirtualAddr) : M MState unit :=
  match bytes with
  | [] => ret tt
  | b :: bytes => do! vstore8 va b ;;; vstore_bytes bytes (va + 1)
  end.

End cpu.

Definition vstore64 (cpu : PageTable) (va : VirtualAddr) (v : Z) : M MState unit :=
  vstore_bytes cpu (le_bytes 8 v) va.

Definition vload64 (cpu : PageTable) (va : VirtualAddr) : M MState Z :=
  let! bytes := vload_bytes cpu 8 va in ret (of_le_bytes bytes).

(** ** Lemmas *)

(** The bytes read from addresses that are all mapped. *)
Definition vbyte (cpu : PageTable) (m : memory) (va : VirtualAddr) : Z :=
  default 0 (load8 m <$> vcell cpu m va).

Definition vbytes (cpu : PageTable) (m : memory) (va : VirtualAddr) (n : Z) : list Z :=
  (λ i, vbyte cpu m (va + i)) <$> range 0 n.

Lemma vload_bytes_cells cpu s n va :
  (∀ i, 0 ≤ i < Z.of_nat n → is_Some (vcell cpu (ms_mem s) (va + i))) →
  vload_bytes cpu n va s = Done (vbytes cpu (ms_mem s) va (Z.of_nat n), s).
Proof.
  unfold vbytes. revert va. induction n as [|n IH]; intros va Hc; cbn [vload_bytes]; [done|].
  destruct (Hc 0) as [a Ha]; [lia|]. rewrite Z.add_0_r in Ha.
  assert (E : vload8 cpu va s = Done (vbyte cpu (ms_mem s) va, s)).
  { unfold vload8, vbyte. mred. by rewrite Ha. }
  rewrite (bind_Done _ _ _ _ _ E), (bind_Done _ _ _ _ _ (IH (va + 1) ltac:(intros i Hi;
    replace (va + 1 + i) with (va + (i + 1)) by lia; apply Hc; lia))).
  unfold ret. do 2 f_equal. rewrite (range_cons 0 (Z.of_nat (S n))) by lia. rewrite fmap_cons, Z.add_0_r. f_equal.
  unfold range. replace (Z.of_nat (S n) - (0 + 1)) with (Z.of_nat n) by lia. rewrite Z.sub_0_r.
  rewrite <- (fmap_add_seqZ 1 0), <- list_fmap_compose. apply list_fmap_ext. intros i x _. simpl. f_equal. lia.
Qed.

Section data.
Context (cpu : PageTable) (l : list FrameState).

(** The byte at [va] lies in such a frame [k], which is no table of this page table. *)
Definition data_at (s : MState) (va : VirtualAddr) (k : nat) : Prop :=
  PageTable_to_physical cpu (ms_mem s) va = Some (frame_at k + va mod PAGE_SIZE) ∧
  data_frame l s k ∧ ¬ own_table cpu (ms_mem s) (frame_at k).

Lemma data_frame_fits s k :
  fa_inv s l → data_frame l s k →
  off_bitmap (bitmap (ms_fa s)) (direct_map (ms_fa s)) (Z.of_nat k) ∧
  frame_virt (direct_map (ms_fa s)) (Z.of_nat k + 1) ≤ W64.
Proof.
  intros Hfa [Hk|(_ & Ho & Hw)]; [|done]. split; [by eapply (inv_storage _ _ Hfa)|].
  pose proof (inv_cover _ _ Hfa). pose proof (inv_index_bound _ _ Hfa _ _ Hk). unfold frame_virt, FRAME_SIZE in *. lia.
Qed.


Definition data_cell (va : VirtualAddr) (k : nat) : Z :=
  frame_at k + va mod PAGE_SIZE + offset (pt_direct_map cpu).

Lemma data_cell_in_frame s va k :
  pt_inv cpu s l → in_frame (direct_map (ms_fa s)) (Z.of_nat k) (data_cell va k).
Proof.
  intros Hinv. rewrite (pi_dm _ _ _ Hinv). unfold in_frame, data_cell, frame_virt, frame_at,
    FRAME_SIZE, PAGE_SIZE. pose proof (Z.mod_pos_bound va 4096). lia.
Qed.

Lemma data_vcell s va k :
  pt_inv cpu s l → data_at s va k → vcell cpu (ms_mem s) va = Some (data_cell va k).
Proof.
  intros Hinv (Hp & Hk & _). unfold vcell. rewrite Hp. simpl. unfold DirectMap_translate.
  apply checked_add_lt. destruct (data_frame_fits s k (pi_alloc _ _ _ Hinv) Hk) as [_ Hc].
  rewrite (pi_dm _ _ _ Hinv) in Hc. unfold frame_virt, frame_at, FRAME_SIZE, PAGE_SIZE in *.
  pose proof (Z.mod_pos_bound va 4096). lia.
Qed.

(** Changing a frame that holds no table changes no translation. *)
Lemma pt_inv_data s s' k :
  pt_inv cpu s l → fa_inv s' l → direct_map (ms_fa s') = direct_map (ms_fa s) →
  ¬ own_table cpu (ms_mem s) (frame_at k) →
  (∀ j st, l !! j = Some st → st ≠ Reserved → j ≠ k → kept_frame s s' j) →
  pt_inv cpu s' l ∧ (∀ x, same_page cpu (ms_mem s) (ms_mem s') x) ∧
  (∀ f, own_table cpu (ms_mem s') f ↔ own_table cpu (ms_mem s) f).
Proof.
  intros Hinv Hfa Hdm Hno Hkept. pose proof (pi_tree _ _ _ Hinv) as Htree.
  assert (Htree' : tree_inv (pt_config cpu) (length (levels cpu))
    (λ f, table_ok (pt_config cpu) l f ∧ f ≠ frame_at k) (pt_frame cpu) (heap_of cpu (ms_mem s))).
  { eapply tree_inv_weaken; [exact Htree|]. intros p f Hp Hl Hf. split.
    - by eapply (ti_table _ _ _ _ _ Htree).
    - intros ->. apply Hno. by exists p. }
  assert (Hag : ∀ g j, table_ok (pt_config cpu) l g ∧ g ≠ frame_at k → idx_ok j →
    heap_of cpu (ms_mem s') g j = heap_of cpu (ms_mem s) g j).
  { intros g j [Hg Hne] Hj. eapply kept_heap; [apply Hinv|done|done|].
    eapply Hkept; [apply Hg|done|]. intros <-. apply Hne. by eapply table_ok_index. }
  assert (Hw := λ q Hq Hl, tree_walk_agree _ _ _ _ _ Htree' (heap_of cpu (ms_mem s')) q Hq Hl Hag).
  assert (Hinv' : pt_inv cpu s' l).
  { split; [apply Hinv|done|rewrite Hdm; apply Hinv|].
    pose proof (tree_inv_agree _ _ _ _ _ Htree' _ Hag) as Ht.
    eapply tree_inv_weaken; [exact Ht|]. intros p f Hp Hl Hf.
    by destruct (ti_table _ _ _ _ _ Ht p f Hp Hl Hf). }
  split; [done|]. split.
  - intros x. apply (view_same cpu s l s' l); [done..|].
    apply Hw; [apply path_of_ok|]. unfold path. rewrite path_of_length. lia.
  - intros f. unfold own_table. split; intros (q & Hq & Hl & Hf); exists q; split_and!; try done;
      by rewrite <- Hf, (proj1 (Hw q Hq ltac:(lia))).
Qed.

Lemma fa_inv_store s k a v :
  fa_inv s l → data_frame l s k → in_frame (direct_map (ms_fa s)) (Z.of_nat k) a →
  fa_inv (set_mem (store8 (ms_mem s) a v) s) l.
Proof.
  intros Hfa Hk Ha. destruct (data_frame_fits s k Hfa Hk) as [Hoff _].
  destruct Hfa as [H1 H2 H3 H4 H5 H6 H7]. split; simpl; try done.
  eapply bitmap_rep_frame; [done|]. intros b Hb. apply load8_store8_ne. intros ->.
  unfold off_bitmap, in_frame in *. lia.
Qed.

Lemma vload8_spec s va k :
  pt_inv cpu s l → data_at s va k →
  vload8 cpu va s = Done (load8 (ms_mem s) (data_cell va k), s).
Proof.
  intros Hinv Hd. unfold vload8. mred. by rewrite (data_vcell s va k Hinv Hd).
Qed.

Lemma vstore8_spec s va k v :
  pt_inv cpu s l → data_at s va k → vwritable cpu (ms_mem s) va = true →
  let s' := set_mem (store8 (ms_mem s) (data_cell va k) v) s in
  vstore8 cpu va v s = Done (tt, s') ∧ pt_inv cpu s' l ∧
  (∀ x, same_page cpu (ms_mem s) (ms_mem s') x) ∧
  (∀ f, own_table cpu (ms_mem s') f ↔ own_table cpu (ms_mem s) f).
Proof.
  intros Hinv Hd Hw s'. pose proof (data_cell_in_frame s va k Hinv) as Hin. split.
  { unfold vstore8. mred. rewrite Hw. simpl. mred. by rewrite (data_vcell s va k Hinv Hd). }
  destruct Hd as (_ & Hk & Hno). apply (pt_inv_data s s' k Hinv); [|done|done|].
  - by apply (fa_inv_store s k); [apply Hinv| |].
  - intros j st Hj _ Hne x Hx. apply load8_store8_ne. intros <-.
    pose proof (in_frame_inj _ _ _ _ Hx Hin). lia.
Qed.

Lemma data_at_same s s' va k :
  ms_fa s' = ms_fa s →
  (∀ x, same_page cpu (ms_mem s) (ms_mem s') x) →
  (∀ f, own_table cpu (ms_mem s') f ↔ own_table cpu (ms_mem s) f) →
  data_at s va k → data_at s' va k.
Proof.
  intros Hfa Hs Ho (Hp & Hk & Hn). destruct (Hs va) as [[E _] _].
  split_and!; [by rewrite E|eapply data_frame_mono; [|done..]; by apply same_area_fa|by rewrite Ho].
Qed.

Lemma vwritable_same s s' va :
  (∀ x, same_page cpu (ms_mem s) (ms_mem s') x) →
  vwritable cpu (ms_mem s') va = vwritable cpu (ms_mem s) va.
Proof. intros Hs. destruct (Hs va) as [[_ E] _]. unfold vwritable. by rewrite E. Qed.

(** ** Ranges of bytes *)

Lemma vload_bytes_spec s fr n va :
  pt_inv cpu s l → (∀ i, 0 ≤ i < Z.of_nat n → data_at s (va + i) (fr (va + i))) →
  ∃ bytes, vload_bytes cpu n va s = Done (bytes, s) ∧ length bytes = n ∧
    ∀ i b, zget bytes i = Some b → b = load8 (ms_mem s) (data_cell (va + i) (fr (va + i))).
Proof.
  intros Hinv. revert va. induction n as [|n IH]; intros va Hd; simpl.
  { exists []. split_and!; [done|done|]. intros i b Hb. apply zget_Some_lt in Hb. simpl in Hb. lia. }
  assert (H0 : data_at s va (fr va)) by (specialize (Hd 0); rewrite Z.add_0_r in Hd; apply Hd; lia).
  destruct (IH (va + 1)) as (bytes & E & Hlen & Hb).
  { intros i Hi. replace (va + 1 + i) with (va + (i + 1)) by lia. apply Hd. lia. }
  eexists. split; [by rewrite (bind_Done _ _ _ _ _ (vload8_spec _ _ _ Hinv H0)), (bind_Done _ _ _ _ _ E)|].
  split; [simpl; by rewrite Hlen|]. intros i b Hi. pose proof (zget_Some_lt _ _ _ Hi).
  destruct (decide (i = 0)) as [->|].
  - injection Hi as <-. by rewrite Z.add_0_r.
  - rewrite zget_lookup in Hi by lia. destruct (Z.to_nat i) as [|j] eqn:Ej; [lia|].
    replace (va + i) with (va + 1 + Z.of_nat j) by lia. apply Hb. rewrite zget_lookup by lia.
    by rewrite Nat2Z.id.
Qed.

(** The effect of storing [bytes] from [va] on: every byte is in place, no cell outside the
    range's cells changes, and no translation does. *)
Record vstored (fr : Z → nat) (bytes : list Z) (va : Z) (s s' : MState) : Prop := {
  vs_inv : pt_inv cpu s' l;
  vs_fa : ms_fa s' = ms_fa s ∧ ms_cr3 s' = ms_cr3 s ∧ ms_flushed s' = ms_flushed s;
  vs_same : ∀ x, same_page cpu (ms_mem s) (ms_mem s') x;
  vs_tables : ∀ f, own_table cpu (ms_mem s') f ↔ own_table cpu (ms_mem s) f;
  vs_off : ∀ a, (∀ i, 0 ≤ i < Z.of_nat (length bytes) → a ≠ data_cell (va + i) (fr (va + i))) →
    load8 (ms_mem s') a = load8 (ms_mem s) a;
  vs_in : (∀ i j, 0 ≤ i < Z.of_nat (length bytes) → 0 ≤ j < Z.of_nat (length bytes) →
      data_cell (va + i) (fr (va + i)) = data_cell (va + j) (fr (va + j)) → i = j) →
    ∀ i b, zget bytes i = Some b →
      load8 (ms_mem s') (data_cell (va + i) (fr (va + i))) = b mod 256;
}.

Lemma vstore_bytes_spec fr bytes va s :
  pt_inv cpu s l →
  (∀ i, 0 ≤ i < Z.of_nat (length bytes) →
     data_at s (va + i) (fr (va + i)) ∧ vwritable cpu (ms_mem s) (va + i) = true) →
  ∃ s', vstore_bytes cpu bytes va s = Done (tt, s') ∧ vstored fr bytes va s s'.
Proof.
  revert va s. induction bytes as [|b bytes IH]; intros va s Hinv Hd; simpl.
  { exists s. split; [done|]. split; try done. intros _ i b Hb.
    apply zget_Some_lt in Hb. simpl in Hb. lia. }
  simpl in Hd. destruct (Hd 0 ltac:(lia)) as [H0 W0]. rewrite Z.add_0_r in H0, W0.
  destruct (vstore8_spec s va (fr va) b Hinv H0 W0) as (E0 & Hinv1 & Hs1 & Ho1).
  set (s1 := set_mem _ s) in *.
  destruct (IH (va + 1) s1 Hinv1) as (s' & E & [V1 V2 V3 V4 V5 V6]).
  { intros i Hi. replace (va + 1 + i) with (va + (i + 1)) by lia. destruct (Hd (i + 1)) as [D W]; [lia|].
    split; [by eapply (data_at_same s)|by rewrite (vwritable_same s)]. }
  assert (Hsh : ∀ i, data_cell (va + 1 + i) (fr (va + 1 + i)) = data_cell (va + (i + 1)) (fr (va + (i + 1))))
    by (intros i; by replace (va + 1 + i) with (va + (i + 1)) by lia).
  exists s'. split; [by rewrite (bind_Done _ _ _ _ _ E0)|]. split; simpl; try done.
  - intros x. eapply same_page_trans; [apply Hs1|apply V3].
  - intros f. by rewrite V4, Ho1.
  - intros a Ha. rewrite V5.
    + apply load8_store8_ne. specialize (Ha 0 ltac:(lia)). rewrite Z.add_0_r in Ha. congruence.
    + intros i Hi. rewrite Hsh. apply Ha. lia.
  - intros Hinj i c Hi. pose proof (zget_Some_lt _ _ _ Hi) as Hb. simpl in Hb.
    destruct (decide (i = 0)) as [->|].
    + injection Hi as <-. rewrite V5, Z.add_0_r.
      * apply load8_store8_eq.
      * intros j Hj Heq. rewrite Hsh in Heq. specialize (Hinj 0 (j + 1)). lia.
    + rewrite zget_lookup in Hi by lia. destruct (Z.to_nat i) as [|j] eqn:Ej; [lia|].
      replace i with (Z.of_nat j + 1) by lia. rewrite <- Hsh. apply V6.
      * intros i1 i2 H1 H2 Heq. rewrite !Hsh in Heq. apply Hinj in Heq; lia.
      * rewrite zget_lookup by lia. by rewrite Nat2Z.id.
Qed.

End data.
