(* ===== verification/Stack.v ===== *)
(** * Kernel and user stacks

    Model of [src/memory/stack.rs]: stacks mapped below a guard page with rollback,
    and the pool of kernel stack slots. *)

From S2P Require Import Prelude Memory Frame Paging PageTree PageMap PageUnmap AddressSpace.

Definition GUARD_PAGES : usize := 1.
Definition KERNEL_STACK_PAGES : usize := 8.
Definition USER_STACK_PAGES : usize := 16.
Definition KERNEL_STACK_SIZE : usize := KERNEL_STACK_PAGES * FRAME_SIZE.
Definition USER_STACK_SIZE : usize := USER_STACK_PAGES * FRAME_SIZE.
Definition KERNEL_SLOT_SIZE : usize := (KERNEL_STACK_PAGES + GUARD_PAGES) * FRAME_SIZE.
Definition MAX_KERNEL_STACKS : usize := 64.
Definition KERNEL_STACK_BASE : usize := 0xFFFFFFFE00000000.
Definition USER_STACK_TOP : VirtualAddr := 0x00007FFFFFFFF000.

Inductive StackCreateError :=
| StackAddressOverflow | UnalignedStackTop | StackOutOfFrames | OutOfStacks | GuardPageMapped
| StackMap (e : MapError).

Record StackMapping := mkStackMapping {
  guard_page : VirtualAddr;
  mapped_start : VirtualAddr;
  stack_size : usize;
  top : VirtualAddr;
}.

(** Unmap the page at [virtual_address] and free the frame behind it. *)
Definition stack_unmap_page (address_space : AddressSpace) (start : VirtualAddr) (why : string)
    (page : usize) : M MState unit :=
  let! offset := umul page FRAME_SIZE in
  let! virtual_address := uadd start offset in
  let! r := AddressSpace_unmap address_space virtual_address in
  match r with
  | Ok frame => FrameAllocator_dealloc frame
  | Err _ => panic why
  end.

Definition StackMapping_rollback (address_space : AddressSpace) (mapped_start : VirtualAddr)
    (mapped_pages : usize) : M MState unit :=
  mfor (rev (range 0 mapped_pages))
    (stack_unmap_page address_space mapped_start "failed to roll back stack mapping").

(** One round of the loop of [allocate]. *)
Definition stack_map_page (address_space : AddressSpace) (mapped_start : VirtualAddr)
    (permissions : PagePermissions) (mapped_pages : usize) : M MState (result unit StackCreateError) :=
  let! offset := umul mapped_pages FRAME_SIZE in
  let? virtual_address := ret (ok_or (checked_add mapped_start offset) StackAddressOverflow) in
  let! o := FrameAllocator_alloc in
  match o with
  | None =>
      do! StackMapping_rollback address_space mapped_start mapped_pages ;;;
      ret (Err StackOutOfFrames)
  | Some frame =>
      let! r := AddressSpace_map address_space frame virtual_address permissions WriteBack in
      match r with
      | Err error =>
          do! FrameAllocator_dealloc frame ;;;
          do! StackMapping_rollback address_space mapped_start mapped_pages ;;;
          ret (Err (StackMap error))
      | Ok _ => ret (Ok tt)
      end
  end.

Definition StackMapping_allocate (address_space : AddressSpace) (stack_size : usize)
    (top : VirtualAddr) (permissions : PagePermissions) :
    M MState (result StackMapping StackCreateError) :=
  if negb (top mod FRAME_SIZE =? 0) then ret (Err UnalignedStackTop)
  else
    let? mapped_start := ret (ok_or (checked_sub top stack_size) StackAddressOverflow) in
    let? guard_page := ret (ok_or (checked_sub mapped_start FRAME_SIZE) StackAddressOverflow) in
    let! s := get in
    if bool_decide (is_Some (AddressSpace_to_physical address_space (ms_mem s) guard_page))
    then ret (Err GuardPageMapped)
    else
      let? _ := mfor_ok (range 0 (stack_size / FRAME_SIZE))
                  (stack_map_page address_space mapped_start permissions) in
      let! s := get in
      do! massert (bool_decide (AddressSpace_to_physical address_space (ms_mem s) guard_page = None))
            "assertion failed: address_space.to_physical(guard_page).is_none()" ;;;
      ret (Ok (mkStackMapping guard_page mapped_start stack_size top)).

Definition StackMapping_destroy (self : StackMapping) (address_space : AddressSpace) :
    M MState unit :=
  do! mfor (rev (range 0 (stack_size self / FRAME_SIZE)))
        (stack_unmap_page address_space (mapped_start self)
           "stack mapping was unexpectedly missing") ;;;
  let! s := get in
  massert (bool_decide
      (AddressSpace_to_physical address_space (ms_mem s) (guard_page self) = None))
    "assertion failed: address_space.to_physical(self.guard_page).is_none()".

(** [KernelStack] and [UserStack] wrap a [StackMapping]. *)
Record KernelStack := mkKernelStack { ks_mapping : StackMapping }.
Record UserStack := mkUserStack { us_mapping : StackMapping }.

Definition KernelStack_allocate (address_space : AddressSpace) (top : usize) :
    M MState (result KernelStack StackCreateError) :=
  let? mapping := StackMapping_allocate address_space KERNEL_STACK_SIZE top
                    (mkPagePermissions true false false) in
  ret (Ok (mkKernelStack mapping)).

Definition KernelStack_top (self : KernelStack) : VirtualAddr := top (ks_mapping self).

Definition KernelStack_destroy (self : KernelStack) (address_space : AddressSpace) :
    M MState unit := StackMapping_destroy (ks_mapping self) address_space.

Definition UserStack_allocate (address_space : AddressSpace) :
    M MState (result UserStack StackCreateError) :=
  let? mapping := StackMapping_allocate address_space USER_STACK_SIZE USER_STACK_TOP
                    (mkPagePermissions true false true) in
  ret (Ok (mkUserStack mapping)).

Definition UserStack_top (self : UserStack) : VirtualAddr := top (us_mapping self).

Definition UserStack_destroy (self : UserStack) (address_space : AddressSpace) :
    M MState unit := StackMapping_destroy (us_mapping self) address_space.

(** ** The pool of kernel stacks *)

(** Bit [i] is set while slot [i] is in use (the source calls the field [free_slots]). *)
Record KernelStackPool := mkKernelStackPool { free_slots : Z }.

Definition KernelStackPool_new : KernelStackPool := mkKernelStackPool 0.

(** The pool and the machine state it allocates from. *)
Record PoolState := mkPoolState { ps_pool : KernelStackPool; ps_mem : MState }.

(** Run memory-management code inside a larger state. *)
Definition on_mem {A} (c : M MState A) : M PoolState A := λ p,
  match c (ps_mem p) with
  | Done (a, s) => Done (a, mkPoolState (ps_pool p) s)
  | Panic w => Panic w
  | Halt => Halt
  end.

Definition slot_used (self : KernelStackPool) (slot : Z) : bool :=
  negb (Z.land (free_slots self) (Z.shiftl 1 slot) =? 0).

Definition KernelStackPool_allocate (address_space : AddressSpace) :
    M PoolState (result KernelStack StackCreateError) :=
  let! p := get in
  match List.find (λ slot, negb (slot_used (ps_pool p) slot)) (range 0 MAX_KERNEL_STACKS) with
  | Some slot =>
      do! put (mkPoolState
                 (mkKernelStackPool (Z.lor (free_slots (ps_pool p)) (Z.shiftl 1 slot))) (ps_mem p)) ;;;
      let! next := uadd slot 1 in
      let! off := umul next KERNEL_SLOT_SIZE in
      let! top := uadd KERNEL_STACK_BASE off in
      on_mem (KernelStack_allocate address_space top)
  | None => ret (Err OutOfStacks)
  end.

(** [kernel_as] is the kernel address space the source reaches through a global. *)
Definition KernelStackPool_free (kernel_as : AddressSpace) (stack : KernelStack) :
    M PoolState unit :=
  let! off := usub (KernelStack_top stack) KERNEL_STACK_BASE in
  let! slot := usub (off / KERNEL_SLOT_SIZE) 1 in
  do! on_mem (KernelStack_destroy stack kernel_as) ;;;
  do! massert (slot <? 64) "attempt to shift left with overflow" ;;;
  modify (λ p, mkPoolState
    (mkKernelStackPool (Z.land (free_slots (ps_pool p)) (not64 (Z.shiftl 1 slot)))) (ps_mem p)).

(** * Lemmas *)

Lemma range_mapped_fr rt fr fr' vs perms s l n s' l' :
  (∀ i, 0 ≤ i < n → fr i = fr' i) →
  range_mapped rt fr vs perms s l n s' l' → range_mapped rt fr' vs perms s l n s' l'.
Proof.
  intros Hfr [R1 R2 R3 R4 R5]. split; try done. intros i Hi. rewrite <- Hfr by done. by apply R2.
Qed.

(** Allocating a frame, and freeing one that holds no table, leave a page table alone. *)
Lemma pt_inv_alloc rt s l k s1 :
  pt_inv rt s l → l !! k = Some Free → fa_inv s1 (<[k := Allocated]> l) → same_layout s s1 →
  (∀ j st, l !! j = Some st → st ≠ Reserved → j ≠ k → kept_frame s s1 j) →
  pt_inv rt s1 (<[k := Allocated]> l) ∧ (∀ x, same_page rt (ms_mem s) (ms_mem s1) x) ∧
  (∀ f, own_table rt (ms_mem s1) f → own_table rt (ms_mem s) f).
Proof.
  intros Hinv Hk Hfa Hl Hkept. pose proof (pi_tree _ _ _ Hinv) as Htree.
  assert (Hag : ∀ f j, table_ok (pt_config rt) l f → idx_ok j →
    heap_of rt (ms_mem s1) f j = heap_of rt (ms_mem s) f j).
  { intros f j Hf Hj. eapply kept_heap; [apply Hinv|done|done|].
    destruct Hf as [_ Hf]. eapply Hkept; [done|done|congruence]. }
  pose proof (tree_inv_agree _ _ _ _ _ Htree _ Hag) as Htree1.
  assert (Hinv1 : pt_inv rt s1 (<[k := Allocated]> l)).
  { split; [apply Hinv|done|destruct Hl as (_ & -> & _); apply Hinv|].
    eapply tree_inv_weaken; [exact Htree1|]. intros p f Hp Hlp Hf.
    destruct (ti_table _ _ _ _ _ Htree1 p f Hp Hlp Hf) as [Hf1 Hf2]. split; [done|].
    rewrite list_lookup_insert_ne; [done|congruence]. }
  assert (Hw := λ q Hq Hlq, tree_walk_agree _ _ _ _ _ Htree (heap_of rt (ms_mem s1)) q Hq Hlq Hag).
  split_and!; [done| |].
  - intros x. apply (view_same rt s l s1 _ x Hinv Hinv1). apply Hw; [apply path_of_ok|].
    unfold path. rewrite path_of_length. lia.
  - intros f (q & Hq & Hlq & Hf). exists q. rewrite <- (proj1 (Hw q Hq ltac:(lia))). done.
Qed.

Lemma pt_inv_dealloc rt s l k s1 :
  pt_inv rt s l → l !! k = Some Allocated → ¬ own_table rt (ms_mem s) (frame_at k) →
  fa_inv s1 (<[k := Free]> l) → same_layout s s1 →
  (∀ j st, l !! j = Some st → st ≠ Reserved → kept_frame s s1 j) →
  pt_inv rt s1 (<[k := Free]> l) ∧ (∀ x, same_page rt (ms_mem s) (ms_mem s1) x) ∧
  (∀ f, own_table rt (ms_mem s1) f → own_table rt (ms_mem s) f).
Proof.
  intros Hinv Hk Hno Hfa Hl Hkept. pose proof (pi_tree _ _ _ Hinv) as Htree.
  assert (Hag : ∀ f j, table_ok (pt_config rt) l f → idx_ok j →
    heap_of rt (ms_mem s1) f j = heap_of rt (ms_mem s) f j).
  { intros f j Hf Hj. eapply kept_heap; [apply Hinv|done|done|].
    destruct Hf as [_ Hf]. by eapply Hkept. }
  assert (Hw := λ q Hq Hlq, tree_walk_agree _ _ _ _ _ Htree (heap_of rt (ms_mem s1)) q Hq Hlq Hag).
  pose proof (tree_inv_agree _ _ _ _ _ Htree _ Hag) as Htree1.
  assert (Hinv1 : pt_inv rt s1 (<[k := Free]> l)).
  { split; [apply Hinv|done|destruct Hl as (_ & -> & _); apply Hinv|].
    eapply tree_inv_weaken; [exact Htree1|]. intros p f Hp Hlp Hf.
    pose proof (ti_table _ _ _ _ _ Htree1 p f Hp Hlp Hf) as Hok. destruct Hok as [Hf1 Hf2].
    split; [done|]. rewrite list_lookup_insert_ne; [done|]. intros ->. apply Hno.
    exists p. rewrite <- (proj1 (Hw p Hp ltac:(lia))), Hf. split_and!; [done|done|]. f_equal.
    by apply (table_ok_index (pt_config rt) l). }
  split_and!; [done| |].
  - intros x. apply (view_same rt s l s1 _ x Hinv Hinv1). apply Hw; [apply path_of_ok|].
    unfold path. rewrite path_of_length. lia.
  - intros f (q & Hq & Hlq & Hf). exists q. rewrite <- (proj1 (Hw q Hq ltac:(lia))). done.
Qed.

(** What taking one page of a stack back does: the page is unmapped, then its frame [k],
    which holds no table, is freed. *)
Record page_freed (self : AddressSpace) (v : VirtualAddr) (k : nat) (s : MState)
    (l : list FrameState) (s1 : MState) (l1 : list FrameState) (s2 : MState) : Prop := {
  pf_unmap : unmap_post (root self) v (frame_at k) s s1 l l1;
  pf_inv : pt_inv (root self) s2 (<[k := Free]> l1);
  pf_same : ∀ x, same_page (root self) (ms_mem s1) (ms_mem s2) x;
  pf_tables : ∀ f, own_table (root self) (ms_mem s2) f → own_table (root self) (ms_mem s1) f;
  pf_kept : ∀ j st, l1 !! j = Some st → st ≠ Reserved → kept_frame s1 s2 j;
  pf_stay : ∀ j, l !! j = Some Allocated → ¬ own_table (root self) (ms_mem s) (frame_at j) →
    l1 !! j = Some Allocated ∧ ¬ own_table (root self) (ms_mem s1) (frame_at j);
}.

Lemma stack_unmap_page_spec self vs perms s l n k why :
  pt_inv (root self) s l → 0 ≤ vs → vs mod FRAME_SIZE = 0 → 0 ≤ n → vs + (n + 1) * FRAME_SIZE ≤ W64 →
  maps_page (root self) (ms_mem s) (vs + n * FRAME_SIZE) (frame_at k) perms →
  walks_to_leaf (root self) (ms_mem s) (vs + n * FRAME_SIZE) →
  l !! k = Some Allocated → ¬ own_table (root self) (ms_mem s) (frame_at k) →
  (kind self = User → vs + n * FRAME_SIZE < USER_SPACE_END) →
  ∃ s1 l1 s2, stack_unmap_page self vs why n s = Done (tt, s2) ∧
    page_freed self (vs + n * FRAME_SIZE) k s l s1 l1 s2.
Proof.
  intros Hinv Hvs Hval Hn Hb P1 P2 Ka Kn Huser.
  assert (Hu : is_u64 (vs + n * FRAME_SIZE)) by (unfold FRAME_SIZE in *; ulia).
  pose proof (maps_page_canonical _ _ _ _ _ Hu P1) as Hc.
  assert (Hal : (vs + n * FRAME_SIZE) mod PAGE_SIZE = 0)
    by (unfold FRAME_SIZE, PAGE_SIZE in *; by rewrite Z.mod_add).
  destruct (unmap_leaf_ok (root self) s l _ Hinv Hu Hc Hal P2) as (frame & s1 & l1 & E1 & Hpost).
  assert (frame = frame_at k) as ->.
  { pose proof (up_frame _ _ _ _ _ _ _ Hpost _ Hu eq_refl) as Hf.
    rewrite (proj1 (P1 _ Hu eq_refl)) in Hf. injection Hf as Hf. lia. }
  assert (Hstay : ∀ j, l !! j = Some Allocated → ¬ own_table (root self) (ms_mem s) (frame_at j) →
    l1 !! j = Some Allocated ∧ ¬ own_table (root self) (ms_mem s1) (frame_at j)).
  { intros j Hj Hnj. split.
    - destruct (up_freed _ _ _ _ _ _ _ Hpost j) as [->|(_ & _ & ? & _)]; done.
    - intros Ho. by apply Hnj, (up_tables _ _ _ _ _ _ _ Hpost). }
  destruct (Hstay k Ka Kn) as [Ka1 Kn1].
  destruct (dealloc_contract s1 l1 k (pi_alloc _ _ _ (up_inv _ _ _ _ _ _ _ Hpost)) Ka1)
    as (s2 & E2 & Hfa2 & Hl2 & Hk2).
  destruct (pt_inv_dealloc (root self) s1 l1 k s2 (up_inv _ _ _ _ _ _ _ Hpost) Ka1 Kn1 Hfa2 Hl2 Hk2)
    as (Hinv2 & Hsame2 & Htab2).
  exists s1, l1, s2. split; [|by split].
  unfold stack_unmap_page. unfold FRAME_SIZE in *. mstep umul_lt. mstep uadd_lt.
  unfold AddressSpace_unmap.
  assert (bool_decide (kind self = User) && (0x0000800000000000 <=? vs + n * 4096) = false) as ->.
  { case_bool_decide as Hkind; [|done]. simpl. apply Z.leb_gt. by apply Huser. }
  rewrite bind_assoc, (bind_Done _ _ _ _ _ E1). mred. simpl. exact E2.
Qed.

Section stack.
Context (self : AddressSpace) (vs : Z) (perms : PagePermissions) (s : MState) (l : list FrameState).
Abbreviation rt := (root self).
Context (Hinv : pt_inv rt s l) (Hvs : 0 ≤ vs) (Hval : vs mod FRAME_SIZE = 0).

Definition stack_frame (ks : list nat) (i : Z) : FrameAddr := frame_at (nth (Z.to_nat i) ks 0%nat).

(** The pages of the range map to the distinct frames [ks], newly allocated. *)
Record stack_held (ks : list nat) (s' : MState) (l' : list FrameState) : Prop := {
  sh_range : range_mapped rt (stack_frame ks) vs perms s l (Z.of_nat (length ks)) s' l';
  sh_nodup : NoDup ks;
  sh_frames : ∀ k, k ∈ ks → l !! k ≠ Some Allocated ∧ l' !! k = Some Allocated ∧
    ¬ own_table rt (ms_mem s') (frame_at k);
  sh_user : kind self = User → ∀ i, 0 ≤ i < Z.of_nat (length ks) → vs + i * FRAME_SIZE < USER_SPACE_END;
}.

Lemma stack_held_nil : stack_held [] s l.
Proof.
  split; [by apply range_mapped_0|constructor|by intros k ?%not_elem_of_nil|simpl; lia].
Qed.

(** Taking the last page back: its frame is freed and the rest stays. *)
Lemma stack_unmap_last ks k s' l' why :
  vs + Z.of_nat (length (ks ++ [k])) * FRAME_SIZE ≤ W64 → stack_held (ks ++ [k]) s' l' →
  ∃ s'' l'', stack_unmap_page self vs why (Z.of_nat (length ks)) s' = Done (tt, s'') ∧
    stack_held ks s'' l''.
Proof.
  intros Hb Hh. rewrite length_app in Hb. simpl in Hb.
  pose proof (sh_range _ _ _ Hh) as Hr. rewrite length_app in Hr. simpl in Hr.
  set (n := Z.of_nat (length ks)) in *.
  replace (Z.of_nat (length ks + 1)) with (n + 1) in Hr, Hb by lia.
  destruct (rm_pages _ _ _ _ _ _ _ _ _ Hr n ltac:(lia)) as (P1 & P2 & P3).
  assert (stack_frame (ks ++ [k]) n = frame_at k) as Hfr.
  { unfold stack_frame, n. by rewrite Nat2Z.id, app_nth2, Nat.sub_diag by lia. }
  rewrite Hfr in P1. destruct (sh_frames _ _ _ Hh k ltac:(set_solver)) as (Kf & Ka & Kn).
  destruct (stack_unmap_page_spec self vs perms s' l' n k why) as (s1 & l1 & s2 & E & F); try done;
    [apply Hr|lia| |destruct F as [Hpost Hinv2 Hsame2 Htab2 Hk2 Hstay]].
  { intros Hkind. apply (sh_user _ _ _ Hh Hkind). rewrite length_app. simpl. lia. }
  destruct (Hstay k Ka Kn) as [Ka1 Kn1].
  exists s2, (<[k := Free]> l1). split; [exact E|].
  pose proof (sh_nodup _ _ _ Hh) as Hnd. apply NoDup_app in Hnd as (Hnd & Hdis & _).
  split.
  - eapply (range_mapped_fr _ (stack_frame (ks ++ [k])));
      [|eapply (range_mapped_same _ _ _ _ _ _ Hinv Hvs n s1 l1)]; fold n.
    + intros i Hi. unfold stack_frame. rewrite app_nth1; [done|lia].
    + unfold FRAME_SIZE in *. lia.
    + eapply (range_mapped_shrink _ _ _ _ _ _ Hinv Hvs n); try done; unfold FRAME_SIZE in *; lia.
    + done.
    + intros; apply Hsame2.
    + intros j Hj Hj1 _. assert (j ≠ k) by congruence. split.
      * by rewrite list_lookup_insert_ne.
      * by eapply Hk2.
    + done.
  - done.
  - intros j Hj. destruct (sh_frames _ _ _ Hh j ltac:(set_solver)) as (Jf & Ja & Jn).
    destruct (Hstay j Ja Jn) as [Ja1 Jn1].
    assert (j ≠ k) by (intros ->; apply (Hdis k); [done|left]).
    split_and!; [done|by rewrite list_lookup_insert_ne|]. intros Ho. by apply Jn1, Htab2.
  - intros Hkind i Hi. apply (sh_user _ _ _ Hh Hkind). rewrite length_app. simpl. lia.
Qed.

Lemma stack_unmap_all ks s' l' why :
  vs + Z.of_nat (length ks) * FRAME_SIZE ≤ W64 → stack_held ks s' l' →
  ∃ s'' l'', mfor (rev (range 0 (Z.of_nat (length ks)))) (stack_unmap_page self vs why) s' =
      Done (tt, s'') ∧ stack_held [] s'' l''.
Proof.
  revert s' l'. induction ks as [|k ks IH] using rev_ind; intros s' l' Hb Hh.
  { by exists s', l'. }
  destruct (stack_unmap_last ks k s' l' why Hb Hh) as (s1 & l1 & E1 & Hh1).
  rewrite length_app in *. simpl in *.
  replace (Z.of_nat (length ks + 1)) with (Z.of_nat (length ks) + 1) by lia.
  rewrite range_snoc, rev_app_distr by lia. simpl. rewrite (bind_Done _ _ _ _ _ E1).
  apply (IH s1 l1); [unfold FRAME_SIZE in *; lia|done].
Qed.

(** A fresh frame in hand, before it is mapped. *)
Lemma stack_take_frame ks s' l' k s1 :
  stack_held ks s' l' → l' !! k = Some Free → fa_inv s1 (<[k := Allocated]> l') → same_layout s' s1 →
  vs + Z.of_nat (length ks) * FRAME_SIZE ≤ W64 →
  (∀ j st, l' !! j = Some st → st ≠ Reserved → j ≠ k → kept_frame s' s1 j) →
  stack_held ks s1 (<[k := Allocated]> l') ∧ ¬ own_table rt (ms_mem s1) (frame_at k) ∧ k ∉ ks.
Proof.
  intros Hh Hk Hfa Hl Hb Hkept. pose proof (sh_range _ _ _ Hh) as Hr.
  pose proof (rm_inv _ _ _ _ _ _ _ _ _ Hr) as Hinv'.
  destruct (pt_inv_alloc rt s' l' k s1 Hinv' Hk Hfa Hl Hkept) as (Hinv1 & Hsame & Htab).
  split_and!; [split|..].
  - eapply (range_mapped_same _ _ _ _ _ _ Hinv Hvs _ s' l'); try done.
    intros j _ Hj _. assert (j ≠ k) by congruence.
    split; [by rewrite list_lookup_insert_ne|by eapply Hkept].
  - apply Hh.
  - intros j Hj. destruct (sh_frames _ _ _ Hh j Hj) as (Jf & Ja & Jn).
    split_and!; [done| |intros Ho; by apply Jn, Htab].
    rewrite list_lookup_insert_ne; [done|congruence].
  - apply Hh.
  - intros Ho%Htab. destruct (own_table_ok rt s' l' Hinv' _ Ho) as [_ Hal].
    rewrite frame_at_index in Hal. congruence.
  - intros Hin. destruct (sh_frames _ _ _ Hh k Hin) as (_ & Ja & _). congruence.
Qed.

(** The frame in hand is mapped: one page more. *)
Lemma stack_frame_mapped ks k s1 l1 s2 l2 :
  vs + (Z.of_nat (length ks) + 1) * FRAME_SIZE ≤ W64 → stack_held ks s1 l1 →
  (∀ j, l !! j = Some Allocated → l1 !! j = Some Allocated) →
  l1 !! k = Some Allocated → l !! k ≠ Some Allocated → k ∉ ks →
  ¬ own_table rt (ms_mem s1) (frame_at k) →
  (kind self = User → vs + Z.of_nat (length ks) * FRAME_SIZE < USER_SPACE_END) →
  map_ok_post rt (vs + Z.of_nat (length ks) * FRAME_SIZE) (frame_at k) perms s1 s2 l1 l2 →
  stack_held (ks ++ [k]) s2 l2 ∧ (∀ j, l !! j = Some Allocated → l2 !! j = Some Allocated).
Proof.
  intros Hb Hh Hal Hk Hkl Hni Hno Hus Hpost. set (n := Z.of_nat (length ks)) in *.
  assert (Hal2 : ∀ j, l1 !! j = Some Allocated → l2 !! j = Some Allocated)
    by (intros; by apply (mo_kept _ _ _ _ _ _ _ _ Hpost)).
  assert (Hno2 : ∀ j, l1 !! j = Some Allocated → ¬ own_table rt (ms_mem s1) (frame_at j) →
    ¬ own_table rt (ms_mem s2) (frame_at j)).
  { intros j Hj Hn Ho. destruct (mo_tables _ _ _ _ _ _ _ _ Hpost _ Ho) as [?|(j' & E' & Hf)]; [done|].
    apply frame_at_inj in E' as ->. congruence. }
  split; [split|auto].
  - rewrite length_app, Nat2Z.inj_add. simpl. fold n.
    eapply (range_mapped_extend _ _ _ _ _ _ Hinv Hvs n s1 l1); [lia|done| |done|].
    + eapply range_mapped_fr; [|apply Hh]. intros i Hi. unfold stack_frame.
      rewrite app_nth1; [done|lia].
    + unfold stack_frame, n. rewrite Nat2Z.id, app_nth2, Nat.sub_diag by lia. exact Hpost.
  - apply NoDup_app. split_and!; [apply Hh| |apply NoDup_singleton].
    intros j Hj ->%list_elem_of_singleton. done.
  - intros j [Hj| ->%list_elem_of_singleton]%elem_of_app; [|by auto].
    destruct (sh_frames _ _ _ Hh j Hj) as (Jf & Ja & Jn). auto.
  - intros Hkind i Hi. rewrite length_app in Hi. simpl in Hi.
    destruct (decide (i = n)) as [->|]; [by apply Hus|]. apply (sh_user _ _ _ Hh Hkind). lia.
Qed.

(** The frame in hand could not be mapped and is given back. *)
Lemma stack_frame_back ks k s1 l1 s2 :
  vs + Z.of_nat (length ks) * FRAME_SIZE ≤ W64 → stack_held ks s1 l1 →
  l1 !! k = Some Allocated → l !! k ≠ Some Allocated → k ∉ ks →
  ¬ own_table rt (ms_mem s1) (frame_at k) → map_err_post rt s1 s2 l1 →
  ∃ s3, FrameAllocator_dealloc (frame_at k) s2 = Done (tt, s3) ∧ stack_held ks s3 (<[k := Free]> l1).
Proof.
  intros Hb Hh Hk Hkl Hni Hno Hpost. pose proof (me_inv _ _ _ _ Hpost) as Hinv2.
  pose proof (rm_inv _ _ _ _ _ _ _ _ _ (sh_range _ _ _ Hh)) as Hinv1.
  assert (Hno2 : ∀ f, own_table rt (ms_mem s2) f → own_table rt (ms_mem s1) f) by apply Hpost.
  destruct (dealloc_contract s2 l1 k (pi_alloc _ _ _ Hinv2) Hk) as (s3 & E3 & Hfa3 & Hl3 & Hk3).
  destruct (pt_inv_dealloc rt s2 l1 k s3 Hinv2 Hk ltac:(auto) Hfa3 Hl3 Hk3)
    as (Hinv3 & Hsame3 & Htab3).
  exists s3. split; [done|]. split; [|apply Hh| |apply Hh].
  - eapply (range_mapped_same _ _ _ _ _ _ Hinv Hvs _ s1 l1); [done|apply Hh|done| | |].
    + intros x _. eapply same_page_trans; [apply Hpost|apply Hsame3].
    + intros j Hj Hj1 Hjo. assert (j ≠ k) as Hjk by congruence.
      split; [by rewrite list_lookup_insert_ne|].
      eapply (kept_trans s1 s2 s3); [by rewrite (pi_dm _ _ _ Hinv1), (pi_dm _ _ _ Hinv2)| |].
      * by apply (me_kept _ _ _ _ Hpost).
      * by eapply Hk3.
    + intros f Hf. by apply Hno2, Htab3.
  - intros j Hj. destruct (sh_frames _ _ _ Hh j Hj) as (Jf & Ja & Jn).
    split_and!; [done| |intros Ho; by apply Jn, Hno2, Htab3].
    rewrite list_lookup_insert_ne; [done|]. by intros ->.
Qed.

Lemma stack_map_page_spec ks s' l' :
  vs + (Z.of_nat (length ks) + 1) * FRAME_SIZE ≤ W64 → stack_held ks s' l' →
  (∀ k, l !! k = Some Allocated → l' !! k = Some Allocated) →
  ∃ r s'' l'', stack_map_page self vs perms (Z.of_nat (length ks)) s' = Done (r, s'') ∧
    match r with
    | Ok _ => ∃ k, stack_held (ks ++ [k]) s'' l'' ∧
        (∀ k, l !! k = Some Allocated → l'' !! k = Some Allocated)
    | Err _ => stack_held [] s'' l''
    end.
Proof.
  intros Hb Hh Hal. set (n := Z.of_nat (length ks)) in *.
  assert (Hu : is_u64 (vs + n * FRAME_SIZE)) by (unfold FRAME_SIZE in *; ulia).
  pose proof (rm_inv _ _ _ _ _ _ _ _ _ (sh_range _ _ _ Hh)) as Hinv'.
  assert (Hroll : ∀ s1 l1, stack_held ks s1 l1 → ∃ s2 l2,
    StackMapping_rollback self vs n s1 = Done (tt, s2) ∧ stack_held [] s2 l2).
  { intros s1 l1 Hh1. apply (stack_unmap_all ks s1 l1); [unfold FRAME_SIZE in *; lia|done]. }
  unfold stack_map_page.
  rewrite (bind_Done _ _ _ _ _ (umul_lt n FRAME_SIZE s' ltac:(unfold FRAME_SIZE in *; ulia))).
  rewrite checked_add_lt by (unfold FRAME_SIZE in *; ulia). cbn [ok_or]. mred.
  destruct (alloc_contract s' l' (pi_alloc _ _ _ Hinv'))
    as [[E Hno]|(k & s1 & E & Hk & Hfa & Hl & _ & Hkept)]; rewrite (bind_Done _ _ _ _ _ E).
  { destruct (Hroll s' l' Hh) as (s2 & l2 & E2 & Hh2).
    rewrite (bind_Done _ _ _ _ _ E2). by exists (Err StackOutOfFrames), s2, l2. }
  destruct (stack_take_frame ks s' l' k s1 Hh Hk Hfa Hl ltac:(unfold FRAME_SIZE in *; lia) Hkept)
    as (Hh1 & Hno1 & Hni).
  assert (Hk1 : <[k := Allocated]> l' !! k = Some Allocated)
    by (apply list_lookup_insert_eq; by eapply lookup_lt_Some).
  assert (Hal1 : ∀ j, l !! j = Some Allocated → <[k := Allocated]> l' !! j = Some Allocated).
  { intros j Hj%Hal. rewrite list_lookup_insert_ne; [done|congruence]. }
  assert (Hkl : l !! k ≠ Some Allocated) by (intros Hc%Hal; congruence).
  assert (Hfu : is_u64 (Z.of_nat k * FRAME_SIZE)).
  { pose proof (inv_index_bound _ _ (pi_alloc _ _ _ Hinv') _ _ Hk).
    pose proof (inv_frame_count_bound _ _ (pi_alloc _ _ _ Hinv')). unfold FRAME_SIZE in *. ulia. }
  destruct (AddressSpace_map_spec self s1 _ (Z.of_nat k * FRAME_SIZE) (vs + n * FRAME_SIZE) perms
    WriteBack (rm_inv _ _ _ _ _ _ _ _ _ (sh_range _ _ _ Hh1)) Hu Hfu) as (r & s2 & E2 & Hpost).
  rewrite (bind_Done _ _ _ _ _ E2). destruct r as [[]|e].
  - destruct Hpost as [Hus [l2 Hpost]]. exists (Ok tt), s2, l2. split; [done|]. exists k.
    apply (stack_frame_mapped ks k s1 (<[k := Allocated]> l') s2 l2); try done. intros Hkind. by apply Hus.
  - destruct (stack_frame_back ks k s1 _ s2 ltac:(unfold FRAME_SIZE in *; lia) Hh1 Hk1 Hkl Hni Hno1 Hpost)
      as (s3 & E3 & Hh3). rewrite (bind_Done _ _ _ _ _ E3).
    destruct (Hroll s3 _ Hh3) as (s4 & l4 & E4 & Hh4).
    rewrite (bind_Done _ _ _ _ _ E4). by exists (Err (StackMap e)), s4, l4.
Qed.

Lemma stack_map_pages_spec n d ks s' l' :
  vs + n * FRAME_SIZE ≤ W64 → n = Z.of_nat (length ks) + Z.of_nat d → stack_held ks s' l' →
  (∀ k, l !! k = Some Allocated → l' !! k = Some Allocated) →
  ∃ r s'' l'', mfor_ok (range (Z.of_nat (length ks)) n) (stack_map_page self vs perms) s' =
      Done (r, s'') ∧
    match r with
    | Ok _ => ∃ ks', Z.of_nat (length ks') = n ∧ stack_held ks' s'' l''
    | Err _ => stack_held [] s'' l''
    end.
Proof.
  intros Hb. revert ks s' l'. induction d as [|d IH]; intros ks s' l' Hn Hh Hal.
  { rewrite range_empty by lia. exists (Ok tt), s', l'. split; [done|]. exists ks. split; [lia|done]. }
  rewrite range_cons by lia. simpl.
  destruct (stack_map_page_spec ks s' l') as (r & s1 & l1 & E & Hr);
    [unfold FRAME_SIZE in *; lia|done|done|].
  destruct r as [[]|e].
  - rewrite (bind_ok_Ok _ _ _ _ _ E). destruct Hr as (k & Hh1 & Hal1).
    replace (Z.of_nat (length ks) + 1) with (Z.of_nat (length (ks ++ [k])))
      by (rewrite length_app; simpl; lia).
    apply (IH _ s1 l1); [rewrite length_app; simpl; lia|done|done].
  - rewrite (bind_ok_Err _ _ _ _ _ E). by exists (Err e), s1, l1.
Qed.
End stack.

Lemma checked_sub_Some a b c : checked_sub a b = Some c → b ≤ a ∧ c = a - b.
Proof. unfold checked_sub. destruct (Z.leb_spec b a); naive_solver. Qed.

(** What [allocate] leaves: the stack with its guard page, or nothing. *)
Definition stack_result (self : AddressSpace) (size top : usize) (perms : PagePermissions)
    (s : MState) (l : list FrameState) (r : result StackMapping StackCreateError) (s' : MState)
    (l' : list FrameState) : Prop :=
  match r with
  | Ok m => m = mkStackMapping (top - size - FRAME_SIZE) (top - size) size top ∧
      AddressSpace_to_physical self (ms_mem s') (guard_page m) = None ∧
      ∃ ks, Z.of_nat (length ks) = size / FRAME_SIZE ∧
        stack_held self (mapped_start m) perms s l ks s' l'
  | Err _ => stack_held self (top - size) perms s l [] s' l'
  end.

Lemma stack_allocate_spec self size top perms s l :
  pt_inv (root self) s l → is_u64 top → is_u64 size → size mod FRAME_SIZE = 0 →
  ∃ r s' l', StackMapping_allocate self size top perms s = Done (r, s') ∧
    stack_result self size top perms s l r s' l'.
Proof.
  intros Hinv Htop Hsize Hsal. unfold StackMapping_allocate.
  assert (Hfail : ∀ e : StackCreateError, ∃ r s' l', Done (Err e, s) = Done (r, s') ∧
    stack_result self size top perms s l r s' l').
  { intros e. exists (Err e), s, l. split; [done|]. by apply stack_held_nil. }
  destruct (Z.eqb_spec (top mod FRAME_SIZE) 0) as [Htal|]; simpl; [|apply Hfail].
  destruct (checked_sub top size) as [vs|] eqn:E1; cbn [ok_or]; mred; [|apply Hfail].
  apply checked_sub_Some in E1 as [Hle ->].
  destruct (checked_sub (top - size) FRAME_SIZE) as [gd|] eqn:E2; cbn [ok_or]; mred; [|apply Hfail].
  apply checked_sub_Some in E2 as [Hle2 ->].
  case_bool_decide as Hguard; [apply Hfail|].
  assert (Hvs : 0 ≤ top - size) by lia.
  assert (Hval : (top - size) mod FRAME_SIZE = 0) by (unfold FRAME_SIZE in *; dmlia).
  assert (Hn : top - size + size / FRAME_SIZE * FRAME_SIZE ≤ W64)
    by (unfold FRAME_SIZE, is_u64, W64 in *; dmlia).
  destruct (stack_map_pages_spec self (top - size) perms s l Hinv Hvs Hval (size / FRAME_SIZE)
    (Z.to_nat (size / FRAME_SIZE)) [] s l Hn) as (r & s1 & l1 & E & Hr).
  { simpl. unfold FRAME_SIZE, is_u64 in *. rewrite Z2Nat.id; dmlia. }
  { by apply stack_held_nil. }
  { done. }
  destruct r as [[]|e].
  - rewrite (bind_ok_Ok _ _ _ _ _ E). mred. destruct Hr as (ks & Hlen & Hh).
    assert (Hg : AddressSpace_to_physical self (ms_mem s1) (top - size - FRAME_SIZE) = None).
    { unfold AddressSpace_to_physical in *.
      destruct (rm_others _ _ _ _ _ _ _ _ _ (sh_range _ _ _ _ _ _ _ _ Hh)
        (top - size - FRAME_SIZE)) as [[-> _] _].
      - unfold FRAME_SIZE in *. ulia.
      - intros i Hi. unfold PAGE_SIZE, FRAME_SIZE in *. dmlia.
      - destruct (PageTable_to_physical _ _ _); [destruct Hguard; eauto|done]. }
    unfold massert. rewrite (bool_decide_true _ Hg). mred.
    eexists _, s1, l1. split; [done|]. split_and!; [done|done|]. by exists ks.
  - rewrite (bind_ok_Err _ _ _ _ _ E). by exists (Err e), s1, l1.
Qed.

(** Destroying a stack gives back all its frames. *)
Lemma stack_destroy_spec self m perms s l ks s' l' :
  pt_inv (root self) s l → 0 ≤ mapped_start m → mapped_start m mod FRAME_SIZE = 0 →
  Z.of_nat (length ks) = stack_size m / FRAME_SIZE →
  mapped_start m + stack_size m / FRAME_SIZE * FRAME_SIZE ≤ W64 →
  is_u64 (guard_page m) → guard_page m + FRAME_SIZE = mapped_start m →
  AddressSpace_to_physical self (ms_mem s) (guard_page m) = None →
  stack_held self (mapped_start m) perms s l ks s' l' →
  ∃ s'' l'', StackMapping_destroy m self s' = Done (tt, s'') ∧
    stack_held self (mapped_start m) perms s l [] s'' l''.
Proof.
  intros Hinv H0 Hal Hlen Hb Hgu Hgs Hg Hh. unfold StackMapping_destroy. rewrite <- Hlen in *.
  destruct (stack_unmap_all self (mapped_start m) perms s l Hinv H0 Hal ks s' l'
    "stack mapping was unexpectedly missing" Hb Hh) as (s1 & l1 & E & Hh1).
  rewrite (bind_Done _ _ _ _ _ E). mred. exists s1, l1. split; [|done].
  unfold massert. rewrite bool_decide_true; [done|]. unfold AddressSpace_to_physical in *.
  destruct (rm_others _ _ _ _ _ _ _ _ _ (sh_range _ _ _ _ _ _ _ _ Hh1) (guard_page m) Hgu)
    as [[-> _] _]; [simpl; lia|done].
Qed.

(** ** Stacks among other stacks *)

(** The pages from [vs] on map to the frames [ks], in a state reached in any way. *)
Record pages_live (self : AddressSpace) (vs : Z) (perms : PagePermissions) (ks : list nat)
    (s : MState) (l : list FrameState) : Prop := {
  pl_pages : ∀ i, 0 ≤ i < Z.of_nat (length ks) →
    maps_page (root self) (ms_mem s) (vs + i * FRAME_SIZE) (stack_frame ks i) perms ∧
    walks_to_leaf (root self) (ms_mem s) (vs + i * FRAME_SIZE);
  pl_nodup : NoDup ks;
  pl_frames : ∀ k, k ∈ ks → l !! k = Some Allocated ∧ ¬ own_table (root self) (ms_mem s) (frame_at k);
}.

(** The page-aligned range [vs, vs + n pages) and the addresses outside it. *)
Definition off_pages (vs n x : Z) : Prop :=
  ∀ i, 0 ≤ i < n → x / PAGE_SIZE ≠ vs / PAGE_SIZE + i.

(** What unmapping the frames [ks] behind a range leaves of the rest. *)
Record pages_dropped (self : AddressSpace) (vs : Z) (ks : list nat) (s : MState)
    (l : list FrameState) (s' : MState) (l' : list FrameState) : Prop := {
  pd_inv : pt_inv (root self) s' l';
  pd_others : ∀ x, is_u64 x → off_pages vs (Z.of_nat (length ks)) x →
    same_page (root self) (ms_mem s) (ms_mem s') x;
  pd_frames : ∀ k, k ∉ ks → l !! k = Some Allocated →
    ¬ own_table (root self) (ms_mem s) (frame_at k) →
    l' !! k = Some Allocated ∧ ¬ own_table (root self) (ms_mem s') (frame_at k);
}.

Lemma stack_unmap_live_last self vs perms ks k s l why :
  pt_inv (root self) s l → 0 ≤ vs → vs mod FRAME_SIZE = 0 → kind self = Kernel →
  vs + (Z.of_nat (length ks) + 1) * FRAME_SIZE ≤ W64 → pages_live self vs perms (ks ++ [k]) s l →
  ∃ s' l', stack_unmap_page self vs why (Z.of_nat (length ks)) s = Done (tt, s') ∧
    pages_live self vs perms ks s' l' ∧
    pt_inv (root self) s' l' ∧
    (∀ x, is_u64 x → x / PAGE_SIZE ≠ vs / PAGE_SIZE + Z.of_nat (length ks) →
      same_page (root self) (ms_mem s) (ms_mem s') x) ∧
    (∀ j, j ≠ k → l !! j = Some Allocated → ¬ own_table (root self) (ms_mem s) (frame_at j) →
      l' !! j = Some Allocated ∧ ¬ own_table (root self) (ms_mem s') (frame_at j)).
Proof.
  intros Hinv Hvs Hal Hkind Hb [P N F]. set (n := Z.of_nat (length ks)) in *.
  rewrite length_app in P. simpl in P. apply NoDup_app in N as (N & Hdis & _).
  destruct (P n ltac:(lia)) as [P1 P2]. destruct (F k ltac:(set_solver)) as [Ka Kn].
  assert (stack_frame (ks ++ [k]) n = frame_at k) as Hfr
    by (unfold stack_frame, n; by rewrite Nat2Z.id, app_nth2, Nat.sub_diag by lia).
  rewrite Hfr in P1.
  destruct (stack_unmap_page_spec self vs perms s l n k why Hinv Hvs Hal ltac:(lia) Hb P1 P2 Ka Kn)
    as (s1 & l1 & s2 & E & [Hpost Hinv2 Hsame Htab Hk2 Hstay]); [congruence|].
  assert (Ho : ∀ x, is_u64 x → x / PAGE_SIZE ≠ vs / PAGE_SIZE + n →
    same_page (root self) (ms_mem s) (ms_mem s2) x).
  { intros x Hx Hne. eapply same_page_trans; [|apply Hsame].
    apply (up_others _ _ _ _ _ _ _ Hpost); [done|]. by rewrite page_of. }
  assert (Hs : ∀ j, j ≠ k → l !! j = Some Allocated → ¬ own_table (root self) (ms_mem s) (frame_at j) →
    <[k := Free]> l1 !! j = Some Allocated ∧ ¬ own_table (root self) (ms_mem s2) (frame_at j)).
  { intros j Hjk Hj Hnj. destruct (Hstay j Hj Hnj) as [Hj1 Hn1].
    split; [by rewrite list_lookup_insert_ne|]. intros Ho2. by apply Hn1, Htab. }
  exists s2, (<[k := Free]> l1). split_and!; try done. split; [|done|].
  - intros i Hi. fold n in Hi. destruct (P i ltac:(lia)) as [I1 I2].
    assert (is_u64 (vs + i * FRAME_SIZE)) as Hu by (unfold FRAME_SIZE in *; ulia).
    replace (stack_frame (ks ++ [k]) i) with (stack_frame ks i) in I1
      by (unfold stack_frame; rewrite app_nth1; [done|lia]).
    split.
    + eapply maps_page_same; [|done]. intros x Hx Ex. rewrite page_of in Ex. apply Ho; [done|lia].
    + eapply same_page_leaf; [apply Ho; [done|rewrite page_of; lia]|by eapply maps_page_canonical|done].
  - intros j Hj. destruct (F j ltac:(set_solver)) as [Ja Jn]. apply Hs; [|done|done].
    intros ->. apply (Hdis k); [done|left].
Qed.

Lemma stack_unmap_live self vs perms ks s l why :
  pt_inv (root self) s l → 0 ≤ vs → vs mod FRAME_SIZE = 0 → kind self = Kernel →
  vs + Z.of_nat (length ks) * FRAME_SIZE ≤ W64 → pages_live self vs perms ks s l →
  ∃ s' l', mfor (rev (range 0 (Z.of_nat (length ks)))) (stack_unmap_page self vs why) s =
      Done (tt, s') ∧ pages_dropped self vs ks s l s' l'.
Proof.
  intros Hinv Hvs Hal Hkind. revert s l Hinv.
  induction ks as [|k ks IH] using rev_ind; intros s l Hinv Hb Hp.
  { exists s, l. split; [done|]. split; [done| |done]. intros x _ _. by split. }
  rewrite length_app in *. simpl in *.
  replace (Z.of_nat (length ks + 1)) with (Z.of_nat (length ks) + 1) in * by lia.
  destruct (stack_unmap_live_last self vs perms ks k s l why Hinv Hvs Hal Hkind Hb Hp)
    as (s1 & l1 & E1 & Hp1 & Hinv1 & Ho1 & Hs1).
  destruct (IH s1 l1 Hinv1 ltac:(unfold FRAME_SIZE in *; lia) Hp1) as (s2 & l2 & E2 & [I2 O2 F2]).
  exists s2, l2. split.
  { rewrite range_snoc, rev_app_distr by lia. simpl. by rewrite (bind_Done _ _ _ _ _ E1). }
  split; [done| |].
  - intros x Hx Hoff. rewrite length_app in Hoff. simpl in Hoff. eapply same_page_trans.
    + apply Ho1; [done|]. apply Hoff. lia.
    + apply O2; [done|]. intros i Hi. apply Hoff. lia.
  - intros j Hj Ja Jn. rewrite not_elem_of_app, list_elem_of_singleton in Hj. destruct Hj as [Hj1 Hj2].
    destruct (Hs1 j Hj2 Ja Jn). by apply F2.
Qed.

(** ** The pool's slots *)

Lemma testbit_one_shiftl n i : 0 ≤ n → Z.testbit (Z.shiftl 1 n) i = bool_decide (i = n).
Proof.
  intros Hn. rewrite Z.shiftl_1_l. case_bool_decide as H.
  - subst. by apply Z.pow2_bits_true.
  - by apply Z.pow2_bits_false.
Qed.

Lemma slot_used_testbit p slot : 0 ≤ slot → slot_used p slot = Z.testbit (free_slots p) slot.
Proof.
  intros H0. unfold slot_used.
  assert (Hb : ∀ i, Z.testbit (Z.land (free_slots p) (Z.shiftl 1 slot)) i =
    Z.testbit (free_slots p) slot && bool_decide (i = slot)).
  { intros i. rewrite Z.land_spec, testbit_one_shiftl by done.
    case_bool_decide; [by subst|]. by rewrite !andb_false_r. }
  destruct (Z.testbit (free_slots p) slot) eqn:E.
  - destruct (Z.eqb_spec (Z.land (free_slots p) (Z.shiftl 1 slot)) 0) as [H|]; [|done].
    specialize (Hb slot). rewrite H, Z.testbit_0_l, bool_decide_true in Hb; done.
  - replace (Z.land (free_slots p) (Z.shiftl 1 slot)) with 0; [done|].
    symmetry. apply Z.bits_inj_0. intros i. by rewrite Hb.
Qed.

Definition slot_bottom (slot : Z) : Z := KERNEL_STACK_BASE + slot * KERNEL_SLOT_SIZE.
Definition slot_start (slot : Z) : Z := slot_bottom slot + FRAME_SIZE.
Definition slot_stack (slot : Z) : KernelStack :=
  mkKernelStack (mkStackMapping (slot_bottom slot) (slot_start slot) KERNEL_STACK_SIZE
                   (slot_bottom (slot + 1))).
Definition kernel_stack_perms : PagePermissions := mkPagePermissions true false false.

(** The stack in [slot] is intact: its eight pages are mapped and the page below is not. *)
Definition stack_live (self : AddressSpace) (s : MState) (l : list FrameState)
    (e : Z * list nat) : Prop :=
  0 ≤ e.1 < MAX_KERNEL_STACKS ∧ Z.of_nat (length e.2) = KERNEL_STACK_PAGES ∧
  pages_live self (slot_start e.1) kernel_stack_perms e.2 s l ∧
  AddressSpace_to_physical self (ms_mem s) (slot_bottom e.1) = None.

(** [live] lists the stacks in use by slot, with their frames; [lost] the slots that are
    marked as used although no stack is in them. *)
Record pool_inv (self : AddressSpace) (p : PoolState) (l : list FrameState)
    (live : list (Z * list nat)) (lost : list Z) : Prop := {
  po_pt : pt_inv (root self) (ps_mem p) l;
  po_live : ∀ e, e ∈ live → stack_live self (ps_mem p) l e;
  po_used : ∀ i, 0 ≤ i < MAX_KERNEL_STACKS →
    slot_used (ps_pool p) i = true ↔ i ∈ live.*1 ++ lost;
  po_slots : NoDup (live.*1 ++ lost);
  po_lost : ∀ i, i ∈ lost → 0 ≤ i < MAX_KERNEL_STACKS;
  po_disjoint : NoDup (mjoin (live.*2));
}.

(** A change of state away from the stack in a slot leaves it intact. *)
Lemma stack_live_same self s l s' l' e vs n :
  stack_live self s l e →
  (∀ x, is_u64 x → off_pages vs n x → same_page (root self) (ms_mem s) (ms_mem s') x) →
  (∀ i, 0 ≤ i < KERNEL_STACK_PAGES + 1 → off_pages vs n (slot_bottom e.1 + i * FRAME_SIZE)) →
  (∀ k, k ∈ e.2 → l !! k = Some Allocated → ¬ own_table (root self) (ms_mem s) (frame_at k) →
     l' !! k = Some Allocated ∧ ¬ own_table (root self) (ms_mem s') (frame_at k)) →
  stack_live self s' l' e.
Proof.
  destruct e as [slot ks]. simpl. intros (Hs & Hlen & [P N F] & Hg) Hsame Hoff Hf. simpl in *.
  assert (Hu : ∀ i, 0 ≤ i < KERNEL_STACK_PAGES + 1 → is_u64 (slot_bottom slot + i * FRAME_SIZE)).
  { unfold slot_bottom, KERNEL_STACK_PAGES, MAX_KERNEL_STACKS, KERNEL_STACK_BASE, KERNEL_SLOT_SIZE,
      GUARD_PAGES, KERNEL_STACK_PAGES, FRAME_SIZE, is_u64, W64 in *. lia. }
  unfold stack_live; simpl. split_and!; try done; [lia|lia|split; [|done|]|].
  - intros i Hi. rewrite Hlen in Hi. destruct (P i ltac:(lia)) as [P1 P2].
    unfold slot_start in *.
    replace (slot_bottom slot + FRAME_SIZE + i * FRAME_SIZE)
      with (slot_bottom slot + (i + 1) * FRAME_SIZE) in * by lia.
    assert (Hpage : ∀ x, is_u64 x →
      x / PAGE_SIZE = (slot_bottom slot + (i + 1) * FRAME_SIZE) / PAGE_SIZE →
      same_page (root self) (ms_mem s) (ms_mem s') x).
    { intros x Hx Ex. apply Hsame; [done|]. intros j Hj. rewrite Ex. apply Hoff; lia. }
    split; [by eapply maps_page_same|].
    eapply same_page_leaf; [exact (Hpage _ (Hu (i + 1) ltac:(lia)) eq_refl)| |done].
    eapply maps_page_canonical; [|done]. apply Hu. lia.
  - intros k Hk. destruct (F k Hk). by apply Hf.
  - simpl. unfold AddressSpace_to_physical in *.
    replace (slot_bottom slot) with (slot_bottom slot + 0 * FRAME_SIZE) in Hg |- * by lia.
    destruct (Hsame (slot_bottom slot + 0 * FRAME_SIZE)) as [[-> _] _]; [apply Hu|apply Hoff|done];
      unfold KERNEL_STACK_PAGES; lia.
Qed.

(** Slots do not overlap. *)
Lemma slots_apart a b i :
  a ≠ b → 0 ≤ i < KERNEL_STACK_PAGES + 1 →
  off_pages (slot_start b) KERNEL_STACK_PAGES (slot_bottom a + i * FRAME_SIZE).
Proof.
  intros Hab Hi j Hj. unfold slot_start, slot_bottom, KERNEL_STACK_PAGES, KERNEL_SLOT_SIZE,
    KERNEL_STACK_BASE, FRAME_SIZE, PAGE_SIZE, GUARD_PAGES in *. unfold KERNEL_STACK_PAGES.
  dmlia.
Qed.

Lemma slot_layout slot : slot_bottom (slot + 1) - KERNEL_STACK_SIZE = slot_start slot.
Proof.
  unfold slot_start, slot_bottom, KERNEL_SLOT_SIZE, KERNEL_STACK_SIZE, GUARD_PAGES,
    KERNEL_STACK_PAGES, FRAME_SIZE. lia.
Qed.

Lemma kernel_stack_allocate_spec self slot s l :
  pt_inv (root self) s l → 0 ≤ slot < MAX_KERNEL_STACKS →
  ∃ r s' l', KernelStack_allocate self (slot_bottom (slot + 1)) s = Done (r, s') ∧
    match r with
    | Ok st => st = slot_stack slot ∧ ∃ ks, stack_live self s' l' (slot, ks) ∧
        (∀ k, k ∈ ks → l !! k ≠ Some Allocated)
    | Err _ => True
    end ∧
    pt_inv (root self) s' l' ∧
    (∀ x, is_u64 x → off_pages (slot_start slot) KERNEL_STACK_PAGES x →
      same_page (root self) (ms_mem s) (ms_mem s') x) ∧
    (∀ k, l !! k = Some Allocated → ¬ own_table (root self) (ms_mem s) (frame_at k) →
      l' !! k = Some Allocated ∧ ¬ own_table (root self) (ms_mem s') (frame_at k)).
Proof.
  intros Hinv Hs.
  destruct (stack_allocate_spec self KERNEL_STACK_SIZE (slot_bottom (slot + 1)) kernel_stack_perms s l)
    as (r & s' & l' & E & H); [done| |done|done|].
  { unfold slot_bottom, MAX_KERNEL_STACKS, KERNEL_STACK_BASE, KERNEL_SLOT_SIZE, KERNEL_STACK_PAGES,
      GUARD_PAGES, FRAME_SIZE, is_u64, W64 in *. lia. }
  assert (Hkeep : ∀ ks, stack_held self (slot_start slot) kernel_stack_perms s l ks s' l' →
    Z.of_nat (length ks) ≤ KERNEL_STACK_PAGES →
    pt_inv (root self) s' l' ∧
    (∀ x, is_u64 x → off_pages (slot_start slot) KERNEL_STACK_PAGES x →
      same_page (root self) (ms_mem s) (ms_mem s') x) ∧
    (∀ k, l !! k = Some Allocated → ¬ own_table (root self) (ms_mem s) (frame_at k) →
      l' !! k = Some Allocated ∧ ¬ own_table (root self) (ms_mem s') (frame_at k))).
  { intros ks Hh Hlen. destruct (sh_range _ _ _ _ _ _ _ _ Hh) as [R1 R2 R3 R4 R5]. split_and!; [done| |].
    - intros x Hx Hoff. apply R3; [done|]. intros i Hi. apply Hoff. lia.
    - intros k Hk Hn. split; [by apply R4|]. intros [Ho|(k' & E' & Hn')]%R5; [done|].
      by apply frame_at_inj in E' as ->. }
  unfold KernelStack_allocate. fold kernel_stack_perms. destruct r as [m|e].
  - rewrite (bind_ok_Ok _ _ _ _ _ E). eexists _, s', l'. split; [done|].
    destruct H as (-> & Hg & ks & Hlen & Hh). simpl in *. rewrite slot_layout in *.
    split; [|apply (Hkeep ks); [done|]; by rewrite Hlen].
    unfold slot_stack, slot_start. split; [do 2 f_equal; lia|]. exists ks.
    destruct (sh_range _ _ _ _ _ _ _ _ Hh) as [R1 R2 R3 R4 R5].
    split; [|intros k Hk; by apply (sh_frames _ _ _ _ _ _ _ _ Hh)].
    split_and!; simpl; [lia|lia|by rewrite Hlen|split| ].
    + intros i Hi. by destruct (R2 i Hi) as (? & ? & ?).
    + apply Hh.
    + intros k Hk. by destruct (sh_frames _ _ _ _ _ _ _ _ Hh k Hk) as (_ & ? & ?).
    + rewrite <- Hg. f_equal. unfold slot_start. lia.
  - rewrite (bind_ok_Err _ _ _ _ _ E). eexists _, s', l'. split; [done|]. split; [done|].
    simpl in H. rewrite slot_layout in H. by apply (Hkeep []).
Qed.

Lemma on_mem_Done {A} (c : M MState A) p a s :
  c (ps_mem p) = Done (a, s) → on_mem c p = Done (a, mkPoolState (ps_pool p) s).
Proof. intros E. unfold on_mem. by rewrite E. Qed.

(** The slot found is the first one not marked as used. *)
Definition free_slot (pool : KernelStackPool) : option Z :=
  List.find (λ slot, negb (slot_used pool slot)) (range 0 MAX_KERNEL_STACKS).

Lemma free_slot_Some pool slot :
  free_slot pool = Some slot → 0 ≤ slot < MAX_KERNEL_STACKS ∧ slot_used pool slot = false.
Proof.
  intros H. apply List.find_some in H as [Hin Hu]. apply list_elem_of_In, elem_of_range in Hin.
  by destruct (slot_used pool slot).
Qed.

Lemma free_slot_None pool :
  free_slot pool = None ↔ ∀ slot, 0 ≤ slot < MAX_KERNEL_STACKS → slot_used pool slot = true.
Proof.
  unfold free_slot. split.
  - intros H slot Hs. pose proof (List.find_none _ _ H slot) as Hn.
    apply negb_false_iff, Hn. by apply list_elem_of_In, elem_of_range.
  - intros H. destruct (List.find _ _) as [slot|] eqn:E; [|done].
    apply List.find_some in E as [Hin Hu]. apply list_elem_of_In, elem_of_range in Hin.
    by rewrite H in Hu.
Qed.

Definition mark_slot (pool : KernelStackPool) (slot : Z) : KernelStackPool :=
  mkKernelStackPool (Z.lor (free_slots pool) (Z.shiftl 1 slot)).

Lemma mark_slot_used pool slot i :
  0 ≤ slot → 0 ≤ i → slot_used (mark_slot pool slot) i = slot_used pool i || bool_decide (i = slot).
Proof.
  intros. rewrite !slot_used_testbit by done. simpl. by rewrite Z.lor_spec, testbit_one_shiftl.
Qed.

(** The errors a computation may return. *)
Definition errs_in {S A E} (P : E → Prop) (c : M S (result A E)) : Prop :=
  ∀ s e s', c s = Done (Err e, s') → P e.

Lemma errs_bind {S A B E} (P : E → Prop) (c : M S A) (k : A → M S (result B E)) :
  (∀ a, errs_in P (k a)) → errs_in P (bind c k).
Proof. intros H s e s'. unfold bind. destruct (c s) as [[a s1]| |]; try done. apply H. Qed.

Lemma errs_bind_ok {S A B E} (P : E → Prop) (c : M S (result A E)) (k : A → M S (result B E)) :
  errs_in P c → (∀ a, errs_in P (k a)) → errs_in P (bind_ok c k).
Proof.
  intros Hc Hk s e s'. unfold bind_ok, bind. specialize (Hc s).
  destruct (c s) as [[[a|e'] s1]| |]; try done; [apply Hk|]. intros [= -> ->]. by eapply Hc.
Qed.

Lemma errs_mfor_ok {S A E} (P : E → Prop) (l : list A) (f : A → M S (result unit E)) :
  (∀ x, errs_in P (f x)) → errs_in P (mfor_ok l f).
Proof.
  intros H. induction l as [|x l IH]; [by intros s e s' ?|]. by apply errs_bind_ok.
Qed.

Lemma kernel_stack_allocate_errs self top :
  errs_in (λ e, e ≠ OutOfStacks) (KernelStack_allocate self top).
Proof.
  assert (Hret : ∀ {A} (r : result A StackCreateError), r ≠ Err OutOfStacks →
    errs_in (S := MState) (λ e, e ≠ OutOfStacks) (ret r)) by (intros A r Hr s e s' [= -> _] ->; done).
  assert (Hpage : ∀ start page, errs_in (λ e, e ≠ OutOfStacks)
    (stack_map_page self start (mkPagePermissions true false false) page)).
  { intros start page. apply errs_bind. intros offset. apply errs_bind_ok.
    { apply Hret. by destruct (checked_add _ _). }
    intros v. apply errs_bind. intros [frame|]; apply errs_bind; [|intros; by apply Hret].
    intros [|e]; [by apply Hret|]. apply errs_bind. intros _. apply errs_bind. intros _. by apply Hret. }
  apply errs_bind_ok; [|intros; by apply Hret]. unfold StackMapping_allocate.
  destruct (negb _); [by apply Hret|].
  apply errs_bind_ok; [apply Hret; by destruct (checked_sub _ _)|]. intros start.
  apply errs_bind_ok; [apply Hret; by destruct (checked_sub _ _)|]. intros guard.
  apply errs_bind. intros st. destruct (bool_decide _); [by apply Hret|].
  apply errs_bind_ok; [by apply errs_mfor_ok|]. intros _. apply errs_bind. intros s'.
  apply errs_bind. intros _. by apply Hret.
Qed.

Lemma pool_allocate_spec self p l live lost :
  pool_inv self p l live lost →
  ∃ r p' l', KernelStackPool_allocate self p = Done (r, p') ∧
    match free_slot (ps_pool p) with
    | None => r = Err OutOfStacks ∧ p' = p ∧ l' = l
    | Some slot =>
        match r with
        | Ok st => st = slot_stack slot ∧ ∃ ks, pool_inv self p' l' ((slot, ks) :: live) lost
        | Err e => e ≠ OutOfStacks ∧ pool_inv self p' l' live (slot :: lost)
        end
    end.
Proof.
  intros [Hpt Hlive Hused Hnd Hlost Hdis]. unfold KernelStackPool_allocate. mred.
  fold (free_slot (ps_pool p)). destruct (free_slot (ps_pool p)) as [slot|] eqn:Ef; [|by eexists _, _, _].
  apply free_slot_Some in Ef as [Hs Hfree]. mred.
  assert (Hb : slot_bottom (slot + 1) = KERNEL_STACK_BASE + (slot + 1) * KERNEL_SLOT_SIZE) by done.
  unfold MAX_KERNEL_STACKS in Hs. mstep uadd_lt. unfold KERNEL_SLOT_SIZE, GUARD_PAGES,
    KERNEL_STACK_PAGES, FRAME_SIZE in Hb |- *. mstep umul_lt. unfold KERNEL_STACK_BASE in Hb |- *.
  mstep uadd_lt. rewrite <- Hb.
  destruct (kernel_stack_allocate_spec self slot (ps_mem p) l Hpt Hs)
    as (r & s' & l' & E & Hr & Hpt' & Hsame & Hkeep).
  eexists r, _, l'. split; [by apply on_mem_Done|].
  assert (Hnin : slot ∉ live.*1 ++ lost).
  { intros Hin. apply Hused in Hin; [congruence|done]. }
  assert (Hold : ∀ e, e ∈ live → stack_live self s' l' e).
  { intros e He. eapply stack_live_same; [by apply Hlive|exact Hsame| |intros; by apply Hkeep].
    intros i Hi. apply slots_apart; [|done]. intros <-. apply Hnin, elem_of_app. left.
    by apply list_elem_of_fmap_2. }
  assert (Hmark : ∀ i, 0 ≤ i < MAX_KERNEL_STACKS → slot_used (mark_slot (ps_pool p) slot) i = true ↔
    i = slot ∨ i ∈ live.*1 ++ lost).
  { intros i Hi. rewrite mark_slot_used, orb_true_iff, bool_decide_eq_true, Hused by (done || lia).
    tauto. }
  destruct r as [st|e].
  - destruct Hr as (-> & ks & Hks & Hnew). split; [done|]. exists ks. split; simpl; try done.
    + intros e [->|He]%elem_of_cons; [done|by apply Hold].
    + intros i Hi. rewrite elem_of_cons. by apply Hmark.
    + by apply NoDup_cons.
    + apply NoDup_app. split_and!; [apply Hks| |done]. intros k Hk (ks' & Hk' & Hin)%list_elem_of_join.
      apply list_elem_of_fmap in Hin as (e & -> & He). apply (Hnew k Hk).
      destruct (Hlive e He) as (_ & _ & Hp & _). by apply Hp.
  - split; [by eapply kernel_stack_allocate_errs|]. split; simpl; try done.
    + intros i Hi. rewrite Hmark by done. set_solver.
    + rewrite <- Permutation_middle. by apply NoDup_cons.
    + intros i [->|Hi]%elem_of_cons; [done|by apply Hlost].
Qed.

Lemma kernel_stack_destroy_spec self slot ks s l :
  pt_inv (root self) s l → kind self = Kernel → stack_live self s l (slot, ks) →
  ∃ s' l', KernelStack_destroy (slot_stack slot) self s = Done (tt, s') ∧
    pages_dropped self (slot_start slot) ks s l s' l'.
Proof.
  intros Hinv Hk (Hs & Hlen & Hp & Hg). simpl in *.
  destruct (stack_unmap_live self (slot_start slot) kernel_stack_perms ks s l
    "stack mapping was unexpectedly missing" Hinv) as (s' & l' & E & Hd); try done.
  { unfold slot_start, slot_bottom, KERNEL_STACK_BASE, KERNEL_SLOT_SIZE, KERNEL_STACK_PAGES, GUARD_PAGES,
      FRAME_SIZE. lia. }
  { unfold slot_start, slot_bottom, KERNEL_STACK_BASE, KERNEL_SLOT_SIZE, KERNEL_STACK_PAGES, GUARD_PAGES,
      FRAME_SIZE. dmlia. }
  { rewrite Hlen. unfold slot_start, slot_bottom, KERNEL_STACK_BASE, KERNEL_SLOT_SIZE,
      KERNEL_STACK_PAGES, GUARD_PAGES, MAX_KERNEL_STACKS, FRAME_SIZE, W64 in *. lia. }
  exists s', l'. split; [|done]. unfold KernelStack_destroy, StackMapping_destroy, slot_stack.
  cbn [ks_mapping stack_size mapped_start guard_page].
  change (KERNEL_STACK_SIZE / FRAME_SIZE) with KERNEL_STACK_PAGES. rewrite <- Hlen.
  rewrite (bind_Done _ _ _ _ _ E). mred. unfold massert. rewrite bool_decide_true; [done|].
  rewrite <- Hg. unfold AddressSpace_to_physical.
  destruct (pd_others _ _ _ _ _ _ _ Hd (slot_bottom slot)) as [[-> _] _]; [| |done].
  - unfold slot_bottom, KERNEL_STACK_BASE, KERNEL_SLOT_SIZE, KERNEL_STACK_PAGES, GUARD_PAGES,
      MAX_KERNEL_STACKS, FRAME_SIZE, is_u64, W64 in *. lia.
  - intros i Hi. rewrite Hlen in Hi. unfold slot_start, slot_bottom, KERNEL_STACK_BASE,
      KERNEL_SLOT_SIZE, KERNEL_STACK_PAGES, GUARD_PAGES, FRAME_SIZE, PAGE_SIZE in *. dmlia.
Qed.

Definition unmark_slot (pool : KernelStackPool) (slot : Z) : KernelStackPool :=
  mkKernelStackPool (Z.land (free_slots pool) (not64 (Z.shiftl 1 slot))).

Lemma unmark_slot_used pool slot i :
  0 ≤ slot → 0 ≤ i < 64 →
  slot_used (unmark_slot pool slot) i = slot_used pool i && negb (bool_decide (i = slot)).
Proof.
  intros. rewrite !slot_used_testbit by lia. simpl.
  rewrite Z.land_spec, testbit_not64, testbit_one_shiftl by done.
  replace ((0 <=? i) && (i <? 64)) with true by (symmetry; apply andb_true_iff; lia).
  by destruct (bool_decide (i = slot)).
Qed.

Lemma pool_free_spec self p l live lost slot ks :
  kind self = Kernel → pool_inv self p l ((slot, ks) :: live) lost →
  ∃ p' l', KernelStackPool_free self (slot_stack slot) p = Done (tt, p') ∧
    pool_inv self p' l' live lost.
Proof.
  intros Hkind [Hpt Hlive Hused Hnd Hlost Hdis].
  pose proof (Hlive (slot, ks) ltac:(left)) as Hl. pose proof (proj1 Hl) as Hs. simpl in Hs.
  destruct (kernel_stack_destroy_spec self slot ks (ps_mem p) l Hpt Hkind Hl)
    as (s' & l' & E & [Hpt' Ho Hf]).
  exists (mkPoolState (unmark_slot (ps_pool p) slot) s'), l'. split.
  { unfold KernelStackPool_free, KernelStack_top. simpl.
    assert (Hb : slot_bottom (slot + 1) = KERNEL_STACK_BASE + (slot + 1) * KERNEL_SLOT_SIZE) by done.
    assert (0 ≤ (slot + 1) * KERNEL_SLOT_SIZE) by (apply Z.mul_nonneg_nonneg; [lia|done]).
    rewrite Hb. rewrite (bind_Done (usub _ _) _ p ((slot + 1) * KERNEL_SLOT_SIZE) p)
      by (rewrite usub_le; [do 2 f_equal|]; lia).
    rewrite Z.div_mul by done.
    rewrite (bind_Done (usub _ _) _ p slot p) by (rewrite usub_le; [do 2 f_equal|]; lia).
    rewrite (bind_Done _ _ _ _ _ (on_mem_Done _ _ _ _ E)). unfold massert.
    rewrite (proj2 (Z.ltb_lt slot 64)) by (unfold MAX_KERNEL_STACKS in Hs; lia). by mred. }
  simpl in Hnd, Hdis. apply NoDup_cons in Hnd as [Hnin Hnd]. apply NoDup_app in Hdis as (_ & Hks & Hdis).
  split; simpl; try done.
  - intros e He. eapply stack_live_same; [by apply Hlive; right|exact Ho| |].
    + intros i Hi. rewrite (proj1 (proj2 Hl) : Z.of_nat (length ks) = _). apply slots_apart; [|done]. intros <-. apply Hnin.
      apply elem_of_app. left. by apply list_elem_of_fmap_2.
    + intros k Hk. apply Hf. intros Hk'. apply (Hks k Hk'). apply list_elem_of_join. exists e.2.
      split; [done|]. by apply list_elem_of_fmap_2.
  - intros i Hi. unfold MAX_KERNEL_STACKS in *.
    rewrite unmark_slot_used, andb_true_iff, Hused, negb_true_iff, bool_decide_eq_false by (done || lia).
    simpl. rewrite elem_of_cons. split; [tauto|]. intros Hin. split; [by right|]. by intros ->.
Qed.

Lemma pool_inv_perm self p l live live' lost :
  Permutation live live' → pool_inv self p l live lost → pool_inv self p l live' lost.
Proof.
  intros Hp [H1 H2 H3 H4 H5 H6]. split; try done.
  - intros e He. apply H2. by rewrite Hp.
  - intros i Hi. rewrite H3, !elem_of_app by done. by rewrite Hp.
  - by rewrite <- Hp.
  - by rewrite <- Hp.
Qed.

Lemma pool_inv_init self s l :
  pt_inv (root self) s l → pool_inv self (mkPoolState KernelStackPool_new s) l [] [].
Proof.
  intros H. split; simpl; try done; try apply NoDup_nil_2; try (by intros ? ?%not_elem_of_nil).
  intros i Hi. rewrite slot_used_testbit by lia. simpl. rewrite Z.testbit_0_l. set_solver.
Qed.

(** Clients of the pool: who holds which stack, and how many allocations have failed
    with a slot already marked. *)
Inductive pool_step (self : AddressSpace) :
  PoolState * list KernelStack * nat → PoolState * list KernelStack * nat → Prop :=
| pool_step_alloc p p' st held n :
    KernelStackPool_allocate self p = Done (Ok st, p') →
    pool_step self (p, held, n) (p', st :: held, n)
| pool_step_fail p p' e held n :
    KernelStackPool_allocate self p = Done (Err e, p') → free_slot (ps_pool p) ≠ None →
    pool_step self (p, held, n) (p', held, S n)
| pool_step_none p p' e held n :
    KernelStackPool_allocate self p = Done (Err e, p') → free_slot (ps_pool p) = None →
    pool_step self (p, held, n) (p', held, n)
| pool_step_free p p' st before after n :
    KernelStackPool_free self st p = Done (tt, p') →
    pool_step self (p, before ++ st :: after, n) (p', before ++ after, n).

Definition pool_reached (self : AddressSpace) (c : PoolState * list KernelStack * nat) : Prop :=
  ∃ l live lost, pool_inv self c.1.1 l live lost ∧ c.1.2 = (slot_stack ∘ fst) <$> live ∧
    length lost = c.2.

Lemma pool_step_reached self c c' :
  kind self = Kernel → pool_step self c c' → pool_reached self c → pool_reached self c'.
Proof.
  intros Hk Hstep (l & live & lost & Hinv & Hheld & Hn).
  destruct Hstep as [p p' st held n E|p p' e held n E Hf|p p' e held n E Hf|p p' st before after n E];
    simpl in *.
  1-3: destruct (pool_allocate_spec self p l live lost Hinv) as (r & p1 & l1 & E1 & H1);
    rewrite E in E1; injection E1 as <- <-; destruct (free_slot (ps_pool p)) as [slot|]; try done.
  - destruct H1 as (-> & ks & H1). exists l1, ((slot, ks) :: live), lost. split_and!; [done| |done].
    simpl. by f_equal.
  - by destruct H1.
  - destruct H1 as [_ H1]. exists l1, live, (slot :: lost). split_and!; [done|done|simpl; by f_equal].
  - destruct H1 as (_ & -> & ->). by exists l, live, lost.
  - symmetry in Hheld. apply fmap_app_inv in Hheld as (b & rest & -> & Hrest & ->).
    symmetry in Hrest. apply fmap_cons_inv in Hrest as ([slot ks] & a & -> & -> & ->).
    destruct (pool_free_spec self p l (b ++ a) lost slot ks Hk) as (p1 & l1 & E1 & H1).
    { eapply pool_inv_perm; [|done]. symmetry. apply Permutation_middle. }
    simpl in E. rewrite E in E1. injection E1 as <-. exists l1, (b ++ a), lost.
    split_and!; [done|by rewrite fmap_app|done].
Qed.

(** The number of slots marked as used. *)
Lemma pool_full self p l live lost :
  pool_inv self p l live lost →
  free_slot (ps_pool p) = None ↔ (length live + length lost = 64)%nat.
Proof.
  intros [_ Hl Hu Hnd Hlost _]. rewrite free_slot_None.
  assert (Hsub : ∀ i, i ∈ live.*1 ++ lost → i ∈ range 0 MAX_KERNEL_STACKS).
  { intros i [(e & -> & He)%list_elem_of_fmap|Hi]%elem_of_app; apply elem_of_range; [|by apply Hlost].
    apply (Hl e He). }
  assert (Hlen : length (live.*1 ++ lost) = (length live + length lost)%nat)
    by (rewrite length_app; by rewrite length_fmap).
  rewrite <- Hlen. split.
  - intros H. change 64%nat with (length (range 0 MAX_KERNEL_STACKS)).
    apply Permutation_length, NoDup_Permutation; [done|unfold range; apply NoDup_seqZ|].
    intros i. split; [apply Hsub|]. intros Hi%elem_of_range. by apply Hu, H.
  - intros H slot Hs. apply Hu; [done|].
    assert (Permutation (live.*1 ++ lost) (range 0 MAX_KERNEL_STACKS)) as ->; [|by apply elem_of_range].
    apply submseteq_length_Permutation; [apply NoDup_submseteq; [done|exact Hsub]|].
    by rewrite H.
Qed.

(** * Theorems *)

(** Allocating a stack never panics.  On success exactly the stack's pages become mapped,
    with the permissions asked for, to distinct newly allocated frames that hold no page
    table, and the guard page below is unmapped; on failure all pages and frames taken are
    given back, and every address translates as before.  Either way other address
    translations and the contents of other allocated frames are unchanged. *)
Theorem stack_allocate_correct (self : AddressSpace) (size top : usize) (perms : PagePermissions)
    (s : MState) (l : list FrameState) :
  pt_inv (root self) s l → is_u64 top → is_u64 size → size mod FRAME_SIZE = 0 →
  ∃ r s' l', StackMapping_allocate self size top perms s = Done (r, s') ∧
    stack_result self size top perms s l r s' l'.
Proof. apply stack_allocate_spec. Qed.

Lemma stack_allocate_correct_witness :
  ∃ s' l', StackMapping_allocate (demo_space Kernel) 0x4000 0x40000 (mkPagePermissions true true false)
             demo_pt_state = Done (Err (StackMap OutOfMemory), s') ∧
    stack_held (demo_space Kernel) 0x3C000 (mkPagePermissions true true false) demo_pt_state
      demo_pt_frames [] s' l'.
Proof.
  destruct (stack_allocate_correct (demo_space Kernel) 0x4000 0x40000 (mkPagePermissions true true false)
    demo_pt_state demo_pt_frames) as (r & s' & l' & E & H); [apply demo_pt_inv|done|done|done|].
  assert (r = Err (StackMap OutOfMemory)) as ->
    by (eapply returned_Done; [exact E|vm_compute; reflexivity]).
  exists s', l'. split; [exact E|exact H].
Defined.

(** A successful allocation found room for the stack above an unmapped guard page. *)
Lemma stack_allocate_inv self size top perms s m s1 :
  StackMapping_allocate self size top perms s = Done (Ok m, s1) →
  top mod FRAME_SIZE = 0 ∧ size + FRAME_SIZE ≤ top ∧
  AddressSpace_to_physical self (ms_mem s) (top - size - FRAME_SIZE) = None.
Proof.
  unfold StackMapping_allocate.
  destruct (Z.eqb_spec (top mod FRAME_SIZE) 0) as [Htal|]; simpl; [|done].
  destruct (checked_sub top size) eqn:E1; cbn [ok_or]; mred; [|done].
  apply checked_sub_Some in E1 as [Hle ->].
  destruct (checked_sub (top - size) FRAME_SIZE) eqn:E2; cbn [ok_or]; mred; [|done].
  apply checked_sub_Some in E2 as [Hle2 ->].
  case_bool_decide as Hguard; [done|]. intros _. split_and!; [done|lia|].
  destruct (AddressSpace_to_physical _ _ _); [destruct Hguard; eauto|done].
Qed.

Lemma stack_roundtrip_spec self size top perms s l m s1 :
  pt_inv (root self) s l → is_u64 top → is_u64 size → size mod FRAME_SIZE = 0 →
  StackMapping_allocate self size top perms s = Done (Ok m, s1) →
  ∃ s2 l2, StackMapping_destroy m self s1 = Done (tt, s2) ∧
    stack_held self (top - size) perms s l [] s2 l2.
Proof.
  intros Hinv Htop Hsize Hsal E.
  destruct (stack_allocate_spec self size top perms s l Hinv Htop Hsize Hsal) as (r & s1' & l1 & E' & H).
  destruct (stack_allocate_inv _ _ _ _ _ _ _ E) as (Htal & Hle & Hguard).
  rewrite E in E'. injection E' as <- <-. destruct H as (-> & Hg & ks & Hlen & Hh). simpl in *.
  apply (stack_destroy_spec self (mkStackMapping (top - size - FRAME_SIZE) (top - size) size top)
    perms s l ks s1 l1 Hinv); simpl; try done; unfold FRAME_SIZE, is_u64, W64 in *; try lia; dmlia.
Qed.

(** Destroying a freshly allocated stack never panics, restores every translation the address
    space had, and keeps the invariant; every frame that was in use before and is not a page
    table of this space is kept with its contents. *)
Theorem stack_roundtrip (self : AddressSpace) (size top : usize) (perms : PagePermissions)
    (s s1 : MState) (l : list FrameState) (m : StackMapping) :
  pt_inv (root self) s l → is_u64 top → is_u64 size → size mod FRAME_SIZE = 0 →
  StackMapping_allocate self size top perms s = Done (Ok m, s1) →
  ∃ s2 l2, StackMapping_destroy m self s1 = Done (tt, s2) ∧ pt_inv (root self) s2 l2 ∧
    (∀ x, is_u64 x → same_page (root self) (ms_mem s) (ms_mem s2) x) ∧
    (∀ k, l !! k = Some Allocated → ¬ own_table (root self) (ms_mem s) (frame_at k) →
      l2 !! k = Some Allocated ∧ kept_frame s s2 k).
Proof.
  intros Hinv Htop Hsize Hsal E.
  destruct (stack_roundtrip_spec self size top perms s l m s1 Hinv Htop Hsize Hsal E)
    as (s2 & l2 & E2 & [[R1 _ R3 R4 _] _ _ _]).
  exists s2, l2. split_and!; [done|done| |done]. intros x Hx. apply R3; [done|simpl; lia].
Qed.

(** A machine with room for a kernel stack: twenty frames, frame 1 holds the bitmap and
    frame 2 the root table. *)
Definition roomy_regions : list MemoryRegion := [mkMemoryRegion 0x1000 0x13000 Usable].
Definition roomy_alloc_state : MState :=
  match FrameAllocator_new roomy_regions demo_dm demo_mem with
  | Done (Ok fa, m) => mkMState m fa 0 []
  | _ => demo_state
  end.
Definition roomy_state : MState :=
  match PageTable_new demo_dm demo_config roomy_alloc_state with
  | Done (_, s) => s
  | _ => demo_state
  end.
Definition roomy_frames : list FrameState :=
  Reserved :: Reserved :: Allocated :: replicate 17 Free.

Lemma roomy_regions_wf : Forall region_wf roomy_regions.
Proof. repeat (apply Forall_cons; split; [by vm_compute|]). apply Forall_nil. done. Qed.

Lemma roomy_regions_nodup : NoDup (usable_frames roomy_regions).
Proof. apply (bool_decide_unpack _). by vm_compute. Qed.

Lemma roomy_refines :
  refines roomy_alloc_state (mkAbs (Reserved :: Reserved :: replicate 18 Free) 2).
Proof.
  destruct (new_spec_ok roomy_regions demo_dm demo_mem 20 1 roomy_regions_wf roomy_regions_nodup
    eq_refl eq_refl ltac:(by vm_compute)) as (m' & n & E & Hm & _).
  unfold roomy_alloc_state. rewrite E.
  apply (new_fa_inv roomy_regions demo_dm m' 20 1 n 0 []); try done; by vm_compute.
Qed.

Lemma roomy_pt_inv : pt_inv demo_pt roomy_state roomy_frames.
Proof.
  destruct (page_table_new_spec roomy_alloc_state (Reserved :: Reserved :: replicate 18 Free)
    demo_dm demo_config) as (r & s' & E & H); [apply roomy_refines|done|apply demo_config_wf|].
  unfold roomy_state. rewrite E.
  assert (r = Ok (mkPageTable demo_dm demo_config 8192)) as ->
    by (eapply returned_Done; [exact E|vm_compute; reflexivity]).
  destruct H as (k & Hk & Heq & Hinv & _).
  assert (k = 2%nat) as ->; [|exact Hinv].
  injection Heq as Heq. unfold frame_at, FRAME_SIZE in Heq. lia.
Qed.

Lemma stack_roundtrip_witness :
  ∃ m s1 s2 l2,
    StackMapping_allocate (demo_space Kernel) 0x2000 0x40000 (mkPagePermissions true false false)
      roomy_state = Done (Ok m, s1) ∧
    StackMapping_destroy m (demo_space Kernel) s1 = Done (tt, s2) ∧ pt_inv demo_pt s2 l2.
Proof.
  destruct (stack_allocate_spec (demo_space Kernel) 0x2000 0x40000 (mkPagePermissions true false false)
    roomy_state roomy_frames) as (r & s1 & l1 & E & _); [apply roomy_pt_inv|done|done|done|].
  assert (r = Ok (mkStackMapping 0x3D000 0x3E000 0x2000 0x40000)) as ->
    by (eapply returned_Done; [exact E|vm_compute; reflexivity]).
  destruct (stack_roundtrip (demo_space Kernel) 0x2000 0x40000 (mkPagePermissions true false false)
    roomy_state s1 roomy_frames (mkStackMapping 0x3D000 0x3E000 0x2000 0x40000))
    as (s2 & l2 & E2 & Hinv & _); [apply roomy_pt_inv|unfold is_u64, W64; lia|unfold is_u64, W64; lia|reflexivity|exact E|].
  exists (mkStackMapping 0x3D000 0x3E000 0x2000 0x40000), s1, s2, l2.
  split; [exact E|]. split; [exact E2|exact Hinv].
Defined.

(** C20: Kernel stacks in use never overlap: after any sequence of allocations (failed ones
    included) and frees from an empty pool, the stacks held lie in distinct slots, each
    has its eight pages mapped writable, kernel-only and non-executable below an unmapped
    guard page, and freeing any of them, or allocating another, does not panic.  The pool
    is exhausted exactly when the stacks held and the allocations that failed for lack of
    memory add up to 64. *)
Theorem pool_safe (self : AddressSpace) (s : MState) (l : list FrameState) (p : PoolState)
    (held : list KernelStack) (failed : nat) :
  pt_inv (root self) s l → kind self = Kernel →
  rtc (pool_step self) (mkPoolState KernelStackPool_new s, [], 0%nat) (p, held, failed) →
  (∃ slots, NoDup slots ∧ held = slot_stack <$> slots ∧
    ∀ slot, slot ∈ slots → 0 ≤ slot < MAX_KERNEL_STACKS ∧
      AddressSpace_to_physical self (ms_mem (ps_mem p)) (slot_bottom slot) = None ∧
      ∀ i, 0 ≤ i < KERNEL_STACK_PAGES → ∃ frame,
        maps_page (root self) (ms_mem (ps_mem p)) (slot_start slot + i * FRAME_SIZE) frame
          kernel_stack_perms) ∧
  (∀ st, st ∈ held → ∃ p', KernelStackPool_free self st p = Done (tt, p')) ∧
  (∃ r p', KernelStackPool_allocate self p = Done (r, p') ∧
    (r = Err OutOfStacks ↔ (length held + failed = 64)%nat)).
Proof.
  intros Hinv Hk Hrun.
  assert (pool_reached self (p, held, failed)) as (l' & live & lost & Hp & Hheld & Hn).
  { eapply (rtc_ind_r (pool_reached self)); [|intros; by eapply pool_step_reached|exact Hrun].
    exists l, [], []. split_and!; [by apply pool_inv_init|done|done]. }
  simpl in *. subst held failed. split_and!.
  - exists live.*1. split; [|split].
    + by pose proof (po_slots _ _ _ _ _ Hp) as (? & _ & _)%NoDup_app.
    + by rewrite list_fmap_compose.
    + intros slot (e & -> & He)%list_elem_of_fmap.
      destruct (po_live _ _ _ _ _ Hp e He) as (Hs & Hlen & Hpl & Hg). split_and!; [lia|lia|done|].
      intros i Hi. exists (stack_frame e.2 i). apply (pl_pages _ _ _ _ _ _ Hpl). lia.
  - intros st (e & -> & He)%list_elem_of_fmap. apply list_elem_of_split in He as (b & a & ->).
    destruct e as [slot ks].
    destruct (pool_free_spec self p l' (b ++ a) lost slot ks Hk) as (p1 & l1 & E1 & H1).
    { eapply pool_inv_perm; [|done]. symmetry. apply Permutation_middle. }
    by exists p1.
  - destruct (pool_allocate_spec self p l' live lost Hp) as (r & p1 & l1 & E1 & H1).
    exists r, p1. split; [done|]. rewrite length_fmap, <- (pool_full self p l' live lost Hp).
    destruct (free_slot (ps_pool p)) as [slot|]; [|by destruct H1 as [-> _]].
    split; [|done]. intros ->. by destruct H1.
Qed.

(** On a machine with room for one stack the second allocation fails for lack of frames and
    its slot stays marked. *)
Definition roomy_pool : PoolState := mkPoolState KernelStackPool_new roomy_state.
Definition run_state {A} (o : outcome (A * PoolState)) : PoolState :=
  match o with Done (_, p) => p | _ => roomy_pool end.
Definition roomy_pool_1 : PoolState :=
  run_state (KernelStackPool_allocate (demo_space Kernel) roomy_pool).
Definition roomy_pool_2 : PoolState :=
  run_state (KernelStackPool_allocate (demo_space Kernel) roomy_pool_1).

Lemma pool_safe_witness :
  (∃ p', KernelStackPool_free (demo_space Kernel) (slot_stack 0) roomy_pool_2 = Done (tt, p')) ∧
  ps_pool roomy_pool_2 = mkKernelStackPool 3.
Proof.
  assert (Hrun : rtc (pool_step (demo_space Kernel)) (roomy_pool, [], 0%nat)
                   (roomy_pool_2, [slot_stack 0], 1%nat)).
  { eapply rtc_l; [apply (pool_step_alloc _ _ roomy_pool_1 (slot_stack 0))|eapply rtc_l;
      [apply (pool_step_fail _ _ roomy_pool_2 StackOutOfFrames)|apply rtc_refl]].
    - assert (Hr : returned (KernelStackPool_allocate (demo_space Kernel) roomy_pool) =
        Some (Ok (slot_stack 0))) by (vm_compute; reflexivity).
      unfold roomy_pool_1. destruct (KernelStackPool_allocate (demo_space Kernel) roomy_pool)
        as [[r p]| |]; [|discriminate Hr|discriminate Hr]. injection Hr as ->. reflexivity.
    - assert (Hr : returned (KernelStackPool_allocate (demo_space Kernel) roomy_pool_1) =
        Some (Err StackOutOfFrames)) by (vm_compute; reflexivity).
      unfold roomy_pool_2. destruct (KernelStackPool_allocate (demo_space Kernel) roomy_pool_1)
        as [[r p]| |]; [|discriminate Hr|discriminate Hr]. injection Hr as ->. reflexivity.
    - vm_compute. discriminate. }
  split; [|vm_compute; reflexivity].
  destruct (pool_safe (demo_space Kernel) roomy_state roomy_frames roomy_pool_2 [slot_stack 0] 1
    roomy_pt_inv eq_refl Hrun) as (_ & Hfree & _).
  apply Hfree. left.
Defined.
