(* ===== verification/Spaces.v ===== *)
(** * Several address spaces in one memory

    The page tables of all user address spaces live in the same frames of memory and share the
    tables of the kernel half ([AddressSpace::new_user] of [src/memory/address_space.rs] copies
    the upper half of the root).  This file shows that [map] and [unmap] of a user page in one
    space leave every other space as it is, as do the operations of the frame allocator and
    stores to frames that hold no table. *)

From S2P Require Import Prelude Memory Bytes Frame Paging PageTree PageMap PageUnmap AddressSpace VirtMem Stack.

(** ** The tables of a page table can be told from other frames *)

Section reach.
Context (config : PagingConfig) (h : heap).

Fixpoint reaches (n : nat) (f g : FrameAddr) : bool :=
  (f =? g) ||
  match n with
  | O => false
  | S n => existsb (λ i, match entry_table_frame (h f i) config with
                         | Some c => reaches n c g
                         | None => false
                         end) (seqZ 0 PAGE_TABLE_ENTRIES)
  end.

Lemma reaches_spec n f g :
  reaches n f g = true ↔ ∃ p, Forall idx_ok p ∧ (length p ≤ n)%nat ∧ follow config h f p = Some g.
Proof.
  revert f. induction n as [|n IH]; intros f; cbn [reaches]; rewrite orb_true_iff, Z.eqb_eq.
  - split; [intros [->|]; [by exists []|done]|]. intros ([|] & _ & Hl & Hf); [left; by injection Hf|].
    simpl in Hl. lia.
  - rewrite existsb_exists. split.
    + intros [->|(i & Hi & Hr)]; [exists []; simpl; split_and!; [constructor|lia|done]|].
      apply list_elem_of_In, elem_of_seqZ in Hi. destruct (entry_table_frame (h f i) config) as [c|] eqn:E; [|done].
      apply IH in Hr as (p & Hp & Hl & Hf). exists (i :: p). simpl. rewrite E. split_and!; [|lia|done].
      constructor; [|done]. unfold idx_ok. lia.
    + intros ([|i p] & Hp & Hl & Hf); [left; by injection Hf|right]. apply Forall_cons in Hp as [Hi Hp].
      exists i. split; [apply list_elem_of_In, elem_of_seqZ; unfold idx_ok in Hi; lia|].
      simpl in Hf, Hl. destruct (entry_table_frame (h f i) config) as [c|]; [|done].
      apply IH. exists p. split_and!; [done|lia|done].
Qed.
End reach.

#[export] Instance own_table_dec self m f : Decision (own_table self m f).
Proof.
  refine (cast_if (decide (reaches (pt_config self) (heap_of self m) (length (levels self)) (pt_frame self) f = true)));
    abstract (unfold own_table; by rewrite <- reaches_spec).
Defined.

(** ** A page table whose own entries are kept *)

Definition entries_same (self : PageTable) (m m' : memory) : Prop :=
  ∀ f j, own_table self m f → idx_ok j → heap_of self m' f j = heap_of self m f j.

Section kept.
Context (self : PageTable) (s s' : MState) (l l' : list FrameState).
Context (Hinv : pt_inv self s l) (Hfa : fa_inv s' l').
Context (Hdm : direct_map (ms_fa s') = direct_map (ms_fa s)).
Context (Hent : entries_same self (ms_mem s) (ms_mem s')).
Context (Hheld : ∀ k, own_table self (ms_mem s) (frame_at k) → l' !! k = Some Allocated).

Lemma kept_follow q :
  Forall idx_ok q → (length q ≤ S (length (levels self)))%nat →
  follow (pt_config self) (heap_of self (ms_mem s')) (pt_frame self) q =
    follow (pt_config self) (heap_of self (ms_mem s)) (pt_frame self) q ∧
  resolve (pt_config self) (heap_of self (ms_mem s')) (pt_frame self) q =
    resolve (pt_config self) (heap_of self (ms_mem s)) (pt_frame self) q.
Proof.
  intros Hq Hl. assert (Htree : tree_inv (pt_config self) (length (levels self)) (own_table self (ms_mem s))
    (pt_frame self) (heap_of self (ms_mem s))).
  { eapply tree_inv_weaken; [apply Hinv|]. intros p f ? ? ?. by exists p. }
  destruct (tree_walk_agree _ _ _ _ _ Htree (heap_of self (ms_mem s')) q Hq Hl Hent) as (-> & -> & _). done.
Qed.

Lemma kept_tables f : own_table self (ms_mem s') f ↔ own_table self (ms_mem s) f.
Proof.
  unfold own_table. split; intros (q & Hq & Hl & Hf); exists q; destruct (kept_follow q Hq) as [E _];
    [lia| |lia|]; rewrite E in *; done.
Qed.

Lemma kept_space : pt_inv self s' l' ∧ (∀ x, same_page self (ms_mem s) (ms_mem s') x).
Proof.
  assert (Hinv' : pt_inv self s' l').
  { split; [apply Hinv|done|rewrite Hdm; apply Hinv|].
    eapply (tree_inv_weaken _ _ (own_table self (ms_mem s))).
    - eapply tree_inv_agree; [|exact Hent]. eapply tree_inv_weaken; [apply Hinv|]. intros p f ? ? ?. by exists p.
    - intros p f Hp Hl Hf. rewrite (proj1 (kept_follow p Hp ltac:(lia))) in Hf.
      assert (Ho : own_table self (ms_mem s) f) by (by exists p).
      pose proof (own_table_ok self s l Hinv f Ho) as Hok. split; [apply Hok|]. apply Hheld.
      unfold frame_at. by rewrite <- (table_ok_index _ _ _ Hok). }
  split; [done|]. intros x. eapply view_same; [done|done|].
  apply kept_follow; [apply path_of_ok|]. unfold path. rewrite path_of_length. lia.
Qed.
End kept.

(** ** The shared half *)

(** [f] is a table below the upper half of the root. *)
Definition kernel_table (self : PageTable) (m : memory) (f : FrameAddr) : Prop :=
  ∃ i q, Forall idx_ok (i :: q) ∧ (length (i :: q) ≤ length (levels self))%nat ∧ 256 ≤ i ∧
    follow (pt_config self) (heap_of self m) (pt_frame self) (i :: q) = Some f.

(** Two page tables have no tables in common but those of the kernel half. *)
Definition kernel_shared (self other : PageTable) (m : memory) : Prop :=
  ∀ f, own_table self m f → own_table other m f → kernel_table self m f.

Lemma user_path_head self v :
  is_u64 v → v < USER_SPACE_END → is_canonical self v = true →
  ∃ i p, path self v = i :: p ∧ i < 256.
Proof.
  intros Hv Hlo Hc. destruct (top_index self v Hv Hc) as (i & p & E & _ & Hi). exists i, p. split; [done|].
  unfold USER_SPACE_END in Hlo. rewrite (proj2 (Z.leb_gt _ v)) in Hi by lia. by apply Z.leb_gt.
Qed.

Section shared.
Context (self : PageTable) (s s' : MState) (l : list FrameState) (v : VirtualAddr).
Context (Hinv : pt_inv self s l) (Hv : is_u64 v) (Hlo : v < USER_SPACE_END) (Hc : is_canonical self v = true).
Context (Hent : entries_kept self v (ms_mem s) (ms_mem s')).

Lemma kernel_not_on_path f j : kernel_table self (ms_mem s) f → ¬ path_entry self (ms_mem s) v f j.
Proof.
  intros (i & q & Hq & Hl & Hi & Hf) (q' & r & Hp & Hf').
  destruct (user_path_head self v Hv Hlo Hc) as (i0 & p0 & E0 & Hi0).
  pose proof (path_of_ok (levels self) v) as Hok. pose proof (path_of_length (levels self) v) as Hlen.
  fold (path self v) in Hok, Hlen. rewrite Hp in Hok, Hlen. apply Forall_app in Hok as [Hq' _].
  rewrite length_app in Hlen. simpl in Hlen.
  assert (q' = i :: q) as -> by (apply (ti_inj _ _ _ _ _ (pi_tree _ _ _ Hinv) _ _ f); try done; lia).
  rewrite Hp in E0. simpl in E0. injection E0 as -> _. lia.
Qed.

(** Another page table sees none of the changes. *)
Lemma other_entries other :
  pt_inv other s l → pt_direct_map other = pt_direct_map self → kernel_shared self other (ms_mem s) →
  (∀ k, l !! k = Some Allocated → ¬ own_table self (ms_mem s) (frame_at k) → kept_frame s s' k) →
  entries_same other (ms_mem s) (ms_mem s').
Proof.
  intros Hio Hdm Hsh Hkept f j Hf Hj. pose proof (own_table_ok other s l Hio f Hf) as Hok.
  assert (Hh : ∀ m, heap_of other m f j = heap_of self m f j) by (intros m; unfold heap_of; by rewrite Hdm).
  destruct (decide (own_table self (ms_mem s) f)) as [Ho|Hno].
  - rewrite !Hh. apply Hent; [done|done|]. apply kernel_not_on_path, Hsh; done.
  - eapply kept_heap; [apply Hio|exact Hok|done|]. apply Hkept; [apply Hok|].
    unfold frame_at. by rewrite <- (table_ok_index _ _ _ Hok).
Qed.

(** The kernel half of the page table itself stays. *)
Lemma kernel_table_stays f : kernel_table self (ms_mem s) f → kernel_table self (ms_mem s') f.
Proof.
  intros (i & q & Hq & Hl & Hi & Hf). exists i, q. split_and!; try done.
  rewrite <- Hf. apply (walk_ext (pt_config self)). intros q' j g Hpre Hg.
  pose proof (prefix_ok _ _ Hpre Hq) as [Hq' Hj]%Forall_app. apply Forall_inv in Hj.
  pose proof (prefix_length _ _ Hpre) as Hlen. rewrite length_app in Hlen. simpl in Hlen, Hl.
  assert (Hown : own_table self (ms_mem s) g) by (exists q'; split_and!; [done|lia|done]).
  apply Hent; [done|done|]. destruct q' as [|i' q'].
  - intros (q2 & r & Hp & Hf2). injection Hg as <-.
    pose proof (path_of_ok (levels self) v) as Hok. pose proof (path_of_length (levels self) v) as Hlen2.
    fold (path self v) in Hok, Hlen2. rewrite Hp in Hok, Hlen2. apply Forall_app in Hok as [Hq2 _].
    rewrite length_app in Hlen2. simpl in Hlen2.
    assert (q2 = []) as -> by (apply (ti_inj _ _ _ _ _ (pi_tree _ _ _ Hinv) _ _ (pt_frame self)); try done; simpl; lia).
    destruct (user_path_head self v Hv Hlo Hc) as (i0 & p0 & E0 & Hi0). rewrite Hp in E0. simpl in E0.
    injection E0 as -> _. destruct Hpre as [r' Er]. simpl in Er. injection Er as -> _. lia.
  - destruct Hpre as [r Er]. simpl in Er. injection Er as -> Er.
    apply kernel_not_on_path. exists i', q'. split_and!; try done. lia.
Qed.
End shared.

(** ** All the user address spaces *)

Record spaces_inv (paging : PagingConfig) (sps : AddressSpaceTable) (s : MState) (l : list FrameState) : Prop := {
  si_fa : fa_inv s l;
  si_space : ∀ id sp, AddressSpaceTable_get sps id = Some sp →
    pt_inv (root sp) s l ∧ kind sp = User ∧ pt_config (root sp) = paging;
  si_shared : ∀ id id' sp sp', id ≠ id' →
    AddressSpaceTable_get sps id = Some sp → AddressSpaceTable_get sps id' = Some sp' →
    kernel_shared (root sp) (root sp') (ms_mem s);
}.

(** [f] is a table of one of the spaces. *)
Definition some_table (sps : AddressSpaceTable) (m : memory) (f : FrameAddr) : Prop :=
  ∃ id sp, AddressSpaceTable_get sps id = Some sp ∧ own_table (root sp) m f.

Definition spaces_same (sps : AddressSpaceTable) (m m' : memory) : Prop :=
  ∀ id sp, AddressSpaceTable_get sps id = Some sp →
    (∀ x, same_page (root sp) m m' x) ∧ (∀ f, own_table (root sp) m' f ↔ own_table (root sp) m f).

Lemma some_table_same sps m m' f : spaces_same sps m m' → some_table sps m' f ↔ some_table sps m f.
Proof.
  intros H. unfold some_table. split; intros (id & sp & Hs & Ho); exists id, sp; (split; [done|]); by apply (H id sp Hs).
Qed.

Lemma some_table_allocated paging sps s l k :
  spaces_inv paging sps s l → some_table sps (ms_mem s) (frame_at k) → l !! k = Some Allocated.
Proof.
  intros H (id & sp & Hs & Ho). destruct (si_space _ _ _ _ H _ _ Hs) as (Hi & _).
  destruct (own_table_ok _ _ _ Hi _ Ho) as [_ Hal]. by rewrite frame_at_index in Hal.
Qed.

(** Changes that spare every entry of every space. *)
Lemma spaces_kept paging sps s s' l l' :
  spaces_inv paging sps s l → fa_inv s' l' → direct_map (ms_fa s') = direct_map (ms_fa s) →
  (∀ id sp, AddressSpaceTable_get sps id = Some sp → entries_same (root sp) (ms_mem s) (ms_mem s')) →
  (∀ k, some_table sps (ms_mem s) (frame_at k) → l' !! k = Some Allocated) →
  spaces_inv paging sps s' l' ∧ spaces_same sps (ms_mem s) (ms_mem s').
Proof.
  intros H Hfa Hdm Hent Hheld.
  assert (Hk : ∀ id sp, AddressSpaceTable_get sps id = Some sp →
    pt_inv (root sp) s' l' ∧ (∀ x, same_page (root sp) (ms_mem s) (ms_mem s') x)).
  { intros id sp Hs. destruct (si_space _ _ _ _ H _ _ Hs) as (Hi & _).
    apply (kept_space (root sp) s s' l l'); try done; [by eapply Hent|].
    intros k Ho. apply Hheld. by exists id, sp. }
  assert (Ht : ∀ id sp f, AddressSpaceTable_get sps id = Some sp →
    own_table (root sp) (ms_mem s') f ↔ own_table (root sp) (ms_mem s) f).
  { intros id sp f Hs. destruct (si_space _ _ _ _ H _ _ Hs) as (Hi & _).
    eapply kept_tables; [exact Hi|]. by eapply Hent. }
  split; [|intros id sp Hs; split; [by apply (Hk id)|intros; by eapply Ht]].
  split; [done| |].
  - intros id sp Hs. destruct (si_space _ _ _ _ H _ _ Hs) as (Hi & ? & ?). split_and!; try done. by apply (Hk id).
  - intros id id' sp sp' Hne Hs Hs' f Ho Ho'. rewrite (Ht id) in Ho by done. rewrite (Ht id') in Ho' by done.
    destruct (si_shared _ _ _ _ H _ _ _ _ Hne Hs Hs' f Ho Ho') as (i & q & Hq & Hl & Hi & Hf).
    exists i, q. split_and!; try done. destruct (si_space _ _ _ _ H _ _ Hs) as (Hinv & _).
    rewrite <- Hf. apply (kept_follow (root sp) s s' l Hinv); [by eapply Hent|done|lia].
Qed.

(** The frames of the tables are untouched. *)
Lemma spaces_kept_frames paging sps s s' l l' :
  spaces_inv paging sps s l → fa_inv s' l' → direct_map (ms_fa s') = direct_map (ms_fa s) →
  (∀ k, some_table sps (ms_mem s) (frame_at k) → l' !! k = Some Allocated ∧ kept_frame s s' k) →
  spaces_inv paging sps s' l' ∧ spaces_same sps (ms_mem s) (ms_mem s').
Proof.
  intros H Hfa Hdm Hk. apply (spaces_kept paging sps s s' l l'); try done; [|intros k Hs; by apply Hk].
  intros id sp Hs f j Ho Hj. destruct (si_space _ _ _ _ H _ _ Hs) as (Hi & _).
  pose proof (own_table_ok _ _ _ Hi _ Ho) as Hok. eapply kept_heap; [apply Hi|exact Hok|done|]. apply Hk.
  exists id, sp. split; [done|]. unfold frame_at. by rewrite <- (table_ok_index _ _ _ Hok).
Qed.

Lemma spaces_alloc paging sps s s1 l k :
  spaces_inv paging sps s l → l !! k = Some Free → fa_inv s1 (<[k := Allocated]> l) → same_layout s s1 →
  (∀ j st, l !! j = Some st → st ≠ Reserved → j ≠ k → kept_frame s s1 j) →
  spaces_inv paging sps s1 (<[k := Allocated]> l) ∧ spaces_same sps (ms_mem s) (ms_mem s1).
Proof.
  intros H Hk Hfa (_ & Hdm & _) Hkept. apply (spaces_kept_frames paging sps s s1 l); try done.
  intros j Hj%(some_table_allocated _ _ _ _ _ H). assert (j ≠ k) by congruence.
  rewrite list_lookup_insert_ne by done. split; [done|by eapply Hkept].
Qed.

Lemma spaces_dealloc paging sps s s1 l k :
  spaces_inv paging sps s l → ¬ some_table sps (ms_mem s) (frame_at k) →
  fa_inv s1 (<[k := Free]> l) → same_layout s s1 →
  (∀ j st, l !! j = Some st → st ≠ Reserved → kept_frame s s1 j) →
  spaces_inv paging sps s1 (<[k := Free]> l) ∧ spaces_same sps (ms_mem s) (ms_mem s1).
Proof.
  intros H Hno Hfa (_ & Hdm & _) Hkept. apply (spaces_kept_frames paging sps s s1 l); try done.
  intros j Hj. assert (j ≠ k) by (intros ->; done). pose proof (some_table_allocated _ _ _ _ _ H Hj) as Hal.
  rewrite list_lookup_insert_ne by done. split; [done|by eapply Hkept].
Qed.

(** Stores to frames that hold no table. *)
Lemma spaces_stored paging sps rt fr b va s s' l :
  spaces_inv paging sps s l → pt_inv rt s l → vstored rt l fr b va s s' →
  (∀ i, 0 ≤ i < Z.of_nat (length b) → ¬ some_table sps (ms_mem s) (frame_at (fr (va + i)))) →
  spaces_inv paging sps s' l ∧ spaces_same sps (ms_mem s) (ms_mem s').
Proof.
  intros H Hrt [V1 (V2 & _) _ _ V5 _] Hno. apply (spaces_kept_frames paging sps s s' l); try done.
  { apply V1. } { by rewrite V2. }
  intros k Hk. split; [by eapply some_table_allocated|]. intros a Ha. apply V5. intros i Hi ->.
  apply (Hno i Hi). pose proof (data_cell_in_frame rt l s (va + i) (fr (va + i)) Hrt) as Hin.
  assert (k = fr (va + i)) as <-; [|done]. assert (Z.of_nat k = Z.of_nat (fr (va + i))); [|lia].
  by eapply in_frame_inj.
Qed.

(** The other spaces, and what is shared, when one space changes below a user page. *)
Definition others_kept (sps : AddressSpaceTable) (id : AddressSpaceId) (m m' : memory) : Prop :=
  ∀ id' sp, id' ≠ id → AddressSpaceTable_get sps id' = Some sp →
    (∀ x, same_page (root sp) m m' x) ∧ (∀ f, own_table (root sp) m' f ↔ own_table (root sp) m f).

Section changed.
Context (paging : PagingConfig) (sps : AddressSpaceTable) (s s' : MState) (l l' : list FrameState).
Context (id : AddressSpaceId) (sp : AddressSpace) (v : VirtualAddr).
Context (H : spaces_inv paging sps s l) (Hsp : AddressSpaceTable_get sps id = Some sp).
Context (Hv : is_u64 v) (Hlo : v < USER_SPACE_END) (Hc : is_canonical (root sp) v = true).
Context (Hinv' : pt_inv (root sp) s' l').
Context (Hent : entries_kept (root sp) v (ms_mem s) (ms_mem s')).
Context (Hby : ∀ k, l !! k = Some Allocated → ¬ own_table (root sp) (ms_mem s) (frame_at k) → kept_frame s s' k).
Context (Hnew : ∀ f, own_table (root sp) (ms_mem s') f → own_table (root sp) (ms_mem s) f ∨
  ∃ k, f = frame_at k ∧ l !! k = Some Free).
Context (Hst : ∀ k, l !! k = Some Allocated → l' !! k = Some Allocated ∨
  own_table (root sp) (ms_mem s) (frame_at k) ∧ ¬ own_table (root sp) (ms_mem s') (frame_at k)).

Lemma changed_space : pt_inv (root sp) s l.
Proof. by apply (si_space _ _ _ _ H id sp). Qed.

Lemma changed_other id' sp' :
  id' ≠ id → AddressSpaceTable_get sps id' = Some sp' →
  pt_inv (root sp') s l ∧ entries_same (root sp') (ms_mem s) (ms_mem s') ∧
  (∀ k, own_table (root sp') (ms_mem s) (frame_at k) → l' !! k = Some Allocated).
Proof.
  intros Hne Hs. destruct (si_space _ _ _ _ H _ _ Hs) as (Hi & _).
  pose proof (si_shared _ _ _ _ H id id' sp sp' ltac:(done) Hsp Hs) as Hsh. split_and!; [done| |].
  - eapply (other_entries (root sp) s s' l v); try done; [apply changed_space|].
    rewrite <- (pi_dm _ _ _ Hi). apply changed_space.
  - intros k Ho. destruct (own_table_ok _ _ _ Hi _ Ho) as [_ Hal]. rewrite frame_at_index in Hal.
    destruct (Hst k Hal) as [?|[Ho1 Hno]]; [done|]. destruct Hno.
    destruct (kernel_table_stays (root sp) s s' l v changed_space Hv Hlo Hc Hent _ (Hsh _ Ho1 Ho))
      as (i & q & Hq & Hl & _ & Hf). by exists (i :: q).
Qed.

Lemma spaces_changed :
  spaces_inv paging sps s' l' ∧ others_kept sps id (ms_mem s) (ms_mem s').
Proof.
  assert (Hdm : direct_map (ms_fa s') = direct_map (ms_fa s)).
  { rewrite (pi_dm _ _ _ Hinv'). symmetry. apply changed_space. }
  assert (Hoth : others_kept sps id (ms_mem s) (ms_mem s')).
  { intros id' sp' Hne Hs. destruct (changed_other id' sp' Hne Hs) as (Hi & He & Hh).
    split; [by apply (kept_space (root sp') s s' l l'); try done; apply Hinv'|].
    intros f. by apply (kept_tables (root sp') s s' l). }
  assert (Hfol : ∀ id' sp' f, id' ≠ id → AddressSpaceTable_get sps id' = Some sp' →
    kernel_table (root sp') (ms_mem s) f → kernel_table (root sp') (ms_mem s') f).
  { intros id' sp' f Hne Hs (i & q & Hq & Hl & Hi & Hf). destruct (changed_other id' sp' Hne Hs) as (Hinv & He & _).
    exists i, q. split_and!; try done. rewrite <- Hf. apply (kept_follow (root sp') s s' l Hinv He); [done|lia]. }
  split; [|done]. split; [apply Hinv'| |].
  - intros id' sp' Hs. destruct (si_space _ _ _ _ H _ _ Hs) as (_ & Hk & Hp). split_and!; [|done|done].
    destruct (decide (id' = id)) as [->|Hne]; [by simplify_eq|].
    destruct (changed_other id' sp' Hne Hs) as (Hi & He & Hh).
    apply (kept_space (root sp') s s' l l'); try done. apply Hinv'.
  - intros id1 id2 sp1 sp2 Hne H1 H2 f O1 O2.
    pose proof (si_shared _ _ _ _ H id1 id2 sp1 sp2 Hne H1 H2 f) as Hsh.
    destruct (decide (id1 = id)) as [->|N1]; [|destruct (decide (id2 = id)) as [->|N2]]; simplify_eq.
    + rewrite (proj2 (Hoth _ _ ltac:(done) H2)) in O2. destruct (Hnew f O1) as [O1'|(k & -> & Hf)].
      * apply (kernel_table_stays (root sp) s s' l v changed_space Hv Hlo Hc Hent). by apply Hsh.
      * pose proof (some_table_allocated _ _ _ _ k H ltac:(by exists id2, sp2)). congruence.
    + rewrite (proj2 (Hoth _ _ N1 H1)) in O1. apply (Hfol id1); [done|done|]. destruct (Hnew f O2) as [O2'|(k & -> & Hf)].
      * by apply Hsh.
      * pose proof (some_table_allocated _ _ _ _ k H ltac:(by exists id1, sp1)). congruence.
    + rewrite (proj2 (Hoth _ _ N1 H1)) in O1. rewrite (proj2 (Hoth _ _ N2 H2)) in O2.
      apply (Hfol id1); [done|done|]. by apply Hsh.
Qed.
End changed.

Lemma spaces_map paging sps s s' l l' id sp v frame perms :
  spaces_inv paging sps s l → AddressSpaceTable_get sps id = Some sp →
  is_u64 v → v < USER_SPACE_END → is_canonical (root sp) v = true →
  map_ok_post (root sp) v frame perms s s' l l' →
  spaces_inv paging sps s' l' ∧ others_kept sps id (ms_mem s) (ms_mem s').
Proof.
  intros H Hsp Hv Hlo Hc [M1 M2 M3 M4 M5 M6 M7 M8 M9 M10 _].
  apply (spaces_changed paging sps s s' l l' id sp v); try done.
  - intros k Hk. by apply M6.
  - intros k Hk. left. by apply M6.
Qed.

Lemma spaces_map_err paging sps s s' l sp :
  spaces_inv paging sps s l → map_err_post (root sp) s s' l →
  direct_map (ms_fa s') = direct_map (ms_fa s) →
  spaces_inv paging sps s' l ∧ spaces_same sps (ms_mem s) (ms_mem s').
Proof.
  intros H [M1 _ _ _ _ M6 _] Hdm. apply (spaces_kept_frames paging sps s s' l); try done; [apply M1|].
  intros k Hk%(some_table_allocated _ _ _ _ _ H). split; [done|by apply M6].
Qed.

Lemma spaces_unmap paging sps s s' l l' id sp v frame :
  spaces_inv paging sps s l → AddressSpaceTable_get sps id = Some sp →
  is_u64 v → v < USER_SPACE_END → is_canonical (root sp) v = true →
  unmap_post (root sp) v frame s s' l l' →
  spaces_inv paging sps s' l' ∧ others_kept sps id (ms_mem s) (ms_mem s').
Proof.
  intros H Hsp Hv Hlo Hc [U1 U2 U3 U4 U5 U6 U7 U8 U9 _].
  apply (spaces_changed paging sps s s' l l' id sp v); try done.
  - intros f Hf. left. by apply U7.
  - intros k Hk. destruct (U5 k) as [->|(_ & _ & ? & ?)]; [by left|by right].
Qed.
