(* ===== verification/Destroy.v ===== *)
(** * Destroying page tables

    [destroy] and [destroy_user] of [src/arch/x86_64/paging.rs] give back the frames of the
    tables of a page table, of all of them and of those of the lower half: they free each of
    these frames once and no other, and touch the memory of no other allocated frame. *)

From S2P Require Import Prelude Memory Bytes Frame Paging PageTree PageMap PageUnmap AddressSpace VirtMem Stack Spaces.

(** ** Tables below a table *)

Section subtree.
Context (config : PagingConfig).

(** [g] is a table at most [n] levels below an entry of [f] whose index is among [ids]. *)
Definition below (h : heap) (n : nat) (f : FrameAddr) (ids : list Z) (g : FrameAddr) : Prop :=
  ∃ i q, i ∈ ids ∧ Forall idx_ok (i :: q) ∧ (length q ≤ n)%nat ∧ follow config h f (i :: q) = Some g.

(** The tables up to [n] levels below [f] are allocated frames, each reached by one path. *)
Record subtree (n : nat) (l : list FrameState) (h : heap) (f : FrameAddr) : Prop := {
  su_table : ∀ p g, Forall idx_ok p → (length p ≤ n)%nat → follow config h f p = Some g → table_ok config l g;
  su_inj : ∀ p q g, Forall idx_ok p → Forall idx_ok q → (length p ≤ n)%nat → (length q ≤ n)%nat →
    follow config h f p = Some g → follow config h f q = Some g → p = q;
}.

Lemma subtree_of_tree n l h f : tree_inv config n (table_ok config l) f h → subtree n l h f.
Proof. intros [T1 T2 _ _]. by split. Qed.

Lemma subtree_self n l h f : subtree n l h f → table_ok config l f.
Proof. intros S. apply (su_table _ _ _ _ S []); [by constructor|simpl; lia|done]. Qed.

Lemma below_table n l h f ids g : subtree (S n) l h f → below h n f ids g → table_ok config l g.
Proof. intros S (i & q & _ & Hp & Hl & Hf). apply (su_table _ _ _ _ S (i :: q)); [done|simpl; lia|done]. Qed.

Lemma below_self n l h f ids : subtree (S n) l h f → ¬ below h n f ids f.
Proof.
  intros S (i & q & _ & Hp & Hl & Hf).
  assert (i :: q = []); [|done]. apply (su_inj _ _ _ _ S _ _ f); [done|by constructor|simpl; lia|simpl; lia|done|done].
Qed.

(** Tables below different entries differ. *)
Lemma below_apart n l h f ids i g :
  subtree (S n) l h f → below h n f ids g → i ∉ ids → ¬ below h n f [i] g.
Proof.
  intros S (i1 & q1 & H1 & Hp1 & Hl1 & Hf1) Hi (i2 & q2 & H2 & Hp2 & Hl2 & Hf2).
  assert (E : i1 :: q1 = i2 :: q2) by (apply (su_inj _ _ _ _ S _ _ g); try done; simpl; lia).
  injection E as -> ->. apply list_elem_of_singleton in H2 as ->. done.
Qed.

Lemma below_snoc h n f ids i g : below h n f (ids ++ [i]) g ↔ below h n f ids g ∨ below h n f [i] g.
Proof.
  unfold below. split.
  - intros (j & q & Hj & Hr). apply elem_of_app in Hj as [Hj|Hj]; [left|right]; by exists j, q.
  - intros [(j & q & Hj & Hr)|(j & q & Hj & Hr)]; exists j, q; (split; [|done]); apply elem_of_app; auto.
Qed.

(** Without a table in the entry there is nothing below it. *)
Lemma below_none h n f i g : entry_table_frame (h f i) config = None → ¬ below h n f [i] g.
Proof. intros E (j & q & ->%list_elem_of_singleton & _ & _ & Hf). simpl in Hf. by rewrite E in Hf. Qed.

(** The table in the entry, or one below it. *)
Lemma below_child h n f i c g :
  idx_ok i → entry_table_frame (h f i) config = Some c →
  below h n f [i] g ↔ g = c ∨ ∃ m, n = S m ∧ below h m c (range 0 PAGE_TABLE_ENTRIES) g.
Proof.
  intros Hi E. unfold below. split.
  - intros (j & q & ->%list_elem_of_singleton & Hp & Hl & Hf). simpl in Hf. rewrite E in Hf. simpl in Hf.
    apply Forall_cons in Hp as [_ Hq]. destruct q as [|j q]; [left; by injection Hf|right].
    destruct n as [|m]; [simpl in Hl; lia|]. exists m. split; [done|]. exists j, q. simpl in Hl.
    pose proof (Forall_inv Hq) as Hj. split_and!; [apply elem_of_range; apply Hj|done|lia|done].
  - intros [->|(m & -> & j & q & _ & Hp & Hl & Hf)].
    + exists i, []. split_and!; [by left|by constructor|simpl; lia|]. simpl. by rewrite E.
    + exists i, (j :: q). split_and!; [by left|by constructor|simpl; lia|]. simpl. by rewrite E.
Qed.
End subtree.

(** ** What destroying does *)

(** The frames of [D] were freed, and nothing but them and the table [f] was changed. *)
Record destroyed (D : FrameAddr → Prop) (f : FrameAddr) (s s' : MState) (l l' : list FrameState) : Prop := {
  de_fa : fa_inv s' l';
  de_layout : same_layout s s';
  de_freed : ∀ k, D (frame_at k) → l' !! k = Some Free;
  de_same : ∀ k, ¬ D (frame_at k) → l' !! k = l !! k;
  de_kept : ∀ k, l !! k = Some Allocated → frame_at k ≠ f → ¬ D (frame_at k) → kept_frame s s' k;
  de_off : ∀ k, off_frame s k → frame_at k ≠ f → ¬ D (frame_at k) → kept_frame s s' k;
}.

Lemma destroyed_refl D f s l : fa_inv s l → (∀ g, ¬ D g) → destroyed D f s s l l.
Proof. intros H Hno. split; try done. intros k Hk. by destruct (Hno _ Hk). Qed.

Lemma destroyed_ext D D' f s s' l l' :
  (∀ g, D g ↔ D' g) → destroyed D f s s' l l' → destroyed D' f s s' l l'.
Proof. intros E [H1 H2 H3 H4 H5 H6]. split; try done; setoid_rewrite <- E; done. Qed.

(** First the frames of [D1], then, apart from them, those of [D2]. *)
Lemma destroyed_trans D1 D2 f s s1 s2 l l1 l2 :
  destroyed D1 f s s1 l l1 → destroyed D2 f s1 s2 l1 l2 → (∀ g, D1 g → ¬ D2 g) →
  destroyed (λ g, D1 g ∨ D2 g) f s s2 l l2.
Proof.
  intros [A1 A2 A3 A4 A5 A6] [B1 B2 B3 B4 B5 B6] Hd. split; [done|by etrans| | | |].
  - intros k [H|H]; [|by apply B3]. rewrite B4 by by apply Hd. by apply A3.
  - intros k Hk. rewrite B4, A4 by tauto. done.
  - intros k Hk Hf HD. eapply kept_frame_trans; [done|by apply A5; tauto|]. apply B5; [|done|tauto]. rewrite A4; tauto.
  - intros k Hk Hf HD. eapply kept_frame_trans; [done|by apply A6; tauto|]. apply B6; [by eapply off_frame_layout|done|tauto].
Qed.

Section destroy.
Context (self : PageTable) (Hcfg : config_wf (pt_config self)).
Abbreviation config := (pt_config self).
Abbreviation heap_at s := (heap_of self (ms_mem s)).

(** What may be destroyed below [f]: its tables are a tree in allocated frames. *)
Record destroyable (n : nat) (s : MState) (l : list FrameState) (f : FrameAddr) : Prop := {
  da_fa : fa_inv s l;
  da_dm : direct_map (ms_fa s) = pt_direct_map self;
  da_tree : subtree config n l (heap_at s) f;
}.

Lemma destroyable_reads n s l f : destroyable n s l f → reads_as self l s (heap_at s).
Proof. intros [_ H _]. by split. Qed.

(** Tables apart from what was changed are as they were. *)
Lemma destroyed_heap D f s s' l l' g j :
  direct_map (ms_fa s) = pt_direct_map self → destroyed D f s s' l l' →
  table_ok config l g → g ≠ f → ¬ D g → idx_ok j → heap_at s' g j = heap_at s g j.
Proof.
  intros Hdm HD Hg Hne Hno Hj. pose proof (table_ok_index _ _ _ Hg) as E. eapply kept_heap; [exact Hdm|exact Hg|exact Hj|].
  apply (de_kept _ _ _ _ _ _ HD); unfold frame_at; [apply Hg|by rewrite <- E|by rewrite <- E].
Qed.

Lemma destroyed_ok D f s s' l l' g :
  destroyed D f s s' l l' → table_ok config l g → ¬ D g → table_ok config l' g.
Proof.
  intros HD Hg Hno. pose proof (table_ok_index _ _ _ Hg) as E. split; [apply Hg|].
  rewrite (de_same _ _ _ _ _ _ HD); [apply Hg|]. unfold frame_at. by rewrite <- E.
Qed.

(** The loop over the entries of one table. *)
Section loop.
Context (n : nat) (children : FrameAddr → M MState unit).
Abbreviation deep h c := (λ g, ∃ m, n = S m ∧ below config h m c (range 0 PAGE_TABLE_ENTRIES) g).
Context (Hchildren : ∀ s l c, destroyable n s l c →
  ∃ s' l', children c s = Done (tt, s') ∧ destroyed (deep (heap_at s) c) c s s' l l').
Context (f : FrameAddr) (s : MState) (l : list FrameState) (Hd : destroyable (S n) s l f).
Abbreviation h := (heap_at s).

(** So far the entries [pre] were cleared. *)
Record cleared (pre : list Z) (s1 : MState) (l1 : list FrameState) : Prop := {
  cl_post : destroyed (below config h n f pre) f s s1 l l1;
  cl_entries : ∀ j, idx_ok j → j ∉ pre → heap_at s1 f j = h f j;
}.

Section entry.
Context (pre : list Z) (x : Z) (Hx : idx_ok x) (Hnew : x ∉ pre) (s1 : MState) (l1 : list FrameState).
Context (Hcl : cleared pre s1 l1).
Abbreviation Hsub := (da_tree _ _ _ _ Hd).

Lemma cleared_table : table_ok config l1 f.
Proof.
  eapply destroyed_ok; [apply Hcl|by eapply subtree_self, Hd|]. eapply below_self, Hd.
Qed.

Lemma cleared_dm : direct_map (ms_fa s1) = pt_direct_map self.
Proof. destruct (de_layout _ _ _ _ _ _ (cl_post _ _ _ Hcl)) as (_ & -> & _). apply Hd. Qed.

Section child.
Context (c : FrameAddr) (Ec : entry_table_frame (h f x) config = Some c).

Lemma child_below q g : Forall idx_ok q → (length q ≤ n)%nat → follow config h c q = Some g → below config h n f [x] g.
Proof.
  intros Hq Hl Hf. exists x, q. split_and!; [by left|by constructor|done|]. simpl. by rewrite Ec.
Qed.

Lemma child_follow q :
  Forall idx_ok q → (length q ≤ n)%nat → follow config (heap_at s1) c q = follow config h c q.
Proof.
  intros Hq Hl. apply walk_ext. intros q' j g Hpre Hf.
  pose proof (prefix_ok _ _ Hpre Hq) as [Hq' Hj]%Forall_app. pose proof (prefix_length _ _ Hpre) as Hlen.
  rewrite length_app in Hlen. simpl in Hlen. pose proof (child_below q' g Hq' ltac:(lia) Hf) as Hb.
  eapply destroyed_heap; [apply Hd|apply Hcl|eapply below_table; [apply Hd|exact Hb]| | |by apply Forall_inv in Hj].
  - intros ->. by eapply (below_self config n l _ f), Hb; apply Hd.
  - intros Hp. eapply below_apart; [apply Hd|exact Hp|exact Hnew|exact Hb].
Qed.

Lemma child_destroyable : destroyable n s1 l1 c.
Proof.
  split; [apply Hcl|apply cleared_dm|]. split.
  - intros p g Hp Hl. rewrite child_follow by done. intros Hf. pose proof (child_below p g Hp Hl Hf) as Hb.
    eapply destroyed_ok; [apply Hcl|eapply below_table; [apply Hd|exact Hb]|]. intros Hb'.
    eapply below_apart; [apply Hd|exact Hb'|exact Hnew|exact Hb].
  - intros p q g Hp Hq Hlp Hlq. rewrite !child_follow by done. intros Hf Hf'.
    assert (E : x :: p = x :: q); [|by injection E].
    apply (su_inj _ _ _ _ _ Hsub _ _ g); [by constructor|by constructor|simpl; lia|simpl; lia| |]; simpl; by rewrite Ec.
Qed.

Lemma child_deep g : deep (heap_at s1) c g ↔ deep h c g.
Proof.
  split; intros (m & En & i & q & Hi & Hp & Hl & Hf); exists m; (split; [done|]); exists i, q; split_and!; try done.
  - by rewrite <- child_follow by (done || (simpl; lia)).
  - by rewrite child_follow by (done || (simpl; lia)).
Qed.

Lemma child_not_deep : ¬ deep h c c.
Proof.
  intros (m & En & i & q & Hi & Hp & Hl & Hf).
  assert (E : x :: i :: q = [x]); [|done].
  apply (su_inj _ _ _ _ _ Hsub _ _ c); [by constructor|by apply Forall_singleton|simpl; lia|simpl; lia| |].
  - change (follow config h f (x :: i :: q)) with (g ← entry_table_frame (h f x) config; follow config h g (i :: q)).
    rewrite Ec. exact Hf.
  - simpl. by rewrite Ec.
Qed.
Lemma clear_child_post s2 s3 s4 l2 :
  destroyed (deep h c) c s1 s2 l1 l2 → writes_in l2 (eq f) s2 s3 → same_layout s3 s4 →
  c = Z.of_nat (Z.to_nat (c / FRAME_SIZE)) * FRAME_SIZE → fa_inv s4 (<[Z.to_nat (c / FRAME_SIZE) := Free]> l2) →
  l2 !! Z.to_nat (c / FRAME_SIZE) = Some Allocated →
  (∀ j, off_frame s3 j → kept_frame s3 s4 j) →
  destroyed (below config h n f [x]) f s1 s4 l1 (<[Z.to_nat (c / FRAME_SIZE) := Free]> l2).
Proof.
  intros D2 W3 Hl4 Ek Hfa Hkc Hk4. set (kc := Z.to_nat (c / FRAME_SIZE)) in *.
  pose proof (λ g, below_child config h n f x c g Hx Ec) as Hb.
  assert (Hc : ∀ k, frame_at k = c ↔ k = kc) by (intros k; unfold frame_at, FRAME_SIZE in *; lia).
  assert (Hkept : ∀ k, off_frame s1 k → frame_at k ≠ f → ¬ below config h n f [x] (frame_at k) → kept_frame s1 s4 k).
  { intros k Hk Hf. rewrite Hb, Hc. intros HD. pose proof (off_frame_layout _ _ _ (de_layout _ _ _ _ _ _ D2) Hk) as Hk2.
    eapply kept_frame_trans; [apply D2| |eapply kept_frame_trans; [apply W3| |apply Hk4]].
    - apply (de_off _ _ _ _ _ _ D2); [done| |tauto]. rewrite Hc. tauto.
    - apply W3. intros E. by apply Hf.
    - eapply off_frame_layout; [apply W3|done]. }
  split; [done| | | | |done].
  - etrans; [apply D2|]. etrans; [apply W3|done].
  - intros k. rewrite Hb, Hc. intros [->|Hk]; [apply list_lookup_insert_eq; by eapply lookup_lt_Some|].
    rewrite list_lookup_insert_ne; [by apply (de_freed _ _ _ _ _ _ D2)|]. intros E.
    rewrite (proj2 (Hc k) (eq_sym E)) in Hk. by apply child_not_deep.
  - intros k. rewrite Hb, Hc. intros Hk. rewrite list_lookup_insert_ne by (intros E; apply Hk; by left).
    apply (de_same _ _ _ _ _ _ D2). tauto.
  - intros k Hk. apply Hkept. eapply used_off_frame; [apply Hcl|exact Hk|done].
Qed.

Lemma child_apart : f ≠ c ∧ ¬ deep h c f ∧ below config h n f [x] c.
Proof.
  assert (Hc : below config h n f [x] c) by (by apply (child_below []); [constructor|simpl; lia|]).
  split_and!; [| |done].
  - intros Hfc. rewrite <- Hfc in Hc. by eapply (below_self config n l _ f), Hc; apply Hd.
  - intros Hdeep. eapply (below_self config n l _ f); [apply Hd|]. rewrite (below_child config h n f x c f Hx Ec). by right.
Qed.

(** The child's tables are destroyed, its entry is cleared and its frame given back. *)
Lemma clear_child why :
  ∃ s4 l4, (do! children c ;;; do! write_entry self f x PageTableEntry_null why ;;; FrameAllocator_dealloc c) s1 =
      Done (tt, s4) ∧ destroyed (below config h n f [x]) f s1 s4 l1 l4 ∧
    ∀ j, idx_ok j → j ≠ x → heap_at s4 f j = heap_at s1 f j.
Proof.
  destruct (Hchildren s1 l1 c child_destroyable) as (s2 & l2 & E2 & D2').
  pose proof (destroyed_ext _ _ _ _ _ _ _ child_deep D2') as D2. clear D2'. destruct child_apart as (Hfc & Hfd & Hbc).
  pose proof (destroyed_ok _ _ _ _ _ _ _ D2 cleared_table Hfd) as Hf2.
  assert (Hdm2 : direct_map (ms_fa s2) = pt_direct_map self)
    by (destruct (de_layout _ _ _ _ _ _ D2) as (_ & -> & _); apply cleared_dm).
  destruct (write_entry_spec self l2 s2 (heap_at s2) f x PageTableEntry_null why) as (s3 & E3 & W3 & R3);
    [apply D2|by split|done|done|unfold is_u64, PageTableEntry_null, W64; lia|].
  pose proof (subtree_self _ _ _ _ _ (da_tree _ _ _ _ child_destroyable)) as Hc1.
  pose proof (table_ok_index _ _ _ Hc1) as Ek. set (kc := Z.to_nat (c / FRAME_SIZE)) in *.
  assert (Hkc : l2 !! kc = Some Allocated).
  { rewrite (de_same _ _ _ _ _ _ D2); [apply Hc1|]. unfold frame_at. rewrite <- Ek. apply child_not_deep. }
  destruct (dealloc_contract s3 l2 kc (wi_fa _ _ _ _ W3) Hkc) as (s4 & E4 & Hfa4 & Hl4 & Hk4). rewrite <- Ek in E4.
  exists s4, (<[kc := Free]> l2). split_and!.
  - by rewrite (bind_Done _ _ _ _ _ E2), (bind_Done _ _ _ _ _ E3).
  - apply (clear_child_post s2 s3 s4 l2); try done. intros j Hj. eapply dealloc_off; [apply W3|exact Hkc| |exact Hj].
    by rewrite <- Ek.
  - intros j Hj Hne.
    assert (Hk34 : heap_at s4 f j = heap_at s3 f j).
    { eapply kept_heap; [apply R3|exact Hf2|done|]. eapply Hk4; [apply Hf2|done]. }
    rewrite Hk34, (proj2 R3) by done. rewrite hupd_ne by congruence.
    eapply destroyed_heap; [apply cleared_dm|exact D2|exact cleared_table|done|done|done].
Qed.
End child.

Lemma clear_entry : ∃ s2 l2, destroy_entry self children f x s1 = Done (tt, s2) ∧ cleared (pre ++ [x]) s2 l2.
Proof.
  unfold destroy_entry.
  assert (Hr : reads_as self l1 s1 (heap_at s1)) by (split; [apply cleared_dm|done]).
  rewrite (reads_as_table self l1 s1 _ f (de_fa _ _ _ _ _ _ (cl_post _ _ _ Hcl)) Hr cleared_table). unfold expect. mred.
  change (entry_at (ms_mem s1) (f + offset (pt_direct_map self)) x) with (heap_at s1 f x).
  rewrite (cl_entries _ _ _ Hcl x Hx Hnew). pose proof (entry_table_frame_eq config (h f x) Hcfg) as Ee.
  destruct (negb (is_present (h f x)) || is_huge (h f x)) eqn:Ep.
  - exists s1, l1. split; [done|]. split.
    + eapply destroyed_ext; [|apply Hcl]. intros g. rewrite below_snoc.
      pose proof (below_none config h n f x g Ee) as Hno. tauto.
    + intros j Hj Hjp. apply Hcl; [done|]. set_solver.
  - rewrite Ee. mred. destruct (clear_child _ Ee "page table outside direct map") as (s4 & l4 & E4 & D4 & Hj4).
    exists s4, l4. split; [exact E4|]. split.
    + eapply destroyed_ext; [|eapply destroyed_trans; [apply Hcl|exact D4|]].
      * intros g. by rewrite below_snoc.
      * intros g Hg Hg'. eapply below_apart; [apply Hd|exact Hg|exact Hnew|exact Hg'].
    + intros j Hj Hjp. rewrite Hj4 by set_solver. apply Hcl; [done|set_solver].
Qed.
End entry.

Lemma clear_entries ids :
  NoDup ids → Forall idx_ok ids →
  ∃ s' l', mfor ids (destroy_entry self children f) s = Done (tt, s') ∧ destroyed (below config h n f ids) f s s' l l'.
Proof.
  intros Hnd Hok.
  destruct (mfor_inv (λ pre s1, ∃ l1, cleared pre s1 l1) (destroy_entry self children f) ids s) as (s' & E & l' & Hcl).
  - exists l. split; [|done]. apply destroyed_refl; [apply Hd|]. intros g (i & q & Hi & _). by apply not_elem_of_nil in Hi.
  - intros pre x post s0 Eids (l0 & Hcl0). rewrite Eids in Hnd, Hok. apply Forall_app in Hok as [_ Hok].
    destruct (clear_entry pre x (Forall_inv Hok)) with (s1 := s0) (l1 := l0) as (s2 & l2 & E2 & Hcl2); [|done|].
    + intros Hx. apply NoDup_app in Hnd as (_ & Hnd & _). by apply (Hnd x Hx); left.
    + exists s2. split; [done|by exists l2].
  - exists s', l'. split; [done|apply Hcl].
Qed.
End loop.

Lemma NoDup_range a b : NoDup (range a b).
Proof. apply NoDup_seqZ. Qed.

(** [destroy_children] frees every table below [f]. *)
Lemma destroy_children_spec lvls f s l :
  destroyable (length lvls) s l f →
  ∃ s' l', destroy_children self lvls f s = Done (tt, s') ∧
    destroyed (λ g, ∃ m, length lvls = S m ∧ below config (heap_at s) m f (range 0 PAGE_TABLE_ENTRIES) g) f s s' l l'.
Proof.
  revert f s l. induction lvls as [|lv lvls IH]; intros f s l Hd.
  - exists s, l. split; [done|]. apply destroyed_refl; [apply Hd|]. by intros g (m & ? & _).
  - cbn [length destroy_children] in *.
    destruct (clear_entries (length lvls) (destroy_children self lvls)
      (λ s l c, IH c s l) f s l Hd (range 0 PAGE_TABLE_ENTRIES)) as (s' & l' & E & HD).
    + apply NoDup_range.
    + apply Forall_forall. intros i Hi%elem_of_range. done.
    + exists s', l'. split; [exact E|]. eapply destroyed_ext; [|exact HD]. intros g. split.
      * intros Hg. by exists (length lvls).
      * intros (m & [= ->] & Hg). done.
Qed.
End destroy.

(** ** The whole of a page table *)

(** [f] is a table below the lower half of the root. *)
Definition user_table (self : PageTable) (m : memory) (f : FrameAddr) : Prop :=
  ∃ i q, Forall idx_ok (i :: q) ∧ (length (i :: q) ≤ length (levels self))%nat ∧ i < 256 ∧
    follow (pt_config self) (heap_of self m) (pt_frame self) (i :: q) = Some f.

Lemma levels_cons self : ∃ n, length (levels self) = S n ∧ length (drop 1 (levels self)) = n.
Proof. unfold levels, intermediate_levels. destruct (mode _); simpl; eauto. Qed.

Lemma below_user self m n f :
  length (levels self) = S n →
  below (pt_config self) (heap_of self m) n (pt_frame self) (range 0 256) f ↔ user_table self m f.
Proof.
  intros Hn. unfold below, user_table. split; intros (i & q & H1 & H2 & H3 & H4); exists i, q; split_and!; try done.
  - simpl. lia.
  - apply elem_of_range in H1. lia.
  - apply elem_of_range. pose proof (Forall_inv H1) as [? _]. lia.
  - simpl in H2. lia.
Qed.

Lemma below_own self m n f :
  length (levels self) = S n →
  below (pt_config self) (heap_of self m) n (pt_frame self) (range 0 PAGE_TABLE_ENTRIES) f ∨ f = pt_frame self ↔
  own_table self m f.
Proof.
  intros Hn. unfold below, own_table. split.
  - intros [(i & q & _ & Hp & Hl & Hf)| ->]; [exists (i :: q); split_and!; [done|simpl; lia|done]|].
    exists []. split_and!; [constructor|simpl; lia|done].
  - intros ([|i q] & Hp & Hl & Hf); [right; simpl in Hf; congruence|left]. exists i, q.
    simpl in Hl. split_and!; [|done|lia|done]. apply elem_of_range. by apply Forall_inv in Hp.
Qed.

(** Freeing the root as well. *)
Lemma destroyed_root D self s s' l l' :
  table_ok (pt_config self) l (pt_frame self) → ¬ D (pt_frame self) → destroyed D (pt_frame self) s s' l l' →
  ∃ s2 l2, FrameAllocator_dealloc (pt_frame self) s' = Done (tt, s2) ∧
    destroyed (λ g, D g ∨ g = pt_frame self) (pt_frame self) s s2 l l2.
Proof.
  intros Hok Hno [D1 D2 D3 D4 D5 D6]. pose proof (table_ok_index _ _ _ Hok) as Ek.
  set (kr := Z.to_nat (pt_frame self / FRAME_SIZE)) in *.
  assert (Hc : ∀ k, frame_at k = pt_frame self ↔ k = kr) by (intros k; unfold frame_at, FRAME_SIZE in *; lia).
  assert (Hk : l' !! kr = Some Allocated).
  { rewrite D4; [apply Hok|]. by rewrite (proj2 (Hc kr) eq_refl). }
  destruct (dealloc_contract s' l' kr D1 Hk) as (s2 & E & Hfa & Hl & Hkept).
  pose proof (dealloc_off s' l' kr s2 D1 Hk E) as Hoff. rewrite <- Ek in E.
  exists s2, (<[kr := Free]> l'). split; [done|]. split; [done|by etrans| | | |].
  - intros k. rewrite Hc. intros [H| ->]; [|apply list_lookup_insert_eq; by eapply lookup_lt_Some].
    rewrite list_lookup_insert_ne; [by apply D3|]. intros E'. rewrite (proj2 (Hc k) (eq_sym E')) in H. done.
  - intros k. rewrite Hc. intros H. rewrite list_lookup_insert_ne by (intros E'; apply H; by right). apply D4. tauto.
  - intros k Hka Hf H. eapply kept_frame_trans; [done|apply D5; tauto|]. apply (Hkept k Allocated); [rewrite D4; [done|tauto]|done].
  - intros k Hk' Hf H. eapply kept_frame_trans; [done|apply D6; tauto|]. apply Hoff. by eapply off_frame_layout.
Qed.

Section whole.
Context (self : PageTable) (s : MState) (l : list FrameState) (Hinv : pt_inv self s l).
Context (Hna : active_root self s = false).

Lemma root_destroyable : destroyable self (length (levels self)) s l (pt_frame self).
Proof. split; [apply Hinv|apply Hinv|]. apply subtree_of_tree, Hinv. Qed.

Lemma destroy_user_spec :
  ∃ s' l', PageTable_destroy_user self s = Done (tt, s') ∧
    destroyed (λ g, user_table self (ms_mem s) g ∨ g = pt_frame self) (pt_frame self) s s' l l'.
Proof.
  pose proof (pi_config _ _ _ Hinv) as Hcfg. destruct (levels_cons self) as (n & Hn & Hn').
  pose proof root_destroyable as Hd. rewrite Hn in Hd.
  destruct (clear_entries self Hcfg n (destroy_children self (drop 1 (levels self)))
    ltac:(rewrite <- Hn'; intros s0 l0 c; by apply destroy_children_spec) (pt_frame self) s l Hd (range 0 256))
    as (s1 & l1 & E1 & D1).
  { apply NoDup_range. } { apply Forall_forall. intros i Hi%elem_of_range. unfold idx_ok, PAGE_TABLE_ENTRIES. lia. }
  destruct (destroyed_root _ self s s1 l l1 (subtree_self _ _ _ _ _ (da_tree _ _ _ _ _ Hd))
    (below_self _ _ _ _ _ _ (da_tree _ _ _ _ _ Hd)) D1) as (s2 & l2 & E2 & D2).
  exists s2, l2. split.
  - unfold PageTable_destroy_user. rewrite (bind_Done _ _ _ _ _ (is_active_spec self s Hcfg)), Hna. cbn [negb massert]. mred.
    by rewrite (bind_Done _ _ _ _ _ E1).
  - eapply destroyed_ext; [|exact D2]. intros g. simpl. by rewrite (below_user self (ms_mem s) n).
Qed.

Lemma destroy_spec :
  ∃ s' l', PageTable_destroy self s = Done (tt, s') ∧
    destroyed (own_table self (ms_mem s)) (pt_frame self) s s' l l'.
Proof.
  pose proof (pi_config _ _ _ Hinv) as Hcfg. destruct (levels_cons self) as (n & Hn & _). pose proof root_destroyable as Hd.
  destruct (destroy_children_spec self Hcfg (levels self) (pt_frame self) s l Hd) as (s1 & l1 & E1 & D1).
  rewrite Hn in Hd.
  edestruct destroyed_root as (s2 & l2 & E2 & D2); [exact (subtree_self _ _ _ _ _ (da_tree _ _ _ _ _ Hd))| |exact D1|].
  { intros (m & Em & Hb). rewrite Hn in Em. injection Em as <-. by eapply below_self, Hb; apply Hd. }
  exists s2, l2. split.
  - unfold PageTable_destroy. rewrite (bind_Done _ _ _ _ _ (is_active_spec self s Hcfg)), Hna. cbn [negb massert]. mred.
    by rewrite (bind_Done _ _ _ _ _ E1).
  - eapply destroyed_ext; [|exact D2]. intros g. simpl. rewrite <- (below_own self (ms_mem s) n) by done.
    split; (intros [H|H]; [left|by right]); [|by exists n]. destruct H as (m & Em & Hb). rewrite Hn in Em. by injection Em as <-.
Qed.
End whole.

(** The tables that belong to an address space alone. *)
Definition doomed (self : AddressSpace) (m : memory) (f : FrameAddr) : Prop :=
  match kind self with
  | Kernel => own_table (root self) m f
  | User => user_table (root self) m f ∨ f = pt_frame (root self)
  end.

Lemma space_destroy_spec self s l :
  pt_inv (root self) s l → active_root (root self) s = false →
  ∃ s' l', AddressSpace_destroy self s = Done (tt, s') ∧
    destroyed (doomed self (ms_mem s)) (pt_frame (root self)) s s' l l'.
Proof.
  intros Hinv Hna. unfold AddressSpace_destroy, doomed. destruct (kind self); [by apply destroy_spec|by apply destroy_user_spec].
Qed.

(** * Theorems *)

(** C18: Destroying an address space that the processor does not use always ends.  It frees the frames
    of exactly the tables that belong to it, for a user space those of the lower half and the
    root, each once; every other frame keeps its state, and every other allocated frame its
    contents, the tables of the kernel half that other spaces share included.  The space in use is
    refused by a panic. *)
Theorem destroy_correct (self : AddressSpace) (s : MState) (l : list FrameState) :
  pt_inv (root self) s l →
  if active_root (root self) s
  then AddressSpace_destroy self s = Panic "attempted to destroy active page table"
  else ∃ s' l', AddressSpace_destroy self s = Done (tt, s') ∧
    destroyed (doomed self (ms_mem s)) (pt_frame (root self)) s s' l l'.
Proof.
  intros Hinv. destruct (active_root (root self) s) eqn:Ha; [|by apply space_destroy_spec].
  unfold AddressSpace_destroy, PageTable_destroy, PageTable_destroy_user.
  by destruct (kind self); rewrite (bind_Done _ _ _ _ _ (is_active_spec _ s (pi_config _ _ _ Hinv))), Ha.
Qed.

(** The tables of a space in which one page is mapped: the root and one of each level. *)
Lemma destroy_correct_witness :
  ∃ s' l', AddressSpace_destroy (demo_space User) demo_mapped_state = Done (tt, s') ∧ fa_inv s' l' ∧
    l' !! 2%nat = Some Free.
Proof.
  destruct demo_mapped as [l Hl]. pose proof (destroy_correct (demo_space User) demo_mapped_state l Hl) as H.
  assert (Ha : active_root (root (demo_space User)) demo_mapped_state = false) by (vm_compute; reflexivity).
  rewrite Ha in H. destruct H as (s' & l' & E & HD). exists s', l'. split; [exact E|]. split; [exact (de_fa _ _ _ _ _ _ HD)|].
  apply (de_freed _ _ _ _ _ _ HD). right. reflexivity.
Defined.
