(* ===== verification/Ring.v ===== *)
(** * Ring buffers and bounded queues

    The kernel keeps two ring buffers, the mailbox of a thread and the ready queue of the
    scheduler.  This file has the representation relation between such a buffer and the list
    of its elements, and the interface [Fifo] both implement: what their clients rely on. *)

From S2P Require Import Prelude.

(** ** Ring buffers *)

Section ring.
Context {A : Type} (N : Z).
Implicit Types (entries : list A) (q : list A).

(** The [i]-th element of the queue is at index [(head + i) % N]. *)
Record ring_rep entries (head len : Z) q : Prop := {
  rr_entries : Z.of_nat (length entries) = N;
  rr_head : 0 ≤ head < N;
  rr_len : len = Z.of_nat (length q);
  rr_cap : len ≤ N;
  rr_elem : ∀ i x, 0 ≤ i → zget q i = Some x → zget entries ((head + i) mod N) = Some x;
}.

Lemma ring_index_inj head i j :
  0 ≤ i < N → 0 ≤ j < N → (head + i) mod N = (head + j) mod N → i = j.
Proof.
  intros Hi Hj E. assert (HN : 0 < N) by lia.
  pose proof (Z.div_mod (head + i) N ltac:(lia)). pose proof (Z.div_mod (head + j) N ltac:(lia)).
  assert ((head + i) / N = (head + j) / N); nia.
Qed.

Lemma ring_index_range head i : 0 < N → 0 ≤ (head + i) mod N < N.
Proof. intros. by apply Z.mod_pos_bound. Qed.

Lemma ring_rep_nil entries : Z.of_nat (length entries) = N → 0 < N → ring_rep entries 0 0 [].
Proof. intros. split; try done; try lia. intros i x Hi. by rewrite zget_lookup. Qed.

Lemma zget_app q x i :
  0 ≤ i → zget (q ++ [x]) i = if decide (i = Z.of_nat (length q)) then Some x else zget q i.
Proof.
  intros Hi. rewrite !zget_lookup by done. case_decide as H.
  - subst. by rewrite Nat2Z.id, list_lookup_middle.
  - rewrite lookup_app. destruct (q !! Z.to_nat i) eqn:E; [done|].
    apply lookup_ge_None in E. apply lookup_ge_None. simpl. lia.
Qed.

Lemma ring_push entries head len q x :
  ring_rep entries head len q → len < N →
  ring_rep (zset entries ((head + len) mod N) x) head (len + 1) (q ++ [x]).
Proof.
  intros [H1 H2 H3 H4 H5] Hlt. split; rewrite ?length_zset, ?length_app; simpl; try lia.
  intros i y Hi. rewrite zget_app by done. case_decide as Hl.
  - intros [= <-]. rewrite <- H3 in Hl. subst i. apply zget_zset_eq. rewrite H1.
    apply ring_index_range. lia.
  - intros E. rewrite zget_zset_ne; [by apply H5|]. intros Heq.
    apply zget_Some_lt in E as Hb. apply ring_index_inj in Heq; lia.
Qed.

Lemma ring_pop entries head len x q :
  ring_rep entries head len (x :: q) →
  zget entries head = Some x ∧ ring_rep entries ((head + 1) mod N) (len - 1) q.
Proof.
  intros [H1 H2 H3 H4 H5]. simpl in H3. split.
  - specialize (H5 0 x ltac:(lia) eq_refl). by rewrite Z.add_0_r, Z.mod_small in H5 by lia.
  - split; try lia; [apply ring_index_range; lia|]. intros i y Hi E.
    rewrite Z.add_mod_idemp_l by lia. replace (head + 1 + i) with (head + (i + 1)) by lia.
    apply H5; [lia|]. rewrite zget_lookup in * by lia.
    replace (Z.to_nat (i + 1)) with (S (Z.to_nat i)) by lia. done.
Qed.

(** Moving element [j + 1] to place [j]. *)
Lemma ring_move entries head len q j x :
  ring_rep entries head len q → 0 ≤ j < len →
  ring_rep (zset entries ((head + j) mod N) x) head len (zset q j x).
Proof.
  intros [H1 H2 H3 H4 H5] Hj. split; rewrite ?length_zset; try done.
  intros i y Hi. rewrite zget_zset by lia. case_decide as E.
  - subst j. intros [= ->]. apply zget_zset_eq. rewrite H1. apply ring_index_range. lia.
  - intros Eq. rewrite zget_zset_ne; [by apply H5|]. intros Heq. apply zget_Some_lt in Eq as Hb.
    apply ring_index_inj in Heq; lia.
Qed.

Lemma ring_drop_last entries head len q x :
  ring_rep entries head len (q ++ [x]) → ring_rep entries head (len - 1) q.
Proof.
  intros [H1 H2 H3 H4 H5]. rewrite length_app in H3. simpl in H3. split; try done; try lia.
  intros i y Hi E. apply H5; [done|]. rewrite zget_app by done. case_decide as Hl; [|done].
  apply zget_Some_lt in E. lia.
Qed.

End ring.

(** ** Bounded queues *)

(** What a bounded queue promises: its operations never panic and act on the list of its
    elements, oldest first. *)
Class Fifo (Q X : Type) := {
  fifo_rep : Q → list X → Prop;
  fifo_capacity : Z;
  fifo_push : X → M Q bool;
  fifo_pop : M Q (option X);
  fifo_bound q l : fifo_rep q l → Z.of_nat (length l) ≤ fifo_capacity;
  fifo_push_full q l x : fifo_rep q l → Z.of_nat (length l) = fifo_capacity →
    fifo_push x q = Done (false, q);
  fifo_push_ok q l x : fifo_rep q l → Z.of_nat (length l) < fifo_capacity →
    ∃ q', fifo_push x q = Done (true, q') ∧ fifo_rep q' (l ++ [x]);
  fifo_pop_nil q : fifo_rep q [] → fifo_pop q = Done (None, q);
  fifo_pop_cons q x l : fifo_rep q (x :: l) →
    ∃ q', fifo_pop q = Done (Some x, q') ∧ fifo_rep q' l;
}.

Inductive fifo_op (X : Type) := Push (x : X) | Pop.
Arguments Push {X} x.
Arguments Pop {X}.

Inductive fifo_answer (X : Type) := Pushed (b : bool) | Popped (o : option X).
Arguments Pushed {X} b.
Arguments Popped {X} o.

Section fifo.
Context {Q X : Type} {F : Fifo Q X}.

Definition fifo_do (op : fifo_op X) : M Q (fifo_answer X) :=
  match op with
  | Push x => let! b := fifo_push x in ret (Pushed b)
  | Pop => let! o := fifo_pop in ret (Popped o)
  end.

Fixpoint fifo_run (ops : list (fifo_op X)) : M Q (list (fifo_answer X)) :=
  match ops with
  | [] => ret []
  | op :: ops => let! a := fifo_do op in let! rest := fifo_run ops in ret (a :: rest)
  end.

(** The specification: a list with at most [cap] elements. *)
Definition queue_do (cap : Z) (op : fifo_op X) (l : list X) : fifo_answer X * list X :=
  match op, l with
  | Push x, _ => if Z.of_nat (length l) <? cap then (Pushed true, l ++ [x]) else (Pushed false, l)
  | Pop, [] => (Popped None, [])
  | Pop, x :: l => (Popped (Some x), l)
  end.

Fixpoint queue_run (cap : Z) (ops : list (fifo_op X)) (l : list X) : list (fifo_answer X) * list X :=
  match ops with
  | [] => ([], l)
  | op :: ops =>
      let '(a, l1) := queue_do cap op l in
      let '(rest, l2) := queue_run cap ops l1 in (a :: rest, l2)
  end.

Lemma fifo_do_spec op q l :
  fifo_rep q l → ∃ q', fifo_do op q = Done ((queue_do fifo_capacity op l).1, q') ∧
    fifo_rep q' (queue_do fifo_capacity op l).2.
Proof.
  intros H. destruct op as [x|]; simpl.
  - destruct (Z.ltb_spec (Z.of_nat (length l)) fifo_capacity) as [Hlt|Hge].
    + destruct (fifo_push_ok q l x H Hlt) as (q' & E & H'). exists q'. by rewrite (bind_Done _ _ _ _ _ E).
    + pose proof (fifo_bound q l H). exists q.
      by rewrite (bind_Done _ _ _ _ _ (fifo_push_full q l x H ltac:(lia))).
  - destruct l as [|x l].
    + exists q. by rewrite (bind_Done _ _ _ _ _ (fifo_pop_nil q H)).
    + destruct (fifo_pop_cons q x l H) as (q' & E & H'). exists q'. by rewrite (bind_Done _ _ _ _ _ E).
Qed.

Lemma fifo_run_spec ops q l :
  fifo_rep q l → ∃ q', fifo_run ops q = Done ((queue_run fifo_capacity ops l).1, q') ∧
    fifo_rep q' (queue_run fifo_capacity ops l).2.
Proof.
  revert q l. induction ops as [|op ops IH]; intros q l H; simpl; [by exists q|].
  destruct (fifo_do_spec op q l H) as (q1 & E1 & H1).
  destruct (queue_do fifo_capacity op l) as [a l1]. simpl in *.
  destruct (IH q1 l1 H1) as (q2 & E2 & H2). destruct (queue_run fifo_capacity ops l1) as [rest l2].
  exists q2. by rewrite (bind_Done _ _ _ _ _ E1), (bind_Done _ _ _ _ _ E2).
Qed.

End fifo.
