(* ===== verification/Tcb.v ===== *)
(** * Thread control blocks

    Model of [src/task/tcb.rs]: thread states, the mailbox, handles with their rights, the
    handle table and the control block itself. *)

From S2P Require Import Prelude Memory Bytes Frame Paging PageTree PageMap AddressSpace VirtMem Stack Ring.

Abbreviation TaskId := Z (only parsing).

Inductive Fault := SegmentationFault | IllegalInstruction | FaultAbort | BadSystemCall.

Inductive ExitReason := Exited (code : usize) | Killed | Faulted (fault : Fault).

Inductive BlockReason := BlockRecv.

Inductive ThreadState :=
| Ready
| Running
| Blocked (reason : BlockReason)
| Dead (reason : ExitReason).

#[export] Instance Fault_eq_dec : EqDecision Fault.
Proof. solve_decision. Defined.
#[export] Instance ExitReason_eq_dec : EqDecision ExitReason.
Proof. solve_decision. Defined.
#[export] Instance BlockReason_eq_dec : EqDecision BlockReason.
Proof. solve_decision. Defined.
#[export] Instance ThreadState_eq_dec : EqDecision ThreadState.
Proof. solve_decision. Defined.

(** ** Messages and the mailbox *)

Definition MAX_MSG_SIZE : usize := 128.
Definition MAILBOX_CAPACITY : usize := 4.

Record Message := mkMessage {
  sender : TaskId;
  msg_length : usize;
  msg_data : list Z;
}.

Record Mailbox := mkMailbox {
  messages : list (option Message);
  mb_head : usize;
  mb_len : usize;
}.

Definition Mailbox_new : Mailbox :=
  mkMailbox (replicate (Z.to_nat MAILBOX_CAPACITY) None) 0 0.

Definition Mailbox_pop : M Mailbox (option Message) :=
  let! self := get in
  if mb_len self =? 0 then ret None
  else
    let! msg := expect (zget (messages self) (mb_head self)) "index out of bounds" in
    let! next := uadd (mb_head self) 1 in
    let! len := usub (mb_len self) 1 in
    do! put (mkMailbox (messages self) (next mod MAILBOX_CAPACITY) len) ;;;
    ret msg.

Definition Mailbox_push (msg : Message) : M Mailbox bool :=
  let! self := get in
  if mb_len self =? MAILBOX_CAPACITY then ret false
  else
    let! end_ := uadd (mb_head self) (mb_len self) in
    let tail := end_ mod MAILBOX_CAPACITY in
    do! massert (tail <? Z.of_nat (length (messages self))) "index out of bounds" ;;;
    let! len := uadd (mb_len self) 1 in
    do! put (mkMailbox (zset (messages self) tail (Some msg)) (mb_head self) len) ;;;
    ret true.

(** ** Handles *)

Definition MAX_HANDLES : usize := 32.

(** An [OwnedFrame] is known by its frame address. *)
Inductive KernelObject :=
| ObjAddressSpace (id : AddressSpaceId)
| ObjFrame (frame : FrameAddr)
| ObjMapping (frame : FrameAddr) (address_space : AddressSpaceId) (virtual_addr : VirtualAddr)
| ObjThread (id : TaskId).

Abbreviation Rights := Z (only parsing).
Definition RIGHT_READ : Rights := Z.shiftl 1 0.
Definition RIGHT_WRITE : Rights := Z.shiftl 1 1.
Definition RIGHT_EXECUTE : Rights := Z.shiftl 1 2.
Definition RIGHT_MAP : Rights := Z.shiftl 1 3.
Definition Rights_bitor (self rhs : Rights) : Rights := Z.lor self rhs.

Record Handle := mkHandle { object : KernelObject; rights : Rights }.

Record HandleTable := mkHandleTable { handles : list (option Handle) }.

Definition HandleTable_new : HandleTable :=
  mkHandleTable (replicate (Z.to_nat MAX_HANDLES) None).

Definition HandleTable_push (handle : Handle) : M HandleTable (result usize Handle) :=
  let! self := get in
  match position_none (handles self) with
  | Some i =>
      do! put (mkHandleTable (zset (handles self) i (Some handle))) ;;;
      ret (Ok i)
  | None => ret (Err handle)
  end.

Definition HandleTable_remove (id : usize) : M HandleTable (option Handle) :=
  let! self := get in
  match zget (handles self) id with
  | Some slot =>
      do! put (mkHandleTable (zset (handles self) id None)) ;;;
      ret slot
  | None => ret None
  end.

Definition HandleTable_take (id : usize) : M HandleTable (option Handle) :=
  let! self := get in
  match zget (handles self) id with
  | None => ret None
  | Some slot =>
      do! put (mkHandleTable (zset (handles self) id None)) ;;;
      ret slot
  end.

Definition HandleTable_put (id : usize) (handle : Handle) : M HandleTable (result unit Handle) :=
  let! self := get in
  match zget (handles self) id with
  | None => ret (Err handle)
  | Some (Some _) => ret (Err handle)
  | Some None =>
      do! put (mkHandleTable (zset (handles self) id (Some handle))) ;;;
      ret (Ok tt)
  end.

Definition HandleTable_get (self : HandleTable) (id : usize) : option Handle :=
  zget (handles self) id ≫= λ slot, slot.

(** ** The control block *)

Record ThreadContext := mkThreadContext { rsp : usize }.

Definition ThreadContext_empty : ThreadContext := mkThreadContext 0.

(** The words below the top of the stack of a thread that has not run yet, lowest first:
    r15, r14, r13, r12, rbx, rbp and the return address. *)
Definition initial_frame (user_entry user_stack user_thread_entry : Z) : list Z :=
  [0; 0; 0; user_entry; user_stack; 0; user_thread_entry].

(** [stack_ptr.add(i).write(word)] for consecutive words. *)
Fixpoint write_words (cpu : PageTable) (stack_ptr : VirtualAddr) (words : list Z) : M MState unit :=
  match words with
  | [] => ret tt
  | w :: words => do! vstore64 cpu stack_ptr w ;;; write_words cpu (stack_ptr + 8) words
  end.

(** [user_thread_entry] is the address of the function of that name. *)
Definition ThreadContext_new (cpu : PageTable) (user_thread_entry : Z)
    (user_entry user_stack kernel_stack_top : VirtualAddr) : M MState ThreadContext :=
  let! stack_ptr := usub kernel_stack_top 56 in
  do! write_words cpu stack_ptr (initial_frame user_entry user_stack user_thread_entry) ;;;
  let! rsp := usub kernel_stack_top 56 in
  ret (mkThreadContext rsp).

Record Tcb := mkTcb {
  tcb_id : TaskId;
  as_id : AddressSpaceId;
  state : ThreadState;
  kernel_stack : KernelStack;
  context : ThreadContext;
  mailbox : Mailbox;
  tcb_handles : HandleTable;
}.

Definition set_state (st : ThreadState) (t : Tcb) : Tcb :=
  mkTcb (tcb_id t) (as_id t) st (kernel_stack t) (context t) (mailbox t) (tcb_handles t).
Definition set_mailbox (mb : Mailbox) (t : Tcb) : Tcb :=
  mkTcb (tcb_id t) (as_id t) (state t) (kernel_stack t) (context t) mb (tcb_handles t).
Definition set_handles (h : HandleTable) (t : Tcb) : Tcb :=
  mkTcb (tcb_id t) (as_id t) (state t) (kernel_stack t) (context t) (mailbox t) h.

(** Run a method of a part of the state. *)
Definition on_part {S T A} (part : S → T) (upd : T → S → S) (c : M T A) : M S A := λ s,
  match c (part s) with
  | Done (a, t) => Done (a, upd t s)
  | Panic w => Panic w
  | Halt => Halt
  end.

(** Run a method of a local variable, returning its new value. *)
Definition on_local {S T A} (t : T) (c : M T A) : M S (A * T) := λ s,
  match c t with
  | Done (a, t') => Done ((a, t'), s)
  | Panic w => Panic w
  | Halt => Halt
  end.

Definition Tcb_new_user (cpu : PageTable) (user_thread_entry : Z) (as_id : AddressSpaceId)
    (kernel_stack : KernelStack) (entry user_stack : VirtualAddr) : M MState Tcb :=
  let! context := ThreadContext_new cpu user_thread_entry entry user_stack
                    (KernelStack_top kernel_stack) in
  let! r := on_local HandleTable_new
              (HandleTable_push
                 (mkHandle (ObjAddressSpace as_id)
                    (Rights_bitor (Rights_bitor RIGHT_READ RIGHT_WRITE) RIGHT_EXECUTE))) in
  match r with
  | (Ok _, handles) => ret (mkTcb 0 as_id Ready kernel_stack context Mailbox_new handles)
  | (Err _, _) => panic "internal error: entered unreachable code: Cant push root address space handle"
  end.

(** * Lemmas *)

(** ** The mailbox is a bounded queue *)

Definition mailbox_rep (mb : Mailbox) (l : list Message) : Prop :=
  ring_rep MAILBOX_CAPACITY (messages mb) (mb_head mb) (mb_len mb) (Some <$> l).

Lemma mailbox_new_rep : mailbox_rep Mailbox_new [].
Proof. by apply ring_rep_nil. Qed.

Lemma mailbox_push_full mb l m :
  mailbox_rep mb l → Z.of_nat (length l) = MAILBOX_CAPACITY → Mailbox_push m mb = Done (false, mb).
Proof.
  intros [_ _ H3 _ _] Hl. rewrite length_fmap in H3. unfold Mailbox_push. mred.
  by rewrite (proj2 (Z.eqb_eq _ _)) by lia.
Qed.

Lemma mailbox_push_ok mb l m :
  mailbox_rep mb l → Z.of_nat (length l) < MAILBOX_CAPACITY →
  ∃ mb', Mailbox_push m mb = Done (true, mb') ∧ mailbox_rep mb' (l ++ [m]).
Proof.
  intros H Hl. pose proof H as [H1 H2 H3 H4 _]. rewrite length_fmap in H3.
  unfold MAILBOX_CAPACITY in *. eexists. split.
  - unfold Mailbox_push, MAILBOX_CAPACITY. mred. rewrite (proj2 (Z.eqb_neq _ _)) by lia. mstep uadd_lt.
    unfold massert. rewrite (proj2 (Z.ltb_lt _ _)) by (rewrite H1; by apply Z.mod_pos_bound).
    mred. mstep uadd_lt. by mred.
  - unfold mailbox_rep, MAILBOX_CAPACITY. simpl. rewrite fmap_app. apply ring_push; [done|lia].
Qed.

Lemma mailbox_pop_nil mb : mailbox_rep mb [] → Mailbox_pop mb = Done (None, mb).
Proof. intros [_ _ H3 _ _]. unfold Mailbox_pop. mred. by rewrite H3. Qed.

Lemma mailbox_pop_cons mb m l :
  mailbox_rep mb (m :: l) →
  ∃ mb', Mailbox_pop mb = Done (Some m, mb') ∧ mailbox_rep mb' l.
Proof.
  intros H. pose proof H as [H1 H2 H3 H4 _]. simpl in H3. unfold mailbox_rep in H. simpl in H.
  apply ring_pop in H as [E H]. unfold MAILBOX_CAPACITY in *. eexists. split.
  - unfold Mailbox_pop. mred. rewrite (proj2 (Z.eqb_neq _ _)) by lia. rewrite E. simpl. mred.
    mstep uadd_lt. mstep usub_le. by mred.
  - exact H.
Qed.

#[export] Program Instance mailbox_fifo_instance : Fifo Mailbox Message := {|
  fifo_rep := mailbox_rep;
  fifo_capacity := MAILBOX_CAPACITY;
  fifo_push := Mailbox_push;
  fifo_pop := Mailbox_pop;
  fifo_push_full := mailbox_push_full;
  fifo_push_ok := mailbox_push_ok;
  fifo_pop_nil := mailbox_pop_nil;
  fifo_pop_cons := mailbox_pop_cons;
|}.
Next Obligation. intros mb l [_ _ H3 H4 _]. rewrite length_fmap in H3. lia. Qed.

(** ** The first frame of a thread *)

Definition words_bytes (words : list Z) : list Z := words ≫= le_bytes 8.

Lemma vstore_bytes_app cpu b1 b2 va s :
  vstore_bytes cpu (b1 ++ b2) va s =
  (do! vstore_bytes cpu b1 va ;;; vstore_bytes cpu b2 (va + Z.of_nat (length b1))) s.
Proof.
  revert va s. induction b1 as [|b b1 IH]; intros va s; simpl.
  { by rewrite Z.add_0_r. }
  rewrite bind_assoc. apply bind_ext. intros _ s1. rewrite IH. by replace (va + 1 + Z.of_nat (length b1)) with (va + Z.of_nat (S (length b1))) by lia.
Qed.

Lemma write_words_bytes cpu words va s :
  write_words cpu va words s = vstore_bytes cpu (words_bytes words) va s.
Proof.
  revert va s. induction words as [|w words IH]; intros va s; [done|].
  change (words_bytes (w :: words)) with (le_bytes 8 w ++ words_bytes words).
  rewrite vstore_bytes_app, length_le_bytes. simpl write_words. apply bind_ext.
  intros _ s1. apply IH.
Qed.

Lemma length_words_bytes words : length (words_bytes words) = (8 * length words)%nat.
Proof.
  induction words as [|w words IH]; [done|].
  change (words_bytes (w :: words)) with (le_bytes 8 w ++ words_bytes words).
  rewrite length_app, IH, length_le_bytes. simpl. lia.
Qed.

Lemma lookup_words_bytes words (i j : nat) w :
  words !! i = Some w → (j < 8)%nat → words_bytes words !! (8 * i + j)%nat = le_bytes 8 w !! j.
Proof.
  revert i. induction words as [|w' words IH]; intros i Hi Hj; [done|].
  change (words_bytes (w' :: words)) with (le_bytes 8 w' ++ words_bytes words).
  destruct i as [|i].
  - injection Hi as ->. rewrite lookup_app_l by (rewrite length_le_bytes; lia). done.
  - rewrite lookup_app_r by (rewrite length_le_bytes; lia). rewrite length_le_bytes, <- (IH i) by done.
    f_equal. lia.
Qed.

(** A page of a stack, as the CPU sees it. *)
Record stack_page (cpu : PageTable) (s : MState) (l : list FrameState) (page : VirtualAddr)
    (k : nat) : Prop := {
  sp_inv : pt_inv cpu s l;
  sp_range : 0 ≤ page ∧ page + PAGE_SIZE ≤ W64 ∧ page mod PAGE_SIZE = 0;
  sp_maps : ∃ perms, writable perms = true ∧ maps_page cpu (ms_mem s) page (frame_at k) perms;
  sp_frame : l !! k = Some Allocated ∧ ¬ own_table cpu (ms_mem s) (frame_at k);
}.

Lemma stack_page_data cpu s l page k va :
  stack_page cpu s l page k → page ≤ va < page + PAGE_SIZE →
  data_at cpu l s va k ∧ vwritable cpu (ms_mem s) va = true.
Proof.
  intros [Hinv (H0 & H1 & H2) (perms & Hw & Hm) (Hk & Hn)] Hva.
  destruct (Hm va) as [Hp Hmap]; [ulia|unfold PAGE_SIZE in *; dmlia|].
  split; [split_and!; [done|by left|done]|]. unfold vwritable. by rewrite Hmap.
Qed.

Lemma stack_page_cell cpu s l page k va :
  stack_page cpu s l page k → page ≤ va < page + PAGE_SIZE →
  data_cell cpu va k = frame_at k + (va - page) + offset (pt_direct_map cpu).
Proof.
  intros [_ (H0 & H1 & H2) _ _] Hva. unfold data_cell, PAGE_SIZE in *.
  replace (va mod 4096) with (va - page) by dmlia. lia.
Qed.

(** Storing words in a page of a stack and reading one of them back. *)
Lemma stack_words_spec cpu s l page k words va :
  stack_page cpu s l page k → page ≤ va → va + 8 * Z.of_nat (length words) ≤ page + PAGE_SIZE →
  ∃ s', write_words cpu va words s = Done (tt, s') ∧
    vstored cpu l (λ _, k) (words_bytes words) va s s' ∧
    ∀ i w, words !! i = Some w → is_u64 w →
      vload64 cpu (va + 8 * Z.of_nat i) s' = Done (w, s').
Proof.
  intros Hp Hlo Hhi. pose proof (length_words_bytes words) as Hlen.
  destruct (vstore_bytes_spec cpu l (λ _, k) (words_bytes words) va s) as (s' & E & V); [apply Hp| |].
  { intros i Hi. apply (stack_page_data cpu s l page k); [done|]. lia. }
  exists s'. rewrite write_words_bytes. split_and!; [done|done|]. intros i w Hi Hw.
  assert (Hb : (i < length words)%nat) by by eapply lookup_lt_Some.
  destruct V as [V1 V2 V3 V4 V5 V6].
  destruct (vload_bytes_spec cpu l s' (λ _, k) 8 (va + 8 * Z.of_nat i) V1) as (bytes & E' & Hl & Hbytes).
  { intros j Hj. eapply data_at_same; [apply V2|exact V3|exact V4|].
    apply (stack_page_data cpu s l page k); [done|]. lia. }
  unfold vload64. rewrite (bind_Done _ _ _ _ _ E'). unfold ret. do 2 f_equal.
  rewrite <- (of_le_bytes_le_bytes 8 w) by exact Hw. f_equal.
  apply list_eq_same_length with 8%nat; [by rewrite length_le_bytes|done|].
  intros j x y Hj Hx Hy. specialize (Hbytes (Z.of_nat j) x).
  rewrite zget_lookup, Nat2Z.id in Hbytes by lia. rewrite (Hbytes Hx). rewrite <- Z.add_assoc.
  replace (8 * Z.of_nat i + Z.of_nat j) with (Z.of_nat (8 * i + j)) by lia.
  rewrite (λ Hinj, V6 Hinj (Z.of_nat (8 * i + j)) y).
  - apply Z.mod_small. pose proof (le_bytes_range 8 w) as Hr. rewrite Forall_lookup in Hr. by apply (Hr j).
  - intros i1 i2 H1 H2. rewrite !(stack_page_cell cpu s l page k) by (done || lia). lia.
  - rewrite zget_lookup, Nat2Z.id by lia. by rewrite (lookup_words_bytes words i j w).
Qed.

(** Handles as a partial map. *)
Lemma handle_table_put t id h :
  HandleTable_put id h t =
  match zget (handles t) id with
  | Some None => Done (Ok tt, mkHandleTable (zset (handles t) id (Some h)))
  | _ => Done (Err h, t)
  end.
Proof. unfold HandleTable_put. mred. by destruct (zget (handles t) id) as [[|]|]. Qed.

(** * Theorems *)

(** Messages are received in the order they were sent: whatever the sequence of pushes and
    pops, the mailbox answers as a first-in first-out queue of at most four messages, and
    none of its index computations panics. *)
Theorem mailbox_fifo (ops : list (fifo_op Message)) :
  ∃ mb, fifo_run ops Mailbox_new = Done ((queue_run MAILBOX_CAPACITY ops []).1, mb) ∧
    mailbox_rep mb (queue_run MAILBOX_CAPACITY ops []).2.
Proof. exact (fifo_run_spec ops Mailbox_new [] mailbox_new_rep). Qed.

(** A handle table is a partial map with a fixed number of slots: [push] uses a free slot and
    fails only when there is none, [take] and [remove] return a slot's handle and empty it,
    [put] fills exactly an empty slot in range, and each leaves every other slot alone;
    putting back what was taken restores the table. *)
Theorem handle_table_correct (t : HandleTable) (h : Handle) (id : usize) :
  match HandleTable_push h t with
  | Done (Ok i, t') => HandleTable_get t i = None ∧ HandleTable_get t' i = Some h ∧
      0 ≤ i < Z.of_nat (length (handles t)) ∧
      ∀ j, j ≠ i → HandleTable_get t' j = HandleTable_get t j
  | Done (Err h', t') => h' = h ∧ t' = t ∧
      ∀ i, 0 ≤ i < Z.of_nat (length (handles t)) → is_Some (HandleTable_get t i)
  | _ => False
  end ∧
  (∃ t', HandleTable_take id t = Done (HandleTable_get t id, t') ∧ HandleTable_get t' id = None ∧
     HandleTable_remove id t = HandleTable_take id t ∧
     (∀ j, j ≠ id → HandleTable_get t' j = HandleTable_get t j) ∧
     (∀ h0, HandleTable_get t id = Some h0 → HandleTable_put id h0 t' = Done (Ok tt, t))) ∧
  match HandleTable_put id h t with
  | Done (Ok _, t') => HandleTable_get t id = None ∧ HandleTable_get t' id = Some h ∧
      ∀ j, j ≠ id → HandleTable_get t' j = HandleTable_get t j
  | Done (Err h', t') => h' = h ∧ t' = t ∧
      (is_Some (HandleTable_get t id) ∨ ¬ 0 ≤ id < Z.of_nat (length (handles t)))
  | _ => False
  end.
Proof.
  unfold HandleTable_get. split_and!.
  - unfold HandleTable_push. mred. destruct (position_none (handles t)) as [i|] eqn:E.
    + apply position_none_Some in E as (Hi & Hn & _). unfold bind, put, ret. simpl.
      rewrite Hn, zget_zset_eq by done. split_and!; try done; try lia. intros j Hj. by rewrite zget_zset_ne.
    + unfold ret. split_and!; [done|done|]. intros i Hi. rewrite zget_lookup by lia.
      destruct (lookup_lt_is_Some_2 (handles t) (Z.to_nat i)) as [o Ho]; [lia|].
      rewrite Ho. simpl. by eapply position_none_None.
  - unfold HandleTable_take. mred. destruct (zget (handles t) id) as [o|] eqn:E.
    + pose proof (zget_Some_lt _ _ _ E) as Hb. eexists. split; [done|]. simpl.
      rewrite zget_zset_eq by done. split_and!; [done| | |].
      * unfold HandleTable_remove. mred. by rewrite E.
      * intros j Hj. by rewrite zget_zset_ne.
      * intros h0 ->. rewrite handle_table_put. simpl. rewrite zget_zset_eq by done.
        do 2 f_equal. destruct t as [hs]. f_equal. simpl in *. rewrite !zset_insert by lia.
        rewrite list_insert_insert_eq. apply list_insert_id. by rewrite zget_lookup in E by lia.
    + eexists. split; [done|]. rewrite E. split_and!; try done. unfold HandleTable_remove. mred. by rewrite E.
  - rewrite handle_table_put. destruct (zget (handles t) id) as [[h'|]|] eqn:E; simpl.
    + split_and!; try done. left. eauto.
    + pose proof (zget_Some_lt _ _ _ E). rewrite zget_zset_eq by done. split_and!; try done.
      intros j Hj. by rewrite zget_zset_ne.
    + split_and!; try done. right. intros Hb. destruct (zget_is_Some (handles t) id Hb). congruence.
Qed.

(** The context of a new thread points at a complete frame: [ThreadContext::new] does not
    fault, and afterwards the seven words at the saved stack pointer are the zeroed r15, r14,
    r13, the entry point in r12's place, the user stack in rbx's place, a zeroed rbp and the
    address [user_thread_entry] as return address; no translation and no frame but the
    stack's changes. *)
Theorem thread_context_correct (cpu : PageTable) (s : MState) (l : list FrameState) (k : nat)
    (top entry user_stack user_thread_entry : Z) :
  stack_page cpu s l (top - PAGE_SIZE) k →
  is_u64 entry → is_u64 user_stack → is_u64 user_thread_entry →
  ∃ s', ThreadContext_new cpu user_thread_entry entry user_stack top s =
          Done (mkThreadContext (top - 56), s') ∧
    (∀ i w, initial_frame entry user_stack user_thread_entry !! i = Some w →
       vload64 cpu (top - 56 + 8 * Z.of_nat i) s' = Done (w, s')) ∧
    pt_inv cpu s' l ∧ (∀ x, same_page cpu (ms_mem s) (ms_mem s') x) ∧
    (∀ j, j ≠ k → kept_frame s s' j).
Proof.
  intros Hp H1 H2 H3. pose proof (sp_range _ _ _ _ _ Hp) as (R1 & R2 & R3). unfold PAGE_SIZE in *.
  destruct (stack_words_spec cpu s l (top - 4096) k (initial_frame entry user_stack user_thread_entry)
    (top - 56) Hp) as (s' & E & V & Hread); [lia|unfold PAGE_SIZE; simpl; lia|].
  exists s'. split_and!; [| |apply V|apply V|].
  - unfold ThreadContext_new. mstep usub_le. rewrite (bind_Done _ _ _ _ _ E). by mstep usub_le.
  - intros i w Hi. apply Hread; [done|].
    do 7 (destruct i as [|i]; [by injection Hi as <-|]). done.
  - intros j Hj x Hx. apply (vs_off _ _ _ _ _ _ _ V). intros i _ ->.
    pose proof (in_frame_inj _ _ _ _ Hx (data_cell_in_frame cpu l s _ k (sp_inv _ _ _ _ _ Hp))). lia.
Qed.

Lemma thread_context_correct_witness :
  ∃ s1 s2, StackMapping_allocate (demo_space Kernel) 0x2000 0x40000 (mkPagePermissions true false false)
             roomy_state = Done (Ok (mkStackMapping 0x3D000 0x3E000 0x2000 0x40000), s1) ∧
    ThreadContext_new demo_pt 0xFFFFFFFF80001000 0x400000 0x7FFFFFFFF000 0x40000 s1 =
      Done (mkThreadContext 0x3FFC8, s2) ∧
    vload64 demo_pt 0x3FFE0 s2 = Done (0x400000, s2).
Proof.
  destruct (stack_allocate_spec (demo_space Kernel) 0x2000 0x40000 (mkPagePermissions true false false)
    roomy_state roomy_frames) as (r & s1 & l1 & E & H); [apply roomy_pt_inv|done|done|done|].
  assert (r = Ok (mkStackMapping 0x3D000 0x3E000 0x2000 0x40000)) as ->
    by (eapply returned_Done; [exact E|vm_compute; reflexivity]).
  destruct H as (_ & _ & ks & Hlen & Hh).
  assert (Hp : stack_page demo_pt s1 l1 (0x40000 - PAGE_SIZE) (nth 1 ks 0%nat)).
  { destruct (sh_range _ _ _ _ _ _ _ _ Hh) as [R1 R2 _ _ _]. change (0x2000 / FRAME_SIZE) with 2 in Hlen.
    destruct (R2 1 ltac:(lia)) as (P1 & _ & _). split.
    - exact R1.
    - unfold PAGE_SIZE, W64. split_and!; reflexivity || lia.
    - exists (mkPagePermissions true false false). split; [reflexivity|exact P1].
    - destruct (sh_frames _ _ _ _ _ _ _ _ Hh (nth 1 ks 0%nat)) as (_ & Ha & Hn); [|split; [exact Ha|exact Hn]].
      apply list_elem_of_In, nth_In. lia. }
  destruct (thread_context_correct demo_pt s1 l1 (nth 1 ks 0%nat) 0x40000 0x400000 0x7FFFFFFFF000
    0xFFFFFFFF80001000 Hp) as (s2 & E2 & Hread & _); [unfold is_u64, W64; lia..|].
  exists s1, s2. split; [exact E|]. split; [exact E2|]. exact (Hread 3%nat 0x400000 eq_refl).
Defined.
