(* ===== verification/Entry.v ===== *)
(** * Into and out of the kernel

    Model of the assembly of [src/arch/x86_64]: the context switch of [cpu.rs], the entry of system
    calls of [syscall.rs], the entry of interrupts of [interrupts/idt.rs] and [enter_user] of
    [mod.rs], as code of the processor in [Machine].  A Rust function called from it is a state
    transformer that obeys the calling convention. *)

From S2P Require Import Prelude Memory Machine Layout Descriptors Tcb.

(** ** Context switches *)

Definition switch_context_code : list instr :=
  [Push (Reg RBP); Push (Reg RBX); Push (Reg R12); Push (Reg R13); Push (Reg R14); Push (Reg R15);
   Mov (Mem RDI 0) (Reg RSP);
   Mov (Reg RSP) (Mem RSI 0);
   Pop (Reg R15); Pop (Reg R14); Pop (Reg R13); Pop (Reg R12); Pop (Reg RBX); Pop (Reg RBP);
   Ret].

(** ** Entering user space *)

(** The selectors and pointers are in registers the compiler chooses; they are used before the
    registers are cleared, but for the selector of gs, which by then is zero. *)
Definition enter_user (user_instruction_pointer user_stack_pointer : Z) : list instr :=
  [LoadSegment; LoadSegment; LoadSegment;
   Push (Imm USER_DATA_SELECTOR); Push (Imm user_stack_pointer); Push (Imm 0x202);
   Push (Imm USER_CODE_SELECTOR); Push (Imm user_instruction_pointer);
   Xor RAX; Xor RBX; Xor RCX; Xor RDX; Xor RSI; Xor RDI; Xor RBP;
   Xor R8; Xor R9; Xor R10; Xor R11; Xor R12; Xor R13; Xor R14; Xor R15;
   Swapgs; LoadGs; Iretq].

Definition user_thread_entry_code : list instr :=
  [Mov (Reg RDI) (Reg R12); Mov (Reg RSI) (Reg RBX);
   Call (λ c, run (enter_user (regs c RDI) (regs c RSI)) c)].

(** ** System calls *)

(** [write_msr] splits the value into eax and edx, which the processor joins. *)
Definition write_msr (msr value : Z) (c : cpu) : cpu :=
  set_msr msr (Z.lor (Z.shiftl (Z.shiftr value 32 mod 2 ^ 32) 32) (value mod 2 ^ 32)) c.

Definition RFLAGS_MASK : Z := 0x257FD5.

Definition STAR_VALUE : Z := Z.lor (Z.shiftl KERNEL_DATA_SELECTOR 48) (Z.shiftl KERNEL_CODE_SELECTOR 32).

(** [syscall::init], given the address of [syscall_entry]. *)
Definition syscall_init (syscall_entry cpu_local : Z) (c : cpu) : cpu :=
  swapgs (write_msr IA32_KERNEL_GS_BASE cpu_local (write_msr IA32_GS_BASE 0
    (write_msr IA32_FMASK RFLAGS_MASK (write_msr IA32_CSTAR 0 (write_msr IA32_LSTAR syscall_entry
      (write_msr IA32_STAR STAR_VALUE c)))))).

Record SyscallFrame := mkSyscallFrame {
  sf_r15 : Z; sf_r14 : Z; sf_r13 : Z; sf_r12 : Z; sf_rbp : Z; sf_rbx : Z; sf_r9 : Z; sf_r8 : Z;
  sf_r10 : Z; sf_rdx : Z; sf_rsi : Z; sf_rdi : Z; sf_rax : Z;
  sf_user_rip : Z; sf_user_rflags : Z; sf_user_rsp : Z;
}.

(** The frame behind a pointer. *)
Definition SyscallFrame_at (m : memory) (p : Z) : SyscallFrame :=
  let w i := load64 m (p + 8 * i) in
  mkSyscallFrame (w 0) (w 1) (w 2) (w 3) (w 4) (w 5) (w 6) (w 7) (w 8) (w 9) (w 10) (w 11) (w 12) (w 13) (w 14) (w 15).

Definition syscall_save : list instr :=
  [Swapgs; Mov (Gs 8) (Reg RSP); Mov (Reg RSP) (Gs 0);
   Push (Gs 8); Push (Reg R11); Push (Reg RCX); Push (Reg RAX); Push (Reg RDI); Push (Reg RSI);
   Push (Reg RDX); Push (Reg R10); Push (Reg R8); Push (Reg R9); Push (Reg RBX); Push (Reg RBP);
   Push (Reg R12); Push (Reg R13); Push (Reg R14); Push (Reg R15);
   Mov (Reg RDI) (Reg RSP)].

Definition syscall_restore : list instr :=
  [Pop (Reg R15); Pop (Reg R14); Pop (Reg R13); Pop (Reg R12); Pop (Reg RBP); Pop (Reg RBX);
   Pop (Reg R9); Pop (Reg R8); Pop (Reg R10); Pop (Reg RDX); Pop (Reg RSI); Pop (Reg RDI);
   Pop (Reg RAX); Pop (Reg RCX); Pop (Reg R11); Pop (Gs 8);
   Mov (Reg RSP) (Gs 8); Swapgs; Sysretq].

Definition syscall_entry (dispatch : cpu → cpu) : list instr :=
  syscall_save ++ [Call dispatch] ++ syscall_restore.

(** ** Interrupts *)

Definition stub_no_err (vector : Z) : list instr := [Push (Imm 0); Push (Imm vector)].
Definition stub_err (vector : Z) : list instr := [Push (Imm vector)].

Definition interrupt_save : list instr :=
  [Push (Reg R15); Push (Reg R14); Push (Reg R13); Push (Reg R12); Push (Reg RBP); Push (Reg RBX);
   Push (Reg R11); Push (Reg R10); Push (Reg R9); Push (Reg R8); Push (Reg RDI); Push (Reg RSI);
   Push (Reg RDX); Push (Reg RCX); Push (Reg RAX);
   TestByte (Mem RSP 144) 3; Jz 1; Swapgs;
   Mov (Reg RDI) (Reg RSP); Cld].

Definition interrupt_restore : list instr :=
  [TestByte (Mem RSP 144) 3; Jz 1; Swapgs;
   Pop (Reg RAX); Pop (Reg RCX); Pop (Reg RDX); Pop (Reg RSI); Pop (Reg RDI); Pop (Reg R8);
   Pop (Reg R9); Pop (Reg R10); Pop (Reg R11); Pop (Reg RBX); Pop (Reg RBP); Pop (Reg R12);
   Pop (Reg R13); Pop (Reg R14); Pop (Reg R15);
   AddRsp 16; Iretq].

Definition interrupt_common (dispatch : cpu → cpu) : list instr :=
  interrupt_save ++ [Call dispatch] ++ interrupt_restore.

(** ** The calling convention *)

(** A function that returns: it takes the return address off the stack, keeps the registers that
    belong to its caller, and leaves the segments and the model-specific registers. *)
Record returns (c c' : cpu) : Prop := {
  re_rsp : regs c' RSP = regs c RSP + 8;
  re_saved : ∀ r, r ∈ [RBX; RBP; R12; R13; R14; R15] → regs c' r = regs c r;
  re_cs : cs c' = cs c;
  re_ss : ss c' = ss c;
  re_msrs : msrs c' = msrs c;
}.

(** The registers hold 64-bit values. *)
Definition regs_ok (c : cpu) : Prop := ∀ r, is_u64 (regs c r).

Definition cpu_ok (c : cpu) : Prop :=
  regs_ok c ∧ is_u64 (rip c) ∧ is_u64 (rflags c) ∧ is_u64 (cs c) ∧ is_u64 (ss c).

(** ** Lemmas *)

Definition callee_saved : list reg := [RBP; RBX; R12; R13; R14; R15].

Lemma switch_context_shape :
  switch_context_code = (Push ∘ Reg <$> callee_saved) ++ [Mov (Mem RDI 0) (Reg RSP); Mov (Reg RSP) (Mem RSI 0)] ++
    (Pop ∘ Reg <$> rev callee_saved) ++ [Ret].
Proof. done. Qed.

Lemma no_jumps_push rs : Forall (λ i, ∀ n, i ≠ Jz n) (Push ∘ Reg <$> rs).
Proof. by apply Forall_fmap, Forall_forall. Qed.
Lemma no_jumps_pop rs : Forall (λ i, ∀ n, i ≠ Jz n) (Pop ∘ Reg <$> rs).
Proof. by apply Forall_fmap, Forall_forall. Qed.

(** The saved context of a thread: its callee-saved registers and the address to return to, at the
    stack pointer in its [ThreadContext] at [ctx]. *)
Record saved_context (m : memory) (ctx sp : Z) (values : reg → Z) (return_address : Z) : Prop := {
  sc_rsp : load64 m ctx = sp;
  sc_words : words_at m sp ((values <$> rev callee_saved) ++ [return_address]);
}.

(** Two byte ranges are apart. *)
Definition apart (a n b k : Z) : Prop := a + n ≤ b ∨ b + k ≤ a.

(** A call of [switch_context(prev, next)], where [next] was saved with stack pointer [sp]: the
    two contexts and the two frames lie apart. *)
Record switch_placed (c : cpu) (prev next sp : Z) : Prop := {
  sw_ok : cpu_ok c;
  sw_prev : regs c RDI = prev ∧ prev + 8 < W64;
  sw_next : regs c RSI = next ∧ next + 8 < W64;
  sw_stack : 48 ≤ regs c RSP ∧ regs c RSP + 8 < W64;
  sw_bounds : 0 ≤ sp ∧ sp + 56 < W64;
  sw_next_apart : apart next 8 (regs c RSP - 48) 48 ∧ apart next 8 prev 8;
  sw_frame_apart : apart sp 56 (regs c RSP - 48) 48 ∧ apart sp 56 prev 8;
  sw_prev_apart : apart prev 8 (regs c RSP - 48) 56;
}.

(** What the switch has done. *)
Record switched_to (c : cpu) (prev sp : Z) (values : reg → Z) (ra : Z) (c' : cpu) : Prop := {
  st_rip : rip c' = ra;
  st_rsp : regs c' RSP = sp + 56;
  st_regs : ∀ r, r ∈ callee_saved → regs c' r = values r;
  st_saved : saved_context (ram c') prev (regs c RSP - 48) (regs c) (load64 (ram c) (regs c RSP));
  st_ram : ∀ x, x < regs c RSP - 48 ∨ regs c RSP ≤ x → x < prev ∨ prev + 8 ≤ x → load8 (ram c') x = load8 (ram c) x;
  st_msrs : msrs c' = msrs c;
  st_segments : cs c' = cs c ∧ ss c' = ss c;
  st_rflags : rflags c' = rflags c;
}.

(** The middle of the switch: the stack pointer goes into one context and comes from the other. *)
Lemma swap_stacks c prev next sp :
  regs c RDI = prev → regs c RSI = next → 0 ≤ prev < W64 → 0 ≤ next < W64 → apart next 8 prev 8 →
  load64 (ram c) next = sp →
  let c' := run [Mov (Mem RDI 0) (Reg RSP); Mov (Reg RSP) (Mem RSI 0)] c in
  regs c' RSP = sp ∧ ram c' = store64 (ram c) prev (regs c RSP) ∧ rest_same c c' ∧
  ∀ r, r ≠ RSP → regs c' r = regs c r.
Proof.
  intros Hp Hn Bp Bn Ha Hsp c'. subst c'. rewrite !run_cons, run_nil by done.
  cbn [exec assign value_of address_of set_ram set_reg regs ram]. rewrite Hp, Hn, !Z.add_0_r, !wrap64_small by lia.
  split_and!; [|done|done|intros r Hr; cbn; by rewrite decide_False].
  rewrite decide_True by done. rewrite load64_store64_ne by (unfold apart in Ha; lia). done.
Qed.

Lemma ret_spec c :
  0 ≤ regs c RSP → regs c RSP + 8 < W64 →
  let c' := run [Ret] c in
  rip c' = load64 (ram c) (regs c RSP) ∧ regs c' RSP = regs c RSP + 8 ∧ ram c' = ram c ∧
  (∀ r, r ≠ RSP → regs c' r = regs c r) ∧ msrs c' = msrs c ∧ cs c' = cs c ∧ ss c' = ss c ∧ rflags c' = rflags c.
Proof.
  intros H0 H1 c'. subst c'. rewrite run_cons, run_nil by done. split_and!; try done.
  - change (wrap64 (regs c RSP + 8) = regs c RSP + 8). apply wrap64_small. lia.
  - intros r Hr. cbn. by rewrite decide_False.
Qed.

Lemma switch_context_spec c prev next sp values ra :
  switch_placed c prev next sp → saved_context (ram c) next sp values ra →
  switched_to c prev sp values ra (run switch_context_code c).
Proof.
  intros [[Hok _] [Hp Bp] [Hn Bn] Bs Bsp [An1 An2] [Af1 Af2] Ap] [Hsp Hw].
  assert (Hu : is_u64 prev ∧ is_u64 next) by (subst; auto). unfold is_u64 in Hu.
  rewrite switch_context_shape, run_app by apply no_jumps_push.
  destruct (run_pushes callee_saved c) as [P1 P2 P3 P4 P5];
    [by vm_compute; set_solver|simpl length; lia|by apply Forall_forall|].
  remember (run _ c) as c1 eqn:Ec1; clear Ec1. change (8 * Z.of_nat (length callee_saved)) with 48 in P1.
  assert (Hnext : load64 (ram c1) next = sp).
  { rewrite (same_but_load64 _ _ _ _ next P5); [done|]. unfold apart in An1. lia. }
  rewrite run_app by by repeat constructor.
  destruct (swap_stacks c1 prev next sp) as (S1 & S2 & S3 & S4);
    [by rewrite P2|by rewrite P2|lia|lia|done|done|]. remember (run _ c1) as c2 eqn:Ec2; clear Ec2.
  assert (Hm : ∀ x, x < regs c RSP - 48 ∨ regs c RSP ≤ x → x < prev ∨ prev + 8 ≤ x → load8 (ram c2) x = load8 (ram c) x).
  { intros x Hx Hx'. rewrite S2, load8_store64_out by lia. symmetry. apply P5. lia. }
  assert (Hw2 : words_at (ram c2) sp ((values <$> rev callee_saved) ++ [ra])).
  { intros i w Hi. rewrite <- (Hw i w Hi). apply load64_ext. intros x Hx. apply lookup_lt_Some in Hi.
    simpl in Hi. unfold apart in *. apply Hm; lia. }
  apply words_at_app in Hw2 as [Hw2 Hra]. cbn in Hra.
  rewrite run_app by apply no_jumps_pop.
  destruct (run_pops (rev callee_saved) (values <$> rev callee_saved) c2) as [O1 O2 O3 O4 O5];
    [by vm_compute; set_solver|by apply (bool_decide_unpack _); vm_compute|done|lia|simpl length; lia|by rewrite S1|].
  remember (run _ c2) as c3 eqn:Ec3; clear Ec3. change (8 * Z.of_nat (length (rev callee_saved))) with 48 in O1.
  apply words_at_cons in Hra as [Hra _]. destruct P3 as [], S3 as [], O4 as [].
  destruct (ret_spec c3) as (R1 & R2 & R3 & R4 & R5 & R6 & R7 & R8); [lia|lia|].
  remember (run [Ret] c3) as c4 eqn:Ec4; clear Ec4. split.
  - rewrite R1, O5, O1, S1. exact Hra.
  - lia.
  - intros r Hr. rewrite R4 by (intros ->; revert Hr; vm_compute; set_solver).
    assert (Hr' : r ∈ rev callee_saved) by (by apply list_elem_of_In, in_rev; rewrite rev_involutive; apply list_elem_of_In).
    apply list_elem_of_lookup in Hr' as [i Hi].
    apply (O2 i); [done|]. by rewrite list_lookup_fmap, Hi.
  - split; [rewrite R3, O5, S2, load64_store64_eq by (rewrite P1; unfold is_u64; lia); lia|].
    rewrite R3, O5. apply words_at_app. split.
    + rewrite S2, <- P1. intros i w Hi. rewrite load64_store64_ne; [exact (P4 i w Hi)|].
      apply lookup_lt_Some in Hi. simpl in Hi. unfold apart in *. lia.
    + apply words_at_cons. split; [|apply words_at_nil]. simpl length.
      replace (regs c RSP - 48 + _) with (regs c RSP) by lia. apply load64_ext. intros x Hx.
      unfold apart in *. apply Hm; lia.
  - intros x Hx Hx'. rewrite R3, O5. by apply Hm.
  - congruence.
  - split; congruence.
  - congruence.
Qed.

(** A saved context stays one while its bytes stay. *)
Lemma saved_context_same m m' ctx sp values ra :
  saved_context m ctx sp values ra →
  (∀ x, ctx ≤ x < ctx + 8 ∨ sp ≤ x < sp + 56 → load8 m' x = load8 m x) →
  saved_context m' ctx sp values ra.
Proof.
  intros [H1 H2] Hs. split; [rewrite <- H1; apply load64_ext; intros x Hx; apply Hs; lia|].
  intros i w Hi. rewrite <- (H2 i w Hi). apply load64_ext. intros x Hx. apply lookup_lt_Some in Hi.
  simpl in Hi. apply Hs. lia.
Qed.

(** C28: A task that is switched away from and, however much later, switched back to, returns from
    [switch_context] as from an ordinary call: at its return address, with its stack pointer and
    its callee-saved registers, provided that its saved context and the top of its stack were
    left alone; and the switch itself goes on in the other task's saved context, changing no
    memory but the saved frame and the saved stack pointer. *)
Theorem switch_roundtrip (c c2 : cpu) (prev next sp : Z) (values : reg → Z) (ra : Z) (prev2 : Z) :
  switch_placed c prev next sp → saved_context (ram c) next sp values ra →
  let c1 := run switch_context_code c in
  switched_to c prev sp values ra c1 ∧
  ((∀ x, prev ≤ x < prev + 8 ∨ regs c RSP - 48 ≤ x < regs c RSP + 8 → load8 (ram c2) x = load8 (ram c1) x) →
   switch_placed c2 prev2 prev (regs c RSP - 48) →
   let c3 := run switch_context_code c2 in
   rip c3 = load64 (ram c) (regs c RSP) ∧ regs c3 RSP = regs c RSP + 8 ∧
   ∀ r, r ∈ callee_saved → regs c3 r = regs c r).
Proof.
  intros Hp Hs c1. pose proof (switch_context_spec _ _ _ _ _ _ Hp Hs) as Hsw. fold c1 in Hsw.
  split; [exact Hsw|]. intros Hkeep Hp2 c3.
  pose proof (saved_context_same _ (ram c2) _ _ _ _ (st_saved _ _ _ _ _ _ Hsw)
    ltac:(intros x Hx; apply Hkeep; lia)) as Hs2.
  destruct (switch_context_spec _ _ _ _ _ _ Hp2 Hs2) as [H1 H2 H3 _ _ _ _ _]. fold c3 in H1, H2, H3.
  split_and!; [exact H1|rewrite H2; lia|exact H3].
Qed.

(** ** System calls: lemmas *)

Definition pushed_regs : list reg := [R11; RCX; RAX; RDI; RSI; RDX; R10; R8; R9; RBX; RBP; R12; R13; R14; R15].

Lemma syscall_save_shape :
  syscall_save = [Swapgs; Mov (Gs 8) (Reg RSP); Mov (Reg RSP) (Gs 0); Push (Gs 8)] ++
    (Push ∘ Reg <$> pushed_regs) ++ [Mov (Reg RDI) (Reg RSP)].
Proof. done. Qed.

Lemma syscall_restore_shape :
  syscall_restore = (Pop ∘ Reg <$> rev pushed_regs) ++ [Pop (Gs 8); Mov (Reg RSP) (Gs 8); Swapgs; Sysretq].
Proof. done. Qed.

(** The user's stack pointer goes by way of the CPU-local block onto the kernel stack. *)
Lemma stack_swap_in c L T :
  kernel_gs_base c = L → load64 (ram c) L = T → is_u64 (regs c RSP) → 0 ≤ L → L + 16 ≤ W64 → 8 ≤ T < W64 →
  let c' := run [Swapgs; Mov (Gs 8) (Reg RSP); Mov (Reg RSP) (Gs 0); Push (Gs 8)] c in
  regs c' RSP = T - 8 ∧ (∀ r, r ≠ RSP → regs c' r = regs c r) ∧
  gs_base c' = L ∧ kernel_gs_base c' = gs_base c ∧
  (∀ i, i ≠ IA32_GS_BASE → i ≠ IA32_KERNEL_GS_BASE → msrs c' i = msrs c i) ∧
  load64 (ram c') (T - 8) = regs c RSP ∧
  rip c' = rip c ∧ rflags c' = rflags c ∧ cs c' = cs c ∧ ss c' = ss c.
Proof.
  intros HL HT Hu H0 H1 H2. rewrite !run_cons, run_nil by done.
  set (c1 := exec Swapgs c).
  assert (E1 : gs_base c1 = L) by exact HL.
  set (c2 := exec (Mov (Gs 8) (Reg RSP)) c1).
  assert (E2 : ram c2 = store64 (ram c) (L + 8) (regs c RSP)).
  { change (store64 (ram c) (wrap64 (gs_base c1 + 8)) (regs c RSP) = store64 (ram c) (L + 8) (regs c RSP)).
    by rewrite E1, wrap64_small by lia. }
  set (c3 := exec (Mov (Reg RSP) (Gs 0)) c2).
  assert (E3 : regs c3 RSP = T).
  { change (load64 (ram c2) (wrap64 (gs_base c1 + 0)) = T). rewrite E1, Z.add_0_r, wrap64_small, E2 by lia.
    by rewrite load64_store64_ne by lia. }
  set (c4 := exec (Push (Gs 8)) c3).
  assert (E4 : value_of (Gs 8) c3 = regs c RSP).
  { change (load64 (ram c2) (wrap64 (gs_base c1 + 8)) = regs c RSP). rewrite E1, wrap64_small, E2 by lia.
    by apply load64_store64_eq. }
  assert (E5 : regs c4 RSP = T - 8).
  { change (wrap64 (regs c3 RSP - 8) = T - 8). rewrite E3. apply wrap64_small. lia. }
  split_and!; try done.
  - intros r Hr. cbn. by rewrite !decide_False.
  - intros i Hi Hi'. change (msrs c1 i = msrs c i). cbn. by rewrite !(proj2 (Z.eqb_neq _ _)) by done.
  - change (ram c4) with (store64 (ram c2) (wrap64 (regs c3 RSP - 8)) (value_of (Gs 8) c3)).
    rewrite E3, E4, wrap64_small by lia. by apply load64_store64_eq.
Qed.

Definition frame_words (c : cpu) : list Z := rev (regs c <$> pushed_regs) ++ [regs c RSP].

(** What is known when [syscall_dispatch] is called. *)
Record at_dispatch (u : cpu) (L T : Z) (c : cpu) : Prop := {
  ad_rdi : regs c RDI = T - 128;
  ad_rsp : regs c RSP = T - 128;
  ad_regs : ∀ r, r ≠ RSP → r ≠ RDI → regs c r = regs u r;
  ad_words : words_at (ram c) (T - 128) (frame_words u);
  ad_gs : gs_base c = L;
  ad_kernel_gs : kernel_gs_base c = gs_base u;
  ad_msrs : ∀ i, i ≠ IA32_GS_BASE → i ≠ IA32_KERNEL_GS_BASE → msrs c i = msrs u i;
  ad_rflags : rflags c = rflags u;
  ad_cs : cs c = cs u;
}.

Lemma syscall_save_spec c L T :
  regs_ok c → kernel_gs_base c = L → load64 (ram c) L = T → 0 ≤ L → L + 16 ≤ W64 → 136 ≤ T < W64 →
  at_dispatch c L T (run syscall_save c).
Proof.
  intros Hr HL HT H0 H1 H2. rewrite syscall_save_shape, run_app by by repeat constructor.
  generalize (stack_swap_in c L T HL HT (Hr RSP) H0 H1 ltac:(lia)). cbv zeta. generalize (run [Swapgs; Mov (Gs 8) (Reg RSP); Mov (Reg RSP) (Gs 0); Push (Gs 8)] c).
  intros c1 (S1 & S2 & S3 & S4 & S5 & S6 & S7 & S8 & S9 & S10). rewrite run_app by apply no_jumps_push.
  assert (Hnot : RSP ∉ pushed_regs) by (vm_compute; set_solver).
  assert (Hu : Forall (λ r, is_u64 (regs c1 r)) pushed_regs).
  { apply Forall_forall. intros r Hr'. rewrite S2 by (intros ->; done). apply Hr. }
  generalize (run_pushes pushed_regs c1 Hnot ltac:(simpl length; lia) Hu). generalize (run (Push ∘ Reg <$> pushed_regs) c1).
  intros c2 [P1 P2 P3 P4 P5]. change (8 * Z.of_nat (length pushed_regs)) with 120 in P1.
  rewrite run_cons, run_nil by done.
  assert (Em : regs c1 <$> pushed_regs = regs c <$> pushed_regs).
  { apply list_fmap_ext. intros i r Hi. apply S2. intros ->. by apply list_elem_of_lookup_2 in Hi. }
  destruct P3 as [Q1 Q2 Q3 Q4 Q5 Q6]. unfold gs_base, kernel_gs_base in *.
  assert (Hsp : regs c2 RSP = T - 128) by lia.
  change (exec (Mov (Reg RDI) (Reg RSP)) c2) with (set_reg RDI (regs c2 RSP) c2).
  split; [by rewrite regs_set_reg_eq|by rewrite regs_set_reg_ne| | | | | | |].
  - intros r N1 N2. by rewrite regs_set_reg_ne, P2, S2.
  - change (words_at (ram c2) (T - 128) (frame_words c)). unfold frame_words. apply words_at_app.
    rewrite Em, Hsp in P4. split; [exact P4|]. apply words_at_cons. split; [|apply words_at_nil].
    change (Z.of_nat (length (rev (regs c <$> pushed_regs)))) with 15. rewrite <- S6.
    replace (T - 128 + 8 * 15) with (T - 8) by lia. apply (same_but_load64 _ _ _ _ _ P5). lia.
  - change (msrs c2 IA32_GS_BASE = L). congruence.
  - change (msrs c2 IA32_KERNEL_GS_BASE = msrs c IA32_GS_BASE). congruence.
  - intros i N1 N2. change (msrs c2 i = msrs c i). rewrite Q6. by apply S5.
  - change (rflags c2 = rflags c). congruence.
  - change (cs c2 = cs c). congruence.
Qed.

(** The last four instructions: back to the user's stack and out. *)
Lemma stack_swap_out c L u :
  gs_base c = L → 0 ≤ L → L + 16 ≤ W64 → load64 (ram c) (regs c RSP) = u → is_u64 u →
  msrs c IA32_STAR = STAR_VALUE →
  let c' := run [Pop (Gs 8); Mov (Reg RSP) (Gs 8); Swapgs; Sysretq] c in
  regs c' RSP = u ∧ (∀ r, r ≠ RSP → regs c' r = regs c r) ∧ rip c' = regs c RCX ∧
  rflags c' = Z.lor (Z.land (regs c R11) SYSRET_FLAGS) 2 ∧ cs c' = USER_CODE_SELECTOR ∧ ss c' = USER_DATA_SELECTOR ∧
  gs_base c' = kernel_gs_base c ∧ kernel_gs_base c' = L.
Proof.
  intros HL H0 H1 Hp Hu Hstar c'.
  assert (E1 : regs (exec (Mov (Reg RSP) (Gs 8)) (exec (Pop (Gs 8)) c)) RSP = u).
  { change (load64 (store64 (ram c) (wrap64 (gs_base c + 8)) (load64 (ram c) (regs c RSP))) (wrap64 (gs_base c + 8)) = u).
    rewrite Hp, load64_store64_eq; done. }
  subst c'. rewrite !run_cons, run_nil by done. split_and!; try done.
  - intros r Hr. cbn. by rewrite !decide_False.
  - change (Z.lor (Z.land (Z.shiftr (msrs c IA32_STAR) 48) 0xFFFF + 16) 3 = USER_CODE_SELECTOR). by rewrite Hstar.
  - change (Z.lor (Z.land (Z.shiftr (msrs c IA32_STAR) 48) 0xFFFF + 8) 3 = USER_DATA_SELECTOR). by rewrite Hstar.
Qed.

(** What [handle] is asked, and what it answers. *)
Definition syscall_result (handle : Z → Z → Z → Z → Z → Z → Z → Z) (f : SyscallFrame) : Z :=
  handle (sf_rax f) (sf_rdi f) (sf_rsi f) (sf_rdx f) (sf_r10 f) (sf_r8 f) (sf_r9 f).

(** [syscall_dispatch] returns with its result in the frame and the rest of the frame kept. *)
Record dispatches (handle : Z → Z → Z → Z → Z → Z → Z → Z) (p : Z) (c c' : cpu) : Prop := {
  di_returns : returns c c';
  di_result : load64 (ram c') (p + 96) = syscall_result handle (SyscallFrame_at (ram c) p);
  di_frame : ∀ i, 0 ≤ i < 16 → i ≠ 12 → load64 (ram c') (p + 8 * i) = load64 (ram c) (p + 8 * i);
}.

(** The frame as the user's registers. *)
Definition user_frame (u : cpu) : SyscallFrame :=
  mkSyscallFrame (regs u R15) (regs u R14) (regs u R13) (regs u R12) (regs u RBP) (regs u RBX) (regs u R9)
    (regs u R8) (regs u R10) (regs u RDX) (regs u RSI) (regs u RDI) (regs u RAX) (regs u RCX) (regs u R11) (regs u RSP).

Lemma frame_words_at u m p : words_at m p (frame_words u) → SyscallFrame_at m p = user_frame u.
Proof.
  intros H. unfold SyscallFrame_at, user_frame.
  f_equal; [exact (H 0%nat _ eq_refl)|exact (H 1%nat _ eq_refl)|exact (H 2%nat _ eq_refl)|exact (H 3%nat _ eq_refl)
   |exact (H 4%nat _ eq_refl)|exact (H 5%nat _ eq_refl)|exact (H 6%nat _ eq_refl)|exact (H 7%nat _ eq_refl)
   |exact (H 8%nat _ eq_refl)|exact (H 9%nat _ eq_refl)|exact (H 10%nat _ eq_refl)|exact (H 11%nat _ eq_refl)
   |exact (H 12%nat _ eq_refl)|exact (H 13%nat _ eq_refl)|exact (H 14%nat _ eq_refl)|exact (H 15%nat _ eq_refl)].
Qed.

(** The words of the frame after the call. *)
Definition returned_words (u : cpu) (result : Z) : list Z := <[12%nat := result]> (frame_words u).

Lemma dispatched_words handle u p c c' :
  dispatches handle p c c' → words_at (ram c) p (frame_words u) →
  words_at (ram c') p (returned_words u (syscall_result handle (user_frame u))).
Proof.
  intros [_ Hr Hf] Hw i w Hi. unfold returned_words in Hi. destruct (decide (i = 12%nat)) as [->|Hne].
  - rewrite list_lookup_insert_eq in Hi by (simpl; lia). injection Hi as <-.
    by rewrite <- (frame_words_at u (ram c) p Hw), <- Hr.
  - rewrite list_lookup_insert_ne in Hi by done. rewrite Hf; [by apply Hw| |lia].
    apply lookup_lt_Some in Hi. simpl in Hi. lia.
Qed.

(** A user task at a [syscall] instruction, in the state the kernel leaves to user space. *)
Record user_at_syscall (u : cpu) (L T : Z) : Prop := {
  us_ok : cpu_ok u;
  us_star : msrs u IA32_STAR = STAR_VALUE;
  us_fmask : msrs u IA32_FMASK = RFLAGS_MASK;
  us_gs : kernel_gs_base u = L;
  us_local : 0 ≤ L ∧ L + 16 ≤ W64;
  us_top : load64 (ram u) L = T;
  us_stack : 136 ≤ T < W64;
}.

Lemma syscall_regs u r : r ≠ RCX → r ≠ R11 → regs (syscall u) r = regs u r.
Proof. intros H1 H2. cbn. by rewrite !decide_False. Qed.

Lemma syscall_regs_ok u : cpu_ok u → regs_ok (syscall u).
Proof. intros (H & H1 & H2 & _) r. cbn. repeat case_decide; auto. Qed.

(** The mask clears the interrupt and direction flags. *)
Lemma land_not64_clear a k n :
  0 ≤ n < 64 → Z.testbit k n = true → Z.testbit (Z.land a (not64 k)) n = false.
Proof.
  intros Hn Hk. rewrite Z.land_spec, testbit_not64, Hk. rewrite (proj2 (Z.leb_le _ _)), (proj2 (Z.ltb_lt _ _)) by lia.
  apply andb_false_r.
Qed.

(** The way back to the user. *)
Lemma syscall_restore_spec u c L p result :
  regs_ok u → is_u64 result → regs c RSP = p → 0 ≤ p → p + 128 ≤ W64 →
  words_at (ram c) p (returned_words u result) →
  gs_base c = L → 0 ≤ L → L + 16 ≤ W64 → msrs c IA32_STAR = STAR_VALUE →
  let c' := run syscall_restore c in
  regs c' RAX = result ∧ (∀ r, r ≠ RAX → regs c' r = regs u r) ∧ rip c' = regs u RCX ∧
  rflags c' = Z.lor (Z.land (regs u R11) SYSRET_FLAGS) 2 ∧ cs c' = USER_CODE_SELECTOR ∧ ss c' = USER_DATA_SELECTOR ∧
  gs_base c' = kernel_gs_base c ∧ kernel_gs_base c' = L.
Proof.
  intros Hu Hres Hsp H0 H1 Hw HL H2 H3 Hstar. cbv zeta.
  rewrite syscall_restore_shape, run_app by apply no_jumps_pop.
  change (returned_words u result) with (<[12%nat := result]> (regs u <$> rev pushed_regs) ++ [regs u RSP]) in Hw.
  apply words_at_app in Hw as [Hw Hus]. apply words_at_cons in Hus as [Hus _].
  generalize (run_pops (rev pushed_regs) (<[12%nat := result]> (regs u <$> rev pushed_regs)) c
    ltac:(vm_compute; set_solver) ltac:(apply (bool_decide_unpack _); by vm_compute) eq_refl ltac:(lia)
    ltac:(simpl length; lia) ltac:(by rewrite Hsp)).
  generalize (run (Pop ∘ Reg <$> rev pushed_regs) c). intros c1 [O1 O2 O3 [] O5].
  change (8 * Z.of_nat (length (rev pushed_regs))) with 120 in O1.
  assert (Hall : ∀ r, r ≠ RSP → r ≠ RAX → regs c1 r = regs u r).
  { intros r N1 N2. destruct r; try done;
      [apply (O2 5%nat)|apply (O2 13%nat)|apply (O2 9%nat)|apply (O2 10%nat)|apply (O2 11%nat)|apply (O2 4%nat)|apply (O2 7%nat)
      |apply (O2 6%nat)|apply (O2 8%nat)|apply (O2 14%nat)|apply (O2 3%nat)|apply (O2 2%nat)|apply (O2 1%nat)|apply (O2 0%nat)]; done. }
  assert (Hrax : regs c1 RAX = result) by (by apply (O2 12%nat)).
  assert (Hus1 : load64 (ram c1) (regs c1 RSP) = regs u RSP) by (rewrite O5, O1, Hsp; exact Hus).
  unfold gs_base, kernel_gs_base in *.
  generalize (stack_swap_out c1 L (regs u RSP) ltac:(unfold gs_base; congruence) H2 H3 Hus1 (Hu RSP) ltac:(congruence)). cbv zeta.
  generalize (run [Pop (Gs 8); Mov (Reg RSP) (Gs 8); Swapgs; Sysretq] c1). intros c2 (T1 & T2 & T3 & T4 & T5 & T6 & T7 & T8).
  unfold gs_base, kernel_gs_base in *. split_and!; try congruence.
  - by rewrite T2.
  - intros r Hr. destruct (decide (r = RSP)) as [->|Hr']; [done|]. by rewrite T2, Hall.
  - rewrite T3. by apply Hall.
  - rewrite T4, Hall; done.
Qed.

(** C29: A system call as the user sees it, whatever the kernel's [handle] answers: the kernel is
    entered with interrupts off, on its own stack and with its own gs base, [handle] gets the
    number in rax and the six arguments, and the user goes on after the instruction with the
    answer in rax and every other register, the stack pointer included, as before, but for rcx
    and r11, which the processor overwrites with the return address and the flags.  The flags are those of
    the user less the ones that the return does not restore ([SYSRET_FLAGS]). *)
Theorem syscall_roundtrip (u : cpu) (L T : Z) (handle : Z → Z → Z → Z → Z → Z → Z → Z) (dispatch : cpu → cpu) :
  user_at_syscall u L T →
  let at_call := run syscall_save (syscall u) in
  dispatches handle (T - 128) (push (rip at_call) at_call) (dispatch (push (rip at_call) at_call)) →
  let result := handle (regs u RAX) (regs u RDI) (regs u RSI) (regs u RDX) (regs u R10) (regs u R8) (regs u R9) in
  is_u64 result →
  (cpl at_call = 0 ∧ gs_base at_call = L ∧ regs at_call RSP = T - 128 ∧
   Z.testbit (rflags at_call) 9 = false ∧ Z.testbit (rflags at_call) 10 = false) ∧
  let u' := run (syscall_entry dispatch) (syscall u) in
  regs u' RAX = result ∧ regs u' RCX = rip u ∧ regs u' R11 = rflags u ∧
  (∀ r, r ∉ [RAX; RCX; R11] → regs u' r = regs u r) ∧
  rip u' = rip u ∧ rflags u' = Z.lor (Z.land (rflags u) SYSRET_FLAGS) 2 ∧
  cs u' = USER_CODE_SELECTOR ∧ ss u' = USER_DATA_SELECTOR ∧
  gs_base u' = gs_base u ∧ kernel_gs_base u' = kernel_gs_base u.
Proof.
  intros [Hok Hstar Hmask HL [L0 L1] HT HS] at_call. subst at_call.
  generalize (syscall_save_spec (syscall u) L T (syscall_regs_ok u Hok) HL HT L0 L1 HS).
  unfold syscall_entry. rewrite run_app by by repeat constructor.
  generalize (run syscall_save (syscall u)). intros a [A1 A2 A3 A4 A5 A6 A7 A8 A9] Hd Hres.
  split.
  { split_and!; [|exact A5|exact A2|..].
    - unfold cpl. rewrite A9. change (cs (syscall u)) with (Z.land (Z.shiftr (msrs u IA32_STAR) 32) 0xFFFC). by rewrite Hstar.
    - rewrite A8. change (rflags (syscall u)) with (Z.land (rflags u) (not64 (msrs u IA32_FMASK))).
      rewrite Hmask. by apply land_not64_clear.
    - rewrite A8. change (rflags (syscall u)) with (Z.land (rflags u) (not64 (msrs u IA32_FMASK))).
      rewrite Hmask. by apply land_not64_clear. }
  change (run ([Call dispatch] ++ syscall_restore) a) with (run syscall_restore (dispatch (push (rip a) a))).
  assert (Hp : words_at (ram (push (rip a) a)) (T - 128) (frame_words (syscall u))).
  { change (ram (push (rip a) a)) with (store64 (ram a) (wrap64 (regs a RSP - 8)) (rip a)).
    rewrite A2, wrap64_small by lia. apply (words_at_same (T - 136) (T - 128) (ram a)); [apply same_but_store; lia|exact A4|lia]. }
  pose proof (dispatched_words handle (syscall u) _ _ _ Hd Hp) as Hw. destruct Hd as [[D1 _ _ _ D5] _ _].
  assert (Esp : regs (push (rip a) a) RSP = T - 136).
  { change (wrap64 (regs a RSP - 8) = T - 136). rewrite A2, wrap64_small; lia. }
  revert D1 D5 Hw. generalize (dispatch (push (rip a) a)). intros d D1 D5 Hw. change (msrs (push (rip a) a)) with (msrs a) in D5.
  unfold gs_base, kernel_gs_base in *.
  generalize (syscall_restore_spec (syscall u) d L (T - 128) _ (syscall_regs_ok u Hok) Hres ltac:(lia) ltac:(lia) ltac:(lia) Hw
    ltac:(unfold gs_base; congruence) L0 L1 ltac:(rewrite D5, A7; done)). cbv zeta.
  generalize (run syscall_restore d). unfold gs_base, kernel_gs_base. intros u' (F1 & F2 & F3 & F4 & F5 & F6 & F7 & F8).
  split_and!; try done.
  - by rewrite F2.
  - by rewrite F2.
  - intros r Hr. rewrite !not_elem_of_cons in Hr. destruct Hr as (N1 & N2 & N3 & _). rewrite F2 by done. by apply syscall_regs.
  - by rewrite F7, D5, A6.
  - congruence.
Qed.

(** ** Entering user space: lemmas *)

(** The frame that [iretq] takes, pushed word by word. *)
Lemma push_imms (vs : list Z) c :
  8 * Z.of_nat (length vs) ≤ regs c RSP < W64 → Forall is_u64 vs →
  let c' := run (Push ∘ Imm <$> vs) c in
  regs c' RSP = regs c RSP - 8 * Z.of_nat (length vs) ∧ (∀ r, r ≠ RSP → regs c' r = regs c r) ∧
  rest_same c c' ∧ words_at (ram c') (regs c' RSP) (rev vs) ∧ same_but (regs c' RSP) (regs c RSP) (ram c) (ram c').
Proof.
  revert c. induction vs as [|v vs IH]; intros c Hb Hu; cbv zeta.
  { rewrite fmap_nil, run_nil. cbn [length]. split_and!; [lia|done|done|apply words_at_nil|apply same_but_refl]. }
  rewrite fmap_cons, run_cons by done. cbn [length] in *. apply Forall_cons in Hu as [Hv Hu].
  change (exec ((Push ∘ Imm) v) c) with (push v c).
  assert (H1 : regs (push v c) RSP = regs c RSP - 8) by (apply wrap64_small; lia).
  assert (H2 : ∀ r, r ≠ RSP → regs (push v c) r = regs c r) by (intros r Hr; cbn; by rewrite decide_False).
  assert (H3 : ram (push v c) = store64 (ram c) (regs c RSP - 8) v) by (cbn; by rewrite wrap64_small by lia).
  assert (H4 : rest_same c (push v c)) by done.
  revert H1 H2 H3 H4. generalize (push v c). intros c1 H1 H2 H3 H4.
  specialize (IH c1 ltac:(lia) Hu). cbv zeta in IH. revert IH. generalize (run (Push ∘ Imm <$> vs) c1).
  intros c2 (P1 & P2 & P3 & P4 & P5). split_and!.
  - lia.
  - intros r Hr. by rewrite P2, H2.
  - by transitivity c1.
  - cbn [rev]. apply words_at_app. split; [exact P4|]. apply words_at_cons. split; [|apply words_at_nil].
    rewrite length_rev. rewrite (same_but_load64 _ _ _ _ _ P5) by lia. rewrite H3.
    replace (_ + _) with (regs c RSP - 8) by lia. by apply load64_store64_eq.
  - eapply same_but_trans; [|eapply same_but_weaken; [exact P5|lia|lia]]. rewrite H3. apply same_but_store; lia.
Qed.

Lemma run_xors (rs : list reg) c :
  let c' := run (Xor <$> rs) c in
  (∀ r, regs c' r = if decide (r ∈ rs) then 0 else regs c r) ∧ rest_same c c' ∧ ram c' = ram c.
Proof.
  revert c. induction rs as [|x rs IH]; intros c; cbv zeta.
  { rewrite fmap_nil, run_nil. split_and!; [|done|done]. intros r. rewrite decide_False by apply not_elem_of_nil. done. }
  rewrite fmap_cons, run_cons by done. destruct (IH (exec (Xor x) c)) as (H1 & H2 & H3).
  split_and!; [|by transitivity (exec (Xor x) c)|by rewrite H3].
  intros r. rewrite H1. destruct (decide (r ∈ rs)) as [Hr|Hr]; [by rewrite decide_True by (by right)|].
  change (regs (set_reg x 0 c) r = if decide (r ∈ x :: rs) then 0 else regs c r).
  destruct (decide (r = x)) as [->|Hne]; [by rewrite regs_set_reg_eq, decide_True by left|].
  rewrite regs_set_reg_ne, decide_False; [done| |done]. by rewrite not_elem_of_cons.
Qed.

Definition cleared : list reg := [RAX; RBX; RCX; RDX; RSI; RDI; RBP; R8; R9; R10; R11; R12; R13; R14; R15].

Lemma enter_user_shape ip sp :
  enter_user ip sp = [LoadSegment; LoadSegment; LoadSegment] ++
    (Push ∘ Imm <$> [USER_DATA_SELECTOR; sp; 0x202; USER_CODE_SELECTOR; ip]) ++ (Xor <$> cleared) ++ [Swapgs; LoadGs; Iretq].
Proof. done. Qed.

(** The processor in user mode, about to run a fresh program. *)
Record fresh_user (ip sp L : Z) (c : cpu) : Prop := {
  fu_rip : rip c = ip;
  fu_regs : ∀ r, regs c r = if decide (r = RSP) then sp else 0;
  fu_cpl : cpl c = 3 ∧ cs c = USER_CODE_SELECTOR ∧ ss c = USER_DATA_SELECTOR;
  fu_flags : rflags c = 0x202;
  fu_gs : gs_base c = 0 ∧ kernel_gs_base c = L;
}.

Lemma enter_user_spec ip sp c :
  is_u64 ip → is_u64 sp → 48 ≤ regs c RSP < W64 → fresh_user ip sp (gs_base c) (run (enter_user ip sp) c).
Proof.
  intros Hip Hsp Hb. rewrite enter_user_shape, run_app by by repeat constructor.
  change (run [LoadSegment; LoadSegment; LoadSegment] c) with c.
  rewrite run_app by (by apply Forall_fmap, Forall_forall).
  assert (Hall : Forall is_u64 [USER_DATA_SELECTOR; sp; 0x202; USER_CODE_SELECTOR; ip]).
  { rewrite !Forall_cons. split_and!; [by vm_compute|exact Hsp|by vm_compute|by vm_compute|exact Hip|apply Forall_nil_2]. }
  generalize (push_imms [USER_DATA_SELECTOR; sp; 0x202; USER_CODE_SELECTOR; ip] c ltac:(cbn [length]; lia) Hall). cbv zeta.
  generalize (run (Push ∘ Imm <$> [USER_DATA_SELECTOR; sp; 0x202; USER_CODE_SELECTOR; ip]) c).
  intros c1 (P1 & P2 & [] & P4 & _). rewrite run_app by (by apply Forall_fmap, Forall_forall).
  generalize (run_xors cleared c1). cbv zeta. generalize (run (Xor <$> cleared) c1). intros c2 (X1 & [] & X3).
  assert (Ersp : regs c2 RSP = regs c1 RSP) by (rewrite X1; by rewrite decide_False by (vm_compute; set_solver)).
  rewrite !run_cons, run_nil by done. cbn [length] in P1.
  assert (W : ∀ i, (i < 5)%nat → load64 (ram c2) (wrap64 (regs c2 RSP + 8 * Z.of_nat i)) =
    default 0 ([ip; USER_CODE_SELECTOR; 0x202; sp; USER_DATA_SELECTOR] !! i)).
  { intros i Hi. rewrite Ersp, X3, wrap64_small by lia.
    do 5 (destruct i as [|i]; [by apply P4|]). lia. }
  pose proof (W 0%nat ltac:(lia)) as W0. pose proof (W 1%nat ltac:(lia)) as W1. pose proof (W 2%nat ltac:(lia)) as W2.
  pose proof (W 3%nat ltac:(lia)) as W3. pose proof (W 4%nat ltac:(lia)) as W4. cbn [lookup list_lookup default] in *.
  split.
  - exact W0.
  - intros r. change (regs (set_reg RSP (load64 (ram c2) (wrap64 (regs c2 RSP + 8 * Z.of_nat 3))) c2) r = if decide (r = RSP) then sp else 0).
    case_decide; [subst; by rewrite regs_set_reg_eq, W3|]. rewrite regs_set_reg_ne, X1 by done. rewrite decide_True; [done|].
    destruct r; try done; by apply (bool_decide_unpack _).
  - split_and!; [|exact W1|exact W4]. unfold cpl. by change (cs _) with (load64 (ram c2) (wrap64 (regs c2 RSP + 8 * Z.of_nat 1))); rewrite W1.
  - exact W2.
  - split; [done|]. change (msrs c2 IA32_GS_BASE = msrs c IA32_GS_BASE). congruence.
Qed.

(** The registers a new thread starts with. *)
Definition initial_values (entry user_stack : Z) (r : reg) : Z :=
  match r with R12 => entry | RBX => user_stack | _ => 0 end.

(** C30: The first switch to a thread whose stack holds the frame that [ThreadContext::new] writes goes
    to [user_thread_entry], which enters user mode at the thread's entry point, on its stack,
    with interrupts on, with all other registers zero, so that nothing of the kernel leaks, and
    with the kernel's gs base put away for the next entry. *)
Theorem thread_start (c : cpu) (prev next top entry user_stack user_thread_entry : Z) :
  switch_placed c prev next (top - 56) → load64 (ram c) next = top - 56 →
  words_at (ram c) (top - 56) (initial_frame entry user_stack user_thread_entry) →
  is_u64 entry → is_u64 user_stack →
  let c1 := run switch_context_code c in
  rip c1 = user_thread_entry ∧
  fresh_user entry user_stack (gs_base c) (run user_thread_entry_code c1).
Proof.
  intros Hp Hsp Hw He Hs. pose proof (sw_bounds _ _ _ _ Hp) as Hb.
  assert (Hc : saved_context (ram c) next (top - 56) (initial_values entry user_stack) user_thread_entry) by done.
  generalize (switch_context_spec _ _ _ _ _ _ Hp Hc). cbv zeta. generalize (run switch_context_code c).
  intros c1 [S1 S2 S3 _ _ S6 _ _]. split; [exact S1|].
  assert (E1 : regs c1 R12 = entry) by (rewrite S3; [done|by apply (bool_decide_unpack _)]).
  assert (E2 : regs c1 RBX = user_stack) by (rewrite S3; [done|by apply (bool_decide_unpack _)]).
  unfold user_thread_entry_code. rewrite !run_cons, run_nil by done.
  set (c2 := exec (Mov (Reg RDI) (Reg R12)) c1). set (c3 := exec (Mov (Reg RSI) (Reg RBX)) c2).
  assert (F1 : regs c3 RSP = top) by (cbn; rewrite !decide_False by done; lia).
  assert (F2 : regs c3 RDI = entry) by (cbn; rewrite decide_False, decide_True by done; done).
  assert (F3 : regs c3 RSI = user_stack) by (cbn; rewrite decide_True, decide_False by done; done).
  assert (F4 : msrs c3 = msrs c) by exact S6.
  revert F1 F2 F3 F4. generalize c3. clear c3. intros c3 F1 F2 F3 F4.
  change (exec (Call _) c3) with (run (enter_user (regs (push (rip c3) c3) RDI) (regs (push (rip c3) c3) RSI)) (push (rip c3) c3)).
  assert (G1 : regs (push (rip c3) c3) RSP = top - 8).
  { change (wrap64 (regs c3 RSP - 8) = top - 8). rewrite F1. apply wrap64_small. lia. }
  assert (G2 : regs (push (rip c3) c3) RDI = entry) by (cbn; by rewrite decide_False).
  assert (G3 : regs (push (rip c3) c3) RSI = user_stack) by (cbn; by rewrite decide_False).
  assert (G4 : gs_base (push (rip c3) c3) = gs_base c) by (unfold gs_base; rewrite <- F4; done).
  revert G1 G2 G3 G4. generalize (push (rip c3) c3). intros c4 G1 G2 G3 G4. rewrite G2, G3, <- G4.
  apply enter_user_spec; [done|done|lia].
Qed.

(** ** Interrupts: lemmas *)

Definition interrupt_regs : list reg := [R15; R14; R13; R12; RBP; RBX; R11; R10; R9; R8; RDI; RSI; RDX; RCX; RAX].

Lemma interrupt_save_shape :
  interrupt_save = (Push ∘ Reg <$> interrupt_regs) ++
    ([TestByte (Mem RSP 144) 3; Jz 1; Swapgs] ++ [Mov (Reg RDI) (Reg RSP); Cld]).
Proof. done. Qed.

Lemma interrupt_restore_shape :
  interrupt_restore = [TestByte (Mem RSP 144) 3; Jz 1; Swapgs] ++ (Pop ∘ Reg <$> rev interrupt_regs) ++ [AddRsp 16; Iretq].
Proof. done. Qed.

Lemma load8_load64 m a : load8 m a = load64 m a mod 256.
Proof.
  change (load64 m a) with (load8 m a + 256 * load_le 7 m (a + 1)). pose proof (load8_range m a).
  rewrite (Z.mul_comm 256), Z_mod_plus_full. symmetry. by apply Z.mod_small.
Qed.

Lemma land_low_byte v : Z.land (v mod 256) 3 = Z.land v 3.
Proof. change 256 with (2 ^ 8). rewrite <- Z.land_ones, <- Z.land_assoc by lia. done. Qed.

(** The gs bases after the conditional swap. *)
Definition swap_if (user : bool) (c : cpu) : cpu := if user then swapgs c else c.

(** The test of the saved code segment and the swap that it guards. *)
Lemma test_and_swap c code l :
  load64 (ram c) (wrap64 (regs c RSP + 144)) = code →
  ∃ b, run ([TestByte (Mem RSP 144) 3; Jz 1; Swapgs] ++ l) c = run l (swap_if (negb (Z.land code 3 =? 0)) (set_zf b c)).
Proof.
  intros Hc. exists (Z.land code 3 =? 0). unfold run. cbn [app run_from].
  change (exec (TestByte (Mem RSP 144) 3) c) with (set_zf (Z.land (load8 (ram c) (wrap64 (regs c RSP + 144))) 3 =? 0) c).
  rewrite load8_load64, Hc, land_low_byte. cbn [zf set_zf].
  by destruct (Z.land code 3 =? 0).
Qed.

Lemma swap_if_same b c :
  regs (swap_if b c) = regs c ∧ ram (swap_if b c) = ram c ∧ rip (swap_if b c) = rip c ∧
  rflags (swap_if b c) = rflags c ∧ cs (swap_if b c) = cs c ∧ ss (swap_if b c) = ss c ∧
  gs_base (swap_if b c) = (if b then kernel_gs_base c else gs_base c) ∧
  kernel_gs_base (swap_if b c) = (if b then gs_base c else kernel_gs_base c).
Proof. by destruct b. Qed.

(** What the stub of a vector pushes below the words of the processor. *)
Definition stub_for (vector : Z) (error : option Z) : list instr :=
  match error with Some _ => stub_err vector | None => stub_no_err vector end.

(** The words of an [InterruptFrame]. *)
Definition interrupt_words (c : cpu) (vector : Z) (error : option Z) : list Z :=
  rev (regs c <$> interrupt_regs) ++ [vector; default 0 error; rip c; cs c; rflags c; regs c RSP; ss c].

(** The stack an interrupt uses. *)
Definition interrupt_base (rsp0 : Z) (c : cpu) : Z :=
  Z.land (if cpl c =? 3 then rsp0 else regs c RSP) (not64 15).

(** The processor and the stub together push seven words. *)
Lemma stub_pushes entry selector rsp0 vector error c :
  let c' := run (stub_for vector error) (interrupt entry selector rsp0 error c) in
  let p := push_all [ss c; regs c RSP; rflags c; cs c; rip c; default 0 error; vector]
             (set_reg RSP (interrupt_base rsp0 c) c) in
  regs c' = regs p ∧ ram c' = ram p ∧ msrs c' = msrs c ∧ rflags c' = Z.land (rflags c) (not64 0x34300) ∧ cs c' = selector.
Proof.
  cbv zeta. set (d := set_reg RSP _ c). set (l := [ss c; regs c RSP; rflags c; cs c; rip c]).
  set (es := match error with Some e => [e] | None => [] end).
  set (more := match error with Some _ => [vector] | None => [0; vector] end).
  assert (E : run (stub_for vector error) (interrupt entry selector rsp0 error c) =
              push_all more (interrupt entry selector rsp0 error c)).
  { rewrite <- run_push_imms. f_equal. unfold more. by destruct error. }
  assert (Ep : push_all [ss c; regs c RSP; rflags c; cs c; rip c; default 0 error; vector] d = push_all more (push_all (l ++ es) d)).
  { rewrite <- push_all_app. f_equal. unfold more, es, l. by destruct error. }
  rewrite E, Ep. unfold interrupt. fold (interrupt_base rsp0 c) d l es.
  pose proof (push_all_view (l ++ es) d d eq_refl eq_refl) as (_ & _ & [_ _ _ _ _ Hm]).
  revert Hm. generalize (push_all (l ++ es) d). intros q Hm.
  destruct (push_all_view more (set_rip entry (set_segments selector (if cpl c =? 3 then 0 else ss c)
    (set_rflags (Z.land (rflags c) (not64 213760)) q))) q eq_refl eq_refl) as (V1 & V2 & [_ V3 _ V4 _ V5]).
  split_and!; [exact V1|exact V2|exact (eq_trans V5 Hm)|exact V3|exact V4].
Qed.

Lemma interrupt_stub_spec c entry selector rsp0 error vector :
  cpu_ok c → is_u64 vector → is_u64 (default 0 error) → 56 ≤ interrupt_base rsp0 c < W64 →
  let c' := run (stub_for vector error) (interrupt entry selector rsp0 error c) in
  regs c' RSP = interrupt_base rsp0 c - 56 ∧ (∀ r, r ≠ RSP → regs c' r = regs c r) ∧
  words_at (ram c') (interrupt_base rsp0 c - 56) [vector; default 0 error; rip c; cs c; rflags c; regs c RSP; ss c] ∧
  msrs c' = msrs c ∧ rflags c' = Z.land (rflags c) (not64 0x34300) ∧ cs c' = selector.
Proof.
  intros (Hr & H1 & H2 & H3 & H4) Hv He Hb.
  set (vs := [ss c; regs c RSP; rflags c; cs c; rip c; default 0 error; vector]).
  assert (Hall : Forall is_u64 vs).
  { unfold vs. rewrite !Forall_cons. split_and!; done. }
  set (d := set_reg RSP (interrupt_base rsp0 c) c).
  assert (Hb' : 8 * Z.of_nat (length vs) ≤ regs d RSP < W64).
  { unfold d. rewrite regs_set_reg_eq. cbn [vs length]. lia. }
  destruct (push_imms vs d Hb' Hall) as (P1 & P2 & P3 & P4 & _). rewrite run_push_imms in *.
  unfold d in P1. rewrite regs_set_reg_eq in P1. cbn [vs length] in P1. fold d in P1.
  cbv zeta. generalize (stub_pushes entry selector rsp0 vector error c). fold d vs.
  generalize (run (stub_for vector error) (interrupt entry selector rsp0 error c)).
  intros c' (E1 & E2 & E3 & E4 & E5). rewrite E1, E2. split_and!; try done.
  - intros r Hr'. rewrite P2 by done. by apply regs_set_reg_ne.
  - rewrite P1 in P4. exact P4.
Qed.

(** What is known when [interrupt_dispatch] is called for the interrupted code [c]. *)
Record at_interrupt (c : cpu) (base vector : Z) (error : option Z) (a : cpu) : Prop := {
  ai_rdi : regs a RDI = base - 176;
  ai_rsp : regs a RSP = base - 176;
  ai_words : words_at (ram a) (base - 176) (interrupt_words c vector error);
  ai_gs : gs_base a = if cpl c =? 0 then gs_base c else kernel_gs_base c;
  ai_kernel_gs : kernel_gs_base a = if cpl c =? 0 then kernel_gs_base c else gs_base c;
  ai_rflags : rflags a = Z.land (Z.land (rflags c) (not64 0x34300)) (not64 (Z.shiftl 1 10));
}.

Lemma interrupt_save_spec c s base vector error :
  regs_ok c → 184 ≤ base < W64 → regs s RSP = base - 56 → (∀ r, r ≠ RSP → regs s r = regs c r) →
  words_at (ram s) (base - 56) [vector; default 0 error; rip c; cs c; rflags c; regs c RSP; ss c] →
  msrs s = msrs c → rflags s = Z.land (rflags c) (not64 0x34300) →
  at_interrupt c base vector error (run interrupt_save s).
Proof.
  intros Hr Hb Hsp Hs Hw Hm Hf. rewrite interrupt_save_shape, run_app by apply no_jumps_push.
  assert (Hnot : RSP ∉ interrupt_regs) by (vm_compute; set_solver).
  assert (Hu : Forall (λ r, is_u64 (regs s r)) interrupt_regs).
  { apply Forall_forall. intros r Hr'. rewrite Hs by (intros ->; done). apply Hr. }
  generalize (run_pushes interrupt_regs s Hnot ltac:(simpl length; lia) Hu). generalize (run (Push ∘ Reg <$> interrupt_regs) s).
  intros s1 [P1 P2 [_ Q2 _ _ _ Q6] P4 P5]. change (8 * Z.of_nat (length interrupt_regs)) with 120 in P1.
  assert (Em : regs s <$> interrupt_regs = regs c <$> interrupt_regs).
  { apply list_fmap_ext. intros i r Hi. apply Hs. intros ->. by apply list_elem_of_lookup_2 in Hi. }
  assert (E1 : regs s1 RSP = base - 176) by lia.
  assert (Hw1 : words_at (ram s1) (base - 176) (interrupt_words c vector error)).
  { unfold interrupt_words. apply words_at_app. rewrite Em, E1 in P4. split; [exact P4|].
    change (Z.of_nat (length (rev (regs c <$> interrupt_regs)))) with 15. replace (base - 176 + 8 * 15) with (base - 56) by lia.
    eapply words_at_same; [exact P5|exact Hw|right; lia]. }
  assert (Hcs : load64 (ram s1) (wrap64 (regs s1 RSP + 144)) = cs c).
  { rewrite E1, wrap64_small by lia. exact (Hw1 18%nat _ eq_refl). }
  destruct (test_and_swap s1 (cs c) [Mov (Reg RDI) (Reg RSP); Cld] Hcs) as [b ->].
  assert (Hm1 : msrs s1 = msrs c) by congruence. clear Hcs P2 P4 P5 Hw Hs Hsp.
  assert (Hg : gs_base s1 = gs_base c ∧ kernel_gs_base s1 = kernel_gs_base c) by (unfold gs_base, kernel_gs_base; by rewrite Hm1).
  destruct Hg as [Hg1 Hg2].
  destruct (swap_if_same (negb (Z.land (cs c) 3 =? 0)) (set_zf b s1)) as (W1 & W2 & W3 & W4 & W5 & W6 & W7 & W8).
  revert W1 W2 W3 W4 W5 W6 W7 W8. generalize (swap_if (negb (Z.land (cs c) 3 =? 0)) (set_zf b s1)).
  intros s2 W1 W2 W3 W4 W5 W6 W7 W8. rewrite !run_cons, run_nil by done.
  change (exec (Mov (Reg RDI) (Reg RSP)) s2) with (set_reg RDI (regs s2 RSP) s2).
  assert (E2 : regs s2 RSP = base - 176) by (rewrite W1; exact E1).
  change (exec Cld (set_reg RDI (regs s2 RSP) s2)) with
    (set_rflags (Z.land (rflags s2) (not64 (Z.shiftl 1 10))) (set_reg RDI (regs s2 RSP) s2)).
  split.
  - change (regs (set_reg RDI (regs s2 RSP) s2) RDI = base - 176). by rewrite regs_set_reg_eq.
  - change (regs (set_reg RDI (regs s2 RSP) s2) RSP = base - 176). by rewrite regs_set_reg_ne.
  - change (words_at (ram s2) (base - 176) (interrupt_words c vector error)). rewrite W2. exact Hw1.
  - change (gs_base s2 = if cpl c =? 0 then gs_base c else kernel_gs_base c). rewrite W7, <- Hg1, <- Hg2. unfold cpl.
    by destruct (Z.land (cs c) 3 =? 0).
  - change (kernel_gs_base s2 = if cpl c =? 0 then kernel_gs_base c else gs_base c). rewrite W8, <- Hg1, <- Hg2. unfold cpl.
    by destruct (Z.land (cs c) 3 =? 0).
  - change (Z.land (rflags s2) (not64 (Z.shiftl 1 10)) = Z.land (Z.land (rflags c) (not64 0x34300)) (not64 (Z.shiftl 1 10))).
    rewrite W4. change (rflags (set_zf b s1)) with (rflags s1). by rewrite Q2, Hf.
Qed.

(** The way back to the interrupted code. *)
Lemma interrupt_restore_spec c d base vector error :
  regs_ok c → 184 ≤ base < W64 → regs d RSP = base - 176 →
  words_at (ram d) (base - 176) (interrupt_words c vector error) →
  let c' := run interrupt_restore d in
  (∀ r, regs c' r = regs c r) ∧ rip c' = rip c ∧ rflags c' = rflags c ∧ cs c' = cs c ∧ ss c' = ss c ∧
  gs_base c' = (if cpl c =? 0 then gs_base d else kernel_gs_base d) ∧
  kernel_gs_base c' = (if cpl c =? 0 then kernel_gs_base d else gs_base d).
Proof.
  intros Hr Hb Hsp Hw. cbv zeta. rewrite interrupt_restore_shape.
  assert (Hcs : load64 (ram d) (wrap64 (regs d RSP + 144)) = cs c).
  { rewrite Hsp, wrap64_small by lia. exact (Hw 18%nat _ eq_refl). }
  destruct (test_and_swap d (cs c) ((Pop ∘ Reg <$> rev interrupt_regs) ++ [AddRsp 16; Iretq]) Hcs) as [b ->].
  destruct (swap_if_same (negb (Z.land (cs c) 3 =? 0)) (set_zf b d)) as (W1 & W2 & _ & _ & _ & _ & W7 & W8).
  revert W1 W2 W7 W8. generalize (swap_if (negb (Z.land (cs c) 3 =? 0)) (set_zf b d)). intros d1 W1 W2 W7 W8.
  change (regs (set_zf b d)) with (regs d) in W1. change (ram (set_zf b d)) with (ram d) in W2.
  rewrite run_app by apply no_jumps_pop. rewrite <- W2 in Hw.
  change (interrupt_words c vector error) with
    ((regs c <$> rev interrupt_regs) ++ [vector; default 0 error; rip c; cs c; rflags c; regs c RSP; ss c]) in Hw.
  apply words_at_app in Hw as [Hw1 Hw2].
  change (Z.of_nat (length (regs c <$> rev interrupt_regs))) with 15 in Hw2. replace (base - 176 + 8 * 15) with (base - 56) in Hw2 by lia.
  assert (E1 : regs d1 RSP = base - 176) by (by rewrite W1).
  generalize (run_pops (rev interrupt_regs) (regs c <$> rev interrupt_regs) d1
    ltac:(vm_compute; set_solver) ltac:(apply (bool_decide_unpack _); by vm_compute) eq_refl ltac:(lia)
    ltac:(simpl length; lia) ltac:(by rewrite E1)).
  generalize (run (Pop ∘ Reg <$> rev interrupt_regs) d1). intros d2 [O1 O2 O3 [_ _ _ _ _ O4] O5].
  change (8 * Z.of_nat (length (rev interrupt_regs))) with 120 in O1.
  rewrite !run_cons, run_nil by done.
  change (exec (AddRsp 16) d2) with (set_reg RSP (wrap64 (regs d2 RSP + 16)) d2).
  assert (E2 : wrap64 (regs d2 RSP + 16) = base - 40) by (rewrite wrap64_small; lia).
  rewrite E2. rewrite <- O5 in Hw2.
  assert (K : ∀ i w, (i < 5)%nat → [rip c; cs c; rflags c; regs c RSP; ss c] !! i = Some w →
    stack_word (set_reg RSP (base - 40) d2) (Z.of_nat i) = w).
  { intros i w Hi Hw. unfold stack_word. rewrite regs_set_reg_eq, wrap64_small by lia.
    rewrite <- (Hw2 (2 + i)%nat w Hw). change (ram (set_reg RSP (base - 40) d2)) with (ram d2). f_equal. lia. }
  pose proof (K 0%nat _ ltac:(lia) eq_refl) as K0. pose proof (K 1%nat _ ltac:(lia) eq_refl) as K1.
  pose proof (K 2%nat _ ltac:(lia) eq_refl) as K2. pose proof (K 3%nat _ ltac:(lia) eq_refl) as K3.
  pose proof (K 4%nat _ ltac:(lia) eq_refl) as K4.
  change (exec Iretq (set_reg RSP (base - 40) d2)) with (iretq (set_reg RSP (base - 40) d2)).
  assert (Hg : gs_base d2 = gs_base d1 ∧ kernel_gs_base d2 = kernel_gs_base d1) by (unfold gs_base, kernel_gs_base; by rewrite O4).
  destruct Hg as [Hg1 Hg2]. split_and!; [|exact K0|exact K2|exact K1|exact K4| |].
  - intros r. change (regs (set_reg RSP (stack_word (set_reg RSP (base - 40) d2) 3) (set_reg RSP (base - 40) d2)) r = regs c r).
    destruct (decide (r = RSP)) as [->|Hne]; [by rewrite regs_set_reg_eq|]. rewrite !regs_set_reg_ne by done.
    assert (Hin : r ∈ rev interrupt_regs) by (destruct r; try done; by apply (bool_decide_unpack _)).
    apply list_elem_of_lookup in Hin as [i Hi]. apply (O2 i); [done|]. by rewrite list_lookup_fmap, Hi.
  - change (gs_base d2 = if cpl c =? 0 then gs_base d else kernel_gs_base d). rewrite Hg1, W7. unfold cpl. by destruct (Z.land (cs c) 3 =? 0).
  - change (kernel_gs_base d2 = if cpl c =? 0 then kernel_gs_base d else gs_base d). rewrite Hg2, W8. unfold cpl. by destruct (Z.land (cs c) 3 =? 0).
Qed.

Record InterruptFrame := mkInterruptFrame {
  if_rax : Z; if_rcx : Z; if_rdx : Z; if_rsi : Z; if_rdi : Z; if_r8 : Z; if_r9 : Z; if_r10 : Z; if_r11 : Z;
  if_rbx : Z; if_rbp : Z; if_r12 : Z; if_r13 : Z; if_r14 : Z; if_r15 : Z;
  if_vector : Z; if_error_code : Z;
  if_instruction_pointer : Z; if_code_segment : Z; if_cpu_flags : Z; if_stack_pointer : Z; if_stack_segment : Z;
}.

(** The frame behind a pointer. *)
Definition InterruptFrame_at (m : memory) (p : Z) : InterruptFrame :=
  let w i := load64 m (p + 8 * i) in
  mkInterruptFrame (w 0) (w 1) (w 2) (w 3) (w 4) (w 5) (w 6) (w 7) (w 8) (w 9) (w 10) (w 11) (w 12) (w 13) (w 14)
    (w 15) (w 16) (w 17) (w 18) (w 19) (w 20) (w 21).

Definition interrupted_frame (c : cpu) (vector : Z) (error : option Z) : InterruptFrame :=
  mkInterruptFrame (regs c RAX) (regs c RCX) (regs c RDX) (regs c RSI) (regs c RDI) (regs c R8) (regs c R9) (regs c R10)
    (regs c R11) (regs c RBX) (regs c RBP) (regs c R12) (regs c R13) (regs c R14) (regs c R15) vector (default 0 error)
    (rip c) (cs c) (rflags c) (regs c RSP) (ss c).

Lemma interrupt_words_at c vector error m p :
  words_at m p (interrupt_words c vector error) → InterruptFrame_at m p = interrupted_frame c vector error.
Proof.
  intros H. unfold InterruptFrame_at, interrupted_frame.
  f_equal; [exact (H 0%nat _ eq_refl)|exact (H 1%nat _ eq_refl)|exact (H 2%nat _ eq_refl)|exact (H 3%nat _ eq_refl)
   |exact (H 4%nat _ eq_refl)|exact (H 5%nat _ eq_refl)|exact (H 6%nat _ eq_refl)|exact (H 7%nat _ eq_refl)
   |exact (H 8%nat _ eq_refl)|exact (H 9%nat _ eq_refl)|exact (H 10%nat _ eq_refl)|exact (H 11%nat _ eq_refl)
   |exact (H 12%nat _ eq_refl)|exact (H 13%nat _ eq_refl)|exact (H 14%nat _ eq_refl)|exact (H 15%nat _ eq_refl)
   |exact (H 16%nat _ eq_refl)|exact (H 17%nat _ eq_refl)|exact (H 18%nat _ eq_refl)|exact (H 19%nat _ eq_refl)
   |exact (H 20%nat _ eq_refl)|exact (H 21%nat _ eq_refl)].
Qed.

Lemma run_interrupt_save_app l s : run (interrupt_save ++ l) s = run l (run interrupt_save s).
Proof.
  rewrite interrupt_save_shape, <- app_assoc, !(run_app (Push ∘ Reg <$> interrupt_regs)) by apply no_jumps_push.
  generalize (run (Push ∘ Reg <$> interrupt_regs) s). intros s1. unfold run. cbn [app run_from].
  by destruct (zf (exec (TestByte (Mem RSP 144) 3) s1)).
Qed.

Lemma interrupt_base_aligned rsp0 c :
  is_u64 rsp0 → regs_ok c → 0 ≤ interrupt_base rsp0 c < W64 ∧ interrupt_base rsp0 c mod 16 = 0.
Proof.
  intros H0 Hr. unfold interrupt_base. set (sp := if cpl c =? 3 then rsp0 else regs c RSP).
  assert (Hsp : is_u64 sp) by (unfold sp; destruct (cpl c =? 3); [done|apply Hr]).
  change 15 with (2 ^ 4 - 1). rewrite land_not64_mask by (done || lia). change (2 ^ 4) with 16.
  unfold is_u64, W64 in *. dmlia.
Qed.

(** C31: An interrupt is invisible to the code it interrupts: for a vector with or without an error
    code, in user or in kernel mode, the dispatcher is called on an aligned stack, with interrupts
    off and the direction flag clear, with the CPU-local block as gs base and a pointer to a frame
    that describes the interrupted state, and when it returns with that frame untouched every
    register, the flags, both segments and both gs bases are as before.  The separate stack that the
    interrupt table gives vector 8 is not modelled. *)
Theorem interrupt_roundtrip (c : cpu) (entry selector rsp0 vector : Z) (error : option Z) (dispatch : cpu → cpu) :
  cpu_ok c → cpl c = 0 ∨ cpl c = 3 → is_u64 rsp0 → is_u64 vector → is_u64 (default 0 error) →
  184 ≤ interrupt_base rsp0 c →
  let p := interrupt_base rsp0 c - 176 in
  let a := run interrupt_save (run (stub_for vector error) (interrupt entry selector rsp0 error c)) in
  let d := dispatch (push (rip a) a) in
  returns (push (rip a) a) d → (∀ x, p ≤ x < p + 176 → load8 (ram d) x = load8 (ram a) x) →
  (regs a RDI = p ∧ InterruptFrame_at (ram a) p = interrupted_frame c vector error ∧ regs a RSP mod 16 = 0 ∧
   Z.testbit (rflags a) 9 = false ∧ Z.testbit (rflags a) 10 = false ∧
   gs_base a = if cpl c =? 3 then kernel_gs_base c else gs_base c) ∧
  let c' := run (interrupt_common dispatch) (run (stub_for vector error) (interrupt entry selector rsp0 error c)) in
  (∀ r, regs c' r = regs c r) ∧ rip c' = rip c ∧ rflags c' = rflags c ∧ cs c' = cs c ∧ ss c' = ss c ∧
  gs_base c' = gs_base c ∧ kernel_gs_base c' = kernel_gs_base c.
Proof.
  intros Hok Hcpl H0 Hv He Hb. destruct (interrupt_base_aligned rsp0 c H0 (proj1 Hok)) as [[_ Hb2] Hal].
  destruct (interrupt_stub_spec c entry selector rsp0 error vector Hok Hv He ltac:(lia)) as (S1 & S2 & S3 & S4 & S5 & _).
  cbv zeta. unfold interrupt_common. rewrite run_interrupt_save_app.
  revert S1 S2 S3 S4 S5. generalize (run (stub_for vector error) (interrupt entry selector rsp0 error c)). intros s S1 S2 S3 S4 S5.
  generalize (interrupt_save_spec c s _ vector error (proj1 Hok) (conj Hb Hb2) S1 S2 S3 S4 S5).
  generalize (run interrupt_save s). intros a [A1 A2 A3 A4 A5 A6] Hd Hkeep. split.
  { split_and!; [exact A1|by apply interrupt_words_at| | | |].
    - rewrite A2. dmlia.
    - rewrite A6, Z.land_spec, land_not64_clear by done. done.
    - rewrite A6. by apply land_not64_clear.
    - rewrite A4. by destruct Hcpl as [-> | ->]. }
  change (run ([Call dispatch] ++ interrupt_restore) a) with (run interrupt_restore (dispatch (push (rip a) a))).
  assert (Esp : regs (push (rip a) a) RSP = interrupt_base rsp0 c - 184).
  { change (wrap64 (regs a RSP - 8) = interrupt_base rsp0 c - 184). rewrite A2, wrap64_small; lia. }
  assert (Em : msrs (push (rip a) a) = msrs a) by done.
  revert Esp Em Hd Hkeep. generalize (push (rip a) a). intros q Esp Em Hd Hkeep.
  destruct Hd as [D1 _ _ _ D5]. revert D1 D5 Hkeep. generalize (dispatch q). intros d D1 D5 Hkeep.
  assert (Hw : words_at (ram d) (interrupt_base rsp0 c - 176) (interrupt_words c vector error)).
  { intros i w Hi. rewrite <- (A3 i w Hi). apply load64_ext. intros x Hx. apply Hkeep. apply lookup_lt_Some in Hi.
    change (length (interrupt_words c vector error)) with 22%nat in Hi. lia. }
  generalize (interrupt_restore_spec c d _ vector error (proj1 Hok) (conj Hb Hb2) ltac:(lia) Hw). cbv zeta.
  generalize (run interrupt_restore d). intros c' (R1 & R2 & R3 & R4 & R5 & R6 & R7).
  assert (Hg : gs_base d = gs_base a ∧ kernel_gs_base d = kernel_gs_base a) by (unfold gs_base, kernel_gs_base; by rewrite D5, Em).
  destruct Hg as [G1 G2]. split_and!; try done.
  - rewrite R6, G1, G2, A4, A5. by destruct (cpl c =? 0).
  - rewrite R7, G1, G2, A4, A5. by destruct (cpl c =? 0).
Qed.

(** ** Initialisation *)

Lemma write_msr_value msr v c : is_u64 v → write_msr msr v c = set_msr msr v c.
Proof.
  intros Hv. unfold write_msr. f_equal. unfold is_u64, W64 in Hv.
  assert (Hs : Z.shiftr v 32 = v / 2 ^ 32) by (apply Z.shiftr_div_pow2; lia).
  rewrite Hs, (Z.mod_small (v / 2 ^ 32)) by dmlia. rewrite <- Z.land_ones, <- Hs by lia.
  apply Z.bits_inj'. intros n Hn. rewrite Z.lor_spec, Z.shiftl_spec, Z.land_spec, Z.testbit_ones_nonneg by lia.
  destruct (Z.ltb_spec n 32); [rewrite Z.testbit_neg_r by lia; by rewrite andb_true_r|].
  rewrite Z.shiftr_spec, andb_false_r, orb_false_r by lia. f_equal. lia.
Qed.

(** [syscall::init] sets up what entering user mode and system calls rely on. *)
Lemma syscall_init_spec entry local c :
  is_u64 entry → is_u64 local →
  let c' := syscall_init entry local c in
  msrs c' IA32_STAR = STAR_VALUE ∧ msrs c' IA32_LSTAR = entry ∧ msrs c' IA32_FMASK = RFLAGS_MASK ∧
  gs_base c' = local ∧ kernel_gs_base c' = 0.
Proof. intros He Hl c'. unfold c', syscall_init. rewrite !write_msr_value by (done || by vm_compute). done. Qed.

(** ** Examples *)

Definition demo_user : cpu :=
  mkCpu (λ r, if decide (r = RSP) then 0x7000 else 5) 0x401000 0x202 false USER_CODE_SELECTOR USER_DATA_SELECTOR
    (λ i, if i =? IA32_STAR then STAR_VALUE else if i =? IA32_FMASK then RFLAGS_MASK
          else if i =? IA32_KERNEL_GS_BASE then 0x1000 else 0)
    (store64 (λ _, 0) 0x1000 0x9000).

Definition demo_handle (number a0 a1 a2 a3 a4 a5 : Z) : Z := number + a0 + a5.

Definition demo_dispatch (c : cpu) : cpu :=
  set_ram (store64 (ram c) (regs c RDI + 96) (syscall_result demo_handle (SyscallFrame_at (ram c) (regs c RDI))))
    (set_reg RSP (regs c RSP + 8) c).

Lemma demo_dispatches p c :
  regs c RDI = p → is_u64 (syscall_result demo_handle (SyscallFrame_at (ram c) p)) → dispatches demo_handle p c (demo_dispatch c).
Proof.
  intros <- Hu. split.
  - split; try done. intros r Hr. cbn. by rewrite decide_False by (intros ->; revert Hr; vm_compute; set_solver).
  - by apply load64_store64_eq.
  - intros i Hi Hne. apply load64_store64_ne. lia.
Qed.

Lemma demo_user_ok : user_at_syscall demo_user 0x1000 0x9000.
Proof.
  split; [|by vm_compute..]. split; [|by vm_compute].
  intros r. change (is_u64 (if decide (r = RSP) then 0x7000 else 5)). unfold is_u64, W64. destruct (decide _); lia.
Qed.

Lemma demo_syscall_dispatches :
  dispatches demo_handle (0x9000 - 128)
    (push (rip (run syscall_save (syscall demo_user))) (run syscall_save (syscall demo_user)))
    (demo_dispatch (push (rip (run syscall_save (syscall demo_user))) (run syscall_save (syscall demo_user)))).
Proof. refine (demo_dispatches _ _ _ _); vm_compute; (done || by split). Qed.

Lemma syscall_roundtrip_witness :
  regs (run (syscall_entry demo_dispatch) (syscall demo_user)) RAX = 15 ∧
  rip (run (syscall_entry demo_dispatch) (syscall demo_user)) = 0x401000.
Proof.
  refine (match syscall_roundtrip demo_user 0x1000 0x9000 demo_handle demo_dispatch demo_user_ok demo_syscall_dispatches _ with
          | conj _ (conj H1 (conj _ (conj _ (conj _ (conj H2 _))))) => conj H1 H2 end).
  by vm_compute.
Defined.

(** A handler that does nothing. *)
Definition demo_return (c : cpu) : cpu := set_reg RSP (regs c RSP + 8) c.

Lemma demo_returns c : returns c (demo_return c).
Proof.
  split; try done. intros r Hr. cbn. by rewrite decide_False by (intros ->; revert Hr; vm_compute; set_solver).
Qed.

Lemma demo_return_keeps c v x :
  regs c RSP - 8 + 8 ≤ x → 8 ≤ regs c RSP < W64 → load8 (ram (demo_return (push v c))) x = load8 (ram c) x.
Proof.
  intros Hx Hb. change (load8 (store64 (ram c) (wrap64 (regs c RSP - 8)) v) x = load8 (ram c) x).
  rewrite wrap64_small by lia. apply load8_store64_out. lia.
Qed.

Lemma interrupt_roundtrip_witness :
  rip (run (interrupt_common demo_return) (run (stub_for 14 (Some 6)) (interrupt 0x8000 8 0x9000 (Some 6) demo_user))) = 0x401000.
Proof.
  refine (match interrupt_roundtrip demo_user 0x8000 8 0x9000 14 (Some 6) demo_return (us_ok _ _ _ demo_user_ok)
                  (or_intror _) _ _ _ _ (demo_returns _) (λ x Hx, demo_return_keeps _ _ x _ _) with
          | conj _ (conj _ (conj H _)) => H end); try by vm_compute.
  revert Hx. vm_compute. intros [Hx _] H. by apply Hx.
Defined.

(** Two tasks: the first calls [switch_context] at [0x5000] on its stack, the other is new. *)
Definition store_words (m : memory) (a : Z) (ws : list Z) : memory :=
  fold_left (λ m '(i, w), store64 m (a + 8 * i) w) (zip (range 0 (Z.of_nat (length ws))) ws) m.

Definition demo_switch_ram : memory :=
  store_words (store64 (store64 (λ _, 0) 0x2008 (0x9000 - 56)) 0x5000 0x80001234)
    (0x9000 - 56) (initial_frame 0x401000 0x7000 0x80005678).

Definition calling_switch (prev next sp v : Z) (m : memory) : cpu :=
  mkCpu (λ r, match r with RDI => prev | RSI => next | RSP => sp | _ => v end) 0 0x2 false KERNEL_CODE_SELECTOR 0
    (λ i, if i =? IA32_GS_BASE then 0x1000 else 0) m.

Definition demo_switch : cpu := calling_switch 0x2000 0x2008 0x5000 3 demo_switch_ram.

(** The new task later switches back. *)
Definition demo_back : cpu := calling_switch 0x2008 0x2000 0x8F00 9 (ram (run switch_context_code demo_switch)).

Lemma calling_switch_ok prev next sp v m :
  is_u64 prev → is_u64 next → is_u64 sp → is_u64 v → cpu_ok (calling_switch prev next sp v m).
Proof.
  intros. split_and!; [by intros []|by vm_compute..].
Qed.

Lemma demo_switch_placed m : switch_placed (calling_switch 0x2000 0x2008 0x5000 3 m) 0x2000 0x2008 (0x9000 - 56).
Proof.
  split; [by apply calling_switch_ok|..]; cbn [calling_switch regs]; unfold apart, W64; split_and?; lia.
Qed.

Lemma demo_back_placed m : switch_placed (calling_switch 0x2008 0x2000 0x8F00 9 m) 0x2008 0x2000 (0x5000 - 48).
Proof.
  split; [by apply calling_switch_ok|..]; cbn [calling_switch regs]; unfold apart, W64; split_and?; lia.
Qed.

Lemma demo_new_context :
  words_at demo_switch_ram (0x9000 - 56) (initial_frame 0x401000 0x7000 0x80005678).
Proof. intros i w Hi. do 7 (destruct i as [|i]; [injection Hi as <-; by vm_compute|]). done. Qed.

Lemma ram_calling_switch prev next sp v m : ram (calling_switch prev next sp v m) = m.
Proof. done. Qed.

Lemma demo_back_ram x : load8 (ram demo_back) x = load8 (ram (run switch_context_code demo_switch)) x.
Proof. unfold demo_back. by rewrite ram_calling_switch. Qed.

Lemma switch_roundtrip_witness :
  rip (run switch_context_code demo_back) = 0x80001234 ∧ regs (run switch_context_code demo_back) RBX = 3.
Proof.
  refine (match switch_roundtrip demo_switch demo_back 0x2000 0x2008 (0x9000 - 56) (initial_values 0x401000 0x7000) 0x80005678
            0x2008 (demo_switch_placed _) {| sc_rsp := _; sc_words := demo_new_context |} with
          | conj _ H => match H (λ x _, demo_back_ram x) (demo_back_placed _) with conj H1 (conj _ H2) => conj _ (H2 RBX _) end end).
  - by vm_compute.
  - by vm_compute.
  - by apply (bool_decide_unpack _).
Defined.

Lemma thread_start_witness :
  fresh_user 0x401000 0x7000 0x1000 (run user_thread_entry_code (run switch_context_code demo_switch)).
Proof.
  refine (proj2 (thread_start demo_switch 0x2000 0x2008 0x9000 0x401000 0x7000 0x80005678 (demo_switch_placed _) _ demo_new_context _ _));
    by vm_compute.
Defined.
