(* ===== verification/Device.v ===== *)
(** * Devices

    The hardware that the kernel drives besides memory: port I/O ([src/arch/x86_64/port.rs]),
    memory-mapped registers and model-specific registers.  The devices are a parameter: [Hardware]
    has what the kernel can do to them, and the files of the drivers state what they rely on of
    their devices.  [Io] is the state that driver code runs on: memory with the allocator, the
    devices, the interrupt flag and the statics of the drivers. *)

From S2P Require Import Prelude Memory Bytes Frame Paging PageTree PageMap AddressSpace VirtMem Stack Ring Tcb.

(** ** Definitions *)

Definition W32 : Z := 2 ^ 32.
Definition is_u32 (v : Z) : Prop := 0 ≤ v < W32.
Definition is_u8 (v : Z) : Prop := 0 ≤ v < 256.

(** [value as u32], [value as u8] *)
Definition as_u32 (v : Z) : Z := v mod W32.
Definition as_u8 (v : Z) : Z := v mod 256.

Class Hardware (D : Type) := {
  port_in : Z → D → Z * D;
  port_out : Z → Z → D → D;
  mmio_in : VirtualAddr → D → Z * D;
  mmio_out : VirtualAddr → Z → D → D;
  msr_in : Z → D → Z * D;
  msr_out : Z → Z → D → D;
  (* Time passes; the vector that the interrupt controller then signals, if any. *)
  elapse : D → option Z * D;
}.

(** The statics of [apic.rs] and [timer.rs]. *)
Record Counters := mkCounters {
  APIC_ERROR_COUNT : usize;
  LAST_APIC_ERROR : Z;
  APIC_TIMER_COUNT : usize;
  PIT_FIRED : bool;
  LAPIC_COUNT_AT_PIT : Z;
}.

Record Io (D : Type) := mkIo {
  io_mem : MState;
  io_dev : D;
  io_if : bool;
  io_counters : Counters;
}.
Arguments mkIo {D}.
Arguments io_mem {D}.
Arguments io_dev {D}.
Arguments io_if {D}.
Arguments io_counters {D}.

Section devices.
Context {D : Type} `{!Hardware D}.

Definition set_io_mem (m : MState) (s : Io D) : Io D := mkIo m (io_dev s) (io_if s) (io_counters s).
Definition set_io_dev (d : D) (s : Io D) : Io D := mkIo (io_mem s) d (io_if s) (io_counters s).
Definition set_io_if (b : bool) (s : Io D) : Io D := mkIo (io_mem s) (io_dev s) b (io_counters s).
Definition set_io_counters (c : Counters) (s : Io D) : Io D := mkIo (io_mem s) (io_dev s) (io_if s) c.

(** A read and a write of the devices. *)
Definition dev_in (f : D → Z * D) : M (Io D) Z :=
  let! s := get in
  let '(v, d) := f (io_dev s) in
  do! put (set_io_dev d s) ;;;
  ret v.

Definition dev_out (f : D → D) : M (Io D) unit := modify (λ s, set_io_dev (f (io_dev s)) s).

Definition read_u8 (port : Z) : M (Io D) Z := dev_in (port_in port).
Definition write_u8 (port value : Z) : M (Io D) unit := dev_out (port_out port value).

(** [read_volatile] and [write_volatile] of a [u32] in device memory. *)
Definition read_volatile (a : VirtualAddr) : M (Io D) Z := dev_in (mmio_in a).
Definition write_volatile (a : VirtualAddr) (value : Z) : M (Io D) unit := dev_out (mmio_out a value).

(** The halves that [rdmsr] leaves in edx and eax, and those that [wrmsr] takes from them. *)
Definition read_msr (msr : Z) : M (Io D) Z :=
  let! v := dev_in (msr_in msr) in
  let low := as_u32 v in
  let high := as_u32 (Z.shiftr v 32) in
  ret (Z.lor (Z.shiftl high 32) low).

Definition write_msr_halves (msr value : Z) : M (Io D) unit :=
  let eax := as_u32 value in
  let edx := as_u32 (Z.shiftr value 32) in
  dev_out (msr_out msr (Z.lor (Z.shiftl edx 32) eax)).

Definition on_io_mem {A} (c : M MState A) : M (Io D) A := on_part io_mem set_io_mem c.

Definition update_counters (f : Counters → Counters) : M (Io D) unit :=
  modify (λ s, set_io_counters (f (io_counters s)) s).

Definition cli : M (Io D) unit := modify (set_io_if false).
Definition sti : M (Io D) unit := modify (set_io_if true).

(** ** Lemmas *)

Lemma dev_in_Done f s v d : f (io_dev s) = (v, d) → dev_in f s = Done (v, set_io_dev d s).
Proof. unfold dev_in, bind, get, put, ret. by intros ->. Qed.

Lemma dev_out_Done f s : dev_out f s = Done (tt, set_io_dev (f (io_dev s)) s).
Proof. done. Qed.

Lemma halves v : is_u64 v → Z.lor (Z.shiftl (as_u32 (Z.shiftr v 32)) 32) (as_u32 v) = v.
Proof.
  intros Hv. unfold as_u32, W32. apply Z.bits_inj'. intros n Hn.
  rewrite Z.lor_spec, Z.shiftl_spec by done. destruct (Z.ltb_spec n 32).
  - rewrite Z.testbit_neg_r by lia. by rewrite Z.mod_pow2_bits_low by lia.
  - rewrite (Z.mod_pow2_bits_high v) by lia. rewrite orb_false_r.
    destruct (Z.ltb_spec n 64).
    + rewrite Z.mod_pow2_bits_low, Z.shiftr_spec by lia. f_equal. lia.
    + rewrite Z.mod_pow2_bits_high by lia. apply is_u64_bits in Hv as [_ Hv]. by rewrite Hv.
Qed.

Lemma read_msr_Done msr s v d :
  msr_in msr (io_dev s) = (v, d) → is_u64 v → read_msr msr s = Done (v, set_io_dev d s).
Proof. intros E Hv. unfold read_msr. rewrite (bind_Done _ _ _ _ _ (dev_in_Done _ _ _ _ E)). by rewrite halves. Qed.

Lemma write_msr_Done msr v s :
  is_u64 v → write_msr_halves msr v s = Done (tt, set_io_dev (msr_out msr v (io_dev s)) s).
Proof. intros Hv. unfold write_msr_halves. by rewrite halves, dev_out_Done. Qed.

Lemma set_io_dev_dev d s : io_dev (set_io_dev d s) = d.
Proof. done. Qed.

Lemma set_io_dev_same s : set_io_dev (io_dev s) s = s.
Proof. by destruct s. Qed.

Lemma set_io_dev_twice d d' s : set_io_dev d (set_io_dev d' s) = set_io_dev d s.
Proof. done. Qed.
End devices.
