(* ===== verification/Apic.v ===== *)
(** * Interrupt controllers and timers

    Model of the drivers [apic.rs], [io_apic.rs], [pit.rs] and [timer.rs] of [src/arch/x86_64],
    of [init_interrupt_controller] of its [mod.rs] and of the handlers of [apic_vectors.rs], on
    hardware that is known by the laws of [ApicHardware]. *)

From S2P Require Import Prelude Memory Bytes Layout Frame Paging PageTree PageMap AddressSpace VirtMem Stack.
From S2P Require Import Ring Tcb Acpi Descriptors Device.

(** ** Definitions *)

Definition APIC_ID : Z := 0x20.
Definition APIC_EOI : Z := 0xB0.
Definition APIC_TPR : Z := 0x80.
Definition APIC_SVR : Z := 0xF0.
Definition APIC_ESR : Z := 0x280.
Definition APIC_LVT_ERROR : Z := 0x370.
Definition APIC_LVT_MASKED : Z := Z.shiftl 1 16.
Definition LOCAL_APIC_VIRTUAL_ADDRESS : VirtualAddr := 0xFFFFFFFD00000000.
Definition APIC_LVT_TIMER : Z := 0x320.
Definition APIC_TIMER_INITIAL_COUNT : Z := 0x380.
Definition APIC_TIMER_CURRENT_COUNT : Z := 0x390.
Definition APIC_TIMER_DIVIDE_CONFIG : Z := 0x3E0.

Definition IA32_APIC_BASE : Z := 0x1B.
Definition APIC_BASE_BSP : Z := Z.shiftl 1 8.
Definition APIC_BASE_X2APIC_ENABLE : Z := Z.shiftl 1 10.
Definition APIC_BASE_GLOBAL_ENABLE : Z := Z.shiftl 1 11.
Definition APIC_BASE_ADDRESS_MASK : Z := 0x000FFFFFFFFFF000.

Inductive LocalApicAccess := X2Apic | XApic.

Inductive LocalApicError := AddressMismatch | ApicDisabled | FailedToMapApic | NotBootSystemProcessor.

Record LocalApic := mkLocalApic { apic_id : Z; apic_access : LocalApicAccess }.

Definition IOWIN : usize := 0x10.
Definition IOAPIC_ID : Z := 0x00.
Definition IOAPIC_VERSION : Z := 0x01.
Definition IOAPIC_REDIRECTION_BASE : Z := 0x10.
Definition IOAPIC_MASKED : Z := Z.shiftl 1 16.
Definition IOAPIC_VIRTUAL_ADDRESS : VirtualAddr := 0xFFFFFFFD10000000.

Inductive IoApicError :=
| IdMismatch (expected actual : Z)
| GsiOutsideRange
| FailedToMapIoApic
| InvalidRedirectionIndex.

Record RedirectionConfig := mkRedirectionConfig {
  rc_vector : Z;
  rc_destination : Z;
  rc_polarity : InterruptPolarity;
  rc_trigger : TriggerMode;
}.

Record IoApic := mkIoApic {
  ioapic_base : VirtualAddr;
  global_interrupt_base : Z;
  redirection_entry_count : Z;
}.

Definition PIT_CHANNEL_0 : Z := 0x40.
Definition PIT_COMMAND : Z := 0x43.
Definition CHANNEL_0 : Z := Z.shiftl 0 6.
Definition LOW_HIGH : Z := Z.shiftl 3 4.
Definition MODE_0 : Z := Z.shiftl 0 1.
Definition BINARY : Z := 0.
Definition PIT_FREQUENCY : Z := 1193182.
Definition PIT_CALIBRATION_COUNT : Z := 0xFFFF.

Inductive TimerCalibrationError := PitTimeout | IoApicNotHandled | FrequencyOverflow | InvalidTimerCount.

Inductive InterruptInitError :=
| InvalidLocalApicId
| InvalidLocalApicAddress
| FailedToGetIoApic
| InitIoApicError (e : IoApicError)
| InitLocalApicError (e : LocalApicError)
| InitTimerCalibrationError (e : TimerCalibrationError)
| InitMalformedMadt
| PitNotHandled.

Record InterruptController := mkInterruptController {
  local_apic : LocalApic;
  io_apic : IoApic;
  local_timer_frequency : Z;
}.

(** The device memory of both controllers is mapped writable for the kernel alone. *)
Definition DEVICE_PERMISSIONS : PagePermissions := mkPagePermissions true false false.

(** [gsi] or [index] in [u32], [value] as [u8] if it fits. *)
Definition try_u8 (v : Z) : option Z := if v <? 256 then Some v else None.

Section drivers.
Context {D : Type} `{!Hardware D}.

(** *** The local APIC *)

Definition LocalApicAccess_read (self : LocalApicAccess) (offset : Z) : M (Io D) Z :=
  match self with
  | X2Apic => read_msr (0x800 + offset / 16)
  | XApic => read_volatile (LOCAL_APIC_VIRTUAL_ADDRESS + offset)
  end.

Definition LocalApicAccess_write (self : LocalApicAccess) (offset value : Z) : M (Io D) unit :=
  match self with
  | X2Apic => write_msr_halves (0x800 + offset / 16) value
  | XApic => write_volatile (LOCAL_APIC_VIRTUAL_ADDRESS + offset) (as_u32 value)
  end.

Definition LocalApicAccess_end_of_interrupt (self : LocalApicAccess) : M (Io D) unit :=
  LocalApicAccess_write self APIC_EOI 0.

(** [init], once the way of access is chosen. *)
Definition LocalApic_setup (access : LocalApicAccess) : M (Io D) (result LocalApic LocalApicError) :=
  let! raw_id := LocalApicAccess_read access APIC_ID in
  let id := match access with
            | XApic => as_u32 (Z.shiftr raw_id 24)
            | X2Apic => as_u32 raw_id
            end in
  do! write_u8 0x21 0xFF ;;;
  do! write_u8 0xA1 0xFF ;;;
  do! LocalApicAccess_write access APIC_LVT_ERROR (Z.lor APIC_ERROR_VECTOR APIC_LVT_MASKED) ;;;
  do! LocalApicAccess_write access APIC_ESR 0 ;;;
  let! _ := LocalApicAccess_read access APIC_ESR in
  do! LocalApicAccess_write access APIC_TPR 0 ;;;
  do! LocalApicAccess_write access APIC_SVR (Z.lor (Z.shiftl 1 8) APIC_SPURIOUS_VECTOR) ;;;
  ret (Ok (mkLocalApic id access)).

Definition LocalApic_init (local_apic_address : PhysicalAddr) (address_space : AddressSpace) :
    M (Io D) (result LocalApic LocalApicError) :=
  let! apic_base := read_msr IA32_APIC_BASE in
  let bsp := negb (Z.land apic_base APIC_BASE_BSP =? 0) in
  let x2apix := negb (Z.land apic_base APIC_BASE_X2APIC_ENABLE =? 0) in
  let enabled := negb (Z.land apic_base APIC_BASE_GLOBAL_ENABLE =? 0) in
  let xapic_physical_addr := Z.land apic_base APIC_BASE_ADDRESS_MASK in
  if negb (local_apic_address =? xapic_physical_addr) then ret (Err AddressMismatch)
  else if negb enabled then ret (Err ApicDisabled)
  else if negb bsp then ret (Err NotBootSystemProcessor)
  else
    let? access :=
      (if x2apix : bool then ret (Ok X2Apic)
       else
         let! r := on_io_mem (AddressSpace_map address_space local_apic_address LOCAL_APIC_VIRTUAL_ADDRESS
                     DEVICE_PERMISSIONS Uncacheable) in
         ret (match r with Ok _ => Ok XApic | Err _ => Err FailedToMapApic end)) in
    LocalApic_setup access.

Definition LocalApic_start_timer (self : LocalApic) : M (Io D) unit :=
  LocalApicAccess_write (apic_access self) APIC_LVT_TIMER APIC_TIMER_VECTOR.

Definition LocalApic_start_calibration_counter (self : LocalApic) : M (Io D) unit :=
  do! LocalApicAccess_write (apic_access self) APIC_LVT_TIMER (Z.lor APIC_TIMER_VECTOR APIC_LVT_MASKED) ;;;
  do! LocalApicAccess_write (apic_access self) APIC_TIMER_DIVIDE_CONFIG 3 ;;;
  LocalApicAccess_write (apic_access self) APIC_TIMER_INITIAL_COUNT (W32 - 1).

Definition LocalApic_stop_timer (self : LocalApic) : M (Io D) unit :=
  do! LocalApicAccess_write (apic_access self) APIC_LVT_TIMER (Z.lor APIC_TIMER_VECTOR APIC_LVT_MASKED) ;;;
  LocalApicAccess_write (apic_access self) APIC_TIMER_INITIAL_COUNT 0.

Definition current_access : M (Io D) LocalApicAccess :=
  let! apic_base := read_msr IA32_APIC_BASE in
  ret (if negb (Z.land apic_base APIC_BASE_X2APIC_ENABLE =? 0) then X2Apic else XApic).

Definition current_timer_count : M (Io D) Z :=
  let! access := current_access in
  let! count := LocalApicAccess_read access APIC_TIMER_CURRENT_COUNT in
  ret (as_u32 count).

Definition end_of_interrupt : M (Io D) unit :=
  let! access := current_access in LocalApicAccess_end_of_interrupt access.

Definition record_error : M (Io D) unit :=
  let! access := current_access in
  do! LocalApicAccess_write access APIC_ESR 0 ;;;
  let! error := LocalApicAccess_read access APIC_ESR in
  update_counters (λ c, mkCounters ((APIC_ERROR_COUNT c + 1) mod W64) (as_u32 error) (APIC_TIMER_COUNT c)
                          (PIT_FIRED c) (LAPIC_COUNT_AT_PIT c)).

Definition record_timer : M (Io D) unit :=
  update_counters (λ c, mkCounters (APIC_ERROR_COUNT c) (LAST_APIC_ERROR c) ((APIC_TIMER_COUNT c + 1) mod W64)
                          (PIT_FIRED c) (LAPIC_COUNT_AT_PIT c)).

(** *** The I/O APIC *)

Definition IoApic_read (self : IoApic) (register : Z) : M (Io D) Z :=
  do! write_volatile (ioapic_base self) register ;;;
  read_volatile (ioapic_base self + IOWIN).

Definition IoApic_write (self : IoApic) (register value : Z) : M (Io D) unit :=
  do! write_volatile (ioapic_base self) register ;;;
  write_volatile (ioapic_base self + IOWIN) value.

Definition IoApic_new (expected_id : Z) (physical_address : PhysicalAddr) (interrupt_base : Z)
    (virtual_address : VirtualAddr) (address_space : AddressSpace) : M (Io D) (result IoApic IoApicError) :=
  let! r := on_io_mem (AddressSpace_map address_space physical_address virtual_address
              DEVICE_PERMISSIONS Uncacheable) in
  match r with
  | Err _ => ret (Err FailedToMapIoApic)
  | Ok _ =>
      let self := mkIoApic virtual_address interrupt_base 0 in
      let! version := IoApic_read self IOAPIC_VERSION in
      let self := mkIoApic virtual_address interrupt_base (Z.land (Z.shiftr version 16) 0xFF + 1) in
      let! id := IoApic_read self IOAPIC_ID in
      let id := Z.land (Z.shiftr id 24) 0xF in
      if negb (id =? expected_id) then ret (Err (IdMismatch expected_id id))
      else ret (Ok self)
  end.

Definition redirection_index (self : IoApic) (gsi : Z) : result Z IoApicError :=
  let* index := ok_or (checked_sub gsi (global_interrupt_base self)) GsiOutsideRange in
  if redirection_entry_count self <=? index then Err GsiOutsideRange else Ok index.

Definition handles_gsi (self : IoApic) (gsi : Z) : bool :=
  match checked_sub gsi (global_interrupt_base self) with
  | Some index => index <? redirection_entry_count self
  | None => false
  end.

Definition redirection_registers (self : IoApic) (gsi : Z) : result (Z * Z) IoApicError :=
  let* index := redirection_index self gsi in
  let* low_register := ok_or (try_u8 (IOAPIC_REDIRECTION_BASE + index * 2)) InvalidRedirectionIndex in
  let* high_register := ok_or (try_u8 (IOAPIC_REDIRECTION_BASE + index * 2 + 1)) InvalidRedirectionIndex in
  Ok (low_register, high_register).

(** The 64-bit redirection entry that [configure_masked] builds. *)
Definition redirection_entry (config : RedirectionConfig) : Z :=
  let entry := rc_vector config in
  let entry := Z.lor entry (match rc_polarity config with
                            | ActiveHigh => Z.shiftl 0 13
                            | ActiveLow => Z.shiftl 1 13
                            end) in
  let entry := Z.lor entry (match rc_trigger config with
                            | Edge => Z.shiftl 0 15
                            | Level => Z.shiftl 1 15
                            end) in
  let entry := Z.lor entry (Z.shiftl 1 16) in
  Z.lor entry (Z.shiftl (rc_destination config) 56).

Definition configure_masked (self : IoApic) (gsi : Z) (config : RedirectionConfig) :
    M (Io D) (result unit IoApicError) :=
  let entry := redirection_entry config in
  let? (low_register, high_register) := ret (redirection_registers self gsi) in
  let! old_low := IoApic_read self low_register in
  do! IoApic_write self low_register (Z.lor old_low IOAPIC_MASKED) ;;;
  do! IoApic_write self high_register (as_u32 (Z.shiftr entry 32)) ;;;
  do! IoApic_write self low_register (Z.lor (as_u32 entry) IOAPIC_MASKED) ;;;
  ret (Ok tt).

Definition unmask (self : IoApic) (gsi : Z) : M (Io D) (result unit IoApicError) :=
  let? (low_register, _) := ret (redirection_registers self gsi) in
  let! low := IoApic_read self low_register in
  do! IoApic_write self low_register (Z.ldiff low IOAPIC_MASKED) ;;;
  ret (Ok tt).

Definition mask (self : IoApic) (gsi : Z) : M (Io D) (result unit IoApicError) :=
  let? (low_register, _) := ret (redirection_registers self gsi) in
  let! low := IoApic_read self low_register in
  do! IoApic_write self low_register (Z.lor low IOAPIC_MASKED) ;;;
  ret (Ok tt).

(** *** Timers *)

Definition start_pit_one_shot (count : Z) : M (Io D) unit :=
  do! write_u8 PIT_COMMAND (Z.lor (Z.lor (Z.lor CHANNEL_0 LOW_HIGH) MODE_0) BINARY) ;;;
  do! write_u8 PIT_CHANNEL_0 (as_u8 count) ;;;
  write_u8 PIT_CHANNEL_0 (as_u8 (Z.shiftr count 8)).

Definition record_pit_calibration : M (Io D) unit :=
  let! current := current_timer_count in
  update_counters (λ c, mkCounters (APIC_ERROR_COUNT c) (LAST_APIC_ERROR c) (APIC_TIMER_COUNT c) true current).

(** [apic_vectors::handle] *)
Definition apic_vectors_handle (vector : Z) : M (Io D) unit :=
  if vector =? PIT_CALIBRATION_VECTOR then do! record_pit_calibration ;;; end_of_interrupt
  else if vector =? APIC_TIMER_VECTOR then do! record_timer ;;; end_of_interrupt
  else if vector =? APIC_ERROR_VECTOR then do! record_error ;;; end_of_interrupt
  else ret tt.

(** [spin_loop]: time passes, and an interrupt that is signalled meanwhile is taken if they are
    enabled. *)
Definition spin_loop : M (Io D) unit :=
  let! s := get in
  let '(vector, d) := elapse (io_dev s) in
  do! put (set_io_dev d s) ;;;
  match vector with
  | Some vector => if io_if s then apic_vectors_handle vector else ret tt
  | None => ret tt
  end.

(** The loop of [calibrate_local_apic], for at most [fuel] rounds: [true] when the PIT has fired,
    [false] when the counter of the local APIC has run out, [None] when [fuel] has. *)
Fixpoint wait_for_pit (fuel : nat) : M (Io D) (option bool) :=
  match fuel with
  | O => ret None
  | S fuel =>
      let! fired := gets (λ s, PIT_FIRED (io_counters s)) in
      if fired : bool then ret (Some true)
      else
        let! count := current_timer_count in
        if count =? 0 then ret (Some false)
        else do! spin_loop ;;; wait_for_pit fuel
  end.

Definition calibrate_local_apic (fuel : nat) (local_apic : LocalApic) (io_apic : IoApic) (pit_route : IsaIrqRoute) :
    M (Io D) (option (result Z TimerCalibrationError)) :=
  do! update_counters (λ c, mkCounters (APIC_ERROR_COUNT c) (LAST_APIC_ERROR c) (APIC_TIMER_COUNT c) false 0) ;;;
  let! r := unmask io_apic (gsi pit_route) in
  match r with
  | Err _ => ret (Some (Err IoApicNotHandled))
  | Ok _ =>
      do! LocalApic_start_calibration_counter local_apic ;;;
      do! start_pit_one_shot PIT_CALIBRATION_COUNT ;;;
      do! sti ;;;
      let! fired := wait_for_pit fuel in
      match fired with
      | None => ret None
      | Some false =>
          do! cli ;;;
          let! _ := mask io_apic (gsi pit_route) in
          do! LocalApic_stop_timer local_apic ;;;
          ret (Some (Err PitTimeout))
      | Some true =>
          do! cli ;;;
          let! r := mask io_apic (gsi pit_route) in
          match r with
          | Err _ => ret (Some (Err IoApicNotHandled))
          | Ok _ =>
              do! LocalApic_stop_timer local_apic ;;;
              let! count := gets (λ s, LAPIC_COUNT_AT_PIT (io_counters s)) in
              let! elapsed := usub (W32 - 1) count in
              if elapsed =? 0 then ret (Some (Err InvalidTimerCount))
              else
                match checked_mul elapsed PIT_FREQUENCY with
                | None => ret (Some (Err FrequencyOverflow))
                | Some product => ret (Some (Ok (product / PIT_CALIBRATION_COUNT)))
                end
          end
      end
  end.

(** *** Setting the controllers up *)

Definition err_as {A E F} (f : E → F) (c : M (Io D) (result A E)) : M (Io D) (result A F) :=
  let! r := c in ret (map_err f r).

Definition on_madt {A} (f : memory → result A AcpiError) (e : InterruptInitError) :
    M (Io D) (result A InterruptInitError) :=
  let! s := get in ret (map_err (λ _, e) (f (ms_mem (io_mem s)))).

(** [init_interrupt_controller] up to the calibration. *)
Definition prepare_controller (madt : Madt) (address_space : AddressSpace) :
    M (Io D) (result (LocalApic * IoApic * IsaIrqRoute) InterruptInitError) :=
  let? local_apic_address := on_madt (λ m, effective_local_apic_address m madt) InvalidLocalApicAddress in
  let? local_apic := err_as InitLocalApicError (LocalApic_init local_apic_address address_space) in
  let? io_apic_info := on_madt (λ m, sole_io_apic m madt) FailedToGetIoApic in
  let? pit_route := on_madt (λ m, isa_irq_route m madt 0) InitMalformedMadt in
  let? io_apic := err_as InitIoApicError
    (IoApic_new (info_id io_apic_info) (info_apic_address io_apic_info)
       (info_global_system_interrupt_base io_apic_info) IOAPIC_VIRTUAL_ADDRESS address_space) in
  if negb (handles_gsi io_apic (gsi pit_route)) then ret (Err PitNotHandled)
  else
    let? destination := ret (ok_or (try_u8 (apic_id local_apic)) InvalidLocalApicId) in
    let? _ := err_as InitIoApicError
      (configure_masked io_apic (gsi pit_route)
         (mkRedirectionConfig PIT_CALIBRATION_VECTOR destination (polarity pit_route) (trigger pit_route))) in
    ret (Ok (local_apic, io_apic, pit_route)).

Definition init_interrupt_controller (fuel : nat) (madt : Madt) (address_space : AddressSpace) :
    M (Io D) (option (result InterruptController InterruptInitError)) :=
  let! prepared := prepare_controller madt address_space in
  match prepared with
  | Err e => ret (Some (Err e))
  | Ok (local_apic, io_apic, pit_route) =>
      let! o := calibrate_local_apic fuel local_apic io_apic pit_route in
      ret (match o with
           | None => None
           | Some (Err e) => Some (Err (InitTimerCalibrationError e))
           | Some (Ok frequency) => Some (Ok (mkInterruptController local_apic io_apic frequency))
           end)
  end.
End drivers.

(** ** What the drivers rely on *)

(** What is written to the devices, in order. *)
Inductive event :=
| LapicSet (offset value : Z)
| IoApicSet (register value : Z)
| PortSet (port value : Z).

Definition access_of (apic_base : Z) : LocalApicAccess :=
  if negb (Z.land apic_base APIC_BASE_X2APIC_ENABLE =? 0) then X2Apic else XApic.

(** The registers of the local APIC and the ports that the drivers use. *)
Definition lapic_readable : list Z := [APIC_ID; APIC_ESR; APIC_TIMER_CURRENT_COUNT].
Definition lapic_writable : list Z :=
  [APIC_EOI; APIC_TPR; APIC_SVR; APIC_ESR; APIC_LVT_ERROR; APIC_LVT_TIMER; APIC_TIMER_INITIAL_COUNT;
   APIC_TIMER_DIVIDE_CONFIG].
Definition driver_ports : list Z := [0x21; 0xA1; PIT_COMMAND; PIT_CHANNEL_0].

(** The bits of a redirection entry that software sets: vector, delivery mode, destination mode,
    polarity, trigger and mask in the low half, the destination in the high one.  The controller
    itself changes the status bits between them. *)
Definition io_writable (register i : Z) : bool :=
  (IOAPIC_REDIRECTION_BASE <=? register) &&
  (if Z.even register then (0 <=? i) && (i <? 12) || (i =? 13) || (i =? 15) || (i =? 16)
   else (24 <=? i) && (i <? 32)).

(** The last value written to a register of the I/O APIC. *)
Definition last_io (es : list event) (register old : Z) : Z :=
  foldl (λ v e, match e with IoApicSet r w => if r =? register then w else v | _ => v end) old es.

Section laws.
Context {D : Type} `{!Hardware D}.

Definition lapic_in (access : LocalApicAccess) (offset : Z) : D → Z * D :=
  match access with
  | X2Apic => msr_in (0x800 + offset / 16)
  | XApic => mmio_in (LOCAL_APIC_VIRTUAL_ADDRESS + offset)
  end.
Definition lapic_out (access : LocalApicAccess) (offset value : Z) : D → D :=
  match access with
  | X2Apic => msr_out (0x800 + offset / 16) value
  | XApic => mmio_out (LOCAL_APIC_VIRTUAL_ADDRESS + offset) value
  end.

(** What the drivers see of the devices: the base register of the local APIC, the time until its
    counter runs out and the counter itself, the registers of the I/O APIC, and what was written. *)
Record view := mkView {
  apic_base : D → Z;
  time_left : D → Z;
  timer_count : D → Z;
  io_reg : D → Z → Z;
  written : D → list event;
}.

(** The devices go from [d] to [d'] while [es] is written to them.  Time may pass, and only writing
    the initial count gives the counter more of it. *)
Record step (V : view) (es : list event) (d d' : D) : Prop := {
  st_base : apic_base V d' = apic_base V d;
  st_written : written V d' = written V d ++ es;
  st_io : ∀ r i, io_writable r i = true →
    Z.testbit (io_reg V d' r) i = Z.testbit (last_io es r (io_reg V d r)) i;
  st_time : (∀ v, LapicSet APIC_TIMER_INITIAL_COUNT v ∉ es) → time_left V d' ≤ time_left V d;
}.

Class ApicHardware (V : view) : Prop := {
  ah_base_u64 d : is_u64 (apic_base V d);
  ah_count_u32 d : is_u32 (timer_count V d);
  ah_io_u32 d r : is_u32 (io_reg V d r);
  ah_time_pos d : 0 ≤ time_left V d;
  ah_time_up d : time_left V d = 0 → timer_count V d = 0;
  ah_base d : ∃ d', msr_in IA32_APIC_BASE d = (apic_base V d, d') ∧ step V [] d d';
  ah_lapic_in d offset : offset ∈ lapic_readable →
    ∃ v d', lapic_in (access_of (apic_base V d)) offset d = (v, d') ∧ is_u32 v ∧ step V [] d d' ∧
      (offset = APIC_TIMER_CURRENT_COUNT → v = timer_count V d);
  ah_lapic_out d offset v : offset ∈ lapic_writable → is_u32 v →
    step V [LapicSet offset v] d (lapic_out (access_of (apic_base V d)) offset v d);
  ah_io_in d r : is_u8 r → ∃ d',
    mmio_in (IOAPIC_VIRTUAL_ADDRESS + IOWIN) (mmio_out IOAPIC_VIRTUAL_ADDRESS r d) = (io_reg V d r, d') ∧
    step V [] d d';
  ah_io_out d r v : is_u8 r → is_u32 v →
    step V [IoApicSet r v] d (mmio_out (IOAPIC_VIRTUAL_ADDRESS + IOWIN) v (mmio_out IOAPIC_VIRTUAL_ADDRESS r d));
  ah_port d p v : p ∈ driver_ports → is_u8 v → step V [PortSet p v] d (port_out p v d);
  ah_elapse d : step V [] d (elapse d).2 ∧
    (time_left V (elapse d).2 < time_left V d ∨ time_left V (elapse d).2 = 0);
}.

(** ** Lemmas *)

Lemma last_io_app es es' r old : last_io (es ++ es') r old = last_io es' r (last_io es r old).
Proof. apply foldl_app. Qed.

Lemma last_io_cases es r : (∃ v, ∀ old, last_io es r old = v) ∨ (∀ old, last_io es r old = old).
Proof.
  induction es as [|e es IH] using rev_ind; [by right|].
  setoid_rewrite last_io_app. destruct e as [|q w|]; try done. cbn [last_io foldl].
  destruct (q =? r); [left; by exists w|done].
Qed.

Lemma last_io_bits es r a b i : Z.testbit a i = Z.testbit b i → Z.testbit (last_io es r a) i = Z.testbit (last_io es r b) i.
Proof. destruct (last_io_cases es r) as [[v H]|H]; by rewrite !H. Qed.

Context (V : view) `{!ApicHardware V}.

Lemma step_trans es es' d d' d'' : step V es d d' → step V es' d' d'' → step V (es ++ es') d d''.
Proof.
  intros [B1 W1 I1 T1] [B2 W2 I2 T2]. constructor.
  - congruence.
  - by rewrite W2, W1, <- app_assoc.
  - intros r i Hw. rewrite I2 by done. rewrite last_io_app. by apply last_io_bits, I1.
  - intros H. etrans; [apply T2|apply T1]; intros v Hv; apply (H v), elem_of_app; auto.
Qed.

(** A driver ran: only the devices changed. *)
Record ran (es : list event) (s s' : Io D) : Prop := {
  rn_mem : io_mem s' = io_mem s;
  rn_if : io_if s' = io_if s;
  rn_counters : io_counters s' = io_counters s;
  rn_step : step V es (io_dev s) (io_dev s');
}.

Lemma ran_dev es s d : step V es (io_dev s) d → ran es s (set_io_dev d s).
Proof. by constructor. Qed.

Lemma ran_trans es es' s s' s'' : ran es s s' → ran es' s' s'' → ran (es ++ es') s s''.
Proof. intros [] []. constructor; try congruence. by eapply step_trans. Qed.

Lemma ran_base es s s' : ran es s s' → apic_base V (io_dev s') = apic_base V (io_dev s).
Proof. intros []. by eapply st_base. Qed.

Lemma current_access_spec s :
  ∃ s', current_access s = Done (access_of (apic_base V (io_dev s)), s') ∧ ran [] s s'.
Proof.
  destruct (ah_base (io_dev s)) as (d & E & Hd). exists (set_io_dev d s). split; [|by apply ran_dev].
  unfold current_access. by rewrite (bind_Done _ _ _ _ _ (read_msr_Done _ _ _ _ E (ah_base_u64 _))).
Qed.

Lemma access_read_spec s offset :
  offset ∈ lapic_readable →
  ∃ v s', LocalApicAccess_read (access_of (apic_base V (io_dev s))) offset s = Done (v, s') ∧ is_u32 v ∧ ran [] s s' ∧
    (offset = APIC_TIMER_CURRENT_COUNT → v = timer_count V (io_dev s)).
Proof.
  intros Ho. destruct (ah_lapic_in (io_dev s) offset Ho) as (v & d & E & Hv & Hd & Hc).
  exists v, (set_io_dev d s). split_and!; [|done|by apply ran_dev|done].
  unfold LocalApicAccess_read. destruct (access_of _); cbn [lapic_in] in E;
    [apply read_msr_Done; [done|unfold is_u32, W32 in Hv; ulia]|by apply dev_in_Done].
Qed.

Lemma as_u32_small v : is_u32 v → as_u32 v = v.
Proof. intros H. by apply Z.mod_small. Qed.

Lemma access_write_spec s offset v :
  offset ∈ lapic_writable → is_u32 v →
  ∃ s', LocalApicAccess_write (access_of (apic_base V (io_dev s))) offset v s = Done (tt, s') ∧
    ran [LapicSet offset v] s s'.
Proof.
  intros Ho Hv. pose proof (ah_lapic_out (io_dev s) offset v Ho Hv) as Hd.
  eexists. split; [|by apply ran_dev]. unfold LocalApicAccess_write. unfold is_u32, W32 in *.
  destruct (access_of _); cbn [lapic_out].
  - apply write_msr_Done. ulia.
  - by rewrite as_u32_small.
Qed.

Lemma write_u8_spec s p v :
  p ∈ driver_ports → is_u8 v → ∃ s', write_u8 p v s = Done (tt, s') ∧ ran [PortSet p v] s s'.
Proof. intros Hp Hv. eexists. split; [done|]. by apply ran_dev, ah_port. Qed.
End laws.

(** *** Redirection entries *)

(** An entry as the I/O APIC reads it: fixed delivery to one processor. *)
Record RedirectionEntry := mkRedirectionEntry {
  re_config : RedirectionConfig;
  re_delivery_mode : Z;
  re_masked : bool;
}.

Definition decode_redirection (low high : Z) : RedirectionEntry :=
  mkRedirectionEntry
    (mkRedirectionConfig (Z.land low 0xFF) (Z.land (Z.shiftr high 24) 0xFF)
       (if Z.testbit low 13 then ActiveLow else ActiveHigh) (if Z.testbit low 15 then Level else Edge))
    (Z.land (Z.shiftr low 8) 0xF) (Z.testbit low 16).

Definition config_valid (c : RedirectionConfig) : Prop := is_u8 (rc_vector c) ∧ is_u8 (rc_destination c).

(** Only the bits that software sets matter. *)
Definition agree (r a b : Z) : Prop := ∀ i, io_writable r i = true → Z.testbit a i = Z.testbit b i.

Definition low_of (i : Z) : Z := IOAPIC_REDIRECTION_BASE + i * 2.
Definition high_of (i : Z) : Z := IOAPIC_REDIRECTION_BASE + i * 2 + 1.

Lemma even_low_of i : Z.even (low_of i) = true.
Proof. unfold low_of. by rewrite Z.mul_comm, Z.even_add_mul_2. Qed.

Lemma even_high_of i : Z.even (high_of i) = false.
Proof. change (high_of i) with (low_of i + 1). by rewrite Z.even_add, even_low_of. Qed.

Lemma writable_low i n : 0 ≤ i → io_writable (low_of i) n = (0 <=? n) && (n <? 12) || (n =? 13) || (n =? 15) || (n =? 16).
Proof.
  intros Hi. unfold io_writable. rewrite even_low_of, (proj2 (Z.leb_le _ _)); [done|].
  unfold low_of. lia.
Qed.

Lemma writable_high i n : 0 ≤ i → io_writable (high_of i) n = (24 <=? n) && (n <? 32).
Proof.
  intros Hi. unfold io_writable. rewrite even_high_of, (proj2 (Z.leb_le _ _)); [done|].
  unfold high_of. lia.
Qed.

Lemma land_ones_ext k a b : 0 ≤ k → (∀ i, 0 ≤ i < k → Z.testbit a i = Z.testbit b i) → Z.land a (Z.ones k) = Z.land b (Z.ones k).
Proof.
  intros Hk H. apply Z.bits_inj'. intros n Hn. rewrite !Z.land_spec. destruct (Z.ltb_spec n k).
  - by rewrite H by lia.
  - by rewrite Z.ones_spec_high, !andb_false_r by lia.
Qed.

Lemma decode_agree i low low' high high' :
  0 ≤ i → agree (low_of i) low low' → agree (high_of i) high high' →
  decode_redirection low high = decode_redirection low' high'.
Proof.
  intros Hi Hl Hh. unfold decode_redirection.
  assert (Hb : ∀ n, (0 <=? n) && (n <? 12) || (n =? 13) || (n =? 15) || (n =? 16) = true →
    Z.testbit low n = Z.testbit low' n) by (intros n Hn; apply Hl; by rewrite writable_low).
  rewrite !(Hb 13), !(Hb 15), !(Hb 16) by done. change 0xFF with (Z.ones 8). change 0xF with (Z.ones 4).
  rewrite (land_ones_ext 8 low low') by (try done; intros n Hn; apply Hb; lia).
  rewrite (land_ones_ext 8 (Z.shiftr high 24) (Z.shiftr high' 24)).
  - rewrite (land_ones_ext 4 (Z.shiftr low 8) (Z.shiftr low' 8)); [done|done|].
    intros n Hn. rewrite !Z.shiftr_spec by lia. apply Hb. lia.
  - done.
  - intros n Hn. rewrite !Z.shiftr_spec by lia. apply Hh. rewrite writable_high by done. lia.
Qed.

(** The low half of an entry before the destination is put in. *)
Definition entry_low (c : RedirectionConfig) : Z :=
  Z.lor (Z.lor (Z.lor (rc_vector c) (match rc_polarity c with ActiveHigh => 0 | ActiveLow => 2 ^ 13 end))
           (match rc_trigger c with Edge => 0 | Level => 2 ^ 15 end)) (2 ^ 16).

Lemma redirection_entry_halves c : redirection_entry c = Z.lor (entry_low c) (Z.shiftl (rc_destination c) 56).
Proof. unfold redirection_entry, entry_low. by destruct (rc_polarity c), (rc_trigger c). Qed.

(** A check of every byte. *)
Lemma all_bytes (f : Z → bool) : forallb f (range 0 256) = true → ∀ v, is_u8 v → f v = true.
Proof. intros H v Hv. rewrite forallb_forall in H. apply H, list_elem_of_In, elem_of_range. exact Hv. Qed.

Lemma entry_low_small c : config_valid c → entry_low c < W32 ∧ 0 ≤ entry_low c.
Proof.
  intros [Hv _]. destruct c as [v d p t]. cbn [rc_vector] in Hv.
  pose (f := λ v, (entry_low (mkRedirectionConfig v d p t) <? W32) && (0 <=? entry_low (mkRedirectionConfig v d p t))).
  assert (f v = true) as Hf by (apply all_bytes; [destruct p, t; vm_compute; reflexivity|done]).
  unfold f in Hf. apply andb_true_iff in Hf as [?%Z.ltb_lt ?%Z.leb_le]. done.
Qed.

Lemma as_u32_entry c : config_valid c → as_u32 (redirection_entry c) = entry_low c.
Proof.
  intros Hc. destruct (entry_low_small c Hc). unfold as_u32. rewrite redirection_entry_halves.
  unfold W32 in *. rewrite <- Z.land_ones, Z.land_lor_distr_l, !Z.land_ones by lia.
  rewrite Z.shiftl_mul_pow2, (Z.mod_small (entry_low c)) by lia.
  replace (rc_destination c * 2 ^ 56) with (rc_destination c * 2 ^ 24 * 2 ^ 32) by lia.
  by rewrite Z.mod_mul, Z.lor_0_r.
Qed.

Lemma shiftr_entry c : config_valid c → as_u32 (Z.shiftr (redirection_entry c) 32) = Z.shiftl (rc_destination c) 24.
Proof.
  intros Hc. destruct (entry_low_small c Hc). rewrite redirection_entry_halves, Z.shiftr_lor.
  destruct Hc as [_ Hd]. unfold is_u8, W32 in *.
  rewrite (Z.shiftr_div_pow2 (entry_low c)), Z.div_small, Z.lor_0_l by lia.
  rewrite Z.shiftr_shiftl_l by lia. change (56 - 32) with 24. rewrite Z.shiftl_mul_pow2 by lia.
  unfold as_u32, W32. apply Z.mod_small. lia.
Qed.

(** The entry that [configure_masked] writes means its configuration. *)
Lemma decode_entry c :
  config_valid c →
  decode_redirection (Z.lor (as_u32 (redirection_entry c)) IOAPIC_MASKED) (as_u32 (Z.shiftr (redirection_entry c) 32)) =
  mkRedirectionEntry c 0 true.
Proof.
  intros Hc. rewrite as_u32_entry, shiftr_entry by done. destruct Hc as [Hv Hd].
  destruct c as [v d p t]. cbn [rc_vector rc_destination] in *.
  assert (Hh : Z.land (Z.shiftr (Z.shiftl d 24) 24) 0xFF = d).
  { rewrite Z.shiftr_shiftl_l by lia. change (24 - 24) with 0. change 0xFF with (Z.ones 8).
    rewrite Z.shiftl_0_r, Z.land_ones by lia. by apply Z.mod_small. }
  unfold decode_redirection. rewrite Hh.
  pose (f := λ v, let low := Z.lor (entry_low (mkRedirectionConfig v d p t)) IOAPIC_MASKED in
    (Z.land low 0xFF =? v) && eqb (Z.testbit low 13) (match p with ActiveLow => true | _ => false end) &&
    eqb (Z.testbit low 15) (match t with Level => true | _ => false end) &&
    (Z.land (Z.shiftr low 8) 0xF =? 0) && Z.testbit low 16).
  assert (f v = true) as Hf by (apply all_bytes; [destruct p, t; vm_compute; reflexivity|done]).
  unfold f in Hf. cbn zeta in Hf. apply andb_true_iff in Hf as [Hf ->].
  apply andb_true_iff in Hf as [Hf ->%Z.eqb_eq]. apply andb_true_iff in Hf as [Hf ->%eqb_prop].
  apply andb_true_iff in Hf as [->%Z.eqb_eq ->%eqb_prop]. by destruct p, t.
Qed.

Lemma redirection_registers_spec self gsi lo hi :
  redirection_registers self gsi = Ok (lo, hi) ↔
  ∃ i, gsi = global_interrupt_base self + i ∧ 0 ≤ i < redirection_entry_count self ∧ i < 120 ∧
    lo = low_of i ∧ hi = high_of i.
Proof.
  unfold redirection_registers, redirection_index, checked_sub, try_u8, low_of, high_of, IOAPIC_REDIRECTION_BASE.
  split.
  - repeat (case_bool; cbn; try done). intros [= <- <-]. exists (gsi - global_interrupt_base self). split_and!; lia.
  - intros (i & -> & Hi & Hm & -> & ->).
    repeat (case_bool; try lia; cbn). repeat f_equal; lia.
Qed.

(** The two ways in which an interrupt is not handled. *)
Lemma redirection_registers_err self gsi e :
  redirection_registers self gsi = Err e →
  (e = GsiOutsideRange ∧ handles_gsi self gsi = false) ∨
  (e = InvalidRedirectionIndex ∧ handles_gsi self gsi = true ∧ 120 ≤ gsi - global_interrupt_base self).
Proof.
  unfold redirection_registers, redirection_index, handles_gsi, checked_sub, try_u8, IOAPIC_REDIRECTION_BASE.
  repeat (case_bool; cbn; try done); intros [= <-]; try (left; done); try lia; right; split_and!; done || lia.
Qed.

Section io_apic.
Context {D : Type} `{!Hardware D} (V : view (D := D)) `{!ApicHardware V}.
Context (self : IoApic) (Hbase : ioapic_base self = IOAPIC_VIRTUAL_ADDRESS).

Lemma io_read_spec s r :
  is_u8 r → ∃ s', IoApic_read self r s = Done (io_reg V (io_dev s) r, s') ∧ ran V [] s s'.
Proof.
  intros Hr. destruct (ah_io_in (io_dev s) r Hr) as (d & E & Hd). exists (set_io_dev d s).
  split; [|by apply ran_dev]. unfold IoApic_read. rewrite Hbase. unfold write_volatile, read_volatile.
  rewrite (bind_Done _ _ _ _ _ (dev_out_Done _ _)). exact (dev_in_Done _ (set_io_dev _ s) _ _ E).
Qed.

Lemma io_write_spec s r v :
  is_u8 r → is_u32 v → ∃ s', IoApic_write self r v s = Done (tt, s') ∧ ran V [IoApicSet r v] s s'.
Proof.
  intros Hr Hv.
  exists (set_io_dev (mmio_out (IOAPIC_VIRTUAL_ADDRESS + IOWIN) v (mmio_out IOAPIC_VIRTUAL_ADDRESS r (io_dev s))) s).
  split; [unfold IoApic_write; by rewrite Hbase|]. by apply ran_dev, ah_io_out.
Qed.

Lemma as_u32_range v : is_u32 (as_u32 v).
Proof. unfold as_u32, is_u32, W32. apply Z.mod_pos_bound. lia. Qed.

Lemma u32_land v : is_u32 v → Z.land v (Z.ones 32) = v.
Proof. intros H. rewrite Z.land_ones by lia. by apply Z.mod_small. Qed.

Lemma land_u32 v : is_u32 (Z.land v (Z.ones 32)).
Proof. rewrite Z.land_ones by lia. apply as_u32_range. Qed.

Lemma lor_u32 a b : is_u32 a → is_u32 b → is_u32 (Z.lor a b).
Proof.
  intros Ha%u32_land Hb%u32_land. rewrite <- Ha, <- Hb, <- Z.land_lor_distr_l. apply land_u32.
Qed.

Lemma ldiff_u32 a b : is_u32 a → is_u32 (Z.ldiff a b).
Proof.
  intros Ha%u32_land. rewrite <- Ha, Z.ldiff_land, <- Z.land_assoc, (Z.land_comm (Z.ones 32)), Z.land_assoc.
  apply land_u32.
Qed.

Lemma masked_u32 v : is_u32 v → is_u32 (Z.lor v IOAPIC_MASKED).
Proof. intros H. by apply lor_u32. Qed.

Context (gsi lo hi : Z) (Hregs : redirection_registers self gsi = Ok (lo, hi)).

Lemma regs_index : ∃ i, 0 ≤ i < 120 ∧ lo = low_of i ∧ hi = high_of i.
Proof. apply redirection_registers_spec in Hregs as (i & _ & Hi & Hm & -> & ->). exists i. split_and!; done || lia. Qed.

Lemma regs_u8 : is_u8 lo ∧ is_u8 hi.
Proof. destruct regs_index as (i & Hi & -> & ->). unfold is_u8, low_of, high_of, IOAPIC_REDIRECTION_BASE. lia. Qed.

(** What [configure_masked] writes: the entry is masked before its destination changes, and stays so. *)
Definition configure_events (old : Z) (c : RedirectionConfig) : list event :=
  [IoApicSet lo (Z.lor old IOAPIC_MASKED); IoApicSet hi (as_u32 (Z.shiftr (redirection_entry c) 32));
   IoApicSet lo (Z.lor (as_u32 (redirection_entry c)) IOAPIC_MASKED)].

Lemma configure_masked_spec s c :
  ∃ s', configure_masked self gsi c s = Done (Ok tt, s') ∧ ran V (configure_events (io_reg V (io_dev s) lo) c) s s'.
Proof.
  destruct regs_u8 as [Hlo Hhi]. unfold configure_masked. rewrite Hregs, bind_ok_ret. cbn beta iota.
  destruct (io_read_spec s lo Hlo) as (s1 & E1 & R1). rewrite (bind_Done _ _ _ _ _ E1).
  destruct (io_write_spec s1 lo (Z.lor (io_reg V (io_dev s) lo) IOAPIC_MASKED) Hlo) as (s2 & E2 & R2).
  { apply masked_u32, ah_io_u32. }
  rewrite (bind_Done _ _ _ _ _ E2).
  destruct (io_write_spec s2 hi (as_u32 (Z.shiftr (redirection_entry c) 32)) Hhi (as_u32_range _)) as (s3 & E3 & R3).
  rewrite (bind_Done _ _ _ _ _ E3).
  destruct (io_write_spec s3 lo (Z.lor (as_u32 (redirection_entry c)) IOAPIC_MASKED) Hlo) as (s4 & E4 & R4).
  { apply masked_u32, as_u32_range. }
  rewrite (bind_Done _ _ _ _ _ E4). exists s4. split; [done|].
  exact (ran_trans V _ _ _ _ _ R1 (ran_trans V _ _ _ _ _ R2 (ran_trans V _ _ _ _ _ R3 R4))).
Qed.

Lemma unmask_spec s :
  ∃ s', unmask self gsi s = Done (Ok tt, s') ∧
    ran V [IoApicSet lo (Z.ldiff (io_reg V (io_dev s) lo) IOAPIC_MASKED)] s s'.
Proof.
  destruct regs_u8 as [Hlo _]. unfold unmask. rewrite Hregs, bind_ok_ret. cbn beta iota.
  destruct (io_read_spec s lo Hlo) as (s1 & E1 & R1). rewrite (bind_Done _ _ _ _ _ E1).
  destruct (io_write_spec s1 lo (Z.ldiff (io_reg V (io_dev s) lo) IOAPIC_MASKED) Hlo) as (s2 & E2 & R2).
  { apply ldiff_u32, ah_io_u32. }
  rewrite (bind_Done _ _ _ _ _ E2). exists s2. split; [done|]. exact (ran_trans V _ _ _ _ _ R1 R2).
Qed.

Lemma mask_spec s :
  ∃ s', mask self gsi s = Done (Ok tt, s') ∧
    ran V [IoApicSet lo (Z.lor (io_reg V (io_dev s) lo) IOAPIC_MASKED)] s s'.
Proof.
  destruct regs_u8 as [Hlo _]. unfold mask. rewrite Hregs, bind_ok_ret. cbn beta iota.
  destruct (io_read_spec s lo Hlo) as (s1 & E1 & R1). rewrite (bind_Done _ _ _ _ _ E1).
  destruct (io_write_spec s1 lo (Z.lor (io_reg V (io_dev s) lo) IOAPIC_MASKED) Hlo) as (s2 & E2 & R2).
  { apply masked_u32, ah_io_u32. }
  rewrite (bind_Done _ _ _ _ _ E2). exists s2. split; [done|]. exact (ran_trans V _ _ _ _ _ R1 R2).
Qed.

(** The entry of the interrupt in the controller. *)
Definition entry_in (s : Io D) : RedirectionEntry :=
  decode_redirection (io_reg V (io_dev s) lo) (io_reg V (io_dev s) hi).

(** What was written last is what the entry means. *)
Lemma entry_after es s s' :
  step V es (io_dev s) (io_dev s') →
  entry_in s' = decode_redirection (last_io es lo (io_reg V (io_dev s) lo)) (last_io es hi (io_reg V (io_dev s) hi)).
Proof.
  intros Hst. destruct regs_index as (i & Hi & Hl & Hh). unfold entry_in.
  apply (decode_agree i); [lia|..]; rewrite <- ?Hl, <- ?Hh; intros n Hn; by apply (st_io _ _ _ _ Hst).
Qed.

Lemma lo_hi : (lo =? hi) = false ∧ (hi =? lo) = false.
Proof.
  destruct regs_index as (i & _ & -> & ->). unfold low_of, high_of. split; apply Z.eqb_neq; lia.
Qed.

Definition set_masked (b : bool) (e : RedirectionEntry) : RedirectionEntry :=
  mkRedirectionEntry (re_config e) (re_delivery_mode e) b.

Lemma decode_mask_bit b low high low' :
  (∀ n, n ≠ 16 → Z.testbit low' n = Z.testbit low n) → Z.testbit low' 16 = b →
  decode_redirection low' high = set_masked b (decode_redirection low high).
Proof.
  intros H Hb. unfold decode_redirection, set_masked. cbn [re_config re_delivery_mode].
  rewrite Hb, !(H 13), !(H 15) by done. change 0xFF with (Z.ones 8). change 0xF with (Z.ones 4).
  rewrite (land_ones_ext 8 low' low) by (try done; intros n Hn; apply H; lia).
  rewrite (land_ones_ext 4 (Z.shiftr low' 8) (Z.shiftr low 8)); [done|done|].
  intros n Hn. rewrite !Z.shiftr_spec by lia. apply H. lia.
Qed.

(** Events that write no redirection entry. *)
Definition no_io (es : list event) : Prop := ∀ r old, last_io es r old = old.

Lemma unmask_entry es s s' :
  no_io es → step V (IoApicSet lo (Z.ldiff (io_reg V (io_dev s) lo) IOAPIC_MASKED) :: es) (io_dev s) (io_dev s') →
  entry_in s' = set_masked false (entry_in s).
Proof.
  intros Hes R. rewrite (entry_after _ _ _ R). change (?e :: es) with ([e] ++ es). rewrite !last_io_app, !Hes.
  cbn [last_io foldl]. rewrite Z.eqb_refl, (proj1 lo_hi). apply decode_mask_bit.
  - intros n Hn. destruct (Z.ltb_spec n 0); [by rewrite !Z.testbit_neg_r|].
    rewrite Z.ldiff_spec. change IOAPIC_MASKED with (2 ^ 16). rewrite Z.pow2_bits_false, andb_true_r by lia. done.
  - rewrite Z.ldiff_spec. change IOAPIC_MASKED with (2 ^ 16). by rewrite Z.pow2_bits_true, andb_false_r by lia.
Qed.

Lemma mask_entry es s s' :
  no_io es → step V (IoApicSet lo (Z.lor (io_reg V (io_dev s) lo) IOAPIC_MASKED) :: es) (io_dev s) (io_dev s') →
  entry_in s' = set_masked true (entry_in s).
Proof.
  intros Hes R. rewrite (entry_after _ _ _ R). change (?e :: es) with ([e] ++ es). rewrite !last_io_app, !Hes.
  cbn [last_io foldl]. rewrite Z.eqb_refl, (proj1 lo_hi). apply decode_mask_bit.
  - intros n Hn. rewrite Z.lor_spec. change IOAPIC_MASKED with (2 ^ 16).
    rewrite Z.pow2_bits_false, orb_false_r by lia. done.
  - rewrite Z.lor_spec. change IOAPIC_MASKED with (2 ^ 16). by rewrite Z.pow2_bits_true, orb_true_r by lia.
Qed.

Lemma configure_entry s c s' :
  config_valid c → configure_masked self gsi c s = Done (Ok tt, s') → entry_in s' = mkRedirectionEntry c 0 true.
Proof.
  intros Hc E. destruct (configure_masked_spec s c) as (s1 & E1 & R). rewrite E1 in E. injection E as <-.
  rewrite (entry_after _ _ _ (rn_step _ _ _ _ R)). unfold configure_events. cbn [last_io foldl].
  destruct lo_hi as [-> ->]. rewrite !Z.eqb_refl. by apply decode_entry.
Qed.
End io_apic.

(** *** The local APIC and its timer *)

(** Handling an interrupt acknowledges it and looks at the error register, nothing else. *)
Definition quiet_event (e : event) : Prop :=
  match e with LapicSet offset _ => offset = APIC_EOI ∨ offset = APIC_ESR | _ => False end.

Lemma quiet_io es r old : Forall quiet_event es → last_io es r old = old.
Proof.
  intros H. revert old. induction H as [|e es He _ IH]; intros old; [done|]. destruct e; try done. apply IH.
Qed.

Lemma quiet_time es v : Forall quiet_event es → LapicSet APIC_TIMER_INITIAL_COUNT v ∉ es.
Proof. rewrite Forall_forall. intros H Hv. by destruct (H _ Hv). Qed.

(** The 8259 interrupt controllers are masked, errors have a masked vector, no priority holds an
    interrupt back, and the controller is enabled with the vector of spurious interrupts. *)
Definition init_events : list event :=
  [PortSet 0x21 0xFF; PortSet 0xA1 0xFF; LapicSet APIC_LVT_ERROR 0x100FE; LapicSet APIC_ESR 0;
   LapicSet APIC_TPR 0; LapicSet APIC_SVR 0x1FF].

Definition start_events : list event :=
  [LapicSet APIC_LVT_TIMER 0x100FD; LapicSet APIC_TIMER_DIVIDE_CONFIG 3; LapicSet APIC_TIMER_INITIAL_COUNT (W32 - 1)].
Definition stop_events : list event :=
  [LapicSet APIC_LVT_TIMER 0x100FD; LapicSet APIC_TIMER_INITIAL_COUNT 0].
Definition pit_events : list event :=
  [PortSet PIT_COMMAND 0x30; PortSet PIT_CHANNEL_0 0xFF; PortSet PIT_CHANNEL_0 0xFF].

Ltac in_list := apply (bool_decide_unpack _); vm_compute; exact I.

Section timer.
Context {D : Type} `{!Hardware D} (V : view (D := D)) `{!ApicHardware V}.

Lemma write_in_mode access s offset v :
  access = access_of (apic_base V (io_dev s)) → offset ∈ lapic_writable → is_u32 v →
  ∃ s', LocalApicAccess_write access offset v s = Done (tt, s') ∧ ran V [LapicSet offset v] s s'.
Proof. intros ->. apply access_write_spec; done. Qed.

Lemma ran_mode access es s s' :
  access = access_of (apic_base V (io_dev s)) → ran V es s s' → access = access_of (apic_base V (io_dev s')).
Proof. intros -> R. by rewrite (ran_base V _ _ _ R). Qed.

Lemma timer_start_spec self s :
  apic_access self = access_of (apic_base V (io_dev s)) →
  ∃ s', LocalApic_start_calibration_counter self s = Done (tt, s') ∧ ran V start_events s s'.
Proof.
  intros Ha. unfold LocalApic_start_calibration_counter.
  destruct (write_in_mode _ s APIC_LVT_TIMER (Z.lor APIC_TIMER_VECTOR APIC_LVT_MASKED) Ha) as (s1 & E1 & R1);
    [in_list|done|]. rewrite (bind_Done _ _ _ _ _ E1).
  destruct (write_in_mode _ s1 APIC_TIMER_DIVIDE_CONFIG 3 (ran_mode _ _ _ _ Ha R1)) as (s2 & E2 & R2);
    [in_list|done|]. rewrite (bind_Done _ _ _ _ _ E2). pose proof (ran_trans V _ _ _ _ _ R1 R2) as R.
  destruct (write_in_mode _ s2 APIC_TIMER_INITIAL_COUNT (W32 - 1) (ran_mode _ _ _ _ Ha R)) as (s3 & E3 & R3);
    [in_list|done|]. exists s3. split; [done|]. exact (ran_trans V _ _ _ _ _ R R3).
Qed.

Lemma stop_spec self s :
  apic_access self = access_of (apic_base V (io_dev s)) →
  ∃ s', LocalApic_stop_timer self s = Done (tt, s') ∧ ran V stop_events s s'.
Proof.
  intros Ha. unfold LocalApic_stop_timer.
  destruct (write_in_mode _ s APIC_LVT_TIMER (Z.lor APIC_TIMER_VECTOR APIC_LVT_MASKED) Ha) as (s1 & E1 & R1);
    [in_list|done|]. rewrite (bind_Done _ _ _ _ _ E1).
  destruct (write_in_mode _ s1 APIC_TIMER_INITIAL_COUNT 0 (ran_mode _ _ _ _ Ha R1)) as (s2 & E2 & R2);
    [in_list|done|]. exists s2. split; [done|]. exact (ran_trans V _ _ _ _ _ R1 R2).
Qed.

Lemma pit_spec s : ∃ s', start_pit_one_shot PIT_CALIBRATION_COUNT s = Done (tt, s') ∧ ran V pit_events s s'.
Proof.
  unfold start_pit_one_shot.
  destruct (write_u8_spec V s PIT_COMMAND 0x30) as (s1 & E1 & R1); [in_list|done|]. rewrite (bind_Done _ _ _ _ _ E1).
  destruct (write_u8_spec V s1 PIT_CHANNEL_0 0xFF) as (s2 & E2 & R2); [in_list|done|]. rewrite (bind_Done _ _ _ _ _ E2).
  destruct (write_u8_spec V s2 PIT_CHANNEL_0 0xFF) as (s3 & E3 & R3); [in_list|done|].
  exists s3. split; [done|]. exact (ran_trans V _ _ _ _ _ R1 (ran_trans V _ _ _ _ _ R2 R3)).
Qed.

Lemma timer_count_spec s :
  ∃ s1 s', current_timer_count s = Done (timer_count V (io_dev s1), s') ∧ ran V [] s s1 ∧ ran V [] s s'.
Proof.
  destruct (current_access_spec V s) as (s1 & E1 & R1).
  destruct (access_read_spec V s1 APIC_TIMER_CURRENT_COUNT) as (v & s2 & E2 & Hv & R2 & Hc); [in_list|].
  exists s1, s2. split_and!; [|done|exact (ran_trans V _ _ _ _ _ R1 R2)].
  unfold current_timer_count. rewrite (bind_Done _ _ _ _ _ E1). rewrite (ran_base V _ _ _ R1) in E2.
  rewrite (bind_Done _ _ _ _ _ E2), Hc by done. unfold ret. by rewrite as_u32_small by apply ah_count_u32.
Qed.

Lemma eoi_spec s : ∃ s', end_of_interrupt s = Done (tt, s') ∧ ran V [LapicSet APIC_EOI 0] s s'.
Proof.
  destruct (current_access_spec V s) as (s1 & E1 & R1). unfold end_of_interrupt. rewrite (bind_Done _ _ _ _ _ E1).
  destruct (write_in_mode _ s1 APIC_EOI 0 (ran_mode _ _ _ _ eq_refl R1)) as (s2 & E2 & R2); [in_list|done|].
  exists s2. split; [done|]. exact (ran_trans V _ _ _ _ _ R1 R2).
Qed.

(** The state after interrupts were handled: what the calibration sees of it. *)
Record handled (s s' : Io D) : Prop := {
  hd_mem : io_mem s' = io_mem s;
  hd_if : io_if s' = io_if s;
  hd_step : ∃ es, Forall quiet_event es ∧ step V es (io_dev s) (io_dev s');
  hd_count : is_u32 (LAPIC_COUNT_AT_PIT (io_counters s)) → is_u32 (LAPIC_COUNT_AT_PIT (io_counters s'));
}.

Lemma step_refl d : step V [] d d.
Proof. constructor; try done. by rewrite app_nil_r. Qed.

Lemma ran_handled es s s' : Forall quiet_event es → ran V es s s' → handled s s'.
Proof. intros Hq [Hm Hi Hc Hs]. constructor; [done|done|by exists es|by rewrite Hc]. Qed.

Lemma handled_trans s s' s'' : handled s s' → handled s' s'' → handled s s''.
Proof.
  intros [M1 I1 (es1 & Q1 & S1) C1] [M2 I2 (es2 & Q2 & S2) C2]. constructor; try congruence; auto.
  exists (es1 ++ es2). split; [by apply Forall_app|by eapply step_trans].
Qed.

Lemma handled_time s s' : handled s s' → time_left V (io_dev s') ≤ time_left V (io_dev s).
Proof. intros [_ _ (es & Hq & Hs) _]. eapply st_time; [done|]. intros v. by apply quiet_time. Qed.

Lemma handled_counters c s :
  (is_u32 (LAPIC_COUNT_AT_PIT (io_counters s)) → is_u32 (LAPIC_COUNT_AT_PIT c)) → handled s (set_io_counters c s).
Proof. intros Hf. constructor; [done|done| |done]. exists []. split; [done|apply step_refl]. Qed.

Lemma record_error_spec s :
  ∃ s', record_error s = Done (tt, s') ∧ handled s s' ∧ PIT_FIRED (io_counters s') = PIT_FIRED (io_counters s).
Proof.
  destruct (current_access_spec V s) as (s1 & E1 & R1). unfold record_error. rewrite (bind_Done _ _ _ _ _ E1).
  destruct (write_in_mode _ s1 APIC_ESR 0 (ran_mode _ _ _ _ eq_refl R1)) as (s2 & E2 & R2); [in_list|done|].
  rewrite (bind_Done _ _ _ _ _ E2).
  destruct (access_read_spec V s2 APIC_ESR) as (v & s3 & E3 & _ & R3 & _); [in_list|].
  rewrite (ran_base V _ _ _ R2), (ran_base V _ _ _ R1) in E3. rewrite (bind_Done _ _ _ _ _ E3).
  pose proof (ran_trans V _ _ _ _ _ R1 (ran_trans V _ _ _ _ _ R2 R3)) as R.
  eexists. split_and!; [done| |by rewrite <- (rn_counters _ _ _ _ R)].
  eapply handled_trans; [|by apply handled_counters].
  eapply ran_handled; [|exact R]. apply Forall_singleton. by right.
Qed.

Lemma record_pit_spec s :
  ∃ s', record_pit_calibration s = Done (tt, s') ∧ handled s s' ∧ PIT_FIRED (io_counters s') = true.
Proof.
  destruct (timer_count_spec s) as (s1 & s2 & E & _ & R). unfold record_pit_calibration. rewrite (bind_Done _ _ _ _ _ E).
  eexists. split_and!; [done| |done]. eapply handled_trans; [eapply (ran_handled []); [done|exact R]|].
  apply handled_counters. intros _. apply ah_count_u32.
Qed.

Lemma eoi_handled s : ∃ s', end_of_interrupt s = Done (tt, s') ∧ handled s s' ∧ io_counters s' = io_counters s.
Proof.
  destruct (eoi_spec s) as (s' & E & R). exists s'. split_and!; [done| |apply R].
  eapply ran_handled; [|exact R]. apply Forall_singleton. by left.
Qed.

(** An interrupt of any vector is handled, and only the PIT's ends the calibration. *)
Lemma handle_spec v s :
  ∃ s', apic_vectors_handle v s = Done (tt, s') ∧ handled s s' ∧
    PIT_FIRED (io_counters s') = (v =? PIT_CALIBRATION_VECTOR) || PIT_FIRED (io_counters s).
Proof.
  unfold apic_vectors_handle. case_bool.
  { destruct (record_pit_spec s) as (s1 & E1 & H1 & F1). rewrite (bind_Done _ _ _ _ _ E1).
    destruct (eoi_handled s1) as (s2 & E2 & H2 & F2). exists s2. split_and!; [done|by eapply handled_trans|]. by rewrite F2, F1. }
  case_bool.
  { unfold record_timer, update_counters. rewrite bind_modify.
    destruct (eoi_handled (set_io_counters (mkCounters (APIC_ERROR_COUNT (io_counters s)) (LAST_APIC_ERROR (io_counters s))
      ((APIC_TIMER_COUNT (io_counters s) + 1) mod W64) (PIT_FIRED (io_counters s)) (LAPIC_COUNT_AT_PIT (io_counters s))) s))
      as (s2 & E2 & H2 & F2).
    exists s2. split_and!; [done| |by rewrite F2]. eapply handled_trans; [|exact H2]. by apply handled_counters. }
  case_bool; [|exists s; split_and!; [done| |done]; apply (ran_handled []); [done|]; constructor; try done; apply step_refl].
  destruct (record_error_spec s) as (s1 & E1 & H1 & F1). rewrite (bind_Done _ _ _ _ _ E1).
  destruct (eoi_handled s1) as (s2 & E2 & H2 & F2). exists s2. split_and!; [done|by eapply handled_trans|].
  by rewrite F2, F1.
Qed.

Lemma spin_spec s :
  ∃ s', spin_loop s = Done (tt, s') ∧ handled s s' ∧
    (0 < time_left V (io_dev s) → time_left V (io_dev s') < time_left V (io_dev s)).
Proof.
  destruct (ah_elapse (io_dev s)) as [Hst Ht]. unfold spin_loop. rewrite bind_get.
  destruct (elapse (io_dev s)) as [v d]. cbn [snd] in *. rewrite bind_put.
  assert (H1 : handled s (set_io_dev d s)) by (eapply (ran_handled []); [done|by apply ran_dev]).
  assert (Hlt : 0 < time_left V (io_dev s) → time_left V d < time_left V (io_dev s)) by lia.
  destruct v as [v|]; [destruct (io_if s)|]; [|by exists (set_io_dev d s)..].
  destruct (handle_spec v (set_io_dev d s)) as (s2 & E2 & H2 & _). exists s2.
  split_and!; [done|by eapply handled_trans|]. pose proof (handled_time _ _ H2) as Hle. cbn [set_io_dev io_dev] in Hle. lia.
Qed.

(** The loop ends before the time that is left has passed. *)
Lemma wait_spec n s :
  time_left V (io_dev s) < Z.of_nat n →
  ∃ b s', (∀ fuel, (n ≤ fuel)%nat → wait_for_pit fuel s = Done (Some b, s')) ∧ handled s s' ∧
    PIT_FIRED (io_counters s') = b.
Proof.
  revert s. induction n as [|n IH]; intros s Hn.
  { pose proof (ah_time_pos (V := V) (io_dev s)). lia. }
  destruct (PIT_FIRED (io_counters s)) eqn:Ef.
  { exists true, s. split_and!; [|by apply (ran_handled []); [done|constructor; try done; apply step_refl]|done].
    intros [|fuel] Hf; [lia|]. cbn [wait_for_pit]. by rewrite bind_gets, Ef. }
  destruct (timer_count_spec s) as (s1 & s2 & Ec & R1 & R2).
  destruct (Z.eqb_spec (timer_count V (io_dev s1)) 0) as [E0|E0].
  { exists false, s2. split_and!; [|by apply (ran_handled [])|by rewrite (rn_counters _ _ _ _ R2)].
    intros [|fuel] Hf; [lia|]. cbn [wait_for_pit]. rewrite bind_gets, Ef, (bind_Done _ _ _ _ _ Ec), E0. done. }
  assert (H1 : handled s s1) by (by apply (ran_handled [])).
  assert (H2 : handled s s2) by (by apply (ran_handled [])).
  destruct (spin_spec s2) as (s3 & E3 & H3 & Ht3).
  destruct (IH s3) as (b & s' & Hw & Hh & Hb).
  { pose proof (handled_time _ _ H1). pose proof (handled_time _ _ H2). pose proof (handled_time _ _ H3).
    pose proof (ah_time_pos (V := V) (io_dev s1)).
    assert (time_left V (io_dev s1) ≠ 0) by (intros Hz; by apply E0, ah_time_up).
    destruct (Z.eq_dec (time_left V (io_dev s2)) 0); lia. }
  exists b, s'. split_and!; [|by eapply handled_trans, handled_trans|done].
  intros [|fuel] Hf; [lia|]. cbn [wait_for_pit]. rewrite bind_gets, Ef, (bind_Done _ _ _ _ _ Ec).
  apply Z.eqb_neq in E0. rewrite E0, (bind_Done _ _ _ _ _ E3). apply Hw. lia.
Qed.
End timer.

(** ** Calibration *)

Section calibration.
Context {D : Type} `{!Hardware D} (V : view (D := D)) `{!ApicHardware V}.
Context (la : LocalApic) (io : IoApic) (route : IsaIrqRoute) (lo hi : Z).
Context (Hbase : ioapic_base io = IOAPIC_VIRTUAL_ADDRESS).
Context (Hregs : redirection_registers io (gsi route) = Ok (lo, hi)).

(** How the calibration leaves the machine: interrupts off, the PIT's interrupt masked and otherwise
    configured as before, and the counter stopped. *)
Record calibrated (s s' : Io D) : Prop := {
  cl_mem : io_mem s' = io_mem s;
  cl_if : io_if s' = false;
  cl_entry : entry_in V lo hi s' = set_masked true (entry_in V lo hi s);
  cl_others : ∀ r i, r ≠ lo → io_writable r i = true →
    Z.testbit (io_reg V (io_dev s') r) i = Z.testbit (io_reg V (io_dev s) r) i;
  cl_stopped : ∃ es, written V (io_dev s') = written V (io_dev s) ++ es ++ stop_events;
}.

(** What the result says: the frequency follows from the counter when the PIT fired. *)
Definition calibration_result (r : result Z TimerCalibrationError) (c : Counters) : Prop :=
  match r with
  | Ok f => PIT_FIRED c = true ∧ is_u32 (LAPIC_COUNT_AT_PIT c) ∧ LAPIC_COUNT_AT_PIT c < W32 - 1 ∧
      f = (W32 - 1 - LAPIC_COUNT_AT_PIT c) * PIT_FREQUENCY / PIT_CALIBRATION_COUNT ∧ 0 < f < 2 ^ 37
  | Err PitTimeout => PIT_FIRED c = false
  | Err InvalidTimerCount => PIT_FIRED c = true ∧ LAPIC_COUNT_AT_PIT c = W32 - 1
  | Err _ => False
  end.

Lemma frequency_range c : is_u32 c → c ≠ W32 - 1 →
  checked_mul (W32 - 1 - c) PIT_FREQUENCY = Some ((W32 - 1 - c) * PIT_FREQUENCY) ∧
  0 < (W32 - 1 - c) * PIT_FREQUENCY / PIT_CALIBRATION_COUNT < 2 ^ 37.
Proof.
  unfold is_u32, W32, PIT_FREQUENCY, PIT_CALIBRATION_COUNT. intros Hc Hn. split; [apply checked_mul_lt; ulia|].
  change (2 ^ 32) with 4294967296 in *. change (2 ^ 37) with 137438953472. dmlia.
Qed.

(** The part of the calibration after the wait: interrupts off, mask, stop. *)
Lemma wind_down_spec s :
  apic_access la = access_of (apic_base V (io_dev s)) →
  ∃ s1 s', mask io (gsi route) (set_io_if false s) = Done (Ok tt, s1) ∧ LocalApic_stop_timer la s1 = Done (tt, s') ∧
    io_mem s' = io_mem s ∧ io_if s' = false ∧ io_counters s' = io_counters s ∧
    step V (IoApicSet lo (Z.lor (io_reg V (io_dev s) lo) IOAPIC_MASKED) :: stop_events) (io_dev s) (io_dev s').
Proof.
  intros Ha. destruct (mask_spec V io Hbase _ _ _ Hregs (set_io_if false s)) as (s1 & E1 & R1).
  destruct (stop_spec V la s1) as (s2 & E2 & R2).
  { eapply ran_mode; [|exact R1]. exact Ha. }
  exists s1, s2. pose proof (ran_trans V _ _ _ _ _ R1 R2) as [M I C St]. by split_and!.
Qed.

(** What the calibration makes of the wait. *)
Definition calibration_outcome (fired : bool) (count : Z) : result Z TimerCalibrationError :=
  if fired then
    if W32 - 1 - count =? 0 then Err InvalidTimerCount
    else Ok ((W32 - 1 - count) * PIT_FREQUENCY / PIT_CALIBRATION_COUNT)
  else Err PitTimeout.

Definition reset_counters (c : Counters) : Counters :=
  mkCounters (APIC_ERROR_COUNT c) (LAST_APIC_ERROR c) (APIC_TIMER_COUNT c) false 0.

Lemma calibrate_run fuel s s1 s2 s3 b s5 s6 s7 :
  unmask io (gsi route) (set_io_counters (reset_counters (io_counters s)) s) = Done (Ok tt, s1) →
  LocalApic_start_calibration_counter la s1 = Done (tt, s2) →
  start_pit_one_shot PIT_CALIBRATION_COUNT s2 = Done (tt, s3) →
  wait_for_pit fuel (set_io_if true s3) = Done (Some b, s5) →
  mask io (gsi route) (set_io_if false s5) = Done (Ok tt, s6) → LocalApic_stop_timer la s6 = Done (tt, s7) →
  is_u32 (LAPIC_COUNT_AT_PIT (io_counters s7)) →
  calibrate_local_apic fuel la io route s =
    Done (Some (calibration_outcome b (LAPIC_COUNT_AT_PIT (io_counters s7))), s7).
Proof.
  intros E1 E2 E3 E4 E6 E7 Hc. unfold calibrate_local_apic, update_counters, sti, cli, calibration_outcome. rewrite bind_modify.
  change (mkCounters _ _ _ false 0) with (reset_counters (io_counters s)).
  rewrite (bind_Done _ _ _ _ _ E1), (bind_Done _ _ _ _ _ E2), (bind_Done _ _ _ _ _ E3), bind_modify, (bind_Done _ _ _ _ _ E4).
  destruct b; rewrite bind_modify, (bind_Done _ _ _ _ _ E6), (bind_Done _ _ _ _ _ E7); [|done].
  rewrite bind_gets. erewrite bind_Done by (apply usub_le; unfold is_u32 in Hc; lia).
  destruct (Z.eqb_spec (W32 - 1 - LAPIC_COUNT_AT_PIT (io_counters s7)) 0); [done|].
  by rewrite (proj1 (frequency_range _ Hc ltac:(lia))).
Qed.

Lemma outcome_result b c :
  PIT_FIRED c = b → is_u32 (LAPIC_COUNT_AT_PIT c) → calibration_result (calibration_outcome b (LAPIC_COUNT_AT_PIT c)) c.
Proof.
  intros Hb Hc. unfold calibration_outcome. destruct b; [|done].
  destruct (Z.eqb_spec (W32 - 1 - LAPIC_COUNT_AT_PIT c) 0); [split; [done|lia]|].
  cbn [calibration_result]. split_and!; try done; [unfold is_u32 in Hc; lia|..]; by apply frequency_range; [|lia].
Qed.

Lemma calibrate_spec s :
  apic_access la = access_of (apic_base V (io_dev s)) →
  ∃ n r s', (∀ fuel, (n ≤ fuel)%nat → calibrate_local_apic fuel la io route s = Done (Some r, s')) ∧
    calibrated s s' ∧ calibration_result r (io_counters s').
Proof.
  intros Ha. pose (s0 := set_io_counters (reset_counters (io_counters s)) s).
  destruct (unmask_spec V io Hbase _ _ _ Hregs s0) as (s1 & E1 & R1).
  destruct (timer_start_spec V la s1) as (s2 & E2 & R2); [eapply ran_mode; [|exact R1]; exact Ha|].
  destruct (pit_spec V s2) as (s3 & E3 & R3).
  pose proof (ran_trans V _ _ _ _ _ R1 (ran_trans V _ _ _ _ _ R2 R3)) as [M3 I3 C3 St3].
  destruct (wait_spec V (S (Z.to_nat (time_left V (io_dev s3)))) (set_io_if true s3)) as (b & s5 & Ew & H5 & Hb).
  { pose proof (ah_time_pos (V := V) (io_dev s3)). cbn [set_io_if io_dev]. lia. }
  destruct (hd_step _ _ _ H5) as (es & Hq & St5).
  pose proof (step_trans V _ _ _ _ _ St3 St5 : step V _ (io_dev s) (io_dev s5)) as St.
  destruct (wind_down_spec s5) as (s6 & s7 & E6 & E7 & M7 & I7 & C7 & St7); [by rewrite (st_base _ _ _ _ St)|].
  assert (Hcount : is_u32 (LAPIC_COUNT_AT_PIT (io_counters s7))).
  { rewrite C7. apply (hd_count _ _ _ H5). cbn [set_io_if io_counters]. by rewrite C3. }
  eexists _, _, s7. split_and!; [intros fuel Hf; eapply calibrate_run; eauto| |apply outcome_result; [by rewrite C7|done]].
  constructor.
  - rewrite M7, (hd_mem _ _ _ H5). exact M3.
  - done.
  - rewrite (mask_entry V _ _ _ _ Hregs stop_events s5 s7), (unmask_entry V _ _ _ _ Hregs (start_events ++ pit_events ++ es) s s5); try done.
    intros r old. by rewrite !last_io_app, (quiet_io es).
  - intros r i Hr Hw. apply Z.eqb_neq in Hr. rewrite Z.eqb_sym in Hr.
    rewrite (st_io _ _ _ _ (step_trans V _ _ _ _ _ St St7)), !last_io_app by done.
    cbn [last_io foldl start_events pit_events stop_events]. rewrite Hr. by rewrite (quiet_io es).
  - exists ([IoApicSet lo (Z.ldiff (io_reg V (io_dev s0) lo) IOAPIC_MASKED)] ++ start_events ++ pit_events ++ es ++
      [IoApicSet lo (Z.lor (io_reg V (io_dev s5) lo) IOAPIC_MASKED)]).
    rewrite (st_written _ _ _ _ (step_trans V _ _ _ _ _ St St7)). by rewrite <- !app_assoc.
Qed.
End calibration.

(** ** Setting the controllers up *)

Section setup.
Context {D : Type} `{!Hardware D} (V : view (D := D)) `{!ApicHardware V}.

Lemma read_in_mode access s offset :
  access = access_of (apic_base V (io_dev s)) → offset ∈ lapic_readable →
  ∃ v s', LocalApicAccess_read access offset s = Done (v, s') ∧ is_u32 v ∧ ran V [] s s'.
Proof. intros -> H. destruct (access_read_spec V s offset H) as (v & s' & E & Hv & R & _). by exists v, s'. Qed.

Lemma setup_spec access s :
  access = access_of (apic_base V (io_dev s)) →
  ∃ id s', LocalApic_setup access s = Done (Ok (mkLocalApic id access), s') ∧ ran V init_events s s' ∧
    is_u32 id ∧ (access = XApic → is_u8 id).
Proof.
  intros Ha. unfold LocalApic_setup.
  destruct (read_in_mode access s APIC_ID Ha) as (v & s1 & E1 & Hv & R1); [in_list|]. rewrite (bind_Done _ _ _ _ _ E1).
  destruct (write_u8_spec V s1 0x21 0xFF) as (s2 & E2 & R2); [in_list|done|]. rewrite (bind_Done _ _ _ _ _ E2).
  pose proof (ran_trans V _ _ _ _ _ R1 R2) as R12.
  destruct (write_u8_spec V s2 0xA1 0xFF) as (s3 & E3 & R3); [in_list|done|]. rewrite (bind_Done _ _ _ _ _ E3).
  pose proof (ran_trans V _ _ _ _ _ R12 R3) as R13.
  destruct (write_in_mode V access s3 APIC_LVT_ERROR (Z.lor APIC_ERROR_VECTOR APIC_LVT_MASKED)) as (s4 & E4 & R4);
    [exact (ran_mode V _ _ _ _ Ha R13)|in_list|done|]. rewrite (bind_Done _ _ _ _ _ E4).
  pose proof (ran_trans V _ _ _ _ _ R13 R4) as R14.
  destruct (write_in_mode V access s4 APIC_ESR 0) as (s5 & E5 & R5);
    [exact (ran_mode V _ _ _ _ Ha R14)|in_list|done|]. rewrite (bind_Done _ _ _ _ _ E5).
  pose proof (ran_trans V _ _ _ _ _ R14 R5) as R15.
  destruct (read_in_mode access s5 APIC_ESR) as (w & s6 & E6 & _ & R6); [exact (ran_mode V _ _ _ _ Ha R15)|in_list|].
  rewrite (bind_Done _ _ _ _ _ E6). pose proof (ran_trans V _ _ _ _ _ R15 R6) as R16.
  destruct (write_in_mode V access s6 APIC_TPR 0) as (s7 & E7 & R7);
    [exact (ran_mode V _ _ _ _ Ha R16)|in_list|done|]. rewrite (bind_Done _ _ _ _ _ E7).
  pose proof (ran_trans V _ _ _ _ _ R16 R7) as R17.
  destruct (write_in_mode V access s7 APIC_SVR 0x1FF) as (s8 & E8 & R8);
    [exact (ran_mode V _ _ _ _ Ha R17)|in_list|done|].
  eexists _, s8. split_and!; [by rewrite (bind_Done _ _ _ _ _ E8)|exact (ran_trans V _ _ _ _ _ R17 R8)|..].
  - destruct access; apply as_u32_range.
  - intros ->. unfold is_u8, is_u32, W32, as_u32, W32 in *. rewrite Z.shiftr_div_pow2 by lia.
    change (2 ^ 24) with 16777216. change (2 ^ 32) with 4294967296 in *.
    rewrite Z.mod_small; dmlia.
Qed.

(** What [init] finds wrong with the base register, in the order it looks. *)
Definition init_check (base : Z) (address : PhysicalAddr) : option LocalApicError :=
  if negb (address =? Z.land base APIC_BASE_ADDRESS_MASK) then Some AddressMismatch
  else if negb (Z.testbit base 11) then Some ApicDisabled
  else if negb (Z.testbit base 8) then Some NotBootSystemProcessor
  else None.

Lemma address_mask_u64 base : is_u64 base → is_u64 (Z.land base APIC_BASE_ADDRESS_MASK).
Proof.
  intros Hb. apply is_u64_bits in Hb as [H0 Hb]. apply is_u64_bits. split; [apply Z.land_nonneg; lia|].
  intros n Hn. by rewrite Z.land_spec, Hb.
Qed.

(** The frames that hold data, and no table of [sp], have the same contents. *)
Definition data_same (sp : AddressSpace) (l : list FrameState) (s s' : MState) : Prop :=
  ∀ j, data_frame l s j → ¬ own_table (root sp) (ms_mem s) (frame_at j) → kept_frame s s' j.

Lemma data_same_refl sp l s : data_same sp l s s.
Proof. done. Qed.

(** The local APIC is set up, or nothing was written to the devices. *)
Definition init_post (sp : AddressSpace) (address : PhysicalAddr) (l0 : list FrameState) (s : Io D)
    (r : result LocalApic LocalApicError) (s' : Io D) : Prop :=
  let base := apic_base V (io_dev s) in
  io_if s' = io_if s ∧ (∃ l, pt_inv (root sp) (io_mem s') l) ∧ data_same sp l0 (io_mem s) (io_mem s') ∧
  match r with
  | Ok la => init_check base address = None ∧ apic_access la = access_of base ∧ is_u32 (apic_id la) ∧
      step V init_events (io_dev s) (io_dev s') ∧
      (apic_access la = XApic → is_u8 (apic_id la) ∧
         maps_page (root sp) (ms_mem (io_mem s')) LOCAL_APIC_VIRTUAL_ADDRESS address DEVICE_PERMISSIONS)
  | Err e => step V [] (io_dev s) (io_dev s') ∧
      (init_check base address = Some e ∨
       init_check base address = None ∧ access_of base = XApic ∧ e = FailedToMapApic)
  end.

Lemma on_io_mem_Done {A} (c : M MState A) (s : Io D) a m :
  c (io_mem s) = Done (a, m) → on_io_mem c s = Done (a, set_io_mem m s).
Proof. unfold on_io_mem, on_part. by intros ->. Qed.

Lemma local_apic_init_spec sp address s l :
  pt_inv (root sp) (io_mem s) l →
  ∃ r s', LocalApic_init address sp s = Done (r, s') ∧ init_post sp address l s r s'.
Proof.
  intros Hinv. unfold init_post, init_check, LocalApic_init.
  destruct (ah_base (V := V) (io_dev s)) as (d & E & St).
  rewrite (bind_Done _ _ _ _ _ (read_msr_Done _ _ _ _ E (ah_base_u64 _))).
  pose proof (ah_base_u64 (V := V) (io_dev s)) as Hb. set (base := apic_base V (io_dev s)) in *.
  unfold APIC_BASE_GLOBAL_ENABLE, APIC_BASE_BSP. rewrite !land_pow2_eqb, !negb_involutive by lia.
  destruct (Z.eqb_spec address (Z.land base APIC_BASE_ADDRESS_MASK)) as [Ha|Ha]; cbn [negb]; [|by eauto 12 using data_same_refl].
  destruct (Z.testbit base 11); cbn [negb]; [|by eauto 12 using data_same_refl].
  destruct (Z.testbit base 8); cbn [negb]; [|by eauto 12 using data_same_refl].
  destruct (negb (Z.land base APIC_BASE_X2APIC_ENABLE =? 0)) eqn:Ex.
  - assert (Hacc : access_of base = X2Apic) by (unfold access_of; by rewrite Ex). rewrite bind_ok_ret.
    destruct (setup_spec X2Apic (set_io_dev d s)) as (id & s' & E' & [M I _ St'] & Hid & _).
    { cbn [set_io_dev io_dev]. by rewrite (st_base _ _ _ _ St). }
    exists (Ok (mkLocalApic id X2Apic)), s'. split_and!; try done; [exists l; by rewrite M|by rewrite M|].
    exact (step_trans V _ _ _ _ _ St St').
  - assert (Hacc : access_of base = XApic) by (unfold access_of; by rewrite Ex).
    destruct (AddressSpace_map_spec sp (io_mem s) l address LOCAL_APIC_VIRTUAL_ADDRESS DEVICE_PERMISSIONS Uncacheable Hinv)
      as (r & m & Em & Hm); [by vm_compute|subst address; by apply address_mask_u64|].
    assert (Eo : on_io_mem (AddressSpace_map sp address LOCAL_APIC_VIRTUAL_ADDRESS DEVICE_PERMISSIONS Uncacheable)
      (set_io_dev d s) = Done (r, set_io_mem m (set_io_dev d s))) by (by apply on_io_mem_Done).
    unfold bind_ok. rewrite bind_assoc, (bind_Done _ _ _ _ _ Eo), bind_ret.
    destruct r as [[]|e].
    + destruct Hm as [_ [l' Hm]].
      destruct (setup_spec XApic (set_io_mem m (set_io_dev d s))) as (id & s' & E' & [M I _ St'] & Hid & Hid8).
      { cbn [set_io_mem set_io_dev io_dev]. by rewrite (st_base _ _ _ _ St). }
      exists (Ok (mkLocalApic id XApic)), s'. split_and!; try done; [exists l'; rewrite M; apply Hm|..].
      * rewrite M. exact (mo_data _ _ _ _ _ _ _ _ Hm).
      * exact (step_trans V _ _ _ _ _ St St').
      * intros _. split; [by apply Hid8|]. rewrite M. apply Hm.
    + eexists _, _. split_and!; [reflexivity|done|exists l; apply Hm| |split; [exact St|by right]].
      intros j Hj _. by apply (me_data _ _ _ _ Hm).
Qed.

Lemma io_apic_new_spec expected address interrupt_base sp s l :
  pt_inv (root sp) (io_mem s) l → is_u64 address →
  ∃ r s', IoApic_new expected address interrupt_base IOAPIC_VIRTUAL_ADDRESS sp s = Done (r, s') ∧
    io_if s' = io_if s ∧ (∃ l', pt_inv (root sp) (io_mem s') l') ∧ step V [] (io_dev s) (io_dev s') ∧
    match r with
    | Ok io => ioapic_base io = IOAPIC_VIRTUAL_ADDRESS ∧ global_interrupt_base io = interrupt_base ∧
        0 < redirection_entry_count io ≤ 256 ∧
        maps_page (root sp) (ms_mem (io_mem s')) IOAPIC_VIRTUAL_ADDRESS address DEVICE_PERMISSIONS
    | Err _ => True
    end.
Proof.
  intros Hinv Ha. unfold IoApic_new.
  destruct (AddressSpace_map_spec sp (io_mem s) l address IOAPIC_VIRTUAL_ADDRESS DEVICE_PERMISSIONS Uncacheable Hinv)
    as (r & m & Em & Hm); [by vm_compute|done|].
  rewrite (bind_Done _ _ _ _ _ (on_io_mem_Done _ _ _ _ Em)). destruct r as [[]|e].
  2:{ eexists _, _. split_and!; [reflexivity|done|exists l; apply Hm|apply step_refl; apply _|done]. }
  destruct Hm as [_ [l' Hm]].
  destruct (io_read_spec V (mkIoApic IOAPIC_VIRTUAL_ADDRESS interrupt_base 0) eq_refl (set_io_mem m s) IOAPIC_VERSION)
    as (s1 & E1 & R1); [done|]. rewrite (bind_Done _ _ _ _ _ E1).
  set (version := io_reg V _ IOAPIC_VERSION) in *.
  set (io := mkIoApic IOAPIC_VIRTUAL_ADDRESS interrupt_base (Z.land (Z.shiftr version 16) 0xFF + 1)).
  destruct (io_read_spec V io eq_refl s1 IOAPIC_ID) as (s2 & E2 & R2); [done|]. rewrite (bind_Done _ _ _ _ _ E2).
  destruct (ran_trans V _ _ _ _ _ R1 R2) as [M I _ St]. cbn [app set_io_mem io_mem io_if io_dev] in *.
  set (id := Z.land (Z.shiftr (io_reg V (io_dev s1) IOAPIC_ID) 24) 0xF).
  assert (Hinv' : ∃ l', pt_inv (root sp) (io_mem s2) l') by (exists l'; rewrite M; apply Hm).
  destruct (id =? expected); cbn [negb].
  - exists (Ok io), s2. split_and!; try done.
    + cbn. change 0xFF with (Z.ones 8). rewrite Z.land_ones by lia. dmlia.
    + cbn. change 0xFF with (Z.ones 8). rewrite Z.land_ones by lia. dmlia.
    + rewrite M. apply Hm.
  - by exists (Err (IdMismatch expected id)), s2.
Qed.
End setup.

(** *** Addresses in the MADT *)

Lemma of_le_bytes_take n b : is_bytes b → 0 ≤ of_le_bytes (take n b) < 256 ^ Z.of_nat n.
Proof.
  intros Hb. pose proof (of_le_bytes_range (take n b) (Forall_take _ _ _ Hb)) as [H0 H1]. split; [done|].
  eapply Z.lt_le_trans; [exact H1|]. apply Z.pow_le_mono_r; [lia|]. unfold slice_len. rewrite length_take. lia.
Qed.

Lemma io_apic_entry_range m a : is_u32 (io_apic_address (read_unaligned IoApicEntry_layout m a)).
Proof.
  change (is_u32 (of_le_bytes (take 4 (drop 1 (drop 1 (bytes_at m a (size_of IoApicEntry_layout))))))).
  apply (of_le_bytes_take 4). apply Forall_drop, Forall_drop, is_bytes_bytes_at.
Qed.

Lemma next_io_apic m it e it' :
  MadtEntries_next m it = (Some (Ok (Acpi.IoApic e)), it') → is_u32 (io_apic_address e).
Proof.
  unfold MadtEntries_next. repeat (case_match; try done). intros [= -> ->].
  match goal with H : read_next _ _ = _ |- _ => rename H into E end.
  unfold read_next in E. destruct (AcpiTables_read _ _ _ _) as [h|]; [|done]. cbn [result_bind] in E.
  destruct (read_entry m it h) as [e'|] eqn:Er; [|done]. cbn [result_bind] in E.
  destruct (ok_or _ _); [|done]. cbn [result_bind] in E. injection E as -> _.
  unfold read_entry, body_as in Er.
  assert (Hr : result_bind (read_body m it IoApicEntry_layout h) (λ b, Ok (Acpi.IoApic b)) = Ok (Acpi.IoApic e)).
  { repeat case_match; try done; destruct (read_body _ _ _ _); done. }
  unfold read_body, AcpiTables_read in Hr. repeat (case_match; try done); cbn in *; simplify_eq.
  all: destruct (ok_or _ _); [|done]; cbn in *; destruct (ok_or _ _); [|done]; cbn in *; simplify_eq.
  all: apply io_apic_entry_range.
Qed.

Lemma run_io_apic m fuel it e :
  Ok (Acpi.IoApic e) ∈ (MadtEntries_run m fuel it).1 → is_u32 (io_apic_address e).
Proof.
  revert it. induction fuel as [|fuel IH]; intros it; [by intros ?%elem_of_nil|]. cbn [MadtEntries_run].
  destruct (MadtEntries_next m it) as [[item|] it'] eqn:En; [|by intros ?%elem_of_nil].
  specialize (IH it'). destruct (MadtEntries_run m fuel it') as [items it'']. cbn [fst] in *.
  intros [<-|H]%elem_of_cons; [by eapply next_io_apic|by apply IH].
Qed.

Lemma sole_io_apic_range m madt info : sole_io_apic m madt = Ok info → is_u64 (info_apic_address info).
Proof.
  unfold sole_io_apic, io_apics, Madt_items. destruct (Madt_entries madt) as [it|]; [|done]. cbn [result_bind].
  pose proof (run_io_apic m (entries_fuel it) it) as Hr. set (items := (MadtEntries_run m _ it).1) in *.
  destruct (omap io_apic_item items) as [|first rest] eqn:Eo; [done|].
  assert (Hin : first ∈ omap io_apic_item items) by (rewrite Eo; left).
  apply list_elem_of_omap in Hin as (item & Hi & Hf).
  destruct first as [info'|]; [|done]. cbn [result_bind].
  destruct rest as [|[]]; [|done..]. intros [= ->].
  destruct item as [[]|]; try done. injection Hf as <-. pose proof (Hr _ Hi) as H. cbn. unfold is_u32, W32 in H. ulia.
Qed.

(** *** The whole set-up *)

Section controller.
Context {D : Type} `{!Hardware D} (V : view (D := D)) `{!ApicHardware V}.

(** The interrupt of the PIT goes to this processor under its vector, as the MADT routes it, and is
    masked. *)
Definition pit_routed (la : LocalApic) (io : IoApic) (route : IsaIrqRoute) (s : Io D) : Prop :=
  ioapic_base io = IOAPIC_VIRTUAL_ADDRESS ∧
  ∃ lo hi, redirection_registers io (gsi route) = Ok (lo, hi) ∧
    entry_in V lo hi s = mkRedirectionEntry (mkRedirectionConfig PIT_CALIBRATION_VECTOR (apic_id la)
      (polarity route) (trigger route)) 0 true.

(** The controllers are the ones that [madt] lists, for a reader of the memory before the page of the
    I/O APIC was mapped: the PIT's interrupt is routed as isa interrupt 0 is there. *)
Record as_listed (madt : Madt) (sp : AddressSpace) (l : list FrameState) (s s' : Io D)
    (la : LocalApic) (io : IoApic) (route : IsaIrqRoute) (s1 : MState) (address : PhysicalAddr) (info : IoApicInfo) : Prop := {
  al_data : data_same sp l (io_mem s) s1;
  al_address : effective_local_apic_address (ms_mem (io_mem s)) madt = Ok address;
  al_check : init_check (apic_base V (io_dev s)) address = None;
  al_sole : sole_io_apic (ms_mem s1) madt = Ok info;
  al_route : isa_irq_route (ms_mem s1) madt 0 = Ok route;
  al_base : global_interrupt_base io = info_global_system_interrupt_base info;
  al_mapped : maps_page (root sp) (ms_mem (io_mem s')) IOAPIC_VIRTUAL_ADDRESS (info_apic_address info) DEVICE_PERMISSIONS;
  al_pit : pit_routed la io route s';
}.

Lemma err_as_Done {A E F} (f : E → F) (c : M (Io D) (result A E)) s r s' :
  c s = Done (r, s') → err_as f c s = Done (map_err f r, s').
Proof. intros E'. unfold err_as. by rewrite (bind_Done _ _ _ _ _ E'). Qed.

Lemma route_pit_spec la io route s :
  ioapic_base io = IOAPIC_VIRTUAL_ADDRESS → is_u32 (apic_id la) →
  ∃ r s',
    (if negb (handles_gsi io (gsi route)) then ret (Err PitNotHandled)
     else
       let? destination := ret (ok_or (try_u8 (apic_id la)) InvalidLocalApicId) in
       let? _ := err_as InitIoApicError
         (configure_masked io (gsi route)
            (mkRedirectionConfig PIT_CALIBRATION_VECTOR destination (polarity route) (trigger route))) in
       ret (Ok (la, io, route))) s = Done (r, s') ∧
    io_mem s' = io_mem s ∧ io_if s' = io_if s ∧ apic_base V (io_dev s') = apic_base V (io_dev s) ∧
    match r with
    | Ok x => x = (la, io, route) ∧ pit_routed la io route s'
    | Err e => e ≠ InitTimerCalibrationError FrequencyOverflow
    end.
Proof.
  intros Hb Hid. destruct (handles_gsi io (gsi route)); cbn [negb]; [|by eexists _, s].
  unfold try_u8. destruct (Z.ltb_spec (apic_id la) 256) as [H8|H8]; cbn [ok_or]; rewrite bind_ok_ret; [|by eexists _, s].
  cbn beta iota.
  set (c := mkRedirectionConfig _ _ _ _).
  destruct (redirection_registers io (gsi route)) as [[lo hi]|e] eqn:Er.
  - destruct (configure_masked_spec V io Hb _ _ _ Er s c) as (s' & E & [M I _ St]).
    exists (Ok (la, io, route)), s'. split_and!; try done; [..|by apply (st_base _ _ _ _ St)|].
    + by rewrite (bind_ok_Ok _ _ _ _ _ (err_as_Done _ _ _ _ _ E)).
    + split; [done|]. exists lo, hi. split; [done|]. eapply (configure_entry V io Hb _ _ _ Er s c); [|done].
      split; [done|]. unfold is_u32 in Hid. cbn. split; lia.
  - exists (Err (InitIoApicError e)), s. split_and!; try done.
    assert (E : configure_masked io (gsi route) c s = Done (Err e, s)) by (unfold configure_masked; by rewrite Er).
    by rewrite (bind_ok_Err _ _ _ _ _ (err_as_Done _ _ _ _ _ E)).
Qed.

Lemma prepare_spec madt sp s l :
  pt_inv (root sp) (io_mem s) l →
  ∃ r s', prepare_controller madt sp s = Done (r, s') ∧ (∃ l', pt_inv (root sp) (io_mem s') l') ∧ io_if s' = io_if s ∧
    match r with
    | Err e => e ≠ InitTimerCalibrationError FrequencyOverflow
    | Ok (la, io, route) => apic_access la = access_of (apic_base V (io_dev s')) ∧
        ∃ s1 address info, as_listed madt sp l s s' la io route s1 address info
    end.
Proof.
  intros Hinv. unfold prepare_controller, on_madt, bind_ok at 1. rewrite !bind_assoc, bind_get, bind_ret.
  destruct (effective_local_apic_address _ madt) as [address|e] eqn:Ea; cbn [map_err]; [|by eexists _, s; eauto].
  destruct (local_apic_init_spec V sp address s l Hinv) as (r & s1 & E1 & I1 & (l1 & Hinv1) & Hd1 & Hr).
  pose proof (err_as_Done InitLocalApicError _ _ _ _ E1) as E1'.
  destruct r as [la|e]; [|rewrite (bind_ok_Err _ _ _ _ _ E1'); by eexists _, s1; eauto].
  rewrite (bind_ok_Ok _ _ _ _ _ E1'). destruct Hr as (Hck & Hacc & Hid & St1 & _).
  unfold bind_ok at 1. rewrite !bind_assoc, bind_get, bind_ret.
  destruct (sole_io_apic _ madt) as [info|e] eqn:Es; cbn [map_err]; [|by eexists _, s1; eauto].
  unfold bind_ok at 1. rewrite !bind_assoc, bind_get, bind_ret.
  destruct (isa_irq_route _ madt 0) as [route|e] eqn:Eroute; cbn [map_err]; [|by eexists _, s1; eauto].
  destruct (io_apic_new_spec V (info_id info) (info_apic_address info) (info_global_system_interrupt_base info) sp s1 l1 Hinv1)
    as (r & s2 & E2 & I2 & (l2 & Hinv2) & St2 & Hr); [by eapply sole_io_apic_range|].
  pose proof (err_as_Done InitIoApicError _ _ _ _ E2) as E2'.
  destruct r as [io|e]; [|rewrite (bind_ok_Err _ _ _ _ _ E2'); exists (Err (InitIoApicError e)), s2; split_and!; eauto; congruence].
  rewrite (bind_ok_Ok _ _ _ _ _ E2'). destruct Hr as (Hb & Hgb & _ & Hmap).
  destruct (route_pit_spec la io route s2 Hb Hid) as (r & s3 & E3 & M3 & I3 & B3 & Hr).
  exists r, s3. split_and!; [exact E3|by exists l2; rewrite M3|congruence|].
  destruct r as [x|]; [|exact Hr]. destruct Hr as [-> Hp]. split.
  - rewrite B3, (st_base _ _ _ _ St2), (st_base _ _ _ _ St1). done.
  - exists (io_mem s1), address, info. split; try done. by rewrite M3.
Qed.

Lemma init_controller_spec madt sp s l :
  pt_inv (root sp) (io_mem s) l → io_if s = false →
  ∃ n r s', (∀ fuel, (n ≤ fuel)%nat → init_interrupt_controller fuel madt sp s = Done (Some r, s')) ∧
    (∃ l', pt_inv (root sp) (io_mem s') l') ∧ io_if s' = false ∧
    match r with
    | Ok ctl => 0 < local_timer_frequency ctl < 2 ^ 37 ∧
        ∃ route s1 address info, as_listed madt sp l s s' (local_apic ctl) (io_apic ctl) route s1 address info
    | Err e => e ≠ InitTimerCalibrationError FrequencyOverflow
    end.
Proof.
  intros Hinv Hif. destruct (prepare_spec madt sp s l Hinv) as (r & s1 & E1 & Hl & I1 & Hr).
  unfold init_interrupt_controller. setoid_rewrite (bind_Done _ _ _ _ _ E1).
  destruct r as [[[la io] route]|e].
  2:{ exists 0%nat, (Err e), s1. split_and!; [done|done|congruence|done]. }
  destruct Hr as (Hacc & s0 & address & info & [A1 A2 A3 A4 A5 A6 A7 (Hb & lo & hi & Hregs & Hent)]).
  destruct (calibrate_spec V la io route lo hi Hb Hregs s1 Hacc) as (n & r & s2 & E2 & [M2 I2 En2 _ _] & Hr).
  exists n, (match r with Ok f => Ok (mkInterruptController la io f) | Err e => Err (InitTimerCalibrationError e) end), s2.
  split_and!; [|by rewrite M2|done|].
  { intros fuel Hf. rewrite (bind_Done _ _ _ _ _ (E2 fuel Hf)). by destruct r. }
  destruct r as [f|[]]; cbn [calibration_result] in Hr; try done.
  split; [apply Hr|]. exists route, s0, address, info. split; try done; [by rewrite M2|].
  split; [done|]. exists lo, hi. split; [done|]. by rewrite En2, Hent.
Qed.
End controller.

(** ** A machine *)

(** Hardware that obeys the laws: both controllers, an hour glass for the local timer and a PIT that
    fires after [bn_pit] rounds. *)
Record Bench := mkBench {
  bn_base : Z; bn_time : Z; bn_pit : Z; bn_selected : Z; bn_registers : Z → Z; bn_written : list event;
}.

Definition bench_count (d : Bench) : Z := Z.min (Z.max 0 (bn_time d)) (W32 - 1).

Definition bench_lapic (offset v : Z) (d : Bench) : Bench :=
  mkBench (bn_base d) (if offset =? APIC_TIMER_INITIAL_COUNT then v else bn_time d) (bn_pit d) (bn_selected d)
    (bn_registers d) (bn_written d ++ [LapicSet offset v]).

#[export] Instance bench_hardware : Hardware Bench := {
  port_in _ d := (0xFF, d);
  port_out p v d := mkBench (bn_base d) (bn_time d) (bn_pit d) (bn_selected d) (bn_registers d)
                      (bn_written d ++ [PortSet p v]);
  mmio_in a d :=
    (if a =? IOAPIC_VIRTUAL_ADDRESS + IOWIN then as_u32 (bn_registers d (bn_selected d))
     else if a =? LOCAL_APIC_VIRTUAL_ADDRESS + APIC_TIMER_CURRENT_COUNT then bench_count d else 0, d);
  mmio_out a v d :=
    if a =? IOAPIC_VIRTUAL_ADDRESS then
      mkBench (bn_base d) (bn_time d) (bn_pit d) v (bn_registers d) (bn_written d)
    else if a =? IOAPIC_VIRTUAL_ADDRESS + IOWIN then
      mkBench (bn_base d) (bn_time d) (bn_pit d) (bn_selected d)
        (λ r, if r =? bn_selected d then v else bn_registers d r) (bn_written d ++ [IoApicSet (bn_selected d) v])
    else bench_lapic (a - LOCAL_APIC_VIRTUAL_ADDRESS) v d;
  msr_in i d :=
    (if i =? IA32_APIC_BASE then bn_base d mod W64
     else if i =? 0x800 + APIC_TIMER_CURRENT_COUNT / 16 then bench_count d else 0, d);
  msr_out i v d := bench_lapic ((i - 0x800) * 16) v d;
  elapse d :=
    (if bn_pit d =? 1 then Some PIT_CALIBRATION_VECTOR else None,
     mkBench (bn_base d) (bn_time d - 0x10000000) (bn_pit d - 1) (bn_selected d) (bn_registers d) (bn_written d));
}.

Definition bench_view : view (D := Bench) :=
  mkView (λ d, bn_base d mod W64) (λ d, Z.max 0 (bn_time d)) bench_count (λ d r, as_u32 (bn_registers d r)) bn_written.

Lemma bench_step_log d es t p sel regs :
  regs = bn_registers d → ((∀ v, LapicSet APIC_TIMER_INITIAL_COUNT v ∉ es) → t ≤ bn_time d) →
  (∀ r old, last_io es r old = old) →
  step bench_view es d (mkBench (bn_base d) t p sel regs (bn_written d ++ es)).
Proof. intros -> Ht Hes. constructor; cbn; [done|done|intros; by rewrite Hes|intros H; specialize (Ht H); lia]. Qed.

Lemma bench_count_range d : is_u32 (bench_count d).
Proof. unfold bench_count, is_u32, W32. lia. Qed.

#[export] Instance bench_laws : ApicHardware bench_view.
Proof.
  constructor.
  - intros d. cbn. apply Z.mod_pos_bound. done.
  - apply bench_count_range.
  - intros d r. apply as_u32_range.
  - intros d. cbn. lia.
  - intros d. cbn. unfold bench_count. intros ->. done.
  - intros d. exists d. split; [done|apply step_refl].
  - intros d offset Ho. unfold lapic_in. destruct (access_of _).
    + eexists _, d. split_and!; [reflexivity| |apply step_refl|by intros ->].
      repeat (case_bool; [try apply bench_count_range|]); [|done..].
      exfalso. unfold lapic_readable in Ho. repeat (apply elem_of_cons in Ho as [->|Ho]; [done|]). by apply elem_of_nil in Ho.
    + eexists _, d. split_and!; [reflexivity| |apply step_refl|by intros ->].
      repeat (case_bool; [try apply bench_count_range; apply as_u32_range|]); done.
  - intros d offset v Ho Hv. unfold lapic_writable in Ho.
    assert (Hl : step bench_view [LapicSet offset v] d (bench_lapic offset v d)).
    { apply bench_step_log; [done| |done]. intros H. destruct (Z.eqb_spec offset APIC_TIMER_INITIAL_COUNT) as [->|]; [|lia].
      by destruct (H v); left. }
    unfold lapic_out. destruct (access_of _).
    + repeat (apply elem_of_cons in Ho as [->|Ho]; [exact Hl|]). by apply elem_of_nil in Ho.
    + repeat (apply elem_of_cons in Ho as [->|Ho]; [exact Hl|]). by apply elem_of_nil in Ho.
  - intros d r Hr. eexists. split; [reflexivity|]. cbn. constructor; cbn; [done|by rewrite app_nil_r|done|lia].
  - intros d r v Hr Hv. constructor; [done|done| |intros _; apply Z.le_refl].
    intros q i _. change (Z.testbit (as_u32 (if q =? r then v else bn_registers d q)) i =
      Z.testbit (if r =? q then v else as_u32 (bn_registers d q)) i).
    rewrite Z.eqb_sym. destruct (r =? q); [by rewrite as_u32_small|done].
  - intros d p v Hp Hv. cbn. by apply bench_step_log.
  - intros d. cbn. split; [|lia]. constructor; cbn; [done|by rewrite app_nil_r|done|lia].
Qed.

(** The MADT lies in frames that hold data and no table of [sp]. *)
Definition madt_apart (acpi : AcpiTables) (pa : PhysicalAddr) (h : SDTHeader) (sp : AddressSpace) (s : MState)
    (l : list FrameState) : Prop :=
  ∀ x, madt_byte acpi pa h x → ∃ j, data_frame l s j ∧ ¬ own_table (root sp) (ms_mem s) (frame_at j) ∧
    in_frame (direct_map (ms_fa s)) (Z.of_nat j) x.

(** ** Theorems *)

(** C34: The I/O APIC driver serves exactly the interrupts of its controller whose two registers have an
    eight-bit number.  For those, an entry that was configured means the configuration to the
    controller, unmasking and masking change nothing but the mask, and no other entry is touched.
    Configuring begins by masking the entry, before its destination is written, and every later
    write to the register with the mask keeps it masked.  For others the driver reports which
    limit was missed and leaves the controller alone. *)
Theorem io_apic_correct {D} `{!Hardware D} (V : view (D := D)) `{!ApicHardware V} (io : IoApic) (gsi : Z)
    (c : RedirectionConfig) (s : Io D) :
  ioapic_base io = IOAPIC_VIRTUAL_ADDRESS → config_valid c →
  match redirection_registers io gsi with
  | Ok (lo, hi) =>
      (∃ i, gsi = global_interrupt_base io + i ∧ 0 ≤ i < redirection_entry_count io ∧ i < 120 ∧
         lo = low_of i ∧ hi = high_of i) ∧
      ∃ s1 s2 s3, configure_masked io gsi c s = Done (Ok tt, s1) ∧ unmask io gsi s1 = Done (Ok tt, s2) ∧
        mask io gsi s2 = Done (Ok tt, s3) ∧
        entry_in V lo hi s1 = mkRedirectionEntry c 0 true ∧ entry_in V lo hi s2 = mkRedirectionEntry c 0 false ∧
        entry_in V lo hi s3 = mkRedirectionEntry c 0 true ∧
        (∀ r i, r ≠ lo → r ≠ hi → io_writable r i = true →
           Z.testbit (io_reg V (io_dev s3) r) i = Z.testbit (io_reg V (io_dev s) r) i) ∧
        ∃ v es, written V (io_dev s1) = written V (io_dev s) ++ IoApicSet lo v :: es ∧
          Z.testbit v 16 = true ∧ (∀ w, IoApicSet lo w ∈ es → Z.testbit w 16 = true)
  | Err e =>
      (e = GsiOutsideRange ∧ handles_gsi io gsi = false ∨
       e = InvalidRedirectionIndex ∧ handles_gsi io gsi = true ∧ 120 ≤ gsi - global_interrupt_base io) ∧
      configure_masked io gsi c s = Done (Err e, s) ∧ unmask io gsi s = Done (Err e, s) ∧ mask io gsi s = Done (Err e, s)
  end.
Proof.
  intros Hb Hc. destruct (redirection_registers io gsi) as [[lo hi]|e] eqn:Er.
  2:{ split; [by apply redirection_registers_err|]. unfold configure_masked, unmask, mask. by rewrite Er. }
  split; [by apply redirection_registers_spec|].
  destruct (configure_masked_spec V io Hb _ _ _ Er s c) as (s1 & E1 & R1).
  destruct (unmask_spec V io Hb _ _ _ Er s1) as (s2 & E2 & R2).
  destruct (mask_spec V io Hb _ _ _ Er s2) as (s3 & E3 & R3).
  pose proof (configure_entry V io Hb _ _ _ Er s c s1 Hc E1) as Hent.
  exists s1, s2, s3. split_and!; try done.
  - by rewrite (unmask_entry V io _ _ _ Er [] s1 s2), Hent by (try apply R2; done).
  - by rewrite (mask_entry V io _ _ _ Er [] s2 s3), (unmask_entry V io _ _ _ Er [] s1 s2), Hent by (try apply R2; try apply R3; done).
  - intros r i Hlo Hhi Hw. apply Z.eqb_neq in Hlo, Hhi. rewrite Z.eqb_sym in Hlo, Hhi.
    rewrite (st_io _ _ _ _ (rn_step _ _ _ _ (ran_trans V _ _ _ _ _ R1 (ran_trans V _ _ _ _ _ R2 R3))) r i Hw).
    cbn [last_io foldl configure_events app]. by rewrite Hlo, Hhi.
  - assert (Hmask : ∀ v, Z.testbit (Z.lor v IOAPIC_MASKED) 16 = true).
    { intros v. change IOAPIC_MASKED with (2 ^ 16). by rewrite Z.lor_spec, Z.pow2_bits_true, orb_true_r. }
    eexists _, _. split_and!; [apply R1|apply Hmask|]. intros w Hw. destruct (lo_hi _ _ _ _ Er) as [Hn _].
    apply Z.eqb_neq in Hn.
    repeat (apply elem_of_cons in Hw as [[= ]|Hw]); try done; [|by apply elem_of_nil in Hw]; by subst w.
Qed.


(** C36: Setting up the interrupt controllers on a well-formed kernel address space, with interrupts off
    and the MADT in frames that hold data, always ends, without a panic, with interrupts off and the
    page tables well formed.  When it succeeds, the local APIC is where the MADT says; the I/O APIC's
    registers, at the address of the only one the MADT lists, are mapped for the kernel alone; the PIT's
    interrupt goes to the pin, with the polarity and the trigger mode, that the MADT gives ISA
    interrupt 0, under its vector to the local APIC that was found, and is masked; and the timer
    frequency is positive and below 2^37.  Whether the local APIC is driven through memory or through
    registers makes no difference. *)
Theorem interrupt_controller_correct {D} `{!Hardware D} (V : view (D := D)) `{!ApicHardware V} (acpi : AcpiTables)
    (pa : PhysicalAddr) (h : SDTHeader) (b : MadtBody) (es : list (MadtEntry * bytes))
    (sp : AddressSpace) (s : Io D) (l : list FrameState) :
  pt_inv (root sp) (io_mem s) l → io_if s = false →
  madt_at (ms_mem (io_mem s)) acpi pa h b es → madt_apart acpi pa h sp (io_mem s) l →
  ∃ n r s', (∀ fuel, (n ≤ fuel)%nat → init_interrupt_controller fuel (madt_of acpi pa h b) sp s = Done (Some r, s')) ∧
    (∃ l', pt_inv (root sp) (io_mem s') l') ∧ io_if s' = false ∧
    match r with
    | Ok ctl => 0 < local_timer_frequency ctl < 2 ^ 37 ∧
        init_check (apic_base V (io_dev s))
          (default (body_local_apic_address b) (last (omap address_override es.*1))) = None ∧
        ∃ route info, route_spec 0 es.*1 = Ok route ∧ sole_spec es.*1 = Ok info ∧
          global_interrupt_base (io_apic ctl) = info_global_system_interrupt_base info ∧
          maps_page (root sp) (ms_mem (io_mem s')) IOAPIC_VIRTUAL_ADDRESS (info_apic_address info) DEVICE_PERMISSIONS ∧
          pit_routed V (local_apic ctl) (io_apic ctl) route s'
    | Err e => e ≠ InitTimerCalibrationError FrequencyOverflow
    end.
Proof.
  intros Hinv Hif Hm Ha. destruct (init_controller_spec V (madt_of acpi pa h b) sp s l Hinv Hif)
    as (n & r & s' & E & Hl & Hif' & Hr).
  exists n, r, s'. split_and!; [exact E|done|done|]. destruct r as [ctl|e]; [|done].
  destruct Hr as (Hf & route & s1 & address & info & [A1 A2 A3 A4 A5 A6 A7 A8]).
  assert (Hm1 : madt_at (ms_mem s1) acpi pa h b es).
  { eapply madt_at_ext; [exact Hm|]. intros x Hx. destruct (Ha x Hx) as (j & H1 & H2 & H3). by apply (A1 j). }
  destruct (madt_answers _ _ _ _ _ _ 0 Hm) as (B1 & _), (madt_answers _ _ _ _ _ _ 0 Hm1) as (_ & B2 & B3).
  rewrite B1 in A2. rewrite B2 in A4. rewrite B3 in A5. injection A2 as <-.
  split_and!; [apply Hf..|done|]. by exists route, info.
Qed.

(** ** Witnesses *)

Definition demo_bench (base : Z) : Bench := mkBench base 0 3 0 (λ _, 0x170000) [].
Definition demo_io (base : Z) : Io Bench := mkIo demo_pt_state (demo_bench base) false (mkCounters 0 0 0 false 0).
Definition demo_io_apic : IoApic := mkIoApic IOAPIC_VIRTUAL_ADDRESS 0 24.
Definition demo_route : IsaIrqRoute := mkIsaIrqRoute 2 ActiveHigh Edge.

Lemma io_apic_correct_witness :
  ∃ s1, configure_masked demo_io_apic 2 (mkRedirectionConfig 0xF1 0 ActiveLow Level) (demo_io 0x900) = Done (Ok tt, s1) ∧
    entry_in bench_view 20 21 s1 = mkRedirectionEntry (mkRedirectionConfig 0xF1 0 ActiveLow Level) 0 true.
Proof.
  destruct (io_apic_correct bench_view demo_io_apic 2 (mkRedirectionConfig 0xF1 0 ActiveLow Level) (demo_io 0x900))
    as [_ (s1 & s2 & s3 & E1 & _ & _ & H & _)]; [done|done|]. by exists s1.
Defined.


Lemma calibration_example :
  returned (calibrate_local_apic 20 (mkLocalApic 0 XApic) demo_io_apic demo_route (demo_io 0xFEE00900)) =
    Some (Some (Ok (3 * 0x10000000 * 1193182 / 65535))).
Proof. vm_compute. reflexivity. Qed.

(** More fuel than enough makes no difference. *)
Section fuel.
Context {D : Type} `{!Hardware D}.

Lemma wait_for_pit_more fuel fuel' (s : Io D) b s' :
  (fuel ≤ fuel')%nat → wait_for_pit fuel s = Done (Some b, s') → wait_for_pit fuel' s = Done (Some b, s').
Proof.
  revert fuel' s. induction fuel as [|fuel IH]; intros [|fuel'] s Hle; [done|done|lia|]. cbn [wait_for_pit].
  intros (fired & s1 & E1 & E)%bind_Done_inv. rewrite (bind_Done _ _ _ _ _ E1). destruct fired; [done|].
  apply bind_Done_inv in E as (count & s2 & E2 & E). rewrite (bind_Done _ _ _ _ _ E2). destruct (count =? 0); [done|].
  apply bind_Done_inv in E as (u & s3 & E3 & E). rewrite (bind_Done _ _ _ _ _ E3). apply IH; [lia|done].
Qed.

Lemma calibrate_more fuel fuel' la io route (s : Io D) r s' :
  (fuel ≤ fuel')%nat → calibrate_local_apic fuel la io route s = Done (Some r, s') →
  calibrate_local_apic fuel' la io route s = Done (Some r, s').
Proof.
  intros Hle. unfold calibrate_local_apic.
  intros (u1 & s1 & E1 & E)%bind_Done_inv. rewrite (bind_Done _ _ _ _ _ E1).
  apply bind_Done_inv in E as (u2 & s2 & E2 & E). rewrite (bind_Done _ _ _ _ _ E2). destruct u2; [|done].
  apply bind_Done_inv in E as (u3 & s3 & E3 & E). rewrite (bind_Done _ _ _ _ _ E3).
  apply bind_Done_inv in E as (u4 & s4 & E4 & E). rewrite (bind_Done _ _ _ _ _ E4).
  apply bind_Done_inv in E as (u5 & s5 & E5 & E). rewrite (bind_Done _ _ _ _ _ E5).
  apply bind_Done_inv in E as ([b|] & s6 & E6 & E); [|done].
  by rewrite (bind_Done _ _ _ _ _ (wait_for_pit_more _ _ _ _ _ Hle E6)).
Qed.

Lemma init_controller_more fuel fuel' madt sp (s : Io D) r s' :
  (fuel ≤ fuel')%nat → init_interrupt_controller fuel madt sp s = Done (Some r, s') →
  init_interrupt_controller fuel' madt sp s = Done (Some r, s').
Proof.
  intros Hle. unfold init_interrupt_controller.
  intros (p & s1 & E1 & E)%bind_Done_inv. rewrite (bind_Done _ _ _ _ _ E1).
  destruct p as [[[la io] route]|e]; [|done].
  apply bind_Done_inv in E as ([o|] & s2 & E2 & E); [|done].
  by rewrite (bind_Done _ _ _ _ _ (calibrate_more _ _ _ _ _ _ _ _ Hle E2)).
Qed.
End fuel.

(** A machine whose MADT, at 0x1E000, lists two APICs and moves interrupt 0 to pin 2. *)
Definition listed_acpi : AcpiTables := mkAcpiTables demo_dm (Xsdt (mkSdt 0x200 44 (ascii "XSDT"))).
Definition listed_memory : memory := λ x,
  if (0x1E000 + offset demo_dm <=? x) && (x <? 0x1E000 + offset demo_dm + hd_length demo_madt_header)
  then image [(0x1E000 + offset demo_dm, encode SDTHeader_layout demo_madt_header ++ demo_madt_rest)] x
  else ms_mem roomy_state x.
Definition listed_state : MState := set_mem listed_memory roomy_state.
Definition listed_bench : Bench :=
  mkBench 0xFEE00D00 0 3 0 (λ r, if r =? IOAPIC_ID then 0x2000000 else 0x170000) [].
Definition listed_io : Io Bench := mkIo listed_state listed_bench false (mkCounters 0 0 0 false 0).

Lemma listed_off x : x < 0x1E000 + offset demo_dm → load8 listed_memory x = load8 (ms_mem roomy_state) x.
Proof. intros Hx. unfold load8, listed_memory. by rewrite (proj2 (Z.leb_gt _ _)). Qed.

Lemma listed_pt_inv : pt_inv demo_pt listed_state roomy_frames.
Proof.
  pose proof roomy_pt_inv as Hinv. pose proof (pi_alloc _ _ _ Hinv) as Hfa.
  eapply (pt_inv_agree demo_pt roomy_state listed_state roomy_frames Hinv); [|reflexivity|].
  - apply fa_inv_mem; [exact Hfa|]. intros a Ha. apply listed_off. eapply Z.lt_trans; [apply Ha|]. vm_compute. reflexivity.
  - intros f j Hf Hj. pose proof (table_ok_index _ _ _ Hf) as E. destruct Hf as [_ Hal].
    apply lookup_lt_Some in Hal. change (length roomy_frames) with 20%nat in Hal.
    apply load64_ext. intros x Hx. apply listed_off. unfold idx_ok, PAGE_TABLE_ENTRIES, FRAME_SIZE in *.
    change (pt_direct_map demo_pt) with demo_dm in Hx. lia.
Qed.

Lemma listed_madt : madt_at listed_memory listed_acpi 0x1E000 demo_madt_header demo_body demo_entries.
Proof.
  split; [in_range|done|in_range| |done|by vm_compute|in_range].
  repeat constructor; try in_range. set_solver by lia.
Qed.

Lemma listed_apart : madt_apart listed_acpi 0x1E000 demo_madt_header (mkAddressSpace demo_pt Kernel) listed_state roomy_frames.
Proof.
  intros x Hx. exists 30%nat. split_and!.
  - right. split; [done|]. split; [right; vm_compute; discriminate|vm_compute; discriminate].
  - intros Ho. destruct (own_table_ok _ _ _ listed_pt_inv _ Ho) as [_ Hal]. done.
  - unfold madt_byte in Hx. change (hd_length demo_madt_header) with 103 in Hx.
    change (direct_map (ms_fa listed_state)) with demo_dm. change (acpi_direct_map listed_acpi) with demo_dm in Hx.
    unfold in_frame, frame_virt, FRAME_SIZE. lia.
Qed.

Lemma interrupt_controller_correct_witness :
  ∃ n ctl s', (∀ fuel, (n ≤ fuel)%nat →
      init_interrupt_controller fuel (madt_of listed_acpi 0x1E000 demo_madt_header demo_body)
        (mkAddressSpace demo_pt Kernel) listed_io = Done (Some (Ok ctl), s')) ∧
    io_if s' = false ∧ pit_routed bench_view (local_apic ctl) (io_apic ctl) (mkIsaIrqRoute 2 ActiveHigh Edge) s' ∧
    maps_page demo_pt (ms_mem (io_mem s')) IOAPIC_VIRTUAL_ADDRESS 0xFEC00000 DEVICE_PERMISSIONS.
Proof.
  destruct (interrupt_controller_correct bench_view listed_acpi 0x1E000 demo_madt_header demo_body demo_entries
    (mkAddressSpace demo_pt Kernel) listed_io roomy_frames listed_pt_inv eq_refl listed_madt listed_apart)
    as (n & r & s' & E & _ & Hif & Hr).
  assert (Hok : match returned (init_interrupt_controller 20 (madt_of listed_acpi 0x1E000 demo_madt_header demo_body)
    (mkAddressSpace demo_pt Kernel) listed_io) with Some (Some (Ok _)) => true | _ => false end = true)
    by (vm_compute; reflexivity).
  destruct (init_interrupt_controller 20 _ _ listed_io) as [[[[ctl|e]|] s1]|w|] eqn:E20; try discriminate Hok.
  pose proof (E (Nat.max n 20) (Nat.le_max_l _ _)) as Emax.
  rewrite (init_controller_more 20 (Nat.max n 20) _ _ _ _ _ (Nat.le_max_r _ _) E20) in Emax. injection Emax as <- <-.
  destruct Hr as (_ & _ & route & info & Hroute & Hinfo & _ & Hmap & Hpit).
  assert (Er : route_spec 0 demo_entries.*1 = Ok (mkIsaIrqRoute 2 ActiveHigh Edge)) by (vm_compute; reflexivity).
  assert (Ei : sole_spec demo_entries.*1 = Ok (mkIoApicInfo 2 0xFEC00000 0)) by (vm_compute; reflexivity).
  rewrite Er in Hroute. rewrite Ei in Hinfo. injection Hroute as <-. injection Hinfo as <-.
  exists n, ctl, s1. split; [exact E|]. split; [exact Hif|]. split; [exact Hpit|exact Hmap].
Defined.
