(* ===== verification/Kernel.v ===== *)
(** * The kernel's global state

    The statics of the kernel (the frame allocator, the table of address spaces, the kernel's
    own address space, the scheduler with its ready queue) and the CPU state its code changes
    (the interrupt flag, CR3, the stacks used on kernel entry, the context that runs), with
    the accessors that guard each static by masking interrupts: [src/memory/frame.rs],
    [src/memory/address_space.rs], [src/arch/x86_64/interrupts/mod.rs] and the data types of
    [src/task/scheduler.rs]. *)

From S2P Require Import Prelude Memory Bytes Frame Paging PageTree PageMap AddressSpace VirtMem Stack Ring Tcb.

(** ** The ready queue *)

Definition MAX_TASKS : usize := 32.

Record ReadyQueue := mkReadyQueue {
  rq_entries : list TaskId;
  rq_head : usize;
  rq_len : usize;
}.

Definition ReadyQueue_new : ReadyQueue :=
  mkReadyQueue (replicate (Z.to_nat MAX_TASKS) 0) 0 0.

Definition ReadyQueue_push_back (task : TaskId) : M ReadyQueue bool :=
  let! self := get in
  if rq_len self =? MAX_TASKS then ret false
  else
    let! end_ := uadd (rq_head self) (rq_len self) in
    let tail := end_ mod MAX_TASKS in
    do! massert (tail <? Z.of_nat (length (rq_entries self))) "index out of bounds" ;;;
    let! len := uadd (rq_len self) 1 in
    do! put (mkReadyQueue (zset (rq_entries self) tail task) (rq_head self) len) ;;;
    ret true.

Definition ReadyQueue_pop_front : M ReadyQueue (option TaskId) :=
  let! self := get in
  if rq_len self =? 0 then ret None
  else
    let! task := expect (zget (rq_entries self) (rq_head self)) "index out of bounds" in
    let! next := uadd (rq_head self) 1 in
    let! len := usub (rq_len self) 1 in
    do! put (mkReadyQueue (rq_entries self) (next mod MAX_TASKS) len) ;;;
    ret (Some task).

(** [self.entries[(self.head + j) % MAX_TASKS] = self.entries[(self.head + j + 1) % MAX_TASKS]] *)
Definition shift_entry (j : usize) : M ReadyQueue unit :=
  let! self := get in
  let! a := uadd (rq_head self) j in
  let! b := uadd a 1 in
  let! task := expect (zget (rq_entries self) (b mod MAX_TASKS)) "index out of bounds" in
  do! massert (a mod MAX_TASKS <? Z.of_nat (length (rq_entries self))) "index out of bounds" ;;;
  put (mkReadyQueue (zset (rq_entries self) (a mod MAX_TASKS) task) (rq_head self) (rq_len self)).

(** The search of [remove] from index [i] on, [n] entries being left. *)
Fixpoint remove_from (task : TaskId) (n : nat) (i : usize) : M ReadyQueue bool :=
  match n with
  | O => ret false
  | S n =>
      let! self := get in
      let! a := uadd (rq_head self) i in
      let! entry := expect (zget (rq_entries self) (a mod MAX_TASKS)) "index out of bounds" in
      if entry =? task then
        let! last := usub (rq_len self) 1 in
        do! mfor (range i last) shift_entry ;;;
        let! self := get in
        let! len := usub (rq_len self) 1 in
        do! put (mkReadyQueue (rq_entries self) (rq_head self) len) ;;;
        ret true
      else remove_from task n (i + 1)
  end.

Definition ReadyQueue_remove (task : TaskId) : M ReadyQueue bool :=
  let! self := get in
  remove_from task (Z.to_nat (rq_len self)) 0.

(** ** The global state *)

Record Scheduler := mkScheduler {
  current : option TaskId;
  tasks : list (option Tcb);
  ready : ReadyQueue;
  stacks : KernelStackPool;
}.

Definition Scheduler_new : Scheduler :=
  mkScheduler None (replicate (Z.to_nat MAX_TASKS) None) ReadyQueue_new KernelStackPool_new.

(** The saved context a pointer to a [ThreadContext] designates. *)
Inductive ContextRef := BootstrapContext | TaskContext (id : TaskId).

Record KState := mkKState {
  k_mem : MState;                      (* memory, CR3, and the value of FRAME_ALLOCATOR *)
  k_allocator_set : bool;              (* FRAME_ALLOCATOR is Some *)
  k_spaces : AddressSpaceTable;        (* ADDRESS_SPACE_TABLE *)
  k_kernel_space : option AddressSpace;(* KERNEL_ADDRESS_SPACE *)
  k_sched : Scheduler;                 (* SCHEDULER *)
  k_interrupts : bool;                 (* the interrupt flag of RFLAGS *)
  k_tss_stack : VirtualAddr;           (* TSS.privilege_stacks[0] *)
  k_cpu_stack : VirtualAddr;           (* BOOT_CPU.kernel_stack_top *)
  k_context : ContextRef;              (* the context the CPU executes *)
  k_serial : list Z;                   (* the bytes sent over the serial port *)
}.

Definition set_k_mem (m : MState) (k : KState) : KState :=
  mkKState m (k_allocator_set k) (k_spaces k) (k_kernel_space k) (k_sched k) (k_interrupts k)
    (k_tss_stack k) (k_cpu_stack k) (k_context k) (k_serial k).
Definition set_k_spaces (t : AddressSpaceTable) (k : KState) : KState :=
  mkKState (k_mem k) (k_allocator_set k) t (k_kernel_space k) (k_sched k) (k_interrupts k)
    (k_tss_stack k) (k_cpu_stack k) (k_context k) (k_serial k).
Definition set_k_kernel_space (a : option AddressSpace) (k : KState) : KState :=
  mkKState (k_mem k) (k_allocator_set k) (k_spaces k) a (k_sched k) (k_interrupts k)
    (k_tss_stack k) (k_cpu_stack k) (k_context k) (k_serial k).
Definition set_k_sched (s : Scheduler) (k : KState) : KState :=
  mkKState (k_mem k) (k_allocator_set k) (k_spaces k) (k_kernel_space k) s (k_interrupts k)
    (k_tss_stack k) (k_cpu_stack k) (k_context k) (k_serial k).
Definition set_k_interrupts (b : bool) (k : KState) : KState :=
  mkKState (k_mem k) (k_allocator_set k) (k_spaces k) (k_kernel_space k) (k_sched k) b
    (k_tss_stack k) (k_cpu_stack k) (k_context k) (k_serial k).
Definition set_k_stacks (v : VirtualAddr) (k : KState) : KState :=
  mkKState (k_mem k) (k_allocator_set k) (k_spaces k) (k_kernel_space k) (k_sched k) (k_interrupts k)
    v v (k_context k) (k_serial k).
Definition set_k_context (c : ContextRef) (k : KState) : KState :=
  mkKState (k_mem k) (k_allocator_set k) (k_spaces k) (k_kernel_space k) (k_sched k) (k_interrupts k)
    (k_tss_stack k) (k_cpu_stack k) c (k_serial k).
Definition set_k_serial (o : list Z) (k : KState) : KState :=
  mkKState (k_mem k) (k_allocator_set k) (k_spaces k) (k_kernel_space k) (k_sched k) (k_interrupts k)
    (k_tss_stack k) (k_cpu_stack k) (k_context k) o.

(** ** Interrupts *)

Definition disable_interrupts_and_save : M KState bool :=
  let! k := get in
  do! put (set_k_interrupts false k) ;;;
  ret (k_interrupts k).

Definition restore_interrupts (flags : bool) : M KState unit := modify (set_k_interrupts flags).

Definition disable_interrupts : M KState unit := modify (set_k_interrupts false).

(** The guard every accessor of a static has around its body. *)
Definition with_interrupts_masked {A} (body : M KState A) : M KState A :=
  let! interrupt_state := disable_interrupts_and_save in
  let! result := body in
  do! restore_interrupts interrupt_state ;;;
  ret result.

(** ** The frame allocator *)

Definition on_memory {A} (c : M MState A) : M KState A := on_part k_mem set_k_mem c.

Definition init_frame_allocator (allocator : FrameAllocator) : M KState unit :=
  with_interrupts_masked
    (modify (λ k, mkKState (set_fa allocator (k_mem k)) true (k_spaces k) (k_kernel_space k)
                    (k_sched k) (k_interrupts k) (k_tss_stack k) (k_cpu_stack k) (k_context k) (k_serial k))).

Definition alloc_frame : M KState (option FrameAddr) :=
  with_interrupts_masked
    (let! k := get in
     if k_allocator_set k then on_memory FrameAllocator_alloc else ret None).

Definition dealloc_frame (frame : FrameAddr) : M KState unit :=
  with_interrupts_masked
    (let! k := get in
     if k_allocator_set k then on_memory (FrameAllocator_dealloc frame) else ret tt).

Definition with_allocator {A} (f : M MState A) : M KState A :=
  with_interrupts_masked
    (let! k := get in
     do! massert (k_allocator_set k) "frame allocator not initialized" ;;;
     on_memory f).

(** ** Address spaces *)

Definition on_spaces {A} (c : M AddressSpaceTable A) : M KState A := on_part k_spaces set_k_spaces c.

Definition insert_address_space (address_space : AddressSpace) :
    M KState (result AddressSpaceId AddressSpace) :=
  on_spaces (AddressSpaceTable_insert address_space).

Definition remove_address_space (id : AddressSpaceId) : M KState (option AddressSpace) :=
  on_spaces (AddressSpaceTable_remove id).

(** An [AddressSpace] value is a handle on its page table in memory, so a closure that is
    given it by mutable reference changes memory, not the value. *)
Definition with_address_space {A} (id : AddressSpaceId) (f : AddressSpace → M KState A) :
    M KState (option A) :=
  with_interrupts_masked
    (let! k := get in
     match AddressSpaceTable_get (k_spaces k) id with
     | Some address_space => let! a := f address_space in ret (Some a)
     | None => ret None
     end).

Definition init_kernel_address_space (address_space : AddressSpace) : M KState unit :=
  with_interrupts_masked (modify (set_k_kernel_space (Some address_space))).

Definition with_kernel_address_space {A} (f : AddressSpace → M KState A) : M KState A :=
  with_interrupts_masked
    (let! k := get in
     let! space := expect (k_kernel_space k) "kernel address space not initialized" in
     f space).

(** ** The CPU *)

(** [arch::set_kernel_stack]: the task state segment and the CPU-local block. *)
Definition set_kernel_stack (stack_top : VirtualAddr) : M KState unit :=
  modify (set_k_stacks stack_top).

(** * Lemmas *)

(** ** The ready queue is a bounded queue *)

Definition ready_rep (rq : ReadyQueue) (l : list TaskId) : Prop :=
  ring_rep MAX_TASKS (rq_entries rq) (rq_head rq) (rq_len rq) l.

Lemma ready_new_rep : ready_rep ReadyQueue_new [].
Proof. by apply ring_rep_nil. Qed.

Lemma ready_push_full rq l id :
  ready_rep rq l → Z.of_nat (length l) = MAX_TASKS → ReadyQueue_push_back id rq = Done (false, rq).
Proof.
  intros [_ _ H3 _ _] Hl. unfold ReadyQueue_push_back. mred. by rewrite (proj2 (Z.eqb_eq _ _)) by lia.
Qed.

Lemma ready_push_ok rq l id :
  ready_rep rq l → Z.of_nat (length l) < MAX_TASKS →
  ∃ rq', ReadyQueue_push_back id rq = Done (true, rq') ∧ ready_rep rq' (l ++ [id]).
Proof.
  intros H Hl. pose proof H as [H1 H2 H3 H4 _]. unfold MAX_TASKS in *. eexists. split.
  - unfold ReadyQueue_push_back, MAX_TASKS. mred. rewrite (proj2 (Z.eqb_neq _ _)) by lia. mstep uadd_lt.
    unfold massert. rewrite (proj2 (Z.ltb_lt _ _)) by (rewrite H1; by apply Z.mod_pos_bound).
    mred. mstep uadd_lt. by mred.
  - apply ring_push; [done|unfold MAX_TASKS; lia].
Qed.

Lemma ready_pop_nil rq : ready_rep rq [] → ReadyQueue_pop_front rq = Done (None, rq).
Proof. intros [_ _ H3 _ _]. unfold ReadyQueue_pop_front. mred. by rewrite H3. Qed.

Lemma ready_pop_cons rq id l :
  ready_rep rq (id :: l) →
  ∃ rq', ReadyQueue_pop_front rq = Done (Some id, rq') ∧ ready_rep rq' l.
Proof.
  intros H. pose proof H as [H1 H2 H3 H4 _]. simpl in H3. apply ring_pop in H as [E H].
  unfold MAX_TASKS in *. eexists. split.
  - unfold ReadyQueue_pop_front. mred. rewrite (proj2 (Z.eqb_neq _ _)) by lia. rewrite E. simpl. mred.
    mstep uadd_lt. mstep usub_le. by mred.
  - exact H.
Qed.

#[export] Program Instance ready_fifo_instance : Fifo ReadyQueue TaskId := {|
  fifo_rep := ready_rep;
  fifo_capacity := MAX_TASKS;
  fifo_push := ReadyQueue_push_back;
  fifo_pop := ReadyQueue_pop_front;
  fifo_push_full := ready_push_full;
  fifo_push_ok := ready_push_ok;
  fifo_pop_nil := ready_pop_nil;
  fifo_pop_cons := ready_pop_cons;
|}.
Next Obligation. intros rq l [_ _ H3 H4 _]. lia. Qed.

(** *** Removal *)

Lemma ready_entry rq l i x :
  ready_rep rq l → 0 ≤ i → zget l i = Some x →
  uadd (S := ReadyQueue) (rq_head rq) i rq = Done (rq_head rq + i, rq) ∧
  zget (rq_entries rq) ((rq_head rq + i) mod MAX_TASKS) = Some x.
Proof.
  intros [H1 H2 H3 H4 H5] Hi Hx. apply zget_Some_lt in Hx as Hb. split; [|by apply H5].
  apply uadd_lt. unfold MAX_TASKS, W64 in *. lia.
Qed.

Lemma zget_middle {A} (a b : list A) x : zget (a ++ x :: b) (Z.of_nat (length a)) = Some x.
Proof. rewrite zget_lookup, Nat2Z.id by lia. by apply list_lookup_middle. Qed.

Lemma zset_middle {A} (a b : list A) x y : zset (a ++ x :: b) (Z.of_nat (length a)) y = a ++ y :: b.
Proof.
  rewrite zset_insert, Nat2Z.id by lia.
  replace (length a) with (length a + 0)%nat by lia. by rewrite insert_app_r.
Qed.

(** One move: the entry after the gap fills it. *)
Lemma shift_entry_spec rq a y x b :
  ready_rep rq (a ++ y :: x :: b) →
  ∃ rq', shift_entry (Z.of_nat (length a)) rq = Done (tt, rq') ∧
    ready_rep rq' ((a ++ [x]) ++ x :: b).
Proof.
  intros H. pose proof H as [H1 H2 H3 H4 _]. rewrite length_app in H3. simpl in H3.
  destruct (ready_entry rq _ (Z.of_nat (length a)) y H) as [E1 E2]; [lia|apply zget_middle|].
  destruct (ready_entry rq _ (Z.of_nat (length a) + 1) x H) as [E3 E4]; [lia| |].
  { rewrite zget_lookup by lia. replace (Z.to_nat _) with (S (length a)) by lia.
    rewrite lookup_app_r by lia. by replace (S (length a) - length a)%nat with 1%nat by lia. }
  eexists. split.
  - unfold shift_entry. mred. rewrite (bind_Done _ _ _ _ _ E1).
    rewrite (bind_Done (uadd _ 1) _ rq (rq_head rq + (Z.of_nat (length a) + 1)) rq)
      by (rewrite uadd_lt; [do 2 f_equal; lia|]; unfold MAX_TASKS, W64 in *; lia).
    rewrite E4. simpl. mred. unfold massert. rewrite (proj2 (Z.ltb_lt _ _)); [done|].
    rewrite H1. by apply Z.mod_pos_bound.
  - apply (ring_move _ _ _ _ _ (Z.of_nat (length a)) x) in H; [|rewrite H3; lia].
    rewrite zset_middle in H. rewrite <- app_assoc. exact H.
Qed.

Lemma shift_entries_spec rq a y b :
  ready_rep rq (a ++ y :: b) →
  ∃ rq' z, mfor (range (Z.of_nat (length a)) (Z.of_nat (length a + length b))) shift_entry rq =
      Done (tt, rq') ∧ ready_rep rq' ((a ++ b) ++ [z]).
Proof.
  revert rq a y. induction b as [|x b IH]; intros rq a y H.
  { rewrite range_empty by (simpl; lia). exists rq, y. by rewrite app_nil_r. }
  destruct (shift_entry_spec rq a y x b H) as (rq1 & E1 & H1).
  destruct (IH rq1 (a ++ [x]) x H1) as (rq2 & z & E2 & H2).
  exists rq2, z. split.
  - rewrite range_cons by (simpl; lia). simpl. rewrite (bind_Done _ _ _ _ _ E1).
    rewrite <- E2. rewrite length_app. simpl. do 2 f_equal; lia.
  - by rewrite <- (app_assoc a) in H2.
Qed.

Lemma remove_from_spec rq a b id :
  ready_rep rq (a ++ b) → id ∉ a →
  ∃ rq', remove_from id (length b) (Z.of_nat (length a)) rq = Done (bool_decide (id ∈ b), rq') ∧
    ∀ b1 b2, (b = b1 ++ id :: b2 → id ∉ b1 → ready_rep rq' (a ++ b1 ++ b2)) ∧
             (id ∉ b → rq' = rq).
Proof.
  revert a. induction b as [|x b IH]; intros a H Ha; simpl.
  { exists rq. split; [done|]. intros b1 b2. split; [|done]. by destruct b1. }
  destruct (ready_entry rq _ (Z.of_nat (length a)) x H) as [E1 E2]; [lia|apply zget_middle|].
  pose proof H as [_ _ H3 _ _]. rewrite length_app in H3. simpl in H3.
  mred. rewrite (bind_Done _ _ _ _ _ E1), E2. simpl. mred. destruct (Z.eqb_spec x id) as [->|Hne].
  - rewrite (bind_Done (usub _ 1) _ rq (Z.of_nat (length a + length b)) rq)
      by (rewrite usub_le; [do 2 f_equal|]; lia).
    destruct (shift_entries_spec rq a id b H) as (rq1 & z & Es & H1).
    rewrite (bind_Done _ _ _ _ _ Es). mred. pose proof H1 as [_ _ H1l _ _].
    rewrite length_app in H1l. simpl in H1l. mstep usub_le. mred.
    rewrite bool_decide_true by left. eexists. split; [done|]. intros b1 b2. split; [|set_solver].
    intros Hb Hn. destruct b1 as [|y b1]; [injection Hb as ->|injection Hb as -> _; set_solver].
    apply ring_drop_last in H1. exact H1.
  - destruct (IH (a ++ [x])) as (rq' & E & Hrq).
    { by rewrite <- app_assoc. }
    { set_solver. }
    exists rq'. split.
    + rewrite length_app in E. simpl in E. replace (Z.of_nat (length a + 1)) with (Z.of_nat (length a) + 1) in E by lia.
      rewrite E. do 2 f_equal. apply bool_decide_ext. set_solver.
    + intros b1 b2. split.
      * intros Hb Hn. destruct b1 as [|y b1]; [injection Hb as -> ->; done|].
        injection Hb as -> ->. rewrite not_elem_of_cons in Hn.
        destruct (Hrq b1 b2) as [Hr _]. specialize (Hr eq_refl (proj2 Hn)).
        by rewrite <- app_assoc in Hr.
      * intros Hn. apply (Hrq [] []). set_solver.
Qed.

Lemma ready_remove_spec rq l id :
  ready_rep rq l →
  ∃ rq', ReadyQueue_remove id rq = Done (bool_decide (id ∈ l), rq') ∧
    ∀ l1 l2, (l = l1 ++ id :: l2 → id ∉ l1 → ready_rep rq' (l1 ++ l2)) ∧ (id ∉ l → rq' = rq).
Proof.
  intros H. pose proof (rr_len _ _ _ _ _ H) as Hl. unfold ReadyQueue_remove. mred.
  rewrite Hl, Nat2Z.id. apply (remove_from_spec rq [] l id); [done|set_solver].
Qed.

(** * Theorems *)

(** Tasks leave the ready queue in the order they entered it: whatever the sequence of
    [push_back] and [pop_front], the ring buffer answers as a first-in first-out queue of at
    most 32 ids and no index or arithmetic check fails. *)
Theorem ready_queue_fifo (ops : list (fifo_op TaskId)) :
  ∃ rq, fifo_run ops ReadyQueue_new = Done ((queue_run MAX_TASKS ops []).1, rq) ∧
    ready_rep rq (queue_run MAX_TASKS ops []).2.
Proof. exact (fifo_run_spec ops ReadyQueue_new [] ready_new_rep). Qed.

(** [ReadyQueue::remove] takes exactly the first occurrence of the id out of the queue, keeps
    the order of the others, and reports whether it was there; it never panics. *)
Theorem ready_remove_correct (rq : ReadyQueue) (before after : list TaskId) (id : TaskId) :
  ready_rep rq (before ++ id :: after) → id ∉ before →
  ∃ rq', ReadyQueue_remove id rq = Done (true, rq') ∧ ready_rep rq' (before ++ after) ∧
    ∀ id', id' ∉ before ++ id :: after → ReadyQueue_remove id' rq = Done (false, rq).
Proof.
  intros H Hn. destruct (ready_remove_spec rq _ id H) as (rq' & E & Hr).
  exists rq'. rewrite bool_decide_true in E by set_solver. split_and!; [done|by apply (Hr before after)|].
  intros id' Hn'. destruct (ready_remove_spec rq _ id' H) as (rq'' & E' & Hr').
  rewrite bool_decide_false in E' by done. by rewrite (proj2 (Hr' [] []) Hn') in E'.
Qed.

(** A queue that has wrapped around: 5, 6, 7 starting at index 31. *)
Definition wrapped_queue : ReadyQueue :=
  mkReadyQueue (6 :: 7 :: replicate 29 0 ++ [5]) 31 3.

Lemma ready_remove_correct_witness :
  ∃ rq', ReadyQueue_remove 6 wrapped_queue = Done (true, rq') ∧ ready_rep rq' [5; 7].
Proof.
  destruct (ready_remove_correct wrapped_queue [5] [7] 6) as (rq' & E & H & _).
  - split; simpl; try done; try (unfold MAX_TASKS; lia). intros i x Hi Hx.
    pose proof (zget_Some_lt _ _ _ Hx) as Hb. simpl in Hb.
    assert (i = 0 ∨ i = 1 ∨ i = 2) as [->|[->| ->]] by lia; injection Hx as <-; reflexivity.
  - rewrite list_elem_of_singleton. lia.
  - exists rq'. split; [exact E|exact H].
Defined.
