(* ===== verification/Scheduler.v ===== *)
(** * The scheduler

    Model of [src/task/scheduler.rs]: every entry point of the scheduler as a transformer of
    the kernel's global state, up to the context switch it performs. *)

From stdpp Require Import gmap.
From S2P Require Import Prelude Memory Bytes Frame Paging PageTree PageMap PageUnmap AddressSpace VirtMem Stack.
From S2P Require Import Ring Tcb Kernel.

(** ** Accessing the task table *)

Definition on_sched {A} (c : M Scheduler A) : M KState A := on_part k_sched set_k_sched c.

Definition set_ready (q : ReadyQueue) (s : Scheduler) : Scheduler :=
  mkScheduler (current s) (tasks s) q (stacks s).
Definition set_tasks (t : list (option Tcb)) (s : Scheduler) : Scheduler :=
  mkScheduler (current s) t (ready s) (stacks s).
Definition set_current (c : option TaskId) (s : Scheduler) : Scheduler :=
  mkScheduler c (tasks s) (ready s) (stacks s).
Definition set_pool (p : KernelStackPool) (s : Scheduler) : Scheduler :=
  mkScheduler (current s) (tasks s) (ready s) p.

Definition on_ready {A} (c : M ReadyQueue A) : M Scheduler A := on_part ready set_ready c.

(** [self.tasks[id.0].as_mut().unwrap()] *)
Definition task_at (id : TaskId) : M Scheduler Tcb :=
  let! self := get in
  let! slot := expect (zget (tasks self) id) "index out of bounds" in
  expect slot "called `Option::unwrap()` on a `None` value".

Definition set_task (id : TaskId) (t : option Tcb) : M Scheduler unit :=
  modify (λ self, set_tasks (zset (tasks self) id t) self).

Definition set_task_state (id : TaskId) (st : ThreadState) : M Scheduler unit :=
  let! t := task_at id in set_task id (Some (set_state st t)).

Definition set_id (id : TaskId) (t : Tcb) : Tcb :=
  mkTcb id (as_id t) (state t) (kernel_stack t) (context t) (mailbox t) (tcb_handles t).

(** ** Switching *)

Record Switch := mkSwitch {
  previous_context : ContextRef;
  next_context : ContextRef;
  next_as_id : AddressSpaceId;
  next_kernel_stack : VirtualAddr;
  activate_address_space : bool;
}.

Definition make_switch (current_id next_id : TaskId) : M Scheduler Switch :=
  do! massert (negb (current_id =? next_id)) "assertion `left != right` failed" ;;;
  let! current := task_at current_id in
  let! next := task_at next_id in
  ret (mkSwitch (TaskContext current_id) (TaskContext next_id) (as_id next)
         (KernelStack_top (kernel_stack next)) (negb (as_id next =? as_id current))).

(** The CPU goes on in [next]; what follows the call runs when [prev] is switched to. *)
Definition switch_context (prev next : ContextRef) : M KState unit := modify (set_k_context next).

Definition Switch_perform (self : Switch) : M KState unit :=
  do! (if activate_address_space self then
         let! _ := with_address_space (next_as_id self)
                     (λ as_ref, on_memory (AddressSpace_activate as_ref)) in ret tt
       else ret tt) ;;;
  do! set_kernel_stack (next_kernel_stack self) ;;;
  switch_context (previous_context self) (next_context self).

(** ** Tasks *)

Definition add_task (task : Tcb) : M KState (result TaskId Tcb) :=
  with_interrupts_masked
    (let! k := get in
     match position_none (tasks (k_sched k)) with
     | Some id =>
         let task := set_id id task in
         let! r := on_local (tcb_handles task)
                     (HandleTable_push
                        (mkHandle (ObjThread id)
                           (Rights_bitor (Rights_bitor RIGHT_READ RIGHT_WRITE) RIGHT_EXECUTE))) in
         match r with
         | (Err _, _) => panic "internal error: entered unreachable code: Cant push root thread handle"
         | (Ok _, handles) =>
             let task := set_state Ready (set_handles handles task) in
             do! on_sched (set_task id (Some task)) ;;;
             let! pushed := on_sched (on_ready (ReadyQueue_push_back id)) in
             do! massert pushed "assertion failed: scheduler.ready.push_back(id)" ;;;
             ret (Ok id)
         end
     | None => ret (Err task)
     end).

(** Up to the switch into the first task; [start] never returns to its caller. *)
Definition start : M KState unit :=
  do! disable_interrupts ;;;
  let! switch := on_sched
    (let! o := on_ready ReadyQueue_pop_front in
     let! next_id := expect o "no tasks to run" in
     let! self := get in
     let! slot := expect (zget (tasks self) next_id) "index out of bounds" in
     let! next := expect slot "ready task is missing" in
     do! set_task next_id (Some (set_state Running next)) ;;;
     do! modify (set_current (Some next_id)) ;;;
     ret (mkSwitch BootstrapContext (TaskContext next_id) (as_id next)
            (KernelStack_top (kernel_stack next)) true)) in
  Switch_perform switch.

(** The stack pool with the memory it allocates from. *)
Definition on_pool {A} (c : M PoolState A) : M KState A :=
  on_part (λ k, mkPoolState (stacks (k_sched k)) (k_mem k))
    (λ p k, set_k_mem (ps_mem p) (set_k_sched (set_pool (ps_pool p) (k_sched k)) k)) c.

Definition allocate_kernel_stack (address_space : AddressSpace) :
    M KState (result KernelStack StackCreateError) :=
  with_interrupts_masked (on_pool (KernelStackPool_allocate address_space)).

(** [scheduler.stacks.free(stack)] with the globals it reaches. *)
Definition stacks_free (stack : KernelStack) : M KState unit :=
  let! off := usub (KernelStack_top stack) KERNEL_STACK_BASE in
  let! slot := usub (off / KERNEL_SLOT_SIZE) 1 in
  do! with_kernel_address_space (λ kernel_as,
        with_allocator (KernelStack_destroy stack kernel_as)) ;;;
  do! massert (slot <? 64) "attempt to shift left with overflow" ;;;
  on_sched (modify (λ self, set_pool
    (mkKernelStackPool (Z.land (free_slots (stacks self)) (not64 (Z.shiftl 1 slot)))) self)).

Definition remove_task (id : TaskId) : M KState bool :=
  with_interrupts_masked
    (let! k := get in
     if bool_decide (current (k_sched k) = Some id) then ret false
     else
       match zget (tasks (k_sched k)) id with
       | Some (Some task) =>
           do! on_sched (set_task id None) ;;;
           let! _ := on_sched (on_ready (ReadyQueue_remove id)) in
           do! stacks_free (kernel_stack task) ;;;
           ret true
       | _ => ret false
       end).

(** The closure sees the task's slot, here by value, and runs with interrupts masked. *)
Definition with_task {A} (id : TaskId) (f : Tcb → M KState A) : M KState (option A) :=
  with_interrupts_masked
    (let! k := get in
     match zget (tasks (k_sched k)) id with
     | Some (Some task) => let! a := f task in ret (Some a)
     | _ => ret None
     end).

(** A method on a task in its slot. *)
Definition on_task {A} (id : TaskId) (c : M Tcb A) : M KState A :=
  let! task := on_sched (task_at id) in
  let! (a, task') := on_local task c in
  do! on_sched (set_task id (Some task')) ;;;
  ret a.

(** The closure is given the slot itself, which it accesses with [on_task]. *)
Definition with_task_mut {A} (id : TaskId) (f : M KState A) : M KState (option A) :=
  with_interrupts_masked
    (let! k := get in
     match zget (tasks (k_sched k)) id with
     | Some (Some _) => let! a := f in ret (Some a)
     | _ => ret None
     end).

Definition current_task : M KState TaskId :=
  let! k := get in expect (current (k_sched k)) "no current task".

(** ** Scheduling *)

(** Each of the following returns the interrupt state it saved, which the task restores when
    it is switched to again; [yield_current] returns [None] when it did not switch. *)

Definition block_current (reason : BlockReason) : M KState bool :=
  let! interrupt_state := disable_interrupts_and_save in
  let! switch := on_sched
    (let! o := on_ready ReadyQueue_pop_front in
     match o with
     | None => halt
     | Some next_id =>
         let! self := get in
         let! current_id := expect (current self) "no current task" in
         do! set_task_state current_id (Blocked reason) ;;;
         do! set_task_state next_id Running ;;;
         do! modify (set_current (Some next_id)) ;;;
         make_switch current_id next_id
     end) in
  do! Switch_perform switch ;;;
  ret interrupt_state.

Definition unblock (id : TaskId) : M KState unit :=
  with_interrupts_masked (on_sched
    (let! self := get in
     let! slot := expect (zget (tasks self) id) "index out of bounds" in
     match slot with
     | Some task =>
         match state task with
         | Blocked _ =>
             do! set_task id (Some (set_state Ready task)) ;;;
             let! pushed := on_ready (ReadyQueue_push_back id) in
             massert pushed "assertion failed: scheduler.ready.push_back(id)"
         | _ => ret tt
         end
     | None => ret tt
     end)).

Definition yield_current : M KState (option bool) :=
  let! interrupt_state := disable_interrupts_and_save in
  let! o := on_sched (on_ready ReadyQueue_pop_front) in
  match o with
  | None =>
      do! restore_interrupts interrupt_state ;;;
      ret None
  | Some next_id =>
      let! switch := on_sched
        (let! self := get in
         let! current_id := expect (current self) "no current task" in
         do! set_task_state current_id Ready ;;;
         let! pushed := on_ready (ReadyQueue_push_back current_id) in
         do! massert pushed "assertion failed: scheduler.ready.push_back(current_id)" ;;;
         do! set_task_state next_id Running ;;;
         do! modify (set_current (Some next_id)) ;;;
         make_switch current_id next_id) in
      do! Switch_perform switch ;;;
      ret (Some interrupt_state)
  end.

(** Up to the switch away from the dead task, which is never switched to again. *)
Definition exit_current (reason : ExitReason) : M KState unit :=
  do! disable_interrupts ;;;
  let! switch := on_sched
    (let! self := get in
     let! current_id := expect (current self) "no current task" in
     let! o := on_ready ReadyQueue_pop_front in
     match o with
     | None => halt
     | Some next_id =>
         do! set_task_state current_id (Dead reason) ;;;
         do! set_task_state next_id Running ;;;
         do! modify (set_current (Some next_id)) ;;;
         make_switch current_id next_id
     end) in
  Switch_perform switch.

(** * The abstract scheduler *)

(** Which task runs, who waits in which order, and what state each task is in. *)
Record AbsSched := mkAbsSched {
  ab_current : option TaskId;
  ab_queue : list TaskId;
  ab_states : gmap TaskId ThreadState;
}.

(** The queue holds exactly the ready tasks, each once, and the current task is the only one
    running. *)
Record abs_wf (a : AbsSched) : Prop := {
  aw_range : ∀ id st, ab_states a !! id = Some st → 0 ≤ id < MAX_TASKS;
  aw_nodup : NoDup (ab_queue a);
  aw_queue : ∀ id, id ∈ ab_queue a ↔ ab_states a !! id = Some Ready;
  aw_running : ∀ id, ab_states a !! id = Some Running ↔ ab_current a = Some id;
}.

(** The current task [c] gives way to [next], which is at the head of the queue. *)
Definition abs_switch (c : TaskId) (st : ThreadState) (next : TaskId) (queue : list TaskId)
    (a : AbsSched) : AbsSched :=
  mkAbsSched (Some next) queue (<[next := Running]> (<[c := st]> (ab_states a))).

Inductive sched_op :=
| OpYield
| OpBlock (reason : BlockReason)
| OpUnblock (id : TaskId)
| OpExit (reason : ExitReason).

Inductive abs_outcome := Stays (a : AbsSched) | Halts.

Definition abs_op (op : sched_op) (a : AbsSched) : abs_outcome :=
  match op with
  | OpUnblock id =>
      match ab_states a !! id with
      | Some (Blocked _) =>
          Stays (mkAbsSched (ab_current a) (ab_queue a ++ [id]) (<[id := Ready]> (ab_states a)))
      | _ => Stays a
      end
  | _ =>
      match ab_current a, ab_queue a, op with
      | Some c, next :: q, OpYield => Stays (abs_switch c Ready next (q ++ [c]) a)
      | Some c, next :: q, OpBlock reason => Stays (abs_switch c (Blocked reason) next q a)
      | Some c, next :: q, OpExit reason => Stays (abs_switch c (Dead reason) next q a)
      | Some _, [], OpYield => Stays a
      | _, _, _ => Halts
      end
  end.

Definition run_op (op : sched_op) : M KState unit :=
  match op with
  | OpYield => let! _ := yield_current in ret tt
  | OpBlock reason => let! _ := block_current reason in ret tt
  | OpUnblock id => unblock id
  | OpExit reason => exit_current reason
  end.

(** ** The refinement relation *)

Definition lookup_task (s : Scheduler) (id : TaskId) : option Tcb :=
  zget (tasks s) id ≫= λ slot, slot.

Record sched_refines (s : Scheduler) (a : AbsSched) : Prop := {
  sr_length : Z.of_nat (length (tasks s)) = MAX_TASKS;
  sr_ready : ready_rep (ready s) (ab_queue a);
  sr_current : current s = ab_current a;
  sr_states : ∀ id, ab_states a !! id = state <$> lookup_task s id;
  sr_ids : ∀ id t, lookup_task s id = Some t → tcb_id t = id;
  sr_wf : abs_wf a;
}.

(** The CPU executes the current task: its context, its address space and its kernel stack. *)
Definition cpu_runs (k : KState) (id : TaskId) : Prop :=
  ∃ t space, lookup_task (k_sched k) id = Some t ∧
    AddressSpaceTable_get (k_spaces k) (as_id t) = Some space ∧
    ms_cr3 (k_mem k) = pt_frame (root space) ∧
    k_tss_stack k = KernelStack_top (kernel_stack t) ∧
    k_cpu_stack k = KernelStack_top (kernel_stack t) ∧
    k_context k = TaskContext id.

Record kernel_ok (k : KState) (a : AbsSched) : Prop := {
  ko_sched : sched_refines (k_sched k) a;
  ko_spaces : ∀ id t, lookup_task (k_sched k) id = Some t →
    is_Some (AddressSpaceTable_get (k_spaces k) (as_id t));
  ko_cpu : ∀ id, ab_current a = Some id → cpu_runs k id;
}.

(** ** Lemmas *)

Lemma on_part_Done {S T A} (part : S → T) upd (c : M T A) s a t :
  c (part s) = Done (a, t) → on_part part upd c s = Done (a, upd t s).
Proof. intros E. unfold on_part. by rewrite E. Qed.

Lemma lookup_task_range s id t : lookup_task s id = Some t → 0 ≤ id < Z.of_nat (length (tasks s)).
Proof.
  unfold lookup_task. destruct (zget (tasks s) id) as [o|] eqn:E; [|done]. intros _. by eapply zget_Some_lt.
Qed.

Lemma lookup_task_slot s id t : lookup_task s id = Some t → zget (tasks s) id = Some (Some t).
Proof. unfold lookup_task. by destruct (zget (tasks s) id) as [[|]|]; simpl; intros [= ->]. Qed.

Definition upd_task (id : TaskId) (t : option Tcb) (s : Scheduler) : Scheduler :=
  set_tasks (zset (tasks s) id t) s.

Lemma lookup_upd_task s id t j :
  0 ≤ id < Z.of_nat (length (tasks s)) →
  lookup_task (upd_task id t s) j = if decide (id = j) then t else lookup_task s j.
Proof. intros H. unfold lookup_task. simpl. rewrite zget_zset by done. by case_decide. Qed.

Lemma task_at_Done s id t : lookup_task s id = Some t → task_at id s = Done (t, s).
Proof. intros H. unfold task_at. mred. by rewrite (lookup_task_slot _ _ _ H). Qed.

Lemma set_task_state_Done s id t st :
  lookup_task s id = Some t →
  set_task_state id st s = Done (tt, upd_task id (Some (set_state st t)) s).
Proof. intros H. unfold set_task_state. by rewrite (bind_Done _ _ _ _ _ (task_at_Done _ _ _ H)). Qed.

Lemma sched_task s a id st :
  sched_refines s a → ab_states a !! id = Some st → ∃ t, lookup_task s id = Some t ∧ state t = st.
Proof.
  intros H Hs. rewrite (sr_states _ _ H) in Hs. destruct (lookup_task s id) as [t|]; [|done].
  injection Hs as <-. eauto.
Qed.

(** The queue has room as long as some task slot is not ready. *)
Lemma queue_room a id :
  abs_wf a → 0 ≤ id < MAX_TASKS → id ∉ ab_queue a → Z.of_nat (length (ab_queue a)) < MAX_TASKS.
Proof.
  intros Hwf Hid Hn.
  assert (Hs : submseteq (id :: ab_queue a) (range 0 MAX_TASKS)).
  { apply NoDup_submseteq; [apply NoDup_cons; split; [done|apply Hwf]|].
    intros x [->|Hx]%elem_of_cons; apply elem_of_range; [done|].
    apply (aw_queue _ Hwf) in Hx. by apply (aw_range _ Hwf) in Hx. }
  apply submseteq_length in Hs. simpl in Hs. unfold MAX_TASKS. lia.
Qed.

Lemma abs_switch_wf a c st x q q' :
  abs_wf a → ab_current a = Some c → ab_queue a = x :: q →
  (st = Ready ∧ q' = q ++ [c]) ∨ (st ≠ Ready ∧ st ≠ Running ∧ q' = q) →
  abs_wf (abs_switch c st x q' a) ∧ c ≠ x ∧
  ab_states a !! c = Some Running ∧ ab_states a !! x = Some Ready.
Proof.
  intros Hwf Hc Hq Hst.
  assert (Hc' : ab_states a !! c = Some Running) by by apply (aw_running _ Hwf).
  assert (Hx : ab_states a !! x = Some Ready) by (apply (aw_queue _ Hwf); rewrite Hq; left).
  assert (Hne : c ≠ x) by (intros ->; congruence).
  pose proof (aw_nodup _ Hwf) as Hnd. rewrite Hq in Hnd. apply NoDup_cons in Hnd as [Hxq Hnd].
  assert (Hcq : c ∉ q).
  { intros Hin. assert (c ∈ ab_queue a) as H%(aw_queue _ Hwf) by (rewrite Hq; by right). congruence. }
  assert (Hmem : ∀ id, id ∈ q ↔ ab_states a !! id = Some Ready ∧ id ≠ x).
  { intros id. rewrite <- (aw_queue _ Hwf), Hq, elem_of_cons. split; [|tauto]. intros Hid. split; [by right|].
    by intros ->. }
  split_and!; try done. split; simpl.
  - intros id s' Hs. destruct (decide (id = x)) as [->|]; [by apply (aw_range _ Hwf) in Hx|].
    rewrite lookup_insert_ne in Hs by done.
    destruct (decide (id = c)) as [->|]; [by apply (aw_range _ Hwf) in Hc'|].
    rewrite lookup_insert_ne in Hs by done. by apply (aw_range _ Hwf) in Hs.
  - destruct Hst as [[_ ->]|(_ & _ & ->)]; [|done]. apply NoDup_app. split_and!; [done|set_solver|].
    apply NoDup_singleton.
  - intros id. destruct (decide (id = x)) as [->|Hx'].
    { rewrite lookup_insert_eq. destruct Hst as [[_ ->]|(_ & _ & ->)]; set_solver. }
    rewrite lookup_insert_ne by done. destruct (decide (id = c)) as [->|Hc''].
    { rewrite lookup_insert_eq. destruct Hst as [[-> ->]|(? & _ & ->)]; [set_solver|].
      split; [done|]. by intros [= ->]. }
    rewrite lookup_insert_ne by done.
    destruct Hst as [[_ ->]|(_ & _ & ->)]; rewrite ?elem_of_app, ?list_elem_of_singleton, Hmem; tauto.
  - intros id. destruct (decide (id = x)) as [->|Hx']; [by rewrite lookup_insert_eq|].
    rewrite lookup_insert_ne by done. destruct (decide (id = c)) as [->|Hc''].
    { rewrite lookup_insert_eq. split; [|congruence]. destruct Hst as [[-> _]|(_ & ? & _)]; congruence. }
    rewrite lookup_insert_ne by done. rewrite (aw_running _ Hwf). split; congruence.
Qed.

(** The scheduler after a switch from [c] to [x]. *)
Definition switched (c x : TaskId) (tc tx : Tcb) (st : ThreadState) (s : Scheduler) : Scheduler :=
  set_current (Some x) (upd_task x (Some (set_state Running tx)) (upd_task c (Some (set_state st tc)) s)).

Lemma lookup_switched s c x tc tx st j :
  lookup_task s c = Some tc → lookup_task s x = Some tx →
  lookup_task (switched c x tc tx st s) j =
  if decide (x = j) then Some (set_state Running tx)
  else if decide (c = j) then Some (set_state st tc) else lookup_task s j.
Proof.
  intros Hc%lookup_task_range Hx%lookup_task_range. unfold switched.
  change (lookup_task (set_current _ ?s) j) with (lookup_task s j).
  rewrite lookup_upd_task by (simpl; rewrite length_zset; lia). case_decide; [done|].
  by rewrite lookup_upd_task by lia.
Qed.

Lemma switched_refines s s1 a c x q q' tc tx st :
  sched_refines s a → tasks s1 = tasks s → ready_rep (ready s1) q' →
  lookup_task s c = Some tc → lookup_task s x = Some tx →
  ab_current a = Some c → ab_queue a = x :: q →
  (st = Ready ∧ q' = q ++ [c]) ∨ (st ≠ Ready ∧ st ≠ Running ∧ q' = q) →
  sched_refines (switched c x tc tx st s1) (abs_switch c st x q' a).
Proof.
  intros H Ht Hr Hc Hx Hcur Hq Hst.
  assert (Hc1 : lookup_task s1 c = Some tc) by (unfold lookup_task in *; by rewrite Ht).
  assert (Hx1 : lookup_task s1 x = Some tx) by (unfold lookup_task in *; by rewrite Ht).
  destruct (abs_switch_wf a c st x q q' (sr_wf _ _ H) Hcur Hq Hst) as (Hwf & Hne & _ & _).
  split; [|done|done| | |done].
  - simpl. rewrite !length_zset, Ht. apply H.
  - intros j. rewrite lookup_switched by done. simpl. case_decide as Ex; [subst; by rewrite lookup_insert_eq|].
    rewrite lookup_insert_ne by done. case_decide as Ec; [subst; by rewrite lookup_insert_eq|].
    rewrite lookup_insert_ne by done. rewrite (sr_states _ _ H). unfold lookup_task. by rewrite Ht.
  - intros j t. rewrite lookup_switched by done. case_decide as Ex; [|case_decide as Ec].
    + subst. intros [= <-]. simpl. by apply (sr_ids _ _ H).
    + subst. intros [= <-]. simpl. by apply (sr_ids _ _ H).
    + intros Hj. apply (sr_ids _ _ H). unfold lookup_task in *. by rewrite <- Ht.
Qed.

(** What every switch ends with. *)
Lemma switch_tail s c x tc tx st :
  lookup_task s c = Some tc → lookup_task s x = Some tx → c ≠ x →
  (do! set_task_state x Running ;;; do! modify (set_current (Some x)) ;;; make_switch c x)
    (upd_task c (Some (set_state st tc)) s) =
  Done (mkSwitch (TaskContext c) (TaskContext x) (as_id tx) (KernelStack_top (kernel_stack tx))
          (negb (as_id tx =? as_id tc)), switched c x tc tx st s).
Proof.
  intros Hc Hx Hne. pose proof (lookup_task_range _ _ _ Hc) as Hcr.
  assert (Hx1 : lookup_task (upd_task c (Some (set_state st tc)) s) x = Some tx)
    by (rewrite lookup_upd_task by done; by rewrite decide_False).
  rewrite (bind_Done _ _ _ _ _ (set_task_state_Done _ _ _ _ Hx1)). mred. unfold make_switch, massert.
  rewrite (proj2 (Z.eqb_neq c x)) by done. simpl. mred.
  pose proof (lookup_switched s c x tc tx st c Hc Hx) as Hc2.
  pose proof (lookup_switched s c x tc tx st x Hc Hx) as Hx2.
  rewrite decide_False, decide_True in Hc2 by congruence. rewrite decide_True in Hx2 by done.
  rewrite (bind_Done _ _ _ _ _ (task_at_Done _ _ _ Hc2)). by rewrite (bind_Done _ _ _ _ _ (task_at_Done _ _ _ Hx2)).
Qed.

(** ** Performing a switch *)

(** Only the CPU's registers differ. *)
Definition on_cpu (k : KState) (cr3 : Z) (top : VirtualAddr) (c : ContextRef) : KState :=
  set_k_context c (set_k_stacks top
    (set_k_mem (mkMState (ms_mem (k_mem k)) (ms_fa (k_mem k)) cr3 (ms_flushed (k_mem k))) k)).

Lemma masked_flag {A} (body : M KState A) k a k' :
  body (set_k_interrupts false k) = Done (a, k') →
  with_interrupts_masked body k = Done (a, set_k_interrupts (k_interrupts k) k').
Proof.
  intros E. unfold with_interrupts_masked, disable_interrupts_and_save. rewrite bind_assoc. mred.
  rewrite bind_assoc. mred. rewrite (bind_Done _ _ _ _ _ E). by mred.
Qed.

Lemma perform_spec sw k space :
  AddressSpaceTable_get (k_spaces k) (next_as_id sw) = Some space →
  (activate_address_space sw = false → ms_cr3 (k_mem k) = pt_frame (root space)) →
  Switch_perform sw k = Done (tt, on_cpu k (pt_frame (root space)) (next_kernel_stack sw) (next_context sw)).
Proof.
  intros Hs Hact. unfold Switch_perform. destruct (activate_address_space sw).
  - rewrite (bind_Done _ _ _ tt (set_k_mem (mkMState (ms_mem (k_mem k)) (ms_fa (k_mem k))
      (pt_frame (root space)) (ms_flushed (k_mem k))) k)); [done|].
    erewrite bind_Done; [done|]. unfold with_address_space. erewrite masked_flag.
    2: { mred. simpl. rewrite Hs. mred. erewrite bind_Done; [done|].
         unfold on_memory. by erewrite on_part_Done. }
    by destruct k.
  - mred. unfold set_kernel_stack, switch_context, on_cpu. mred. unfold modify. do 2 f_equal.
    specialize (Hact eq_refl). rewrite <- Hact. by destruct k as [[] ? ? ? ? ? ? ? ?].
Qed.

(** Performing the switch keeps the kernel in order. *)
Lemma switch_kernel_ok k a c x q q' tc tx st s1 :
  kernel_ok k a → ab_current a = Some c → ab_queue a = x :: q →
  lookup_task (k_sched k) c = Some tc → lookup_task (k_sched k) x = Some tx →
  tasks s1 = tasks (k_sched k) → ready_rep (ready s1) q' →
  (st = Ready ∧ q' = q ++ [c]) ∨ (st ≠ Ready ∧ st ≠ Running ∧ q' = q) →
  ∃ k', Switch_perform (mkSwitch (TaskContext c) (TaskContext x) (as_id tx)
            (KernelStack_top (kernel_stack tx)) (negb (as_id tx =? as_id tc)))
          (set_k_sched (switched c x tc tx st s1) (set_k_interrupts false k)) = Done (tt, k') ∧
    kernel_ok k' (abs_switch c st x q' a).
Proof.
  intros [Hs Hsp Hcpu] Hc Hq Htc Htx Ht Hr Hst.
  pose proof (switched_refines _ s1 a c x q q' tc tx st Hs Ht Hr Htc Htx Hc Hq Hst) as Hs'.
  assert (Hl : ∀ j, lookup_task s1 j = lookup_task (k_sched k) j) by (intros j; unfold lookup_task; by rewrite Ht).
  destruct (Hcpu c Hc) as (tc' & spc & Htc' & Hspc & Hcr3 & _). rewrite Htc in Htc'. injection Htc' as <-.
  destruct (Hsp x tx Htx) as [spx Hspx].
  eexists. split.
  { apply (perform_spec _ _ spx); [done|]. simpl. intros Has%negb_false_iff%Z.eqb_eq.
    rewrite Has, Hspc in Hspx. injection Hspx as <-. exact Hcr3. }
  split.
  - exact Hs'.
  - simpl. intros j t. rewrite lookup_switched by (by rewrite Hl). case_decide; [|case_decide].
    + intros [= <-]. simpl. eauto.
    + intros [= <-]. simpl. eauto.
    + rewrite Hl. apply Hsp.
  - intros id [= <-]. exists (set_state Running tx), spx. simpl.
    rewrite lookup_switched by (by rewrite Hl). by rewrite decide_True.
Qed.

Lemma current_task_of k a c :
  kernel_ok k a → ab_current a = Some c → ∃ tc, lookup_task (k_sched k) c = Some tc.
Proof. intros H Hc. destruct (ko_cpu _ _ H c Hc) as (t & _ & Ht & _). eauto. Qed.

Lemma head_task_of k a x q :
  kernel_ok k a → ab_queue a = x :: q → ∃ tx, lookup_task (k_sched k) x = Some tx.
Proof.
  intros H Hq. pose proof (ko_sched _ _ H) as Hs.
  destruct (sched_task _ _ x Ready Hs) as (t & Ht & _); [|eauto].
  apply (aw_queue _ (sr_wf _ _ Hs)). rewrite Hq. left.
Qed.

Lemma on_ready_Done {A} (c : M ReadyQueue A) s a q :
  c (ready s) = Done (a, q) → on_ready c s = Done (a, set_ready q s).
Proof. apply on_part_Done. Qed.

Lemma on_sched_Done {A} (c : M Scheduler A) k a s :
  c (k_sched k) = Done (a, s) → on_sched c k = Done (a, set_k_sched s k).
Proof. apply on_part_Done. Qed.

Lemma on_sched_Halt {A} (c : M Scheduler A) k : c (k_sched k) = Halt → on_sched c k = Halt.
Proof. intros E. unfold on_sched, on_part. by rewrite E. Qed.

(** The bodies of the three switching operations. *)
Lemma block_body k a c x q st :
  kernel_ok k a → ab_current a = Some c → ab_queue a = x :: q → st ≠ Ready → st ≠ Running →
  ∃ rq tc tx, lookup_task (k_sched k) c = Some tc ∧ lookup_task (k_sched k) x = Some tx ∧
    ready_rep rq q ∧ ReadyQueue_pop_front (ready (k_sched k)) = Done (Some x, rq) ∧
    (do! set_task_state c st ;;; do! set_task_state x Running ;;;
     do! modify (set_current (Some x)) ;;; make_switch c x) (set_ready rq (k_sched k)) =
    Done (mkSwitch (TaskContext c) (TaskContext x) (as_id tx) (KernelStack_top (kernel_stack tx))
            (negb (as_id tx =? as_id tc)), switched c x tc tx st (set_ready rq (k_sched k))).
Proof.
  intros H Hc Hq Hn1 Hn2. destruct (current_task_of k a c H Hc) as [tc Htc].
  destruct (head_task_of k a x q H Hq) as [tx Htx]. pose proof (ko_sched _ _ H) as Hs.
  pose proof (sr_ready _ _ Hs) as Hr. rewrite Hq in Hr.
  destruct (ready_pop_cons _ _ _ Hr) as (rq & E & Hr').
  destruct (abs_switch_wf a c st x q q (sr_wf _ _ Hs) Hc Hq ltac:(tauto)) as (_ & Hne & _ & _).
  exists rq, tc, tx. split_and!; try done.
  rewrite (bind_Done _ _ _ _ _ (set_task_state_Done (set_ready rq (k_sched k)) _ _ st Htc)).
  by apply switch_tail.
Qed.

Lemma block_current_spec k a c reason :
  kernel_ok k a → ab_current a = Some c →
  match ab_queue a with
  | [] => block_current reason k = Halt
  | x :: q => ∃ k', block_current reason k = Done (k_interrupts k, k') ∧
      kernel_ok k' (abs_switch c (Blocked reason) x q a)
  end.
Proof.
  intros H Hc. unfold block_current, disable_interrupts_and_save. rewrite bind_assoc.
  pose proof (sr_current _ _ (ko_sched _ _ H)) as Hcs.
  destruct (ab_queue a) as [|x q] eqn:Hq.
  - mred. rewrite bind_assoc. mred. unfold bind at 1. rewrite on_sched_Halt; [done|].
    pose proof (sr_ready _ _ (ko_sched _ _ H)) as Hr. rewrite Hq in Hr.
    by rewrite (bind_Done _ _ _ _ _ (on_ready_Done _ _ _ _ (ready_pop_nil _ Hr))).
  - destruct (block_body k a c x q (Blocked reason) H Hc Hq) as (rq & tc & tx & Htc & Htx & Hr & E & Eb);
      [done|done|].
    destruct (switch_kernel_ok k a c x q q tc tx (Blocked reason) (set_ready rq (k_sched k)) H Hc Hq Htc Htx)
      as (k' & Ek & Hk); [done|done|by right|].
    exists k'. split; [|done]. mred. rewrite bind_assoc. mred.
    erewrite (bind_Done (on_sched _)).
    2: { apply on_sched_Done. simpl. rewrite (bind_Done _ _ _ _ _ (on_ready_Done _ _ _ _ E)).
         mred. simpl. rewrite Hcs, Hc. simpl. mred. exact Eb. }
    by rewrite (bind_Done _ _ _ _ _ Ek).
Qed.

Lemma exit_current_spec k a c reason :
  kernel_ok k a → ab_current a = Some c →
  match ab_queue a with
  | [] => exit_current reason k = Halt
  | x :: q => ∃ k', exit_current reason k = Done (tt, k') ∧
      kernel_ok k' (abs_switch c (Dead reason) x q a)
  end.
Proof.
  intros H Hc. unfold exit_current, disable_interrupts. mred.
  pose proof (sr_current _ _ (ko_sched _ _ H)) as Hcs.
  destruct (ab_queue a) as [|x q] eqn:Hq.
  - unfold bind at 1. rewrite on_sched_Halt; [done|]. simpl. mred. rewrite Hcs, Hc. simpl. mred.
    pose proof (sr_ready _ _ (ko_sched _ _ H)) as Hr. rewrite Hq in Hr.
    by rewrite (bind_Done _ _ _ _ _ (on_ready_Done _ _ _ _ (ready_pop_nil _ Hr))).
  - destruct (block_body k a c x q (Dead reason) H Hc Hq) as (rq & tc & tx & Htc & Htx & Hr & E & Eb);
      [done|done|].
    destruct (switch_kernel_ok k a c x q q tc tx (Dead reason) (set_ready rq (k_sched k)) H Hc Hq Htc Htx)
      as (k' & Ek & Hk); [done|done|by right|].
    exists k'. split; [|done].
    erewrite (bind_Done (on_sched _)).
    2: { apply on_sched_Done. simpl. mred. rewrite Hcs, Hc. simpl. mred.
         rewrite (bind_Done _ _ _ _ _ (on_ready_Done _ _ _ _ E)). exact Eb. }
    exact Ek.
Qed.

Lemma yield_current_spec k a c :
  kernel_ok k a → ab_current a = Some c →
  match ab_queue a with
  | [] => yield_current k = Done (None, k)
  | x :: q => ∃ k', yield_current k = Done (Some (k_interrupts k), k') ∧
      kernel_ok k' (abs_switch c Ready x (q ++ [c]) a)
  end.
Proof.
  intros H Hc. unfold yield_current, disable_interrupts_and_save. rewrite bind_assoc. mred.
  rewrite bind_assoc. mred. pose proof (ko_sched _ _ H) as Hs. pose proof (sr_current _ _ Hs) as Hcs.
  pose proof (sr_ready _ _ Hs) as Hr. destruct (ab_queue a) as [|x q] eqn:Hq.
  - rewrite (bind_Done (on_sched (on_ready ReadyQueue_pop_front)) _ _ None
      (set_k_sched (k_sched k) (set_k_interrupts false k))).
    + mred. unfold restore_interrupts. mred. by destruct k.
    + apply on_sched_Done. simpl. erewrite on_ready_Done by (by apply ready_pop_nil).
      by destruct (k_sched k).
  - destruct (current_task_of k a c H Hc) as [tc Htc]. destruct (head_task_of k a x q H Hq) as [tx Htx].
    destruct (ready_pop_cons _ _ _ Hr) as (rq & E & Hr').
    destruct (abs_switch_wf a c Ready x q (q ++ [c]) (sr_wf _ _ Hs) Hc Hq ltac:(by left))
      as (_ & Hne & Hsc & _).
    assert (Hlen : Z.of_nat (length q) < MAX_TASKS).
    { pose proof (rr_cap _ _ _ _ _ Hr) as Hcap. rewrite (rr_len _ _ _ _ _ Hr) in Hcap. simpl in Hcap. lia. }
    destruct (ready_push_ok rq q c Hr' Hlen) as (rq2 & E2 & Hr2).
    destruct (switch_kernel_ok k a c x q (q ++ [c]) tc tx Ready (set_ready rq2 (k_sched k)) H Hc Hq Htc Htx)
      as (k' & Ek & Hk); [done|done|by left|].
    exists k'. split; [|done]. erewrite (bind_Done (on_sched (on_ready _)));
      [|apply on_sched_Done; apply on_ready_Done; exact E].
    cbn beta iota. erewrite (bind_Done (on_sched _)).
    2: { apply on_sched_Done. simpl. mred. simpl. rewrite Hcs, Hc. simpl. mred.
         rewrite (bind_Done _ _ _ _ _ (set_task_state_Done (set_ready rq (k_sched k)) _ _ Ready Htc)).
         erewrite bind_Done by (apply on_ready_Done; exact E2). simpl. mred.
         exact (switch_tail (set_ready rq2 (k_sched k)) c x tc tx Ready Htc Htx Hne). }
    change (set_k_sched ?s (set_k_sched _ ?k)) with (set_k_sched s k).
    by rewrite (bind_Done _ _ _ _ _ Ek).
Qed.

(** Changing one task and the queue. *)
Lemma refines_upd s a id t rq a' :
  sched_refines s a → 0 ≤ id < MAX_TASKS → (∀ t', t = Some t' → tcb_id t' = id) →
  ready_rep rq (ab_queue a') → ab_current a' = ab_current a →
  (∀ j, ab_states a' !! j = if decide (id = j) then state <$> t else ab_states a !! j) →
  abs_wf a' →
  sched_refines (set_ready rq (upd_task id t s)) a'.
Proof.
  intros H Hid Ht Hr Hc Hst Hwf. pose proof (sr_length _ _ H) as Hlen. split; try done.
  - simpl. by rewrite length_zset.
  - simpl. rewrite Hc. apply H.
  - intros j. change (lookup_task (set_ready rq ?s) j) with (lookup_task s j).
    rewrite lookup_upd_task by lia. rewrite Hst. case_decide; [done|]. apply H.
  - intros j t' Hj. change (lookup_task (set_ready rq ?s) j) with (lookup_task s j) in Hj.
    rewrite lookup_upd_task in Hj by lia. case_decide; [subst; by apply Ht|]. by apply (sr_ids _ _ H).
Qed.

(** A task that becomes ready goes to the end of the queue. *)
Lemma abs_ready_wf a id :
  abs_wf a → 0 ≤ id < MAX_TASKS → ab_states a !! id ≠ Some Ready → ab_states a !! id ≠ Some Running →
  abs_wf (mkAbsSched (ab_current a) (ab_queue a ++ [id]) (<[id := Ready]> (ab_states a))).
Proof.
  intros Hwf Hid H1 H2. assert (Hn : id ∉ ab_queue a) by (by rewrite (aw_queue _ Hwf)).
  split; simpl.
  - intros j st. destruct (decide (id = j)) as [->|]; [done|]. rewrite lookup_insert_ne by done.
    apply (aw_range _ Hwf).
  - apply NoDup_app. split_and!; [apply Hwf|set_solver|apply NoDup_singleton].
  - intros j. rewrite elem_of_app, list_elem_of_singleton, (aw_queue _ Hwf).
    destruct (decide (id = j)) as [->|]; [rewrite lookup_insert_eq; tauto|].
    rewrite lookup_insert_ne by done. split; [|tauto]. intros [?| ->]; [done|congruence].
  - intros j. rewrite <- (aw_running _ Hwf). destruct (decide (id = j)) as [->|].
    + rewrite lookup_insert_eq. split; congruence.
    + by rewrite lookup_insert_ne by done.
Qed.

(** What other tasks and the CPU see of a change of one task that does not run. *)
Lemma kernel_ok_upd k a id t rq a' :
  kernel_ok k a → sched_refines (set_ready rq (upd_task id t (k_sched k))) a' →
  0 ≤ id < MAX_TASKS → ab_current a' = ab_current a → ab_current a ≠ Some id →
  (∀ t', t = Some t' → is_Some (AddressSpaceTable_get (k_spaces k) (as_id t'))) →
  kernel_ok (set_k_sched (set_ready rq (upd_task id t (k_sched k))) k) a'.
Proof.
  intros [Hs Hsp Hcpu] Hs' Hid Hc Hne Ht. pose proof (sr_length _ _ Hs) as Hlen.
  assert (Hl : ∀ j, lookup_task (set_ready rq (upd_task id t (k_sched k))) j =
    if decide (id = j) then t else lookup_task (k_sched k) j) by (intros j; apply lookup_upd_task; lia).
  split; [done| |].
  - simpl. intros j t' Hj. rewrite Hl in Hj. case_decide; [by apply Ht|]. by eapply Hsp.
  - intros c Hcc. rewrite Hc in Hcc. destruct (Hcpu c Hcc) as (tc & sp & Htc & R).
    exists tc, sp. simpl. rewrite Hl, decide_False by congruence. done.
Qed.

Lemma set_k_sched_flag s k b : set_k_interrupts b (set_k_sched s k) = set_k_sched s (set_k_interrupts b k).
Proof. done. Qed.

Lemma set_k_interrupts_id k : set_k_interrupts (k_interrupts k) k = k.
Proof. by destruct k. Qed.

(** Waking a blocked task. *)
Lemma unblock_blocked k a id t r :
  kernel_ok k a → lookup_task (k_sched k) id = Some t → state t = Blocked r →
  ∃ rq, unblock id k =
      Done (tt, set_k_sched (set_ready rq (upd_task id (Some (set_state Ready t)) (k_sched k))) k) ∧
    kernel_ok (set_k_sched (set_ready rq (upd_task id (Some (set_state Ready t)) (k_sched k))) k)
      (mkAbsSched (ab_current a) (ab_queue a ++ [id]) (<[id := Ready]> (ab_states a))).
Proof.
  intros H Hlook Er. pose proof (ko_sched _ _ H) as Hs. pose proof (sr_wf _ _ Hs) as Hwf.
  assert (Hst : ab_states a !! id = Some (Blocked r)) by (by rewrite (sr_states _ _ Hs), Hlook, <- Er).
  assert (Hid : 0 ≤ id < MAX_TASKS) by (by apply (aw_range _ Hwf) in Hst).
  assert (Hnq : id ∉ ab_queue a) by (rewrite (aw_queue _ Hwf), Hst; congruence).
  destruct (ready_push_ok _ _ id (sr_ready _ _ Hs) (queue_room _ _ Hwf Hid Hnq)) as (rq & E & Hr).
  exists rq. split.
  - unfold unblock. erewrite masked_flag.
    2: { apply on_sched_Done. simpl. mred. rewrite (lookup_task_slot _ _ _ Hlook). simpl. mred.
         rewrite Er. mred. unfold set_task. mred. erewrite bind_Done by (apply on_ready_Done; exact E). done. }
    rewrite set_k_sched_flag. change (set_k_interrupts (k_interrupts k) (set_k_interrupts false k))
      with (set_k_interrupts (k_interrupts k) k). by rewrite set_k_interrupts_id.
  - apply (kernel_ok_upd k a id (Some (set_state Ready t)) rq); try done.
    + apply (refines_upd _ a); try done.
      * intros t' [= <-]. simpl. by apply (sr_ids _ _ Hs).
      * intros j. simpl. case_decide; [subst; by rewrite lookup_insert_eq|by rewrite lookup_insert_ne].
      * apply abs_ready_wf; rewrite ?Hst; congruence || done.
    + intros Hc%(aw_running _ Hwf). congruence.
    + intros t' [= <-]. simpl. by eapply (ko_spaces _ _ H).
Qed.

Lemma unblock_spec k a id :
  kernel_ok k a → 0 ≤ id < MAX_TASKS →
  ∃ k', unblock id k = Done (tt, k') ∧ k_interrupts k' = k_interrupts k ∧
    kernel_ok k' match ab_states a !! id with
                 | Some (Blocked _) => mkAbsSched (ab_current a) (ab_queue a ++ [id])
                                         (<[id := Ready]> (ab_states a))
                 | _ => a
                 end.
Proof.
  intros H Hid. pose proof (ko_sched _ _ H) as Hs. pose proof (sr_wf _ _ Hs) as Hwf.
  pose proof (sr_length _ _ Hs) as Hlen.
  destruct (zget_is_Some (tasks (k_sched k)) id ltac:(lia)) as [slot Hslot].
  assert (Hlook : lookup_task (k_sched k) id = slot) by (unfold lookup_task; by rewrite Hslot).
  assert (Hst : ab_states a !! id = state <$> slot) by (by rewrite (sr_states _ _ Hs), Hlook).
  assert (Hsame : ∀ body : M Scheduler unit, body (k_sched k) = Done (tt, k_sched k) →
    with_interrupts_masked (on_sched body) k = Done (tt, k)).
  { intros body E. erewrite masked_flag by (apply on_sched_Done; exact E).
    by destruct k. }
  assert (Hcase : (∃ t r, slot = Some t ∧ state t = Blocked r) ∨
                  ¬ ∃ t r, slot = Some t ∧ state t = Blocked r).
  { destruct slot as [t|]; [|right; by intros (t & r & Ht & _)].
    destruct (state t) as [| |r|] eqn:Es; [| |left; eauto|];
      right; intros (t' & r' & [= <-] & Ht); congruence. }
  destruct Hcase as [(t & r & -> & Er)|Hno].
  - destruct (unblock_blocked k a id t r H Hlook Er) as (rq & E & Hk). eexists. split; [exact E|].
    split; [done|]. rewrite Hst. simpl. by rewrite Er.
  - exists k. split_and!; [|done|].
    + unfold unblock. apply Hsame. mred. rewrite Hslot. simpl. mred. destruct slot as [t|]; [|done].
      destruct (state t) eqn:Es; try done. destruct Hno. eauto.
    + rewrite Hst. destruct slot as [t|]; simpl; [|done]. destruct (state t) eqn:Es; try done.
      destruct Hno. eauto.
Qed.

(** ** Adding tasks and starting *)

Definition abs_add (id : TaskId) (a : AbsSched) : AbsSched :=
  mkAbsSched (ab_current a) (ab_queue a ++ [id]) (<[id := Ready]> (ab_states a)).

Definition thread_handle (id : TaskId) : Handle :=
  mkHandle (ObjThread id) (Rights_bitor (Rights_bitor RIGHT_READ RIGHT_WRITE) RIGHT_EXECUTE).

Lemma handle_push_room t h :
  position_none (handles t) ≠ None →
  ∃ i t', HandleTable_push h t = Done (Ok i, t') ∧ HandleTable_get t' i = Some h ∧
    ∀ j, j ≠ i → HandleTable_get t' j = HandleTable_get t j.
Proof.
  intros Hr. unfold HandleTable_push. mred. destruct (position_none (handles t)) as [i|] eqn:E; [|done].
  apply position_none_Some in E as (Hi & _ & _). eexists _, _. split; [done|].
  unfold HandleTable_get. simpl. split; [by rewrite zget_zset_eq|]. intros j Hj. by rewrite zget_zset_ne.
Qed.

Lemma add_task_spec k a t :
  kernel_ok k a → position_none (handles (tcb_handles t)) ≠ None →
  is_Some (AddressSpaceTable_get (k_spaces k) (as_id t)) →
  (∃ id t' k', add_task t k = Done (Ok id, k') ∧
     (∃ rq, k' = set_k_sched (set_ready rq (upd_task id (Some t') (k_sched k))) k) ∧
     0 ≤ id < MAX_TASKS ∧ ab_states a !! id = None ∧ kernel_ok k' (abs_add id a) ∧
     lookup_task (k_sched k') id = Some t' ∧ as_id t' = as_id t ∧ kernel_stack t' = kernel_stack t ∧
     context t' = context t ∧ mailbox t' = mailbox t ∧
     ∃ h, HandleTable_get (tcb_handles t') h = Some (thread_handle id) ∧
       ∀ j, j ≠ h → HandleTable_get (tcb_handles t') j = HandleTable_get (tcb_handles t) j) ∨
  (add_task t k = Done (Err t, k) ∧ ∀ id, 0 ≤ id < MAX_TASKS → is_Some (ab_states a !! id)).
Proof.
  intros H Hroom Hsp. pose proof (ko_sched _ _ H) as Hs. pose proof (sr_wf _ _ Hs) as Hwf.
  pose proof (sr_length _ _ Hs) as Hlen. unfold add_task.
  destruct (position_none (tasks (k_sched k))) as [id|] eqn:E.
  - left. apply position_none_Some in E as Hid. destruct Hid as (Hid & Hnone & _). rewrite Hlen in Hid.
    assert (Hst : ab_states a !! id = None)
      by (rewrite (sr_states _ _ Hs); unfold lookup_task; by rewrite Hnone).
    assert (Hnq : id ∉ ab_queue a) by (rewrite (aw_queue _ Hwf), Hst; done).
    destruct (ready_push_ok _ _ id (sr_ready _ _ Hs) (queue_room _ _ Hwf Hid Hnq)) as (rq & Eq & Hr).
    destruct (handle_push_room (tcb_handles t) (thread_handle id) Hroom) as (h & hs & Eh & Hget & Hrest).
    set (t' := set_state Ready (set_handles hs (set_id id t))).
    exists id, t', (set_k_sched (set_ready rq (upd_task id (Some t') (k_sched k))) k).
    assert (Hlook : lookup_task (set_ready rq (upd_task id (Some t') (k_sched k))) id = Some t').
    { change (lookup_task (set_ready rq ?s) id) with (lookup_task s id).
      rewrite lookup_upd_task by lia. by rewrite decide_True. }
    split_and!; try done; [|by exists rq|lia|lia| |by exists h].
    + erewrite masked_flag.
      2: { mred. simpl. rewrite E. erewrite (bind_Done (on_local _ _)).
           2: { unfold on_local. simpl. fold (thread_handle id). by rewrite Eh. }
           cbn beta iota. erewrite (bind_Done (on_sched _)) by (by apply on_sched_Done).
           erewrite (bind_Done (on_sched _)) by (apply on_sched_Done, on_ready_Done; exact Eq).
           simpl. by mred. }
      by destruct k.
    + apply (kernel_ok_upd k a id (Some t') rq); try done.
      * apply (refines_upd _ a); try done.
        -- by intros t0 [= <-].
        -- intros j. simpl. case_decide; [subst; by rewrite lookup_insert_eq|by rewrite lookup_insert_ne].
        -- apply abs_ready_wf; rewrite ?Hst; done.
      * intros Hc%(aw_running _ Hwf). congruence.
      * by intros t0 [= <-].
  - right. split.
    + erewrite masked_flag by (mred; simpl; rewrite E; done). by destruct k.
    + intros id Hid. rewrite (sr_states _ _ Hs). unfold lookup_task. rewrite zget_lookup by lia.
      destruct (lookup_lt_is_Some_2 (tasks (k_sched k)) (Z.to_nat id)) as [o Ho]; [lia|]. rewrite Ho. simpl.
      destruct (position_none_None _ E _ _ Ho) as [t0 ->]. simpl. eauto.
Qed.

Definition abs_start (x : TaskId) (q : list TaskId) (a : AbsSched) : AbsSched :=
  mkAbsSched (Some x) q (<[x := Running]> (ab_states a)).

Lemma abs_start_wf a x q :
  abs_wf a → ab_current a = None → ab_queue a = x :: q → abs_wf (abs_start x q a).
Proof.
  intros Hwf Hc Hq. pose proof (aw_nodup _ Hwf) as Hnd. rewrite Hq in Hnd.
  apply NoDup_cons in Hnd as [Hxq Hnd].
  assert (Hx : ab_states a !! x = Some Ready) by (apply (aw_queue _ Hwf); rewrite Hq; left).
  split; simpl.
  - intros id st. destruct (decide (x = id)) as [<-|].
    + intros _. by apply (aw_range _ Hwf) in Hx.
    + rewrite lookup_insert_ne by done. apply (aw_range _ Hwf).
  - done.
  - intros id. destruct (decide (x = id)) as [<-|Hne]; [rewrite lookup_insert_eq; split; done|].
    rewrite lookup_insert_ne by done. rewrite <- (aw_queue _ Hwf), Hq. set_solver.
  - intros id. destruct (decide (x = id)) as [<-|Hne]; [by rewrite lookup_insert_eq|].
    rewrite lookup_insert_ne by done. rewrite (aw_running _ Hwf), Hc. split; congruence.
Qed.

Lemma start_spec k a x q :
  kernel_ok k a → ab_current a = None → ab_queue a = x :: q →
  ∃ k', start k = Done (tt, k') ∧ kernel_ok k' (abs_start x q a).
Proof.
  intros H Hc Hq. pose proof (ko_sched _ _ H) as Hs. pose proof (sr_ready _ _ Hs) as Hr. rewrite Hq in Hr.
  pose proof (sr_length _ _ Hs) as Hlen.
  destruct (ready_pop_cons _ _ _ Hr) as (rq & E & Hr').
  destruct (head_task_of k a x q H Hq) as [tx Htx]. destruct (ko_spaces _ _ H x tx Htx) as [sp Hsp].
  pose proof (lookup_task_range _ _ _ Htx) as Hx.
  set (s' := set_current (Some x) (upd_task x (Some (set_state Running tx)) (set_ready rq (k_sched k)))).
  assert (Hl : ∀ j, lookup_task s' j =
    if decide (x = j) then Some (set_state Running tx) else lookup_task (k_sched k) j).
  { intros j. unfold s'. change (lookup_task (set_current _ ?s) j) with (lookup_task s j).
    by rewrite lookup_upd_task. }
  exists (on_cpu (set_k_sched s' (set_k_interrupts false k)) (pt_frame (root sp))
            (KernelStack_top (kernel_stack tx)) (TaskContext x)). split.
  { unfold start, disable_interrupts. mred. erewrite (bind_Done (on_sched _)).
    2: { apply on_sched_Done. simpl. rewrite (bind_Done _ _ _ _ _ (on_ready_Done _ _ _ _ E)). simpl. mred.
         simpl. rewrite (lookup_task_slot _ _ _ Htx). simpl. mred. unfold set_task. by mred. }
    exact (perform_spec (mkSwitch BootstrapContext (TaskContext x) (as_id tx)
      (KernelStack_top (kernel_stack tx)) true) (set_k_sched s' (set_k_interrupts false k)) sp Hsp
      ltac:(done)). }
  split.
  - split; simpl.
    + by rewrite length_zset.
    + done.
    + done.
    + intros j. rewrite Hl. case_decide as Ej; [subst; by rewrite lookup_insert_eq|].
      rewrite lookup_insert_ne by done. apply Hs.
    + intros j t. rewrite Hl. case_decide; [|by apply (sr_ids _ _ Hs)]. subst. intros [= <-]. simpl.
      by apply (sr_ids _ _ Hs).
    + by apply abs_start_wf; [apply Hs| |].
  - simpl. intros j t. rewrite Hl. case_decide; [|apply H]. intros [= <-]. simpl. eauto.
  - intros id [= <-]. exists (set_state Running tx), sp. simpl. rewrite Hl. by rewrite decide_True.
Qed.

(** ** Running operations *)

Definition op_allowed (op : sched_op) (k : KState) : Prop :=
  match op with
  | OpUnblock id => 0 ≤ id < MAX_TASKS
  | _ => is_Some (current (k_sched k))
  end.

Lemma run_op_spec op k a :
  kernel_ok k a → op_allowed op k →
  match abs_op op a with
  | Stays a' => ∃ k', run_op op k = Done (tt, k') ∧ kernel_ok k' a'
  | Halts => run_op op k = Halt
  end.
Proof.
  intros H Hop. pose proof (sr_current _ _ (ko_sched _ _ H)) as Hcs.
  destruct op as [|r|id|r]; simpl in *.
  1,2,4: rewrite Hcs in Hop; destruct Hop as [c Hc]; rewrite Hc.
  - pose proof (yield_current_spec k a c H Hc) as Hy. destruct (ab_queue a) as [|x q].
    + exists k. by rewrite (bind_Done _ _ _ _ _ Hy).
    + destruct Hy as (k' & E & Hk). exists k'. by rewrite (bind_Done _ _ _ _ _ E).
  - pose proof (block_current_spec k a c r H Hc) as Hy. destruct (ab_queue a) as [|x q].
    + unfold bind. by rewrite Hy.
    + destruct Hy as (k' & E & Hk). exists k'. by rewrite (bind_Done _ _ _ _ _ E).
  - pose proof (exit_current_spec k a c r H Hc) as Hy. by destruct (ab_queue a) as [|x q].
  - destruct (unblock_spec k a id H Hop) as (k' & E & _ & Hk).
    destruct (ab_states a !! id) as [[]|]; by exists k'.
Qed.

(** The steps of the kernel as far as the scheduler is concerned. *)
Inductive kernel_step : KState → KState → Prop :=
| step_op op k k' :
    op_allowed op k → run_op op k = Done (tt, k') → kernel_step k k'
| step_add t r k k' :
    position_none (handles (tcb_handles t)) ≠ None →
    is_Some (AddressSpaceTable_get (k_spaces k) (as_id t)) →
    add_task t k = Done (r, k') → kernel_step k k'
| step_start k k' :
    current (k_sched k) = None → start k = Done (tt, k') → kernel_step k k'.

Lemma kernel_step_ok k k' a : kernel_step k k' → kernel_ok k a → ∃ a', kernel_ok k' a'.
Proof.
  intros Hstep H. destruct Hstep as [op k k' Hop E|t r k k' Hroom Hsp E|k k' Hc E].
  - pose proof (run_op_spec op k a H Hop) as Hr. rewrite E in Hr.
    destruct (abs_op op a) as [a'|]; [|done]. destruct Hr as (k1 & [= <-] & Hk). by exists a'.
  - destruct (add_task_spec k a t H Hroom Hsp) as [(id & t' & k1 & E1 & _ & _ & _ & Hk & _)|[E1 _]];
      rewrite E in E1; injection E1 as -> ->; eauto.
  - rewrite (sr_current _ _ (ko_sched _ _ H)) in Hc. destruct (ab_queue a) as [|x q] eqn:Hq.
    + exfalso. unfold start, disable_interrupts in E. pose proof (sr_ready _ _ (ko_sched _ _ H)) as Hr.
      rewrite Hq in Hr. rewrite bind_modify in E. unfold bind at 1, on_sched, on_part in E. simpl in E.
      by rewrite (bind_Done _ _ _ _ _ (on_ready_Done _ _ _ _ (ready_pop_nil _ Hr))) in E.
    + destruct (start_spec k a x q H Hc Hq) as (k1 & E1 & Hk). rewrite E in E1. injection E1 as <-. eauto.
Qed.

Lemma kernel_ok_new k : k_sched k = Scheduler_new → kernel_ok k (mkAbsSched None [] ∅).
Proof.
  intros Hk.
  assert (Hl : ∀ id, lookup_task Scheduler_new id = None).
  { intros id. unfold lookup_task. destruct (zget _ id) as [o|] eqn:E; [|done]. simpl.
    pose proof (zget_Some_lt _ _ _ E). rewrite zget_lookup in E by lia.
    apply lookup_replicate in E as [-> _]. done. }
  split; simpl; [|rewrite Hk; intros id t; by rewrite Hl|done]. rewrite Hk. split; simpl; try done.
  - apply ready_new_rep.
  - intros id. by rewrite Hl.
  - intros id t. by rewrite Hl.
  - split; simpl; try done.
    + apply NoDup_nil_2.
    + intros id. rewrite lookup_empty. set_solver.
Qed.

Fixpoint yields (n : nat) : M KState unit :=
  match n with
  | O => ret tt
  | S n => let! _ := yield_current in yields n
  end.

Lemma yields_spec i k a c x :
  kernel_ok k a → ab_current a = Some c → ab_queue a !! i = Some x →
  ∃ k' a', yields (S i) k = Done (tt, k') ∧ kernel_ok k' a' ∧ ab_current a' = Some x.
Proof.
  revert k a c. induction i as [|i IH]; intros k a c H Hc Hx;
    pose proof (yield_current_spec k a c H Hc) as Hy; destruct (ab_queue a) as [|y q] eqn:Hq; try done;
    destruct Hy as (k1 & E1 & H1).
  - injection Hx as ->. exists k1. eexists. simpl. rewrite (bind_Done _ _ _ _ _ E1). done.
  - destruct (IH k1 _ y H1 eq_refl) as (k2 & a2 & E2 & H2 & Hc2).
    { simpl. simpl in Hx. by apply lookup_app_l_Some. }
    exists k2, a2. split_and!; try done.
    change (yields (S (S i))) with (let! _ := yield_current in yields (S i)).
    by rewrite (bind_Done _ _ _ _ _ E1).
Qed.
