(* ===== verification/Registers.v ===== *)
(** * Memory management leaves CR3 alone

    A small calculus of computations that keep CR3, and its application to unmapping, freeing
    frames and destroying stacks, which the scheduler runs while a task's address space is
    active. *)

From S2P Require Import Prelude Memory Frame Paging PageTree PageMap PageUnmap AddressSpace Stack.

(** Started with [v] in CR3, the computation ends with [v] in CR3. *)
Definition keeps_cr3 (v : Z) {A} (c : M MState A) : Prop :=
  ∀ s a s', ms_cr3 s = v → c s = Done (a, s') → ms_cr3 s' = v.

Section keeps.
Context (v : Z).

Lemma keeps_ret {A} (a : A) : keeps_cr3 v (ret a).
Proof. by intros s a' s' Hs [= _ <-]. Qed.

Lemma keeps_panic {A} w : keeps_cr3 v (panic w : M MState A).
Proof. by intros s a' s' Hs ?. Qed.

Lemma keeps_bind {A B} (c : M MState A) (k : A → M MState B) :
  keeps_cr3 v c → (∀ a, keeps_cr3 v (k a)) → keeps_cr3 v (bind c k).
Proof.
  intros Hc Hk s b s' Hs. unfold bind. destruct (c s) as [[a s1]| |] eqn:E; try done.
  apply Hk. by eapply Hc.
Qed.

Lemma keeps_get {B} (k : MState → M MState B) :
  (∀ s, ms_cr3 s = v → keeps_cr3 v (k s)) → keeps_cr3 v (bind get k).
Proof. intros Hk s b s' Hs. apply Hk; done. Qed.

Lemma keeps_gets {A} (f : MState → A) : keeps_cr3 v (gets f).
Proof. by intros s a s' Hs [= _ <-]. Qed.

Lemma keeps_put s : ms_cr3 s = v → keeps_cr3 v (put s).
Proof. by intros Hv s0 a s' _ [= _ <-]. Qed.

Lemma keeps_modify f : (∀ s, ms_cr3 (f s) = ms_cr3 s) → keeps_cr3 v (modify f).
Proof. intros Hf s a s' Hs [= _ <-]. by rewrite Hf. Qed.

Lemma keeps_bind_ok {A B E} (c : M MState (result A E)) (k : A → M MState (result B E)) :
  keeps_cr3 v c → (∀ a, keeps_cr3 v (k a)) → keeps_cr3 v (bind_ok c k).
Proof. intros Hc Hk. apply keeps_bind; [done|]. intros [a|e]; [apply Hk|apply keeps_ret]. Qed.

Lemma keeps_expect {A} (o : option A) w : keeps_cr3 v (expect o w).
Proof. destruct o; [apply keeps_ret|apply keeps_panic]. Qed.

Lemma keeps_massert b w : keeps_cr3 v (massert b w).
Proof. destruct b; [apply keeps_ret|apply keeps_panic]. Qed.

Lemma keeps_mfor {A} (l : list A) (f : A → M MState unit) :
  (∀ x, keeps_cr3 v (f x)) → keeps_cr3 v (mfor l f).
Proof. intros Hf. induction l as [|x l IH]; simpl; [apply keeps_ret|]. by apply keeps_bind. Qed.

End keeps.

Create HintDb keeps.
#[export] Hint Resolve keeps_ret keeps_panic keeps_gets keeps_expect keeps_massert : keeps.

(** Follow the structure of a computation. *)
Ltac keeps_step :=
  lazymatch goal with
  | |- keeps_cr3 _ (bind get _) => apply keeps_get; intros ? ?
  | |- keeps_cr3 _ (bind _ _) => apply keeps_bind; [|intros ?]
  | |- keeps_cr3 _ (bind_ok _ _) => apply keeps_bind_ok; [|intros ?]
  | |- keeps_cr3 _ (mfor _ _) => apply keeps_mfor; intros ?
  | |- keeps_cr3 _ (put _) => apply keeps_put; simpl; congruence
  | |- keeps_cr3 _ (modify _) => apply keeps_modify; intros ?; reflexivity
  | |- keeps_cr3 _ (match ?x with _ => _ end) => destruct x
  | |- _ => solve [auto with keeps nocore]
  end.
Ltac keeps := repeat keeps_step.

Lemma keeps_uadd v a b : keeps_cr3 v (uadd a b).
Proof. unfold uadd. keeps. Qed.
Lemma keeps_umul v a b : keeps_cr3 v (umul a b).
Proof. unfold umul. keeps. Qed.
#[export] Hint Resolve keeps_uadd keeps_umul : keeps.

Lemma keeps_Bitmap_state v b m i : keeps_cr3 v (Bitmap_state b m i).
Proof. unfold Bitmap_state. keeps. Qed.
Lemma keeps_Bitmap_set_state v b m i st : keeps_cr3 v (Bitmap_set_state b m i st).
Proof. unfold Bitmap_set_state. keeps. Qed.
#[export] Hint Resolve keeps_Bitmap_state keeps_Bitmap_set_state : keeps.

Lemma keeps_dealloc v f : keeps_cr3 v (FrameAllocator_dealloc f).
Proof. unfold FrameAllocator_dealloc. keeps. Qed.
#[export] Hint Resolve keeps_dealloc : keeps.

Lemma keeps_write_entry v self f i e w : keeps_cr3 v (write_entry self f i e w).
Proof. unfold write_entry. keeps. Qed.
#[export] Hint Resolve keeps_write_entry : keeps.

Lemma keeps_unmap_prune v self address tf depth empty fs :
  keeps_cr3 v (unmap_prune self address tf depth empty fs).
Proof. revert empty fs. induction depth as [|d IH]; intros empty fs; simpl; keeps; apply IH. Qed.
#[export] Hint Resolve keeps_unmap_prune : keeps.

Lemma keeps_flush v self page : keeps_cr3 v (flush_tlb_if_active self page).
Proof. unfold flush_tlb_if_active, is_active, read_cr3. keeps. Qed.
#[export] Hint Resolve keeps_flush : keeps.

Lemma keeps_unmap v self a : keeps_cr3 v (PageTable_unmap self a).
Proof. unfold PageTable_unmap. keeps. Qed.
#[export] Hint Resolve keeps_unmap : keeps.

Lemma keeps_space_unmap v self a : keeps_cr3 v (AddressSpace_unmap self a).
Proof. unfold AddressSpace_unmap. keeps. Qed.
#[export] Hint Resolve keeps_space_unmap : keeps.

Lemma keeps_stack_destroy v stack self : keeps_cr3 v (KernelStack_destroy stack self).
Proof. unfold KernelStack_destroy, StackMapping_destroy, stack_unmap_page. keeps. Qed.
