(* ===== verification/Tasks.v ===== *)
(** * Tasks and the scheduler: theorems

    Removing a task together with its kernel stack, and the theorems about
    [src/task/scheduler.rs]. *)

From stdpp Require Import gmap.
From S2P Require Import Prelude Memory Bytes Frame Paging PageTree PageMap PageUnmap AddressSpace VirtMem Stack.
From S2P Require Import Ring Tcb Kernel Scheduler Registers.

(** ** Kernel stacks of tasks *)

Definition pool_of (k : KState) : PoolState := mkPoolState (stacks (k_sched k)) (k_mem k).

(** Every task owns a stack of the pool, no two tasks the same one. *)
Record kernel_stacks (k : KState) (space : AddressSpace) (l : list FrameState)
    (live : list (Z * list nat)) (lost : list Z) : Prop := {
  kst_space : k_kernel_space k = Some space;
  kst_kind : kind space = Kernel;
  kst_set : k_allocator_set k = true;
  kst_pool : pool_inv space (pool_of k) l live lost;
  kst_tasks : ∀ id t, lookup_task (k_sched k) id = Some t →
    ∃ slot, slot ∈ live.*1 ∧ kernel_stack t = slot_stack slot;
  kst_inj : ∀ i j ti tj, lookup_task (k_sched k) i = Some ti → lookup_task (k_sched k) j = Some tj →
    kernel_stack ti = kernel_stack tj → i = j;
}.

Lemma slot_stack_inj i j : slot_stack i = slot_stack j → i = j.
Proof.
  unfold slot_stack, slot_bottom, KERNEL_SLOT_SIZE, KERNEL_STACK_PAGES, GUARD_PAGES, FRAME_SIZE.
  intros [=]. lia.
Qed.

(** [free] run on the pool and on the globals does the same. *)
Lemma stacks_free_pool k space stack p' :
  k_kernel_space k = Some space → k_allocator_set k = true →
  KernelStackPool_free space stack (pool_of k) = Done (tt, p') →
  stacks_free stack k =
    Done (tt, set_k_mem (ps_mem p') (set_k_sched (set_pool (ps_pool p') (k_sched k)) k)) ∧
  ms_cr3 (ps_mem p') = ms_cr3 (k_mem k).
Proof.
  intros Hsp Hal E. unfold KernelStackPool_free in E.
  apply bind_Done_inv in E as (off & p1 & E1 & E). apply bind_Done_inv in E as (slot & p2 & E2 & E).
  apply bind_Done_inv in E as ([] & p3 & E3 & E). apply bind_Done_inv in E as ([] & p4 & E4 & E5).
  assert (Hu : ∀ x y z (p q : PoolState), usub x y p = Done (z, q) → q = p ∧ usub x y k = Done (z, k)).
  { intros x y z p q. unfold usub, expect. destruct (checked_sub x y); [|done].
    intros [= -> ->]. done. }
  apply Hu in E1 as [-> E1]. apply Hu in E2 as [-> E2].
  unfold on_mem in E3. simpl in E3. destruct (KernelStack_destroy stack space (k_mem k)) as [[[] s]| |] eqn:Ed;
    [|done|done]. injection E3 as <-.
  unfold massert in E4. destruct (Z.ltb_spec slot 64) as [Hlt|]; [|done]. injection E4 as <-.
  injection E5 as <-. simpl.
  split; [|by apply (keeps_stack_destroy (ms_cr3 (k_mem k)) stack space) in Ed].
  unfold stacks_free. rewrite (bind_Done _ _ _ _ _ E1), (bind_Done _ _ _ _ _ E2).
  erewrite (bind_Done (with_kernel_address_space _)).
  2: { unfold with_kernel_address_space. apply masked_flag. mred. simpl. rewrite Hsp. simpl. mred.
       unfold with_allocator. apply masked_flag. mred. simpl. rewrite Hal. simpl. mred.
       unfold on_memory. by apply on_part_Done. }
  unfold massert. rewrite (proj2 (Z.ltb_lt slot 64)) by done. mred.
  erewrite on_sched_Done by done. done.
Qed.

(** ** Removing a task *)

Definition abs_remove (id : TaskId) (a : AbsSched) : AbsSched :=
  mkAbsSched (ab_current a) (filter (λ j, j ≠ id) (ab_queue a)) (delete id (ab_states a)).

Lemma abs_remove_wf id a : abs_wf a → ab_current a ≠ Some id → abs_wf (abs_remove id a).
Proof.
  intros Hwf Hc. split; simpl.
  - intros j st [_ Hj]%lookup_delete_Some. by apply (aw_range _ Hwf) in Hj.
  - apply NoDup_filter, Hwf.
  - intros j. rewrite list_elem_of_filter, (aw_queue _ Hwf), lookup_delete_Some. naive_solver.
  - intros j. rewrite lookup_delete_Some, (aw_running _ Hwf). split; [by intros [_ ?]|].
    intros Hj. split; [|done]. congruence.
Qed.

Lemma filter_all (P : Z → Prop) `{!∀ x, Decision (P x)} (l : list Z) :
  (∀ x, x ∈ l → P x) → filter P l = l.
Proof.
  induction l as [|x l IH]; intros Hl; [done|].
  rewrite filter_cons_True by (apply Hl; left). f_equal. apply IH. intros y Hy. apply Hl. by right.
Qed.

Lemma filter_remove (id : Z) (l1 l2 : list Z) :
  NoDup (l1 ++ id :: l2) → filter (λ j, j ≠ id) (l1 ++ id :: l2) = l1 ++ l2.
Proof.
  intros (H1 & Hd & [Hn H2]%NoDup_cons)%NoDup_app.
  rewrite filter_app, filter_cons_False by (by intros []).
  rewrite !filter_all; [done|..]; intros j Hj ->; [done|]. apply (Hd id Hj). left.
Qed.

(** The queue after the removal. *)
Lemma ready_removed rq q id :
  ready_rep rq q → NoDup q →
  ∃ b rq', ReadyQueue_remove id rq = Done (b, rq') ∧ ready_rep rq' (filter (λ j, j ≠ id) q).
Proof.
  intros Hr Hnd. destruct (ready_remove_spec rq q id Hr) as (rq' & E & H).
  eexists _, rq'. split; [exact E|]. destruct (decide (id ∈ q)) as [Hin|Hn].
  - apply list_elem_of_split in Hin as (q1 & q2 & ->). rewrite filter_remove by done.
    apply (H q1 q2); [done|]. apply NoDup_app in Hnd as (_ & Hd & _). intros Hin. apply (Hd id Hin). left.
  - rewrite filter_all; [by rewrite (proj2 (H [] []) Hn)|]. by intros j Hj ->.
Qed.

Lemma remove_task_refused k a id :
  kernel_ok k a → ab_current a = Some id ∨ ab_states a !! id = None →
  remove_task id k = Done (false, k).
Proof.
  intros H Hno. unfold remove_task. pose proof (ko_sched _ _ H) as Hs.
  rewrite (masked_flag _ _ false (set_k_interrupts false k)); [by destruct k|]. mred. simpl.
  rewrite (sr_current _ _ Hs). case_bool_decide as Hc; [done|]. destruct Hno as [?|Hno]; [done|].
  rewrite (sr_states _ _ Hs) in Hno. unfold lookup_task in Hno.
  by destruct (zget (tasks (k_sched k)) id) as [[t|]|].
Qed.

(** The task table after the task left it. *)
Lemma remove_refines s a id rq :
  sched_refines s a → 0 ≤ id < MAX_TASKS → ab_current a ≠ Some id →
  ready_rep rq (filter (λ j, j ≠ id) (ab_queue a)) →
  sched_refines (set_ready rq (upd_task id None s)) (abs_remove id a).
Proof.
  intros Hs Hid Hc Hr. apply (refines_upd s a); try done.
  - intros j. simpl. case_decide; [subst; by rewrite lookup_delete_eq|by rewrite lookup_delete_ne].
  - apply abs_remove_wf; [apply Hs|done].
Qed.

Lemma remove_task_run k a space l live lost id t :
  kernel_ok k a → kernel_stacks k space l live lost →
  ab_current a ≠ Some id → lookup_task (k_sched k) id = Some t →
  ∃ slot ks live' l' rq p', Permutation live ((slot, ks) :: live') ∧ kernel_stack t = slot_stack slot ∧
    ready_rep rq (filter (λ j, j ≠ id) (ab_queue a)) ∧
    pool_inv space p' l' live' lost ∧ ms_cr3 (ps_mem p') = ms_cr3 (k_mem k) ∧
    remove_task id k = Done (true,
      set_k_mem (ps_mem p') (set_k_sched
        (set_pool (ps_pool p') (set_ready rq (upd_task id None (k_sched k)))) k)).
Proof.
  intros H Hst Hc Ht. pose proof (ko_sched _ _ H) as Hs.
  destruct (kst_tasks _ _ _ _ _ Hst id t Ht) as (slot & Hslot & Ek).
  apply list_elem_of_fmap in Hslot as ([slot' ks] & -> & Hin). simpl in Ek.
  apply list_elem_of_split in Hin as (l1 & l2 & Hlive).
  assert (Hp : Permutation live ((slot', ks) :: l1 ++ l2)) by (rewrite Hlive; symmetry; apply Permutation_middle).
  destruct (ready_removed _ _ id (sr_ready _ _ Hs) (aw_nodup _ (sr_wf _ _ Hs))) as (b & rq & Er & Hr).
  set (k1 := set_k_sched (set_ready rq (upd_task id None (k_sched k))) (set_k_interrupts false k)).
  destruct (pool_free_spec space (pool_of k1) l (l1 ++ l2) lost slot' ks (kst_kind _ _ _ _ _ Hst))
    as (p' & l' & Ef & Hp').
  { eapply pool_inv_perm; [exact Hp|]. exact (kst_pool _ _ _ _ _ Hst). }
  destruct (stacks_free_pool k1 space (slot_stack slot') p' (kst_space _ _ _ _ _ Hst)
    (kst_set _ _ _ _ _ Hst) Ef) as [Esf Hcr3].
  exists slot', ks, (l1 ++ l2), l', rq, p'. split_and!; try done.
  unfold remove_task. erewrite masked_flag.
  2: { mred. simpl. rewrite (sr_current _ _ Hs), bool_decide_false by done.
       rewrite (lookup_task_slot _ _ _ Ht).
       erewrite (bind_Done (on_sched _)) by (by apply on_sched_Done).
       erewrite (bind_Done (on_sched _)) by (apply on_sched_Done, on_ready_Done; exact Er).
       rewrite Ek. change (set_k_sched ?s (set_k_sched _ ?k)) with (set_k_sched s k). fold k1.
       rewrite (bind_Done _ _ _ _ _ Esf). done. }
  by destruct k.
Qed.

Lemma remove_task_spec k a space l live lost id st :
  kernel_ok k a → kernel_stacks k space l live lost →
  ab_current a ≠ Some id → ab_states a !! id = Some st →
  ∃ k' slot ks live' l', remove_task id k = Done (true, k') ∧ Permutation live ((slot, ks) :: live') ∧
    k_interrupts k' = k_interrupts k ∧ kernel_ok k' (abs_remove id a) ∧
    kernel_stacks k' space l' live' lost.
Proof.
  intros H Hst Hc Hs0. pose proof (ko_sched _ _ H) as Hs. pose proof (sr_length _ _ Hs) as Hlen.
  destruct (sched_task _ _ id st Hs Hs0) as (t & Ht & _).
  pose proof (lookup_task_range _ _ _ Ht) as Hid.
  destruct (remove_task_run k a space l live lost id t H Hst Hc Ht)
    as (slot & ks & live' & l' & rq & p' & Hp & Ek & Hr & Hpool & Hcr3 & E).
  assert (Hl : ∀ j, lookup_task (set_pool (ps_pool p') (set_ready rq (upd_task id None (k_sched k)))) j =
    if decide (id = j) then None else lookup_task (k_sched k) j) by (intros j; by apply lookup_upd_task).
  pose proof (remove_refines (k_sched k) a id rq Hs ltac:(lia) Hc Hr) as [R1 R2 R3 R4 R5 R6].
  eexists _, slot, ks, live', l'. split_and!; [exact E|done|done| |].
  - split; simpl.
    + by split.
    + intros j tj. rewrite Hl. case_decide; [done|]. apply H.
    + intros c Hcc. destruct (ko_cpu _ _ H c Hcc) as (tc & sp & Htc & Hsp & Hcr & Rest).
      exists tc, sp. simpl. rewrite Hl, decide_False by congruence. by rewrite Hcr3.
  - split; simpl; try apply Hst.
    + by destruct p'.
    + intros j tj. rewrite Hl. case_decide as Hj; [done|]. intros Htj.
      destruct (kst_tasks _ _ _ _ _ Hst j tj Htj) as (slot' & Hin & Ek'). exists slot'. split; [|done].
      rewrite Hp in Hin. simpl in Hin. apply elem_of_cons in Hin as [->|Hin]; [|done].
      destruct Hj. eapply (kst_inj _ _ _ _ _ Hst); [done|done|congruence].
    + intros i j ti tj. rewrite !Hl. do 2 (case_decide; [done|]). apply (kst_inj _ _ _ _ _ Hst).
Qed.

(** * Theorems *)

(** C4: Every scheduling operation refines its abstract counterpart: [yield_current] moves the
    running task to the end of the queue and runs its head, [block_current] and [exit_current]
    run the head without queueing the current task (and halt the machine when there is none),
    [unblock] queues exactly a blocked task.  None of the assertions, unwraps and index checks
    on the way fails, and after each operation the CPU runs the current task's context in its
    address space with its kernel stack. *)
Theorem scheduler_refines (op : sched_op) (k : KState) (a : AbsSched) :
  kernel_ok k a → op_allowed op k →
  match abs_op op a with
  | Stays a' => ∃ k', run_op op k = Done (tt, k') ∧ kernel_ok k' a'
  | Halts => run_op op k = Halt
  end.
Proof. apply run_op_spec. Qed.

(** C10: From an empty scheduler no sequence of task creations, the start and scheduling operations
    reaches a panic: in every reachable state each allowed operation returns or halts the
    machine, the ready queue holds exactly the ready tasks without duplicates, and the current
    task is running, is the only one that runs, and has the CPU with its address space and
    kernel stack. *)
Theorem scheduler_safe (k0 k : KState) :
  k_sched k0 = Scheduler_new → rtc kernel_step k0 k →
  (∃ q, ready_rep (ready (k_sched k)) q ∧ NoDup q ∧
     ∀ id, id ∈ q ↔ state <$> lookup_task (k_sched k) id = Some Ready) ∧
  (∀ id, current (k_sched k) = Some id ↔ state <$> lookup_task (k_sched k) id = Some Running) ∧
  (∀ id, current (k_sched k) = Some id → cpu_runs k id) ∧
  (∀ op, op_allowed op k → run_op op k = Halt ∨ ∃ k', run_op op k = Done (tt, k')).
Proof.
  intros Hnew Hrun.
  assert (∃ a, kernel_ok k a) as [a H].
  { eapply (rtc_ind_r (λ k, ∃ a, kernel_ok k a)); [|intros y z _ Hyz [a H]|exact Hrun].
    - eexists. by apply kernel_ok_new.
    - by eapply kernel_step_ok. }
  pose proof (ko_sched _ _ H) as Hs. pose proof (sr_wf _ _ Hs) as Hwf. split_and!.
  - exists (ab_queue a). split_and!; [apply Hs|apply Hwf|]. intros id.
    by rewrite (aw_queue _ Hwf), (sr_states _ _ Hs).
  - intros id. by rewrite (sr_current _ _ Hs), <- (aw_running _ Hwf), (sr_states _ _ Hs).
  - intros id Hid. apply H. by rewrite <- (sr_current _ _ Hs).
  - intros op Hop. pose proof (run_op_spec op k a H Hop) as Hr.
    destruct (abs_op op a); [|by left]. right. destruct Hr as (k' & E & _). eauto.
Qed.

(** C21: Scheduling is round robin: the task at position [i] of the ready queue runs after exactly
    [i + 1] yields. *)
Theorem yield_fair (k : KState) (a : AbsSched) (c x : TaskId) (i : nat) :
  kernel_ok k a → current (k_sched k) = Some c → ab_queue a !! i = Some x →
  ∃ k', yields (S i) k = Done (tt, k') ∧ current (k_sched k') = Some x ∧ cpu_runs k' x.
Proof.
  intros H Hc Hx. rewrite (sr_current _ _ (ko_sched _ _ H)) in Hc.
  destruct (yields_spec i k a c x H Hc Hx) as (k' & a' & E & H' & Hc'). exists k'.
  split_and!; [done| |by apply H']. by rewrite (sr_current _ _ (ko_sched _ _ H')).
Qed.

(** [add_task] gives the task an unused id below 32, a handle on itself and the last place of
    the ready queue, leaving every other task alone, or, exactly when all ids are in use, gives
    the task back without any change; it never panics. *)
Theorem add_task_correct (k : KState) (a : AbsSched) (t : Tcb) :
  kernel_ok k a → position_none (handles (tcb_handles t)) ≠ None →
  is_Some (AddressSpaceTable_get (k_spaces k) (as_id t)) →
  (∃ id t' k', add_task t k = Done (Ok id, k') ∧
     (∃ rq, k' = set_k_sched (set_ready rq (upd_task id (Some t') (k_sched k))) k) ∧
     0 ≤ id < MAX_TASKS ∧ ab_states a !! id = None ∧ kernel_ok k' (abs_add id a) ∧
     lookup_task (k_sched k') id = Some t' ∧ as_id t' = as_id t ∧ kernel_stack t' = kernel_stack t ∧
     context t' = context t ∧ mailbox t' = mailbox t ∧
     ∃ h, HandleTable_get (tcb_handles t') h = Some (thread_handle id) ∧
       ∀ j, j ≠ h → HandleTable_get (tcb_handles t') j = HandleTable_get (tcb_handles t) j) ∨
  (add_task t k = Done (Err t, k) ∧ ∀ id, 0 ≤ id < MAX_TASKS → is_Some (ab_states a !! id)).
Proof. apply add_task_spec. Qed.

(** [remove_task] refuses the current task and ids that name no task, changing nothing;
    otherwise it takes the task out of the table and the ready queue and destroys its kernel
    stack, freeing its slot, without panicking; the stacks of the other tasks stay intact and
    the CPU keeps running the current task. *)
Theorem remove_task_correct (k : KState) (a : AbsSched) (space : AddressSpace) (l : list FrameState)
    (live : list (Z * list nat)) (lost : list Z) (id : TaskId) :
  kernel_ok k a → kernel_stacks k space l live lost →
  if decide (ab_current a = Some id ∨ ab_states a !! id = None)
  then remove_task id k = Done (false, k)
  else ∃ k' slot ks live' l', remove_task id k = Done (true, k') ∧
    Permutation live ((slot, ks) :: live') ∧ k_interrupts k' = k_interrupts k ∧
    kernel_ok k' (abs_remove id a) ∧ kernel_stacks k' space l' live' lost.
Proof.
  intros H Hst. case_decide as Hd; [by eapply remove_task_refused|].
  apply Decidable.not_or in Hd as [Hc Hs]. destruct (ab_states a !! id) as [st|] eqn:E; [|done].
  by eapply remove_task_spec.
Qed.

(** ** Concrete runs *)

(** A machine with one user address space and one free kernel stack. *)
Definition demo_kernel : KState :=
  mkKState roomy_state true
    (mkAddressSpaceTable (Some (demo_space User) :: replicate 31 None))
    (Some (demo_space Kernel)) Scheduler_new true 0 0 BootstrapContext [].

Definition demo_task (slot : Z) : Tcb :=
  mkTcb 0 0 Ready (slot_stack slot) (mkThreadContext 0) Mailbox_new HandleTable_new.

Lemma demo_kernel_ok : kernel_ok demo_kernel (mkAbsSched None [] ∅).
Proof. by apply kernel_ok_new. Qed.

(** Two tasks are added and the first is started. *)
Definition demo_abs_running : AbsSched := abs_start 0 [1] (abs_add 1 (abs_add 0 (mkAbsSched None [] ∅))).

Lemma demo_add k a id t' k' r :
  add_task (demo_task id) k = Done (r, k') → kernel_ok k a →
  k_spaces k = k_spaces demo_kernel → returned (add_task (demo_task id) k) = Some (Ok t') →
  kernel_ok k' (abs_add t' a).
Proof.
  intros E H Hsp Hr. destruct (add_task_spec k a (demo_task id) H) as
    [(i & t & k1 & E1 & _ & _ & _ & Hk & _)|[E1 _]].
  - discriminate.
  - rewrite Hsp. eexists. reflexivity.
  - rewrite E in E1. injection E1 as -> ->. rewrite E in Hr. injection Hr as ->. exact Hk.
  - rewrite E1 in Hr. discriminate.
Qed.

Definition state_of {A} (o : outcome (A * KState)) : KState :=
  match o with Done (_, k) => k | _ => demo_kernel end.
Definition demo_kernel_1 : KState := state_of (add_task (demo_task 0) demo_kernel).
Definition demo_kernel_2 : KState := state_of (add_task (demo_task 1) demo_kernel_1).
Definition demo_running : KState := state_of (start demo_kernel_2).

Lemma state_of_Done {A} (o : outcome (A * KState)) r :
  returned o = Some r → o = Done (r, state_of o).
Proof. destruct o as [[a k]| |]; simpl; [|discriminate|discriminate]. by intros [= ->]. Qed.

Lemma demo_added_1 : add_task (demo_task 0) demo_kernel = Done (Ok 0, demo_kernel_1).
Proof. refine (state_of_Done (add_task _ _) (Ok 0) _). vm_compute. reflexivity. Qed.
Lemma demo_added_2 : add_task (demo_task 1) demo_kernel_1 = Done (Ok 1, demo_kernel_2).
Proof. refine (state_of_Done (add_task _ _) (Ok 1) _). vm_compute. reflexivity. Qed.
Lemma demo_started : start demo_kernel_2 = Done (tt, demo_running).
Proof. refine (state_of_Done (start demo_kernel_2) tt _). vm_compute. reflexivity. Qed.

Lemma demo_kernel_1_ok : kernel_ok demo_kernel_1 (abs_add 0 (mkAbsSched None [] ∅)).
Proof.
  eapply (demo_add demo_kernel); [exact demo_added_1|apply demo_kernel_ok|reflexivity|].
  rewrite demo_added_1. reflexivity.
Qed.

Lemma demo_kernel_2_ok : kernel_ok demo_kernel_2 (abs_add 1 (abs_add 0 (mkAbsSched None [] ∅))).
Proof.
  eapply (demo_add demo_kernel_1); [exact demo_added_2|apply demo_kernel_1_ok|vm_compute; reflexivity|].
  rewrite demo_added_2. reflexivity.
Qed.

Lemma demo_running_ok : kernel_ok demo_running demo_abs_running.
Proof.
  destruct (start_spec demo_kernel_2 _ 0 [1] demo_kernel_2_ok eq_refl eq_refl) as (k' & E & H).
  rewrite demo_started in E. injection E as <-. exact H.
Qed.

Lemma demo_running_current : current (k_sched demo_running) = Some 0.
Proof. exact (sr_current _ _ (ko_sched _ _ demo_running_ok)). Qed.

Lemma scheduler_refines_witness :
  ∃ k', run_op OpYield demo_running = Done (tt, k') ∧
    kernel_ok k' (abs_switch 0 Ready 1 [0] demo_abs_running).
Proof.
  apply (scheduler_refines OpYield demo_running demo_abs_running demo_running_ok).
  exact (ex_intro _ 0 demo_running_current).
Defined.

Lemma demo_run : rtc kernel_step demo_kernel demo_running.
Proof.
  eapply rtc_l; [apply (step_add (demo_task 0) (Ok 0)); [discriminate|eexists; reflexivity|exact demo_added_1]|].
  eapply rtc_l; [apply (step_add (demo_task 1) (Ok 1));
    [discriminate|vm_compute; eexists; reflexivity|exact demo_added_2]|].
  apply rtc_once. apply step_start; [exact (sr_current _ _ (ko_sched _ _ demo_kernel_2_ok))|exact demo_started].
Qed.

Lemma scheduler_safe_witness : cpu_runs demo_running 0.
Proof.
  destruct (scheduler_safe demo_kernel demo_running eq_refl demo_run) as (_ & _ & H & _).
  apply H. exact demo_running_current.
Defined.

Lemma yield_fair_witness :
  ∃ k', yields 1 demo_running = Done (tt, k') ∧ current (k_sched k') = Some 1 ∧ cpu_runs k' 1.
Proof. exact (yield_fair demo_running demo_abs_running 0 1 0 demo_running_ok demo_running_current eq_refl). Defined.

Lemma add_task_correct_witness :
  ∃ id k', add_task (demo_task 0) demo_kernel = Done (Ok id, k') ∧ kernel_ok k' (abs_add id (mkAbsSched None [] ∅)).
Proof.
  destruct (add_task_correct demo_kernel (mkAbsSched None [] ∅) (demo_task 0) demo_kernel_ok)
    as [(id & t' & k' & E & _ & _ & _ & H & _)|[E _]].
  - discriminate.
  - eexists. reflexivity.
  - exists id, k'. split; [exact E|exact H].
  - rewrite demo_added_1 in E. discriminate.
Defined.

Lemma pool_of_upd k id t rq :
  pool_of (set_k_sched (set_ready rq (upd_task id t (k_sched k))) k) = pool_of k.
Proof. done. Qed.

Lemma pool_of_mk p b sp ks s f x y c o :
  pool_of (mkKState (ps_mem p) b sp ks (set_pool (ps_pool p) s) f x y c o) = p.
Proof. by destruct p. Qed.

(** A kernel whose only task owns the stack in slot 0. *)
Definition demo_stack_kernel : KState :=
  mkKState (ps_mem roomy_pool_1) true (k_spaces demo_kernel) (Some (demo_space Kernel))
    (set_pool (ps_pool roomy_pool_1) Scheduler_new) true 0 0 BootstrapContext [].
Definition demo_owner : KState := state_of (add_task (demo_task 0) demo_stack_kernel).

Lemma demo_owner_added : add_task (demo_task 0) demo_stack_kernel = Done (Ok 0, demo_owner).
Proof. refine (state_of_Done (add_task _ _) (Ok 0) _). vm_compute. reflexivity. Qed.

Lemma demo_stack_kernel_ok : kernel_ok demo_stack_kernel (mkAbsSched None [] ∅).
Proof.
  destruct (kernel_ok_new (set_k_sched Scheduler_new demo_stack_kernel) eq_refl)
    as [[R1 R2 R3 R4 R5 R6] Hsp Hcpu].
  split; [split; assumption|exact Hsp|intros id Hid; discriminate Hid].
Qed.

Lemma demo_pool_inv :
  ∃ l ks, pool_inv (demo_space Kernel) roomy_pool_1 l [(0, ks)] [].
Proof.
  destruct (pool_allocate_spec (demo_space Kernel) roomy_pool roomy_frames [] [])
    as (r & p & l & E & H); [apply pool_inv_init, roomy_pt_inv|].
  assert (Hf : free_slot (ps_pool roomy_pool) = Some 0) by reflexivity. rewrite Hf in H.
  assert (r = Ok (slot_stack 0)) as ->
    by (eapply returned_Done; [exact E|vm_compute; reflexivity]).
  destruct H as (_ & ks & H). exists l, ks.
  unfold roomy_pool_1. rewrite E. exact H.
Qed.

Lemma remove_task_correct_witness :
  ∃ k' l' live', remove_task 0 demo_owner = Done (true, k') ∧
    kernel_stacks k' (demo_space Kernel) l' live' [].
Proof.
  destruct (add_task_spec demo_stack_kernel _ (demo_task 0) demo_stack_kernel_ok)
    as [(id & t & k' & E & [rq Ek] & _ & _ & Hk & Ht & _ & Hstk & _)|[E _]];
    [discriminate|eexists; reflexivity| |rewrite demo_owner_added in E; discriminate].
  rewrite demo_owner_added in E. injection E as <- <-.
  destruct demo_pool_inv as (l & ks & Hpool).
  assert (Hl : ∀ id' t', lookup_task (k_sched demo_owner) id' = Some t' → id' = 0 ∧ t' = t).
  { intros id' t' Hl. destruct (decide (id' = 0)) as [->|Hne]; [split; [reflexivity|congruence]|].
    pose proof (sr_states _ _ (ko_sched _ _ Hk) id') as Hs. rewrite Hl in Hs. simpl in Hs.
    rewrite lookup_insert_ne, lookup_empty in Hs by congruence. discriminate. }
  assert (Hst : kernel_stacks demo_owner (demo_space Kernel) l [(0, ks)] []).
  { split; [rewrite Ek; reflexivity|reflexivity|rewrite Ek; reflexivity| | |].
    - rewrite Ek, pool_of_upd. unfold demo_stack_kernel. rewrite pool_of_mk. exact Hpool.
    - intros id' t' [-> ->]%Hl. exists 0. split; [left|exact Hstk].
    - intros i j ti tj [-> _]%Hl [-> _]%Hl _. reflexivity. }
  pose proof (remove_task_correct demo_owner _ (demo_space Kernel) l [(0, ks)] [] 0 Hk Hst) as H.
  rewrite decide_False in H by (simpl; rewrite lookup_insert_eq; intros [?|?]; discriminate).
  destruct H as (k' & slot & ks' & live' & l' & E & _ & _ & _ & H).
  exists k', l', live'. split; [exact E|exact H].
Defined.
