(* ===== verification/Interrupts.v ===== *)
(** * Interrupts and exceptions

    Model of the handlers behind the interrupt entry: [interrupt_dispatch] of
    [src/arch/x86_64/interrupts/idt.rs], [handle] of [exceptions.rs] and the handlers of
    [apic_vectors.rs] in [Apic].  What a fatal exception prints is left out. *)

From stdpp Require Import gmap.
From S2P Require Import Prelude Memory Bytes Layout Machine Descriptors Frame Paging PageTree PageMap PageUnmap.
From S2P Require Import AddressSpace VirtMem Stack Ring Tcb Entry Kernel Scheduler Registers Tasks Acpi Device Apic.

(** ** Definitions *)

(** Whether the interrupted code goes on, or its task is gone and another one runs. *)
Inductive aftermath := Resumes | Leaves.

Definition fault_of (vector : Z) : Fault :=
  match vector with
  | 11 | 12 | 13 | 14 => SegmentationFault
  | 6 => IllegalInstruction
  | 0 | 16 | 17 | 19 => FaultAbort
  | _ => FaultAbort
  end.

(** [exceptions::handle]: [hcf] is reached on both branches of a fault in the kernel. *)
Definition exceptions_handle (frame : InterruptFrame) : M KState unit :=
  let is_user := Z.land (if_code_segment frame) 3 =? 3 in
  let vector := as_u8 (if_vector frame) in
  if negb is_user then halt
  else exit_current (Faulted (fault_of vector)).

Section dispatch.
Context {D : Type} `{!Hardware D}.

Definition on_kernel {A} (c : M KState A) : M (KState * Io D) A := on_part fst (λ k s, (k, s.2)) c.
Definition on_drivers {A} (c : M (Io D) A) : M (KState * Io D) A := on_part snd (λ io s, (s.1, io)) c.

Definition interrupt_dispatch (frame : InterruptFrame) : M (KState * Io D) aftermath :=
  let vector := as_u8 (if_vector frame) in
  if (0 <=? vector) && (vector <=? 31) || (vector =? 0x80) then
    do! on_kernel (exceptions_handle frame) ;;; ret Leaves
  else if (vector =? PIT_CALIBRATION_VECTOR) || (vector =? APIC_TIMER_VECTOR) || (vector =? APIC_ERROR_VECTOR) ||
          (vector =? APIC_SPURIOUS_VECTOR) then
    do! on_drivers (apic_vectors_handle (as_u8 (if_vector frame))) ;;; ret Resumes
  else ret Resumes.

(** ** Lemmas *)

Lemma on_drivers_Done {A} (c : M (Io D) A) k io a io' :
  c io = Done (a, io') → on_drivers c (k, io) = Done (a, (k, io')).
Proof. unfold on_drivers, on_part. simpl. by intros ->. Qed.

Lemma on_kernel_Done {A} (c : M KState A) k (io : Io D) a k' :
  c k = Done (a, k') → on_kernel c (k, io) = Done (a, (k', io)).
Proof. unfold on_kernel, on_part. simpl. by intros ->. Qed.

Lemma on_kernel_Halt {A} (c : M KState A) k (io : Io D) : c k = Halt → on_kernel c (k, io) = Halt.
Proof. unfold on_kernel, on_part. simpl. by intros ->. Qed.

Lemma installed_exception v :
  v ∈ exception_vectors → as_u8 v = v ∧ (0 <=? v) && (v <=? 31) || (v =? 0x80) = true.
Proof.
  unfold exception_vectors. intros H. repeat (apply elem_of_cons in H as [->|H]; [done|]). by apply elem_of_nil in H.
Qed.

Lemma installed_apic v :
  v ∈ apic_vectors → as_u8 v = v ∧ (0 <=? v) && (v <=? 31) || (v =? 0x80) = false ∧
    (v =? PIT_CALIBRATION_VECTOR) || (v =? APIC_TIMER_VECTOR) || (v =? APIC_ERROR_VECTOR) || (v =? APIC_SPURIOUS_VECTOR) = true.
Proof.
  unfold apic_vectors. intros H. repeat (apply elem_of_cons in H as [->|H]; [done|]). by apply elem_of_nil in H.
Qed.

(** What becomes of the tasks when the current one dies of a fault. *)
Record died (c : TaskId) (f : Fault) (a a' : AbsSched) : Prop := {
  di_dead : ab_states a' !! c = Some (Dead (Faulted f));
  di_next : ∃ next q, ab_queue a = next :: q ∧ ab_current a' = Some next ∧ ab_queue a' = q;
  di_others : ∀ id, id ≠ c → ab_current a' ≠ Some id → ab_states a' !! id = ab_states a !! id;
}.

Lemma exit_died c f next q a :
  abs_wf a → ab_current a = Some c → ab_queue a = next :: q → died c f a (abs_switch c (Dead (Faulted f)) next q a).
Proof.
  intros Hwf Hc Hq. assert (Hne : next ≠ c).
  { intros ->. assert (H : c ∈ ab_queue a) by (rewrite Hq; left). apply (aw_queue _ Hwf) in H.
    apply (aw_running _ Hwf) in Hc. congruence. }
  constructor; simpl.
  - by rewrite lookup_insert_ne, lookup_insert_eq.
  - by exists next, q.
  - intros id H1 H2. rewrite !lookup_insert_ne by congruence. done.
Qed.

(** ** What the handlers are for

    The table of faults, written from the processor's list of exceptions: the protection faults (segment
    not present, stack, general protection, page) and the invalid opcode have a reason of their own. *)
Inductive fault_reason : Z → Fault → Prop :=
  | reason_protection v : v ∈ [11; 12; 13; 14] → fault_reason v SegmentationFault
  | reason_opcode : fault_reason 6 IllegalInstruction
  | reason_other v : v ∉ [6; 11; 12; 13; 14] → fault_reason v FaultAbort.

Lemma fault_of_reason v : v ∈ exception_vectors → fault_reason v (fault_of v).
Proof.
  unfold exception_vectors. intros H.
  repeat (apply elem_of_cons in H as [->|H]; [constructor; by apply (bool_decide_unpack _)|]). by apply elem_of_nil in H.
Qed.

(** A reason is the only one of its vector. *)
Lemma fault_reason_unique v f f' : fault_reason v f → fault_reason v f' → f = f'.
Proof.
  assert (H6 : 6 ∉ [11; 12; 13; 14]) by (by apply (bool_decide_unpack _)).
  assert (H6' : 6 ∈ [6; 11; 12; 13; 14]) by (by apply (bool_decide_unpack _)).
  destruct 1 as [v Hv| |v Hv]; inversion 1; subst; try done; exfalso; set_solver.
Qed.

Context (V : view (D := D)) `{!ApicHardware V}.

(** What the controller is told for an interrupt. *)
Definition acknowledgement (v : Z) : list event :=
  if decide (v = APIC_SPURIOUS_VECTOR) then []
  else (if decide (v = APIC_ERROR_VECTOR) then [LapicSet APIC_ESR 0] else []) ++ [LapicSet APIC_EOI 0].

(** What an interrupt leaves in the counters, which the handlers share with the calibration.  The count of
    the timer is the one it has before the interrupt is acknowledged. *)
Inductive recorded (d : D) (c : Counters) : Z → Counters → Prop :=
  | recorded_pit d1 : step V [] d d1 →
      recorded d c PIT_CALIBRATION_VECTOR
        (mkCounters (APIC_ERROR_COUNT c) (LAST_APIC_ERROR c) (APIC_TIMER_COUNT c) true (timer_count V d1))
  | recorded_timer :
      recorded d c APIC_TIMER_VECTOR
        (mkCounters (APIC_ERROR_COUNT c) (LAST_APIC_ERROR c) ((APIC_TIMER_COUNT c + 1) mod W64) (PIT_FIRED c) (LAPIC_COUNT_AT_PIT c))
  | recorded_error e : is_u32 e →
      recorded d c APIC_ERROR_VECTOR
        (mkCounters ((APIC_ERROR_COUNT c + 1) mod W64) e (APIC_TIMER_COUNT c) (PIT_FIRED c) (LAPIC_COUNT_AT_PIT c))
  | recorded_spurious : recorded d c APIC_SPURIOUS_VECTOR c.

(** An interrupt was served. *)
Record served (v : Z) (s s' : Io D) : Prop := {
  sv_mem : io_mem s' = io_mem s;
  sv_if : io_if s' = io_if s;
  sv_step : step V (acknowledgement v) (io_dev s) (io_dev s');
  sv_counters : recorded (io_dev s) (io_counters s) v (io_counters s');
}.

(** A handler touches the devices, records what it saw, and acknowledges. *)
Lemma served_by v body es s s1 c :
  body s = Done (tt, set_io_counters c s1) → ran V es s s1 → acknowledgement v = es ++ [LapicSet APIC_EOI 0] →
  recorded (io_dev s) (io_counters s) v c →
  ∃ s', (do! body ;;; end_of_interrupt) s = Done (tt, s') ∧ served v s s'.
Proof.
  intros E [M1 I1 _ S1] Ha Hr. destruct (eoi_spec V (set_io_counters c s1)) as (s' & E' & [M2 I2 C2 S2]).
  exists s'. rewrite (bind_Done _ _ _ _ _ E). split; [exact E'|].
  constructor; [by rewrite M2|by rewrite I2| |by rewrite C2]. rewrite Ha. by eapply step_trans.
Qed.

Lemma error_served s : ∃ s', apic_vectors_handle APIC_ERROR_VECTOR s = Done (tt, s') ∧ served APIC_ERROR_VECTOR s s'.
Proof.
  destruct (current_access_spec V s) as (s1 & E1 & R1).
  destruct (write_in_mode V _ s1 APIC_ESR 0 (ran_mode V _ _ _ _ eq_refl R1)) as (s2 & E2 & R2); [in_list|done|].
  destruct (access_read_spec V s2 APIC_ESR) as (e & s3 & E3 & _ & R3 & _); [in_list|].
  rewrite (ran_base V _ _ _ R2), (ran_base V _ _ _ R1) in E3.
  pose proof (ran_trans V _ _ _ _ _ R1 (ran_trans V _ _ _ _ _ R2 R3)) as R.
  eapply (served_by _ record_error); [|exact R|done|].
  - unfold record_error. rewrite (bind_Done _ _ _ _ _ E1), (bind_Done _ _ _ _ _ E2), (bind_Done _ _ _ _ _ E3). reflexivity.
  - rewrite (rn_counters _ _ _ _ R). constructor. apply as_u32_range.
Qed.

Lemma pit_served s : ∃ s', apic_vectors_handle PIT_CALIBRATION_VECTOR s = Done (tt, s') ∧ served PIT_CALIBRATION_VECTOR s s'.
Proof.
  destruct (timer_count_spec V s) as (s1 & s2 & E & R1 & R).
  eapply (served_by _ record_pit_calibration); [|exact R|done|].
  - unfold record_pit_calibration. rewrite (bind_Done _ _ _ _ _ E). reflexivity.
  - rewrite (rn_counters _ _ _ _ R). constructor. apply R1.
Qed.

Lemma timer_served s : ∃ s', apic_vectors_handle APIC_TIMER_VECTOR s = Done (tt, s') ∧ served APIC_TIMER_VECTOR s s'.
Proof.
  eapply (served_by _ record_timer []); [reflexivity|by constructor; try apply step_refl|done|constructor].
Qed.

Lemma apic_served v s : v ∈ apic_vectors → ∃ s', apic_vectors_handle v s = Done (tt, s') ∧ served v s s'.
Proof.
  unfold apic_vectors. intros H.
  repeat (apply elem_of_cons in H as [->|H]; [try by auto using error_served, pit_served, timer_served|]);
    [|by apply elem_of_nil in H].
  exists s. split; [done|]. constructor; [done|done|apply step_refl|constructor].
Qed.

(** ** Theorems *)

(** C37: Every vector that the kernel installs is handled, and by the right handler.  An exception of user
    code ends exactly the current task, with a segmentation fault for vectors 11 to 14, an illegal
    instruction for 6 and an abort otherwise ([fault_reason]); the next ready task runs and no other task
    changes; when none is ready the machine halts.  An exception of kernel code halts the machine.  An
    interrupt of the controller leaves all tasks and the memory alone and resumes the interrupted code:
    the one of the PIT records that it fired and the count of the timer, the timer's one more tick, the
    error's one more error and the last status, and each of them is acknowledged by exactly one write to
    the controller, the error's after the write that latches the status; a spurious one records nothing
    and is not acknowledged. *)
Theorem interrupt_dispatch_correct (k : KState) (a : AbsSched) (c : TaskId) (io : Io D) (cpu : cpu) (v : Z)
    (error : option Z) :
  kernel_ok k a → ab_current a = Some c → v ∈ exception_vectors ++ apic_vectors →
  let dispatch := interrupt_dispatch (interrupted_frame cpu v error) (k, io) in
  (v ∈ exception_vectors → cs cpu = USER_CODE_SELECTOR →
     (ab_queue a = [] ∧ dispatch = Halt) ∨
     ∃ k' a', dispatch = Done (Leaves, (k', io)) ∧ kernel_ok k' a' ∧ (∃ f, fault_reason v f ∧ died c f a a')) ∧
  (v ∈ exception_vectors → cs cpu = KERNEL_CODE_SELECTOR → dispatch = Halt) ∧
  (v ∈ apic_vectors → ∃ io', dispatch = Done (Resumes, (k, io')) ∧ served v io io' ∧
     (v = APIC_SPURIOUS_VECTOR → io' = io)).
Proof.
  intros Hk Hc Hv. cbv zeta. unfold interrupt_dispatch. cbn [interrupted_frame if_vector]. split_and!.
  - intros Hx Hcs. destruct (installed_exception v Hx) as [-> ->].
    assert (E : exceptions_handle (interrupted_frame cpu v error) k = run_op (OpExit (Faulted (fault_of v))) k).
    { unfold exceptions_handle. cbn [interrupted_frame if_vector if_code_segment]. rewrite Hcs.
      by rewrite (proj1 (installed_exception v Hx)). }
    pose proof (run_op_spec (OpExit (Faulted (fault_of v))) k a Hk) as Hr. cbn [op_allowed abs_op] in Hr.
    rewrite (sr_current _ _ (ko_sched _ _ Hk)), Hc in Hr. specialize (Hr ltac:(eauto)).
    destruct (ab_queue a) as [|next q] eqn:Hq.
    + left. split; [done|]. unfold bind. by rewrite (on_kernel_Halt _ _ io (eq_trans E Hr)).
    + right. destruct Hr as (k' & Er & Hk'). eexists k', _. split_and!; [|exact Hk'|].
      * by rewrite (bind_Done _ _ _ _ _ (on_kernel_Done _ _ io _ _ (eq_trans E Er))).
      * exists (fault_of v). split; [by apply fault_of_reason|]. apply exit_died; [apply Hk|done|done].
  - intros Hx Hcs. destruct (installed_exception v Hx) as [-> ->].
    assert (E : exceptions_handle (interrupted_frame cpu v error) k = Halt).
    { unfold exceptions_handle. cbn [interrupted_frame if_code_segment]. by rewrite Hcs. }
    unfold bind. by rewrite (on_kernel_Halt _ _ io E).
  - intros Hx. destruct (installed_apic v Hx) as (-> & -> & ->).
    destruct (apic_served v io Hx) as (io' & E & Hh). exists io'. split_and!; [|done|].
    + by rewrite (bind_Done _ _ _ _ _ (on_drivers_Done _ k _ _ _ E)).
    + intros ->. by injection E as <-.
Qed.
End dispatch.

Lemma interrupt_dispatch_correct_witness :
  (∃ k' a', interrupt_dispatch (interrupted_frame demo_user 14 (Some 6)) (demo_running, demo_io 0xFEE00900) =
      Done (Leaves, (k', demo_io 0xFEE00900)) ∧ kernel_ok k' a' ∧
    ab_states a' !! 0 = Some (Dead (Faulted SegmentationFault))) ∧
  (∃ io', interrupt_dispatch (interrupted_frame demo_user APIC_TIMER_VECTOR None) (demo_running, demo_io 0xFEE00900) =
      Done (Resumes, (demo_running, io')) ∧
    step bench_view [LapicSet APIC_EOI 0] (io_dev (demo_io 0xFEE00900)) (io_dev io') ∧
    APIC_TIMER_COUNT (io_counters io') = 1).
Proof.
  split.
  - destruct (interrupt_dispatch_correct bench_view demo_running demo_abs_running 0 (demo_io 0xFEE00900) demo_user 14 (Some 6))
      as [H _]; [exact demo_running_ok|reflexivity|by apply (bool_decide_unpack _)|].
    destruct H as [[H _]|(k' & a' & H & Hk & f & Hf & Hd)]; [by apply (bool_decide_unpack _)|reflexivity|discriminate H|].
    exists k', a'. split; [exact H|]. split; [exact Hk|]. rewrite (di_dead _ _ _ _ Hd). do 3 f_equal.
    apply (fault_reason_unique 14 _ _ Hf), fault_of_reason. by apply (bool_decide_unpack _).
  - destruct (interrupt_dispatch_correct bench_view demo_running demo_abs_running 0 (demo_io 0xFEE00900) demo_user
      APIC_TIMER_VECTOR None) as (_ & _ & H); [exact demo_running_ok|reflexivity|by apply (bool_decide_unpack _)|].
    destruct H as (io' & H & [_ _ Hs Hc] & _); [by apply (bool_decide_unpack _)|].
    exists io'. split; [exact H|]. split; [exact Hs|]. inversion Hc; subst; reflexivity.
Defined.
