(* ===== verification/User.v ===== *)
(** * Access to user memory

    Model of [src/memory/user.rs]: checking that a range of user addresses is mapped for the
    access wanted, and copying between kernel and user memory. *)

From S2P Require Import Prelude Memory Bytes Frame Paging PageTree PageMap PageUnmap AddressSpace VirtMem Stack.
From S2P Require Import Ring Tcb Kernel Scheduler.

(** [src/syscall/mod.rs] *)
Inductive Status :=
| InvalidArgument | BadAddress | BadFileDescriptor | NoSuchTask | StatusOutOfMemory | BadHandle.

#[export] Instance Status_eq_dec : EqDecision Status.
Proof. solve_decision. Defined.

(** [(start..end).step_by(FRAME_SIZE)] *)
Definition pages (start end_ : usize) : list Z :=
  (λ i, start + i * FRAME_SIZE) <$> range 0 (div_ceil (end_ - start) FRAME_SIZE).

(** Whether the page grants the access. *)
Definition page_valid (address_space : AddressSpace) (m : memory) (need_writable : bool)
    (page : VirtualAddr) : bool :=
  match AddressSpace_mapping address_space m page with
  | Some mapping =>
      user_accessible (permissions mapping) &&
      (negb need_writable || writable (permissions mapping))
  | None => false
  end.

Definition validate_page (id : AddressSpaceId) (need_writable : bool) (page : VirtualAddr) :
    M KState (result unit Status) :=
  let! o := with_address_space id (λ address_space,
              gets (λ k, page_valid address_space (ms_mem (k_mem k)) need_writable page)) in
  let? is_valid := ret (ok_or o BadAddress) in
  if negb is_valid then ret (Err BadAddress) else ret (Ok tt).

Definition validate_user_range (id : AddressSpaceId) (start : VirtualAddr) (len : usize)
    (need_writable : bool) : M KState (result unit Status) :=
  let? end_addr := ret (ok_or (checked_add start len) BadAddress) in
  if (USER_SPACE_END <=? start) || (USER_SPACE_END <? end_addr) then ret (Err BadAddress)
  else if len =? 0 then ret (Ok tt)
  else
    let page_start := Z.land start (not64 (FRAME_SIZE - 1)) in
    mfor_ok (pages page_start end_addr) (validate_page id need_writable).

(** The copies go through the page table [cpu] that is active; a slice is the list of its
    bytes. *)

Definition copy_from_user (cpu : PageTable) (src : VirtualAddr) (dst_len : nat) :
    M MState (result (list Z) Status) :=
  let? end_ := ret (ok_or (checked_add src (Z.of_nat dst_len)) BadAddress) in
  if USER_SPACE_END <? end_ then ret (Err BadAddress)
  else let! bytes := vload_bytes cpu dst_len src in ret (Ok bytes).

Definition copy_to_user (cpu : PageTable) (dst : VirtualAddr) (src : list Z) :
    M MState (result unit Status) :=
  let? end_ := ret (ok_or (checked_add dst (Z.of_nat (length src))) BadAddress) in
  if USER_SPACE_END <? end_ then ret (Err BadAddress)
  else do! vstore_bytes cpu src dst ;;; ret (Ok tt).

(** A value of a type with alignment [align] is its bytes. *)
Definition copy_val_to_user (cpu : PageTable) (align : usize) (dst : VirtualAddr) (val : list Z) :
    M MState (result unit Status) :=
  if negb (dst mod align =? 0) then ret (Err InvalidArgument)
  else
    let? end_ := ret (ok_or (checked_add dst (Z.of_nat (length val))) BadAddress) in
    if USER_SPACE_END <? end_ then ret (Err BadAddress)
    else do! vstore_bytes cpu val dst ;;; ret (Ok tt).

Definition copy_val_from_user (cpu : PageTable) (align : usize) (size : nat) (src : VirtualAddr) :
    M MState (result (list Z) Status) :=
  if negb (src mod align =? 0) then ret (Err InvalidArgument)
  else
    let? end_ := ret (ok_or (checked_add src (Z.of_nat size)) BadAddress) in
    if USER_SPACE_END <? end_ then ret (Err BadAddress)
    else let! val := vload_bytes cpu size src in ret (Ok val).

(** ** Lemmas *)

Lemma elem_of_pages start end_ page :
  page ∈ pages start end_ ↔
  ∃ i, page = start + i * FRAME_SIZE ∧ 0 ≤ i ∧ page < end_.
Proof.
  unfold pages. rewrite list_elem_of_fmap. setoid_rewrite elem_of_range.
  unfold div_ceil, FRAME_SIZE. split.
  - intros (i & -> & Hi). exists i. split_and!; [done|lia|dmlia].
  - intros (i & -> & H0 & Hlt). exists i. split_and!; [done|lia|dmlia].
Qed.

Lemma validate_page_spec k id sp need page :
  AddressSpaceTable_get (k_spaces k) id = Some sp →
  validate_page id need page k =
    Done (if page_valid sp (ms_mem (k_mem k)) need page then Ok tt else Err BadAddress, k).
Proof.
  intros Hsp. unfold validate_page, with_address_space. erewrite bind_Done.
  2: { apply masked_flag. mred. simpl. rewrite Hsp. by mred. }
  mred. simpl. replace (set_k_interrupts (k_interrupts k) (set_k_interrupts false k)) with k by (by destruct k).
  by destruct (page_valid _ _ _ _).
Qed.

Lemma validate_pages_spec k id sp need l :
  AddressSpaceTable_get (k_spaces k) id = Some sp →
  mfor_ok l (validate_page id need) k =
    Done (if forallb (page_valid sp (ms_mem (k_mem k)) need) l then Ok tt else Err BadAddress, k).
Proof.
  intros Hsp. induction l as [|p l IH]; [done|]. simpl. unfold bind_ok.
  rewrite (bind_Done _ _ _ _ _ (validate_page_spec k id sp need p Hsp)).
  destruct (page_valid _ _ _ p); simpl; [apply IH|done].
Qed.

(** Addresses on the same page have the same mapping. *)
Lemma page_valid_page sp s l need x y :
  pt_inv (root sp) s l → is_u64 x → is_u64 y → x / PAGE_SIZE = y / PAGE_SIZE →
  page_valid sp (ms_mem s) need x = page_valid sp (ms_mem s) need y.
Proof.
  intros Hinv Hx Hy E. unfold page_valid, AddressSpace_mapping.
  assert (is_canonical (root sp) x = is_canonical (root sp) y) as Hc by (by apply canonical_page).
  destruct (is_canonical (root sp) y) eqn:Ec.
  - destruct (view_walk (root sp) s l x Hinv Hc) as [_ ->], (view_walk (root sp) s l y Hinv Ec) as [_ ->].
    by rewrite (walk_page (root sp) (ms_mem s) x y) by done.
  - unfold PageTable_mapping. by rewrite Hc, Ec.
Qed.

(** What a validated range promises. *)
Definition range_valid (sp : AddressSpace) (m : memory) (start len : Z) (need : bool) : Prop :=
  start < USER_SPACE_END ∧ start + len ≤ USER_SPACE_END ∧
  ∀ x, start ≤ x < start + len → page_valid sp m need x = true.

Lemma validate_spec k id sp l start len need :
  AddressSpaceTable_get (k_spaces k) id = Some sp → pt_inv (root sp) (k_mem k) l →
  is_u64 start → is_u64 len →
  ∃ r, validate_user_range id start len need k = Done (r, k) ∧ (r = Ok tt ∨ r = Err BadAddress) ∧
    (r = Ok tt ↔ range_valid sp (ms_mem (k_mem k)) start len need).
Proof.
  intros Hsp Hinv Hs Hl. unfold validate_user_range, range_valid. mred.
  destruct (checked_add start len) as [e|] eqn:Ee; simpl.
  2: { apply checked_add_None in Ee. eexists. split; [done|]. split; [by right|]. split; [done|].
       unfold USER_SPACE_END, W64 in *. lia. }
  apply checked_add_Some in Ee as [-> Hb].
  destruct (Z.leb_spec USER_SPACE_END start); simpl.
  { eexists. split; [done|]. split; [by right|]. split; [done|lia]. }
  destruct (Z.ltb_spec USER_SPACE_END (start + len)); simpl.
  { eexists. split; [done|]. split; [by right|]. split; [done|lia]. }
  destruct (Z.eqb_spec len 0) as [->|Hne].
  { eexists. split; [done|]. split; [by left|]. split; [|done]. intros _. split_and!; [lia|lia|lia]. }
  rewrite (validate_pages_spec k id sp) by done. eexists. split; [done|].
  change (FRAME_SIZE - 1) with (2 ^ 12 - 1).
  rewrite (land_not64_mask start 12) by (done || lia). change (2 ^ 12) with 4096. destruct (forallb _ _) eqn:Ef.
  - split; [by left|]. split; [|done]. intros _. split_and!; [lia|lia|]. intros x Hx.
    set (p := start - start mod 4096 + (x / 4096 - start / 4096) * FRAME_SIZE).
    rewrite forallb_forall in Ef.
    assert (Hp : p = x - x mod 4096) by (unfold p, FRAME_SIZE; dmlia).
    rewrite (page_valid_page sp (k_mem k) l need x p Hinv);
      [|unfold is_u64 in *; lia|unfold is_u64, USER_SPACE_END, W64 in *; dmlia|unfold PAGE_SIZE; rewrite Hp; dmlia].
    apply Ef, list_elem_of_In, elem_of_pages. exists (x / 4096 - start / 4096).
    split_and!; [done|dmlia|rewrite Hp; dmlia].
  - split; [by right|]. split; [done|]. intros (_ & _ & Hall). exfalso.
    apply not_true_iff_false in Ef. apply Ef, forallb_forall. intros p Hp.
    apply list_elem_of_In, elem_of_pages in Hp as (i & Hp & Hi & Hlt). unfold FRAME_SIZE in Hp.
    rewrite (page_valid_page sp (k_mem k) l need p (Z.max start p) Hinv);
      [apply Hall; unfold is_u64 in *; lia|unfold is_u64 in *; dmlia|unfold is_u64 in *; lia|].
    unfold PAGE_SIZE. destruct (Z.max_spec start p) as [[_ ->]|[Hle ->]]; [done|]. dmlia.
Qed.

Lemma data_cell_inj cpu fr x y :
  (x / PAGE_SIZE ≠ y / PAGE_SIZE → fr x ≠ fr y) → data_cell cpu x (fr x) = data_cell cpu y (fr y) → x = y.
Proof.
  intros Hfr. unfold data_cell, frame_at, FRAME_SIZE, PAGE_SIZE in *. intros E.
  pose proof (Z.mod_pos_bound x 4096). pose proof (Z.mod_pos_bound y 4096).
  assert (fr x = fr y ∧ x mod 4096 = y mod 4096) as [Ef Em] by lia.
  assert (x / 4096 = y / 4096) by (destruct (decide (x / 4096 = y / 4096)); [done|by apply Hfr in Ef]).
  pose proof (Z.div_mod x 4096). pose proof (Z.div_mod y 4096). lia.
Qed.

Lemma page_valid_writable sp m x : page_valid sp m true x = true → vwritable (root sp) m x = true.
Proof.
  unfold page_valid, vwritable, AddressSpace_mapping. destruct (PageTable_mapping (root sp) m x); [|done].
  by intros [_ H]%andb_true_iff.
Qed.

(** * Theorems *)

(** A range of user memory is accepted exactly when it lies below the end of user space and
    every byte of it is mapped user accessible (and writable, when a write is wanted); the
    check looks at one address per page, changes nothing, always returns, and otherwise
    reports [BadAddress]. *)
Theorem validate_user_range_correct (k : KState) (id : AddressSpaceId) (sp : AddressSpace)
    (l : list FrameState) (start len : usize) (need : bool) :
  AddressSpaceTable_get (k_spaces k) id = Some sp → pt_inv (root sp) (k_mem k) l →
  is_u64 start → is_u64 len →
  ∃ r, validate_user_range id start len need k = Done (r, k) ∧ (r = Ok tt ∨ r = Err BadAddress) ∧
    (r = Ok tt ↔ range_valid sp (ms_mem (k_mem k)) start len need).
Proof. apply validate_spec. Qed.

(** C22: Copying to a range validated for writing whose pages are backed by distinct
    frames that hold data and no page table never faults and leaves every translation alone; what
    was written is what [copy_from_user] reads back, and no byte of memory changes but those that
    the addresses of the range lead to. *)
Theorem user_copy_roundtrip (sp : AddressSpace) (s : MState) (l : list FrameState) (fr : Z → nat)
    (dst : VirtualAddr) (src : list Z) :
  pt_inv (root sp) s l → is_u64 dst → Forall (λ b, 0 ≤ b < 256) src →
  range_valid sp (ms_mem s) dst (Z.of_nat (length src)) true →
  (∀ x, dst ≤ x < dst + Z.of_nat (length src) → data_at (root sp) l s x (fr x)) →
  (∀ x y, dst ≤ x < dst + Z.of_nat (length src) → dst ≤ y < dst + Z.of_nat (length src) →
     x / PAGE_SIZE ≠ y / PAGE_SIZE → fr x ≠ fr y) →
  ∃ s', copy_to_user (root sp) dst src s = Done (Ok tt, s') ∧
    copy_from_user (root sp) dst (length src) s' = Done (Ok src, s') ∧
    pt_inv (root sp) s' l ∧ (∀ x, same_page (root sp) (ms_mem s) (ms_mem s') x) ∧
    (∀ a, (∀ x, dst ≤ x < dst + Z.of_nat (length src) → vcell (root sp) (ms_mem s) x ≠ Some a) →
       load8 (ms_mem s') a = load8 (ms_mem s) a).
Proof.
  intros Hinv Hd Hsrc (Hlo & Hhi & Hv) Hdata Hfr.
  assert (Hadd : checked_add dst (Z.of_nat (length src)) = Some (dst + Z.of_nat (length src)))
    by (apply checked_add_lt; unfold USER_SPACE_END, W64 in *; lia).
  assert (Hend : (USER_SPACE_END <? dst + Z.of_nat (length src)) = false) by (by apply Z.ltb_ge).
  destruct (vstore_bytes_spec (root sp) l fr src dst s Hinv) as (s' & E & [V1 V2 V3 V4 V5 V6]).
  { intros i Hi. split; [apply Hdata; lia|apply page_valid_writable, Hv; lia]. }
  destruct (vload_bytes_spec (root sp) l s' fr (length src) dst V1) as (bytes & E' & Hlen & Hb).
  { intros i Hi. eapply data_at_same; [apply V2|exact V3|exact V4|]. apply Hdata. lia. }
  exists s'. split_and!.
  - unfold copy_to_user. rewrite Hadd. simpl. mred. rewrite Hend. by rewrite (bind_Done _ _ _ _ _ E).
  - unfold copy_from_user. rewrite Hadd. simpl. mred. rewrite Hend. rewrite (bind_Done _ _ _ _ _ E').
    unfold ret. do 3 f_equal. apply (list_eq_same_length _ _ (length src)); [done|done|].
    intros i x y _ Hx Hy. specialize (Hb (Z.of_nat i) x). specialize (V6 ltac:(intros i1 i2 H1 H2 Hc;
      apply data_cell_inj in Hc; [lia|apply Hfr; lia]) (Z.of_nat i) y).
    rewrite zget_lookup, Nat2Z.id in Hb, V6 by lia. rewrite (Hb Hx), (V6 Hy).
    rewrite Forall_lookup in Hsrc. apply Z.mod_small. by apply (Hsrc i).
  - done.
  - done.
  - intros a Ha. apply V5. intros i Hi ->. apply (Ha (dst + i)); [lia|].
    apply (data_vcell _ l); [done|]. apply Hdata. lia.
Qed.

(** ** Concrete runs *)

(** A user page at 0x3F000, mapped as a one-page stack. *)
Lemma demo_user_page :
  ∃ s1 l1 k, StackMapping_allocate (demo_space User) 0x1000 0x40000 (mkPagePermissions true false true)
             roomy_state = Done (Ok (mkStackMapping 0x3E000 0x3F000 0x1000 0x40000), s1) ∧
    pt_inv demo_pt s1 l1 ∧ maps_page demo_pt (ms_mem s1) 0x3F000 (frame_at k) (mkPagePermissions true false true) ∧
    l1 !! k = Some Allocated ∧ ¬ own_table demo_pt (ms_mem s1) (frame_at k).
Proof.
  destruct (stack_allocate_spec (demo_space User) 0x1000 0x40000 (mkPagePermissions true false true)
    roomy_state roomy_frames) as (r & s1 & l1 & E & H); [apply roomy_pt_inv|done|done|done|].
  assert (r = Ok (mkStackMapping 0x3E000 0x3F000 0x1000 0x40000)) as ->
    by (eapply returned_Done; [exact E|vm_compute; reflexivity]).
  destruct H as (_ & _ & ks & Hlen & Hh). change (0x1000 / FRAME_SIZE) with 1 in Hlen.
  destruct (sh_range _ _ _ _ _ _ _ _ Hh) as [R1 R2 _ _ _]. destruct (R2 0 ltac:(lia)) as (P1 & _ & _).
  destruct ks as [|k ks]; [simpl in Hlen; lia|].
  destruct (sh_frames _ _ _ _ _ _ _ _ Hh k) as (_ & Ha & Hn); [left|].
  exists s1, l1, k. split; [exact E|]. split; [exact R1|]. split; [exact P1|]. split; [exact Ha|exact Hn].
Qed.

Lemma demo_user_valid s1 k x :
  maps_page demo_pt (ms_mem s1) 0x3F000 (frame_at k) (mkPagePermissions true false true) →
  0x3F000 ≤ x < 0x40000 →
  page_valid (demo_space User) (ms_mem s1) true x = true ∧
  PageTable_to_physical demo_pt (ms_mem s1) x = Some (frame_at k + x mod PAGE_SIZE).
Proof.
  intros Hm Hx. destruct (Hm x) as [Hp Hmap]; [unfold is_u64, W64; lia|unfold PAGE_SIZE; dmlia|].
  split; [|exact Hp]. unfold page_valid, AddressSpace_mapping. change (root (demo_space User)) with demo_pt.
  by rewrite Hmap.
Qed.

Lemma validate_user_range_correct_witness :
  ∃ k, validate_user_range 0 0x3FF00 0x100 true k = Done (Ok tt, k) ∧
       validate_user_range 0 0x3FF00 0x101 true k = Done (Err BadAddress, k).
Proof.
  destruct demo_user_page as (s1 & l1 & j & E & Hinv & Hm & _).
  set (k := mkKState s1 true (mkAddressSpaceTable [Some (demo_space User)]) None Scheduler_new true 0 0
              BootstrapContext []).
  exists k. split.
  - destruct (validate_user_range_correct k 0 (demo_space User) l1 0x3FF00 0x100 true eq_refl Hinv)
      as (r & Er & _ & Hr); [unfold is_u64, W64; lia|unfold is_u64, W64; lia|].
    rewrite Er. rewrite (proj2 Hr); [reflexivity|]. unfold range_valid, USER_SPACE_END.
    split; [lia|]. split; [lia|]. intros x Hx. apply (demo_user_valid s1 j x Hm). lia.
  - destruct (validate_user_range_correct k 0 (demo_space User) l1 0x3FF00 0x101 true eq_refl Hinv)
      as (r & Er & Hcase & Hr); [unfold is_u64, W64; lia|unfold is_u64, W64; lia|].
    rewrite Er. destruct Hcase as [->| ->]; [|reflexivity]. exfalso.
    destruct (proj1 Hr eq_refl) as (_ & _ & Hv). specialize (Hv 0x40000 ltac:(lia)).
    assert (Hn : page_valid (demo_space User) (ms_mem s1) true 0x40000 = false); [|discriminate (eq_trans (eq_sym Hv) Hn)].
    assert (Hrun : match StackMapping_allocate (demo_space User) 0x1000 0x40000
      (mkPagePermissions true false true) roomy_state with
      | Done (_, s) => page_valid (demo_space User) (ms_mem s) true 0x40000
      | _ => true end = false) by (vm_compute; reflexivity).
    rewrite E in Hrun. exact Hrun.
Defined.

Lemma user_copy_roundtrip_witness :
  ∃ s1 s2, copy_to_user demo_pt 0x3FFFE [1; 255] s1 = Done (Ok tt, s2) ∧
    copy_from_user demo_pt 0x3FFFE 2 s2 = Done (Ok [1; 255], s2).
Proof.
  destruct demo_user_page as (s1 & l1 & j & _ & Hinv & Hm & Ha & Hn). exists s1.
  destruct (user_copy_roundtrip (demo_space User) s1 l1 (λ _, j) 0x3FFFE [1; 255] Hinv) as (s2 & E1 & E2 & _).
  - unfold is_u64, W64; lia.
  - apply Forall_cons; split; [lia|]. apply Forall_cons; split; [lia|apply Forall_nil; exact I].
  - unfold range_valid, USER_SPACE_END. split; [lia|]. split; [simpl; lia|]. simpl. intros x Hx.
    apply (demo_user_valid s1 j x Hm). lia.
  - simpl. intros x Hx. split; [apply (demo_user_valid s1 j x Hm); lia|]. split; [left; exact Ha|exact Hn].
  - simpl. intros x y Hx Hy Hne. exfalso. apply Hne. unfold PAGE_SIZE. dmlia.
  - exists s2. split; [exact E1|exact E2].
Defined.
