(* ===== verification/Cpio.v ===== *)
(** * The initramfs archive

    Model of [src/format/cpio.rs] and of its twin in user space,
    [userspace/omega3/src/cpio.rs]: looking a file up in a cpio archive in the newc format. *)

From S2P Require Import Prelude Memory Bytes.

(** ** Strings *)

Definition in_byte (lo hi b : Z) : bool := (lo <=? b) && (b <=? hi).
Definition utf8_tail (b : Z) : bool := in_byte 0x80 0xBF b.

(** [core::str::from_utf8] accepts these bytes. *)
Fixpoint utf8_valid (b : bytes) : bool :=
  match b with
  | [] => true
  | b1 :: r1 =>
      if in_byte 0x00 0x7F b1 then utf8_valid r1
      else
        match r1 with
        | [] => false
        | b2 :: r2 =>
            if in_byte 0xC2 0xDF b1 then utf8_tail b2 && utf8_valid r2
            else
              match r2 with
              | [] => false
              | b3 :: r3 =>
                  if in_byte 0xE0 0xEF b1 then
                    in_byte (if b1 =? 0xE0 then 0xA0 else 0x80) (if b1 =? 0xED then 0x9F else 0xBF) b2 &&
                    utf8_tail b3 && utf8_valid r3
                  else
                    match r3 with
                    | [] => false
                    | b4 :: r4 =>
                        in_byte 0xF0 0xF4 b1 &&
                        in_byte (if b1 =? 0xF0 then 0x90 else 0x80) (if b1 =? 0xF4 then 0x8F else 0xBF) b2 &&
                        utf8_tail b3 && utf8_tail b4 && utf8_valid r4
                    end
              end
        end
  end.

(** [str::trim_end_matches('\0')] *)
Fixpoint trim_end_nul (b : bytes) : bytes :=
  match b with
  | [] => []
  | x :: b =>
      match trim_end_nul b with
      | [] => if x =? 0 then [] else [x]
      | r => x :: r
      end
  end.

Definition hex_digit (b : Z) : option Z :=
  if in_byte 48 57 b then Some (b - 48)
  else if in_byte 97 102 b then Some (b - 87)
  else if in_byte 65 70 b then Some (b - 55)
  else None.

(** The digits of a number, most significant first; [None] on overflow as well. *)
Fixpoint hex_digits (acc : Z) (b : bytes) : option Z :=
  match b with
  | [] => Some acc
  | x :: b =>
      match hex_digit x with
      | Some d => if acc * 16 + d <? W64 then hex_digits (acc * 16 + d) b else None
      | None => None
      end
  end.

(** [usize::from_str_radix(s, 16)]: one sign is allowed, no digits are not.  Bytes that are
    not valid UTF-8 are no digits either, so the conversion to a string adds no case. *)
Definition from_str_radix_16 (b : bytes) : option Z :=
  match b with
  | [] => None
  | x :: rest =>
      if x =? 43 then match rest with [] => None | _ => hex_digits 0 rest end
      else hex_digits 0 b
  end.

(** ** Headers *)

Record Header := mkHeader {
  c_magic : bytes; c_ino : bytes; c_mode : bytes; c_uid : bytes; c_gid : bytes; c_nlink : bytes;
  c_mtime : bytes; c_filesize : bytes; c_devmajor : bytes; c_devminor : bytes;
  c_rdevmajor : bytes; c_rdevminor : bytes; c_namesize : bytes; c_check : bytes;
}.

Definition HEADER_SIZE : usize := 110.
Definition MAGIC : bytes := [48; 55; 48; 55; 48; 49].
Definition TRAILER : bytes := [84; 82; 65; 73; 76; 69; 82; 33; 33; 33].

(** The [i]-th eight-byte field of a header. *)
Definition field (i : nat) (b : bytes) : bytes := take 8 (drop (6 + 8 * i) b).

(** [core::ptr::read(bytes.as_ptr() as *const Header)] *)
Definition read_header (b : bytes) : Header :=
  mkHeader (take 6 b) (field 0 b) (field 1 b) (field 2 b) (field 3 b) (field 4 b) (field 5 b)
    (field 6 b) (field 7 b) (field 8 b) (field 9 b) (field 10 b) (field 11 b) (field 12 b).

Definition Header_from_bytes (b : bytes) : option Header :=
  if slice_len b <? HEADER_SIZE then None
  else
    let header := read_header b in
    if bool_decide (c_magic header = MAGIC) then Some header else None.

(** [(x + 3) & !3] *)
Definition align4 {S} (x : usize) : M S usize :=
  let! y := uadd x 3 in ret (Z.land y (not64 3)).

(** The [?] operator on an option in a function returning an option. *)
Definition bind_some {S A B} (o : option A) (k : A → M S (option B)) : M S (option B) :=
  match o with Some a => k a | None => ret None end.

Notation "'let??' x ':=' o 'in' k" := (bind_some o (λ x, k))
  (at level 10, x pattern, o at level 100, k at level 200) : dusk_scope.

(** ** The kernel's lookup *)

(** The loop of [find_file] from [offset] on, for at most [fuel] rounds; [Halt] stands for a
    loop that goes on. *)
Fixpoint find_file_from {S} (fuel : nat) (archive target : bytes) (offset : usize) :
    M S (option bytes) :=
  match fuel with
  | O => halt
  | Datatypes.S fuel =>
      let! end_ := uadd offset HEADER_SIZE in
      if negb (end_ <=? slice_len archive) then ret None
      else
        let! rest := slice archive offset (slice_len archive) in
        let?? header := Header_from_bytes rest in
        let header_start := offset in
        let offset := end_ in
        let?? file_len := from_str_radix_16 (c_filesize header) in
        let?? name_len := from_str_radix_16 (c_namesize header) in
        let! name_end := uadd offset name_len in
        if slice_len archive <? name_end then ret None
        else
          let! name_bytes := slice archive offset name_end in
          if negb (utf8_valid name_bytes) then ret None
          else
            let name := trim_end_nul name_bytes in
            if bool_decide (name = TRAILER) then ret None
            else
              let! header_len := uadd HEADER_SIZE name_len in
              let! padded := align4 header_len in
              let! data_start := uadd header_start padded in
              let! data_end := uadd data_start file_len in
              if slice_len archive <? data_end then ret None
              else if bool_decide (name = target) then
                let! data := slice archive data_start data_end in ret (Some data)
              else
                let! padded := align4 file_len in
                let! next := uadd data_start padded in
                find_file_from fuel archive target next
  end.

(** Every round moves on by more than the size of a header, so as many rounds as there are
    bytes are enough. *)
Definition find_file {S} (archive target : bytes) : M S (option bytes) :=
  find_file_from (Datatypes.S (length archive)) archive target 0.

(** ** The lookup of user space *)

(** [core::slice::from_raw_parts(archive.add(offset), len)] *)
Definition raw_slice (m : memory) (ptr : VirtualAddr) (len : usize) : bytes :=
  (λ i, load8 m (ptr + i)) <$> range 0 len.

(** The program reads through the pointer with [read]; what it finds is where the file lies and how
    long it is. *)
Fixpoint user_find_slice {S} (read : VirtualAddr → usize → M S bytes) (fuel : nat) (archive : VirtualAddr)
    (target : bytes) (offset : usize) : M S (option (VirtualAddr * usize)) :=
  match fuel with
  | O => halt
  | Datatypes.S fuel =>
      let! header := read (archive + offset) HEADER_SIZE in
      let?? header := Header_from_bytes header in
      let header_start := offset in
      let! offset := uadd offset HEADER_SIZE in
      let?? file_len := from_str_radix_16 (c_filesize header) in
      let?? name_len := from_str_radix_16 (c_namesize header) in
      let! name_bytes := read (archive + offset) name_len in
      if negb (utf8_valid name_bytes) then ret None
      else
        let name := trim_end_nul name_bytes in
        if bool_decide (name = TRAILER) then ret None
        else
          let! header_len := uadd HEADER_SIZE name_len in
          let! padded := align4 header_len in
          let! data_start := uadd header_start padded in
          if bool_decide (name = target) then ret (Some (archive + data_start, file_len))
          else
            let! padded := align4 file_len in
            let! next := uadd data_start padded in
            user_find_slice read fuel archive target next
  end.

(** The bytes that are found, in a memory that can be read everywhere. *)
Definition user_find_file_from {S} (fuel : nat) (m : memory) (archive : VirtualAddr) (target : bytes)
    (offset : usize) : M S (option bytes) :=
  let! found := user_find_slice (λ ptr len, ret (raw_slice m ptr len)) fuel archive target offset in
  ret ((λ f, raw_slice m f.1 f.2) <$> found).

(** * Lemmas *)

Lemma hex_digit_range b d : hex_digit b = Some d → 0 ≤ d < 16.
Proof.
  unfold hex_digit, in_byte.
  destruct (Z.leb_spec 48 b), (Z.leb_spec b 57), (Z.leb_spec 97 b), (Z.leb_spec b 102), (Z.leb_spec 65 b),
    (Z.leb_spec b 70); simpl; intros [= <-]; lia.
Qed.

Lemma hex_digits_bound b acc n :
  0 ≤ acc → hex_digits acc b = Some n → 0 ≤ n < (acc + 1) * 16 ^ slice_len b.
Proof.
  unfold slice_len. revert acc. induction b as [|x b IH]; intros acc H0; cbn [hex_digits length].
  { intros [= <-]. simpl. lia. }
  destruct (hex_digit x) as [d|] eqn:Ed; [|done]. apply hex_digit_range in Ed.
  destruct (_ <? _); [|done]. intros H%IH; [|lia].
  rewrite Nat2Z.inj_succ, Z.pow_succ_r by lia. pose proof (Z.pow_pos_nonneg 16 (Z.of_nat (length b))). nia.
Qed.

Lemma from_str_radix_bound b n : slice_len b ≤ 8 → from_str_radix_16 b = Some n → 0 ≤ n < 2 ^ 32.
Proof.
  intros Hl. change (2 ^ 32) with (16 ^ 8).
  assert (Hgen : ∀ c, slice_len c ≤ 8 → hex_digits 0 c = Some n → 0 ≤ n < 16 ^ 8).
  { intros c Hc H. apply hex_digits_bound in H; [|lia].
    pose proof (Z.pow_le_mono_r 16 (slice_len c) 8). lia. }
  destruct b as [|x rest]; simpl; [done|]. unfold slice_len in *. simpl in Hl.
  destruct (x =? 43); [|apply (Hgen (x :: rest)); simpl; lia].
  destruct rest; [done|]. apply Hgen. simpl in *. lia.
Qed.

Lemma align4_spec {S} x (s : S) :
  0 ≤ x → x + 3 < W64 → align4 x s = Done (x + (- x) mod 4, s).
Proof.
  intros H0 H. unfold align4. mstep uadd_lt. unfold ret. do 2 f_equal.
  change 3 with (2 ^ 2 - 1) at 2. rewrite land_not64_mask by (unfold is_u64, W64 in *; lia).
  change (2 ^ 2) with 4. dmlia.
Qed.

Lemma field_length i b : (length (field i b) ≤ 8)%nat.
Proof. unfold field. rewrite length_take. lia. Qed.

Lemma header_fields b h :
  Header_from_bytes b = Some h →
  slice_len (c_filesize h) ≤ 8 ∧ slice_len (c_namesize h) ≤ 8.
Proof.
  unfold Header_from_bytes. destruct (_ <? _); [done|]. case_bool_decide; [|done]. intros [= <-].
  unfold slice_len. simpl. pose proof (field_length 6 b). pose proof (field_length 11 b).
  unfold field in *. simpl in *. lia.
Qed.

(** The part of one round after the header has been read. *)
Definition round_rest {S} (fuel : nat) (archive target : bytes) (offset file_len name_len : usize) :
    M S (option bytes) :=
  let name := trim_end_nul (take (Z.to_nat name_len) (drop (Z.to_nat (offset + HEADER_SIZE)) archive)) in
  let data_start := offset + (HEADER_SIZE + name_len + (- (HEADER_SIZE + name_len)) mod 4) in
  if slice_len archive <? offset + HEADER_SIZE + name_len then ret None
  else if negb (utf8_valid (take (Z.to_nat name_len) (drop (Z.to_nat (offset + HEADER_SIZE)) archive)))
  then ret None
  else if bool_decide (name = TRAILER) then ret None
  else if slice_len archive <? data_start + file_len then ret None
  else if bool_decide (name = target) then
    ret (Some (take (Z.to_nat file_len) (drop (Z.to_nat data_start) archive)))
  else find_file_from fuel archive target (data_start + (file_len + (- file_len) mod 4)).

(** A round without its arithmetic checks. *)
Lemma find_file_round {S} fuel archive target offset (s : S) :
  slice_len archive < 2 ^ 63 → 0 ≤ offset →  offset < 2 ^ 63 + 2 ^ 34 →
  find_file_from (Datatypes.S fuel) archive target offset s =
  (if slice_len archive <? offset + HEADER_SIZE then Done (None, s)
   else match Header_from_bytes (drop (Z.to_nat offset) archive) with
        | None => Done (None, s)
        | Some h =>
            match from_str_radix_16 (c_filesize h), from_str_radix_16 (c_namesize h) with
            | Some file_len, Some name_len => round_rest fuel archive target offset file_len name_len s
            | _, _ => Done (None, s)
            end
        end).
Proof.
  intros Hl H0 H1. unfold HEADER_SIZE in *. simpl find_file_from. unfold HEADER_SIZE.
  erewrite bind_Done by (apply uadd_lt; unfold W64; lia). rewrite Z.leb_antisym, negb_involutive.
  destruct (Z.ltb_spec (slice_len archive) (offset + 110)) as [Hs|Hs]; [done|].
  rewrite (bind_Done _ _ _ _ _ (slice_Done archive offset (slice_len archive) s ltac:(lia) ltac:(lia))).
  replace (take _ (drop (Z.to_nat offset) archive)) with (drop (Z.to_nat offset) archive).
  2: { rewrite take_ge; [done|]. rewrite length_drop. unfold slice_len. lia. }
  destruct (Header_from_bytes _) as [h|] eqn:Eh; simpl; [|done].
  apply header_fields in Eh as [Hf Hn].
  destruct (from_str_radix_16 (c_filesize h)) as [fl|] eqn:Ef; simpl; [|done].
  destruct (from_str_radix_16 (c_namesize h)) as [nl|] eqn:En; simpl; [|done].
  apply from_str_radix_bound in Ef, En; [|done|done]. change (2 ^ 32) with 4294967296 in *.
  change (2 ^ 63) with 9223372036854775808 in *. change (2 ^ 34) with 17179869184 in *.
  unfold round_rest, HEADER_SIZE. erewrite bind_Done by (apply uadd_lt; unfold W64; lia).
  destruct (Z.ltb_spec (slice_len archive) (offset + 110 + nl)) as [Hb|Hb]; [done|].
  rewrite (bind_Done _ _ _ _ _ (slice_Done archive (offset + 110) (offset + 110 + nl) s ltac:(lia) ltac:(lia))).
  replace (offset + 110 + nl - (offset + 110)) with nl by lia.
  destruct (negb (utf8_valid _)); [done|]. case_bool_decide; [done|].
  erewrite bind_Done by (apply uadd_lt; unfold W64; lia).
  erewrite bind_Done by (apply align4_spec; unfold W64; lia).
  assert (0 ≤ (- (110 + nl)) mod 4 < 4) by (by apply Z.mod_pos_bound).
  assert (0 ≤ (- fl) mod 4 < 4) by (by apply Z.mod_pos_bound).
  do 2 erewrite bind_Done by (apply uadd_lt; unfold W64; lia).
  set (ds := offset + (110 + nl + (- (110 + nl)) mod 4)) in *.
  destruct (Z.ltb_spec (slice_len archive) (ds + fl)) as [Hd|Hd]; [done|]. case_bool_decide.
  - rewrite (bind_Done _ _ _ _ _ (slice_Done archive ds (ds + fl) s ltac:(lia) ltac:(lia))).
    by replace (ds + fl - ds) with fl by lia.
  - erewrite bind_Done by (apply align4_spec; unfold W64; lia).
    by erewrite bind_Done by (apply uadd_lt; unfold W64; lia).
Qed.

(** Enough rounds always give an answer, and a file found is a part of the archive. *)
Lemma find_file_from_total {S} fuel archive target offset (s : S) :
  slice_len archive < 2 ^ 63 → 0 ≤ offset ≤ slice_len archive + 3 →
  Z.max 0 (slice_len archive - offset) < Z.of_nat fuel →
  ∃ r, find_file_from fuel archive target offset s = Done (r, s) ∧
    ∀ data, r = Some data → ∃ pre post, archive = pre ++ data ++ post.
Proof.
  intros Hl. revert offset. induction fuel as [|fuel IH]; intros offset Ho Hf; [lia|].
  rewrite find_file_round by lia. unfold round_rest, HEADER_SIZE.
  destruct (Z.ltb_spec (slice_len archive) (offset + 110)); [by eexists|].
  destruct (Header_from_bytes _) as [h|] eqn:Eh; [|by eexists]. apply header_fields in Eh as [Hfs Hns].
  destruct (from_str_radix_16 (c_filesize h)) as [fl|] eqn:Ef; [|by eexists].
  destruct (from_str_radix_16 (c_namesize h)) as [nl|] eqn:En; [|by eexists].
  apply from_str_radix_bound in Ef, En; [|done|done].
  destruct (Z.ltb_spec (slice_len archive) (offset + 110 + nl)); [by eexists|].
  destruct (negb _); [by eexists|]. case_bool_decide; [by eexists|].
  assert (0 ≤ (- (110 + nl)) mod 4 < 4) by (by apply Z.mod_pos_bound).
  assert (0 ≤ (- fl) mod 4 < 4) by (by apply Z.mod_pos_bound).
  set (ds := offset + (110 + nl + (- (110 + nl)) mod 4)) in *.
  destruct (Z.ltb_spec (slice_len archive) (ds + fl)); [by eexists|]. case_bool_decide.
  - eexists. split; [done|]. intros data [= <-]. apply slice_sub. unfold slice_len in *. lia.
  - apply IH; lia.
Qed.

(** ** Writing archives *)

Definition hex_char (d : Z) : Z := if d <? 10 then 48 + d else 87 + d.

(** [n] in [k] hexadecimal digits. *)
Fixpoint hex_of (k : nat) (n : Z) : bytes :=
  match k with
  | O => []
  | S k => hex_char (n / 16 ^ Z.of_nat k mod 16) :: hex_of k n
  end.

Lemma hex_char_digit d : 0 ≤ d < 16 → hex_digit (hex_char d) = Some d.
Proof.
  intros Hd. assert (d ∈ range 0 16) as Hin by (by apply elem_of_range).
  revert Hin. apply (Forall_forall (λ d, hex_digit (hex_char d) = Some d)).
  repeat (apply Forall_cons; split; [reflexivity|]). by apply Forall_nil.
Qed.

Lemma length_hex_of k n : length (hex_of k n) = k.
Proof. induction k; simpl; by f_equal. Qed.

Lemma hex_of_parse k acc n :
  0 ≤ acc → 0 ≤ n → (acc + 1) * 16 ^ Z.of_nat k ≤ W64 →
  hex_digits acc (hex_of k n) = Some (acc * 16 ^ Z.of_nat k + n mod 16 ^ Z.of_nat k).
Proof.
  revert acc. induction k as [|k IH]; intros acc H0 Hn Hb.
  { simpl. rewrite Z.mod_1_r. f_equal. lia. }
  rewrite Nat2Z.inj_succ, Z.pow_succ_r in * by lia. cbn [hex_of hex_digits].
  set (P := 16 ^ Z.of_nat k) in *. assert (0 < P) by (apply Z.pow_pos_nonneg; lia).
  pose proof (Z.mod_pos_bound (n / P) 16 ltac:(lia)) as Hd. rewrite hex_char_digit by done.
  rewrite (proj2 (Z.ltb_lt _ _)) by nia. rewrite IH by nia. f_equal.
  rewrite (Z.mul_comm 16 P), Z.rem_mul_r by lia. lia.
Qed.

Lemma hex8_parse n : 0 ≤ n < 2 ^ 32 → from_str_radix_16 (hex_of 8 n) = Some n.
Proof.
  intros Hn. assert (Hh : hex_digits 0 (hex_of 8 n) = Some n).
  { rewrite hex_of_parse by (unfold W64; lia). f_equal. rewrite Z.mod_small; [lia|]. exact Hn. }
  unfold from_str_radix_16. destruct (hex_of 8 n) as [|x rest] eqn:E; [done|].
  destruct (Z.eqb_spec x 43) as [->|]; [|done]. exfalso.
  cbn [hex_of] in E. injection E as E _. unfold hex_char in E.
  pose proof (Z.mod_pos_bound (n / 16 ^ Z.of_nat 7) 16 ltac:(lia)).
  destruct (_ <? 10); lia.
Qed.

Lemma utf8_valid_app a b : utf8_valid a = true → utf8_valid (a ++ b) = utf8_valid b.
Proof.
  remember (length a) as n eqn:Hn. revert a Hn. induction (lt_wf n) as [n _ IH]. intros a -> Ha.
  destruct a as [|b1 r1]; [done|]. simpl in *.
  destruct (in_byte 0x00 0x7F b1); [apply (IH (length r1)); [lia|done|done]|].
  destruct r1 as [|b2 r2]; [done|]. simpl in *. destruct (in_byte 0xC2 0xDF b1).
  { apply andb_true_iff in Ha as [-> Ha]. apply (IH (length r2)); [lia|done|done]. }
  destruct r2 as [|b3 r3]; [done|]. simpl in *. destruct (in_byte 0xE0 0xEF b1).
  { apply andb_true_iff in Ha as [H12 Ha]. rewrite H12. apply (IH (length r3)); [lia|done|done]. }
  destruct r3 as [|b4 r4]; [done|]. simpl in *.
  apply andb_true_iff in Ha as [H1234 Ha]. rewrite H1234. apply (IH (length r4)); [lia|done|done].
Qed.

Lemma trim_end_nul_snoc a : trim_end_nul (a ++ [0]) = trim_end_nul a.
Proof. induction a as [|x a IH]; simpl; [done|]. by rewrite IH. Qed.

(** A file of an archive; [f_meta] has the fields of the header that the lookup ignores. *)
Record File := mkFile { f_name : bytes; f_data : bytes; f_meta : list bytes }.

Definition pad4 (n : Z) : bytes := replicate (Z.to_nat ((- n) mod 4)) 0.

Definition header_fields_of (name_size file_size : Z) (meta : list bytes) : list bytes :=
  <[11%nat := hex_of 8 name_size]> (<[6%nat := hex_of 8 file_size]> meta).

(** A header, the name with its terminator, and the data, both padded to four bytes. *)
Definition encode_entry (name data : bytes) (meta : list bytes) : bytes :=
  let name_size := slice_len name + 1 in
  MAGIC ++ mjoin (header_fields_of name_size (slice_len data) meta) ++
  name ++ [0] ++ pad4 (HEADER_SIZE + name_size) ++ data ++ pad4 (slice_len data).

Definition encode_file (f : File) : bytes := encode_entry (f_name f) (f_data f) (f_meta f).

Definition encode_archive (files : list File) (trailer_meta : list bytes) : bytes :=
  (files ≫= encode_file) ++ encode_entry TRAILER [] trailer_meta.

Definition meta_ok (meta : list bytes) : Prop :=
  length meta = 13%nat ∧ Forall (λ f, length f = 8%nat) meta.

Record file_ok (f : File) : Prop := {
  fo_utf8 : utf8_valid (f_name f) = true;
  fo_name : trim_end_nul (f_name f) = f_name f;
  fo_trailer : f_name f ≠ TRAILER;
  fo_size : slice_len (f_name f) + 1 < 2 ^ 32 ∧ slice_len (f_data f) < 2 ^ 32;
  fo_meta : meta_ok (f_meta f);
}.

(** The file the archive has under a name: the first one. *)
Fixpoint lookup_file (target : bytes) (files : list File) : option bytes :=
  match files with
  | [] => None
  | f :: files => if bool_decide (f_name f = target) then Some (f_data f) else lookup_file target files
  end.

Lemma length_fields fs : Forall (λ f : bytes, length f = 8%nat) fs → length (mjoin fs) = (8 * length fs)%nat.
Proof. induction 1 as [|f fs Hf _ IH]; simpl; [done|]. rewrite length_app. lia. Qed.

Lemma lookup_field fs i f rest :
  Forall (λ f : bytes, length f = 8%nat) fs → fs !! i = Some f → field i (MAGIC ++ mjoin fs ++ rest) = f.
Proof.
  intros Hfs Hi. unfold field. rewrite (drop_app_add MAGIC). revert i Hi.
  induction Hfs as [|g fs Hg _ IH]; intros i Hi; [done|].
  change (mjoin (g :: fs)) with (g ++ mjoin fs). rewrite <- app_assoc. destruct i as [|i].
  - injection Hi as ->. rewrite Nat.mul_0_r, drop_0. by apply take_app_length'.
  - replace (8 * S i)%nat with (length g + 8 * i)%nat by lia. rewrite drop_app_add.
    by apply IH.
Qed.

Lemma header_fields_ok ns fs meta :
  meta_ok meta → Forall (λ f : bytes, length f = 8%nat) (header_fields_of ns fs meta) ∧
  length (header_fields_of ns fs meta) = 13%nat ∧
  header_fields_of ns fs meta !! 6%nat = Some (hex_of 8 fs) ∧
  header_fields_of ns fs meta !! 11%nat = Some (hex_of 8 ns).
Proof.
  intros [Hl Hf]. unfold header_fields_of. split_and!.
  - apply Forall_insert; [apply Forall_insert; [done|]|]; apply length_hex_of.
  - by rewrite !length_insert.
  - rewrite list_lookup_insert_ne by done. apply list_lookup_insert_eq. lia.
  - apply list_lookup_insert_eq. rewrite length_insert. lia.
Qed.

Section entry.
Context (name data : bytes) (meta : list bytes) (pre post : bytes).
Context (Hmeta : meta_ok meta) (Hutf : utf8_valid name = true).
Context (Hns : slice_len name + 1 < 2 ^ 32) (Hds : slice_len data < 2 ^ 32).
Abbreviation ns := (slice_len name + 1).
Abbreviation archive := (pre ++ encode_entry name data meta ++ post).
Abbreviation off := (slice_len pre).
Abbreviation hdr := (MAGIC ++ mjoin (header_fields_of ns (slice_len data) meta)).

Lemma entry_split :
  archive = pre ++ hdr ++ (name ++ [0]) ++ pad4 (HEADER_SIZE + ns) ++ data ++ pad4 (slice_len data) ++ post.
Proof. unfold encode_entry. by rewrite <- !app_assoc. Qed.

Lemma header_length : length hdr = 110%nat.
Proof.
  destruct (header_fields_ok ns (slice_len data) meta Hmeta) as (Hf & Hl & _).
  rewrite length_app, (length_fields _ Hf), Hl. done.
Qed.

Definition entry_length : Z :=
  HEADER_SIZE + ns + (- (HEADER_SIZE + ns)) mod 4 + (slice_len data + (- slice_len data) mod 4).

Lemma length_encode_entry : slice_len (encode_entry name data meta) = entry_length.
Proof.
  pose proof header_length as Hh. unfold encode_entry, entry_length, slice_len, HEADER_SIZE, pad4 in *.
  rewrite !length_app in *. rewrite !length_replicate. simpl.
  pose proof (Z.mod_pos_bound (- (110 + (Z.of_nat (length name) + 1))) 4 ltac:(lia)).
  pose proof (Z.mod_pos_bound (- Z.of_nat (length data)) 4 ltac:(lia)). simpl in Hh. lia.
Qed.

Lemma entry_bounds :
  0 ≤ off ∧ 0 ≤ slice_len post ∧ 0 ≤ slice_len name ∧ 0 ≤ slice_len data ∧
  0 ≤ (- (HEADER_SIZE + ns)) mod 4 < 4 ∧ 0 ≤ (- slice_len data) mod 4 < 4 ∧
  slice_len archive = off + entry_length + slice_len post.
Proof.
  rewrite <- length_encode_entry. unfold slice_len. rewrite !length_app.
  split_and!; try lia; by apply Z.mod_pos_bound.
Qed.

Lemma entry_drop :
  drop (Z.to_nat off) archive =
  hdr ++ (name ++ [0]) ++ pad4 (HEADER_SIZE + ns) ++ data ++ pad4 (slice_len data) ++ post.
Proof. rewrite entry_split. apply drop_app_length'. unfold slice_len. lia. Qed.

Lemma entry_header :
  ∃ h, Header_from_bytes (drop (Z.to_nat off) archive) = Some h ∧
    from_str_radix_16 (c_filesize h) = Some (slice_len data) ∧
    from_str_radix_16 (c_namesize h) = Some ns.
Proof.
  destruct (header_fields_ok ns (slice_len data) meta Hmeta) as (Hf & _ & H6 & H11).
  rewrite entry_drop. unfold Header_from_bytes.
  rewrite (proj2 (Z.ltb_ge _ _))
    by (unfold slice_len at 1; rewrite (length_app hdr), header_length; unfold HEADER_SIZE; lia).
  rewrite bool_decide_true by done. eexists. split; [done|]. cbn [read_header c_filesize c_namesize].
  rewrite <- app_assoc, (lookup_field _ 6 _ _ Hf H6), (lookup_field _ 11 _ _ Hf H11).
  rewrite !hex8_parse by (unfold slice_len in *; lia). done.
Qed.

Lemma entry_name :
  take (Z.to_nat ns) (drop (Z.to_nat (off + HEADER_SIZE)) archive) = name ++ [0].
Proof.
  destruct entry_bounds as (H0 & _).
  rewrite (Z2Nat.inj_add (slice_len pre)) by (unfold HEADER_SIZE; lia). rewrite <- drop_drop, entry_drop.
  rewrite drop_app_length' by (rewrite header_length; done).
  apply take_app_length'. rewrite length_app. unfold slice_len. simpl. lia.
Qed.

Lemma entry_data :
  take (Z.to_nat (slice_len data))
    (drop (Z.to_nat (off + (HEADER_SIZE + ns + (- (HEADER_SIZE + ns)) mod 4))) archive) = data.
Proof.
  destruct entry_bounds as (H0 & _ & Hn & _ & Hm & _).
  rewrite (Z2Nat.inj_add (slice_len pre)) by (unfold HEADER_SIZE in *; lia). rewrite <- drop_drop, entry_drop.
  rewrite (app_assoc hdr), (app_assoc (hdr ++ _)), drop_app_length'.
  - apply take_app_length'. unfold slice_len. lia.
  - rewrite !(length_app (hdr ++ _)), (length_app hdr), header_length, length_app. unfold pad4.
    rewrite length_replicate. unfold slice_len, HEADER_SIZE in *. simpl. lia.
Qed.

(** One round over an entry that was written. *)
Lemma find_file_entry {S} fuel target (s : S) :
  slice_len archive < 2 ^ 63 →
  find_file_from (Datatypes.S fuel) archive target off s =
  (if bool_decide (trim_end_nul name = TRAILER) then Done (None, s)
   else if bool_decide (trim_end_nul name = target) then Done (Some data, s)
   else find_file_from fuel archive target (off + entry_length) s).
Proof.
  intros Hl. destruct entry_bounds as (H0 & Hp & Hn & Hd & Hm1 & Hm2 & Hlen).
  rewrite find_file_round by (unfold entry_length, HEADER_SIZE in *; lia).
  rewrite (proj2 (Z.ltb_ge _ _)) by (unfold entry_length, HEADER_SIZE in *; lia).
  destruct entry_header as (h & -> & -> & ->). unfold round_rest. rewrite entry_name, entry_data.
  rewrite (proj2 (Z.ltb_ge _ _)) by (unfold entry_length, HEADER_SIZE in *; lia).
  rewrite utf8_valid_app by done. change (negb (utf8_valid [0])) with false. cbn iota.
  rewrite trim_end_nul_snoc. case_bool_decide; [done|].
  rewrite (proj2 (Z.ltb_ge _ _)) by (unfold entry_length, HEADER_SIZE in *; lia).
  case_bool_decide; [done|]. f_equal. unfold entry_length. lia.
Qed.

End entry.

(** Reading on from the end of the files before. *)
Lemma find_file_files {S} files trailer_meta before fuel target (s : S) :
  Forall file_ok files → meta_ok trailer_meta →
  slice_len (before ++ encode_archive files trailer_meta) < 2 ^ 63 → (length files < fuel)%nat →
  find_file_from fuel (before ++ encode_archive files trailer_meta) target (slice_len before) s =
  Done (lookup_file target files, s).
Proof.
  intros Hfiles Htm. unfold encode_archive. revert before fuel.
  induction Hfiles as [|f files Hf _ IH]; intros before fuel Hl Hfuel; (destruct fuel as [|fuel]; [lia|]).
  - cbn [mbind list_bind app] in *. pose proof (find_file_entry TRAILER [] trailer_meta before []) as E.
    rewrite app_nil_r in E. by rewrite E.
  - change ((f :: files) ≫= encode_file) with (encode_file f ++ (files ≫= encode_file)) in *.
    rewrite <- app_assoc in *. unfold encode_file at 1 in Hl. unfold encode_file at 1.
    destruct Hf as [Hu Hn Ht [Hs1 Hs2] Hm].
    rewrite (find_file_entry (f_name f) (f_data f) (f_meta f) before) by done.
    rewrite Hn, (bool_decide_false (f_name f = TRAILER)) by done. simpl lookup_file.
    case_bool_decide; [done|].
    assert (Eo : slice_len before + entry_length (f_name f) (f_data f) =
      slice_len (before ++ encode_file f)).
    { rewrite <- (length_encode_entry (f_name f) (f_data f) (f_meta f) Hm). unfold slice_len.
      rewrite length_app, Nat2Z.inj_add. done. }
    rewrite Eo, app_assoc. apply (IH (before ++ encode_file f)); [|simpl in Hfuel; lia].
    by rewrite <- app_assoc.
Qed.

(** ** The user-space lookup against the kernel's *)

(** The archive is in memory at [base]. *)
Definition stored (m : memory) (base : VirtualAddr) (archive : bytes) : Prop :=
  ∀ i b, archive !! i = Some b → load8 m (base + Z.of_nat i) = b.

Lemma raw_slice_stored m base archive off n :
  stored m base archive → 0 ≤ off → 0 ≤ n → off + n ≤ slice_len archive →
  raw_slice m (base + off) n = take (Z.to_nat n) (drop (Z.to_nat off) archive).
Proof.
  intros Hst Ho Hn Hl. unfold slice_len in Hl. apply list_eq. intros i. unfold raw_slice, range.
  rewrite list_lookup_fmap. destruct (decide (Z.of_nat i < n)) as [Hi|Hi].
  - rewrite lookup_seqZ_lt by lia. rewrite lookup_take_lt by lia. rewrite lookup_drop.
    destruct (lookup_lt_is_Some_2 archive (Z.to_nat off + i)) as [b Hb]; [lia|]. rewrite Hb. simpl.
    rewrite <- (Hst _ _ Hb). do 2 f_equal. lia.
  - rewrite lookup_seqZ_ge by lia. rewrite lookup_take_ge by lia. done.
Qed.

Lemma header_prefix b :
  HEADER_SIZE ≤ slice_len b → Header_from_bytes (take (Z.to_nat HEADER_SIZE) b) = Header_from_bytes b.
Proof.
  intros Hl. unfold Header_from_bytes.
  rewrite !(proj2 (Z.ltb_ge _ _)) by (unfold slice_len, HEADER_SIZE in *; rewrite ?length_take; lia).
  replace (read_header (take (Z.to_nat HEADER_SIZE) b)) with (read_header b); [done|].
  unfold read_header, field, HEADER_SIZE.
  rewrite !skipn_firstn_comm, !take_take. done.
Qed.

Section user_lookup.
Context (m : memory) (base : VirtualAddr) (archive target : bytes).
Context (Hst : stored m base archive) (Hlen : slice_len archive < 2 ^ 63).

(** A round of the user-space lookup over an entry that lies in the archive does what a round
    of the kernel's does. *)
Lemma user_find_slice_round {S} fuel offset h fl nl (s : S) :
  let name := trim_end_nul (take (Z.to_nat nl) (drop (Z.to_nat (offset + HEADER_SIZE)) archive)) in
  let data_start := offset + (HEADER_SIZE + nl + (- (HEADER_SIZE + nl)) mod 4) in
  let read ptr len : M S bytes := ret (raw_slice m ptr len) in
  0 ≤ offset → offset + HEADER_SIZE + nl ≤ slice_len archive →
  Header_from_bytes (drop (Z.to_nat offset) archive) = Some h →
  from_str_radix_16 (c_filesize h) = Some fl → from_str_radix_16 (c_namesize h) = Some nl →
  data_start + fl ≤ slice_len archive →
  user_find_slice read (Datatypes.S fuel) base target offset s =
  (if negb (utf8_valid (take (Z.to_nat nl) (drop (Z.to_nat (offset + HEADER_SIZE)) archive)))
   then Done (None, s)
   else if bool_decide (name = TRAILER) then Done (None, s)
   else if bool_decide (name = target) then Done (Some (base + data_start, fl), s)
   else user_find_slice read fuel base target (data_start + (fl + (- fl) mod 4)) s).
Proof.
  intros name ds read H0 Hb Eh Ef En Hd. destruct (header_fields _ _ Eh) as [Hfs Hns].
  pose proof (from_str_radix_bound _ _ Hfs Ef) as Hf. pose proof (from_str_radix_bound _ _ Hns En) as Hn.
  assert (Hm1 : 0 ≤ (- (110 + nl)) mod 4 < 4) by (by apply Z.mod_pos_bound).
  assert (Hm2 : 0 ≤ (- fl) mod 4 < 4) by (by apply Z.mod_pos_bound).
  subst name ds read. unfold HEADER_SIZE in Hb, Hd. cbn [user_find_slice]. mred.
  rewrite (raw_slice_stored m base archive offset) by (done || (unfold HEADER_SIZE; lia)).
  rewrite header_prefix by (unfold slice_len, HEADER_SIZE in *; rewrite length_drop; lia).
  rewrite Eh. cbn [bind_some]. unfold HEADER_SIZE in *. mstep uadd_lt. rewrite Ef, En. cbn [bind_some]. mred.
  rewrite (raw_slice_stored m base archive (offset + 110)) by (done || lia).
  destruct (negb _); [done|]. case_bool_decide; [done|].
  erewrite bind_Done by (apply uadd_lt; unfold W64; lia).
  erewrite bind_Done by (apply align4_spec; unfold W64; lia).
  erewrite bind_Done by (apply uadd_lt; unfold W64; lia). case_bool_decide; [done|].
  erewrite bind_Done by (apply align4_spec; unfold W64; lia).
  by erewrite bind_Done by (apply uadd_lt; unfold W64; lia).
Qed.

Lemma user_find_file_round {S} fuel offset h fl nl (s : S) :
  let name := trim_end_nul (take (Z.to_nat nl) (drop (Z.to_nat (offset + HEADER_SIZE)) archive)) in
  let data_start := offset + (HEADER_SIZE + nl + (- (HEADER_SIZE + nl)) mod 4) in
  0 ≤ offset → offset + HEADER_SIZE + nl ≤ slice_len archive →
  Header_from_bytes (drop (Z.to_nat offset) archive) = Some h →
  from_str_radix_16 (c_filesize h) = Some fl → from_str_radix_16 (c_namesize h) = Some nl →
  data_start + fl ≤ slice_len archive →
  user_find_file_from (Datatypes.S fuel) m base target offset s =
  (if negb (utf8_valid (take (Z.to_nat nl) (drop (Z.to_nat (offset + HEADER_SIZE)) archive)))
   then Done (None, s)
   else if bool_decide (name = TRAILER) then Done (None, s)
   else if bool_decide (name = target) then
     Done (Some (take (Z.to_nat fl) (drop (Z.to_nat data_start) archive)), s)
   else user_find_file_from fuel m base target (data_start + (fl + (- fl) mod 4)) s).
Proof.
  intros name ds H0 Hb Eh Ef En Hd. destruct (header_fields _ _ Eh) as [Hfs Hns].
  pose proof (from_str_radix_bound _ _ Hfs Ef) as Hf. pose proof (from_str_radix_bound _ _ Hns En) as Hn.
  pose proof (Z.mod_pos_bound (- (HEADER_SIZE + nl)) 4 ltac:(lia)) as Hm1.
  unfold user_find_file_from, bind. rewrite (user_find_slice_round fuel offset h fl nl s) by done.
  fold name ds. destruct (negb _); [done|]. case_bool_decide; [done|]. case_bool_decide; [|done].
  unfold ret. cbn [fmap option_fmap option_map fst snd].
  rewrite (raw_slice_stored m base archive) by (done || (unfold ds, HEADER_SIZE in *; lia)). done.
Qed.

(** What the kernel finds, the user-space lookup finds. *)
Lemma user_find_file_some {S} fuel offset data (s : S) :
  0 ≤ offset ≤ slice_len archive + 3 →
  find_file_from fuel archive target offset s = Done (Some data, s) →
  user_find_file_from fuel m base target offset s = Done (Some data, s).
Proof.
  revert offset. induction fuel as [|fuel IH]; intros offset Ho; [done|].
  rewrite find_file_round by lia. unfold round_rest.
  destruct (Z.ltb_spec (slice_len archive) (offset + HEADER_SIZE)); [done|].
  destruct (Header_from_bytes _) as [h|] eqn:Eh; [|done]. destruct (header_fields _ _ Eh) as [Hfs Hns].
  destruct (from_str_radix_16 (c_filesize h)) as [fl|] eqn:Ef; [|done].
  destruct (from_str_radix_16 (c_namesize h)) as [nl|] eqn:En; [|done].
  pose proof (from_str_radix_bound _ _ Hfs Ef). pose proof (from_str_radix_bound _ _ Hns En).
  destruct (Z.ltb_spec (slice_len archive) (offset + HEADER_SIZE + nl)); [done|].
  destruct (utf8_valid _) eqn:Eu; [|done]. cbn [negb]. case_bool_decide as Ht; [done|].
  destruct (Z.ltb_spec (slice_len archive)
    (offset + (HEADER_SIZE + nl + (- (HEADER_SIZE + nl)) mod 4) + fl)); [done|].
  rewrite (user_find_file_round _ _ h fl nl) by (done || lia).
  rewrite Eu, (bool_decide_false _ Ht). cbn [negb]. case_bool_decide; [done|]. apply IH.
  pose proof (Z.mod_pos_bound (- (HEADER_SIZE + nl)) 4 ltac:(lia)).
  pose proof (Z.mod_pos_bound (- fl) 4 ltac:(lia)). unfold HEADER_SIZE in *. lia.
Qed.

End user_lookup.

Lemma user_find_file_entry {S} m base name data meta pre post fuel target (s : S) :
  meta_ok meta → utf8_valid name = true → slice_len name + 1 < 2 ^ 32 → slice_len data < 2 ^ 32 →
  let archive := pre ++ encode_entry name data meta ++ post in
  stored m base archive → slice_len archive < 2 ^ 63 →
  user_find_file_from (Datatypes.S fuel) m base target (slice_len pre) s =
  (if bool_decide (trim_end_nul name = TRAILER) then Done (None, s)
   else if bool_decide (trim_end_nul name = target) then Done (Some data, s)
   else user_find_file_from fuel m base target (slice_len pre + entry_length name data) s).
Proof.
  intros Hm Hu Hns Hds archive Hst Hl.
  destruct (entry_bounds name data meta pre post Hm) as (H0 & Hp & Hn & Hd & Hm1 & Hm2 & Hlen).
  destruct (entry_header name data meta pre post Hm Hns Hds) as (h & Eh & Ef & En).
  fold archive in Hlen, Eh. unfold entry_length in *.
  rewrite (user_find_file_round m base archive target Hst Hl fuel _ h (slice_len data) (slice_len name + 1) s)
    by (done || (unfold HEADER_SIZE in *; lia)).
  unfold archive. rewrite (entry_name name data meta pre post Hm), (entry_data name data meta pre post Hm).
  rewrite utf8_valid_app by done. change (negb (utf8_valid [0])) with false. cbn iota.
  rewrite trim_end_nul_snoc. case_bool_decide; [done|]. case_bool_decide; [done|]. f_equal. lia.
Qed.

(** The user-space lookup over the files that follow [before]. *)
Lemma user_find_file_files {S} m base files trailer_meta before fuel target (s : S) :
  Forall file_ok files → meta_ok trailer_meta →
  stored m base (before ++ encode_archive files trailer_meta) →
  slice_len (before ++ encode_archive files trailer_meta) < 2 ^ 63 → (length files < fuel)%nat →
  user_find_file_from fuel m base target (slice_len before) s = Done (lookup_file target files, s).
Proof.
  intros Hfiles Htm. unfold encode_archive. revert before fuel.
  induction Hfiles as [|f files Hf _ IH]; intros before fuel Hst Hl Hfuel; (destruct fuel as [|fuel]; [lia|]).
  - cbn [mbind list_bind app] in *. rewrite <- (app_nil_r (encode_entry TRAILER [] trailer_meta)) in Hst, Hl.
    by rewrite (user_find_file_entry m base TRAILER [] trailer_meta before []).
  - change ((f :: files) ≫= encode_file) with (encode_file f ++ (files ≫= encode_file)) in *.
    rewrite <- app_assoc in *. unfold encode_file at 1 in Hl. unfold encode_file at 1 in Hst. destruct Hf as [Hu Hn Ht [Hs1 Hs2] Hm].
    rewrite (user_find_file_entry m base (f_name f) (f_data f) (f_meta f) before _ fuel target s Hm Hu Hs1 Hs2 Hst Hl).
    rewrite Hn, (bool_decide_false (f_name f = TRAILER)) by done. simpl lookup_file.
    case_bool_decide; [done|].
    assert (Eo : slice_len before + entry_length (f_name f) (f_data f) =
      slice_len (before ++ encode_file f)).
    { rewrite <- (length_encode_entry (f_name f) (f_data f) (f_meta f) Hm). unfold slice_len.
      rewrite length_app, Nat2Z.inj_add. done. }
    rewrite Eo. apply (IH (before ++ encode_file f)); [| |simpl in Hfuel; lia]; by rewrite <- app_assoc.
Qed.

Lemma archive_rounds files trailer_meta :
  Forall file_ok files → (length files < Datatypes.S (length (encode_archive files trailer_meta)))%nat.
Proof.
  intros Hfiles. unfold encode_archive. rewrite length_app.
  enough (length files ≤ length (files ≫= encode_file))%nat by lia.
  induction Hfiles as [|f files Hf _ IH]; [done|].
  change ((f :: files) ≫= encode_file) with (encode_file f ++ (files ≫= encode_file)).
  rewrite length_app. unfold encode_file at 1, encode_entry. rewrite length_app. simpl length at 1 2. lia.
Qed.

(** * Theorems *)

(** C23: The kernel's lookup answers on every archive, however malformed: no slice index is out of
    range, no addition overflows, the loop ends within one round per byte, and what is found is a
    contiguous part of the archive.  (No slice is longer than [isize::MAX].) *)
Theorem find_file_total {S} (archive target : bytes) (s : S) :
  slice_len archive < 2 ^ 63 →
  ∃ r, find_file archive target s = Done (r, s) ∧
    ∀ data, r = Some data → ∃ pre post, archive = pre ++ data ++ post.
Proof.
  intros Hl. apply find_file_from_total; [done| |]; unfold slice_len; lia.
Qed.

(** C24: In an archive written in the newc format the kernel's lookup finds the data of the first file
    of that name, byte for byte, and nothing if there is none.  The archive ends with its trailer: the
    padding to a block that some writers add is not covered. *)
Theorem find_file_roundtrip {S} (files : list File) (trailer_meta : list bytes) (target : bytes) (s : S) :
  Forall file_ok files → meta_ok trailer_meta → slice_len (encode_archive files trailer_meta) < 2 ^ 63 →
  find_file (encode_archive files trailer_meta) target s = Done (lookup_file target files, s).
Proof.
  intros Hfiles Htm Hl. apply (find_file_files files trailer_meta []); [done..|].
  by apply archive_rounds.
Qed.

(** C25: The user-space lookup, which checks no bounds, agrees with the kernel's where it matters: over
    an archive in memory it finds every file the kernel finds, with the same bytes, and over an
    archive written in the newc format it gives the kernel's answer for every name. *)
Theorem user_find_file_agrees {S} (m : memory) (base : VirtualAddr) (archive target : bytes) (s : S) :
  stored m base archive → slice_len archive < 2 ^ 63 →
  let user := user_find_file_from (Datatypes.S (length archive)) m base target 0 s in
  (∀ data, find_file archive target s = Done (Some data, s) → user = Done (Some data, s)) ∧
  (∀ files trailer_meta, archive = encode_archive files trailer_meta → Forall file_ok files →
     meta_ok trailer_meta → user = find_file archive target s).
Proof.
  intros Hst Hl user. split.
  - intros data. apply user_find_file_some; [done|done|]. unfold slice_len. lia.
  - intros files tm -> Hfiles Htm. unfold user, find_file.
    rewrite (find_file_files files tm []) by (done || by apply archive_rounds).
    apply (user_find_file_files m base files tm []); [done..|]. by apply archive_rounds.
Qed.

(** ** A concrete archive *)

Definition demo_meta : list bytes := replicate 13 (replicate 8 48).
Definition demo_files : list File :=
  [mkFile [97] [1; 2; 3] demo_meta; mkFile [98; 47; 99] [255; 0; 7; 9; 11] demo_meta].
Definition demo_archive : bytes := encode_archive demo_files demo_meta.

Lemma demo_meta_ok : meta_ok demo_meta.
Proof. split; [done|]. by apply Forall_replicate. Qed.

Lemma demo_files_ok : Forall file_ok demo_files.
Proof.
  repeat (apply Forall_cons; split); [| |by apply Forall_nil];
    (split; [done|done|done|split; vm_compute; reflexivity|exact demo_meta_ok]).
Qed.

Lemma demo_archive_length : slice_len demo_archive < 2 ^ 63.
Proof. vm_compute. reflexivity. Qed.

Definition demo_memory : memory := λ a, default 0 (demo_archive !! Z.to_nat (a - 0x40000000)).

Lemma demo_stored : stored demo_memory 0x40000000 demo_archive.
Proof.
  intros i b Hb. unfold load8, demo_memory. replace (Z.to_nat _) with i by lia. rewrite Hb. simpl.
  assert (Hf : Forall (λ b, b mod 256 = b) demo_archive).
  { repeat (apply Forall_cons; split; [reflexivity|]). apply Forall_nil. done. }
  by apply (Forall_lookup_1 _ _ _ _ Hf Hb).
Qed.

Lemma find_file_total_witness :
  ∃ r, find_file (take 200 demo_archive) [98; 47; 99] () = Done (r, ()) ∧
    ∀ data, r = Some data → ∃ pre post, take 200 demo_archive = pre ++ data ++ post.
Proof. apply (find_file_total (take 200 demo_archive)). vm_compute. reflexivity. Defined.

Lemma find_file_roundtrip_witness :
  find_file demo_archive [98; 47; 99] () = Done (Some [255; 0; 7; 9; 11], ()).
Proof. exact (find_file_roundtrip demo_files demo_meta [98; 47; 99] () demo_files_ok demo_meta_ok demo_archive_length). Defined.

Lemma user_find_file_agrees_witness :
  user_find_file_from (Datatypes.S (length demo_archive)) demo_memory 0x40000000 [97] 0 () =
  Done (Some [1; 2; 3], ()).
Proof.
  apply (user_find_file_agrees demo_memory 0x40000000 demo_archive [97] () demo_stored demo_archive_length).
  vm_compute. reflexivity.
Defined.
