(* ===== verification/Elf.v ===== *)
(** * ELF images

    Model of [src/format/elf.rs], the parser of the static ELF64 executables that the kernel
    starts.  A lazy iterator is the list of its steps, each of which yields an item or, where a
    filter drops it, nothing. *)

From S2P Require Import Prelude Memory Bytes.

(** ** Definitions *)

Inductive ElfError := mkElfError.

Definition MACHINE : Z := 62.

Record Elf := mkElf { e_bytes : bytes; e_headers : bytes; e_entry : usize }.

Record Segment := mkSegment {
  sg_data : bytes;
  sg_address : usize;
  sg_memory_size : usize;
  sg_writable : bool;
  sg_executable : bool;
}.

Section parser.
Context {S : Type}.

Definition u16_at (b : bytes) (offset : usize) : M S Z :=
  let! end_ := uadd offset 2 in let! value := slice b offset end_ in ret (of_le_bytes value).

Definition u32_at (b : bytes) (offset : usize) : M S Z :=
  let! end_ := uadd offset 4 in let! value := slice b offset end_ in ret (of_le_bytes value).

Definition usize_at (b : bytes) (offset : usize) : M S usize :=
  let! end_ := uadd offset 8 in let! value := slice b offset end_ in ret (of_le_bytes value).

(** [a || b] *)
Definition mor (a b : M S bool) : M S bool := let! x := a in if x : bool then ret true else b.

Definition field_differs (read : M S Z) (expected : Z) : M S bool :=
  let! v := read in ret (negb (v =? expected)).

Definition IDENT : bytes := [0x7F; 0x45; 0x4C; 0x46; 2; 1; 1].

Definition header_rejected (header : bytes) : M S bool :=
  mor (let! ident := slice header 0 7 in ret (negb (bool_decide (ident = IDENT))))
  (mor (field_differs (u16_at header 16) 2)
  (mor (field_differs (u16_at header 18) MACHINE)
  (mor (field_differs (u32_at header 20) 1)
  (mor (field_differs (u16_at header 52) 64)
       (field_differs (u16_at header 54) 56))))).

(** [chunks.any(|h| matches!(u32_at(h, 0), 2 | 3))] *)
Fixpoint any_dynamic (chunks : list bytes) : M S bool :=
  match chunks with
  | [] => ret false
  | h :: chunks =>
      mor (let! t := u32_at h 0 in ret ((t =? 2) || (t =? 3))) (any_dynamic chunks)
  end.

Definition Elf_parse (b : bytes) : M S (result Elf ElfError) :=
  match slice_get b 0 64 with
  | None => ret (Err mkElfError)
  | Some header =>
      let! rejected := header_rejected header in
      if rejected : bool then ret (Err mkElfError)
      else
        let! offset := usize_at header 32 in
        let! count := u16_at header 56 in
        let! size := umul count 56 in
        match checked_add offset size with
        | None => ret (Err mkElfError)
        | Some end_ =>
            match slice_get b offset end_ with
            | None => ret (Err mkElfError)
            | Some headers =>
                let! dynamic := any_dynamic (chunks_exact 56 headers) in
                if dynamic : bool then ret (Err mkElfError)
                else let! entry := usize_at header 24 in ret (Ok (mkElf b headers entry))
            end
        end
  end.

Definition is_power_of_two (x : Z) : bool := (0 <? x) && (x =? 2 ^ Z.log2 x).

(** The closure of [segments]: a segment from its program header. *)
Definition Segment_from_header (elf : Elf) (h : bytes) : M S (result Segment ElfError) :=
  let! offset := usize_at h 8 in
  let! address := usize_at h 16 in
  let! file_size := usize_at h 32 in
  let! memory_size := usize_at h 40 in
  let! alignment := usize_at h 48 in
  if (memory_size <? file_size) ||
     ((1 <? alignment) &&
      (negb (is_power_of_two alignment) || negb (address mod alignment =? offset mod alignment)))
  then ret (Err mkElfError)
  else
    match checked_add offset file_size with
    | None => ret (Err mkElfError)
    | Some end_ =>
        match slice_get (e_bytes elf) offset end_ with
        | None => ret (Err mkElfError)
        | Some data =>
            let! flags := u32_at h 4 in
            ret (Ok (mkSegment data address memory_size
                       (negb (Z.land flags 2 =? 0)) (negb (Z.land flags 1 =? 0))))
        end
    end.

(** One step of the iterator over a program header. *)
Definition segment_step (elf : Elf) (h : bytes) : M S (option (result Segment ElfError)) :=
  let! t := u32_at h 0 in
  if t =? 1 then let! r := Segment_from_header elf h in ret (Some r) else ret None.

Definition Elf_segments (elf : Elf) : list (M S (option (result Segment ElfError))) :=
  segment_step elf <$> chunks_exact 56 (e_headers elf).

End parser.

(** ** What the parser accepts *)

(** The executables the kernel starts: little-endian 64-bit, version 1, type [ET_EXEC], for
    this machine, with the header sizes of the format, program headers that lie in the file and
    none of them dynamic. *)
Record accepted (b : bytes) (offset count : usize) : Prop := {
  ac_size : 64 ≤ slice_len b;
  ac_ident : take 7 b = IDENT;
  ac_type : word 2 b 16 = 2;
  ac_machine : word 2 b 18 = MACHINE;
  ac_version : word 4 b 20 = 1;
  ac_ehsize : word 2 b 52 = 64;
  ac_phentsize : word 2 b 54 = 56;
  ac_phoff : word 8 b 32 = offset;
  ac_phnum : word 2 b 56 = count;
  ac_headers : offset + count * 56 ≤ slice_len b;
  ac_static : ∀ i, 0 ≤ i < count → word 4 b (offset + i * 56) ≠ 2 ∧ word 4 b (offset + i * 56) ≠ 3;
}.

(** The segment a program header at [at_] of the file describes. *)
Definition described (b : bytes) (at_ : usize) : Segment :=
  mkSegment
    (take (Z.to_nat (word 8 b (at_ + 32))) (drop (Z.to_nat (word 8 b (at_ + 8))) b))
    (word 8 b (at_ + 16)) (word 8 b (at_ + 40))
    (Z.testbit (word 4 b (at_ + 4)) 1) (Z.testbit (word 4 b (at_ + 4)) 0).

(** A program header whose segment can be loaded. *)
Record loadable (b : bytes) (at_ : usize) : Prop := {
  lo_sizes : word 8 b (at_ + 32) ≤ word 8 b (at_ + 40);
  lo_align : word 8 b (at_ + 48) ≤ 1 ∨
    (∃ k, 0 ≤ k ∧ word 8 b (at_ + 48) = 2 ^ k) ∧
    (word 8 b (at_ + 48) | word 8 b (at_ + 16) - word 8 b (at_ + 8));
  lo_data : word 8 b (at_ + 8) + word 8 b (at_ + 32) ≤ slice_len b;
}.

(** ** Lemmas *)

Section reads.
Context {S : Type} (s : S).

Lemma u16_at_Done b o : 0 ≤ o → o + 2 ≤ slice_len b → slice_len b < W64 → u16_at b o s = Done (word 2 b o, s).
Proof.
  intros H0 H1 H2. unfold u16_at. mstep uadd_lt. erewrite bind_Done by (apply slice_Done; lia).
  by replace (o + 2 - o) with 2 by lia.
Qed.

Lemma u32_at_Done b o : 0 ≤ o → o + 4 ≤ slice_len b → slice_len b < W64 → u32_at b o s = Done (word 4 b o, s).
Proof.
  intros H0 H1 H2. unfold u32_at. mstep uadd_lt. erewrite bind_Done by (apply slice_Done; lia).
  by replace (o + 4 - o) with 4 by lia.
Qed.

Lemma usize_at_Done b o : 0 ≤ o → o + 8 ≤ slice_len b → slice_len b < W64 → usize_at b o s = Done (word 8 b o, s).
Proof.
  intros H0 H1 H2. unfold usize_at. mstep uadd_lt. erewrite bind_Done by (apply slice_Done; lia).
  by replace (o + 8 - o) with 8 by lia.
Qed.

Lemma mor_Done a b x y : a s = Done (x, s) → b s = Done (y, s) → mor a b s = Done (x || y, s).
Proof. intros Ha Hb. unfold mor. rewrite (bind_Done _ _ _ _ _ Ha). by destruct x. Qed.

Lemma field_differs_Done read v x : read s = Done (v, s) → field_differs read x s = Done (negb (v =? x), s).
Proof. intros H. unfold field_differs. by rewrite (bind_Done _ _ _ _ _ H). Qed.

End reads.

Lemma word_slice n b i k o :
  0 ≤ o → o + Z.of_nat n ≤ Z.of_nat k → word n (take k (drop i b)) o = word n b (Z.of_nat i + o).
Proof.
  intros H0 H. unfold word. rewrite skipn_firstn_comm, take_take, drop_drop.
  f_equal. f_equal; [|f_equal]; lia.
Qed.

Lemma word_take n b k o : 0 ≤ o → o + Z.of_nat n ≤ Z.of_nat k → word n (take k b) o = word n b o.
Proof. intros H0 H. pose proof (word_slice n b 0 k o H0 H) as E. by rewrite drop_0, Z.add_0_l in E. Qed.

Lemma header_rejected_Done {S} b (s : S) :
  64 ≤ slice_len b →
  header_rejected (take 64 b) s =
  Done (negb (bool_decide (take 7 b = IDENT)) ||
    (negb (word 2 b 16 =? 2) || (negb (word 2 b 18 =? MACHINE) || (negb (word 4 b 20 =? 1) ||
    (negb (word 2 b 52 =? 64) || negb (word 2 b 54 =? 56))))), s).
Proof.
  intros Hl. assert (Hh : slice_len (take 64 b) = 64) by (unfold slice_len in *; rewrite length_take; lia).
  assert (Hw : ∀ n o, 0 ≤ o → o + Z.of_nat n ≤ 64 → word n (take 64 b) o = word n b o)
    by (intros; apply word_take; lia).
  unfold header_rejected. apply mor_Done.
  { rewrite (bind_Done _ _ _ _ _ (slice_Done (take 64 b) 0 7 s ltac:(lia) ltac:(lia))).
    change (Z.to_nat 0) with 0%nat. rewrite drop_0, take_take. done. }
  rewrite <- !Hw by lia.
  repeat (apply mor_Done; [apply field_differs_Done, u16_at_Done || apply field_differs_Done, u32_at_Done; rewrite ?Hh; unfold W64; lia|]).
  apply field_differs_Done, u16_at_Done; rewrite ?Hh; unfold W64; lia.
Qed.

Definition dynamic_header (h : bytes) : bool := (word 4 h 0 =? 2) || (word 4 h 0 =? 3).

Lemma any_dynamic_Done {S} chunks (s : S) :
  Forall (λ c, length c = 56%nat) chunks → any_dynamic chunks s = Done (existsb dynamic_header chunks, s).
Proof.
  induction 1 as [|h chunks Hh _ IH]; [done|]. cbn [any_dynamic existsb]. apply mor_Done; [|done].
  assert (slice_len h = 56) by (unfold slice_len; lia).
  by erewrite bind_Done by (apply u32_at_Done; unfold W64; lia).
Qed.

Section image.
Context (b : bytes) (Hb : is_bytes b) (Hlen : slice_len b < 2 ^ 63).

Abbreviation phoff := (word 8 b 32).
Abbreviation phnum := (word 2 b 56).
Abbreviation phdrs := (take (Z.to_nat (phnum * 56)) (drop (Z.to_nat phoff) b)).

Lemma chunk_at (Hh : phoff + phnum * 56 ≤ slice_len b) (i : nat) h :
  chunks_exact 56 phdrs !! i = Some h ↔
  Z.of_nat i < phnum ∧ h = take 56 (drop (Z.to_nat (phoff + Z.of_nat i * 56)) b).
Proof.
  pose proof (word_range 8 b 32 Hb). pose proof (word_range 2 b 56 Hb). unfold chunks_exact, slice_len in *.
  assert (El : (length phdrs / 56)%nat = Z.to_nat phnum).
  { rewrite length_take, length_drop, Nat.min_l by lia.
    rewrite Z2Nat.inj_mul by lia. apply Nat.div_mul. lia. }
  rewrite El, list_lookup_fmap. destruct (decide (Z.of_nat i < phnum)) as [Hi|Hi].
  - rewrite lookup_seq_lt by lia. simpl. rewrite skipn_firstn_comm, take_take, drop_drop.
    replace (56 `min` (Z.to_nat (phnum * 56) - i * 56))%nat with 56%nat by lia.
    replace (Z.to_nat phoff + i * 56)%nat with (Z.to_nat (phoff + Z.of_nat i * 56)) by lia. naive_solver.
  - rewrite lookup_seq_ge by lia. naive_solver.
Qed.

Lemma chunk_word (i : nat) n o :
  0 ≤ o → o + Z.of_nat n ≤ 56 →
  word n (take 56 (drop (Z.to_nat (phoff + Z.of_nat i * 56)) b)) o = word n b (phoff + Z.of_nat i * 56 + o).
Proof.
  intros. pose proof (word_range 8 b 32 Hb). rewrite word_slice by lia. f_equal. lia.
Qed.

Lemma dynamic_iff (Hh : phoff + phnum * 56 ≤ slice_len b) :
  existsb dynamic_header (chunks_exact 56 phdrs) = false ↔
  ∀ i, 0 ≤ i < phnum → word 4 b (phoff + i * 56) ≠ 2 ∧ word 4 b (phoff + i * 56) ≠ 3.
Proof.
  assert (Hd : ∀ i h, chunks_exact 56 phdrs !! i = Some h →
    dynamic_header h = false ↔ word 4 b (phoff + Z.of_nat i * 56) ≠ 2 ∧ word 4 b (phoff + Z.of_nat i * 56) ≠ 3).
  { intros i h [_ ->]%chunk_at; [|done]. unfold dynamic_header.
    rewrite chunk_word, Z.add_0_r, orb_false_iff, !Z.eqb_neq by lia. done. }
  transitivity (∀ i h, chunks_exact 56 phdrs !! i = Some h → dynamic_header h = false).
  { rewrite <- Forall_lookup, Forall_forall, <- not_true_iff_false, existsb_exists. split.
    - intros Hn x Hx. apply not_true_iff_false. intros Hx'. apply Hn. exists x. by rewrite <- list_elem_of_In.
    - intros Hall (x & Hx & Hx'). rewrite <- list_elem_of_In in Hx. by rewrite (Hall x Hx) in Hx'. }
  split.
  - intros Hall i Hi. rewrite <- (Z2Nat.id i) by lia.
    assert (Hlt : Z.of_nat (Z.to_nat i) < phnum) by lia.
    assert (Hc := proj2 (chunk_at Hh (Z.to_nat i) _) (conj Hlt eq_refl)).
    apply (Hd _ _ Hc), (Hall _ _ Hc).
  - intros Hall i h Hi. apply (Hd i h Hi). apply chunk_at in Hi as [Hi _]; [|done]. apply Hall. lia.
Qed.

(** Parsing never panics and accepts exactly the executables of the specification. *)
Lemma parse_spec {S} (s : S) :
  ∃ r, Elf_parse b s = Done (r, s) ∧
    ∀ elf, r = Ok elf ↔ accepted b phoff phnum ∧ elf = mkElf b phdrs (word 8 b 24).
Proof.
  pose proof (word_range 8 b 32 Hb) as Ho. pose proof (word_range 2 b 56 Hb) as Hc. simpl in Ho, Hc.
  unfold Elf_parse. destruct (slice_get b 0 64) as [header|] eqn:Eh.
  2: { eexists. split; [done|]. intros elf. split; [done|]. intros [[Hs _ _ _ _ _ _ _ _ _ _] _].
       unfold slice_get in Eh. rewrite (proj2 (Z.leb_le _ _) Hs) in Eh. done. }
  apply slice_get_Some in Eh as (_ & Hs & ->); [|lia]. change (Z.to_nat (64 - 0)) with 64%nat.
  change (Z.to_nat 0) with 0%nat. rewrite drop_0.
  assert (Hh : slice_len (take 64 b) = 64) by (unfold slice_len in *; rewrite length_take; lia).
  rewrite (bind_Done _ _ _ _ _ (header_rejected_Done b s Hs)).
  destruct (negb (bool_decide (take 7 b = IDENT)) || _) eqn:Er.
  { eexists. split; [done|]. intros elf. split; [done|]. intros [[_ H1 H2 H3 H4 H5 H6 _ _ _ _] _].
    rewrite H2, H3, H4, H5, H6, bool_decide_true in Er by done. done. }
  rewrite !orb_false_iff, !negb_false_iff, !Z.eqb_eq, bool_decide_eq_true in Er.
  destruct Er as (H1 & H2 & H3 & H4 & H5 & H6).
  do 2 (erewrite bind_Done by (apply usize_at_Done || apply u16_at_Done; rewrite ?Hh; unfold W64; lia)).
  rewrite !word_take by lia. mstep umul_lt.
  destruct (checked_add phoff _) as [e|] eqn:Ec.
  2: { eexists. split; [done|]. intros elf. split; [done|]. intros [[_ _ _ _ _ _ _ _ _ H _] _].
       apply checked_add_None in Ec. unfold W64 in Ec. lia. }
  apply checked_add_Some in Ec as [-> _]. destruct (slice_get b phoff _) as [headers|] eqn:Eg.
  2: { eexists. split; [done|]. intros elf. split; [done|]. intros [[_ _ _ _ _ _ _ _ _ H _] _].
       unfold slice_get in Eg. rewrite (proj2 (Z.leb_le _ _) H), (proj2 (Z.leb_le _ _)) in Eg by lia. done. }
  apply slice_get_Some in Eg as (_ & Hp & ->); [|lia]. rewrite Z.add_simpl_l.
  rewrite (bind_Done _ _ _ _ _ (any_dynamic_Done _ s (proj2 (Forall_forall _ _) (chunks_exact_length 56 phdrs)))).
  destruct (existsb _ _) eqn:Ed.
  { eexists. split; [done|]. intros elf. split; [done|]. intros [[_ _ _ _ _ _ _ _ _ _ H] _].
    apply (dynamic_iff Hp) in H. congruence. }
  erewrite bind_Done by (apply usize_at_Done; rewrite ?Hh; unfold W64; lia). rewrite word_take by lia.
  eexists. split; [done|]. intros elf. split; [|intros [_ ->]; done]. intros [= <-]. split; [|done].
  split; try done. by apply (dynamic_iff Hp).
Qed.

Lemma is_power_of_two_spec x : is_power_of_two x = true ↔ ∃ k, 0 ≤ k ∧ x = 2 ^ k.
Proof.
  unfold is_power_of_two. rewrite andb_true_iff, Z.ltb_lt, Z.eqb_eq. split.
  - intros [H E]. exists (Z.log2 x). split; [apply Z.log2_nonneg|done].
  - intros (k & Hk & ->). rewrite Z.log2_pow2 by done. split; [by apply Z.pow_pos_nonneg|done].
Qed.

Lemma flag_testbit f i : 0 ≤ i → negb (Z.land f (2 ^ i) =? 0) = Z.testbit f i.
Proof.
  intros Hi. rewrite <- (Z.mul_1_l (2 ^ i)), <- Z.shiftl_mul_pow2, land_pow2_eqb by done. apply negb_involutive.
Qed.

(** The test of the sizes and the alignment. *)
Lemma placement_ok fs ms al ad ofs :
  0 ≤ al →
  ((ms <? fs) || ((1 <? al) && (negb (is_power_of_two al) || negb (ad mod al =? ofs mod al)))) = false ↔
  fs ≤ ms ∧ (al ≤ 1 ∨ (∃ k, 0 ≤ k ∧ al = 2 ^ k) ∧ (al | ad - ofs)).
Proof.
  intros H0. rewrite orb_false_iff, Z.ltb_ge, andb_false_iff, Z.ltb_ge, orb_false_iff, !negb_false_iff.
  rewrite is_power_of_two_spec, Z.eqb_eq. destruct (decide (al ≤ 1)) as [|Hal]; [naive_solver|].
  enough (ad mod al = ofs mod al ↔ (al | ad - ofs)) by naive_solver.
  rewrite <- Z.mod_divide, Zminus_mod by lia. split.
  - intros ->. by rewrite Z.sub_diag, Z.mod_0_l by lia.
  - pose proof (Z.mod_pos_bound ad al ltac:(lia)). pose proof (Z.mod_pos_bound ofs al ltac:(lia)). intros E.
    apply Z.mod_divide in E; [|lia]. destruct E as [q Hq]. assert (q = 0) by nia. nia.
Qed.

(** One step of [segments] over the [i]-th program header: nothing unless it is [PT_LOAD], then
    the segment it describes or, exactly when that cannot be loaded, an error. *)
Lemma segment_step_spec {S} (elf : Elf) (i : nat) h (s : S) :
  let at_ := phoff + Z.of_nat i * 56 in
  phoff + phnum * 56 ≤ slice_len b → e_bytes elf = b → chunks_exact 56 phdrs !! i = Some h →
  ∃ r, segment_step elf h s = Done (r, s) ∧
    (r = None ↔ word 4 b at_ ≠ 1) ∧
    (∀ sg, r = Some (Ok sg) ↔ word 4 b at_ = 1 ∧ loadable b at_ ∧ sg = described b at_).
Proof.
  intros at_ Hp Eb Hi. apply chunk_at in Hi as [Hi ->]; [|done].
  pose proof (word_range 8 b 32 Hb) as Ho. pose proof (word_range 2 b 56 Hb) as Hc. simpl in Ho, Hc.
  set (h := take 56 _). assert (Hh : slice_len h = 56).
  { unfold h, slice_len in *. rewrite length_take, length_drop. lia. }
  assert (Hw : ∀ n o, 0 ≤ o → o + Z.of_nat n ≤ 56 → word n h o = word n b (at_ + o)) by apply chunk_word.
  unfold segment_step. erewrite bind_Done by (apply u32_at_Done; rewrite ?Hh; unfold W64; lia).
  rewrite Hw, Z.add_0_r by lia. destruct (Z.eqb_spec (word 4 b at_) 1) as [Et|Et].
  2: { eexists. split; [done|]. naive_solver. }
  unfold Segment_from_header. rewrite bind_assoc.
  do 5 (rewrite ?bind_assoc; erewrite bind_Done by (apply usize_at_Done; rewrite ?Hh; unfold W64; lia)).
  rewrite !Hw by lia.
  pose proof (word_range 8 b (at_ + 48) Hb) as Hal. pose proof (word_range 8 b (at_ + 8) Hb) as Hof.
  pose proof (word_range 8 b (at_ + 32) Hb) as Hfs.
  assert (Hbad : ¬ loadable b at_ → ∀ sg, Some (Err mkElfError) = Some (@Ok Segment ElfError sg) ↔
    word 4 b at_ = 1 ∧ loadable b at_ ∧ sg = described b at_) by naive_solver.
  destruct ((word 8 b (at_ + 40) <? _) || _) eqn:Er.
  { eexists. split; [done|]. split; [naive_solver|]. apply Hbad. intros [Hs Ha _].
    rewrite (proj2 (placement_ok _ _ _ _ _ (proj1 Hal)) (conj Hs Ha)) in Er. done. }
  apply placement_ok in Er as [Hs Ha]; [|lia].
  destruct (checked_add _ _) as [e|] eqn:Ec.
  2: { eexists. split; [done|]. split; [naive_solver|]. apply Hbad. intros [_ _ Hd].
       apply checked_add_None in Ec. unfold W64 in Ec. lia. }
  apply checked_add_Some in Ec as [-> _]. rewrite Eb. destruct (slice_get b _ _) as [data|] eqn:Eg.
  2: { eexists. split; [done|]. split; [naive_solver|]. apply Hbad. intros [_ _ Hd]. unfold slice_get in Eg.
       rewrite (proj2 (Z.leb_le _ _) Hd), (proj2 (Z.leb_le _ _)) in Eg by lia. done. }
  apply slice_get_Some in Eg as (_ & Hd & ->); [|lia]. rewrite Z.add_simpl_l, bind_assoc.
  erewrite bind_Done by (apply u32_at_Done; rewrite ?Hh; unfold W64; lia). rewrite Hw by lia.
  change 2 with (2 ^ 1) at 1. change 1 with (2 ^ 0) at 2. rewrite !flag_testbit by lia.
  eexists. split; [done|]. split; [naive_solver|]. intros sg. split.
  - intros [= <-]. done.
  - intros (_ & _ & ->). done.
Qed.

End image.

(** ** Theorems *)

(** C26: Parsing any file, however malformed, neither panics nor reads outside it, and accepts exactly
    the static executables for this machine whose program headers lie in the file, keeping the
    headers and the entry point. *)
Theorem elf_parse_correct {S} (b : bytes) (s : S) :
  is_bytes b → slice_len b < 2 ^ 63 →
  ∃ r, Elf_parse b s = Done (r, s) ∧
    ∀ elf, r = Ok elf ↔
      accepted b (word 8 b 32) (word 2 b 56) ∧
      elf = mkElf b (take (Z.to_nat (word 2 b 56 * 56)) (drop (Z.to_nat (word 8 b 32)) b)) (word 8 b 24).
Proof. intros. by apply parse_spec. Qed.

(** The segments of a parsed file: one step per program header, none of which panics; it yields
    nothing for a header that is not [PT_LOAD], the described segment, with exactly the bytes of
    the file that the header names, if its file size is at most its memory size, its address and
    offset agree modulo the alignment and its bytes lie in the file, and an error otherwise. *)
Theorem elf_segments_correct {S} (b : bytes) (elf : Elf) (s : S) :
  is_bytes b → slice_len b < 2 ^ 63 → Elf_parse b s = Done (Ok elf, s) →
  length (Elf_segments (S := S) elf) = Z.to_nat (word 2 b 56) ∧
  ∀ i, 0 ≤ i < word 2 b 56 →
    let at_ := word 8 b 32 + i * 56 in
    ∃ c r, Elf_segments elf !! Z.to_nat i = Some c ∧ c s = Done (r, s) ∧
      (r = None ↔ word 4 b at_ ≠ 1) ∧
      (∀ sg, r = Some (Ok sg) ↔ word 4 b at_ = 1 ∧ loadable b at_ ∧ sg = described b at_).
Proof.
  intros Hb Hl E. destruct (parse_spec b Hb Hl s) as (r & E' & Hr). rewrite E in E'. injection E' as <-.
  destruct (proj1 (Hr elf) eq_refl) as [Hac ->]. pose proof (ac_headers _ _ _ Hac) as Hp.
  pose proof (word_range 8 b 32 Hb) as Ho. pose proof (word_range 2 b 56 Hb) as Hc.
  unfold Elf_segments. cbn [e_headers]. split.
  - unfold chunks_exact, slice_len in *.
    rewrite length_fmap, length_fmap, length_seq, length_take, length_drop, Nat.min_l by lia.
    rewrite Z2Nat.inj_mul by lia. apply Nat.div_mul. lia.
  - intros i Hi. assert (Hlt : Z.of_nat (Z.to_nat i) < word 2 b 56) by lia.
    assert (Hch := proj2 (chunk_at b Hb Hp (Z.to_nat i) _) (conj Hlt eq_refl)).
    destruct (segment_step_spec b Hb Hl (mkElf b (take (Z.to_nat (word 2 b 56 * 56)) (drop (Z.to_nat (word 8 b 32)) b))
      (word 8 b 24)) _ _ s Hp eq_refl Hch) as (r & Er & Hr').
    rewrite Z2Nat.id in Hr' by lia. eexists _, r. split; [|done].
    rewrite list_lookup_fmap, Hch. done.
Qed.

(** ** A concrete executable *)

Definition demo_elf : bytes :=
  IDENT ++ replicate 9 0 ++ le_bytes 2 2 ++ le_bytes 2 62 ++ le_bytes 4 1 ++ le_bytes 8 0x400078 ++
  le_bytes 8 64 ++ le_bytes 8 0 ++ le_bytes 4 0 ++ le_bytes 2 64 ++ le_bytes 2 56 ++ le_bytes 2 1 ++
  le_bytes 6 0 ++
  le_bytes 4 1 ++ le_bytes 4 5 ++ le_bytes 8 120 ++ le_bytes 8 0x400078 ++ le_bytes 8 0x400078 ++
  le_bytes 8 4 ++ le_bytes 8 16 ++ le_bytes 8 4096 ++
  [0xF3; 0x90; 0xEB; 0xFC].

Definition demo_program : Elf := mkElf demo_elf (take 56 (drop 64 demo_elf)) 0x400078.

Lemma demo_elf_bytes : is_bytes demo_elf.
Proof. apply (bool_decide_unpack _). vm_compute. exact I. Qed.

Lemma demo_elf_length : slice_len demo_elf < 2 ^ 63.
Proof. vm_compute. reflexivity. Qed.

Lemma elf_parse_correct_witness :
  accepted demo_elf (word 8 demo_elf 32) (word 2 demo_elf 56) ∧ Elf_parse demo_elf () = Done (Ok demo_program, ()).
Proof.
  destruct (elf_parse_correct demo_elf () demo_elf_bytes demo_elf_length) as (r & E & Hr).
  assert (Er : r = Ok demo_program) by (apply (returned_Done _ _ _ _ E); vm_compute; reflexivity).
  split; [apply (proj1 (Hr demo_program) Er)|]. by rewrite E, Er.
Defined.

Lemma elf_segments_correct_witness :
  loadable demo_elf 64 ∧
  described demo_elf 64 = mkSegment [0xF3; 0x90; 0xEB; 0xFC] 0x400078 16 false true.
Proof.
  destruct (elf_segments_correct demo_elf demo_program () demo_elf_bytes demo_elf_length) as [_ H];
    [vm_compute; reflexivity|].
  destruct (H 0) as (c & r & Ec & Er & _ & Hr); [vm_compute; split; [discriminate|reflexivity]|].
  injection Ec as <-.
  assert (E : r = Some (Ok (mkSegment [0xF3; 0x90; 0xEB; 0xFC] 0x400078 16 false true)))
    by (apply (returned_Done _ _ _ _ Er); vm_compute; reflexivity).
  destruct (proj1 (Hr _) E) as (_ & Hlo & Hd). split; [exact Hlo|]. symmetry. exact Hd.
Defined.
