(* ===== verification/UserElf.v ===== *)
(** * The ELF parser of omega3

    Model of [userspace/omega3/src/elf.rs], the parser with which the first user program reads the
    programs it starts: both classes and both byte orders, through a reader that keeps its place
    in the file.  Every error is the one [InvalidElf]. *)

From S2P Require Import Prelude Memory Bytes.
From S2P Require Import Elf.

Module Omega3.

(** ** Definitions *)

Inductive ElfError := InvalidElf.

Inductive ElfIsa := IsaNone | Sparc | X86 | Mips | Ppc | Arm | SuperH | Ia64 | Amd64 | AArch64 | Riscv.

Definition ElfIsa_from_u16 (value : Z) : result ElfIsa ElfError :=
  match value with
  | 0x00 => Ok IsaNone
  | 0x02 => Ok Sparc
  | 0x03 => Ok X86
  | 0x08 => Ok Mips
  | 0x14 => Ok Ppc
  | 0x28 => Ok Arm
  | 0x2A => Ok SuperH
  | 0x32 => Ok Ia64
  | 0x3E => Ok Amd64
  | 0xB7 => Ok AArch64
  | 0xF3 => Ok Riscv
  | _ => Err InvalidElf
  end.

Inductive ElfClass := Elf32 | Elf64.

#[export] Instance ElfClass_eq_dec : EqDecision ElfClass.
Proof. solve_decision. Defined.

Definition ElfClass_from_u8 (value : Z) : result ElfClass ElfError :=
  match value with 1 => Ok Elf32 | 2 => Ok Elf64 | _ => Err InvalidElf end.

Definition ElfClass_header_size (self : ElfClass) : Z := match self with Elf32 => 52 | Elf64 => 64 end.

Inductive Endianness := Little | Big.

Definition Endianness_from_u8 (value : Z) : result Endianness ElfError :=
  match value with 1 => Ok Little | 2 => Ok Big | _ => Err InvalidElf end.

Inductive ElfType := Relocatable | Executable | SharedObject | Core.

Definition ElfType_from_u16 (value : Z) : result ElfType ElfError :=
  match value with
  | 1 => Ok Relocatable
  | 2 => Ok Executable
  | 3 => Ok SharedObject
  | 4 => Ok Core
  | _ => Err InvalidElf
  end.

Record Reader := mkReader { rd_bytes : bytes; rd_offset : usize; rd_endianness : Endianness }.

Definition Reader_new (b : bytes) : Reader := mkReader b 0 Little.

Definition set_endianness (e : Endianness) (self : Reader) : Reader := mkReader (rd_bytes self) (rd_offset self) e.

Definition read_array (n : nat) (self : Reader) : result (bytes * Reader) ElfError :=
  let* end_ := ok_or (checked_add (rd_offset self) (Z.of_nat n)) InvalidElf in
  let* b := ok_or (slice_get (rd_bytes self) (rd_offset self) end_) InvalidElf in
  Ok (b, mkReader (rd_bytes self) end_ (rd_endianness self)).

Definition read_u8 (self : Reader) : result (Z * Reader) ElfError :=
  let* (b, self) := read_array 1 self in Ok (default 0 (zget b 0), self).

(** [uN::from_le_bytes] or [uN::from_be_bytes] *)
Definition from_bytes (e : Endianness) (b : bytes) : Z :=
  match e with Little => of_le_bytes b | Big => of_le_bytes (rev b) end.

Definition read_uint (n : nat) (self : Reader) : result (Z * Reader) ElfError :=
  let* (b, self) := read_array n self in Ok (from_bytes (rd_endianness self) b, self).

Definition read_u16 : Reader → result (Z * Reader) ElfError := read_uint 2.
Definition read_u32 : Reader → result (Z * Reader) ElfError := read_uint 4.
Definition read_u64 : Reader → result (Z * Reader) ElfError := read_uint 8.

Definition read_word (class : ElfClass) (self : Reader) : result (Z * Reader) ElfError :=
  match class with Elf32 => read_u32 self | Elf64 => read_u64 self end.

Record ElfHeader := mkElfHeader {
  h_class : ElfClass;
  h_endianness : Endianness;
  h_version : Z;
  h_os_abi : Z;
  h_reserved : bytes;
  h_object_type : ElfType;
  h_machine : ElfIsa;
  h_version_1 : Z;
  h_entry : Z;
  h_program_header_offset : Z;
  h_section_header_offset : Z;
  h_flags : Z;
  h_header_size : Z;
  h_program_header_entry_size : Z;
  h_program_header_count : Z;
  h_section_header_entry_size : Z;
  h_section_header_count : Z;
  h_section_name_index : Z;
}.

Definition ELF_MAGIC : bytes := [0x7F; 0x45; 0x4C; 0x46].

Definition ElfHeader_parse (b : bytes) : result ElfHeader ElfError :=
  let reader := Reader_new b in
  let* (magic, reader) := read_array 4 reader in
  if negb (bool_decide (magic = ELF_MAGIC)) then Err InvalidElf
  else
    let* (c, reader) := read_u8 reader in
    let* class := ElfClass_from_u8 c in
    let* (e, reader) := read_u8 reader in
    let* endianness := Endianness_from_u8 e in
    let reader := set_endianness endianness reader in
    let* (version, reader) := read_u8 reader in
    let* (os_abi, reader) := read_u8 reader in
    let* (reserved, reader) := read_array 8 reader in
    let* (t, reader) := read_u16 reader in
    let* object_type := ElfType_from_u16 t in
    let* (m, reader) := read_u16 reader in
    let* machine := ElfIsa_from_u16 m in
    let* (version_1, reader) := read_u32 reader in
    let* (entry, reader) := read_word class reader in
    let* (program_header_offset, reader) := read_word class reader in
    let* (section_header_offset, reader) := read_word class reader in
    let* (flags, reader) := read_u32 reader in
    let* (header_size, reader) := read_u16 reader in
    let* (program_header_entry_size, reader) := read_u16 reader in
    let* (program_header_count, reader) := read_u16 reader in
    let* (section_header_entry_size, reader) := read_u16 reader in
    let* (section_header_count, reader) := read_u16 reader in
    let* (section_name_index, reader) := read_u16 reader in
    if negb (header_size =? ElfClass_header_size class) then Err InvalidElf
    else Ok (mkElfHeader class endianness version os_abi reserved object_type machine version_1 entry
               program_header_offset section_header_offset flags header_size program_header_entry_size
               program_header_count section_header_entry_size section_header_count section_name_index).

Inductive ProgramHeaderType :=
| PhNull | PhLoad | PhDynamic | PhInterpreter | PhNote | PhShlib | PhPhdr | PhGnuStack | PhRelro | PhOther (value : Z).

#[export] Instance ProgramHeaderType_eq_dec : EqDecision ProgramHeaderType.
Proof. solve_decision. Defined.

Definition ProgramHeaderType_from_u32 (value : Z) : ProgramHeaderType :=
  match value with
  | 0 => PhNull
  | 1 => PhLoad
  | 2 => PhDynamic
  | 3 => PhInterpreter
  | 4 => PhNote
  | 5 => PhShlib
  | 6 => PhPhdr
  | 0x6474e551 => PhGnuStack
  | 0x6474e552 => PhRelro
  | _ => PhOther value
  end.

Record ProgramHeader := mkProgramHeader {
  ph_segment_type : ProgramHeaderType;
  ph_flags : Z;
  ph_file_offset : Z;
  ph_virtual_address : Z;
  ph_physical_address : Z;
  ph_file_size : Z;
  ph_memory_size : Z;
  ph_alignment : Z;
}.

Definition ProgramHeader_parse (b : bytes) (class : ElfClass) (endianness : Endianness) :
    result ProgramHeader ElfError :=
  let reader := set_endianness endianness (Reader_new b) in
  let* (t, reader) := read_u32 reader in
  let segment_type := ProgramHeaderType_from_u32 t in
  let* (flags, reader) := (if bool_decide (class = Elf64) then read_u32 reader else Ok (0, reader)) in
  let* (file_offset, reader) := read_word class reader in
  let* (virtual_address, reader) := read_word class reader in
  let* (physical_address, reader) := read_word class reader in
  let* (file_size, reader) := read_word class reader in
  let* (memory_size, reader) := read_word class reader in
  let* (flags, reader) := (if bool_decide (class = Elf32) then read_u32 reader else Ok (flags, reader)) in
  let* (alignment, reader) := read_word class reader in
  Ok (mkProgramHeader segment_type flags file_offset virtual_address physical_address file_size memory_size alignment).

Record Elf := mkElf { elf_bytes : bytes; elf_header : ElfHeader }.

Definition Elf_parse (b : bytes) : result Elf ElfError :=
  let* header := ElfHeader_parse b in Ok (mkElf b header).

Definition Elf_entry (self : Elf) : usize := h_entry (elf_header self).

Definition Elf_machine (self : Elf) : ElfIsa := h_machine (elf_header self).

Record ProgramHeaders := mkProgramHeaders {
  it_bytes : bytes; it_class : ElfClass; it_endianness : Endianness; it_entry_size : usize; it_remaining : usize;
}.

Definition expected_entry_size (class : ElfClass) : usize := match class with Elf32 => 32 | Elf64 => 56 end.

Definition Elf_program_headers (self : Elf) : result ProgramHeaders ElfError :=
  let header := elf_header self in
  let offset := h_program_header_offset header in
  let entry_size := h_program_header_entry_size header in
  let count := h_program_header_count header in
  if negb (entry_size =? expected_entry_size (h_class header)) then Err InvalidElf
  else
    let* table_size := ok_or (checked_mul entry_size count) InvalidElf in
    let* table_end := ok_or (checked_add offset table_size) InvalidElf in
    let* b := ok_or (slice_get (elf_bytes self) offset table_end) InvalidElf in
    Ok (mkProgramHeaders b (h_class header) (h_endianness header) entry_size count).

(** [self.bytes = &self.bytes[self.entry_size..]] and [self.remaining -= 1] cannot fail after the
    checks that come first. *)
Definition ProgramHeaders_next (self : ProgramHeaders) :
    option (result ProgramHeader ElfError) * ProgramHeaders :=
  if it_remaining self =? 0 then (None, self)
  else
    match slice_get (it_bytes self) 0 (it_entry_size self) with
    | None => (None, mkProgramHeaders (it_bytes self) (it_class self) (it_endianness self) (it_entry_size self) 0)
    | Some entry =>
        (Some (ProgramHeader_parse entry (it_class self) (it_endianness self)),
         mkProgramHeaders (drop (Z.to_nat (it_entry_size self)) (it_bytes self)) (it_class self)
           (it_endianness self) (it_entry_size self) (it_remaining self - 1))
    end.

(** The items of a [for] loop over the iterator: at most [it_remaining] of them. *)
Fixpoint ProgramHeaders_items (fuel : nat) (self : ProgramHeaders) : list (result ProgramHeader ElfError) :=
  match fuel with
  | O => []
  | S fuel =>
      match ProgramHeaders_next self with
      | (None, _) => []
      | (Some item, self) => item :: ProgramHeaders_items fuel self
      end
  end.

Definition all_program_headers (self : ProgramHeaders) : list (result ProgramHeader ElfError) :=
  ProgramHeaders_items (S (Z.to_nat (it_remaining self))) self.

(** ** Specification *)

(** The integer of [n] bytes at an offset, in a byte order. *)
Definition uint_at (e : Endianness) (n : nat) (b : bytes) (offset : Z) : Z :=
  from_bytes e (take n (drop (Z.to_nat offset) b)).

Definition word_size (class : ElfClass) : nat := match class with Elf32 => 4 | Elf64 => 8 end.

(** The header that a file of the class and byte order has. *)
Definition header_at (class : ElfClass) (e : Endianness) (t : ElfType) (m : ElfIsa) (b : bytes) : ElfHeader :=
  let w := Z.of_nat (word_size class) in
  mkElfHeader class e (uint_at e 1 b 6) (uint_at e 1 b 7) (take 8 (drop 8 b)) t m (uint_at e 4 b 20)
    (uint_at e (word_size class) b 24) (uint_at e (word_size class) b (24 + w)) (uint_at e (word_size class) b (24 + 2 * w))
    (uint_at e 4 b (24 + 3 * w)) (uint_at e 2 b (28 + 3 * w)) (uint_at e 2 b (30 + 3 * w)) (uint_at e 2 b (32 + 3 * w))
    (uint_at e 2 b (34 + 3 * w)) (uint_at e 2 b (36 + 3 * w)) (uint_at e 2 b (38 + 3 * w)).

(** What the parser asks of a file. *)
Record well_formed (b : bytes) (class : ElfClass) (e : Endianness) (t : ElfType) (m : ElfIsa) : Prop := {
  wf_size : ElfClass_header_size class ≤ slice_len b;
  wf_magic : take 4 b = ELF_MAGIC;
  wf_class : ElfClass_from_u8 (uint_at Little 1 b 4) = Ok class;
  wf_endianness : Endianness_from_u8 (uint_at Little 1 b 5) = Ok e;
  wf_type : ElfType_from_u16 (uint_at e 2 b 16) = Ok t;
  wf_machine : ElfIsa_from_u16 (uint_at e 2 b 18) = Ok m;
  wf_header_size : uint_at e 2 b (28 + 3 * Z.of_nat (word_size class)) = ElfClass_header_size class;
}.

(** The program header that lies in the bytes [b]. *)
Definition program_header_at (class : ElfClass) (e : Endianness) (b : bytes) : ProgramHeader :=
  match class with
  | Elf32 =>
      mkProgramHeader (ProgramHeaderType_from_u32 (uint_at e 4 b 0)) (uint_at e 4 b 24) (uint_at e 4 b 4) (uint_at e 4 b 8)
        (uint_at e 4 b 12) (uint_at e 4 b 16) (uint_at e 4 b 20) (uint_at e 4 b 28)
  | Elf64 =>
      mkProgramHeader (ProgramHeaderType_from_u32 (uint_at e 4 b 0)) (uint_at e 4 b 4) (uint_at e 8 b 8) (uint_at e 8 b 16)
        (uint_at e 8 b 24) (uint_at e 8 b 32) (uint_at e 8 b 40) (uint_at e 8 b 48)
  end.

(** ** Lemmas *)

Section reader.
Context (b : bytes) (Hlen : slice_len b < 2 ^ 63).

(** Reading is either inside the file or an error. *)
Lemma read_array_spec n o e :
  0 ≤ o ≤ slice_len b →
  read_array n (mkReader b o e) =
  if o + Z.of_nat n <=? slice_len b
  then Ok (take n (drop (Z.to_nat o) b), mkReader b (o + Z.of_nat n) e) else Err InvalidElf.
Proof.
  intros Ho. unfold read_array. cbn [rd_offset rd_bytes rd_endianness].
  destruct (Z.leb_spec (o + Z.of_nat n) (slice_len b)).
  - rewrite checked_add_lt by (unfold W64; lia). cbn [ok_or result_bind]. unfold slice_get.
    rewrite !(proj2 (Z.leb_le _ _)) by lia. cbn [andb ok_or result_bind].
    by replace (Z.to_nat (o + Z.of_nat n - o)) with n by lia.
  - destruct (checked_add _ _) as [x|] eqn:E; [|done]. apply checked_add_Some in E as [-> _]. cbn [ok_or result_bind].
    unfold slice_get. by rewrite (proj2 (Z.leb_gt (o + Z.of_nat n) _)), andb_false_r by lia.
Qed.

Lemma read_uint_spec n o e :
  0 ≤ o ≤ slice_len b →
  read_uint n (mkReader b o e) =
  if o + Z.of_nat n <=? slice_len b then Ok (uint_at e n b o, mkReader b (o + Z.of_nat n) e) else Err InvalidElf.
Proof.
  intros Ho. unfold read_uint. rewrite read_array_spec by done. by destruct (_ <=? _).
Qed.

Lemma read_u8_spec o e :
  0 ≤ o ≤ slice_len b →
  read_u8 (mkReader b o e) =
  if o + 1 <=? slice_len b then Ok (uint_at Little 1 b o, mkReader b (o + 1) e) else Err InvalidElf.
Proof.
  intros Ho. unfold read_u8. rewrite read_array_spec by done. change (Z.of_nat 1) with 1.
  destruct (Z.leb_spec (o + 1) (slice_len b)); [|done]. cbn [result_bind]. do 2 f_equal.
  unfold uint_at, from_bytes, slice_len in *.
  destruct (drop (Z.to_nat o) b) as [|x l] eqn:E.
  - apply (f_equal length) in E. rewrite length_drop in E. simpl in E. lia.
  - change (take 1 (x :: l)) with [x]. change (default 0 (zget [x] 0)) with x. cbn [of_le_bytes]. lia.
Qed.

Lemma read_word_spec class o e :
  0 ≤ o ≤ slice_len b →
  read_word class (mkReader b o e) =
  if o + Z.of_nat (word_size class) <=? slice_len b
  then Ok (uint_at e (word_size class) b o, mkReader b (o + Z.of_nat (word_size class)) e) else Err InvalidElf.
Proof. intros Ho. destruct class; by apply read_uint_spec. Qed.

(** What a successful read says. *)
Lemma read_array_Ok n o e p :
  0 ≤ o ≤ slice_len b → read_array n (mkReader b o e) = Ok p →
  o + Z.of_nat n ≤ slice_len b ∧ p = (take n (drop (Z.to_nat o) b), mkReader b (o + Z.of_nat n) e).
Proof. intros Ho. rewrite read_array_spec by done. destruct (Z.leb_spec (o + Z.of_nat n) (slice_len b)); naive_solver. Qed.

Lemma read_uint_Ok n o e p :
  0 ≤ o ≤ slice_len b → read_uint n (mkReader b o e) = Ok p →
  o + Z.of_nat n ≤ slice_len b ∧ p = (uint_at e n b o, mkReader b (o + Z.of_nat n) e).
Proof. intros Ho. rewrite read_uint_spec by done. destruct (Z.leb_spec (o + Z.of_nat n) (slice_len b)); naive_solver. Qed.

Lemma read_u8_Ok o e p :
  0 ≤ o ≤ slice_len b → read_u8 (mkReader b o e) = Ok p →
  o + 1 ≤ slice_len b ∧ p = (uint_at Little 1 b o, mkReader b (o + 1) e).
Proof. intros Ho. rewrite read_u8_spec by done. destruct (Z.leb_spec (o + 1) (slice_len b)); naive_solver. Qed.

Lemma read_word_Ok class o e p :
  0 ≤ o ≤ slice_len b → read_word class (mkReader b o e) = Ok p →
  o + Z.of_nat (word_size class) ≤ slice_len b ∧
  p = (uint_at e (word_size class) b o, mkReader b (o + Z.of_nat (word_size class)) e).
Proof. intros Ho. rewrite read_word_spec by done. destruct (Z.leb_spec (o + Z.of_nat (word_size class)) (slice_len b)); naive_solver. Qed.

End reader.

Lemma result_bind_Ok {A B E} (r : result A E) (k : A → result B E) y :
  result_bind r k = Ok y → ∃ x, r = Ok x ∧ k x = Ok y.
Proof. destruct r; naive_solver. Qed.

(** Undo one read of a parser that succeeded. *)
Ltac read_inv H :=
  let x := fresh "x" in let E := fresh "E" in let L := fresh "L" in
  apply result_bind_Ok in H as (x & E & H);
  first [apply read_u8_Ok in E; [|done|lia] | apply read_word_Ok in E; [|done|lia]
        |apply read_uint_Ok in E; [|done|lia] | apply read_array_Ok in E; [|done|lia]];
  destruct E as [L ->]; cbn [Z.of_nat Pos.of_succ_nat Pos.succ Z.add] in L.

(** Compute the offset the reader has come to. *)
Ltac offset_norm :=
  match goal with |- context [mkReader ?b ?o ?e] => let v := eval vm_compute in o in progress change o with v end.

(** Run one read of a file that is long enough. *)
Ltac read_run :=
  cbn [word_size]; repeat offset_norm;
  first [rewrite read_u8_spec by lia | rewrite read_word_spec by lia | rewrite read_uint_spec by lia
        |rewrite read_array_spec by lia];
  rewrite (proj2 (Z.leb_le _ _)) by (cbn [word_size]; lia); cbn [result_bind].

Lemma single_byte e b o : uint_at e 1 b o = uint_at Little 1 b o.
Proof.
  destruct e; [done|]. unfold uint_at, from_bytes. by destruct (drop (Z.to_nat o) b).
Qed.

Lemma header_parse_complete b c e t m :
  slice_len b < 2 ^ 63 → well_formed b c e t m → ElfHeader_parse b = Ok (header_at c e t m b).
Proof.
  intros Hlen [H1 H2 H3 H4 H5 H6 H7]. unfold ElfHeader_parse, Reader_new, read_u16, read_u32.
  assert (52 ≤ slice_len b) by (destruct c; cbn in H1; lia).
  read_run. change (Z.to_nat 0) with 0%nat. rewrite drop_0, H2, bool_decide_true by done. cbn [negb].
  read_run. rewrite H3. cbn [result_bind]. read_run. rewrite H4. cbn [result_bind].
  unfold set_endianness. cbn [rd_bytes rd_offset]. do 3 read_run. read_run. rewrite H5. cbn [result_bind]. read_run.
  rewrite H6. cbn [result_bind]. unfold header_at. rewrite !(single_byte e).
  destruct c; cbn [ElfClass_header_size] in H1; do 11 read_run.
  - change (uint_at e 2 b 40 = ElfClass_header_size Elf32) in H7. by rewrite (proj2 (Z.eqb_eq _ _) H7).
  - change (uint_at e 2 b 52 = ElfClass_header_size Elf64) in H7. by rewrite (proj2 (Z.eqb_eq _ _) H7).
Qed.

Lemma header_parse_sound b h :
  slice_len b < 2 ^ 63 → ElfHeader_parse b = Ok h →
  ∃ c e t m, well_formed b c e t m ∧ h = header_at c e t m b.
Proof.
  intros Hlen H. unfold ElfHeader_parse, Reader_new, read_u16, read_u32 in H.
  assert (0 ≤ slice_len b) by (unfold slice_len; lia).
  read_inv H. change (Z.to_nat 0) with 0%nat in H. rewrite drop_0 in H.
  destruct (bool_decide_reflect (take 4 b = ELF_MAGIC)) as [Hm|]; [|done]. cbn [negb] in H. change (0 + Z.of_nat 4) with 4 in *.
  read_inv H. apply result_bind_Ok in H as (c & Hc & H). change (4 + 1) with 5 in *.
  read_inv H. apply result_bind_Ok in H as (e & He & H). change (5 + 1) with 6 in *.
  unfold set_endianness in H. cbn [rd_bytes rd_offset] in H.
  read_inv H. change (6 + 1) with 7 in *. read_inv H. change (7 + 1) with 8 in *. read_inv H. change (8 + Z.of_nat 8) with 16 in *.
  read_inv H. apply result_bind_Ok in H as (t & Ht & H). change (16 + Z.of_nat 2) with 18 in *.
  read_inv H. apply result_bind_Ok in H as (m & Hi & H). change (18 + Z.of_nat 2) with 20 in *.
  read_inv H. change (20 + Z.of_nat 4) with 24 in *. do 10 read_inv H.
  destruct (Z.eqb_spec (uint_at e 2 b (24 + Z.of_nat (word_size c) + Z.of_nat (word_size c) + Z.of_nat (word_size c) + Z.of_nat 4)) (ElfClass_header_size c)); [|done].
  cbn [negb] in H. injection H as <-. exists c, e, t, m. split.
  - split; try done; [destruct c; cbn in *; lia|]. rewrite <- e0. f_equal. lia.
  - unfold header_at. rewrite !(single_byte e). f_equal; f_equal; lia.
Qed.

Lemma program_header_parse_spec b c e :
  slice_len b = expected_entry_size c → ProgramHeader_parse b c e = Ok (program_header_at c e b).
Proof.
  intros Hl. assert (Hlen : slice_len b < 2 ^ 63) by (rewrite Hl; by destruct c).
  unfold ProgramHeader_parse, Reader_new, set_endianness, read_u32. cbn [rd_bytes rd_offset].
  destruct c; cbn [expected_entry_size] in Hl.
  - rewrite (bool_decide_false (Elf32 = Elf64)), (bool_decide_true (Elf32 = Elf32)) by done.
    read_run. do 7 read_run. done.
  - rewrite (bool_decide_true (Elf64 = Elf64)), (bool_decide_false (Elf64 = Elf32)) by done.
    read_run. do 7 read_run. done.
Qed.

Lemma items_spec sz c e fuel b (n : nat) :
  Z.of_nat sz = expected_entry_size c → length b = (n * sz)%nat → (n < fuel)%nat →
  ProgramHeaders_items fuel (mkProgramHeaders b c e (Z.of_nat sz) (Z.of_nat n)) =
  Ok ∘ program_header_at c e <$> chunks_exact sz b.
Proof.
  intros Hsz. assert (Hpos : (0 < sz)%nat) by (destruct c; cbn in Hsz; lia).
  revert b n. induction fuel as [|fuel IH]; intros b n Hb Hf; [lia|].
  cbn [ProgramHeaders_items]. unfold ProgramHeaders_next. cbn [it_remaining it_bytes it_class it_endianness it_entry_size].
  destruct n as [|n].
  { destruct b; [|done]. cbn [Z.of_nat Z.eqb]. unfold chunks_exact. by rewrite Nat.div_small by (simpl; lia). }
  rewrite (proj2 (Z.eqb_neq _ _)) by lia. unfold slice_get, slice_len.
  rewrite !(proj2 (Z.leb_le _ _)) by nia. cbn [andb]. rewrite Z.sub_0_r, Nat2Z.id. change (Z.to_nat 0) with 0%nat. rewrite drop_0.
  replace (Z.of_nat (Datatypes.S n) - 1) with (Z.of_nat n) by lia.
  rewrite (chunks_exact_cons sz b) by nia. rewrite fmap_cons. f_equal.
  - apply program_header_parse_spec. unfold slice_len. rewrite length_take, Nat.min_l by nia. done.
  - apply IH; [rewrite length_drop; lia|lia].
Qed.

(** What [program_headers] yields for a parsed file. *)
Lemma program_headers_spec b c e t m :
  is_bytes b → slice_len b < 2 ^ 63 →
  let h := header_at c e t m b in
  h_program_header_entry_size h = expected_entry_size c →
  h_program_header_offset h + expected_entry_size c * h_program_header_count h ≤ slice_len b →
  0 ≤ h_program_header_offset h → 0 ≤ h_program_header_count h →
  ∃ it, Elf_program_headers (mkElf b h) = Ok it ∧
    all_program_headers it = Ok ∘ program_header_at c e <$>
      chunks_exact (Z.to_nat (expected_entry_size c))
        (take (Z.to_nat (expected_entry_size c * h_program_header_count h)) (drop (Z.to_nat (h_program_header_offset h)) b)).
Proof.
  intros Hb Hlen h. unfold h. clear h. set (off := h_program_header_offset _). set (cnt := h_program_header_count _).
  intros Hs Ht H0 H1. unfold Elf_program_headers. cbn [elf_header elf_bytes]. fold off cnt. rewrite Hs.
  change (h_class (header_at c e t m b)) with c. change (h_endianness (header_at c e t m b)) with e.
  rewrite Z.eqb_refl. cbn [negb].
  assert (Hsz : 0 < expected_entry_size c) by by destruct c.
  rewrite checked_mul_lt by (unfold W64; nia). cbn [ok_or result_bind].
  rewrite checked_add_lt by (unfold W64; nia). cbn [ok_or result_bind].
  unfold slice_get. rewrite !(proj2 (Z.leb_le _ _)) by nia. cbn [andb ok_or result_bind].
  eexists. split; [done|]. unfold all_program_headers. cbn [it_remaining].
  replace (Z.to_nat (off + expected_entry_size c * cnt - off)) with (Z.to_nat (expected_entry_size c * cnt)) by (f_equal; lia).
  set (table := take _ (drop (Z.to_nat off) b)).
  pose proof (items_spec (Z.to_nat (expected_entry_size c)) c e (S (Z.to_nat cnt)) table (Z.to_nat cnt)) as Hi.
  rewrite !Z2Nat.id in Hi by lia. apply Hi; [done| |lia]. unfold table, slice_len in *.
  rewrite length_take, length_drop, Nat.min_l by nia. rewrite Z2Nat.inj_mul by lia. lia.
Qed.

(** ** Theorems *)

(** The header parser accepts exactly the well-formed headers of either class and either byte
    order, and returns their fields, wherever in the file the class puts them; for such a file
    whose program header table has entries of the right size and lies in the file, the iterator
    yields exactly the headers of the table, each decoded as the class lays it out. *)
Theorem omega3_elf_correct (b : bytes) :
  is_bytes b → slice_len b < 2 ^ 63 →
  (∀ h, ElfHeader_parse b = Ok h ↔ ∃ c e t m, well_formed b c e t m ∧ h = header_at c e t m b) ∧
  ∀ c e t m, well_formed b c e t m →
    let h := header_at c e t m b in
    h_program_header_entry_size h = expected_entry_size c →
    h_program_header_offset h + expected_entry_size c * h_program_header_count h ≤ slice_len b →
    ∃ it, Elf_parse b = Ok (mkElf b h) ∧ Elf_program_headers (mkElf b h) = Ok it ∧
      all_program_headers it = Ok ∘ program_header_at c e <$>
        chunks_exact (Z.to_nat (expected_entry_size c))
          (take (Z.to_nat (expected_entry_size c * h_program_header_count h)) (drop (Z.to_nat (h_program_header_offset h)) b)).
Proof.
  intros Hb Hlen. split.
  - intros h. split; [by apply header_parse_sound|]. intros (c & e & t & m & Hwf & ->). by apply header_parse_complete.
  - intros c e t m Hwf h Hs Ht.
    assert (Hn : ∀ n o, 0 ≤ uint_at e n b o).
    { intros n o. unfold uint_at, from_bytes. destruct e; apply of_le_bytes_range; [|apply Forall_rev]; by apply is_bytes_slice. }
    destruct (program_headers_spec b c e t m Hb Hlen Hs Ht (Hn _ _) (Hn _ _)) as (it & E1 & E2).
    exists it. split_and!; [|exact E1|exact E2].
    unfold Elf_parse. by rewrite (header_parse_complete b c e t m).
Qed.

(** The kernel's view of the same bytes. *)
Lemma accepted_well_formed b off cnt : accepted b off cnt → well_formed b Elf64 Little Executable Amd64.
Proof.
  intros [H1 H2 H3 H4 H5 H6 H7 H8 H9 H10 H11]. unfold MACHINE in H4.
  assert (Hpre : ∃ rest, b = IDENT ++ rest) by (exists (drop 7 b); rewrite <- H2; symmetry; apply take_drop).
  split; cbn [ElfClass_header_size word_size]; try done.
  - destruct Hpre as [rest ->]. done.
  - destruct Hpre as [rest ->]. done.
  - destruct Hpre as [rest ->]. done.
  - change (ElfType_from_u16 (word 2 b 16) = Ok Executable). by rewrite H3.
  - change (ElfIsa_from_u16 (word 2 b 18) = Ok Amd64). by rewrite H4.
Qed.

Lemma from_u32_load v : ProgramHeaderType_from_u32 v = PhLoad ↔ v = 1.
Proof.
  split; [|by intros ->]. unfold ProgramHeaderType_from_u32. intros H. repeat (case_match; try done).
Qed.

(** C32: The parsers of the kernel and of omega3 agree: a file that the kernel accepts, omega3 accepts,
    with the same entry point and as many program headers, and header by header the kernel has a
    segment exactly where omega3 sees [PT_LOAD], with the bytes of the file, the address, the size
    in memory and the permissions that omega3 reads. *)
Theorem omega3_agrees_with_kernel {S} (b : bytes) (elf : Elf.Elf) (s : S) :
  is_bytes b → slice_len b < 2 ^ 63 → Elf.Elf_parse b s = Done (Ok elf, s) →
  ∃ u it, Elf_parse b = Ok u ∧ Elf_entry u = e_entry elf ∧ Elf_machine u = Amd64 ∧ Elf_program_headers u = Ok it ∧
    length (all_program_headers it) = length (Elf_segments (S := S) elf) ∧
    ∀ i step, Elf_segments elf !! i = Some step →
      ∃ ph r, all_program_headers it !! i = Some (Ok ph) ∧ step s = Done (r, s) ∧
        (r = None ↔ ph_segment_type ph ≠ PhLoad) ∧
        (∀ sg, r = Some (Ok sg) →
           sg = mkSegment (take (Z.to_nat (ph_file_size ph)) (drop (Z.to_nat (ph_file_offset ph)) b))
                  (ph_virtual_address ph) (ph_memory_size ph) (Z.testbit (ph_flags ph) 1) (Z.testbit (ph_flags ph) 0)).
Proof.
  intros Hb Hl E. destruct (parse_spec b Hb Hl s) as (r & E' & Hr). rewrite E in E'. injection E' as <-.
  destruct (proj1 (Hr elf) eq_refl) as [Hac ->]. pose proof (accepted_well_formed _ _ _ Hac) as Hwf.
  pose proof (ac_headers _ _ _ Hac) as Hp. pose proof (word_range 8 b 32 Hb) as Ho. pose proof (word_range 2 b 56 Hb) as Hc.
  destruct (program_headers_spec b Elf64 Little Executable Amd64 Hb Hl) as (it & Ei & Ea).
  { exact (ac_phentsize _ _ _ Hac). }
  { change (word 8 b 32 + 56 * word 2 b 56 ≤ slice_len b). lia. }
  { exact (proj1 Ho). }
  { exact (proj1 Hc). }
  change (h_program_header_offset (header_at Elf64 Little Executable Amd64 b)) with (word 8 b 32) in Ea.
  change (h_program_header_count (header_at Elf64 Little Executable Amd64 b)) with (word 2 b 56) in Ea.
  change (Z.to_nat (expected_entry_size Elf64)) with 56%nat in Ea. change (expected_entry_size Elf64) with 56 in Ea.
  rewrite (Z.mul_comm 56) in Ea.
  exists (mkElf b (header_at Elf64 Little Executable Amd64 b)), it. split_and!; [|done|done|exact Ei| |].
  - unfold Elf_parse. by rewrite (header_parse_complete b _ _ _ _ Hl Hwf).
  - rewrite Ea. unfold Elf_segments. cbn [e_headers]. by rewrite !length_fmap.
  - intros i step Hi. unfold Elf_segments in Hi. cbn [e_headers] in Hi. rewrite list_lookup_fmap in Hi.
    destruct (chunks_exact 56 _ !! i) as [h|] eqn:Eh; [|done]. injection Hi as <-.
    destruct (segment_step_spec b Hb Hl (Elf.mkElf b (take (Z.to_nat (word 2 b 56 * 56)) (drop (Z.to_nat (word 8 b 32)) b))
      (word 8 b 24)) i h s Hp eq_refl Eh) as (o & Eo & Hnone & Hsome).
    exists (program_header_at Elf64 Little h), o.
    split_and!; [by rewrite Ea, list_lookup_fmap, Eh|exact Eo| |].
    + rewrite Hnone. cbn [program_header_at ph_segment_type]. rewrite from_u32_load.
      apply (chunk_at b Hb Hp) in Eh as [_ ->]. change (uint_at Little 4 ?x 0) with (word 4 x 0).
      by rewrite (chunk_word b Hb), Z.add_0_r by lia.
    + intros sg Hsg. apply Hsome in Hsg as (_ & _ & ->). apply (chunk_at b Hb Hp) in Eh as [_ ->].
      unfold described. cbn [program_header_at ph_file_size ph_file_offset ph_virtual_address ph_memory_size ph_flags].
      unfold uint_at, from_bytes. fold (word 8) (word 4).
      change (of_le_bytes (take ?n (drop (Z.to_nat ?o) ?x))) with (word n x o). by rewrite !(chunk_word b Hb) by lia.
Qed.

Lemma omega3_agrees_with_kernel_witness :
  ∃ u, Elf_parse demo_elf = Ok u ∧ Elf_entry u = 0x400078.
Proof.
  destruct (omega3_agrees_with_kernel demo_elf demo_program () demo_elf_bytes demo_elf_length) as (u & it & E1 & E2 & _);
    [vm_compute; reflexivity|]. exists u. split; [exact E1|exact E2].
Defined.

Lemma omega3_elf_correct_witness :
  ElfHeader_parse demo_elf = Ok (header_at Elf64 Little Executable Amd64 demo_elf).
Proof.
  apply (proj1 (omega3_elf_correct demo_elf demo_elf_bytes demo_elf_length)).
  exists Elf64, Little, Executable, Amd64. split; [|reflexivity]. split; vm_compute; (reflexivity || discriminate).
Defined.

End Omega3.
