(* ===== verification/Loader.v ===== *)
(** * Loading an executable

    Model of [load_elf] and [spawn] of [src/task/bootstrap.rs]: the segments of an ELF file are
    copied into fresh frames, which are mapped into the address space of the new task. *)

From S2P Require Import Prelude Memory Bytes Frame Paging PageTree PageMap PageUnmap AddressSpace VirtMem Stack.
From S2P Require Import Ring Tcb Kernel Scheduler User Cpio Elf.

(** ** Definitions *)

Inductive ElfLoadError :=
| AddressTranslationFailed | FailedToMapSegment | ElfOutOfMemory | InvalidElf.

(** [core::ptr::copy_nonoverlapping] from a slice that is kept elsewhere. *)
Definition copy_bytes (m : memory) (a : VirtualAddr) (data : bytes) : memory :=
  λ x, match zget data (x - a) with Some b => b mod 256 | None => m x end.

Definition modify_mem (f : memory → memory) : M MState unit := modify (λ s, set_mem (f (ms_mem s)) s).

(** The bytes of one page: padding, data of the file, padding.  The source of the copy is read
    through a bounds check, which raw pointers do without. *)
Definition fill_page (segment : Segment) (file_end page destination : usize) : M MState unit :=
  let! page_end := uadd page FRAME_SIZE in
  let copy_start := Z.min (Z.max page (sg_address segment)) page_end in
  let copy_end := Z.max (Z.min page_end file_end) copy_start in
  let! prefix := usub copy_start page in
  let! copied := usub copy_end copy_start in
  do! modify_mem (λ m, write_bytes m destination 0 prefix) ;;;
  do! (if negb (copied =? 0) then
         let! from := usub copy_start (sg_address segment) in
         let! source := slice (sg_data segment) from (from + copied) in
         modify_mem (λ m, copy_bytes m (destination + prefix) source)
       else ret tt) ;;;
  let! rest := usub FRAME_SIZE prefix in
  let! rest := usub rest copied in
  modify_mem (λ m, write_bytes m (destination + (prefix + copied)) 0 rest).

(** One round of the loop over the pages of a segment. *)
Definition load_page (user_address_space : AddressSpace) (dm : DirectMap) (segment : Segment)
    (file_end : usize) (permissions : PagePermissions) (page : usize) :
    M MState (result unit ElfLoadError) :=
  let! o := FrameAllocator_alloc_nozero in
  match o with
  | None => ret (Err ElfOutOfMemory)
  | Some frame =>
      match DirectMap_translate dm frame with
      | None => do! FrameAllocator_dealloc frame ;;; ret (Err AddressTranslationFailed)
      | Some destination =>
          do! fill_page segment file_end page destination ;;;
          let! r := AddressSpace_map user_address_space frame page permissions WriteBack in
          match r with
          | Err _ => do! FrameAllocator_dealloc frame ;;; ret (Err FailedToMapSegment)
          | Ok _ => ret (Ok tt)
          end
      end
  end.

(** The end of a segment, if it lies in user space. *)
Definition segment_end (segment : Segment) : option usize :=
  match checked_add (sg_address segment) (sg_memory_size segment) with
  | Some end_ => if end_ <=? USER_SPACE_END then Some end_ else None
  | None => None
  end.

(** The loop over the segments; [executable_entry] is its mutable variable. *)
Fixpoint load_segments (user_address_space : AddressSpace) (dm : DirectMap) (entry : usize)
    (items : list (M MState (option (result Segment ElfError)))) (executable_entry : bool) :
    M MState (result bool ElfLoadError) :=
  match items with
  | [] => ret (Ok executable_entry)
  | next :: items =>
      let! item := next in
      match item with
      | None => load_segments user_address_space dm entry items executable_entry
      | Some (Err _) => ret (Err InvalidElf)
      | Some (Ok segment) =>
          let? end_ := ret (ok_or (segment_end segment) InvalidElf) in
          if sg_memory_size segment =? 0
          then load_segments user_address_space dm entry items executable_entry
          else
            let executable_entry :=
              executable_entry ||
              (sg_executable segment && ((sg_address segment <=? entry) && (entry <? end_))) in
            let page_start := Z.land (sg_address segment) (not64 (FRAME_SIZE - 1)) in
            let! file_end := uadd (sg_address segment) (slice_len (sg_data segment)) in
            let permissions := mkPagePermissions (sg_writable segment) (sg_executable segment) true in
            let? _ := mfor_ok (pages page_start end_)
                        (load_page user_address_space dm segment file_end permissions) in
            load_segments user_address_space dm entry items executable_entry
      end
  end.

Definition load_elf (b : bytes) (user_address_space : AddressSpace) (dm : DirectMap) :
    M MState (result VirtualAddr ElfLoadError) :=
  let! r := Elf_parse b in
  match r with
  | Err _ => ret (Err InvalidElf)
  | Ok program =>
      let? executable_entry :=
        load_segments user_address_space dm (e_entry program) (Elf_segments program) false in
      if negb executable_entry then ret (Err InvalidElf) else ret (Ok (e_entry program))
  end.

(** ** Starting the first task *)

Record InitramfsImage := mkInitramfsImage { ii_start : VirtualAddr; ii_length : usize }.

Definition InitramfsImage_data (self : InitramfsImage) (m : memory) : bytes :=
  raw_slice m (ii_start self) (ii_length self).

(** [result.expect(why)] *)
Definition expect_ok {S A E} (r : result A E) (why : string) : M S A :=
  match r with Ok a => ret a | Err _ => panic why end.

(** [user_thread_entry] is the address of the assembly routine a new thread starts in. *)
Definition spawn (user_thread_entry : Z) (name : bytes) (initramfs : InitramfsImage)
    (kernel_as : AddressSpace) (dm : DirectMap) : M KState TaskId :=
  let! k := get in
  let! found := find_file (InitramfsImage_data initramfs (ms_mem (k_mem k))) name in
  let! b := expect found "missing from initramfs" in
  let! r := allocate_kernel_stack kernel_as in
  let! kernel_stack := expect_ok r "kernel stack allocation failed" in
  let! k := get in
  let! initramfs_physical_addr :=
    expect (AddressSpace_to_physical kernel_as (ms_mem (k_mem k)) (ii_start initramfs))
      "failed to translate initramfs start address" in
  let! r := on_memory (AddressSpace_new_user kernel_as) in
  let! address_space := expect_ok r "address space allocation failed" in
  let! length := uadd (ii_length initramfs) 0xFFF in
  let! r := on_memory (AddressSpace_map_range address_space initramfs_physical_addr 0x40000000
              (Z.land length (not64 0xFFF)) (mkPagePermissions true false true) WriteBack) in
  do! expect_ok r "failed to map initramfs" ;;;
  let! r := on_memory (UserStack_allocate address_space) in
  let! user_stack := expect_ok r "user stack allocation failed" in
  let! r := on_memory (load_elf b address_space dm) in
  let! entry := expect_ok r "invalid ELF" in
  let! r := insert_address_space address_space in
  let! as_id := expect_ok r "address space table is full" in
  let! task := on_memory (Tcb_new_user (root kernel_as) user_thread_entry as_id kernel_stack entry
                 (UserStack_top user_stack)) in
  let! r := add_task task in
  expect_ok r "scheduler is full".

(** ** Filling a page *)

(** What a segment puts at an address: the file's bytes, then zeros, and zeros around it. *)
Definition segment_byte (segment : Segment) (x : VirtualAddr) : Z :=
  default 0 (zget (sg_data segment) (x - sg_address segment)).

Lemma load8_copy_bytes m a data x :
  is_bytes data → load8 (copy_bytes m a data) x = default (load8 m x) (zget data (x - a)).
Proof.
  intros Hd. unfold load8, copy_bytes. destruct (zget data (x - a)) as [b|] eqn:E; [|done]. simpl.
  rewrite Z.mod_mod by lia. apply Z.mod_small. pose proof (zget_Some_lt _ _ _ E).
  rewrite zget_lookup in E by lia. exact (Forall_lookup_1 _ _ _ _ Hd E).
Qed.

Lemma zget_slice (b : bytes) from n i :
  0 ≤ from → 0 ≤ n → from + n ≤ slice_len b →
  zget (take (Z.to_nat n) (drop (Z.to_nat from) b)) i =
  if (0 <=? i) && (i <? n) then zget b (from + i) else None.
Proof.
  intros Hf Hn Hl. unfold zget, slice_len in *. rewrite length_take, length_drop.
  destruct (Z.leb_spec 0 i), (Z.ltb_spec i n); simpl; try done.
  2: { rewrite (proj2 (Z.ltb_ge _ _)) by lia. done. }
  rewrite (proj2 (Z.ltb_lt i _)), (proj2 (Z.leb_le 0 (from + i))), (proj2 (Z.ltb_lt (from + i) _)) by lia. simpl.
  rewrite lookup_take_lt, lookup_drop by lia. f_equal. lia.
Qed.

Lemma zget_out {A} (l : list A) i : i < 0 ∨ Z.of_nat (length l) ≤ i → zget l i = None.
Proof. intros H. unfold zget. destruct (Z.leb_spec 0 i), (Z.ltb_spec i (Z.of_nat (length l))); (done || lia). Qed.

(** The copy in the middle of the page, from [cs] to [ce]. *)
Lemma fill_copy_spec sg page dest cs ce (s : MState) :
  is_bytes (sg_data sg) → 0 ≤ sg_address sg → cs ≤ ce →
  (cs ≠ ce → sg_address sg ≤ cs ∧ ce ≤ sg_address sg + slice_len (sg_data sg)) →
  ∃ m, (if negb (ce - cs =? 0)
        then let! from := usub cs (sg_address sg) in
             let! source := slice (sg_data sg) from (from + (ce - cs)) in
             modify (λ s, set_mem (copy_bytes (ms_mem s) (dest + (cs - page)) source) s)
        else ret tt) s = Done (tt, set_mem m s) ∧
    ∀ x, load8 m x = if (dest + (cs - page) <=? x) && (x <? dest + (ce - page))
                     then segment_byte sg (page + (x - dest)) else load8 (ms_mem s) x.
Proof.
  intros Hd Ha Hle Hin. destruct (Z.eqb_spec (ce - cs) 0) as [E0|E0].
  - exists (ms_mem s). split; [by destruct s|]. intros x.
    destruct (Z.leb_spec (dest + (cs - page)) x), (Z.ltb_spec x (dest + (ce - page))); (done || lia).
  - destruct Hin as [Hcs Hce]; [lia|]. change (negb false) with true. cbn iota.
    rewrite (bind_Done _ _ _ _ _ (usub_le cs (sg_address sg) _ Hcs)).
    erewrite bind_Done by (apply slice_Done; lia). unfold modify.
    eexists. split; [done|]. intros x.
    rewrite load8_copy_bytes by (by apply is_bytes_slice).
    rewrite Z.add_simpl_l, zget_slice by lia.
    destruct (Z.leb_spec (dest + (cs - page)) x), (Z.ltb_spec x (dest + (ce - page))); simpl.
    2-4: destruct (Z.leb_spec 0 (x - (dest + (cs - page)))),
      (Z.ltb_spec (x - (dest + (cs - page))) (ce - cs)); (done || lia).
    rewrite (proj2 (Z.leb_le _ _)), (proj2 (Z.ltb_lt _ _)) by lia. simpl. unfold segment_byte.
    replace (cs - sg_address sg + (x - (dest + (cs - page)))) with (page + (x - dest) - sg_address sg) by lia.
    destruct (zget_is_Some (sg_data sg) (page + (x - dest) - sg_address sg)) as [b ->]; [|done].
    unfold slice_len in *. lia.
Qed.

Lemma segment_byte_out sg x :
  x < sg_address sg ∨ sg_address sg + slice_len (sg_data sg) ≤ x → segment_byte sg x = 0.
Proof. intros H. unfold segment_byte. rewrite zget_out; [done|]. unfold slice_len in *. lia. Qed.

Lemma fill_page_spec sg page dest s :
  is_bytes (sg_data sg) → 0 ≤ sg_address sg → 0 ≤ page → page + FRAME_SIZE < W64 →
  ∃ m, fill_page sg (sg_address sg + slice_len (sg_data sg)) page dest s = Done (tt, set_mem m s) ∧
    (∀ o, 0 ≤ o < FRAME_SIZE → load8 m (dest + o) = segment_byte sg (page + o)) ∧
    (∀ x, x < dest ∨ dest + FRAME_SIZE ≤ x → load8 m x = load8 (ms_mem s) x).
Proof.
  intros Hd Ha Hp Hw. unfold FRAME_SIZE in *. unfold fill_page, modify_mem, FRAME_SIZE.
  mstep uadd_lt. set (fe := sg_address sg + slice_len (sg_data sg)).
  assert (Hfe : sg_address sg ≤ fe) by (unfold fe, slice_len; lia).
  set (cs := Z.min (Z.max page (sg_address sg)) (page + 4096)).
  set (ce := Z.max (Z.min (page + 4096) fe) cs).
  rewrite (bind_Done _ _ _ _ _ (usub_le cs page s ltac:(lia))).
  rewrite (bind_Done _ _ _ _ _ (usub_le ce cs s ltac:(lia))).
  rewrite bind_modify. set (s1 := set_mem (write_bytes (ms_mem s) dest 0 (cs - page)) s).
  destruct (fill_copy_spec sg page dest cs ce s1 Hd Ha ltac:(lia)) as (m2 & Em & Hm2); [lia|].
  rewrite (bind_Done _ _ _ _ _ Em).
  rewrite (bind_Done _ _ _ _ _ (usub_le 4096 (cs - page) _ ltac:(lia))).
  rewrite (bind_Done _ _ _ _ _ (usub_le (4096 - (cs - page)) (ce - cs) _ ltac:(lia))).
  eexists. split; [unfold modify; by destruct s|]. cbn [ms_mem set_mem].
  replace (cs - page + (ce - cs)) with (ce - page) by lia.
  replace (4096 - (cs - page) - (ce - cs)) with (4096 - (ce - page)) by lia. split.
  - intros o Ho. destruct (decide (ce - page ≤ o)).
    { rewrite load8_write_bytes_in by lia. symmetry. apply segment_byte_out. fold fe. lia. }
    rewrite load8_write_bytes_out by lia. rewrite Hm2, Z.add_simpl_l.
    destruct (Z.leb_spec (dest + (cs - page)) (dest + o)), (Z.ltb_spec (dest + o) (dest + (ce - page)));
      try lia; simpl; [done|]. rewrite load8_write_bytes_in by lia. symmetry. apply segment_byte_out. lia.
  - intros x Hx. rewrite load8_write_bytes_out, Hm2 by lia.
    destruct (Z.leb_spec (dest + (cs - page)) x), (Z.ltb_spec x (dest + (ce - page))); try lia; simpl;
      apply load8_write_bytes_out; lia.
Qed.

(** ** Loading a page *)

Section load.
Context (self : AddressSpace).
Abbreviation rt := (root self).
Abbreviation off := (offset (pt_direct_map rt)).

(** A fresh frame that has been filled: nothing that was allocated changes. *)
Lemma frame_filled s l k s1 m :
  pt_inv rt s l → l !! k = Some Free → fa_inv s1 (<[k := Allocated]> l) → same_layout s s1 →
  (∀ j st, l !! j = Some st → st ≠ Reserved → kept_frame s s1 j) → (∀ j, off_frame s j → kept_frame s s1 j) →
  (∀ x, x < frame_at k + off ∨ frame_at k + off + FRAME_SIZE ≤ x → load8 m x = load8 (ms_mem s1) x) →
  let s2 := set_mem m s1 in
  pt_inv rt s2 (<[k := Allocated]> l) ∧ (∀ x, same_page rt (ms_mem s) (ms_mem s2) x) ∧
  (∀ f, own_table rt (ms_mem s2) f → own_table rt (ms_mem s) f) ∧
  ¬ own_table rt (ms_mem s2) (frame_at k) ∧
  (∀ j, data_frame l s j → kept_frame s s2 j).
Proof.
  intros Hinv Hk Hfa Hl Hkept Hko Hm s2. set (l1 := <[k := Allocated]> l) in *.
  destruct (pt_inv_alloc rt s l k s1 Hinv Hk Hfa Hl) as (Hinv1 & Hs1 & Ht1); [by eauto|].
  assert (Hk1 : l1 !! k = Some Allocated)
    by (apply list_lookup_insert_eq; by eapply lookup_lt_Some).
  assert (Hdm1 : direct_map (ms_fa s1) = pt_direct_map rt) by apply Hinv1.
  assert (Hno : ¬ own_table rt (ms_mem s1) (frame_at k)).
  { intros Ho%Ht1. destruct (own_table_ok rt s l Hinv _ Ho) as [_ Hal].
    rewrite frame_at_index in Hal. congruence. }
  assert (Hout : ∀ j x, j ≠ k → in_frame (direct_map (ms_fa s1)) (Z.of_nat j) x → load8 m x = load8 (ms_mem s1) x).
  { intros j x Hj Hx. apply Hm. rewrite Hdm1 in Hx. unfold in_frame, frame_virt, frame_at, FRAME_SIZE in *. lia. }
  destruct (pt_inv_data rt l1 s1 s2 k Hinv1) as (Hinv2 & Hs2 & Ht2); [|done|done| |].
  - apply fa_inv_mem; [done|]. intros a Ha. apply Hm.
    pose proof (inv_storage _ _ Hfa k _ Hk1 ltac:(done)) as Hoff. rewrite Hdm1 in Hoff.
    unfold off_bitmap, frame_virt, frame_at, FRAME_SIZE in *. lia.
  - intros j st Hj Hst Hne x Hx. by eapply Hout.
  - split_and!; [done|intros x; by eapply same_page_trans|intros f; rewrite Ht2; apply Ht1|by rewrite Ht2|].
    intros j Hj. assert (j ≠ k) by (intros ->; by apply data_frame_used in Hj).
    eapply (kept_trans s s1 s2); [by destruct Hl as (_ & -> & _)|apply Hko; by eapply data_off_frame; [apply Hinv|]|].
    intros x Hx. by eapply Hout.
Qed.

(** A page of a segment has been loaded: it is mapped, to a fresh frame that holds its bytes. *)
Record page_loaded (sg : Segment) (perms : PagePermissions) (page : VirtualAddr) (k : nat)
    (s s' : MState) (l l' : list FrameState) : Prop := {
  pl_map : map_ok_post rt page (frame_at k) perms s s' l l';
  pl_free : l !! k = Some Free;
  pl_held : l' !! k = Some Allocated;
  pl_data : ¬ own_table rt (ms_mem s') (frame_at k);
  pl_bytes : ∀ o, 0 ≤ o < FRAME_SIZE →
    load8 (ms_mem s') (frame_at k + off + o) = segment_byte sg (page + o);
}.

Lemma filled_mapped sg perms page k s s2 s3 l l3 :
  let l1 := <[k := Allocated]> l in
  pt_inv rt s l → l !! k = Some Free → pt_inv rt s2 l1 → (∀ x, same_page rt (ms_mem s) (ms_mem s2) x) →
  (∀ f, own_table rt (ms_mem s2) f → own_table rt (ms_mem s) f) →
  ¬ own_table rt (ms_mem s2) (frame_at k) → (∀ j, data_frame l s j → kept_frame s s2 j) →
  ms_cr3 s2 = ms_cr3 s → ms_flushed s2 = ms_flushed s → same_area s s2 →
  (∀ o, 0 ≤ o < FRAME_SIZE → load8 (ms_mem s2) (frame_at k + off + o) = segment_byte sg (page + o)) →
  map_ok_post rt page (frame_at k) perms s2 s3 l1 l3 → page_loaded sg perms page k s s3 l l3.
Proof.
  intros l1 Hinv Hk Hinv2 Hs2 Ht2 Hno2 Hk2 Hcr Hfl Hbm Hb [M1 M2 M3 M4 M5 M6 M7 M8 M9 M10 M11 M12 M13].
  assert (Hl1 : ∀ j, j ≠ k → l1 !! j = l !! j) by (intros; unfold l1; by rewrite list_lookup_insert_ne).
  assert (Hk1 : l1 !! k = Some Allocated)
    by (apply list_lookup_insert_eq; by eapply lookup_lt_Some).
  assert (Hdm : direct_map (ms_fa s2) = direct_map (ms_fa s))
    by (by rewrite (pi_dm _ _ _ Hinv2), (pi_dm _ _ _ Hinv)).
  split; [split; try done|done|by apply M6| |].
  - by apply (unmapped_page_same rt (ms_mem s) (ms_mem s2)).
  - intros x Hx Ex. eapply same_page_trans; [apply Hs2|by apply M5].
  - intros j Hj. assert (j ≠ k) by congruence. destruct (M6 j) as [Hj3 Hkj]; [by rewrite Hl1|].
    split; [done|]. intros Hno. eapply kept_trans; [exact Hdm|apply Hk2; by left|]. apply Hkj. auto.
  - intros f Hf. destruct (M7 f Hf) as [?|(j & -> & Hj)]; [by left; apply Ht2|]. right. exists j.
    split; [done|]. rewrite <- Hl1; [done|]. congruence.
  - unfold active_root in *. by rewrite <- Hcr, <- Hfl.
  - eapply entries_kept_before; [done| |done]. intros j Hj. apply Hk2. by left.
  - intros j. destruct (decide (j = k)) as [->|Hj]; [|rewrite <- (Hl1 j Hj); apply M10].
    right. split; [exact Hk|]. destruct (M10 k) as [E|[E _]]; congruence.
  - congruence.
  - by etrans.
  - intros j Hj Hno. assert (j ≠ k) by (intros ->; by apply data_frame_used in Hj).
    eapply kept_trans; [exact Hdm|by apply Hk2|]. apply M13; [|by auto].
    eapply data_frame_mono; [exact Hbm| | |exact Hj]; by rewrite Hl1.
  - intros Ho. destruct (M7 _ Ho) as [?|(j & E & Hj)]; [done|]. apply frame_at_inj in E as <-. congruence.
  - intros o Ho. rewrite <- Hb by done. destruct (M6 k Hk1) as [_ Hkk]. apply (Hkk Hno2).
    rewrite (pi_dm _ _ _ Hinv2). unfold in_frame, frame_virt, frame_at, FRAME_SIZE in *. lia.
Qed.

(** Giving the frame back after the mapping failed. *)
Lemma filled_back k s s2 s3 l :
  let l1 := <[k := Allocated]> l in
  pt_inv rt s l → l !! k = Some Free → (∀ x, same_page rt (ms_mem s) (ms_mem s2) x) →
  pt_inv rt s2 l1 → (∀ f, own_table rt (ms_mem s2) f → own_table rt (ms_mem s) f) →
  ¬ own_table rt (ms_mem s2) (frame_at k) → (∀ j, data_frame l s j → kept_frame s s2 j) →
  ms_cr3 s2 = ms_cr3 s → ms_flushed s2 = ms_flushed s → same_area s s2 →
  map_err_post rt s2 s3 l1 →
  ∃ s4, FrameAllocator_dealloc (frame_at k) s3 = Done (tt, s4) ∧ map_err_post rt s s4 l.
Proof.
  intros l1 Hinv Hk Hs2 Hinv2 Ht2 Hno2 Hk2 Hcr Hfl Hbm [E1 E2 E3 E4 E5 E6 E7 E8 E9].
  assert (Hl1 : ∀ j, j ≠ k → l1 !! j = l !! j) by (intros; unfold l1; by rewrite list_lookup_insert_ne).
  assert (Hk1 : l1 !! k = Some Allocated)
    by (apply list_lookup_insert_eq; by eapply lookup_lt_Some).
  assert (Hll : <[k := Free]> l1 = l) by (unfold l1; rewrite list_insert_insert_eq; by apply list_insert_id).
  destruct (dealloc_contract s3 l1 k (pi_alloc _ _ _ E1) Hk1) as (s4 & Ed & Hfa & Hl & Hkd).
  destruct (pt_inv_dealloc rt s3 l1 k s4 E1 Hk1 ltac:(auto) Hfa Hl Hkd) as (Hinv4 & Hs4 & Ht4).
  assert (Hkept : ∀ j, data_frame l s j → kept_frame s s4 j).
  { intros j Hj. assert (j ≠ k) by (intros ->; by apply data_frame_used in Hj).
    assert (Hj1 : data_frame l1 s2 j) by (eapply data_frame_mono; [exact Hbm| | |exact Hj]; by rewrite Hl1).
    eapply kept_trans; [by rewrite (pi_dm _ _ _ Hinv2), (pi_dm _ _ _ Hinv)|by apply Hk2|].
    eapply (kept_trans s2 s3 s4); [by rewrite (pi_dm _ _ _ Hinv2), (pi_dm _ _ _ E1)|by apply E9|].
    eapply (dealloc_off s3 l1 k s4); [apply E1|exact Hk1|exact Ed|]. eapply data_off_frame; [apply E1|].
    eapply data_frame_mono; [exact E8| | |exact Hj1]; done. }
  rewrite Hll in *. exists s4. split; [done|]. split; [done| | |by auto| | |destruct Hl as (_ & _ & -> & _); congruence|etrans; [exact Hbm|]; etrans; [exact E8|by apply same_area_layout]|done].
  - intros x. eapply same_page_trans; [apply Hs2|]. by eapply same_page_trans.
  - intros j Hj. split; [done|]. intros _. apply Hkept. by left.
  - destruct Hl as (_ & _ & _ & ->). by rewrite E5.
  - intros j Hj. apply Hkept. by left.
Qed.

(** Why a page could not be loaded. *)
Definition page_failure (e : ElfLoadError) (l : list FrameState) : Prop :=
  e = ElfOutOfMemory ∧ Free ∉ l ∨ e = FailedToMapSegment.

Lemma load_page_spec sg perms page s l :
  pt_inv rt s l → is_bytes (sg_data sg) → 0 ≤ sg_address sg → 0 ≤ page → page + FRAME_SIZE < W64 →
  ∃ r s', load_page self (pt_direct_map rt) sg (sg_address sg + slice_len (sg_data sg)) perms page s =
      Done (r, s') ∧
    match r with
    | Ok _ => ∃ k l', page_loaded sg perms page k s s' l l'
    | Err e => map_err_post rt s s' l ∧ page_failure e l
    end.
Proof.
  intros Hinv Hd Ha Hp Hw. pose proof (pi_alloc _ _ _ Hinv) as Hfa. unfold load_page.
  destruct (alloc_nozero_contract s l Hfa) as [[E Hnf]|(k & s1 & E & Hk & Hfa1 & Hl & Hkept)];
    rewrite (bind_Done _ _ _ _ _ E).
  { exists (Err ElfOutOfMemory), s. split; [done|]. split; [by apply map_err_post_refl|by left]. }
  pose proof (inv_index_bound _ _ Hfa _ _ Hk) as Hbd. pose proof (inv_frame_count_bound _ _ Hfa) as Hfc.
  pose proof (inv_cover _ _ Hfa) as Hcov. pose proof (inv_offset _ _ Hfa) as Hof. rewrite (pi_dm _ _ _ Hinv) in Hcov, Hof.
  unfold DirectMap_translate. rewrite checked_add_lt by (unfold frame_virt, FRAME_SIZE in *; lia).
  destruct (fill_page_spec sg page (Z.of_nat k * FRAME_SIZE + off) s1 Hd Ha Hp Hw) as (m & Ef & Hin & Hout).
  rewrite (bind_Done _ _ _ _ _ Ef).
  destruct (frame_filled s l k s1 m Hinv Hk Hfa1 Hl Hkept (alloc_nozero_off s l k s1 Hfa E) Hout) as (Hinv2 & Hs2 & Ht2 & Hno2 & Hk2).
  pose proof (same_area_layout _ _ Hl) as Hbm. destruct Hl as (_ & _ & Hcr & Hfl).
  destruct (AddressSpace_map_spec self (set_mem m s1) _ (Z.of_nat k * FRAME_SIZE) page perms WriteBack Hinv2)
    as (r & s3 & E3 & Hr); [unfold FRAME_SIZE in *; ulia..|].
  rewrite (bind_Done _ _ _ _ _ E3). destruct r as [[]|e].
  - destruct Hr as [_ [l3 Hpost]]. exists (Ok tt), s3. split; [done|]. exists k, l3.
    by eapply filled_mapped.
  - destruct (filled_back k s (set_mem m s1) s3 l Hinv Hk Hs2 Hinv2 Ht2 Hno2 Hk2 Hcr Hfl Hbm Hr) as (s4 & E4 & Hp4).
    unfold frame_at in E4. rewrite (bind_Done _ _ _ _ _ E4). exists (Err FailedToMapSegment), s4.
    split; [done|]. split; [done|by right].
Qed.

(** ** Loading all pages *)

Record LoadedPage := mkLoadedPage { lp_page : VirtualAddr; lp_frame : nat; lp_segment : Segment }.

Definition segment_permissions (sg : Segment) : PagePermissions :=
  mkPagePermissions (sg_writable sg) (sg_executable sg) true.

(** The page is mapped with its segment's permissions to a frame of its own that holds its bytes. *)
Record page_in (p : LoadedPage) (s : MState) (l : list FrameState) : Prop := {
  pg_maps : maps_page rt (ms_mem s) (lp_page p) (frame_at (lp_frame p)) (segment_permissions (lp_segment p));
  pg_held : l !! lp_frame p = Some Allocated;
  pg_data : ¬ own_table rt (ms_mem s) (frame_at (lp_frame p));
  pg_bytes : ∀ o, 0 ≤ o < FRAME_SIZE →
    load8 (ms_mem s) (frame_at (lp_frame p) + off + o) = segment_byte (lp_segment p) (lp_page p + o);
}.

(** From [s], [l] the pages [pgs] were loaded, and nothing else changed. *)
Record loaded (s : MState) (l : list FrameState) (pgs : list LoadedPage)
    (s' : MState) (l' : list FrameState) : Prop := {
  ld_inv : pt_inv rt s' l';
  ld_pages : ∀ p, p ∈ pgs → page_in p s' l' ∧ unmapped_page rt (ms_mem s) (lp_page p) ∧
    l !! lp_frame p ≠ Some Allocated;
  ld_frames : NoDup (lp_frame <$> pgs);
  ld_others : ∀ x, is_u64 x → (∀ p, p ∈ pgs → x / PAGE_SIZE ≠ lp_page p / PAGE_SIZE) →
    same_page rt (ms_mem s) (ms_mem s') x;
  ld_kept : bystanders_kept rt s s' l l';
  ld_tables : ∀ f, own_table rt (ms_mem s') f → own_table rt (ms_mem s) f ∨
    ∃ k, f = frame_at k ∧ l !! k ≠ Some Allocated;
}.

Lemma loaded_nil s l : pt_inv rt s l → loaded s l [] s l.
Proof.
  intros Hinv. split; try done; [by intros p ?%not_elem_of_nil|constructor|by left].
Qed.

Lemma page_in_kept p s s' l l' :
  pt_inv rt s l → page_in p s l → bystanders_kept rt s s' l l' →
  (∀ x, is_u64 x → x / PAGE_SIZE = lp_page p / PAGE_SIZE → same_page rt (ms_mem s) (ms_mem s') x) →
  ¬ own_table rt (ms_mem s') (frame_at (lp_frame p)) → page_in p s' l'.
Proof.
  intros Hinv [P1 P2 P3 P4] Hk Hs Hno. destruct (Hk _ P2) as [Hh Hkf]. split; [|done|done|].
  - by eapply maps_page_same.
  - intros o Ho. rewrite <- P4 by done. apply (Hkf P3). rewrite (pi_dm _ _ _ Hinv).
    unfold in_frame, frame_virt, frame_at, FRAME_SIZE in *. lia.
Qed.

Lemma bystanders_trans s s' s'' l l' l'' :
  pt_inv rt s l → pt_inv rt s' l' → bystanders_kept rt s s' l l' → bystanders_kept rt s' s'' l' l'' →
  (∀ f, own_table rt (ms_mem s') f → own_table rt (ms_mem s) f ∨ ∃ k, f = frame_at k ∧ l !! k ≠ Some Allocated) →
  bystanders_kept rt s s'' l l''.
Proof.
  intros Hi Hi' H1 H2 Ht k Hk. destruct (H1 k Hk) as [Hk' Hf1]. destruct (H2 k Hk') as [Hk'' Hf2].
  split; [done|]. intros Hno.
  eapply (kept_trans s s' s''); [by rewrite (pi_dm _ _ _ Hi'), (pi_dm _ _ _ Hi)|by apply Hf1|].
  apply Hf2. intros Ho. destruct (Ht _ Ho) as [?|(k' & E & Hf)]; [done|].
  apply frame_at_inj in E as <-. done.
Qed.

Lemma loaded_fail s l pgs s' l' s'' :
  pt_inv rt s l → loaded s l pgs s' l' → map_err_post rt s' s'' l' → loaded s l pgs s'' l'.
Proof.
  intros Hinv [L1 L2 L3 L4 L5 L6] [E1 E2 E3 E4 E5]. split; try done.
  - intros p Hp. destruct (L2 p Hp) as (Hin & Hun & Hf). split_and!; [|done|done].
    eapply page_in_kept; [exact L1|done|done|by auto|]. intros Ho. by apply (pg_data _ _ _ Hin), E4.
  - intros x Hx Hne. eapply same_page_trans; [by apply L4|apply E2].
  - exact (bystanders_trans s s' s'' l l' l' Hinv L1 L5 E3 L6).
  - intros f Hf. by apply L6, E4.
Qed.

Lemma loaded_step s l pgs s' l' sg page k s'' l'' :
  pt_inv rt s l → is_u64 page → loaded s l pgs s' l' →
  page_loaded sg (segment_permissions sg) page k s' s'' l' l'' →
  loaded s l (pgs ++ [mkLoadedPage page k sg]) s'' l''.
Proof.
  intros Hinv Hu [L1 L2 L3 L4 L5 L6] [[M1 M2 M3 M4 M5 M6 M7 M8] Hfree Hheld Hdata Hbytes].
  assert (Hne : ∀ p, p ∈ pgs → page / PAGE_SIZE ≠ lp_page p / PAGE_SIZE).
  { intros p Hp E. destruct (L2 p Hp) as ([Hm _ _ _] & _ & _).
    destruct (Hm page Hu E) as [Hs _]. destruct (M4 page Hu eq_refl) as [[Hn _] _]. congruence. }
  assert (Hkl : l !! k ≠ Some Allocated) by (intros Hc; destruct (L5 k Hc); congruence).
  assert (Htab : ∀ f, own_table rt (ms_mem s'') f → own_table rt (ms_mem s) f ∨
    ∃ j, f = frame_at j ∧ l !! j ≠ Some Allocated).
  { intros f Hf. destruct (M7 f Hf) as [Ho|(j & -> & Hj)]; [by apply L6|]. right. exists j.
    split; [done|]. intros Hc. destruct (L5 j Hc). congruence. }
  split; [done| | | |exact (bystanders_trans s s' s'' l l' l'' Hinv L1 L5 M6 L6)|done].
  - intros p [Hp| ->%list_elem_of_singleton]%elem_of_app.
    + destruct (L2 p Hp) as (Hin & Hun & Hf). split_and!; [|done|done].
      eapply page_in_kept; [exact L1|done|done| |].
      * intros x Hx Ex. apply M5; [done|]. rewrite Ex. specialize (Hne p Hp). congruence.
      * intros Ho. destruct (M7 _ Ho) as [?|(j & E & Hj)]; [by apply (pg_data _ _ _ Hin)|].
        apply frame_at_inj in E as <-. pose proof (pg_held _ _ _ Hin). congruence.
    + split_and!; [by split| |done]. simpl. apply (unmapped_page_same rt (ms_mem s) (ms_mem s')); [|exact M4].
      intros x Hx Ex. apply L4; [done|]. intros p Hp. rewrite Ex. by apply Hne.
  - rewrite fmap_app. apply NoDup_app. split_and!; [done| |apply NoDup_singleton].
    intros j (p & -> & Hp)%list_elem_of_fmap Ek%list_elem_of_singleton. simpl in Ek.
    destruct (L2 p Hp) as ([_ Hh _ _] & _). congruence.
  - intros x Hx Hnx. eapply same_page_trans; [apply L4|apply M5]; [done| |done|].
    + intros p Hp. apply Hnx, elem_of_app. by left.
    + apply (Hnx (mkLoadedPage page k sg)), elem_of_app. right. by apply list_elem_of_singleton.
Qed.

Context (s : MState) (l : list FrameState) (Hinv : pt_inv rt s l).

Lemma load_pages_spec sg ps pgs s' l' :
  loaded s l pgs s' l' → is_bytes (sg_data sg) → 0 ≤ sg_address sg →
  Forall (λ page, 0 ≤ page ∧ page + FRAME_SIZE < W64) ps →
  ∃ r s'' l'' new,
    mfor_ok ps (load_page self (pt_direct_map rt) sg (sg_address sg + slice_len (sg_data sg))
                  (segment_permissions sg)) s' = Done (r, s'') ∧
    loaded s l (pgs ++ new) s'' l'' ∧ (∀ p, p ∈ new → lp_segment p = sg ∧ lp_page p ∈ ps) ∧
    (r = Ok tt → lp_page <$> new = ps) ∧ (∀ e, r = Err e → page_failure e l'').
Proof.
  intros Hl Hd Ha Hps. revert pgs s' l' Hl. induction Hps as [|page ps [Hp0 Hp] _ IH]; intros pgs s' l' Hl.
  { exists (Ok tt), s', l', []. rewrite app_nil_r. split_and!; [done|done|by intros p ?%not_elem_of_nil|done|done]. }
  cbn [mfor_ok].
  destruct (load_page_spec sg (segment_permissions sg) page s' l' (ld_inv _ _ _ _ _ Hl) Hd Ha Hp0 Hp)
    as (r & s1 & E & Hr). destruct r as [[]|e].
  - destruct Hr as (k & l1 & Hpl). rewrite (bind_ok_Ok _ _ _ _ _ E).
    apply (loaded_step s l pgs s' l' sg page k s1 l1 Hinv) in Hpl; [|unfold FRAME_SIZE in *; ulia|done].
    destruct (IH _ s1 l1 Hpl) as (r & s2 & l2 & new & E2 & Hl2 & Hnew & Hok & Hbad).
    exists r, s2, l2, (mkLoadedPage page k sg :: new).
    rewrite <- app_assoc in Hl2. split_and!; [done|done| | |done].
    + intros p [->|Hp']%elem_of_cons; [split; [done|left]|]. destruct (Hnew p Hp'). split; [done|by right].
    + intros Hr. rewrite fmap_cons. simpl. by rewrite (Hok Hr).
  - destruct Hr as [Hr Hbad]. rewrite (bind_ok_Err _ _ _ _ _ E). exists (Err e), s1, l', [].
    rewrite app_nil_r. split_and!; [done|by eapply loaded_fail|by intros p ?%not_elem_of_nil|done|]. by intros e' [= <-].
Qed.

End load.

(** ** Loading all segments *)

(** The pages a segment covers. *)
Definition segment_pages (sg : Segment) : list VirtualAddr :=
  if sg_memory_size sg =? 0 then []
  else pages (Z.land (sg_address sg) (not64 (FRAME_SIZE - 1))) (sg_address sg + sg_memory_size sg).

(** The program header at [at_] is one to load, and its segment lies in user space. *)
Definition placed (b : bytes) (at_ : usize) : Prop :=
  loadable b at_ ∧ sg_address (described b at_) + sg_memory_size (described b at_) ≤ USER_SPACE_END.

(** Its segment can be executed and has the entry point. *)
Definition has_entry (b : bytes) (entry : usize) (at_ : usize) : Prop :=
  let sg := described b at_ in
  word 4 b at_ = 1 ∧ sg_executable sg = true ∧
  sg_address sg ≤ entry < sg_address sg + sg_memory_size sg.

(** What a step of the iterator yields for that header. *)
Definition step_result (b : bytes) (at_ : usize) (r : option (result Segment ElfError)) : Prop :=
  (r = None ↔ word 4 b at_ ≠ 1) ∧
  (∀ sg, r = Some (Ok sg) ↔ word 4 b at_ = 1 ∧ loadable b at_ ∧ sg = described b at_).

Lemma described_ok b at_ :
  is_bytes b → is_bytes (sg_data (described b at_)) ∧ is_u64 (sg_address (described b at_)) ∧
  0 ≤ sg_memory_size (described b at_).
Proof.
  intros Hb. split_and!; [by apply is_bytes_slice| |]; simpl.
  - exact (word_range 8 b _ Hb).
  - apply (word_range 8 b _ Hb).
Qed.

Lemma segment_pages_bound sg page :
  is_u64 (sg_address sg) → sg_address sg + sg_memory_size sg ≤ USER_SPACE_END → page ∈ segment_pages sg →
  0 ≤ page ∧ page + FRAME_SIZE < W64.
Proof.
  intros Ha He. unfold segment_pages. destruct (_ =? 0); [by intros ?%not_elem_of_nil|].
  intros (i & -> & Hi & Hlt)%elem_of_pages.
  change (FRAME_SIZE - 1) with (2 ^ 12 - 1) in *. rewrite land_not64_mask in * by (done || lia).
  unfold FRAME_SIZE, USER_SPACE_END, W64, is_u64 in *. pose proof (Z.mod_pos_bound (sg_address sg) (2 ^ 12)).
  split; [dmlia|lia].
Qed.

Lemma segment_pages_cover sg x :
  is_u64 (sg_address sg) → sg_address sg ≤ x < sg_address sg + sg_memory_size sg →
  x - x mod PAGE_SIZE ∈ segment_pages sg.
Proof.
  intros Ha Hx. unfold segment_pages. rewrite (proj2 (Z.eqb_neq _ _)) by lia. apply elem_of_pages.
  change (FRAME_SIZE - 1) with (2 ^ 12 - 1). rewrite land_not64_mask by (done || lia).
  exists (x / PAGE_SIZE - sg_address sg / PAGE_SIZE). unfold FRAME_SIZE, PAGE_SIZE, is_u64 in *. split_and!; dmlia.
Qed.

Section segments.
Context (self : AddressSpace) (b : bytes) (entry : usize).
Context (s : MState) (l : list FrameState) (Hinv : pt_inv (root self) s l) (Hb : is_bytes b).

(** Every page of the segments [ats] is among the loaded pages. *)
Definition all_placed (ats : list usize) (pgs : list LoadedPage) : Prop :=
  ∀ at_, at_ ∈ ats → word 4 b at_ = 1 → placed b at_ ∧
    ∀ page, page ∈ segment_pages (described b at_) →
      ∃ p, p ∈ pgs ∧ lp_page p = page ∧ lp_segment p = described b at_.

(** Every loaded page belongs to one of the segments. *)
Definition only_placed (ats : list usize) (pgs : list LoadedPage) : Prop :=
  ∀ p, p ∈ pgs → ∃ at_, at_ ∈ ats ∧ word 4 b at_ = 1 ∧ placed b at_ ∧
    lp_segment p = described b at_ ∧ lp_page p ∈ segment_pages (described b at_).

Definition segments_result (ats : list usize) (pgs : list LoadedPage) (ee : bool)
    (r : result bool ElfLoadError) (s' : MState) : Prop :=
  ∃ l' new, loaded self s l (pgs ++ new) s' l' ∧ only_placed ats new ∧
    match r with
    | Ok ee' => all_placed ats new ∧
        (ee' = true ↔ ee = true ∨ ∃ at_, at_ ∈ ats ∧ has_entry b entry at_)
    | Err e => e = InvalidElf ∧ (∃ at_, at_ ∈ ats ∧ word 4 b at_ = 1 ∧ ¬ placed b at_) ∨ page_failure e l'
    end.

Lemma only_placed_nil ats : only_placed ats [].
Proof. by intros p ?%not_elem_of_nil. Qed.

Lemma segments_err at_ ats pgs ee s' l' :
  loaded self s l pgs s' l' → word 4 b at_ = 1 → ¬ placed b at_ →
  segments_result (at_ :: ats) pgs ee (Err InvalidElf) s'.
Proof.
  intros Hl Hw Hp. exists l', []. rewrite app_nil_r. split_and!; [done|apply only_placed_nil|].
  left. split; [done|]. exists at_. split; [left|done].
Qed.

(** One header after which the loop goes on, having loaded [new]. *)
Lemma segments_cons at_ ats pgs new ee ee1 r s' :
  only_placed [at_] new → all_placed [at_] new →
  (ee1 = true ↔ ee = true ∨ has_entry b entry at_) →
  segments_result ats (pgs ++ new) ee1 r s' → segments_result (at_ :: ats) pgs ee r s'.
Proof.
  intros Ho Ha He (l' & new' & Hl & Ho' & Hok). exists l', (new ++ new'). rewrite app_assoc.
  split_and!; [done| |].
  - intros p [Hp|Hp]%elem_of_app.
    + destruct (Ho p Hp) as (a & ->%list_elem_of_singleton & Hr). exists at_. split; [left|done].
    + destruct (Ho' p Hp) as (a & Hin & Hr). exists a. split; [by right|done].
  - destruct r as [ee'|e].
    2: { setoid_rewrite elem_of_cons. naive_solver. }
    destruct Hok as [Hall Hee]. split.
    + intros a [->|Hin]%elem_of_cons Hw.
      * destruct (Ha at_ ltac:(by apply list_elem_of_singleton) Hw) as [Hp Hpg]. split; [done|].
        intros page Hpage. destruct (Hpg page Hpage) as (p & Hp' & Hr'). exists p. rewrite elem_of_app. auto.
      * destruct (Hall a Hin Hw) as [Hp Hpg]. split; [done|].
        intros page Hpage. destruct (Hpg page Hpage) as (p & Hp' & Hr'). exists p. rewrite elem_of_app. auto.
    + rewrite Hee, He. setoid_rewrite elem_of_cons. naive_solver.
Qed.

(** A segment without pages has nothing to load. *)
Lemma empty_placed at_ :
  placed b at_ → sg_memory_size (described b at_) = 0 → all_placed [at_] [] ∧ ¬ has_entry b entry at_.
Proof.
  intros Hp H0. split; [|unfold has_entry; lia].
  intros a ->%list_elem_of_singleton _. split; [done|]. unfold segment_pages. rewrite H0.
  by intros page ?%not_elem_of_nil.
Qed.

Lemma described_data_length at_ :
  loadable b at_ → slice_len (sg_data (described b at_)) ≤ sg_memory_size (described b at_).
Proof.
  intros [Hs _ Hd]. simpl. pose proof (word_range 8 b (at_ + 32) Hb). pose proof (word_range 8 b (at_ + 8) Hb).
  unfold slice_len in *. rewrite length_take, length_drop. lia.
Qed.

(** The pages of one segment. *)
Lemma load_segment_pages at_ pgs s' l' :
  word 4 b at_ = 1 → placed b at_ → loaded self s l pgs s' l' →
  let sg := described b at_ in
  ∃ r s'' l'' new,
    mfor_ok (segment_pages sg) (load_page self (pt_direct_map (root self)) sg
      (sg_address sg + slice_len (sg_data sg)) (segment_permissions sg)) s' = Done (r, s'') ∧
    loaded self s l (pgs ++ new) s'' l'' ∧ only_placed [at_] new ∧ (r = Ok tt → all_placed [at_] new) ∧
    (∀ e, r = Err e → page_failure e l'').
Proof.
  intros Hw Hp Hl sg. destruct (described_ok b at_ Hb) as (Hd & Ha & Hm).
  destruct (load_pages_spec self s l Hinv sg (segment_pages sg) pgs s' l' Hl Hd (proj1 Ha))
    as (r & s'' & l'' & new & E & Hl'' & Hnew & Hok & Hbad).
  { apply Forall_forall. intros page. apply segment_pages_bound; [done|apply Hp]. }
  exists r, s'', l'', new. split_and!; [done|done| | |done].
  - intros p Hin. destruct (Hnew p Hin). exists at_. split_and!; [by apply list_elem_of_singleton|done..].
  - intros Hr a ->%list_elem_of_singleton _. split; [done|]. intros page Hpage. fold sg in Hpage.
    rewrite <- (Hok Hr) in Hpage. apply list_elem_of_fmap in Hpage as (p & -> & Hin).
    exists p. split_and!; [done|done|by apply Hnew].
Qed.

Lemma entry_test at_ ee :
  word 4 b at_ = 1 →
  let sg := described b at_ in
  ee || (sg_executable sg && ((sg_address sg <=? entry) && (entry <? sg_address sg + sg_memory_size sg))) = true ↔
  ee = true ∨ has_entry b entry at_.
Proof.
  intros Hw sg. unfold has_entry. rewrite orb_true_iff, !andb_true_iff, Z.leb_le, Z.ltb_lt. tauto.
Qed.

Lemma load_segments_spec items ats ee pgs s' l' :
  Forall2 (λ c at_, ∀ s, ∃ r, c s = Done (r, s) ∧ step_result b at_ r) items ats →
  loaded self s l pgs s' l' →
  ∃ r s'', load_segments self (pt_direct_map (root self)) entry items ee s' = Done (r, s'') ∧
    segments_result ats pgs ee r s''.
Proof.
  intros Hit. revert ee pgs s' l'. induction Hit as [|c at_ items ats Hc _ IH]; intros ee pgs s' l' Hl.
  { exists (Ok ee), s'. split; [done|]. exists l', []. rewrite app_nil_r.
    split_and!; [done|apply only_placed_nil|by intros a ?%not_elem_of_nil|].
    setoid_rewrite elem_of_nil. naive_solver. }
  assert (Hskip : all_placed [at_] [] ∧ ¬ has_entry b entry at_ →
    ∃ r s'', load_segments self (pt_direct_map (root self)) entry items ee s' = Done (r, s'') ∧
      segments_result (at_ :: ats) pgs ee r s'').
  { intros [Hap Hno]. destruct (IH ee pgs s' l' Hl) as (r & s'' & E & Hr). exists r, s''. split; [done|].
    apply (segments_cons at_ ats pgs [] ee ee); [apply only_placed_nil|done|tauto|by rewrite app_nil_r]. }
  cbn [load_segments]. destruct (Hc s') as (r & Ec & Hnone & Hsome). rewrite (bind_Done _ _ _ _ _ Ec).
  destruct r as [[sg|e]|].
  2: { eexists _, s'. split; [done|]. assert (Hw : word 4 b at_ = 1) by (destruct (decide (word 4 b at_ = 1)); naive_solver).
       eapply segments_err; [done|done|]. intros [Hlo _]. discriminate (proj2 (Hsome _) (conj Hw (conj Hlo eq_refl))). }
  2: { pose proof (proj1 Hnone eq_refl) as Hw. apply Hskip. unfold has_entry.
       split; [by intros a ->%list_elem_of_singleton|naive_solver]. }
  destruct (proj1 (Hsome sg) eq_refl) as (Hw & Hlo & ->). clear Hnone Hsome.
  destruct (described_ok b at_ Hb) as (Hd & Ha & Hm). pose proof (described_data_length at_ Hlo) as Hlen.
  pose proof (segment_pages_bound (described b at_)) as Hpb. unfold placed, segment_pages in *.
  unfold segment_end. destruct (checked_add _ _) as [e|] eqn:Ee; [apply checked_add_Some in Ee as [-> _]|].
  2: { apply checked_add_None in Ee. eexists _, s'. split; [done|]. eapply segments_err; [done|done|].
       intros [_ He]. unfold USER_SPACE_END, W64 in *. lia. }
  destruct (Z.leb_spec (sg_address (described b at_) + sg_memory_size (described b at_)) USER_SPACE_END) as [He|He].
  2: { eexists _, s'. split; [done|]. eapply segments_err; [done|done|]. unfold placed. lia. }
  cbn [ok_or]. rewrite bind_ok_ret. cbn iota.
  destruct (Z.eqb_spec (sg_memory_size (described b at_)) 0) as [E0|E0]; [by apply Hskip, empty_placed|].
  erewrite bind_Done by (apply uadd_lt; unfold USER_SPACE_END, W64 in *; lia).
  fold (segment_permissions (described b at_)).
  destruct (load_segment_pages at_ pgs s' l' Hw (conj Hlo He) Hl) as (r & s1 & l1 & new & E & Hl1 & Ho & Hok & Hbad).
  unfold segment_pages in E. rewrite (proj2 (Z.eqb_neq _ _) E0) in E. destruct r as [[]|e].
  - rewrite (bind_ok_Ok _ _ _ _ _ E). set (ee1 := ee || _).
    destruct (IH ee1 _ _ _ Hl1) as (r & s'' & E' & Hr).
    exists r, s''. split; [exact E'|]. by eapply segments_cons; [exact Ho|by apply Hok|by apply entry_test|].
  - rewrite (bind_ok_Err _ _ _ _ _ E). eexists _, s1. split; [done|]. exists l1, new.
    split_and!; [done| |right; by apply Hbad]. intros p Hp. destruct (Ho p Hp) as (a & ->%list_elem_of_singleton & Hr).
    exists at_. split; [left|done].
Qed.

End segments.

(** ** Loading a file *)

(** Where the program headers of a file are. *)
Definition header_addresses (b : bytes) : list usize :=
  (λ i, word 8 b 32 + i * 56) <$> range 0 (word 2 b 56).

(** A file that can be loaded if memory permits. *)
Record valid_image (b : bytes) : Prop := {
  vi_accepted : accepted b (word 8 b 32) (word 2 b 56);
  vi_placed : ∀ at_, at_ ∈ header_addresses b → word 4 b at_ = 1 → placed b at_;
  vi_entry : ∃ at_, at_ ∈ header_addresses b ∧ has_entry b (word 8 b 24) at_;
}.

Lemma segments_steps b :
  is_bytes b → slice_len b < 2 ^ 63 → word 8 b 32 + word 2 b 56 * 56 ≤ slice_len b →
  Forall2 (λ c at_, ∀ s : MState, ∃ r, c s = Done (r, s) ∧ step_result b at_ r)
    (Elf_segments (mkElf b (take (Z.to_nat (word 2 b 56 * 56)) (drop (Z.to_nat (word 8 b 32)) b)) (word 8 b 24)))
    (header_addresses b).
Proof.
  intros Hb Hl Hp. unfold Elf_segments, header_addresses. cbn [e_headers].
  rewrite Forall2_fmap. pose proof (word_range 2 b 56 Hb) as Hc. pose proof (word_range 8 b 32 Hb) as Ho.
  set (chunks := chunks_exact 56 _). apply Forall2_same_length_lookup. split.
  - unfold chunks, chunks_exact, slice_len, range in *.
    rewrite length_fmap, length_seq, length_take, length_drop, length_seqZ, Nat.min_l, Z.sub_0_r by lia.
    rewrite Z2Nat.inj_mul by lia. apply Nat.div_mul. lia.
  - intros i h z Hh Hz s. unfold range in Hz. apply lookup_seqZ in Hz as [-> Hz]. rewrite Z.add_0_l.
    by apply (segment_step_spec b Hb Hl (mkElf b (take (Z.to_nat (word 2 b 56 * 56))
      (drop (Z.to_nat (word 8 b 32)) b)) (word 8 b 24)) i h s Hp).
Qed.

(** A loaded byte is what a load through the page table reads. *)
Lemma loaded_byte self s l pgs s' l' p x :
  loaded self s l pgs s' l' → p ∈ pgs → is_u64 x → lp_page p = x - x mod PAGE_SIZE →
  vload8 (root self) x s' = Done (segment_byte (lp_segment p) x, s') ∧
  PageTable_mapping (root self) (ms_mem s') x = Some (mkPageTableMapping (segment_permissions (lp_segment p))).
Proof.
  intros Hl Hp Hx Ep. destruct (ld_pages _ _ _ _ _ _ Hl p Hp) as ([P1 P2 P3 P4] & _ & _).
  destruct (P1 x Hx) as [Hphys Hmap]; [rewrite Ep; unfold PAGE_SIZE; dmlia|].
  split; [|done]. rewrite (vload8_spec (root self) l' s' x (lp_frame p) (ld_inv _ _ _ _ _ _ Hl))
    by (split_and!; [done|by left|done]).
  unfold data_cell. do 2 f_equal. pose proof (Z.mod_pos_bound x PAGE_SIZE ltac:(done)) as Hm.
  replace (frame_at (lp_frame p) + x mod PAGE_SIZE + offset (pt_direct_map (root self))) with
    (frame_at (lp_frame p) + offset (pt_direct_map (root self)) + x mod PAGE_SIZE) by lia.
  rewrite P4 by (unfold FRAME_SIZE, PAGE_SIZE in *; lia). f_equal. lia.
Qed.

(** What [load_elf] promises. *)
Definition load_result (self : AddressSpace) (b : bytes) (s s' : MState) (l : list FrameState)
    (r : result VirtualAddr ElfLoadError) : Prop :=
  ∃ l' pgs, loaded self s l pgs s' l' ∧ only_placed b (header_addresses b) pgs ∧
  match r with
  | Ok entry => valid_image b ∧ entry = word 8 b 24 ∧
      ∀ at_ x, at_ ∈ header_addresses b → word 4 b at_ = 1 →
        let sg := described b at_ in
        sg_address sg ≤ x < sg_address sg + sg_memory_size sg →
        vload8 (root self) x s' = Done (segment_byte sg x, s') ∧
        PageTable_mapping (root self) (ms_mem s') x = Some (mkPageTableMapping (segment_permissions sg))
  | Err e => e = InvalidElf ∧ ¬ valid_image b ∨ page_failure e l'
  end.

Lemma load_elf_spec self b s l :
  pt_inv (root self) s l → is_bytes b → slice_len b < 2 ^ 63 →
  ∃ r s', load_elf b self (pt_direct_map (root self)) s = Done (r, s') ∧ load_result self b s s' l r.
Proof.
  intros Hinv Hb Hlen. unfold load_elf. pose proof (loaded_nil self s l Hinv) as H0.
  destruct (parse_spec b Hb Hlen s) as (r & E & Hr). rewrite (bind_Done _ _ _ _ _ E). destruct r as [elf|e].
  2: { eexists _, s. split; [done|]. exists l, []. split_and!; [done|apply only_placed_nil|]. left.
       split; [done|]. intros [Ha _ _]. discriminate (proj2 (Hr _) (conj Ha eq_refl)). }
  destruct (proj1 (Hr elf) eq_refl) as [Hac ->]. cbn [e_entry].
  destruct (load_segments_spec self b (word 8 b 24) s l Hinv Hb _ _ false [] s l
    (segments_steps b Hb Hlen (ac_headers _ _ _ Hac)) H0) as (r & s' & E' & l' & pgs & Hl & Ho & Hres).
  destruct r as [ee|e].
  2: { rewrite (bind_ok_Err _ _ _ _ _ E'). eexists _, s'. split; [done|]. exists l', pgs. split_and!; [done|done|].
       destruct Hres as [(-> & at_ & Hin & Hw & Hnp)|?]; [|by right]. left. split; [done|].
       intros [_ Hpl _]. by apply Hnp, Hpl. }
  rewrite (bind_ok_Ok _ _ _ _ _ E'). destruct Hres as [Hall Hee]. destruct ee; cbn [negb].
  2: { eexists _, s'. split; [done|]. exists l', pgs. split_and!; [done|done|]. left. split; [done|].
       intros [_ _ Hent]. discriminate (proj2 Hee (or_intror Hent)). }
  eexists _, s'. split; [done|]. exists l', pgs. split_and!; [done|done| |done|].
  - split; [done| |].
    + intros at_ Hin Hw. by apply (Hall at_ Hin Hw).
    + by destruct (proj1 Hee eq_refl).
  - intros at_ x Hin Hw sg Hx. destruct (Hall at_ Hin Hw) as [[_ Hend] Hpg].
    destruct (described_ok b at_ Hb) as (_ & Ha & _).
    destruct (Hpg _ (segment_pages_cover sg x Ha Hx)) as (p & Hp & Ep & Es).
    assert (Hx64 : is_u64 x) by (unfold sg, USER_SPACE_END, is_u64, W64 in *; lia).
    pose proof (loaded_byte self s l pgs s' l' p x Hl Hp Hx64 Ep) as Hlb. by rewrite Es in Hlb.
Qed.

(** ** Theorems *)

(** C5: Loading an executable never panics, whatever the file.  If it succeeds, the file is a valid
    image, every byte of every segment is read back at its address through the new address space
    (the bytes of the file, then zeros) with exactly the segment's permissions, and the entry point
    lies in an executable segment.  In every case the only pages that changed are pages of the
    file's segments, which were not mapped before, each with a fresh frame of its own, and the
    contents of no frame in use changed.  A valid image is refused only because frames ran out or
    a page could not be mapped. *)
Theorem load_elf_correct (self : AddressSpace) (b : bytes) (s : MState) (l : list FrameState) :
  pt_inv (root self) s l → is_bytes b → slice_len b < 2 ^ 63 →
  ∃ r s', load_elf b self (pt_direct_map (root self)) s = Done (r, s') ∧ load_result self b s s' l r.
Proof. apply load_elf_spec. Qed.

Definition demo_user : AddressSpace := mkAddressSpace demo_pt User.

Lemma load_elf_correct_witness :
  ∃ s', load_elf demo_elf demo_user (pt_direct_map demo_pt) roomy_state = Done (Ok 0x400078, s') ∧
    vload8 demo_pt 0x400079 s' = Done (0x90, s') ∧ vload8 demo_pt 0x400080 s' = Done (0, s').
Proof.
  destruct (load_elf_correct demo_user demo_elf roomy_state roomy_frames roomy_pt_inv demo_elf_bytes demo_elf_length)
    as (r & s' & E & l' & pgs & _ & _ & Hr).
  assert (Er : r = Ok 0x400078) by (apply (returned_Done _ _ _ _ E); vm_compute; reflexivity).
  rewrite Er in E, Hr. exists s'. split; [exact E|]. destruct Hr as (_ & _ & Hx).
  assert (Hin : 64 ∈ header_addresses demo_elf) by (apply (bool_decide_unpack _); vm_compute; exact I).
  assert (Hw : word 4 demo_elf 64 = 1) by (vm_compute; reflexivity). split.
  - destruct (Hx 64 0x400079 Hin Hw) as [H _]; [vm_compute; split; [discriminate|reflexivity]|exact H].
  - destruct (Hx 64 0x400080 Hin Hw) as [H _]; [vm_compute; split; [discriminate|reflexivity]|exact H].
Defined.
