(* ===== verification/Boot.v ===== *)
(** * What the boot loader hands over

    Model of [src/boot/limine.rs]: the answers of the boot loader are turned into the kernel's own
    [BootInfo].  The answers, the addresses of the linker's symbols and the numbers of the memory types
    belong to the boot loader and the linker script; they are parameters. *)

From S2P Require Import Prelude Memory Bytes Frame Paging PageTree PageMap PageUnmap AddressSpace VirtMem Stack.
From S2P Require Import Ring Tcb Kernel Scheduler Cpio Elf Loader.

(** ** Definitions *)

Definition MAX_COMMAND_LINE_LENGTH : usize := 512.

Record BootInfo := mkBootInfo {
  kernel_layout : KernelMemoryLayout;
  command_line : BootString;
  initramfs : InitramfsImage;
  hhdm_offset : usize;
  memory_map : MemoryMap;
  rsdp : VirtualAddr;
}.

Definition memory_regions (self : BootInfo) : list MemoryRegion := MemoryMap_iter (memory_map self).

Inductive BootError :=
| UnsupportedBaseRevision | FailedToGetKernelAddress | FailedToGetKernelCmdline | FailedToGetModules
| FailedToGetInitramfs | FailedToGetHHDMAddress | FailedToGetMemmap | TooManyMemoryRegions
| FailedToLocateKernel | FailedToGetRsdp.

(** The answers of the boot loader; [None] where it gave none. *)
Record MemmapEntry := mkMemmapEntry { me_base : Z; me_length : Z; me_type : Z }.
Record ExecutableAddress := mkExecutableAddress { ea_physical_base : Z; ea_virtual_base : Z }.
Record Limine := mkLimine {
  base_revision_supported : bool;
  executable_address : option ExecutableAddress;
  cmdline : option bytes;
  modules : option (list InitramfsImage);
  hhdm : option Z;
  rsdp_address : option Z;
  memmap : option (list MemmapEntry);
}.

(** The symbols of the linker script. *)
Record Symbols := mkSymbols {
  text_start : Z; text_end : Z; rodata_start : Z; rodata_end : Z; data_start : Z; data_end : Z;
}.

(** The numbers of the memory types. *)
Record MemmapTypes := mkMemmapTypes {
  MEMMAP_USABLE : Z; MEMMAP_RESERVED : Z; MEMMAP_ACPI_RECLAIMABLE : Z; MEMMAP_ACPI_NVS : Z; MEMMAP_BAD_MEMORY : Z;
  MEMMAP_BOOTLOADER_RECLAIMABLE : Z; MEMMAP_EXECUTABLE_AND_MODULES : Z; MEMMAP_FRAMEBUFFER : Z;
  MEMMAP_MAPPED_RESERVED : Z;
}.

Section boot.
Context (types : MemmapTypes) (symbols : Symbols) (limine : Limine).

Definition region_kind_of (type : Z) : MemoryRegionKind :=
  if type =? MEMMAP_USABLE types then Usable
  else if type =? MEMMAP_RESERVED types then RegionReserved
  else if type =? MEMMAP_ACPI_RECLAIMABLE types then AcpiReclaimable
  else if type =? MEMMAP_ACPI_NVS types then AcpiNvs
  else if type =? MEMMAP_BAD_MEMORY types then BadMemory
  else if type =? MEMMAP_BOOTLOADER_RECLAIMABLE types then BootloaderReclaimable
  else if type =? MEMMAP_EXECUTABLE_AND_MODULES types then KernelAndModules
  else if type =? MEMMAP_FRAMEBUFFER types then Framebuffer
  else if type =? MEMMAP_MAPPED_RESERVED types then MappedReserved
  else RegionReserved.

Definition region_of (entry : MemmapEntry) : MemoryRegion :=
  mkMemoryRegion (me_base entry) (me_length entry) (region_kind_of (me_type entry)).

Fixpoint fill_memory_map (memmap : list MemmapEntry) : M MemoryMap (result unit BootError) :=
  match memmap with
  | [] => ret (Ok tt)
  | entry :: memmap =>
      let! r := MemoryMap_push (region_of entry) in
      match r with
      | Ok _ => fill_memory_map memmap
      | Err _ => ret (Err TooManyMemoryRegions)
      end
  end.

(** A segment of the kernel that starts at [start]: it lies as far from the physical base as from the
    virtual one. *)
Definition segment_at {S} (kernel_address : ExecutableAddress) (start stop : Z) (permissions : PagePermissions) :
    M S KernelSegment :=
  let! offset := usub start (ea_virtual_base kernel_address) in
  let! physical := uadd (ea_physical_base kernel_address) offset in
  let! length := usub stop start in
  ret (mkKernelSegment physical start length permissions).

(** The region of the kernel itself, for the check of debug builds. *)
Definition kernel_length (kernel_address : ExecutableAddress) (memmap : list MemmapEntry) : option Z :=
  me_length <$> List.find (λ e, (me_type e =? MEMMAP_EXECUTABLE_AND_MODULES types) &&
                               (me_base e =? ea_physical_base kernel_address)) memmap.

Definition load_boot_info : M unit (result BootInfo BootError) :=
  if negb (base_revision_supported limine) then ret (Err UnsupportedBaseRevision)
  else
    let? kernel_address := ret (ok_or (executable_address limine) FailedToGetKernelAddress) in
    let? kernel_cmdline := ret (ok_or (cmdline limine) FailedToGetKernelCmdline) in
    let! command_line := (λ s, match BootString_from_bytes MAX_COMMAND_LINE_LENGTH kernel_cmdline with
                               | Done b => Done (b, s) | Panic w => Panic w | Halt => Halt end) in
    let? modules := ret (ok_or (modules limine) FailedToGetModules) in
    let? initramfs := ret (ok_or (head modules) FailedToGetInitramfs) in
    let? hhdm_offset := ret (ok_or (hhdm limine) FailedToGetHHDMAddress) in
    let? rsdp := ret (ok_or (rsdp_address limine) FailedToGetRsdp) in
    let? memmap := ret (ok_or (memmap limine) FailedToGetMemmap) in
    let! (filled, memory_map) := on_local MemoryMap_new (fill_memory_map memmap) in
    let? _ := ret filled in
    let! text_length := usub (text_end symbols) (text_start symbols) in
    let kernel_text_segment :=
      mkKernelSegment (ea_physical_base kernel_address) (text_start symbols) text_length
        (mkPagePermissions false true false) in
    let! kernel_rodata_segment :=
      segment_at kernel_address (rodata_start symbols) (rodata_end symbols) (mkPagePermissions false false false) in
    let! segment_length := uadd text_length (seg_length kernel_rodata_segment) in
    let! kernel_data_segment :=
      segment_at kernel_address (data_start symbols) (data_end symbols) (mkPagePermissions true false false) in
    let! segment_length := uadd segment_length (seg_length kernel_data_segment) in
    match kernel_length kernel_address memmap with
    | None => ret (Err FailedToLocateKernel)
    | Some l =>
        do! massert (segment_length =? l) "assertion `left == right` failed" ;;;
        ret (Ok (mkBootInfo (mkKernelMemoryLayout kernel_text_segment kernel_rodata_segment kernel_data_segment)
                   command_line initramfs hhdm_offset memory_map rsdp))
    end.
End boot.

(** ** Lemmas *)

Lemma iter_length self : MemoryMap_wf self → Z.of_nat (length (MemoryMap_iter self)) = len self.
Proof. intros [Hl [H0 H1]]. unfold MemoryMap_iter, MAX_MEMORY_REGIONS in *. rewrite length_take. lia. Qed.

Lemma fill_spec types mm self :
  MemoryMap_wf self →
  ∃ r self', fill_memory_map types mm self = Done (r, self') ∧
    (if MAX_MEMORY_REGIONS <? len self + Z.of_nat (length mm) then r = Err TooManyMemoryRegions
     else r = Ok tt ∧ MemoryMap_iter self' = MemoryMap_iter self ++ (region_of types <$> mm)).
Proof.
  revert self. induction mm as [|e mm IH]; intros self Hwf.
  { exists (Ok tt), self. split; [done|]. destruct Hwf as [_ Hl]. rewrite (proj2 (Z.ltb_ge _ _)) by (simpl; lia).
    split; [done|]. by rewrite app_nil_r. }
  cbn [fill_memory_map]. pose proof (MemoryMap_push_spec self (region_of types e) Hwf) as Hp.
  destruct (Z.leb_spec MAX_MEMORY_REGIONS (len self)) as [Hf|Hf].
  { rewrite (bind_Done _ _ _ _ _ Hp). eexists _, self. split; [done|]. by rewrite (proj2 (Z.ltb_lt _ _)) by (simpl; lia). }
  destruct Hp as (self1 & E1 & Hwf1 & Hi1). rewrite (bind_Done _ _ _ _ _ E1).
  destruct (IH self1 Hwf1) as (r & self2 & E2 & H2). exists r, self2. split; [done|].
  assert (Hl : len self1 = len self + 1).
  { rewrite <- !iter_length by done. rewrite Hi1, length_app. simpl. lia. }
  rewrite Hl in H2. replace (len self + Z.of_nat (length (e :: mm))) with (len self + 1 + Z.of_nat (length mm)) by (simpl; lia).
  destruct (MAX_MEMORY_REGIONS <? _); [done|]. destruct H2 as [-> H2]. split; [done|].
  rewrite H2, Hi1, <- app_assoc. done.
Qed.

(** All that the kernel needs to know, or the first answer that the boot loader owes. *)
Record Answers := mkAnswers {
  an_address : ExecutableAddress; an_cmdline : bytes; an_initramfs : InitramfsImage; an_hhdm : Z; an_rsdp : Z;
  an_memmap : list MemmapEntry;
}.

Definition answers (limine : Limine) : result Answers BootError :=
  match limine with
  | mkLimine false _ _ _ _ _ _ => Err UnsupportedBaseRevision
  | mkLimine _ None _ _ _ _ _ => Err FailedToGetKernelAddress
  | mkLimine _ _ None _ _ _ _ => Err FailedToGetKernelCmdline
  | mkLimine _ _ _ None _ _ _ => Err FailedToGetModules
  | mkLimine _ _ _ (Some []) _ _ _ => Err FailedToGetInitramfs
  | mkLimine _ _ _ _ None _ _ => Err FailedToGetHHDMAddress
  | mkLimine _ _ _ _ _ None _ => Err FailedToGetRsdp
  | mkLimine _ _ _ _ _ _ None => Err FailedToGetMemmap
  | mkLimine true (Some a) (Some c) (Some (i :: _)) (Some h) (Some r) (Some m) => Ok (mkAnswers a c i h r m)
  end.

(** The sections follow each other from the virtual base on, as the linker script lays them out, and the
    kernel does not reach the end of physical memory. *)
Record sections_ok (sy : Symbols) (ka : ExecutableAddress) : Prop := {
  so_base : ea_virtual_base ka = text_start sy;
  so_text : text_start sy ≤ text_end sy;
  so_rodata : text_end sy = rodata_start sy ∧ rodata_start sy ≤ rodata_end sy;
  so_data : rodata_end sy = data_start sy ∧ data_start sy ≤ data_end sy;
  so_low : 0 ≤ ea_physical_base ka;
  so_high : ea_physical_base ka + (data_end sy - text_start sy) < W64;
}.

(** What the protocol means by each number: the type of every kind of region.  The numbers of the types
    are distinct, and a type that is none of these is reserved memory. *)
Definition type_of_kind (types : MemmapTypes) (kind : MemoryRegionKind) : Z :=
  match kind with
  | Usable => MEMMAP_USABLE types
  | RegionReserved => MEMMAP_RESERVED types
  | AcpiReclaimable => MEMMAP_ACPI_RECLAIMABLE types
  | AcpiNvs => MEMMAP_ACPI_NVS types
  | BadMemory => MEMMAP_BAD_MEMORY types
  | BootloaderReclaimable => MEMMAP_BOOTLOADER_RECLAIMABLE types
  | KernelAndModules => MEMMAP_EXECUTABLE_AND_MODULES types
  | Framebuffer => MEMMAP_FRAMEBUFFER types
  | MappedReserved => MEMMAP_MAPPED_RESERVED types
  end.

Definition types_distinct (types : MemmapTypes) : Prop := ∀ k k', type_of_kind types k = type_of_kind types k' → k = k'.

Record region_matches (types : MemmapTypes) (e : MemmapEntry) (r : MemoryRegion) : Prop := {
  rm_start : region_start r = me_base e;
  rm_length : region_length r = me_length e;
  rm_kind : ∀ kind, me_type e = type_of_kind types kind → region_kind r = kind;
  rm_unknown : (∀ kind, me_type e ≠ type_of_kind types kind) → region_kind r = RegionReserved;
}.

(** The tests of the code, over the table. *)
Lemma region_kind_tests types t :
  region_kind_of types t =
    default RegionReserved (List.find (λ kind, t =? type_of_kind types kind)
      [Usable; RegionReserved; AcpiReclaimable; AcpiNvs; BadMemory; BootloaderReclaimable; KernelAndModules; Framebuffer;
       MappedReserved]).
Proof. unfold region_kind_of. cbn [List.find type_of_kind]. by repeat case_bool. Qed.

Lemma region_kind_known types kind : types_distinct types → region_kind_of types (type_of_kind types kind) = kind.
Proof.
  intros Hd. rewrite region_kind_tests. cbn [List.find].
  assert (He : ∀ k', (type_of_kind types kind =? type_of_kind types k') = bool_decide (kind = k')).
  { intros k'. apply eq_true_iff_eq. rewrite Z.eqb_eq, bool_decide_eq_true. split; [apply Hd|by intros ->]. }
  rewrite !He. by destruct kind.
Qed.

Lemma region_kind_unknown types t : (∀ kind, t ≠ type_of_kind types kind) → region_kind_of types t = RegionReserved.
Proof.
  intros Hn. rewrite region_kind_tests. cbn [List.find]. by rewrite !(λ kind, proj2 (Z.eqb_neq _ _) (Hn kind)).
Qed.

Lemma regions_match types mm : types_distinct types → Forall2 (region_matches types) mm (region_of types <$> mm).
Proof.
  intros Hd. induction mm as [|e mm IH]; constructor; [|exact IH]. constructor; try done; unfold region_of; cbn [region_kind].
  - intros kind ->. by apply region_kind_known.
  - apply region_kind_unknown.
Qed.

(** The entry of the memory map that holds the kernel: the first one of its type at its address. *)
Definition holds_kernel (types : MemmapTypes) (ka : ExecutableAddress) (e : MemmapEntry) : Prop :=
  me_type e = type_of_kind types KernelAndModules ∧ me_base e = ea_physical_base ka.

Inductive kernel_found (types : MemmapTypes) (ka : ExecutableAddress) (mm : list MemmapEntry) : option MemmapEntry → Prop :=
  | found_none : Forall (λ e, ¬ holds_kernel types ka e) mm → kernel_found types ka mm None
  | found_first before e after :
      mm = before ++ e :: after → holds_kernel types ka e → Forall (λ e, ¬ holds_kernel types ka e) before →
      kernel_found types ka mm (Some e).

Lemma kernel_length_found types ka mm found :
  kernel_found types ka mm found → kernel_length types ka mm = me_length <$> found.
Proof.
  assert (Hno : ∀ e, ¬ holds_kernel types ka e →
    (me_type e =? MEMMAP_EXECUTABLE_AND_MODULES types) && (me_base e =? ea_physical_base ka) = false).
  { intros e H. apply andb_false_iff. rewrite !Z.eqb_neq. destruct (decide (me_type e = MEMMAP_EXECUTABLE_AND_MODULES types));
      [right|by left]. intros Hb. by apply H. }
  unfold kernel_length. destruct 1 as [Hf|before e after -> [Ht Hb] Hf].
  - induction Hf as [|e mm He Hf IH]; [done|]. cbn [List.find]. by rewrite (Hno _ He).
  - induction Hf as [|e' mm He Hf IH]; [|cbn [app List.find]; by rewrite (Hno _ He)].
    cbn [app List.find]. change (type_of_kind types KernelAndModules) with (MEMMAP_EXECUTABLE_AND_MODULES types) in Ht.
    by rewrite Ht, Hb, !Z.eqb_refl.
Qed.

(** The segments of a layout, one after the other in physical and in virtual memory: code that can be
    executed and not written, constants that can only be read, data that can be written and not executed,
    none of it open to the user. *)
Record layout_ok (layout : KernelMemoryLayout) (sy : Symbols) (ka : ExecutableAddress) : Prop := {
  lo_first : seg_physical_base (segment0 layout) = ea_physical_base ka;
  lo_chain : seg_physical_base (segment1 layout) = seg_physical_base (segment0 layout) + seg_length (segment0 layout) ∧
    seg_physical_base (segment2 layout) = seg_physical_base (segment1 layout) + seg_length (segment1 layout);
  lo_offset : Forall (λ sg, seg_virtual_base sg - seg_physical_base sg = text_start sy - ea_physical_base ka ∧
    0 ≤ seg_length sg) (segments layout);
  lo_virtual : seg_virtual_base <$> segments layout = [text_start sy; rodata_start sy; data_start sy];
  lo_lengths : seg_length <$> segments layout =
    [text_end sy - text_start sy; rodata_end sy - rodata_start sy; data_end sy - data_start sy];
  lo_writable : (λ sg, writable (seg_permissions sg)) <$> segments layout = [false; false; true];
  lo_executable : (λ sg, executable (seg_permissions sg)) <$> segments layout = [true; false; false];
  lo_user : Forall (λ sg, user_accessible (seg_permissions sg) = false) (segments layout);
  lo_total : seg_length (segment0 layout) + seg_length (segment1 layout) + seg_length (segment2 layout) =
    data_end sy - text_start sy;
}.

Lemma segment_at_spec {S} ka start stop perms (s : S) :
  ea_virtual_base ka ≤ start → start ≤ stop → ea_physical_base ka + (start - ea_virtual_base ka) < W64 →
  segment_at ka start stop perms s =
    Done (mkKernelSegment (ea_physical_base ka + (start - ea_virtual_base ka)) start (stop - start) perms, s).
Proof.
  intros H1 H2 H3. unfold segment_at. rewrite (bind_Done _ _ _ _ _ (usub_le _ _ _ H1)).
  rewrite (bind_Done _ _ _ _ _ (uadd_lt _ _ _ H3)). by rewrite (bind_Done _ _ _ _ _ (usub_le _ _ _ H2)).
Qed.

Lemma boot_string_ok N c : slice_len c ≤ N → ∃ b, BootString_from_bytes N c = Done b ∧ BootString_as_bytes b = c.
Proof.
  intros H. unfold BootString_from_bytes. rewrite (proj2 (Z.leb_le _ _)) by exact H. eexists. split; [done|].
  unfold BootString_as_bytes. cbn [bs_len bs_bytes]. by rewrite Nat2Z.id, take_app_length.
Qed.

(** ** Theorem *)

(** C40: What the kernel knows after boot is what the boot loader said.  If an answer is missing, the
    first one that is missing is reported; more than 128 memory regions and a kernel that the memory
    map does not list are reported as such, and a kernel whose entry there has not the length of its
    sections fails the assertion of debug builds.  Otherwise the memory regions are those of the memory map,
    in order, each at its place, of its length and of the kind that the protocol gives its type
    ([region_matches]), the command line, the initramfs and the addresses are those given,
    and the three segments of the kernel follow each other without a gap, at one distance between
    physical and virtual addresses, and are code, constants and data with exactly the rights these need.
    Nothing overflows on the way.  It assumes that the numbers of the memory types are distinct, that the
    command line has at most 512 bytes (a longer one panics) and that the sections are placed as the
    linker script says, below the end of physical memory. *)
Theorem boot_info_correct (types : MemmapTypes) (sy : Symbols) (limine : Limine) :
  types_distinct types → (∀ c, cmdline limine = Some c → slice_len c ≤ MAX_COMMAND_LINE_LENGTH) →
  (∀ ka, executable_address limine = Some ka → sections_ok sy ka) →
  match answers limine with
  | Err e => load_boot_info types sy limine tt = Done (Err e, tt)
  | Ok an =>
      if MAX_MEMORY_REGIONS <? Z.of_nat (length (an_memmap an))
      then load_boot_info types sy limine tt = Done (Err TooManyMemoryRegions, tt)
      else ∀ found, kernel_found types (an_address an) (an_memmap an) found →
           match found with
           | None => load_boot_info types sy limine tt = Done (Err FailedToLocateKernel, tt)
           | Some e =>
               if decide (me_length e ≠ data_end sy - text_start sy)
               then load_boot_info types sy limine tt = Panic "assertion `left == right` failed"
               else ∃ info, load_boot_info types sy limine tt = Done (Ok info, tt) ∧
                 Forall2 (region_matches types) (an_memmap an) (memory_regions info) ∧
                 BootString_as_bytes (command_line info) = an_cmdline an ∧
                 initramfs info = an_initramfs an ∧ hhdm_offset info = an_hhdm an ∧ rsdp info = an_rsdp an ∧
                 layout_ok (kernel_layout info) sy (an_address an)
           end
  end.
Proof.
  intros Hdis Hcmd Hsec. unfold load_boot_info.
  destruct limine as [[] [ka|] [c|] ms h r mm]; cbn [base_revision_supported negb executable_address cmdline modules hhdm
    rsdp_address memmap ok_or]; try reflexivity.
  rewrite !bind_ok_ret. cbn beta iota.
  destruct (boot_string_ok _ c (Hcmd c eq_refl)) as (b & Eb & Hb).
  erewrite bind_Done by (by rewrite Eb). specialize (Hsec ka eq_refl).
  destruct ms as [[|i rest]|]; try reflexivity. mred. cbn [head ok_or]. mred.
  destruct h as [h|]; try reflexivity. cbn [ok_or]. mred. destruct r as [r|]; try reflexivity. cbn [ok_or]. mred.
  destruct mm as [mm|]; try reflexivity. cbn [ok_or]. mred.
  cbn [answers an_memmap an_address an_cmdline an_initramfs an_hhdm an_rsdp].
  destruct (fill_spec types mm MemoryMap_new MemoryMap_new_wf) as (fr & map & Ef & Hf).
  assert (El : on_local (S := unit) MemoryMap_new (fill_memory_map types mm) tt = Done ((fr, map), tt)).
  { unfold on_local. by rewrite Ef. }
  rewrite (bind_Done _ _ _ _ _ El). mred.
  change (len MemoryMap_new) with 0 in Hf. rewrite Z.add_0_l in Hf.
  destruct (MAX_MEMORY_REGIONS <? Z.of_nat (length mm)); [by subst fr|]. destruct Hf as [-> Hf].
  destruct Hsec as [Hv Ht [Hr1 Hr2] [Hd1 Hd2] Hp Hh].
  rewrite (bind_Done _ _ _ _ _ (usub_le _ _ _ Ht)).
  rewrite (bind_Done _ _ _ _ _ (segment_at_spec ka (rodata_start sy) (rodata_end sy) _ tt ltac:(lia) ltac:(lia) ltac:(lia))).
  cbn [seg_length]. erewrite bind_Done by (apply uadd_lt; lia).
  rewrite (bind_Done _ _ _ _ _ (segment_at_spec ka (data_start sy) (data_end sy) _ tt ltac:(lia) ltac:(lia) ltac:(lia))).
  cbn [seg_length]. erewrite bind_Done by (apply uadd_lt; lia).
  intros found Hfound. rewrite (kernel_length_found _ _ _ _ Hfound). destruct found as [e|]; [|reflexivity]. cbn [fmap option_fmap option_map].
  case_decide as Hl.
  { rewrite (proj2 (Z.eqb_neq _ _)) by lia. reflexivity. }
  rewrite (proj2 (Z.eqb_eq _ _)) by lia. cbn [massert]. mred. eexists. split; [reflexivity|].
  cbn [memory_regions memory_map command_line initramfs hhdm_offset rsdp kernel_layout].
  split_and!; try done.
  { unfold memory_regions. cbn [memory_map]. rewrite Hf. by apply regions_match. }
  constructor; cbn [fmap list_fmap writable executable user_accessible segment0 segment1 segment2 segments seg_physical_base seg_length seg_virtual_base
    seg_permissions]; [done|split; lia| |done|done|done|done|by repeat constructor|lia].
  repeat (apply Forall_cons; split; [split; cbn; lia|]). by apply Forall_nil.
Qed.

(** ** Witness *)

Definition demo_types : MemmapTypes := mkMemmapTypes 0 1 2 3 4 5 6 7 8.
Definition demo_symbols : Symbols := mkSymbols 0xFFFFFFFF80000000 0xFFFFFFFF80004000 0xFFFFFFFF80004000 0xFFFFFFFF80005000
  0xFFFFFFFF80005000 0xFFFFFFFF80009000.
Definition demo_limine : Limine :=
  mkLimine true (Some (mkExecutableAddress 0x200000 0xFFFFFFFF80000000)) (Some [113; 117; 105; 101; 116])
    (Some [mkInitramfsImage 0xFFFF800000300000 4096]) (Some 0xFFFF800000000000) (Some 0xFFFF8000000F0000)
    (Some [mkMemmapEntry 0 0x9F000 0; mkMemmapEntry 0x200000 0x9000 6; mkMemmapEntry 0x300000 0x1000 6]).

Lemma boot_info_correct_witness :
  ∃ info, load_boot_info demo_types demo_symbols demo_limine tt = Done (Ok info, tt) ∧
    region_kind <$> memory_regions info = [Usable; KernelAndModules; KernelAndModules].
Proof.
  assert (Hd : types_distinct demo_types) by (intros [] []; done).
  pose proof (boot_info_correct demo_types demo_symbols demo_limine Hd) as H.
  specialize (H ltac:(intros c [= <-]; done) ltac:(intros ka [= <-]; by repeat constructor)).
  specialize (H (Some (mkMemmapEntry 0x200000 0x9000 6))).
  destruct H as (info & E & Hm & _).
  - apply (found_first _ _ _ [mkMemmapEntry 0 0x9F000 0] _ [mkMemmapEntry 0x300000 0x1000 6]); [done|done|].
    repeat constructor. intros [H _]. discriminate H.
  - exists info. split; [exact E|]. cbn [answers demo_limine an_memmap] in Hm.
    inversion Hm as [|? r1 ? ? [_ _ K1 _] Hm1]; subst. inversion Hm1 as [|? r2 ? ? [_ _ K2 _] Hm2]; subst.
    inversion Hm2 as [|? r3 ? ? [_ _ K3 _] Hm3]; subst. inversion Hm3; subst.
    cbn. by rewrite (K1 Usable), (K2 KernelAndModules), (K3 KernelAndModules).
Defined.
