(* ===== verification/Syscall.v ===== *)
(** * System calls

    Model of [src/syscall/mod.rs] and [src/syscall/table.rs]: the dispatcher and every handler,
    on the kernel's global state.  A handler that gives the CPU away is cut at the switch: what
    the task does once it is switched to again is the rest of the handler. *)

From S2P Require Import Prelude Memory Bytes Frame Paging PageTree PageMap PageUnmap AddressSpace VirtMem Stack.
From S2P Require Import Ring Tcb Kernel Scheduler User.

(** ** Results *)

Inductive sysret (A : Type) : Type :=
| Returned (a : A)                 (* back to user space *)
| Suspended (rest : M KState A)    (* another task runs; this one goes on with [rest] *)
| Gone.                            (* the task has exited *)
Arguments Returned {A} a.
Arguments Suspended {A} rest.
Arguments Gone {A}.

Definition sys_result : Type := sysret (result unit Status).

(** A handler that does not switch. *)
Definition returns (c : M KState (result unit Status)) : M KState sys_result :=
  let! r := c in ret (Returned r).

(** The discriminants of [Status]. *)
Definition status_code (s : Status) : Z :=
  match s with
  | InvalidArgument => 1 | BadAddress => 2 | BadFileDescriptor => 3 | NoSuchTask => 4
  | StatusOutOfMemory => 5 | BadHandle => 6
  end.

Inductive SyscallNumber :=
| SysYield | SysExit | SysWrite | SysSend | SysRecv | SysFrameAlloc | SysFrameDealloc | SysAsCreate
| SysMap | SysUnmap | SysTaskCreate.

Definition SyscallNumber_try_from (val : Z) : option SyscallNumber :=
  match val with
  | 1 => Some SysYield | 2 => Some SysExit | 3 => Some SysWrite | 4 => Some SysSend
  | 5 => Some SysRecv | 6 => Some SysFrameAlloc | 7 => Some SysFrameDealloc | 8 => Some SysAsCreate
  | 9 => Some SysMap | 10 => Some SysUnmap | 11 => Some SysTaskCreate
  | _ => None
  end.

(** ** The serial port *)

(** What [write_byte] sends, once the port is ready. *)
Definition serial_write_byte (byte : Z) : M KState unit :=
  modify (λ k, set_k_serial (k_serial k ++ (if byte =? 10 then [13; 10] else [byte])) k).

Definition serial_write_bytes (b : bytes) : M KState unit := mfor b serial_write_byte.

(** ** Helpers *)

(** [with_task(id, f).expect("failed to resolve self task")?] *)
Definition self_task {A} (id : TaskId) (f : Tcb → M KState (result A Status)) :
    M KState (result A Status) :=
  let! o := with_task id f in expect o "failed to resolve self task".

Definition self_task_mut {A} (id : TaskId) (f : M KState (result A Status)) :
    M KState (result A Status) :=
  let! o := with_task_mut id f in expect o "failed to resolve self task".

Definition on_handles {A} (c : M HandleTable A) : M Tcb A := on_part tcb_handles set_handles c.
Definition on_mailbox {A} (c : M Mailbox A) : M Tcb A := on_part mailbox set_mailbox c.

(** [size_of::<usize>()] and [align_of::<usize>()] *)
Definition USIZE : usize := 8.

(** A pointer that is either null or aligned, in writable memory of the task. *)
Definition check_out_ptr (as_id : AddressSpaceId) (ptr : usize) : M KState (result unit Status) :=
  if negb (ptr =? 0) then
    if negb (ptr mod USIZE =? 0) then ret (Err InvalidArgument)
    else validate_user_range as_id ptr USIZE true
  else ret (Ok tt).

(** [task.handles.put(id, handle)], whose slot was emptied before. *)
Definition put_back (task : TaskId) (id : usize) (handle : Handle) : M KState unit :=
  let! r := on_task task (on_handles (HandleTable_put id handle)) in
  match r with
  | Ok _ => ret tt
  | Err _ => panic "taken handle was unexpectedly occupied"
  end.

Definition RIGHTS_RWX : Rights := Rights_bitor (Rights_bitor RIGHT_READ RIGHT_WRITE) RIGHT_EXECUTE.

Section syscalls.
(** How the processor's paging is set up, and the address of [user_thread_entry]. *)
Context (paging : PagingConfig) (user_thread_entry : Z).

(** The page table the CPU translates with. *)
Definition active_table (k : KState) : PageTable :=
  mkPageTable (direct_map (ms_fa (k_mem k))) paging (ms_cr3 (k_mem k)).

Definition read_user (src : VirtualAddr) (n : nat) : M KState (result bytes Status) :=
  let! k := get in on_memory (copy_from_user (active_table k) src n).

Definition write_user (dst : VirtualAddr) (b : bytes) : M KState (result unit Status) :=
  let! k := get in on_memory (copy_to_user (active_table k) dst b).

Definition write_user_usize (dst : VirtualAddr) (v : usize) : M KState (result unit Status) :=
  let! k := get in on_memory (copy_val_to_user (active_table k) USIZE dst (le_bytes 8 v)).

(** ** Tasks and the console *)

Definition sys_yield : M KState sys_result :=
  let! switched := yield_current in
  match switched with
  | None => ret (Returned (Ok tt))
  | Some saved => ret (Suspended (do! restore_interrupts saved ;;; ret (Ok tt)))
  end.

Definition sys_exit (exit_code : usize) : M KState sys_result :=
  do! exit_current (Exited exit_code) ;;; ret Gone.

(** The loop of [sys_write], for at most [fuel] chunks. *)
Fixpoint write_chunks (fuel : nat) (buf_ptr len written : usize) : M KState (result usize Status) :=
  match fuel with
  | O => halt
  | S fuel =>
      if written <? len then
        let! remaining := usub len written in
        let n := Z.min remaining 128 in
        let! src := uadd buf_ptr written in
        let? chunk := read_user src (Z.to_nat n) in
        do! serial_write_bytes chunk ;;;
        let! written := uadd written n in
        write_chunks fuel buf_ptr len written
      else ret (Ok written)
  end.

Definition sys_write (fd buf_ptr len out_ptr : usize) : M KState (result unit Status) :=
  if negb (fd =? 1) && negb (fd =? 2) then ret (Err BadFileDescriptor)
  else
    let! current := current_task in
    let? _ := self_task current (λ task,
      let? _ := validate_user_range (as_id task) buf_ptr len false in
      check_out_ptr (as_id task) out_ptr) in
    let? written := write_chunks (S (Z.to_nat (div_ceil len 128))) buf_ptr len 0 in
    if negb (out_ptr =? 0) then write_user_usize out_ptr written else ret (Ok tt).

(** ** Messages *)

Definition sys_send (dest_task_id msg_ptr len : usize) : M KState (result unit Status) :=
  if MAX_MSG_SIZE <? len then ret (Err InvalidArgument)
  else
    let! sender := current_task in
    let? _ := self_task sender (λ task, validate_user_range (as_id task) msg_ptr len false) in
    let? msg_buf := read_user msg_ptr (Z.to_nat len) in
    let msg := mkMessage sender len (msg_buf ++ replicate (Z.to_nat (MAX_MSG_SIZE - len)) 0) in
    let! o := with_task_mut dest_task_id
      (let! pushed := on_task dest_task_id (on_mailbox (Mailbox_push msg)) in
       if negb pushed then ret (Err StatusOutOfMemory)
       else
         let! task := on_sched (task_at dest_task_id) in
         ret (Ok (bool_decide (state task = Blocked BlockRecv)))) in
    let? should_unblock := ret (ok_or o NoSuchTask) in
    let? should_unblock := ret should_unblock in
    do! (if should_unblock : bool then unblock dest_task_id else ret tt) ;;;
    ret (Ok tt).

(** What [sys_recv] checks once there is a message. *)
Definition recv_check (task : Tcb) (out_ptr max_len out_actual_len out_sender : usize) :
    M KState (result unit Status) :=
  let? _ := validate_user_range (as_id task) out_ptr max_len true in
  let? _ := check_out_ptr (as_id task) out_actual_len in
  check_out_ptr (as_id task) out_sender.

(** Taking the message and handing it out. *)
Definition recv_message (out_ptr max_len out_actual_len out_sender : usize) :
    M KState (result unit Status) :=
  let! current := current_task in
  let? msg := self_task_mut current
    (let! o := on_task current (on_mailbox Mailbox_pop) in ret (ok_or o NoSuchTask)) in
  let! data := slice (msg_data msg) 0 (Z.min (msg_length msg) max_len) in
  let? _ := write_user out_ptr data in
  let? _ := (if negb (out_actual_len =? 0) then write_user_usize out_actual_len (msg_length msg) else ret (Ok tt)) in
  if negb (out_sender =? 0) then write_user_usize out_sender (sender msg) else ret (Ok tt).

(** The closure of [with_task] blocks with interrupts masked, so [with_task] is written out. *)
Definition sys_recv (out_ptr max_len out_actual_len out_sender : usize) : M KState sys_result :=
  if out_ptr =? 0 then ret (Returned (Err InvalidArgument))
  else
    let! current := current_task in
    let! interrupt_state := disable_interrupts_and_save in
    let! k := get in
    match zget (tasks (k_sched k)) current with
    | Some (Some task) =>
        let rest :=
          let! r := recv_check task out_ptr max_len out_actual_len out_sender in
          do! restore_interrupts interrupt_state ;;;
          let? _ := ret r in
          recv_message out_ptr max_len out_actual_len out_sender in
        if mb_len (mailbox task) =? 0 then
          let! saved := block_current BlockRecv in
          ret (Suspended (do! restore_interrupts saved ;;; rest))
        else returns rest
    | _ => panic "failed to resolve self task"
    end.

(** ** Frames and address spaces *)

(** An out pointer that may not be null. *)
Definition bad_out_handle (out_handle : usize) : bool :=
  (out_handle =? 0) || negb (out_handle mod USIZE =? 0).

Definition sys_frame_alloc (out_handle : usize) : M KState (result unit Status) :=
  if bad_out_handle out_handle then ret (Err InvalidArgument)
  else
    let! current := current_task in
    let? _ := self_task current (λ task, validate_user_range (as_id task) out_handle USIZE true) in
    let! o := alloc_frame in
    let? frame := ret (ok_or o StatusOutOfMemory) in
    let handle := mkHandle (ObjFrame frame) (Rights_bitor RIGHTS_RWX RIGHT_MAP) in
    let! current := current_task in
    self_task_mut current
      (let! r := on_task current (on_handles (HandleTable_push handle)) in
       match r with
       | Err handle =>
           match object handle with
           | ObjFrame frame => do! dealloc_frame frame ;;; ret (Err StatusOutOfMemory)
           | _ => panic "internal error: entered unreachable code: pushed handle was not a frame"
           end
       | Ok handle_id => write_user_usize out_handle handle_id
       end).

Definition sys_frame_dealloc (frame_handle_id : usize) : M KState (result unit Status) :=
  let! current := current_task in
  self_task_mut current
    (let! o := on_task current (on_handles (HandleTable_take frame_handle_id)) in
     let? frame_handle := ret (ok_or o BadHandle) in
     match object frame_handle with
     | ObjFrame frame_addr => do! dealloc_frame frame_addr ;;; ret (Ok tt)
     | _ => do! put_back current frame_handle_id frame_handle ;;; ret (Err InvalidArgument)
     end).

Definition sys_as_create (out_handle : usize) : M KState (result unit Status) :=
  if bad_out_handle out_handle then ret (Err InvalidArgument)
  else
    let! current := current_task in
    let? new_as := self_task current (λ task,
      let? _ := validate_user_range (as_id task) out_handle USIZE true in
      let! o := with_address_space (as_id task)
                  (λ caller_as, with_allocator (AddressSpace_new_user caller_as)) in
      match o with
      | Some (Ok as_space) => ret (Ok as_space)
      | _ => ret (Err StatusOutOfMemory)
      end) in
    let! r := insert_address_space new_as in
    match r with
    | Err addr_space =>
        do! with_allocator (AddressSpace_destroy addr_space) ;;; ret (Err StatusOutOfMemory)
    | Ok as_id =>
        let! current := current_task in
        self_task_mut current
          (let! r := on_task current (on_handles (HandleTable_push (mkHandle (ObjAddressSpace as_id) RIGHTS_RWX))) in
           match r with
           | Err handle =>
               match object handle with
               | ObjAddressSpace as_id =>
                   let! o := remove_address_space as_id in
                   let! address_space := expect o "address space was just inserted" in
                   do! with_allocator (AddressSpace_destroy address_space) ;;;
                   ret (Err StatusOutOfMemory)
               | _ => panic "internal error: entered unreachable code: pushed handle was not an address space"
               end
           | Ok handle_id => write_user_usize out_handle handle_id
           end)
    end.

(** ** Mapping frames *)

(** [rights.0 & required.0 == required.0] *)
Definition has_rights (rights required : Rights) : bool := Z.land rights required =? required.

(** The checks of [sys_map] on the caller's handles. *)
Definition map_check (task : Tcb) (as_handle frame_handle : usize) (writable executable : bool)
    (out_handle : usize) : M KState (result AddressSpaceId Status) :=
  let? _ := validate_user_range (as_id task) out_handle USIZE true in
  let? as_handle := ret (ok_or (HandleTable_get (tcb_handles task) as_handle) BadHandle) in
  match object as_handle with
  | ObjAddressSpace as_id =>
      if Z.land (rights as_handle) RIGHT_WRITE =? 0 then ret (Err InvalidArgument)
      else
        let? frame_handle := ret (ok_or (HandleTable_get (tcb_handles task) frame_handle) BadHandle) in
        match object frame_handle with
        | ObjFrame _ =>
            let required := Rights_bitor RIGHT_READ RIGHT_MAP in
            let required := if writable then Rights_bitor required RIGHT_WRITE else required in
            let required := if executable then Rights_bitor required RIGHT_EXECUTE else required in
            if has_rights (rights frame_handle) required then ret (Ok as_id)
            else ret (Err InvalidArgument)
        | _ => ret (Err InvalidArgument)
        end
  | _ => ret (Err InvalidArgument)
  end.

(** The errors of [AddressSpace::map] that the caller can cause; the others panic. *)
Definition map_status (err : MapError) : option Status :=
  match err with
  | AlreadyMapped | UnsupportedPermissions => Some InvalidArgument
  | OutOfMemory => Some StatusOutOfMemory
  | _ => None
  end.

Definition sys_map (as_handle frame_handle virtual_addr permissions out_handle : usize) :
    M KState (result unit Status) :=
  if bad_out_handle out_handle then ret (Err InvalidArgument)
  else if negb (virtual_addr mod FRAME_SIZE =? 0) || negb (Z.land permissions (not64 3) =? 0)
  then ret (Err InvalidArgument)
  else
    let writable := negb (Z.land permissions (Z.shiftl 1 0) =? 0) in
    let executable := negb (Z.land permissions (Z.shiftl 1 1) =? 0) in
    let? end_ := ret (ok_or (checked_add virtual_addr FRAME_SIZE) InvalidArgument) in
    if USER_SPACE_END <? end_ then ret (Err InvalidArgument)
    else
      let! current := current_task in
      let? as_id := self_task current (λ task,
        map_check task as_handle frame_handle writable executable out_handle) in
      let? handle := self_task_mut current
        (let! o := on_task current (on_handles (HandleTable_take frame_handle)) in
         ret (ok_or o BadHandle)) in
      match object handle with
      | ObjFrame frame =>
          let! o := with_address_space as_id (λ target_as,
            with_allocator (AddressSpace_map target_as frame virtual_addr
              (mkPagePermissions writable executable true) WriteBack)) in
          let! map_result := expect o "failed to resolve self address space" in
          match map_result with
          | Ok _ =>
              let! current := current_task in
              let! _ := with_task_mut current
                (put_back current frame_handle
                   (mkHandle (ObjMapping frame as_id virtual_addr) (rights handle))) in
              let! r := write_user_usize out_handle frame_handle in
              match r with
              | Ok _ => ret (Ok tt)
              | Err _ => panic "out_handle has already been checked"
              end
          | Err err =>
              let! o := with_task_mut current
                (put_back current frame_handle (mkHandle (ObjFrame frame) (rights handle))) in
              do! expect o "failed to resolve self task" ;;;
              match map_status err with
              | Some status => ret (Err status)
              | None => panic "validated user mapping failed with an impossible error"
              end
          end
      | _ => panic "validated frame handle changed before it was taken"
      end.

Definition sys_unmap (mapping_handle : usize) : M KState (result unit Status) :=
  let! current := current_task in
  let? handle := self_task_mut current
    (let! o := on_task current (on_handles (HandleTable_take mapping_handle)) in
     ret (ok_or o BadHandle)) in
  match object handle with
  | ObjMapping frame address_space virtual_addr =>
      let! unmap_result := with_address_space address_space (λ target_as,
        with_allocator (AddressSpace_unmap target_as virtual_addr)) in
      match unmap_result with
      | Some (Ok unmapped_frame) =>
          if unmapped_frame =? frame then
            let! current := current_task in
            let! _ := with_task_mut current
              (put_back current mapping_handle (mkHandle (ObjFrame frame) (rights handle))) in
            ret (Ok tt)
          else panic "unmap resulted in a frame that was not the one we expected"
      | Some (Err _) => panic "failed to unmap"
      | None =>
          let! current := current_task in
          let! _ := with_task_mut current
            (put_back current mapping_handle
               (mkHandle (ObjMapping frame address_space virtual_addr) (rights handle))) in
          ret (Err BadHandle)
      end
  | _ =>
      let! current := current_task in
      let! o := with_task_mut current (put_back current mapping_handle handle) in
      do! expect o "failed to resolve self task" ;;;
      ret (Err InvalidArgument)
  end.

(** ** Creating tasks *)

Definition task_create_check (task : Tcb) (as_handle out_task_handle : usize) :
    M KState (result AddressSpaceId Status) :=
  let? _ := validate_user_range (as_id task) out_task_handle USIZE true in
  let? as_handle := ret (ok_or (HandleTable_get (tcb_handles task) as_handle) BadHandle) in
  match object as_handle with
  | ObjAddressSpace as_id =>
      if Z.land (rights as_handle) RIGHT_EXECUTE =? 0 then ret (Err InvalidArgument)
      else ret (Ok as_id)
  | _ => ret (Err InvalidArgument)
  end.

Definition entry_valid (m : memory) (entry : VirtualAddr) (address_space : AddressSpace) : bool :=
  match AddressSpace_mapping address_space m entry with
  | Some mapping => user_accessible (permissions mapping) && executable (permissions mapping)
  | None => false
  end.

Definition sys_task_create (as_handle entry user_stack out_task_handle : usize) :
    M KState (result unit Status) :=
  if (entry =? 0) || (user_stack =? 0) || (out_task_handle =? 0) then ret (Err InvalidArgument)
  else if (USER_SPACE_END <=? entry) || (USER_SPACE_END <? user_stack) then ret (Err BadAddress)
  else if negb (out_task_handle mod USIZE =? 0) then ret (Err InvalidArgument)
  else
    let! current := current_task in
    let? as_id := self_task current (λ task, task_create_check task as_handle out_task_handle) in
    let! o := with_address_space as_id (λ _, ret tt) in
    if negb (bool_decide (is_Some o)) then ret (Err BadHandle)
    else
      let? stack_probe := ret (ok_or (checked_sub user_stack 1) BadAddress) in
      let? _ := validate_user_range as_id stack_probe 1 true in
      let! o := with_address_space as_id
                  (λ address_space, gets (λ k, entry_valid (ms_mem (k_mem k)) entry address_space)) in
      let? entry_is_valid := ret (ok_or o BadHandle) in
      if negb entry_is_valid then ret (Err BadAddress)
      else
        let! r := with_kernel_address_space (λ kernel_as, with_interrupts_masked
                    (let! k := get in
                     do! massert (k_allocator_set k) "frame allocator not initialized" ;;;
                     allocate_kernel_stack kernel_as)) in
        match r with
        | Err _ => ret (Err StatusOutOfMemory)
        | Ok kernel_stack =>
            let! k := get in
            let! new_tcb := on_memory (Tcb_new_user (active_table k) user_thread_entry as_id kernel_stack
                              entry user_stack) in
            let! r := add_task new_tcb in
            match r with
            | Err _ => ret (Err StatusOutOfMemory)
            | Ok new_task_id =>
                let! current := current_task in
                self_task_mut current
                  (let! r := on_task current (on_handles (HandleTable_push (mkHandle (ObjThread new_task_id) RIGHTS_RWX))) in
                   match r with
                   | Err _ => let! _ := remove_task new_task_id in ret (Err StatusOutOfMemory)
                   | Ok handle_id => write_user_usize out_task_handle handle_id
                   end)
            end
        end.

(** ** The dispatcher *)

Definition result_code (r : result unit Status) : Z :=
  match r with Ok _ => 0 | Err err => status_code err end.

Definition dispatch (syscall : SyscallNumber) (arg0 arg1 arg2 arg3 arg4 : Z) : M KState sys_result :=
  match syscall with
  | SysYield => sys_yield
  | SysExit => sys_exit arg0
  | SysWrite => returns (sys_write arg0 arg1 arg2 arg3)
  | SysSend => returns (sys_send arg0 arg1 arg2)
  | SysRecv => sys_recv arg0 arg1 arg2 arg3
  | SysFrameAlloc => returns (sys_frame_alloc arg0)
  | SysFrameDealloc => returns (sys_frame_dealloc arg0)
  | SysAsCreate => returns (sys_as_create arg0)
  | SysMap => returns (sys_map arg0 arg1 arg2 arg3 arg4)
  | SysUnmap => returns (sys_unmap arg0)
  | SysTaskCreate => returns (sys_task_create arg0 arg1 arg2 arg3)
  end.

(** [handle]: the value that goes to [rax]. *)
Definition handle_syscall (num arg0 arg1 arg2 arg3 arg4 : Z) : M KState (sysret Z) :=
  let! r :=
    match SyscallNumber_try_from num with
    | None => do! exit_current (Faulted BadSystemCall) ;;; ret Gone
    | Some syscall => dispatch syscall arg0 arg1 arg2 arg3 arg4
    end in
  ret match r with
      | Returned r => Returned (result_code r)
      | Suspended rest => Suspended (let! r := rest in ret (result_code r))
      | Gone => Gone
      end.
End syscalls.
