(* ===== verification/DuskSys.v ===== *)
(** * The system call library of user programs

    Model of [userspace/dusk-sys/src/lib.rs]: every wrapper puts its arguments into registers,
    executes [syscall] and decodes [rax].  The wrapper runs in user mode on the state the kernel
    shares with it, so results that come back through a pointer are read from the caller's own
    memory.  The theorems connect the wrappers with the handlers of the kernel. *)

From S2P Require Import Prelude Memory Bytes Machine Frame Paging PageTree PageMap PageUnmap AddressSpace VirtMem Stack.
From S2P Require Import Ring Tcb Kernel Scheduler User Syscall.

(** ** Data *)

(** The library has its own [Status] and [SyscallNumber], with these discriminants. *)
Inductive UStatus := UInvalidArgument | UBadAddress | UBadFileDescriptor | UNoSuchTask | UOutOfMemory | UBadHandle.

Definition Status_from (value : usize) : UStatus :=
  match value with
  | 1 => UInvalidArgument
  | 2 => UBadAddress
  | 3 => UBadFileDescriptor
  | 4 => UNoSuchTask
  | 5 => UOutOfMemory
  | 6 => UBadHandle
  | _ => UInvalidArgument
  end.

Record AddressSpaceHandle := mkAddressSpaceHandle { as_handle_0 : usize }.
Record FrameHandle := mkFrameHandle { frame_handle_0 : usize }.
Record MappingHandle := mkMappingHandle { mapping_handle_0 : usize }.
Record ThreadHandle := mkThreadHandle { thread_handle_0 : usize }.

Definition SELF_AS : AddressSpaceHandle := mkAddressSpaceHandle 0.
Definition SELF_THREAD : ThreadHandle := mkThreadHandle 1.

Inductive USyscallNumber :=
| UYield | UExit | UWrite | USend | URecv | UFrameAlloc | UFrameDealloc | UAsCreate | UMap | UUnmap | UTaskCreate.

(** [number as usize] *)
Definition number_as (n : USyscallNumber) : usize :=
  match n with
  | UYield => 1 | UExit => 2 | UWrite => 3 | USend => 4 | URecv => 5 | UFrameAlloc => 6
  | UFrameDealloc => 7 | UAsCreate => 8 | UMap => 9 | UUnmap => 10 | UTaskCreate => 11
  end.

(** A slice or string of the program: where it lies and how long it is. *)
Record USlice := mkUSlice { as_ptr : VirtualAddr; as_len : usize }.

(** ** The instruction *)

(** The registers at an [asm!] block: its [in] operands, and what was there otherwise. *)
Fixpoint operands (ins : list (reg * Z)) (before : reg → Z) : reg → Z :=
  match ins with
  | [] => before
  | (r, v) :: ins => λ x, if decide (x = r) then v else operands ins before x
  end.

(** What the program does with a value, when and if it gets it. *)
Definition after {A B} (r : sysret A) (f : A → M KState B) : M KState (sysret B) :=
  match r with
  | Returned a => let! b := f a in ret (Returned b)
  | Suspended rest => ret (Suspended (let! a := rest in f a))
  | Gone => ret Gone
  end.

Section wrappers.
Context (paging : PagingConfig) (user_thread_entry : Z).

(** The registers the wrapper does not set hold anything. *)
Context (before : reg → Z).

Definition syscall (ins : list (reg * Z)) : M KState (sysret Z) :=
  let r := operands ins before in
  handle_syscall paging user_thread_entry (r RAX) (r RDI) (r RSI) (r RDX) (r R10) (r R8).

(** ** Memory of the program *)

(** The program reaches only pages that are mapped for user mode. *)
Definition user_reaches (need_writable : bool) (k : KState) (va : VirtualAddr) : bool :=
  match PageTable_mapping (active_table paging k) (ms_mem (k_mem k)) va with
  | Some p => user_accessible (permissions p) && (negb need_writable || writable (permissions p))
  | None => false
  end.

(** A local variable of type [usize], at the address the compiler gave it. *)
Definition user_store (local : VirtualAddr) (v : usize) : M KState unit :=
  let! k := get in
  do! massert (forallb (λ i, user_reaches true k (local + i)) (range 0 8)) "page fault" ;;;
  on_memory (vstore64 (active_table paging k) local v).

Definition user_load (local : VirtualAddr) : M KState usize :=
  let! k := get in
  do! massert (forallb (λ i, user_reaches false k (local + i)) (range 0 8)) "page fault" ;;;
  on_memory (vload64 (active_table paging k) local).

(** ** The wrappers *)

(** [if status != 0 { Err(status.into()) } else { Ok(ok) }] *)
Definition checked {A} (status : usize) (ok : M KState A) : M KState (result A UStatus) :=
  if negb (status =? 0) then ret (Err (Status_from status))
  else let! a := ok in ret (Ok a).

Definition u_yield : M KState (sysret unit) :=
  let! r := syscall [(RAX, 1)] in
  after r (λ _, ret tt).

Definition debug_write (buf : USlice) : M KState (sysret (result unit UStatus)) :=
  let! r := syscall [(RDI, 1); (RSI, as_ptr buf); (RDX, as_len buf); (R10, 0); (RAX, number_as UWrite)] in
  after r (λ status, checked status (ret tt)).

(** [DebugWriter::write_str]: any error becomes [core::fmt::Error]. *)
Definition DebugWriter_write_str (value : USlice) : M KState (sysret (result unit unit)) :=
  let! r := debug_write value in
  after r (λ r, ret (map_err (λ _, tt) r)).

Definition u_exit (exit_code : usize) : M KState (sysret unit) :=
  let! r := syscall [(RDI, exit_code); (RAX, number_as UExit)] in
  after r (λ _, ret tt).

Definition u_send (dest_task_id : usize) (msg : USlice) : M KState (sysret (result unit UStatus)) :=
  let! r := syscall [(RDI, dest_task_id); (RSI, as_ptr msg); (RDX, as_len msg); (RAX, number_as USend)] in
  after r (λ status, checked status (ret tt)).

(** [actual_len] and [sender] are the addresses of the local variables. *)
Definition u_recv (buf : USlice) (actual_len sender : VirtualAddr) :
    M KState (sysret (result (usize * usize) UStatus)) :=
  do! user_store actual_len 0 ;;;
  do! user_store sender 0 ;;;
  let! r := syscall [(RDI, as_ptr buf); (RSI, as_len buf); (RDX, actual_len); (R10, sender);
                     (RAX, number_as URecv)] in
  after r (λ status, checked status
    (let! n := user_load actual_len in let! from := user_load sender in ret (n, from))).

Definition u_frame_alloc (handle : VirtualAddr) : M KState (sysret (result FrameHandle UStatus)) :=
  do! user_store handle 0 ;;;
  let! r := syscall [(RDI, handle); (RAX, number_as UFrameAlloc)] in
  after r (λ status, checked status (let! h := user_load handle in ret (mkFrameHandle h))).

Definition u_frame_dealloc (frame_handle : FrameHandle) : M KState (sysret (result unit UStatus)) :=
  let! r := syscall [(RDI, frame_handle_0 frame_handle); (RAX, number_as UFrameDealloc)] in
  after r (λ status, checked status (ret tt)).

Definition u_as_create (handle : VirtualAddr) : M KState (sysret (result AddressSpaceHandle UStatus)) :=
  do! user_store handle 0 ;;;
  let! r := syscall [(RDI, handle); (RAX, number_as UAsCreate)] in
  after r (λ status, checked status (let! h := user_load handle in ret (mkAddressSpaceHandle h))).

Definition u_map (as_handle : AddressSpaceHandle) (frame_handle : FrameHandle)
    (virtual_addr permissions : usize) (handle : VirtualAddr) :
    M KState (sysret (result MappingHandle UStatus)) :=
  do! user_store handle 0 ;;;
  let! r := syscall [(RDI, as_handle_0 as_handle); (RSI, frame_handle_0 frame_handle);
                     (RDX, virtual_addr); (R10, permissions); (R8, handle); (RAX, number_as UMap)] in
  after r (λ status, checked status (let! h := user_load handle in ret (mkMappingHandle h))).

Definition u_unmap (mapping_handle : MappingHandle) : M KState (sysret (result unit UStatus)) :=
  let! r := syscall [(RDI, mapping_handle_0 mapping_handle); (RAX, number_as UUnmap)] in
  after r (λ status, checked status (ret tt)).

Definition u_task_create (as_handle : AddressSpaceHandle) (entry user_stack : usize)
    (handle : VirtualAddr) : M KState (sysret (result ThreadHandle UStatus)) :=
  do! user_store handle 0 ;;;
  let! r := syscall [(RDI, as_handle_0 as_handle); (RSI, entry); (RDX, user_stack); (R10, handle);
                     (RAX, number_as UTaskCreate)] in
  after r (λ status, checked status (let! h := user_load handle in ret (mkThreadHandle h))).

End wrappers.

(** ** Equality of runs *)

(** What is left of a suspended call is a function, so it is compared by what it does. *)
Definition sysret_equiv {A} (r r' : sysret A) : Prop :=
  match r, r' with
  | Returned a, Returned a' => a = a'
  | Suspended c, Suspended c' => ∀ k, c k = c' k
  | Gone, Gone => True
  | _, _ => False
  end.

Definition run_equiv {A} (o o' : outcome (sysret A * KState)) : Prop :=
  match o, o' with
  | Done (r, k), Done (r', k') => sysret_equiv r r' ∧ k = k'
  | Panic w, Panic w' => w = w'
  | Halt, Halt => True
  | _, _ => False
  end.

Definition calls_as {A} (c c' : M KState (sysret A)) : Prop := ∀ k, run_equiv (c k) (c' k).

#[export] Instance sysret_equiv_refl {A} : Reflexive (@sysret_equiv A).
Proof. by intros []. Qed.

#[export] Instance run_equiv_refl {A} : Reflexive (@run_equiv A).
Proof. by intros [[r k]|w|]; simpl. Qed.

#[export] Instance calls_as_refl {A} : Reflexive (@calls_as A).
Proof. by intros c k. Qed.

Lemma calls_as_bind {A B} (c : M KState A) (f g : A → M KState (sysret B)) :
  (∀ a, calls_as (f a) (g a)) → calls_as (bind c f) (bind c g).
Proof. intros H k. unfold bind. destruct (c k) as [[a k']|w|]; [apply H|done|done]. Qed.

(** Handling the value of a handler instead of its code. *)
Lemma after_map {A B C} (r : sysret A) (code : A → B) (f : B → M KState C) (g : A → M KState C) :
  (∀ a k, f (code a) k = g a k) →
  calls_as
    (after match r with
           | Returned a => Returned (code a)
           | Suspended rest => Suspended (let! a := rest in ret (code a))
           | Gone => Gone
           end f)
    (after r g).
Proof.
  intros H k. destruct r as [a|rest|]; simpl; [|split; [|done]|done].
  - unfold bind. rewrite H. by destruct (g a k) as [[c k']|w|].
  - intros k'. unfold bind. destruct (rest k') as [[a k'']|w|]; [apply H|done|done].
Qed.

(** ** What the library expects of the kernel *)

Definition user_status (s : Status) : UStatus :=
  match s with
  | InvalidArgument => UInvalidArgument | BadAddress => UBadAddress
  | BadFileDescriptor => UBadFileDescriptor | NoSuchTask => UNoSuchTask
  | StatusOutOfMemory => UOutOfMemory | BadHandle => UBadHandle
  end.

(** The result of a handler as the library passes it on: [ok] where it succeeds. *)
Definition passes_on {A} (ok : M KState A) (r : result unit Status) : M KState (result A UStatus) :=
  match r with
  | Ok _ => let! a := ok in ret (Ok a)
  | Err e => ret (Err (user_status e))
  end.

Definition answers {A} (handler : M KState sys_result) (ok : M KState A) :
    M KState (sysret (result A UStatus)) :=
  let! r := handler in after r (passes_on ok).

Lemma checked_result {A} (r : result unit Status) (ok : M KState A) k :
  checked (result_code r) ok k = passes_on ok r k.
Proof. by destruct r as [|[]]. Qed.

Section abi.
Context (paging : PagingConfig) (ute : Z) (before : reg → Z).

Lemma syscall_after {A} ins n (handler : M KState sys_result) (f : Z → M KState A)
    (g : result unit Status → M KState A) :
  let r := operands ins before in
  SyscallNumber_try_from (r RAX) = Some n →
  dispatch paging ute n (r RDI) (r RSI) (r RDX) (r R10) (r R8) = handler →
  (∀ x k, f (result_code x) k = g x k) →
  calls_as (let! x := syscall paging ute before ins in after x f) (let! x := handler in after x g).
Proof.
  intros r En Eh Hfg k. unfold syscall, handle_syscall. fold r. rewrite En, Eh. rewrite bind_assoc.
  revert k. apply calls_as_bind. intros x k. unfold bind at 1, ret at 1. by apply after_map.
Qed.

Lemma syscall_answers {A} ins n (handler : M KState sys_result) (ok : M KState A) :
  let r := operands ins before in
  SyscallNumber_try_from (r RAX) = Some n →
  dispatch paging ute n (r RDI) (r RSI) (r RDX) (r R10) (r R8) = handler →
  calls_as (let! x := syscall paging ute before ins in after x (λ status, checked status ok))
    (answers handler ok).
Proof. intros r En Eh. eapply syscall_after; [done|done|]. intros. apply checked_result. Qed.

End abi.

Lemma unknown_number n : 11 < n → SyscallNumber_try_from n = None.
Proof.
  intros H. unfold SyscallNumber_try_from. destruct n as [|q|q]; [done| |done].
  do 4 (destruct q as [q|q|]; try done; try lia).
Qed.

(** ** The wrappers and the handlers *)

Section contract.
Context (paging : PagingConfig) (ute : Z) (before : reg → Z).
Abbreviation load := (user_load paging).
Abbreviation store := (user_store paging).

(** C33: The library and the kernel agree on numbers, registers and error codes: whatever the other
    registers hold, each wrapper runs the handler of its name on its own arguments, and gives
    back the handler's error, or its success with what the handler left at the out pointers;
    a call with a number that names no call, 0 or any from 12 on, ends the task. *)
Theorem abi_correct :
  calls_as (u_yield paging ute before) (let! r := sys_yield in after r (λ _, ret tt)) ∧
  (∀ code, calls_as (u_exit paging ute before code) (do! exit_current (Exited code) ;;; ret Gone)) ∧
  (∀ buf, calls_as (debug_write paging ute before buf)
     (answers (returns (sys_write paging 1 (as_ptr buf) (as_len buf) 0)) (ret tt))) ∧
  (∀ dest msg, calls_as (u_send paging ute before dest msg)
     (answers (returns (sys_send paging dest (as_ptr msg) (as_len msg))) (ret tt))) ∧
  (∀ buf len from, calls_as (u_recv paging ute before buf len from)
     (do! store len 0 ;;; do! store from 0 ;;;
      answers (sys_recv paging (as_ptr buf) (as_len buf) len from)
        (let! n := load len in let! id := load from in ret (n, id)))) ∧
  (∀ h, calls_as (u_frame_alloc paging ute before h)
     (do! store h 0 ;;; answers (returns (sys_frame_alloc paging h)) (let! i := load h in ret (mkFrameHandle i)))) ∧
  (∀ f, calls_as (u_frame_dealloc paging ute before f)
     (answers (returns (sys_frame_dealloc (frame_handle_0 f))) (ret tt))) ∧
  (∀ h, calls_as (u_as_create paging ute before h)
     (do! store h 0 ;;; answers (returns (sys_as_create paging h)) (let! i := load h in ret (mkAddressSpaceHandle i)))) ∧
  (∀ s f va perms h, calls_as (u_map paging ute before s f va perms h)
     (do! store h 0 ;;; answers (returns (sys_map paging (as_handle_0 s) (frame_handle_0 f) va perms h))
        (let! i := load h in ret (mkMappingHandle i)))) ∧
  (∀ m, calls_as (u_unmap paging ute before m)
     (answers (returns (sys_unmap (mapping_handle_0 m))) (ret tt))) ∧
  (∀ s entry stack h, calls_as (u_task_create paging ute before s entry stack h)
     (do! store h 0 ;;; answers (returns (sys_task_create paging ute (as_handle_0 s) entry stack h))
        (let! i := load h in ret (mkThreadHandle i)))) ∧
  calls_as (syscall paging ute before [(RAX, 0)]) (do! exit_current (Faulted BadSystemCall) ;;; ret Gone) ∧
  (∀ n : N, calls_as (syscall paging ute before [(RAX, 12 + Z.of_N n)])
     (do! exit_current (Faulted BadSystemCall) ;;; ret Gone)).
Proof.
  split_and!; intros;
    repeat (apply calls_as_bind; intros _);
    try (eapply syscall_answers; reflexivity).
  - eapply syscall_after; reflexivity.
  - intros k. unfold u_exit, syscall, handle_syscall. simpl. unfold Syscall.sys_exit, bind, ret.
    by destruct (exit_current (Exited code) k) as [[[] k']|w|].
  - intros k. unfold syscall, handle_syscall. simpl. unfold bind, ret.
    by destruct (exit_current (Faulted BadSystemCall) k) as [[[] k']|w|].
  - intros k. unfold syscall, handle_syscall. simpl. rewrite unknown_number by lia. unfold bind, ret.
    by destruct (exit_current (Faulted BadSystemCall) k) as [[[] k']|w|].
Qed.
End contract.
