(* ===== verification/Programs.v ===== *)
(** * The programs of user space

    Model of the first program, [userspace/omega3/src/main.rs], which starts the others, and of the
    two it starts, [userspace/echo/src/main.rs] and [userspace/client/src/main.rs].  A program
    is an interaction tree whose events run on the state that it shares with the kernel: a system
    call through the library of [DuskSys], or an access to its own memory.  What the compiler
    chooses is a parameter: where literals and local variables lie, and in which pieces a text is
    formatted. *)

From ITree Require Import ITree.
From S2P Require Import Prelude Memory Bytes Machine Frame Paging PageTree PageMap PageUnmap AddressSpace VirtMem Stack.
From S2P Require Import Ring Tcb Kernel Scheduler User Cpio Elf UserElf Syscall DuskSys.

#[local] Existing Instance Omega3.ProgramHeaderType_eq_dec.

(** ** Programs *)

(** Something a program does on the state it shares with the kernel. *)
Variant userE : Type → Type :=
| Run {A : Type} (c : M KState (sysret A)) : userE A.

Abbreviation prog := (itree userE).
Abbreviation value a := (go (RetF a)).

Notation "'let+' x := c 'in' k" := (ITree.bind c (λ x, k))
  (at level 10, x pattern, c at level 100, k at level 200).

Definition run {A} (c : M KState (sysret A)) : prog A := ITree.trigger (Run c).

(** A computation without a system call. *)
Definition plain {A} (c : M KState A) : prog A := run (let! a := c in ret (Returned a)).

(** [for x in l { body(x) }] *)
Fixpoint ufor {A} (l : list A) (body : A → prog unit) : prog unit :=
  match l with
  | [] => value tt
  | x :: l => let+ _ := body x in ufor l body
  end.

(** Where the compiler put what the programs refer to: the literals, the pieces of the text of a
    panic, and the local variables of the wrappers. *)
Record Image := mkImage {
  text : bytes → USlice;
  panic_info : list USlice;
  handle_var : VirtualAddr;
  actual_len_var : VirtualAddr;
  sender_var : VirtualAddr;
}.

Section programs.
Context (paging : PagingConfig) (user_thread_entry : Z) (before : reg → Z) (image : Image).

(** ** Printing and panics *)

(** [DebugWriter.write_fmt]: the pieces in order, up to the first that fails. *)
Fixpoint write_fmt (pieces : list USlice) : prog (result unit unit) :=
  match pieces with
  | [] => value (Ok tt)
  | p :: pieces =>
      let+ r := run (DebugWriter_write_str paging user_thread_entry before p) in
      match r with Ok _ => write_fmt pieces | Err e => value (Err e) end
  end.

(** [println!]: the result is ignored. *)
Definition println (pieces : list USlice) : prog unit :=
  let+ _ := write_fmt (pieces ++ [text image [10]]) in value tt.

(** [sys_exit], after which nothing runs. *)
Definition exit {A} (exit_code : usize) : prog A :=
  let+ _ := run (u_exit paging user_thread_entry before exit_code) in ITree.spin.

(** The panic handler that all three programs have. *)
Definition upanic {A} : prog A :=
  let+ _ := println (panic_info image) in exit 1.

Definition unwrap {A E} (r : result A E) : prog A := match r with Ok a => value a | Err _ => upanic end.
Definition unwrap_some {A} (o : option A) : prog A := match o with Some a => value a | None => upanic end.

(** Arithmetic on [usize]. *)
Definition add (a b : usize) : prog usize := if a + b <? W64 then value (a + b) else upanic.
Definition sub (a b : usize) : prog usize := if b <=? a then value (a - b) else upanic.
Definition mul (a b : usize) : prog usize := if a * b <? W64 then value (a * b) else upanic.

(** ** Memory *)

Definition user_read (ptr : VirtualAddr) (len : usize) : M KState bytes :=
  let! k := get in
  do! massert (forallb (λ i, user_reaches paging false k (ptr + i)) (range 0 len)) "page fault" ;;;
  on_memory (vload_bytes (active_table paging k) (Z.to_nat len) ptr).

Definition user_write (ptr : VirtualAddr) (b : bytes) : M KState unit :=
  let! k := get in
  do! massert (forallb (λ i, user_reaches paging true k (ptr + i)) (range 0 (slice_len b))) "page fault" ;;;
  on_memory (vstore_bytes (active_table paging k) b ptr).

(** ** omega3 *)

Definition INITRAMFS_START : usize := 0x40000000.
Definition SCRATCH_PAGE : usize := 0x80000000.
Definition STACK_TOP : usize := 0x7FFFFFFFF000.
Definition STACK_PAGES : usize := 4.

(** The part of a page of a segment that comes from the file, from [start] to [end]. *)
Definition copy_range (segment_start file_end page : usize) : prog (usize * usize) :=
  let+ page_end := add page 0x1000 in
  let copy_start := Z.min (Z.max page segment_start) page_end in
  value (copy_start, Z.max (Z.min page_end file_end) copy_start).

(** Filling the scratch page with a page of a segment of the file at [elf_ptr]. *)
Definition fill_scratch (elf_ptr : VirtualAddr) (header : Omega3.ProgramHeader)
    (segment_start file_end page : usize) : prog unit :=
  let+ _ := plain (user_write SCRATCH_PAGE (replicate (Z.to_nat 0x1000) 0)) in
  let+ (copy_start, copy_end) := copy_range segment_start file_end page in
  if copy_start <? copy_end then
    let+ page_offset := sub copy_start page in
    let+ from := sub copy_start segment_start in
    let+ file_offset := add (Omega3.ph_file_offset header) from in
    let+ len := sub copy_end copy_start in
    plain (let! b := user_read (elf_ptr + file_offset) len in user_write (SCRATCH_PAGE + page_offset) b)
  else value tt.

(** One round of the loop over the pages of a segment. *)
Definition load_page (elf_ptr : VirtualAddr) (target_as : AddressSpaceHandle) (header : Omega3.ProgramHeader)
    (segment_start file_end perms page : usize) : prog unit :=
  let+ r := run (u_frame_alloc paging user_thread_entry before (handle_var image)) in
  let+ frame := unwrap r in
  let+ r := run (u_map paging user_thread_entry before SELF_AS frame SCRATCH_PAGE 1 (handle_var image)) in
  let+ scratch_handle := unwrap r in
  let+ _ := fill_scratch elf_ptr header segment_start file_end page in
  let+ r := run (u_unmap paging user_thread_entry before scratch_handle) in
  let+ _ := unwrap r in
  let+ r := run (u_map paging user_thread_entry before target_as frame page perms (handle_var image)) in
  let+ _ := unwrap r in
  value tt.

Definition header_perms (header : Omega3.ProgramHeader) : usize :=
  let perms := if negb (Z.land (Omega3.ph_flags header) 2 =? 0) then Z.lor 0 (Z.shiftl 1 0) else 0 in
  if negb (Z.land (Omega3.ph_flags header) 1 =? 0) then Z.lor perms (Z.shiftl 1 1) else perms.

(** One round of the loop over the program headers. *)
Definition load_header (elf_ptr : VirtualAddr) (target_as : AddressSpaceHandle)
    (item : result Omega3.ProgramHeader Omega3.ElfError) : prog unit :=
  let+ header := unwrap item in
  if negb (bool_decide (Omega3.ph_segment_type header = Omega3.PhLoad)) || (Omega3.ph_memory_size header =? 0)
  then value tt
  else
    let segment_start := Omega3.ph_virtual_address header in
    let+ segment_end := add segment_start (Omega3.ph_memory_size header) in
    let+ file_end := add segment_start (Omega3.ph_file_size header) in
    let page_start := Z.land segment_start (not64 0xFFF) in
    ufor (pages page_start segment_end)
      (load_page elf_ptr target_as header segment_start file_end (header_perms header)).

Definition load_elf (elf : Omega3.Elf) (elf_ptr : VirtualAddr) (target_as : AddressSpaceHandle) : prog usize :=
  let+ headers := unwrap (Omega3.Elf_program_headers elf) in
  let+ _ := ufor (Omega3.all_program_headers headers) (load_header elf_ptr target_as) in
  value (Omega3.Elf_entry elf).

Definition map_stack_page (target_as : AddressSpaceHandle) (stack_top i : usize) : prog unit :=
  let+ r := run (u_frame_alloc paging user_thread_entry before (handle_var image)) in
  let+ frame := unwrap r in
  let+ below := mul i 0x1000 in
  let+ page_addr := sub stack_top below in
  let+ r := run (u_map paging user_thread_entry before target_as frame page_addr 1 (handle_var image)) in
  let+ _ := unwrap r in
  value tt.

Definition map_stack (target_as : AddressSpaceHandle) (stack_top pages : usize) : prog unit :=
  ufor (range 1 (pages + 1)) (map_stack_page target_as stack_top).

(** The file is looked up and read in place; [rounds] bounds the entries of the archive. *)
Definition start_program (rounds : nat) (name : bytes) : prog unit :=
  let+ found := plain (user_find_slice user_read rounds INITRAMFS_START name 0) in
  let+ (ptr, len) := unwrap_some found in
  let+ file := plain (user_read ptr len) in
  let+ elf := unwrap (Omega3.Elf_parse file) in
  let+ r := run (u_as_create paging user_thread_entry before (handle_var image)) in
  let+ target_as := unwrap r in
  let+ entry := load_elf elf ptr target_as in
  let+ _ := map_stack target_as STACK_TOP STACK_PAGES in
  let+ r := run (u_task_create paging user_thread_entry before target_as entry STACK_TOP (handle_var image)) in
  let+ _ := unwrap r in
  value tt.

(** ["echo.elf"] and ["client.elf"] *)
Definition ECHO_ELF : bytes := [101; 99; 104; 111; 46; 101; 108; 102].
Definition CLIENT_ELF : bytes := [99; 108; 105; 101; 110; 116; 46; 101; 108; 102].

(** [banner] holds the pieces of its eight lines.  The call with a number that does not exist ends
    the program. *)
Definition omega3_start (rounds : nat) (banner : list (list USlice)) : prog unit :=
  let+ _ := ufor banner println in
  let+ _ := start_program rounds ECHO_ELF in
  let+ _ := start_program rounds CLIENT_ELF in
  let+ _ := run (syscall paging user_thread_entry before [(RAX, 134)]) in
  exit 0.

(** ** echo and client *)

(** ["[echo] Received: "] *)
Definition ECHO_RECEIVED : bytes := [91; 101; 99; 104; 111; 93; 32; 82; 101; 99; 101; 105; 118; 101; 100; 58; 32].

(** The message in [out], checked to be a string, and printed after [prefix]. *)
Definition print_message (prefix : bytes) (out : USlice) (actual_len : usize) : prog unit :=
  if as_len out <? actual_len then upanic
  else
    let+ b := plain (user_read (as_ptr out) actual_len) in
    if negb (utf8_valid b) then upanic
    else println [text image prefix; mkUSlice (as_ptr out) actual_len].

(** One round of the server: [out] is its buffer. *)
Definition echo_round (out : USlice) : prog unit :=
  let+ r := run (u_recv paging user_thread_entry before out (actual_len_var image) (sender_var image)) in
  let+ (actual_len, sender) := unwrap r in
  let+ _ := print_message ECHO_RECEIVED out actual_len in
  let+ r := run (u_send paging user_thread_entry before sender (mkUSlice (as_ptr out) actual_len)) in
  unwrap r.

Definition zero_buffer (out : USlice) : prog unit :=
  plain (user_write (as_ptr out) (replicate (Z.to_nat (as_len out)) 0)).

Definition echo_start (out : USlice) : prog unit :=
  let+ _ := zero_buffer out in
  ITree.iter (λ _ : unit, let+ _ := echo_round out in value (inl tt)) tt.

(** ["[client] Sent: "], ["Hello from client!"] and ["[client] Received: "] *)
Definition CLIENT_SENT : bytes := [91; 99; 108; 105; 101; 110; 116; 93; 32; 83; 101; 110; 116; 58; 32].
Definition CLIENT_MSG : bytes :=
  [72; 101; 108; 108; 111; 32; 102; 114; 111; 109; 32; 99; 108; 105; 101; 110; 116; 33].
Definition CLIENT_RECEIVED : bytes :=
  [91; 99; 108; 105; 101; 110; 116; 93; 32; 82; 101; 99; 101; 105; 118; 101; 100; 58; 32].

Definition client_start (out : USlice) : prog unit :=
  let msg := text image CLIENT_MSG in
  let+ _ := println [text image CLIENT_SENT; msg] in
  let+ r := run (u_send paging user_thread_entry before 1 msg) in
  let+ _ := unwrap r in
  let+ _ := zero_buffer out in
  let+ r := run (u_recv paging user_thread_entry before out (actual_len_var image) (sender_var image)) in
  let+ (actual_len, _) := unwrap r in
  let+ _ := print_message CLIENT_RECEIVED out actual_len in
  exit 0.
End programs.
