(* ===== verification/Serial.v ===== *)
(** * The serial console

    Model of [src/debug/serial.rs]: the driver of the first serial port, on a device that is known
    by the behaviour of a 16550 ([Uart]).  The kernel prints with interrupts off, so waiting for the
    transmitter only lets time pass. *)

From S2P Require Import Prelude Memory Bytes Frame Paging PageTree PageMap PageUnmap AddressSpace VirtMem Stack.
From S2P Require Import Ring Tcb Kernel Scheduler User Syscall Device.

(** ** Definitions *)

Definition COM1_BASE : Z := 0x3F8.

Definition DATA_BUFFER : Z := 0.
Definition DIVISOR_LOW : Z := 0.
Definition INTERRUPT_ENABLE : Z := 1.
Definition DIVISOR_HIGH : Z := 1.
Definition FIFO_CONTROL : Z := 2.
Definition LINE_CONTROL : Z := 3.
Definition MODEM_CONTROL : Z := 4.
Definition LINE_STATUS : Z := 5.
Definition SCRATCH : Z := 7.

Definition FIFO_ENABLE : Z := Z.shiftl 1 0.
Definition CLEAR_RECEIVE : Z := Z.shiftl 1 1.
Definition CLEAR_TRANSMIT : Z := Z.shiftl 1 2.
Definition TRIGGER_LEVEL_14 : Z := Z.shiftl 3 6.

Definition DATA_BITS_8 : Z := 3.
Definition DLAB : Z := Z.shiftl 1 7.

Definition TRANSMITTER_EMPTY : Z := Z.shiftl 1 5.

Definition DATA_TERMINAL_READY : Z := Z.shiftl 1 0.
Definition REQUEST_TO_SEND : Z := Z.shiftl 1 1.
Definition OUT_1 : Z := Z.shiftl 1 2.
Definition OUT_2 : Z := Z.shiftl 1 3.
Definition LOOPBACK : Z := Z.shiftl 1 4.

Definition SCRATCH_TEST_VALUE : Z := 0x42.
Definition LOOPBACK_TEST_VALUE : Z := 0xAE.

Inductive SerialPortError := NotFound | Faulty.

Record SerialPort := mkSerialPort { sp_base : Z }.

Definition SerialPort_new (base : Z) : SerialPort := mkSerialPort base.

Definition com1 : SerialPort := SerialPort_new COM1_BASE.

(** [a | b | ...] *)
Definition bits (l : list Z) : Z := foldr Z.lor 0 l.

Section driver.
Context {D : Type} `{!Hardware D}.

Definition write_register (self : SerialPort) (register value : Z) : M (Io D) unit :=
  write_u8 (sp_base self + register) value.

Definition read_register (self : SerialPort) (register : Z) : M (Io D) Z := read_u8 (sp_base self + register).

Definition can_transfer (self : SerialPort) : M (Io D) bool :=
  let! status := read_register self LINE_STATUS in
  ret (negb (Z.land status TRANSMITTER_EMPTY =? 0)).

(** [while !self.can_transfer() { spin_loop() }], for at most [fuel] rounds; [false] when they are
    used up. *)
Fixpoint wait_transfer (fuel : nat) (self : SerialPort) : M (Io D) bool :=
  match fuel with
  | O => ret false
  | S fuel =>
      let! ready := can_transfer self in
      if ready : bool then ret true
      else do! dev_out (λ d, (elapse d).2) ;;; wait_transfer fuel self
  end.

(** The end of [write_byte]: wait, then send.  [false] when [fuel] is used up. *)
Definition send_byte (fuel : nat) (self : SerialPort) (byte : Z) : M (Io D) bool :=
  let! ready := wait_transfer fuel self in
  if ready : bool then do! write_register self DATA_BUFFER byte ;;; ret true else ret false.

Definition SerialPort_write_byte (fuel : nat) (self : SerialPort) (byte : Z) : M (Io D) bool :=
  let! done := (if byte =? 10 then send_byte fuel self 13 else ret true) in
  if done : bool then send_byte fuel self byte else ret false.

Definition SerialPort_init (fuel : nat) (self : SerialPort) : M (Io D) (option (result unit SerialPortError)) :=
  do! write_register self SCRATCH SCRATCH_TEST_VALUE ;;;
  let! scratch := read_register self SCRATCH in
  if negb (scratch =? SCRATCH_TEST_VALUE) then ret (Some (Err NotFound))
  else
    do! write_register self INTERRUPT_ENABLE 0 ;;;
    do! write_register self LINE_CONTROL DLAB ;;;
    do! write_register self DIVISOR_LOW 1 ;;;
    do! write_register self DIVISOR_HIGH 0 ;;;
    do! write_register self LINE_CONTROL DATA_BITS_8 ;;;
    do! write_register self FIFO_CONTROL (bits [FIFO_ENABLE; CLEAR_RECEIVE; CLEAR_TRANSMIT; TRIGGER_LEVEL_14]) ;;;
    do! write_register self MODEM_CONTROL (bits [DATA_TERMINAL_READY; REQUEST_TO_SEND; OUT_2]) ;;;
    do! write_register self MODEM_CONTROL (bits [REQUEST_TO_SEND; OUT_1; OUT_2; LOOPBACK]) ;;;
    let! sent := SerialPort_write_byte fuel self LOOPBACK_TEST_VALUE in
    if negb sent then ret None
    else
      let! echo := read_register self DATA_BUFFER in
      if negb (echo =? LOOPBACK_TEST_VALUE) then ret (Some (Err Faulty))
      else
        do! write_register self MODEM_CONTROL (bits [DATA_TERMINAL_READY; REQUEST_TO_SEND; OUT_1; OUT_2]) ;;;
        ret (Some (Ok tt)).

(** The loop of [write_bytes] and of [write_str]. *)
Fixpoint SerialPort_write_all (fuel : nat) (self : SerialPort) (b : bytes) : M (Io D) bool :=
  match b with
  | [] => ret true
  | byte :: b =>
      let! sent := SerialPort_write_byte fuel self byte in
      if sent : bool then SerialPort_write_all fuel self b else ret false
  end.

Definition write_bytes_com1 (fuel : nat) (b : bytes) : M (Io D) bool := SerialPort_write_all fuel com1 b.

Definition serial_init (fuel : nat) : M (Io D) (option (result unit SerialPortError)) := SerialPort_init fuel com1.
End driver.

(** ** The device *)

(** The registers of a 16550, what it received in loopback mode, what it has sent on the wire, and the
    time until its transmitter is empty; [u_latency] is how long one byte takes. *)
Record Uart := mkUart {
  u_interrupts : Z; u_fifo : Z; u_line : Z; u_modem : Z; u_scratch : Z;
  u_divisor : Z; u_received : Z; u_sent : list Z; u_busy : Z; u_latency : Z;
}.

Definition divisor_latch (u : Uart) : bool := Z.testbit (u_line u) 7.
Definition loopback (u : Uart) : bool := Z.testbit (u_modem u) 4.

Definition uart_out (register v : Z) (u : Uart) : Uart :=
  let 'mkUart ier fcr lcr mcr scr div rx tx busy lat := u in
  match register with
  | 0 => if divisor_latch u then mkUart ier fcr lcr mcr scr (div / 256 * 256 + v) rx tx busy lat
         else if loopback u then mkUart ier fcr lcr mcr scr div v tx lat lat
         else mkUart ier fcr lcr mcr scr div rx (tx ++ [v]) lat lat
  | 1 => if divisor_latch u then mkUart ier fcr lcr mcr scr (v * 256 + div mod 256) rx tx busy lat
         else mkUart v fcr lcr mcr scr div rx tx busy lat
  | 2 => mkUart ier v lcr mcr scr div rx tx busy lat
  | 3 => mkUart ier fcr v mcr scr div rx tx busy lat
  | 4 => mkUart ier fcr lcr v scr div rx tx busy lat
  | 7 => mkUart ier fcr lcr mcr v div rx tx busy lat
  | _ => u
  end.

Definition uart_in (register : Z) (u : Uart) : Z :=
  match register with
  | 0 => if divisor_latch u then u_divisor u mod 256 else u_received u
  | 1 => if divisor_latch u then u_divisor u / 256 else u_interrupts u
  | 3 => u_line u
  | 4 => u_modem u
  | 5 => if u_busy u =? 0 then 0x60 else 0
  | 7 => u_scratch u
  | _ => 0
  end.

Definition uart_tick (u : Uart) : Uart :=
  mkUart (u_interrupts u) (u_fifo u) (u_line u) (u_modem u) (u_scratch u) (u_divisor u) (u_received u) (u_sent u)
    (Z.max 0 (u_busy u - 1)) (u_latency u).

(** There is such a device at [base]. *)
Class UartAt {D} `{!Hardware D} (base : Z) (uart : D → Uart) : Prop := {
  uart_at_out d r v : 0 ≤ r < 8 → uart (port_out (base + r) v d) = uart_out r v (uart d);
  uart_at_in d r : 0 ≤ r < 8 → ∃ d', port_in (base + r) d = (uart_in r (uart d), d') ∧ uart d' = uart d;
  uart_at_elapse d : uart (elapse d).2 = uart_tick (uart d);
  uart_at_busy d : 0 ≤ u_busy (uart d);
}.

(** Nothing answers on the bus. *)
Definition no_device {D} `{!Hardware D} (base : Z) : Prop :=
  ∀ d r, 0 ≤ r < 8 → ∃ d', port_in (base + r) d = (0xFF, d').

(** ** Lemmas *)

(** The transmitter has become empty. *)
Definition settled (u : Uart) : Uart :=
  mkUart (u_interrupts u) (u_fifo u) (u_line u) (u_modem u) (u_scratch u) (u_divisor u) (u_received u) (u_sent u) 0 (u_latency u).

(** What goes over the wire for a byte. *)
Definition wire (byte : Z) : list Z := if byte =? 10 then [13; 10] else [byte].

(** 115200 baud, eight bits, no parity, one stop bit, FIFOs on, out of loopback mode. *)
Record configured (u : Uart) : Prop := {
  cf_divisor : u_divisor u = 1;
  cf_line : u_line u = DATA_BITS_8;
  cf_fifo : u_fifo u = 0xC7;
  cf_modem : u_modem u = 0xF;
}.

Section lemmas.
Context {D : Type} `{!Hardware D} (self : SerialPort) (uart : D → Uart) `{!UartAt (sp_base self) uart}.

(** Only the devices have changed, and the port is in the given state. *)
Definition port_now (u : Uart) (s s' : Io D) : Prop :=
  io_mem s' = io_mem s ∧ io_if s' = io_if s ∧ io_counters s' = io_counters s ∧ uart (io_dev s') = u.

Lemma write_register_spec r v s :
  0 ≤ r < 8 → ∃ s', write_register self r v s = Done (tt, s') ∧ port_now (uart_out r v (uart (io_dev s))) s s'.
Proof. intros Hr. exists (set_io_dev (port_out (sp_base self + r) v (io_dev s)) s). split; [done|]. split_and!; try done. exact (uart_at_out (io_dev s) r v Hr). Qed.

Lemma read_register_spec r s :
  0 ≤ r < 8 → ∃ s', read_register self r s = Done (uart_in r (uart (io_dev s)), s') ∧ port_now (uart (io_dev s)) s s'.
Proof.
  intros Hr. destruct (uart_at_in (io_dev s) r Hr) as (d & E & Hd). exists (set_io_dev d s).
  split; [by apply dev_in_Done|]. by split_and!.
Qed.

Lemma port_now_trans u u' s s' s'' : port_now u s s' → port_now u' s' s'' → port_now u' s s''.
Proof. intros (?&?&?&?) (?&?&?&?). split_and!; congruence. Qed.

Lemma can_transfer_spec s :
  ∃ s', can_transfer self s = Done (u_busy (uart (io_dev s)) =? 0, s') ∧ port_now (uart (io_dev s)) s s'.
Proof.
  destruct (read_register_spec LINE_STATUS s) as (s' & E & H); [done|]. exists s'. split; [|done].
  unfold can_transfer. rewrite (bind_Done _ _ _ _ _ E). unfold ret. do 2 f_equal.
  change (uart_in LINE_STATUS ?u) with (if u_busy u =? 0 then 0x60 else 0). by destruct (u_busy _ =? 0).
Qed.

Lemma wait_transfer_spec n s :
  u_busy (uart (io_dev s)) < Z.of_nat n →
  ∃ s', (∀ fuel, (n ≤ fuel)%nat → wait_transfer fuel self s = Done (true, s')) ∧
    port_now (settled (uart (io_dev s))) s s'.
Proof.
  revert s. induction n as [|n IH]; intros s Hn.
  { pose proof (uart_at_busy (io_dev s)). lia. }
  pose proof (uart_at_busy (io_dev s)) as Hb. destruct (can_transfer_spec s) as (s1 & E1 & H1).
  destruct (Z.eqb_spec (u_busy (uart (io_dev s))) 0) as [E0|E0].
  { exists s1. split; [intros [|fuel] Hf; [lia|]; cbn [wait_transfer]; by rewrite (bind_Done _ _ _ _ _ E1)|].
    destruct H1 as (?&?&?&Hu). split_and!; try done. rewrite Hu. unfold settled. destruct (uart (io_dev s)); simpl in *; by subst. }
  set (s2 := set_io_dev (elapse (io_dev s1)).2 s1).
  assert (H2 : uart (io_dev s2) = uart_tick (uart (io_dev s))).
  { cbn. rewrite uart_at_elapse. by rewrite (proj2 (proj2 (proj2 H1))). }
  destruct (IH s2) as (s' & Hw & Hp).
  { rewrite H2. cbn [uart_tick u_busy]. lia. }
  exists s'. split.
  - intros [|fuel] Hf; [lia|]. cbn [wait_transfer]. rewrite (bind_Done _ _ _ _ _ E1).
    rewrite (bind_Done _ _ _ _ _ (dev_out_Done _ _)). apply Hw. lia.
  - rewrite H2 in Hp. change (settled (uart_tick ?u)) with (settled u) in Hp.
    destruct H1 as (?&?&?&_), Hp as (?&?&?&?). split_and!; cbn in *; congruence.
Qed.

Lemma send_byte_spec v s n :
  u_busy (uart (io_dev s)) < Z.of_nat n →
  ∃ s', (∀ fuel, (n ≤ fuel)%nat → send_byte fuel self v s = Done (true, s')) ∧
    port_now (uart_out 0 v (settled (uart (io_dev s)))) s s'.
Proof.
  intros Hn. destruct (wait_transfer_spec n s Hn) as (s1 & E1 & H1).
  destruct (write_register_spec DATA_BUFFER v s1) as (s2 & E2 & H2); [done|]. exists s2. split.
  - intros fuel Hf. unfold send_byte. rewrite (bind_Done _ _ _ _ _ (E1 fuel Hf)). by rewrite (bind_Done _ _ _ _ _ E2).
  - pose proof (port_now_trans _ _ _ _ _ H1 H2) as H. by rewrite (proj2 (proj2 (proj2 H1))) in H.
Qed.

(** Sending on the wire, once the port is configured. *)
Definition sent_more (b : list Z) (u : Uart) : Uart :=
  mkUart (u_interrupts u) (u_fifo u) (u_line u) (u_modem u) (u_scratch u) (u_divisor u) (u_received u) (u_sent u ++ b)
    (u_latency u) (u_latency u).

Lemma out_configured v u : configured u → uart_out 0 v (settled u) = sent_more [v] u.
Proof.
  intros [_ Hl _ Hm]. destruct u. cbn in *. subst. reflexivity.
Qed.

Lemma configured_more b u : configured u → configured (sent_more b u).
Proof. by intros []. Qed.

Lemma write_byte_spec v s n :
  configured (uart (io_dev s)) → u_busy (uart (io_dev s)) < Z.of_nat n → u_latency (uart (io_dev s)) < Z.of_nat n →
  ∃ s', (∀ fuel, (n ≤ fuel)%nat → SerialPort_write_byte fuel self v s = Done (true, s')) ∧
    port_now (sent_more (wire v) (uart (io_dev s))) s s'.
Proof.
  intros Hc Hb Hl. unfold SerialPort_write_byte, wire. destruct (v =? 10) eqn:Ev.
  - destruct (send_byte_spec 13 s n Hb) as (s1 & E1 & H1). rewrite (out_configured _ _ Hc) in H1.
    pose proof (proj2 (proj2 (proj2 H1))) as Hu.
    destruct (send_byte_spec v s1 n) as (s2 & E2 & H2); [by rewrite Hu|].
    exists s2. split.
    + intros fuel Hf. rewrite (bind_Done _ _ _ _ _ (E1 fuel Hf)). by apply E2.
    + pose proof (port_now_trans _ _ _ _ _ H1 H2) as H. rewrite Hu, out_configured in H by (by apply configured_more).
      apply Z.eqb_eq in Ev. subst v. destruct H as (?&?&?&Hu'). split_and!; try done.
      rewrite Hu'. unfold sent_more. cbn [u_sent u_latency]. by rewrite <- app_assoc.
  - destruct (send_byte_spec v s n Hb) as (s1 & E1 & H1). rewrite (out_configured _ _ Hc) in H1.
    exists s1. split; [|done]. intros fuel Hf. rewrite bind_ret. by apply E1.
Qed.

Lemma write_all_spec b s n :
  configured (uart (io_dev s)) → u_busy (uart (io_dev s)) < Z.of_nat n → u_latency (uart (io_dev s)) < Z.of_nat n →
  ∃ s', (∀ fuel, (n ≤ fuel)%nat → SerialPort_write_all fuel self b s = Done (true, s')) ∧
    configured (uart (io_dev s')) ∧ u_sent (uart (io_dev s')) = u_sent (uart (io_dev s)) ++ (b ≫= wire) ∧
    io_mem s' = io_mem s ∧ io_if s' = io_if s.
Proof.
  revert s. induction b as [|v b IH]; intros s Hc Hb Hl.
  { exists s. split_and!; try done. by rewrite app_nil_r. }
  destruct (write_byte_spec v s n Hc Hb Hl) as (s1 & E1 & (M1 & I1 & _ & U1)).
  destruct (IH s1) as (s2 & E2 & Hc2 & Hs2 & M2 & I2); rewrite ?U1; [by apply configured_more|done|done|].
  exists s2. split_and!; [|done| |congruence|congruence].
  - intros fuel Hf. cbn [SerialPort_write_all]. rewrite (bind_Done _ _ _ _ _ (E1 fuel Hf)). by apply E2.
  - rewrite Hs2, U1. cbn [sent_more u_sent mbind list_bind]. by rewrite <- app_assoc.
Qed.
End lemmas.

Section init.
Context {D : Type} `{!Hardware D} (self : SerialPort) (uart : D → Uart) `{!UartAt (sp_base self) uart}.

(** A run of register writes, in order. *)
Definition uart_outs (ws : list (Z * Z)) (u : Uart) : Uart := foldl (λ u w, uart_out w.1 w.2 u) u ws.

Fixpoint write_registers (ws : list (Z * Z)) {A} (k : M (Io D) A) : M (Io D) A :=
  match ws with
  | [] => k
  | w :: ws => do! write_register self w.1 w.2 ;;; write_registers ws k
  end.

Lemma write_registers_spec ws s :
  Forall (λ w, 0 ≤ w.1 < 8) ws →
  ∃ s', (∀ A (k : M (Io D) A), write_registers ws k s = k s') ∧ port_now uart (uart_outs ws (uart (io_dev s))) s s'.
Proof.
  intros H. revert s. induction H as [|[r v] ws Hr _ IH]; intros s; [by exists s|].
  destruct (write_register_spec self uart r v s Hr) as (s1 & E1 & H1). destruct (IH s1) as (s2 & E2 & H2).
  exists s2. split.
  - intros A k. cbn [write_registers fst snd]. by rewrite (bind_Done _ _ _ _ _ E1).
  - rewrite (proj2 (proj2 (proj2 H1))) in H2. by eapply port_now_trans.
Qed.

(** What [init] writes between its two probes. *)
Definition setup_writes : list (Z * Z) :=
  [(INTERRUPT_ENABLE, 0); (LINE_CONTROL, DLAB); (DIVISOR_LOW, 1); (DIVISOR_HIGH, 0); (LINE_CONTROL, DATA_BITS_8);
   (FIFO_CONTROL, bits [FIFO_ENABLE; CLEAR_RECEIVE; CLEAR_TRANSMIT; TRIGGER_LEVEL_14]);
   (MODEM_CONTROL, bits [DATA_TERMINAL_READY; REQUEST_TO_SEND; OUT_2]);
   (MODEM_CONTROL, bits [REQUEST_TO_SEND; OUT_1; OUT_2; LOOPBACK])].

(** The port after [init]; the divisor latch may have been open at the first write. *)
Definition ready_uart (u : Uart) : Uart :=
  mkUart (if divisor_latch u then u_interrupts u else 0) 0xC7 3 0xF SCRATCH_TEST_VALUE 1 LOOPBACK_TEST_VALUE (u_sent u)
    (u_latency u) (u_latency u).

Lemma setup_final u :
  uart_outs [(MODEM_CONTROL, bits [DATA_TERMINAL_READY; REQUEST_TO_SEND; OUT_1; OUT_2])]
    (uart_out 0 LOOPBACK_TEST_VALUE (settled (uart_outs setup_writes (uart_out SCRATCH SCRATCH_TEST_VALUE u)))) = ready_uart u.
Proof.
  unfold setup_writes, uart_outs at 2. cbn [foldl fst snd].
  assert (Hi : ∃ div, uart_out INTERRUPT_ENABLE 0 (uart_out SCRATCH SCRATCH_TEST_VALUE u) =
    mkUart (if divisor_latch u then u_interrupts u else 0) (u_fifo u) (u_line u) (u_modem u) SCRATCH_TEST_VALUE div
      (u_received u) (u_sent u) (u_busy u) (u_latency u)).
  { destruct u as [ier fcr lcr mcr scr div rx tx busy lat]. unfold divisor_latch. cbn [u_line u_interrupts].
    change (uart_out INTERRUPT_ENABLE 0 _) with
      (if Z.testbit lcr 7 then mkUart ier fcr lcr mcr SCRATCH_TEST_VALUE (0 * 256 + div mod 256) rx tx busy lat
       else mkUart 0 fcr lcr mcr SCRATCH_TEST_VALUE div rx tx busy lat).
    destruct (Z.testbit lcr 7); eexists; reflexivity. }
  destruct Hi as [div ->]. unfold ready_uart. generalize (if divisor_latch u then u_interrupts u else 0). intros ier.
  transitivity (mkUart ier 0xC7 3 0xF SCRATCH_TEST_VALUE (0 * 256 + (div / 256 * 256 + 1) mod 256) LOOPBACK_TEST_VALUE
    (u_sent u) (u_latency u) (u_latency u)); [reflexivity|]. f_equal. dmlia.
Qed.

Lemma outs_busy u : u_busy (uart_outs setup_writes u) = u_busy u.
Proof.
  unfold setup_writes, uart_outs. cbn [foldl fst snd].
  assert (Hi : u_busy (uart_out INTERRUPT_ENABLE 0 u) = u_busy u).
  { destruct u. unfold uart_out, INTERRUPT_ENABLE. by destruct (divisor_latch _). }
  rewrite <- Hi. by destruct (uart_out INTERRUPT_ENABLE 0 u).
Qed.

(** In loopback mode the byte comes back. *)
Lemma loop_echo u : uart_in DATA_BUFFER (uart_out 0 LOOPBACK_TEST_VALUE (settled (uart_outs setup_writes u))) = LOOPBACK_TEST_VALUE.
Proof. unfold setup_writes, uart_outs. cbn [foldl fst snd]. by destruct (uart_out INTERRUPT_ENABLE 0 u). Qed.

Lemma init_spec s n :
  u_busy (uart (io_dev s)) < Z.of_nat n →
  ∃ s', (∀ fuel, (n ≤ fuel)%nat → SerialPort_init fuel self s = Done (Some (Ok tt), s')) ∧
    port_now uart (ready_uart (uart (io_dev s))) s s'.
Proof.
  intros Hn. destruct (write_register_spec self uart SCRATCH SCRATCH_TEST_VALUE s) as (s1 & E1 & H1); [done|].
  destruct (read_register_spec self uart SCRATCH s1) as (s2 & E2 & H2); [done|].
  pose proof (port_now_trans uart _ _ _ _ _ H1 H2) as H12. rewrite (proj2 (proj2 (proj2 H1))) in H12, E2.
  assert (Hecho : uart_in SCRATCH (uart_out SCRATCH SCRATCH_TEST_VALUE (uart (io_dev s))) = SCRATCH_TEST_VALUE)
    by (by destruct (uart (io_dev s))). rewrite Hecho in E2.
  destruct (write_registers_spec setup_writes s2) as (s3 & E3 & H3); [by repeat constructor|].
  pose proof (proj2 (proj2 (proj2 H3))) as U3. rewrite (proj2 (proj2 (proj2 H12))) in U3.
  destruct (send_byte_spec self uart LOOPBACK_TEST_VALUE s3 n) as (s4 & E4 & H4).
  { rewrite U3. eapply Z.le_lt_trans; [|exact Hn]. rewrite outs_busy. by destruct (uart (io_dev s)). }
  rewrite U3 in H4. destruct (read_register_spec self uart DATA_BUFFER s4) as (s5 & E5 & H5); [done|].
  rewrite (proj2 (proj2 (proj2 H4))) in E5, H5. rewrite loop_echo in E5.
  destruct (write_registers_spec [(MODEM_CONTROL, bits [DATA_TERMINAL_READY; REQUEST_TO_SEND; OUT_1; OUT_2])] s5)
    as (s6 & E6 & H6); [by repeat constructor|].
  rewrite (proj2 (proj2 (proj2 H5))), setup_final in H6. exists s6. split.
  - intros fuel Hf. unfold SerialPort_init. rewrite (bind_Done _ _ _ _ _ E1), (bind_Done _ _ _ _ _ E2). cbn [Z.eqb negb].
    change (write_registers setup_writes
      (let! sent := SerialPort_write_byte fuel self LOOPBACK_TEST_VALUE in
       if negb sent then ret None
       else let! echo := read_register self DATA_BUFFER in
         if negb (echo =? LOOPBACK_TEST_VALUE) then ret (Some (Err Faulty))
         else write_registers [(MODEM_CONTROL, bits [DATA_TERMINAL_READY; REQUEST_TO_SEND; OUT_1; OUT_2])]
                (ret (Some (Ok tt)))) s2 = Done (Some (Ok tt), s6)).
    rewrite E3. change (SerialPort_write_byte fuel self LOOPBACK_TEST_VALUE) with
      (let! done := ret true in if done : bool then send_byte fuel self LOOPBACK_TEST_VALUE else ret false).
    unfold bind at 2. cbn [ret]. rewrite (bind_Done _ _ _ _ _ (E4 fuel Hf)). cbn [negb].
    rewrite (bind_Done _ _ _ _ _ E5). cbn [Z.eqb negb]. rewrite Z.eqb_refl. cbn [negb]. by rewrite E6.
  - eapply port_now_trans; [exact H12|]. eapply port_now_trans; [exact H3|]. eapply port_now_trans; [exact H4|].
    eapply port_now_trans; [exact H5|exact H6].
Qed.
End init.

Lemma serial_write_bytes_spec b k : serial_write_bytes b k = Done (tt, set_k_serial (k_serial k ++ (b ≫= wire)) k).
Proof.
  unfold serial_write_bytes. revert k. induction b as [|v b IH]; intros k.
  - cbn. by rewrite app_nil_r; destruct k.
  - cbn [mfor mbind list_bind]. unfold serial_write_byte at 1. rewrite bind_modify, IH. cbn [k_serial set_k_serial].
    unfold wire at 1 3. by rewrite <- app_assoc.
Qed.

Lemma ready_configured u : configured (ready_uart u).
Proof. by constructor. Qed.

(** ** Theorems *)

(** C38: With a 16550 at the port, whatever state it is in, [init] ends and succeeds: 115200 baud, eight
    data bits, FIFOs on, out of loopback mode, the port's interrupts off unless its divisor latch was
    open before, and nothing sent on the wire.  From then on writing bytes always ends and puts on the
    wire exactly what the model of the system calls records, a carriage return before every newline.
    Where no device answers, [init] reports that and gives up at once. *)
Theorem serial_console_correct {D} `{!Hardware D} (s : Io D) :
  (∀ uart : D → Uart, UartAt COM1_BASE uart →
     let u := uart (io_dev s) in
     ∃ n s', (∀ fuel, (n ≤ fuel)%nat → serial_init fuel s = Done (Some (Ok tt), s')) ∧
       configured (uart (io_dev s')) ∧ u_sent (uart (io_dev s')) = u_sent u ∧
       (divisor_latch u = false → u_interrupts (uart (io_dev s')) = 0) ∧
       ∀ b k, k_serial k = u_sent (uart (io_dev s')) →
         ∃ m s'' k', (∀ fuel, (m ≤ fuel)%nat → write_bytes_com1 fuel b s' = Done (true, s'')) ∧
           serial_write_bytes b k = Done (tt, k') ∧ k_serial k' = u_sent (uart (io_dev s'')) ∧
           configured (uart (io_dev s''))) ∧
  (no_device (D := D) COM1_BASE → ∀ fuel, ∃ s', serial_init fuel s = Done (Some (Err NotFound), s')).
Proof.
  split.
  - intros uart Hu. cbv zeta.
    destruct (init_spec com1 uart s (S (Z.to_nat (u_busy (uart (io_dev s)))))) as (s' & Ei & (_ & _ & _ & Us)).
    { pose proof (uart_at_busy (UartAt := Hu) (io_dev s)). lia. }
    eexists _, s'. split; [exact Ei|]. rewrite Us. split_and!; [apply ready_configured|done|by intros H; unfold ready_uart; cbn [u_interrupts]; rewrite H|].
    intros b k Hk. pose proof (uart_at_busy (UartAt := Hu) (io_dev s')) as Hb.
    destruct (write_all_spec com1 uart b s' (S (Z.to_nat (u_latency (uart (io_dev s)))))) as (s'' & Ew & Hc & Hs & _).
    { rewrite Us. apply ready_configured. }
    { rewrite Us in *. cbn in *. lia. }
    { rewrite Us in *. cbn in *. lia. }
    eexists _, s'', _. split_and!; [exact Ew|apply serial_write_bytes_spec| |done].
    rewrite Hs, Us. cbn [k_serial set_k_serial]. by rewrite Hk.
  - intros Hn fuel. unfold serial_init, SerialPort_init.
    set (s1 := set_io_dev (port_out (COM1_BASE + SCRATCH) SCRATCH_TEST_VALUE (io_dev s)) s).
    destruct (Hn (io_dev s1) SCRATCH) as [d Hd]; [done|].
    assert (E1 : write_register com1 SCRATCH SCRATCH_TEST_VALUE s = Done (tt, s1)) by done.
    rewrite (bind_Done _ _ _ _ _ E1). rewrite (bind_Done _ _ _ _ _ (dev_in_Done _ _ _ _ Hd)). by eexists.
Qed.

(** ** A serial port *)

Definition demo_port (u : Uart) : Uart :=
  mkUart (u_interrupts u) (u_fifo u) (u_line u) (u_modem u) (u_scratch u) (u_divisor u) (u_received u) (u_sent u)
    (Z.max 0 (u_busy u)) (Z.max 0 (u_latency u)).

#[export] Instance uart_hardware : Hardware Uart := {
  port_in p u := (uart_in (p - COM1_BASE) (demo_port u), u);
  port_out p v u := demo_port (uart_out (p - COM1_BASE) v u);
  mmio_in _ u := (0, u);
  mmio_out _ _ u := u;
  msr_in _ u := (0, u);
  msr_out _ _ u := u;
  elapse u := (None, uart_tick u);
}.

Lemma demo_port_out r v u : 0 ≤ r < 8 → demo_port (demo_port (uart_out r v u)) = uart_out r v (demo_port u).
Proof.
  intros Hr. destruct u as [ier fcr lcr mcr scr div rx tx busy lat].
  assert (Hc : r = 0 ∨ r = 1 ∨ r = 2 ∨ r = 3 ∨ r = 4 ∨ r = 5 ∨ r = 6 ∨ r = 7) by lia.
  assert (Hm : ∀ x, Z.max 0 (Z.max 0 x) = Z.max 0 x) by lia.
  unfold uart_out, demo_port, divisor_latch, loopback. cbn [u_line u_modem].
  destruct Hc as [->|[->|[->|[->|[->|[->|[->| ->]]]]]]]; destruct (Z.testbit lcr 7), (Z.testbit mcr 4);
    cbn [u_interrupts u_fifo u_line u_modem u_scratch u_divisor u_received u_sent u_busy u_latency]; by rewrite ?Hm.
Qed.

#[export] Instance demo_uart_at : UartAt COM1_BASE demo_port.
Proof.
  constructor.
  - intros d r v Hr. cbn -[uart_out demo_port]. replace (COM1_BASE + r - COM1_BASE) with r by lia. by apply demo_port_out.
  - intros d r Hr. exists d. split; [|done]. cbn -[uart_in demo_port]. by replace (COM1_BASE + r - COM1_BASE) with r by lia.
  - intros d. unfold uart_tick, demo_port. cbn. f_equal; lia.
  - intros d. cbn. lia.
Qed.

Definition demo_uart : Uart := mkUart 1 0 0x80 0 0 0 0 [] 5 3.

Lemma serial_console_correct_witness :
  ∃ n s', (∀ fuel, (n ≤ fuel)%nat →
      serial_init fuel (mkIo demo_pt_state demo_uart false (mkCounters 0 0 0 false 0)) = Done (Some (Ok tt), s')) ∧
    configured (demo_port (io_dev s')).
Proof.
  destruct (serial_console_correct (mkIo demo_pt_state demo_uart false (mkCounters 0 0 0 false 0))) as [H _].
  destruct (H demo_port demo_uart_at) as (n & s' & E & Hc & _). by exists n, s'.
Defined.
