(* ===== verification/Ipc.v ===== *)
(** * Messages between tasks

    What [sys_send] and [sys_recv] of [src/syscall/table.rs] do to the kernel's state, for a
    running task and its address space. *)

From S2P Require Import Prelude Memory Bytes Frame Paging PageTree PageMap PageUnmap AddressSpace VirtMem Stack.
From S2P Require Import Ring Tcb Kernel Scheduler Registers Tasks User Syscall.

(** ** The calling task *)

(** Task [c] with control block [t] runs in the address space [sp]. *)
Record caller (paging : PagingConfig) (k : KState) (a : AbsSched) (c : TaskId) (t : Tcb)
    (sp : AddressSpace) (l : list FrameState) : Prop := {
  ca_ok : kernel_ok k a;
  ca_current : ab_current a = Some c;
  ca_task : lookup_task (k_sched k) c = Some t;
  ca_space : AddressSpaceTable_get (k_spaces k) (as_id t) = Some sp;
  ca_inv : pt_inv (root sp) (k_mem k) l;
  ca_paging : pt_config (root sp) = paging;
}.

(** User-accessible bytes of the range are memory that the direct map reaches. *)
Definition user_backed (sp : AddressSpace) (s : MState) (start len : Z) : Prop :=
  ∀ x, start ≤ x < start + len → page_valid sp (ms_mem s) false x = true →
    is_Some (vcell (root sp) (ms_mem s) x).

Section caller.
Context (paging : PagingConfig) (k : KState) (a : AbsSched) (c : TaskId) (t : Tcb).
Context (sp : AddressSpace) (l : list FrameState) (Hca : caller paging k a c t sp l).

Lemma current_task_Done : current_task k = Done (c, k).
Proof.
  unfold current_task. mred.
  by rewrite (sr_current _ _ (ko_sched _ _ (ca_ok _ _ _ _ _ _ _ Hca))), (ca_current _ _ _ _ _ _ _ Hca).
Qed.

Lemma active_table_root b : active_table paging (set_k_interrupts b k) = root sp.
Proof.
  destruct (ko_cpu _ _ (ca_ok _ _ _ _ _ _ _ Hca) c (ca_current _ _ _ _ _ _ _ Hca)) as (t' & sp' & Ht & Hsp & Hcr & _).
  rewrite (ca_task _ _ _ _ _ _ _ Hca) in Ht. injection Ht as <-.
  rewrite (ca_space _ _ _ _ _ _ _ Hca) in Hsp. injection Hsp as <-. unfold active_table. simpl.
  rewrite Hcr, (pi_dm _ _ _ (ca_inv _ _ _ _ _ _ _ Hca)), <- (ca_paging _ _ _ _ _ _ _ Hca). by destruct (root sp).
Qed.

Lemma self_task_Done {A} (f : Tcb → M KState (result A Status)) r k' :
  f t (set_k_interrupts false k) = Done (r, k') →
  self_task c f k = Done (r, set_k_interrupts (k_interrupts k) k').
Proof.
  intros E. unfold self_task, with_task. erewrite bind_Done.
  2: { apply masked_flag. mred. simpl. rewrite (lookup_task_slot _ _ _ (ca_task _ _ _ _ _ _ _ Hca)).
       by rewrite (bind_Done _ _ _ _ _ E). }
  done.
Qed.

Lemma self_validate start len need :
  is_u64 start → is_u64 len →
  ∃ r, self_task c (λ task, validate_user_range (as_id task) start len need) k = Done (r, k) ∧
    (r = Ok tt ∨ r = Err BadAddress) ∧
    (r = Ok tt ↔ range_valid sp (ms_mem (k_mem k)) start len need).
Proof.
  intros Hs Hl. destruct (validate_spec (set_k_interrupts false k) (as_id t) sp l start len need
    (ca_space _ _ _ _ _ _ _ Hca) (ca_inv _ _ _ _ _ _ _ Hca) Hs Hl) as (r & E & Hr).
  exists r. split; [|exact Hr]. rewrite (self_task_Done _ _ _ E). by destruct k.
Qed.

Lemma data_vcell_Some x j : data_at (root sp) l (k_mem k) x j → is_Some (vcell (root sp) (ms_mem (k_mem k)) x).
Proof. intros H. rewrite (data_vcell _ _ _ _ _ (ca_inv _ _ _ _ _ _ _ Hca) H). by eexists. Qed.

Lemma read_user_Done start len :
  0 ≤ start → 0 ≤ len → range_valid sp (ms_mem (k_mem k)) start len false →
  user_backed sp (k_mem k) start len →
  read_user paging start (Z.to_nat len) k = Done (Ok (vbytes (root sp) (ms_mem (k_mem k)) start len), k).
Proof.
  intros H0 Hl (H1 & H2 & Hv) Hb. unfold read_user. mred.
  pose proof (active_table_root (k_interrupts k)) as Ea. rewrite set_k_interrupts_id in Ea. rewrite Ea.
  assert (E : copy_from_user (root sp) start (Z.to_nat len) (k_mem k) =
    Done (Ok (vbytes (root sp) (ms_mem (k_mem k)) start len), k_mem k)).
  { unfold copy_from_user. rewrite Z2Nat.id by lia.
    rewrite checked_add_lt by (unfold USER_SPACE_END, W64 in *; lia). cbn [ok_or]. mred.
    rewrite (proj2 (Z.ltb_ge _ _)) by lia. erewrite bind_Done; [done|].
    rewrite vload_bytes_cells; rewrite Z2Nat.id by lia; [done|].
    intros i Hi. apply Hb; [lia|]. apply Hv. lia. }
  unfold on_memory. rewrite (on_part_Done _ _ _ _ _ _ E). by destruct k.
Qed.

End caller.

(** ** Changing one task in place *)

Lemma on_task_Done {A} id (c : M Tcb A) k t a t' :
  lookup_task (k_sched k) id = Some t → c t = Done (a, t') →
  on_task id c k = Done (a, set_k_sched (upd_task id (Some t') (k_sched k)) k).
Proof.
  intros Ht E. unfold on_task. erewrite bind_Done by (apply on_sched_Done, task_at_Done; exact Ht).
  unfold on_local. unfold bind at 1. rewrite E. unfold set_task.
  erewrite bind_Done by (by apply on_sched_Done). by destruct k.
Qed.

Lemma with_task_mut_Done {A} id (f : M KState A) k t a k' :
  lookup_task (k_sched k) id = Some t → f (set_k_interrupts false k) = Done (a, k') →
  with_task_mut id f k = Done (Some a, set_k_interrupts (k_interrupts k) k').
Proof.
  intros Ht E. unfold with_task_mut. apply masked_flag. mred. simpl.
  rewrite (lookup_task_slot _ _ _ Ht). by rewrite (bind_Done _ _ _ _ _ E).
Qed.

Lemma with_task_mut_None {A} id (f : M KState A) k :
  lookup_task (k_sched k) id = None → with_task_mut id f k = Done (None, k).
Proof.
  intros Ht. unfold with_task_mut. erewrite masked_flag.
  2: { mred. simpl. unfold lookup_task in Ht. destruct (zget (tasks (k_sched k)) id) as [[|]|]; by try discriminate Ht. }
  by destruct k.
Qed.

(** A task whose scheduling state, stack and address space stay the same. *)
Lemma kernel_ok_task k a id t t' :
  kernel_ok k a → lookup_task (k_sched k) id = Some t →
  state t' = state t → tcb_id t' = tcb_id t → as_id t' = as_id t → kernel_stack t' = kernel_stack t →
  kernel_ok (set_k_sched (upd_task id (Some t') (k_sched k)) k) a.
Proof.
  intros [Hs Hsp Hcpu] Ht E1 E2 E3 E4. pose proof (lookup_task_range _ _ _ Ht) as Hr.
  assert (Hl : ∀ j, lookup_task (upd_task id (Some t') (k_sched k)) j =
    if decide (id = j) then Some t' else lookup_task (k_sched k) j) by (intros; by apply lookup_upd_task).
  split; simpl.
  - destruct Hs as [S1 S2 S3 S4 S5 S6]. split; try done; simpl.
    + by rewrite length_zset.
    + intros j. rewrite Hl, S4. case_decide; [subst; rewrite Ht; simpl; by rewrite E1|done].
    + intros j tj. rewrite Hl. case_decide; [|apply S5]. subst. intros [= <-]. rewrite E2. by apply S5.
  - intros j tj. rewrite Hl. case_decide; [|apply Hsp]. intros [= <-]. rewrite E3. by eapply Hsp.
  - intros c Hc. destruct (Hcpu c Hc) as (tc & spc & Htc & H1 & H2 & H3 & H4 & H5).
    unfold cpu_runs. simpl. rewrite Hl. case_decide as Hd.
    + subst. rewrite Ht in Htc. injection Htc as <-. exists t', spc. rewrite E3, E4. done.
    + exists tc, spc. done.
Qed.

(** ** Sending *)

(** The message that is in the sender's buffer. *)
Definition message_at (sp : AddressSpace) (m : memory) (sender : TaskId) (msg_ptr len : usize) : Message :=
  mkMessage sender len (vbytes (root sp) m msg_ptr len ++ replicate (Z.to_nat (MAX_MSG_SIZE - len)) 0).

(** The scheduling state of a task that was sent a message. *)
Definition woken (st : ThreadState) : ThreadState :=
  if bool_decide (st = Blocked BlockRecv) then Ready else st.

Definition abs_woken (id : TaskId) (st : ThreadState) (a : AbsSched) : AbsSched :=
  if bool_decide (st = Blocked BlockRecv)
  then mkAbsSched (ab_current a) (ab_queue a ++ [id]) (<[id := Ready]> (ab_states a))
  else a.

(** The kernel after message [msg] was delivered to task [dest]. *)
Definition delivered (dest : TaskId) (msg : Message) (k : KState) (a : AbsSched) (k' : KState) : Prop :=
  ∃ t t' q, lookup_task (k_sched k) dest = Some t ∧
    mailbox_rep (mailbox t) q ∧ Z.of_nat (length q) < MAILBOX_CAPACITY ∧
    mailbox_rep (mailbox t') (q ++ [msg]) ∧ t' = set_mailbox (mailbox t') (set_state (woken (state t)) t) ∧
    (∀ j, lookup_task (k_sched k') j = if decide (dest = j) then Some t' else lookup_task (k_sched k) j) ∧
    k' = set_k_sched (k_sched k') k ∧ kernel_ok k' (abs_woken dest (state t) a).

(** Putting the message into the mailbox and waking the receiver. *)
Definition deliver (dest : TaskId) (msg : Message) : M KState (result unit Status) :=
  let! o := with_task_mut dest
    (let! pushed := on_task dest (on_mailbox (Mailbox_push msg)) in
     if negb pushed then ret (Err StatusOutOfMemory)
     else
       let! task := on_sched (task_at dest) in
       ret (Ok (bool_decide (state task = Blocked BlockRecv)))) in
  let? should_unblock := ret (ok_or o NoSuchTask) in
  let? should_unblock := ret should_unblock in
  do! (if should_unblock : bool then unblock dest else ret tt) ;;;
  ret (Ok tt).

Lemma upd_task_id s id t : lookup_task s id = Some t → upd_task id (Some t) s = s.
Proof.
  intros H. pose proof (lookup_task_range _ _ _ H) as Hr. apply lookup_task_slot in H.
  unfold upd_task, set_tasks. rewrite zset_insert by lia. rewrite zget_lookup in H by lia.
  rewrite list_insert_id by done. by destruct s.
Qed.

Lemma set_k_flag_sched k s b :
  set_k_interrupts b (set_k_sched s (set_k_interrupts false k)) = set_k_sched s (set_k_interrupts b k).
Proof. done. Qed.

(** Delivering to a task with a full mailbox, and to one that has room. *)
Lemma deliver_full dest msg k t q :
  lookup_task (k_sched k) dest = Some t → mailbox_rep (mailbox t) q →
  Z.of_nat (length q) = MAILBOX_CAPACITY → deliver dest msg k = Done (Err StatusOutOfMemory, k).
Proof.
  intros Ht Hq Hf. unfold deliver.
  assert (Hm : on_mailbox (Mailbox_push msg) t = Done (false, t)).
  { unfold on_mailbox. rewrite (on_part_Done _ _ _ _ _ _ (mailbox_push_full _ _ _ Hq Hf)). by destruct t. }
  erewrite bind_Done.
  2: { eapply with_task_mut_Done; [exact Ht|]. erewrite bind_Done by (eapply on_task_Done; [exact Ht|exact Hm]). done. }
  cbn [ok_or]. mred. unfold ret. change (k_sched (set_k_interrupts false k)) with (k_sched k).
  rewrite (upd_task_id _ _ _ Ht). by destruct k.
Qed.

Lemma deliver_ok dest msg k a t q :
  kernel_ok k a → lookup_task (k_sched k) dest = Some t → mailbox_rep (mailbox t) q →
  Z.of_nat (length q) < MAILBOX_CAPACITY →
  ∃ k', deliver dest msg k = Done (Ok tt, k') ∧ delivered dest msg k a k'.
Proof.
  intros Hok Ht Hq Hf. destruct (mailbox_push_ok _ _ msg Hq Hf) as (mb & Em & Hmb).
  pose proof (lookup_task_range _ _ _ Ht) as Hr. set (t1 := set_mailbox mb t).
  assert (Hm : on_mailbox (Mailbox_push msg) t = Done (true, t1)) by (by apply on_part_Done).
  set (k1 := set_k_sched (upd_task dest (Some t1) (k_sched k)) k).
  assert (Ht1 : lookup_task (k_sched k1) dest = Some t1).
  { unfold k1. simpl. rewrite lookup_upd_task by done. by rewrite decide_True. }
  assert (Hok1 : kernel_ok k1 a) by (by apply (kernel_ok_task k a dest t)).
  assert (Eb : with_task_mut dest
    (let! pushed := on_task dest (on_mailbox (Mailbox_push msg)) in
     if negb pushed then ret (Err StatusOutOfMemory)
     else let! task := on_sched (task_at dest) in ret (Ok (bool_decide (state task = Blocked BlockRecv)))) k =
    Done (Some (Ok (bool_decide (state t = Blocked BlockRecv))), k1)).
  { erewrite with_task_mut_Done; [|exact Ht|].
    2: { erewrite bind_Done by (eapply on_task_Done; [exact Ht|exact Hm]).
         cbn [negb]. erewrite bind_Done by (apply on_sched_Done, task_at_Done; exact Ht1). reflexivity. }
    unfold k1. by destruct k. }
  unfold deliver. rewrite (bind_Done _ _ _ _ _ Eb). mred. cbn [ok_or]. mred. unfold delivered, woken, abs_woken.
  case_bool_decide as Hst.
  - destruct (unblock_blocked k1 a dest t1 BlockRecv Hok1 Ht1 Hst) as (rq & Eu & Hoku).
    rewrite (bind_Done _ _ _ _ _ Eu). eexists. split; [done|]. exists t, (set_state Ready t1), q.
    rewrite bool_decide_true by done. split_and!; try done.
    intros j. cbn [k_sched set_k_sched k1]. change (lookup_task (set_ready rq ?s) j) with (lookup_task s j).
    rewrite !lookup_upd_task; simpl; rewrite ?length_zset; try done. by repeat case_decide.
  - mred. eexists. split; [done|]. exists t, t1, q. rewrite bool_decide_false by done.
    split_and!; try done.
    intros j. unfold k1. simpl. by rewrite lookup_upd_task.
Qed.

(** Every task's mailbox is a queue. *)
Definition mailboxes_ok (k : KState) : Prop :=
  ∀ id t, lookup_task (k_sched k) id = Some t → ∃ q, mailbox_rep (mailbox t) q.

Definition send_error (k : KState) (sp : AddressSpace) (dest : TaskId) (msg_ptr len : usize) (e : Status) : Prop :=
  match e with
  | InvalidArgument => MAX_MSG_SIZE < len
  | BadAddress => len ≤ MAX_MSG_SIZE ∧ ¬ range_valid sp (ms_mem (k_mem k)) msg_ptr len false
  | NoSuchTask => lookup_task (k_sched k) dest = None
  | StatusOutOfMemory => ∃ t q, lookup_task (k_sched k) dest = Some t ∧ mailbox_rep (mailbox t) q ∧
      Z.of_nat (length q) = MAILBOX_CAPACITY
  | _ => False
  end.

Lemma deliver_spec dest msg k a :
  kernel_ok k a → mailboxes_ok k →
  ∃ r k', deliver dest msg k = Done (r, k') ∧
    match r with
    | Ok _ => delivered dest msg k a k'
    | Err e => k' = k ∧
        (e = NoSuchTask ∧ lookup_task (k_sched k) dest = None ∨
         e = StatusOutOfMemory ∧ ∃ t q, lookup_task (k_sched k) dest = Some t ∧ mailbox_rep (mailbox t) q ∧
           Z.of_nat (length q) = MAILBOX_CAPACITY)
    end.
Proof.
  intros Hok Hmb. destruct (lookup_task (k_sched k) dest) as [t|] eqn:Ht.
  2: { exists (Err NoSuchTask), k. split; [|by eauto]. unfold deliver.
       rewrite (bind_Done _ _ _ _ _ (with_task_mut_None _ _ _ Ht)). done. }
  destruct (Hmb dest t Ht) as [q Hq]. pose proof (fifo_bound (Fifo := mailbox_fifo_instance) _ _ Hq) as Hb. simpl in Hb.
  destruct (decide (Z.of_nat (length q) = MAILBOX_CAPACITY)) as [E|E].
  - exists (Err StatusOutOfMemory), k. split; [by eapply deliver_full|]. split; [done|]. right. split; [done|]. by exists t, q.
  - destruct (deliver_ok dest msg k a t q Hok Ht Hq ltac:(lia)) as (k' & Ed & Hd). by exists (Ok tt), k'.
Qed.

Lemma send_spec paging k a c t sp l dest msg_ptr len :
  caller paging k a c t sp l → mailboxes_ok k → is_u64 msg_ptr → is_u64 len →
  (range_valid sp (ms_mem (k_mem k)) msg_ptr len false → user_backed sp (k_mem k) msg_ptr len) →
  ∃ r k', sys_send paging dest msg_ptr len k = Done (r, k') ∧
    match r with
    | Ok _ => len ≤ MAX_MSG_SIZE ∧ range_valid sp (ms_mem (k_mem k)) msg_ptr len false ∧
        delivered dest (message_at sp (ms_mem (k_mem k)) c msg_ptr len) k a k'
    | Err e => k' = k ∧ send_error k sp dest msg_ptr len e
    end.
Proof.
  intros Hca Hmb Hp Hl Hb. unfold sys_send. destruct (Z.ltb_spec MAX_MSG_SIZE len) as [Hlen|Hlen].
  { by exists (Err InvalidArgument), k. }
  rewrite (bind_Done _ _ _ _ _ (current_task_Done _ _ _ _ _ _ _ Hca)).
  destruct (self_validate _ _ _ _ _ _ _ Hca msg_ptr len false Hp Hl) as (r & Ev & Hr & Hv).
  destruct Hr as [-> | ->].
  2: { rewrite (bind_ok_Err _ _ _ _ _ Ev). exists (Err BadAddress), k. split; [done|]. split; [done|].
       split; [done|]. intros Hc%Hv. discriminate. }
  rewrite (bind_ok_Ok _ _ _ _ _ Ev). pose proof (proj1 Hv eq_refl) as Hrv.
  rewrite (bind_ok_Ok _ _ _ _ _ (read_user_Done _ _ _ _ _ _ _ Hca msg_ptr len (proj1 Hp) (proj1 Hl) Hrv (Hb Hrv))).
  destruct (deliver_spec dest (message_at sp (ms_mem (k_mem k)) c msg_ptr len) k a (ca_ok _ _ _ _ _ _ _ Hca) Hmb)
    as (r & k' & Ed & Hd).
  exists r, k'. split; [exact Ed|]. destruct r as [u|e]; [done|].
  destruct Hd as (-> & [[-> ?]|[-> ?]]); done.
Qed.

(** ** Receiving *)

(** Writable user bytes among [P] are backed by allocated frames that hold no table, one per page. *)
Definition user_frames (sp : AddressSpace) (s : MState) (l : list FrameState) (fr : Z → nat)
    (P : Z → Prop) : Prop :=
  (∀ x, P x → page_valid sp (ms_mem s) true x = true → data_at (root sp) l s x (fr x)) ∧
  (∀ x y, P x → P y → page_valid sp (ms_mem s) true x = true → page_valid sp (ms_mem s) true y = true →
     x / PAGE_SIZE ≠ y / PAGE_SIZE → fr x ≠ fr y).

Section writes.
Context (sp : AddressSpace) (l : list FrameState) (fr : Z → nat) (P : Z → Prop).

Lemma page_valid_same s s' need x :
  (∀ x, same_page (root sp) (ms_mem s) (ms_mem s') x) →
  page_valid sp (ms_mem s') need x = page_valid sp (ms_mem s) need x.
Proof. intros H. unfold page_valid, AddressSpace_mapping. destruct (H x) as [[_ ->] _]. done. Qed.

Lemma user_frames_stored b va s s' :
  user_frames sp s l fr P → vstored (root sp) l fr b va s s' → user_frames sp s' l fr P.
Proof.
  intros [H1 H2] V. destruct V as [V1 V2 V3 V4 V5 V6]. split.
  - intros x Hx Hv. rewrite (page_valid_same s) in Hv by done. eapply data_at_same; [apply V2|exact V3|exact V4|by apply H1].
  - intros x y Hx Hy Hvx Hvy. rewrite (page_valid_same s) in Hvx, Hvy by done. by apply H2.
Qed.

Lemma range_valid_stored b va s s' start len need :
  vstored (root sp) l fr b va s s' → range_valid sp (ms_mem s) start len need →
  range_valid sp (ms_mem s') start len need.
Proof.
  intros [_ _ V3 _ _ _] (H1 & H2 & H3). split_and!; [done|done|]. intros x Hx.
  rewrite (page_valid_same s) by done. by apply H3.
Qed.

Lemma vbyte_data s x : pt_inv (root sp) s l → data_at (root sp) l s x (fr x) →
  vbyte (root sp) (ms_mem s) x = load8 (ms_mem s) (data_cell (root sp) x (fr x)).
Proof. intros Hi Hd. unfold vbyte. by rewrite (data_vcell _ _ _ _ _ Hi Hd). Qed.

(** What was stored is read back. *)
Lemma vbytes_stored b va s s' :
  is_bytes b → user_frames sp s l fr P → (∀ x, va ≤ x < va + slice_len b → P x) →
  range_valid sp (ms_mem s) va (slice_len b) true → vstored (root sp) l fr b va s s' →
  vbytes (root sp) (ms_mem s') va (slice_len b) = b.
Proof.
  intros Hb Hf HP Hv V. pose proof (user_frames_stored _ _ _ _ Hf V) as [Hd' _].
  pose proof (range_valid_stored _ _ _ _ va (slice_len b) true V Hv) as (_ & _ & Hv').
  destruct Hf as [Hd Hinj]. destruct Hv as (_ & _ & Hv). destruct V as [V1 V2 V3 V4 V5 V6].
  unfold vbytes, slice_len in *. apply list_eq. intros i. rewrite list_lookup_fmap.
  destruct (decide (i < length b)%nat) as [Hi|Hi].
  - unfold range. rewrite lookup_seqZ_lt by lia. simpl. rewrite Z.add_0_l.
    destruct (lookup_lt_is_Some_2 b i Hi) as [x Hx]. rewrite Hx. f_equal.
    rewrite (vbyte_data s') by (done || (apply Hd'; [apply HP|apply Hv']; lia)).
    rewrite (V6 ltac:(intros i1 i2 H1 H2 Hc; apply data_cell_inj in Hc; [lia|];
      apply Hinj; (apply HP || apply Hv); lia) (Z.of_nat i) x).
    + apply Z.mod_small. by apply (Forall_lookup_1 _ _ _ _ Hb Hx).
    + rewrite zget_lookup, Nat2Z.id by lia. done.
  - unfold range. rewrite lookup_seqZ_ge by lia. simpl. symmetry. apply lookup_ge_None. lia.
Qed.

(** What was not written stays. *)
Lemma vbytes_kept b va s s' start len :
  0 ≤ len → user_frames sp s l fr P → (∀ x, va ≤ x < va + slice_len b → P x) →
  (∀ x, start ≤ x < start + len → P x) →
  range_valid sp (ms_mem s) va (slice_len b) true → range_valid sp (ms_mem s) start len true →
  start + len ≤ va ∨ va + slice_len b ≤ start → pt_inv (root sp) s l →
  vstored (root sp) l fr b va s s' →
  vbytes (root sp) (ms_mem s') start len = vbytes (root sp) (ms_mem s) start len.
Proof.
  intros Hl0 Hf HP HP2 (_ & _ & Hv) (_ & _ & Hv2) Hdis Hinv V.
  pose proof (user_frames_stored _ _ _ _ Hf V) as [Hd' _]. destruct Hf as [Hd Hinj].
  pose proof V as [V1 V2 V3 V4 V5 V6]. unfold vbytes. apply list_fmap_ext. intros i x Hx.
  unfold range in Hx. apply lookup_seqZ in Hx as [-> Hx]. rewrite Z.add_0_l.
  assert (Hpv : page_valid sp (ms_mem s) true (start + Z.of_nat i) = true) by (apply Hv2; lia).
  rewrite (vbyte_data s'), (vbyte_data s).
  - apply V5. intros j Hj Hc. apply data_cell_inj in Hc; [unfold slice_len in *; lia|].
    apply Hinj; [apply HP2|apply HP|done|apply Hv]; unfold slice_len in *; lia.
  - done.
  - apply Hd; [apply HP2; lia|done].
  - done.
  - apply Hd'; [apply HP2; lia|]. by rewrite (page_valid_same s).
Qed.
End writes.

Record message_ok (m : Message) : Prop := {
  mo_len : 0 ≤ msg_length m ≤ MAX_MSG_SIZE;
  mo_size : slice_len (msg_data m) = MAX_MSG_SIZE;
  mo_bytes : is_bytes (msg_data m);
  mo_sender : is_u64 (sender m);
}.

(** An out pointer that is null or may be written through. *)
Definition out_ok (sp : AddressSpace) (m : memory) (ptr : usize) : Prop :=
  ptr = 0 ∨ (ptr mod USIZE = 0 ∧ range_valid sp m ptr USIZE true).

(** How many bytes are written through it. *)
Definition out_size (ptr : usize) : Z := if ptr =? 0 then 0 else USIZE.

Section recv.
Context (paging : PagingConfig) (sp : AddressSpace) (l : list FrameState) (fr : Z → nat) (P : Z → Prop).

Lemma write_user_data k dst b :
  active_table paging k = root sp → pt_inv (root sp) (k_mem k) l →
  0 ≤ dst → range_valid sp (ms_mem (k_mem k)) dst (slice_len b) true →
  (∀ x, dst ≤ x < dst + slice_len b → data_at (root sp) l (k_mem k) x (fr x)) →
  ∃ s', write_user paging dst b k = Done (Ok tt, set_k_mem s' k) ∧ vstored (root sp) l fr b dst (k_mem k) s'.
Proof.
  intros Ha Hinv H0 (H1 & H2 & Hv) Hd. unfold slice_len in *.
  destruct (vstore_bytes_spec (root sp) l fr b dst (k_mem k) Hinv) as (s' & E & V).
  { intros i Hi. split; [apply Hd; lia|]. apply page_valid_writable, Hv. lia. }
  exists s'. split; [|done]. unfold write_user. mred. rewrite Ha. unfold on_memory.
  apply on_part_Done. unfold copy_to_user. rewrite checked_add_lt by (unfold USER_SPACE_END, W64 in *; lia).
  cbn [ok_or]. mred. rewrite (proj2 (Z.ltb_ge _ _)) by lia. by rewrite (bind_Done _ _ _ _ _ E).
Qed.

Lemma write_user_Done k dst b :
  active_table paging k = root sp → pt_inv (root sp) (k_mem k) l → user_frames sp (k_mem k) l fr P →
  0 ≤ dst → range_valid sp (ms_mem (k_mem k)) dst (slice_len b) true →
  (∀ x, dst ≤ x < dst + slice_len b → P x) →
  ∃ s', write_user paging dst b k = Done (Ok tt, set_k_mem s' k) ∧ vstored (root sp) l fr b dst (k_mem k) s'.
Proof.
  intros Ha Hinv [Hd _] H0 Hv HP. apply write_user_data; try done. intros x Hx. apply Hd; [by apply HP|]. by apply Hv.
Qed.

Lemma write_user_usize_Done k dst v :
  active_table paging k = root sp → pt_inv (root sp) (k_mem k) l → user_frames sp (k_mem k) l fr P →
  0 ≤ dst → dst mod USIZE = 0 → range_valid sp (ms_mem (k_mem k)) dst USIZE true →
  (∀ x, dst ≤ x < dst + USIZE → P x) →
  ∃ s', write_user_usize paging dst v k = Done (Ok tt, set_k_mem s' k) ∧
    vstored (root sp) l fr (le_bytes 8 v) dst (k_mem k) s'.
Proof.
  intros Ha Hinv [Hd _] H0 Hal (H1 & H2 & Hv) HP. unfold USIZE in *.
  destruct (vstore_bytes_spec (root sp) l fr (le_bytes 8 v) dst (k_mem k) Hinv) as (s' & E & V).
  { rewrite length_le_bytes. intros i Hi. split; [apply Hd; [apply HP|apply Hv]; lia|].
    apply page_valid_writable, Hv. lia. }
  exists s'. split; [|done]. unfold write_user_usize. mred. rewrite Ha. unfold on_memory.
  apply on_part_Done. unfold copy_val_to_user. unfold USIZE. rewrite Hal. cbn [negb Z.eqb].
  rewrite length_le_bytes, checked_add_lt by (unfold USER_SPACE_END, W64 in *; lia).
  cbn [ok_or]. mred. rewrite (proj2 (Z.ltb_ge _ _)) by lia. by rewrite (bind_Done _ _ _ _ _ E).
Qed.

(** The optional results, written only through a pointer that is not null. *)
Lemma write_out_Done k ptr v :
  active_table paging k = root sp → pt_inv (root sp) (k_mem k) l → user_frames sp (k_mem k) l fr P →
  0 ≤ ptr → out_ok sp (ms_mem (k_mem k)) ptr → (∀ x, ptr ≤ x < ptr + out_size ptr → P x) →
  ∃ s', (if negb (ptr =? 0) then write_user_usize paging ptr v else ret (Ok tt)) k = Done (Ok tt, set_k_mem s' k) ∧
    vstored (root sp) l fr (if ptr =? 0 then [] else le_bytes 8 v) ptr (k_mem k) s'.
Proof.
  intros Ha Hinv Hf H0 Hok HP. unfold out_size in HP. destruct (Z.eqb_spec ptr 0) as [E|E]; cbn [negb].
  - exists (k_mem k). split; [by destruct k|]. split; try done. intros _ i b Hb.
    apply zget_Some_lt in Hb. simpl in Hb. lia.
  - destruct Hok as [?|[Hal Hv]]; [done|]. by apply write_user_usize_Done.
Qed.

Lemma active_table_stored k b va s' :
  active_table paging k = root sp → vstored (root sp) l fr b va (k_mem k) s' →
  active_table paging (set_k_mem s' k) = root sp.
Proof. intros Ha [_ (E1 & E2 & _) _ _ _ _]. unfold active_table in *. simpl. by rewrite E1, E2. Qed.

Lemma out_ok_stored b va s s' ptr :
  vstored (root sp) l fr b va s s' → out_ok sp (ms_mem s) ptr → out_ok sp (ms_mem s') ptr.
Proof. intros V [?|[? Hv]]; [by left|]. right. split; [done|]. by eapply range_valid_stored. Qed.

End recv.

(** The checks. *)
Lemma check_out_ptr_spec k id sp l ptr :
  AddressSpaceTable_get (k_spaces k) id = Some sp → pt_inv (root sp) (k_mem k) l → is_u64 ptr →
  ∃ r, check_out_ptr id ptr k = Done (r, k) ∧
    (r = Ok tt ∨ r = Err BadAddress ∨ r = Err InvalidArgument) ∧ (r = Ok tt ↔ out_ok sp (ms_mem (k_mem k)) ptr).
Proof.
  intros Hsp Hinv Hp. unfold check_out_ptr, out_ok. destruct (Z.eqb_spec ptr 0) as [E|E]; cbn [negb].
  { exists (Ok tt). naive_solver. }
  destruct (Z.eqb_spec (ptr mod USIZE) 0) as [Ea|Ea]; cbn [negb].
  2: { exists (Err InvalidArgument). naive_solver. }
  destruct (validate_spec k id sp l ptr USIZE true Hsp Hinv Hp) as (r & Er & Hr & Hv);
    [unfold USIZE, is_u64, W64; lia|]. exists r. naive_solver.
Qed.

Lemma recv_check_spec k t sp l out_ptr max_len out_len out_sender :
  AddressSpaceTable_get (k_spaces k) (as_id t) = Some sp → pt_inv (root sp) (k_mem k) l →
  is_u64 out_ptr → is_u64 max_len → is_u64 out_len → is_u64 out_sender →
  ∃ r, recv_check t out_ptr max_len out_len out_sender k = Done (r, k) ∧
    (r = Ok tt ∨ r = Err BadAddress ∨ r = Err InvalidArgument) ∧
    (r = Ok tt ↔ range_valid sp (ms_mem (k_mem k)) out_ptr max_len true ∧
       out_ok sp (ms_mem (k_mem k)) out_len ∧ out_ok sp (ms_mem (k_mem k)) out_sender).
Proof.
  intros Hsp Hinv H1 H2 H3 H4. unfold recv_check.
  destruct (validate_spec k (as_id t) sp l out_ptr max_len true Hsp Hinv H1 H2) as (r1 & E1 & Hr1 & Hv1).
  destruct Hr1 as [-> | ->]; [rewrite (bind_ok_Ok _ _ _ _ _ E1)|rewrite (bind_ok_Err _ _ _ _ _ E1)].
  2: { exists (Err BadAddress). naive_solver. }
  destruct (check_out_ptr_spec k (as_id t) sp l out_len Hsp Hinv H3) as (r2 & E2 & Hr2 & Hv2).
  destruct r2 as [[]|e]; [rewrite (bind_ok_Ok _ _ _ _ _ E2)|rewrite (bind_ok_Err _ _ _ _ _ E2)].
  2: { exists (Err e). naive_solver. }
  destruct (check_out_ptr_spec k (as_id t) sp l out_sender Hsp Hinv H4) as (r3 & E3 & Hr3 & Hv3).
  exists r3. naive_solver.
Qed.

(** ** The message handed out *)

(** The addresses [sys_recv] may write. *)
Definition recv_addresses (out_ptr max_len out_len out_sender : usize) (x : Z) : Prop :=
  out_ptr ≤ x < out_ptr + max_len ∨ out_len ≤ x < out_len + out_size out_len ∨
  out_sender ≤ x < out_sender + out_size out_sender.

Definition apart (a n b m : Z) : Prop := a + n ≤ b ∨ b + m ≤ a.

(** The three results go to different places. *)
Definition recv_apart (out_ptr n out_len out_sender : usize) : Prop :=
  apart out_ptr n out_len (out_size out_len) ∧ apart out_ptr n out_sender (out_size out_sender) ∧
  apart out_len (out_size out_len) out_sender (out_size out_sender).

(** Task [c] has taken message [m], with [q] left, and its results are in its memory; no byte differs
    but those the message, cut to the buffer, and the two values go to. *)
Record received (sp : AddressSpace) (l : list FrameState) (fr : Z → nat) (c : TaskId) (t : Tcb)
    (m : Message) (q : list Message) (out_ptr max_len out_len out_sender : usize) (k k' : KState) : Prop := {
  rc_task : ∃ mb, mailbox_rep mb q ∧ k_sched k' = upd_task c (Some (set_mailbox mb t)) (k_sched k);
  rc_rest : k' = set_k_mem (k_mem k') (set_k_sched (k_sched k') k);
  rc_inv : pt_inv (root sp) (k_mem k') l;
  rc_same : ∀ x, same_page (root sp) (ms_mem (k_mem k)) (ms_mem (k_mem k')) x;
  rc_kept : ∀ a, (∀ x, recv_addresses out_ptr (Z.min (msg_length m) max_len) out_len out_sender x →
      vcell (root sp) (ms_mem (k_mem k)) x ≠ Some a) →
    load8 (ms_mem (k_mem k')) a = load8 (ms_mem (k_mem k)) a;
  rc_state : ms_fa (k_mem k') = ms_fa (k_mem k) ∧ ms_cr3 (k_mem k') = ms_cr3 (k_mem k) ∧
    ms_flushed (k_mem k') = ms_flushed (k_mem k);
  rc_results :
    let n := Z.min (msg_length m) max_len in
    recv_apart out_ptr n out_len out_sender →
    vbytes (root sp) (ms_mem (k_mem k')) out_ptr n = take (Z.to_nat n) (msg_data m) ∧
    (out_len ≠ 0 → vbytes (root sp) (ms_mem (k_mem k')) out_len 8 = le_bytes 8 (msg_length m)) ∧
    (out_sender ≠ 0 → vbytes (root sp) (ms_mem (k_mem k')) out_sender 8 = le_bytes 8 (sender m));
}.

Definition out_bytes (ptr v : usize) : bytes := if ptr =? 0 then [] else le_bytes 8 v.

Lemma out_bytes_length ptr v : slice_len (out_bytes ptr v) = out_size ptr.
Proof. unfold out_bytes, out_size, slice_len. by destruct (ptr =? 0). Qed.

Lemma out_bytes_range ptr v : is_bytes (out_bytes ptr v).
Proof. unfold out_bytes. destruct (ptr =? 0); [by apply Forall_nil|]. apply le_bytes_range. Qed.

Lemma out_valid sp m ptr : 0 ≤ ptr → out_ok sp m ptr → range_valid sp m ptr (out_size ptr) true.
Proof.
  intros H0 [->|[_ H]]; unfold out_size; [|destruct (Z.eqb_spec ptr 0) as [->|]; [|done]];
    simpl; (split; [done|split; [done|lia]]).
Qed.

Section handed_out.
Context (sp : AddressSpace) (l : list FrameState) (fr : Z → nat) (m : Message).
Context (out_ptr max_len out_len out_sender : usize).
Abbreviation P := (recv_addresses out_ptr max_len out_len out_sender).
Abbreviation n := (Z.min (msg_length m) max_len).
Abbreviation data := (take (Z.to_nat n) (msg_data m)).

(** The three stores, one after the other. *)
Lemma stores_results s0 s1 s2 s3 :
  message_ok m → 0 ≤ out_ptr → 0 ≤ max_len → 0 ≤ out_len → 0 ≤ out_sender →
  pt_inv (root sp) s0 l → user_frames sp s0 l fr P →
  range_valid sp (ms_mem s0) out_ptr max_len true → out_ok sp (ms_mem s0) out_len → out_ok sp (ms_mem s0) out_sender →
  vstored (root sp) l fr data out_ptr s0 s1 → vstored (root sp) l fr (out_bytes out_len (msg_length m)) out_len s1 s2 →
  vstored (root sp) l fr (out_bytes out_sender (sender m)) out_sender s2 s3 →
  recv_apart out_ptr n out_len out_sender →
  vbytes (root sp) (ms_mem s3) out_ptr n = data ∧
  (out_len ≠ 0 → vbytes (root sp) (ms_mem s3) out_len 8 = le_bytes 8 (msg_length m)) ∧
  (out_sender ≠ 0 → vbytes (root sp) (ms_mem s3) out_sender 8 = le_bytes 8 (sender m)).
Proof.
  intros [M1 M2 M3 M4] Hp Hm Hl Hs Hinv Hf Hv Hol Hos V1 V2 V3 (A1 & A2 & A3).
  assert (Hdl : slice_len data = n) by (unfold slice_len in *; rewrite length_take; lia).
  assert (Hdb : is_bytes data) by (by apply Forall_take).
  assert (Hvd : range_valid sp (ms_mem s0) out_ptr n true).
  { destruct Hv as (? & ? & Hv). split_and!; [done|lia|]. intros x Hx. apply Hv. lia. }
  assert (HPd : ∀ x, out_ptr ≤ x < out_ptr + n → P x) by (intros x Hx; left; lia).
  assert (HPl : ∀ x, out_len ≤ x < out_len + out_size out_len → P x) by (intros x Hx; right; left; lia).
  assert (HPs : ∀ x, out_sender ≤ x < out_sender + out_size out_sender → P x) by (intros x Hx; right; right; lia).
  pose proof (user_frames_stored sp l fr P _ _ _ _ Hf V1) as Hf1.
  pose proof (user_frames_stored sp l fr P _ _ _ _ Hf1 V2) as Hf2.
  assert (Hvl1 := out_valid _ _ _ Hl (out_ok_stored sp l fr _ _ _ _ _ V1 Hol)).
  assert (Hvs2 := out_valid _ _ _ Hs (out_ok_stored sp l fr _ _ _ _ _ V2 (out_ok_stored sp l fr _ _ _ _ _ V1 Hos))).
  assert (Hvd1 := range_valid_stored sp l fr _ _ _ _ _ _ _ V1 Hvd).
  assert (Hvd2 := range_valid_stored sp l fr _ _ _ _ _ _ _ V2 Hvd1).
  assert (Hvl2 := range_valid_stored sp l fr _ _ _ _ _ _ _ V2 Hvl1).
  assert (0 ≤ out_size out_len) by (unfold out_size; by destruct (out_len =? 0)).
  assert (E8 : ∀ p, p ≠ 0 → out_size p = 8) by (intros p Hp0; unfold out_size; by rewrite (proj2 (Z.eqb_neq _ _))).
  assert (Eb : ∀ p v, p ≠ 0 → out_bytes p v = le_bytes 8 v)
    by (intros p v Hp0; unfold out_bytes; by rewrite (proj2 (Z.eqb_neq _ _))).
  pose proof (out_bytes_length out_len (msg_length m)) as Ll. pose proof (out_bytes_length out_sender (sender m)) as Ls.
  assert (K3 : ∀ start k, 0 ≤ k → (∀ x, start ≤ x < start + k → P x) → range_valid sp (ms_mem s2) start k true →
    apart start k out_sender (out_size out_sender) →
    vbytes (root sp) (ms_mem s3) start k = vbytes (root sp) (ms_mem s2) start k).
  { intros start k Hk HP Hr Hap. apply (vbytes_kept sp l fr P (out_bytes out_sender (sender m)) out_sender s2);
      rewrite ?Ls; try done. apply V2. }
  split_and!.
  - rewrite K3 by (done || lia).
    rewrite (vbytes_kept sp l fr P (out_bytes out_len (msg_length m)) out_len s1 s2);
      rewrite ?Ll; try done; [|lia|apply V1].
    pose proof (vbytes_stored sp l fr P data out_ptr s0 s1 Hdb Hf) as E. rewrite Hdl in E. by apply E.
  - intros H0. rewrite <- (E8 out_len H0), K3, <- (Eb out_len) by done.
    pose proof (vbytes_stored sp l fr P _ out_len s1 s2 (out_bytes_range out_len (msg_length m)) Hf1) as E.
    rewrite Ll in E. by apply E.
  - intros H0. rewrite <- (E8 out_sender H0), <- (Eb out_sender) by done.
    pose proof (vbytes_stored sp l fr P _ out_sender s2 s3 (out_bytes_range out_sender (sender m)) Hf2) as E.
    rewrite Ls in E. by apply E.
Qed.
End handed_out.

Lemma pop_Done paging k a c t sp l m q :
  caller paging k a c t sp l → mailbox_rep (mailbox t) (m :: q) →
  ∃ mb, mailbox_rep mb q ∧
    self_task_mut c (let! o := on_task c (on_mailbox Mailbox_pop) in ret (ok_or o NoSuchTask)) k =
    Done (Ok m, set_k_sched (upd_task c (Some (set_mailbox mb t)) (k_sched k)) k).
Proof.
  intros Hca Hmb. destruct (mailbox_pop_cons _ _ _ Hmb) as (mb & E & Hq). exists mb. split; [done|].
  pose proof (ca_task _ _ _ _ _ _ _ Hca) as Ht.
  assert (Hb : on_mailbox Mailbox_pop t = Done (Some m, set_mailbox mb t)) by (by apply on_part_Done).
  unfold self_task_mut. erewrite bind_Done.
  2: { eapply with_task_mut_Done; [exact Ht|]. erewrite bind_Done by (eapply on_task_Done; [exact Ht|exact Hb]). done. }
  cbn [expect ok_or]. unfold ret. by destruct k.
Qed.

Section receive.
Context (paging : PagingConfig) (k : KState) (a : AbsSched) (c : TaskId) (t : Tcb).
Context (sp : AddressSpace) (l : list FrameState) (Hca : caller paging k a c t sp l).
Context (fr : Z → nat) (m : Message) (q : list Message) (Hmb : mailbox_rep (mailbox t) (m :: q)).
Context (Hm : message_ok m) (out_ptr max_len out_len out_sender : usize).
Context (Hp : is_u64 out_ptr) (Hml : is_u64 max_len) (Hol : is_u64 out_len) (Hos : is_u64 out_sender).
Context (Hf : user_frames sp (k_mem k) l fr (recv_addresses out_ptr max_len out_len out_sender)).

Lemma recv_message_spec :
  range_valid sp (ms_mem (k_mem k)) out_ptr max_len true →
  out_ok sp (ms_mem (k_mem k)) out_len → out_ok sp (ms_mem (k_mem k)) out_sender →
  ∃ k', recv_message paging out_ptr max_len out_len out_sender k = Done (Ok tt, k') ∧
    received sp l fr c t m q out_ptr max_len out_len out_sender k k'.
Proof.
  intros Hv Hl Hs. set (P := recv_addresses out_ptr max_len out_len out_sender) in *.
  destruct (pop_Done paging k a c t sp l m q Hca Hmb) as (mb & Hq & E1). unfold recv_message.
  rewrite (bind_Done _ _ _ _ _ (current_task_Done _ _ _ _ _ _ _ Hca)), (bind_ok_Ok _ _ _ _ _ E1).
  set (k1 := set_k_sched _ k). set (n := Z.min (msg_length m) max_len).
  pose proof Hm as [M1 M2 M3 M4]. assert (Hn : 0 ≤ n ≤ slice_len (msg_data m)) by (unfold is_u64 in *; lia).
  rewrite (bind_Done _ _ _ _ _ (slice_Done (msg_data m) 0 n k1 ltac:(lia) ltac:(lia))).
  rewrite Z.sub_0_r, drop_0. set (data := take (Z.to_nat n) (msg_data m)).
  assert (Hdl : slice_len data = n) by (unfold data, slice_len in *; rewrite length_take; lia).
  assert (Ha1 : active_table paging k1 = root sp).
  { pose proof (active_table_root _ _ _ _ _ _ _ Hca (k_interrupts k)) as Ha. exact Ha. }
  destruct (write_user_Done paging sp l fr P k1 out_ptr data Ha1 (ca_inv _ _ _ _ _ _ _ Hca) Hf (proj1 Hp))
    as (s1 & W1 & V1).
  { rewrite Hdl. destruct Hv as (? & ? & Hv). split_and!; [done|lia|]. intros x Hx. apply Hv. lia. }
  { rewrite Hdl. intros x Hx. left. lia. }
  rewrite (bind_ok_Ok _ _ _ _ _ W1). change (k_mem k1) with (k_mem k) in *.
  pose proof (active_table_stored paging sp l fr k1 _ _ _ Ha1 V1) as Ha2.
  destruct (write_out_Done paging sp l fr P (set_k_mem s1 k1) out_len (msg_length m) Ha2 (vs_inv _ _ _ _ _ _ _ V1)
    (user_frames_stored sp l fr P _ _ _ _ Hf V1) (proj1 Hol) (out_ok_stored sp l fr _ _ _ _ _ V1 Hl))
    as (s2 & W2 & V2); [intros x Hx; right; left; done|].
  rewrite (bind_ok_Ok _ _ _ _ _ W2). change (k_mem (set_k_mem s1 k1)) with s1 in V2.
  pose proof (active_table_stored paging sp l fr (set_k_mem s1 k1) _ _ _ Ha2 V2) as Ha3.
  destruct (write_out_Done paging sp l fr P (set_k_mem s2 (set_k_mem s1 k1)) out_sender (sender m) Ha3
    (vs_inv _ _ _ _ _ _ _ V2)
    (user_frames_stored sp l fr P _ _ _ _ (user_frames_stored sp l fr P _ _ _ _ Hf V1) V2) (proj1 Hos)
    (out_ok_stored sp l fr _ _ _ _ _ V2 (out_ok_stored sp l fr _ _ _ _ _ V1 Hs)))
    as (s3 & W3 & V3); [intros x Hx; right; right; done|].
  change (k_mem (set_k_mem s2 (set_k_mem s1 k1))) with s2 in V3.
  eexists. split; [exact W3|]. split; cbn [k_mem set_k_mem].
  - by exists mb.
  - done.
  - apply V3.
  - intros x. eapply same_page_trans; [apply V1|]. eapply same_page_trans; [apply V2|apply V3].
  - assert (Sz := out_bytes_length). unfold out_bytes, slice_len in Sz. unfold slice_len in Hdl.
    assert (Hcell : ∀ x, recv_addresses out_ptr n out_len out_sender x →
      vcell (root sp) (ms_mem (k_mem k)) x = Some (data_cell (root sp) x (fr x))).
    { intros x Hx. apply (data_vcell _ l); [apply Hca|]. apply Hf; [destruct Hx as [?|?]; [left; lia|by right]|].
      destruct Hx as [Hx|[Hx|Hx]].
      - apply Hv. lia.
      - apply (out_valid _ _ _ (proj1 Hol) Hl). lia.
      - apply (out_valid _ _ _ (proj1 Hos) Hs). lia. }
    intros b Hb. rewrite (vs_off _ _ _ _ _ _ _ V3), (vs_off _ _ _ _ _ _ _ V2), (vs_off _ _ _ _ _ _ _ V1); [done|..].
    + intros i Hi ->. eapply Hb, Hcell; left; lia.
    + rewrite Sz. intros i Hi ->. eapply Hb, Hcell; right; left; lia.
    + rewrite Sz. intros i Hi ->. eapply Hb, Hcell; right; right; lia.
  - destruct (vs_fa _ _ _ _ _ _ _ V3) as (-> & -> & ->), (vs_fa _ _ _ _ _ _ _ V2) as (-> & -> & ->).
    apply V1.
  - intros Hap. apply (stores_results sp l fr m out_ptr max_len out_len out_sender (k_mem k) s1 s2 s3); try done;
      try (unfold is_u64 in *; lia). apply Hca.
Qed.
End receive.

(** ** The whole of [sys_recv] *)

Lemma kernel_ok_flag k a b : kernel_ok k a → kernel_ok (set_k_interrupts b k) a.
Proof. intros [H1 H2 H3]. by split. Qed.

Lemma caller_flag paging k a c t sp l b :
  caller paging k a c t sp l → caller paging (set_k_interrupts b k) a c t sp l.
Proof. intros [H1 H2 H3 H4 H5 H6]. split; try done. by apply kernel_ok_flag. Qed.

Definition recv_pointers_ok (sp : AddressSpace) (m : memory) (out_ptr max_len out_len out_sender : usize) : Prop :=
  range_valid sp m out_ptr max_len true ∧ out_ok sp m out_len ∧ out_ok sp m out_sender.

(** Either the message is handed out or, when a pointer is bad, it stays in the mailbox. *)
Definition recv_outcome (sp : AddressSpace) (l : list FrameState) (fr : Z → nat) (c : TaskId) (t : Tcb)
    (m : Message) (q : list Message) (out_ptr max_len out_len out_sender : usize) (k : KState)
    (r : result unit Status) (k' : KState) : Prop :=
  match r with
  | Ok _ => recv_pointers_ok sp (ms_mem (k_mem k)) out_ptr max_len out_len out_sender ∧
      received sp l fr c t m q out_ptr max_len out_len out_sender k k'
  | Err e => k' = k ∧ (e = BadAddress ∨ e = InvalidArgument) ∧
      ¬ recv_pointers_ok sp (ms_mem (k_mem k)) out_ptr max_len out_len out_sender
  end.

(** What is left of [sys_recv] when there is a message. *)
Definition recv_rest (paging : PagingConfig) (task : Tcb) (flag : bool)
    (out_ptr max_len out_len out_sender : usize) : M KState (result unit Status) :=
  let! r := recv_check task out_ptr max_len out_len out_sender in
  do! restore_interrupts flag ;;;
  let? _ := ret r in
  recv_message paging out_ptr max_len out_len out_sender.

Lemma recv_rest_spec paging task flag k a c t sp l fr m q out_ptr max_len out_len out_sender :
  caller paging k a c t sp l → as_id task = as_id t → mailbox_rep (mailbox t) (m :: q) → message_ok m →
  is_u64 out_ptr → is_u64 max_len → is_u64 out_len → is_u64 out_sender →
  user_frames sp (k_mem k) l fr (recv_addresses out_ptr max_len out_len out_sender) →
  ∃ r k', recv_rest paging task flag out_ptr max_len out_len out_sender k = Done (r, k') ∧
    recv_outcome sp l fr c t m q out_ptr max_len out_len out_sender (set_k_interrupts flag k) r k'.
Proof.
  intros Hca Has Hmb Hm H1 H2 H3 H4 Hf. unfold recv_rest, recv_outcome, recv_pointers_ok.
  destruct (recv_check_spec k task sp l out_ptr max_len out_len out_sender) as (r & E & Hr & Hv); try done.
  { rewrite Has. apply Hca. }
  { apply Hca. }
  rewrite (bind_Done _ _ _ _ _ E). unfold restore_interrupts. rewrite bind_modify, bind_ok_ret.
  destruct r as [[]|e].
  - destruct (proj1 Hv eq_refl) as (V1 & V2 & V3). pose proof (caller_flag _ _ _ _ _ _ _ flag Hca) as Hca'.
    destruct (recv_message_spec paging (set_k_interrupts flag k) a c t sp l Hca' fr m q Hmb Hm
      out_ptr max_len out_len out_sender H1 H2 H3 H4 Hf V1 V2 V3) as (k' & Ek & Hk').
    by exists (Ok tt), k'.
  - exists (Err e), (set_k_interrupts flag k). split; [done|]. split; [done|]. split; [naive_solver|].
    intros Hc. by apply Hv in Hc.
Qed.

Lemma recv_spec paging k a c t sp l msgs out_ptr max_len out_len out_sender :
  caller paging k a c t sp l → mailbox_rep (mailbox t) msgs → out_ptr ≠ 0 →
  sys_recv paging out_ptr max_len out_len out_sender k =
  match msgs with
  | _ :: _ => returns (recv_rest paging t (k_interrupts k) out_ptr max_len out_len out_sender) (set_k_interrupts false k)
  | [] =>
      (let! saved := block_current BlockRecv in
       ret (Suspended (do! restore_interrupts saved ;;;
         recv_rest paging t (k_interrupts k) out_ptr max_len out_len out_sender))) (set_k_interrupts false k)
  end.
Proof.
  intros Hca Hmb H0. unfold sys_recv. rewrite (proj2 (Z.eqb_neq _ _)) by done.
  rewrite (bind_Done _ _ _ _ _ (current_task_Done _ _ _ _ _ _ _ Hca)).
  unfold disable_interrupts_and_save. rewrite bind_assoc. mred. rewrite bind_assoc. mred.
  change (k_sched (set_k_interrupts false k)) with (k_sched k).
  rewrite (lookup_task_slot _ _ _ (ca_task _ _ _ _ _ _ _ Hca)).
  pose proof (rr_len _ _ _ _ _ Hmb) as Hlen. rewrite length_fmap in Hlen.
  destruct msgs as [|m q]; rewrite Hlen; done.
Qed.

(** ** A message to oneself *)

Lemma vbytes_bytes cpu m va n : is_bytes (vbytes cpu m va n).
Proof.
  unfold vbytes. apply Forall_fmap, Forall_forall. intros i _. simpl. unfold vbyte.
  destruct (vcell cpu m (va + i)); simpl; [apply load8_range|lia].
Qed.

Lemma message_at_ok sp m sender msg_ptr len :
  0 ≤ len ≤ MAX_MSG_SIZE → is_u64 sender → message_ok (message_at sp m sender msg_ptr len).
Proof.
  intros Hl Hs. split; simpl; [done| | |done].
  - unfold slice_len, vbytes, range, MAX_MSG_SIZE in *.
    rewrite length_app, length_fmap, length_seqZ, length_replicate. lia.
  - apply Forall_app. split; [apply vbytes_bytes|]. apply Forall_replicate. lia.
Qed.

Lemma delivered_self paging k a c t sp l msg k' :
  caller paging k a c t sp l → delivered c msg k a k' →
  ∃ t' q, caller paging k' a c t' sp l ∧ mailbox_rep (mailbox t) q ∧ mailbox_rep (mailbox t') (q ++ [msg]) ∧
    k_mem k' = k_mem k.
Proof.
  intros [H1 H2 H3 H4 H5 H6] (t0 & t' & q & Ht & Hq & _ & Hq' & Et & Hl & Ek & Hok).
  rewrite H3 in Ht. injection Ht as <-.
  assert (Hst : state t = Running).
  { pose proof (proj2 (aw_running _ (sr_wf _ _ (ko_sched _ _ H1)) c) H2) as Hr.
    rewrite (sr_states _ _ (ko_sched _ _ H1)), H3 in Hr. by injection Hr. }
  unfold abs_woken in Hok. rewrite Hst in Hok. simpl in Hok.
  assert (Em : k_mem k' = k_mem k) by (by rewrite Ek).
  assert (Es : k_spaces k' = k_spaces k) by (by rewrite Ek).
  exists t', q. split; [|done]. split; [done|done| | | |done].
  - rewrite Hl. by rewrite decide_True.
  - rewrite Es, Et. exact H4.
  - by rewrite Em.
Qed.

(** * Theorems *)

(** C8: Sending never panics.  It succeeds exactly when the message fits, the buffer is readable user
    memory of the sender, the receiver exists and its mailbox has room; then the message in the
    buffer, zero-padded and with the sender's id, is the last of the receiver's mailbox, a receiver
    waiting for a message becomes ready behind all others, and nothing else changes.  Otherwise
    nothing changes at all and the error says which condition failed. *)
Theorem send_correct (paging : PagingConfig) (k : KState) (a : AbsSched) (c : TaskId) (t : Tcb)
    (sp : AddressSpace) (l : list FrameState) (dest msg_ptr len : usize) :
  caller paging k a c t sp l → mailboxes_ok k → is_u64 msg_ptr → is_u64 len →
  user_backed sp (k_mem k) msg_ptr len →
  ∃ r k', sys_send paging dest msg_ptr len k = Done (r, k') ∧
    match r with
    | Ok _ => len ≤ MAX_MSG_SIZE ∧ range_valid sp (ms_mem (k_mem k)) msg_ptr len false ∧
        delivered dest (message_at sp (ms_mem (k_mem k)) c msg_ptr len) k a k'
    | Err e => k' = k ∧ send_error k sp dest msg_ptr len e
    end.
Proof. intros Hca Hm Hp Hl Hb. by apply (send_spec paging k a c t sp l). Qed.


(** ** Concrete runs *)

Lemma kernel_ok_mem k a s : kernel_ok k a → ms_cr3 s = ms_cr3 (k_mem k) → kernel_ok (set_k_mem s k) a.
Proof.
  intros [H1 H2 H3] E. split; [done|done|]. intros id Hid.
  destruct (H3 id Hid) as (t & sp & R1 & R2 & R3 & R4). exists t, sp. simpl. by rewrite E.
Qed.

Lemma k_sched_set_mem s k : k_sched (set_k_mem s k) = k_sched k.
Proof. done. Qed.

Lemma pt_inv_cr3 rt s l cr3 :
  pt_inv rt s l → pt_inv rt (mkMState (ms_mem s) (ms_fa s) cr3 (ms_flushed s)) l.
Proof. intros [H1 [] H3 H4]. by split. Qed.

Definition demo_t (id : TaskId) : Tcb := default (demo_task 0) (lookup_task (k_sched demo_running) id).

Lemma demo_mailboxes id t : lookup_task (k_sched demo_running) id = Some t → mailbox t = Mailbox_new.
Proof.
  intros H%lookup_task_slot. pose proof (zget_Some_lt _ _ _ H) as Hr. rewrite zget_lookup in H by lia.
  assert (Hall : Forall (from_option (λ t, mailbox t = Mailbox_new) True) (tasks (k_sched demo_running)))
    by (vm_compute; repeat (apply Forall_cons; split; [first [exact I | reflexivity]|]); apply Forall_nil; exact I).
  exact (Forall_lookup_1 _ _ _ _ Hall H).
Qed.

(** Task 0 of two runs, with a user page at 0x3F000. *)
Lemma demo_caller :
  ∃ k l j, caller demo_config k demo_abs_running 0 (demo_t 0) (demo_space User) l ∧
    k_sched k = k_sched demo_running ∧
    maps_page demo_pt (ms_mem (k_mem k)) 0x3F000 (frame_at j) (mkPagePermissions true false true) ∧
    l !! j = Some Allocated ∧ ¬ own_table demo_pt (ms_mem (k_mem k)) (frame_at j).
Proof.
  destruct demo_user_page as (s1 & l1 & j & _ & Hinv & Hm & Ha & Hn).
  set (s2 := mkMState (ms_mem s1) (ms_fa s1) 8192 (ms_flushed s1)).
  exists (set_k_mem s2 demo_running), l1, j. split; [split|].
  - apply kernel_ok_mem; [exact demo_running_ok|]. vm_compute. reflexivity.
  - reflexivity.
  - vm_compute. reflexivity.
  - vm_compute. reflexivity.
  - apply pt_inv_cr3. exact Hinv.
  - reflexivity.
  - split; [exact (k_sched_set_mem s2 demo_running)|]. split; [exact Hm|]. split; [exact Ha|exact Hn].
Qed.

Lemma demo_page_data k l j x :
  maps_page demo_pt (ms_mem (k_mem k)) 0x3F000 (frame_at j) (mkPagePermissions true false true) →
  l !! j = Some Allocated → ¬ own_table demo_pt (ms_mem (k_mem k)) (frame_at j) → 0x3F000 ≤ x < 0x40000 →
  page_valid (demo_space User) (ms_mem (k_mem k)) true x = true ∧ data_at demo_pt l (k_mem k) x j.
Proof.
  intros Hm Ha Hn Hx. destruct (demo_user_valid (k_mem k) j x Hm Hx) as [H1 H2].
  split; [exact H1|]. split; [exact H2|]. split; [left; exact Ha|exact Hn].
Qed.

Lemma page_valid_read sp m x : page_valid sp m true x = true → page_valid sp m false x = true.
Proof.
  unfold page_valid. destruct (AddressSpace_mapping sp m x); [|done]. by intros [-> _]%andb_true_iff.
Qed.

Lemma demo_mailboxes_ok k : k_sched k = k_sched demo_running → mailboxes_ok k.
Proof.
  intros Hk id t Ht. rewrite Hk in Ht. exists []. rewrite (demo_mailboxes id t Ht). apply mailbox_new_rep.
Qed.

Lemma mailbox_rep_new q : mailbox_rep Mailbox_new q → q = [].
Proof. intros H. apply rr_len in H. rewrite length_fmap in H. destruct q; [done|simpl in H; lia]. Qed.

(** Sending the first four bytes of the page to task [dest] works. *)
Lemma demo_send k l j dest :
  caller demo_config k demo_abs_running 0 (demo_t 0) (demo_space User) l →
  k_sched k = k_sched demo_running →
  maps_page demo_pt (ms_mem (k_mem k)) 0x3F000 (frame_at j) (mkPagePermissions true false true) →
  l !! j = Some Allocated → ¬ own_table demo_pt (ms_mem (k_mem k)) (frame_at j) →
  user_backed (demo_space User) (k_mem k) 0x3F000 4 ∧
  (is_Some (lookup_task (k_sched demo_running) dest) →
   ∀ e, ¬ send_error k (demo_space User) dest 0x3F000 4 e).
Proof.
  intros Hca Hk Hm Ha Hn. split.
  - intros x Hx _. eapply (data_vcell_Some _ _ _ _ _ _ _ Hca). apply (demo_page_data k l j x Hm Ha Hn). lia.
  - intros [td Hd] e. destruct e; simpl; try tauto.
    + unfold MAX_MSG_SIZE. lia.
    + intros [_ Hv]. apply Hv. split; [unfold USER_SPACE_END; lia|]. split; [unfold USER_SPACE_END; lia|].
      intros x Hx. apply page_valid_read. apply (demo_page_data k l j x Hm Ha Hn). lia.
    + rewrite Hk. intros Hc. rewrite Hd in Hc. discriminate Hc.
    + rewrite Hk. intros (t & q & Ht & Hq & Hlen). pose proof (demo_mailboxes dest t Ht) as E.
      rewrite E in Hq. apply mailbox_rep_new in Hq. rewrite Hq in Hlen. discriminate Hlen.
Qed.

Lemma send_correct_witness :
  ∃ k k', sys_send demo_config 1 0x3F000 4 k = Done (Ok tt, k') ∧
    delivered 1 (message_at (demo_space User) (ms_mem (k_mem k)) 0 0x3F000 4) k demo_abs_running k'.
Proof.
  destruct demo_caller as (k & l & j & Hca & Hk & Hm & Ha & Hn). exists k.
  destruct (demo_send k l j 1 Hca Hk Hm Ha Hn) as [Hb He].
  destruct (send_correct demo_config k demo_abs_running 0 (demo_t 0) (demo_space User) l 1 0x3F000 4 Hca
    (demo_mailboxes_ok k Hk)) as (r & k' & E & Hr); [unfold is_u64, W64; lia|unfold is_u64, W64; lia|exact Hb|].
  exists k'. destruct r as [[]|e].
  - split; [exact E|]. apply Hr.
  - exfalso. refine (He _ e _); [vm_compute; eexists; reflexivity|]. apply Hr.
Defined.

Lemma take_message sp m sender msg_ptr len :
  0 ≤ len → take (Z.to_nat len) (msg_data (message_at sp m sender msg_ptr len)) = vbytes (root sp) m msg_ptr len.
Proof.
  intros Hl. simpl. apply take_app_length'. unfold vbytes, range. rewrite length_fmap, length_seqZ. lia.
Qed.

