(* ===== verification/Caps.v ===== *)
(** * Handles to frames

    A task holds frames through the handles of its table ([src/task/tcb.rs]); the handlers of
    [src/syscall/table.rs] allocate, map, unmap and free frames through them.  This file states
    what the handles of all tasks and the page tables of all address spaces have to do with each
    other, and shows that the handlers keep it so: a page never maps a frame that was freed, that
    another handle names, or that holds a page table. *)

From S2P Require Import Prelude Memory Bytes Frame Paging PageTree PageMap PageUnmap AddressSpace VirtMem Stack Spaces.
From S2P Require Import Ring Tcb Kernel Scheduler Registers Tasks User Syscall Ipc.

(** ** The invariant *)

Definition handle_at (sch : Scheduler) (id : TaskId) (h : usize) : option Handle :=
  t ← lookup_task sch id; HandleTable_get (tcb_handles t) h.

(** The frame a handle stands for. *)
Definition held (o : KernelObject) : option FrameAddr :=
  match o with
  | ObjFrame f | ObjMapping f _ _ => Some f
  | ObjAddressSpace _ | ObjThread _ => None
  end.

(** The address space a handle needs. *)
Definition space_of (o : KernelObject) : option AddressSpaceId :=
  match o with
  | ObjAddressSpace a | ObjMapping _ a _ => Some a
  | ObjFrame _ | ObjThread _ => None
  end.

(** The user address [x] translates to [pa]. *)
Definition user_page (sp : AddressSpace) (m : memory) (x : VirtualAddr) (pa : PhysicalAddr) : Prop :=
  is_u64 x ∧ x < USER_SPACE_END ∧ PageTable_to_physical (root sp) m x = Some pa.

(** A user page lies in a frame that the direct map reaches, that is in use and holds no table;
    one that can be written is allocated, or lies away from the allocator's bitmap. *)
Definition backed (sps : AddressSpaceTable) (s : MState) (l : list FrameState) (sp : AddressSpace)
    (x : VirtualAddr) (pa : PhysicalAddr) : Prop :=
  is_Some (DirectMap_translate (pt_direct_map (root sp)) pa) ∧
  ∃ j, pa = frame_at j + x mod PAGE_SIZE ∧ l !! j ≠ Some Free ∧ ¬ some_table sps (ms_mem s) (frame_at j) ∧
    (page_valid sp (ms_mem s) true x = true → data_frame l s j).

Record caps_inv (H : TaskId → usize → option Handle) (sps : AddressSpaceTable) (s : MState)
    (l : list FrameState) : Prop := {
  cp_plain : ∀ id sp x, AddressSpaceTable_get sps id = Some sp → is_u64 x → x < USER_SPACE_END →
    walk (root sp) (ms_mem s) x = None ∨ walks_to_leaf (root sp) (ms_mem s) x;
  cp_backed : ∀ id sp x pa, AddressSpaceTable_get sps id = Some sp → user_page sp (ms_mem s) x pa → backed sps s l sp x pa;
  cp_held : ∀ id h hd f, H id h = Some hd → held (object hd) = Some f →
    ∃ j, f = frame_at j ∧ l !! j = Some Allocated ∧ ¬ some_table sps (ms_mem s) (frame_at j);
  cp_inj : ∀ id h hd id' h' hd' f, H id h = Some hd → held (object hd) = Some f →
    H id' h' = Some hd' → held (object hd') = Some f → id = id' ∧ h = h';
  cp_excl : ∀ id h hd f a sp x pa, H id h = Some hd → held (object hd) = Some f →
    AddressSpaceTable_get sps a = Some sp → user_page sp (ms_mem s) x pa → pa / FRAME_SIZE = f / FRAME_SIZE →
    ∃ va, object hd = ObjMapping f a va ∧ x / PAGE_SIZE = va / PAGE_SIZE;
  cp_mapping : ∀ id h hd f a va, H id h = Some hd → object hd = ObjMapping f a va →
    0 ≤ va ∧ va mod PAGE_SIZE = 0 ∧ va + FRAME_SIZE ≤ USER_SPACE_END ∧
    ∀ sp, AddressSpaceTable_get sps a = Some sp →
      PageTable_to_physical (root sp) (ms_mem s) va = Some f ∧ walks_to_leaf (root sp) (ms_mem s) va;
  cp_space : ∀ id h hd a, H id h = Some hd → space_of (object hd) = Some a → is_Some (AddressSpaceTable_get sps a);
}.

Lemma user_canonical self x : is_u64 x → x < USER_SPACE_END → is_canonical self x = true.
Proof.
  intros Hx Hlo. apply is_canonical_spec; [done|]. unfold is_u64, W64, USER_SPACE_END in *.
  destruct (mode _); simpl; lia.
Qed.

Lemma frame_page j x : (frame_at j + x mod PAGE_SIZE) / FRAME_SIZE = Z.of_nat j.
Proof. unfold frame_at, FRAME_SIZE, PAGE_SIZE. dmlia. Qed.

Lemma frame_at_div j : frame_at j / FRAME_SIZE = Z.of_nat j.
Proof. unfold frame_at, FRAME_SIZE. dmlia. Qed.

(** ** Changes of memory *)

Lemma user_page_same sp m m' x pa :
  same_page (root sp) m m' x → user_page sp m' x pa ↔ user_page sp m x pa.
Proof. intros [[E _] _]. unfold user_page. by rewrite E. Qed.

Lemma page_valid_page_same sp m m' need x :
  same_page (root sp) m m' x → page_valid sp m' need x = page_valid sp m need x.
Proof. intros [[_ E] _]. unfold page_valid, AddressSpace_mapping. by rewrite E. Qed.

Lemma plain_same sp m m' x :
  is_u64 x → x < USER_SPACE_END → same_page (root sp) m m' x →
  walk (root sp) m x = None ∨ walks_to_leaf (root sp) m x →
  walk (root sp) m' x = None ∨ walks_to_leaf (root sp) m' x.
Proof.
  intros Hx Hlo Hs. pose proof (user_canonical (root sp) x Hx Hlo) as Hc. intros [E|Hl].
  - left. destruct Hs as [_ Hs]. specialize (Hs Hc). rewrite E in Hs. by destruct (walk (root sp) m' x).
  - right. by eapply same_page_leaf.
Qed.

(** Translations stay, and frames in use stay in use. *)
Lemma caps_mono H sps s s' l l' :
  caps_inv H sps s l → spaces_same sps (ms_mem s) (ms_mem s') → same_area s s' →
  (∀ j, l !! j = Some Allocated → l' !! j = Some Allocated) → (∀ j, l' !! j = Some Free → l !! j = Some Free) →
  caps_inv H sps s' l'.
Proof.
  intros [C1 C2 C3 C4 C5 C6 C7] Hs Har Ha Hf. set (m := ms_mem s) in *. set (m' := ms_mem s') in *.
  assert (Hp : ∀ id sp x, AddressSpaceTable_get sps id = Some sp → same_page (root sp) m m' x)
    by (intros id sp x Hi; by apply (Hs id sp Hi)).
  split; try done.
  - intros id sp x Hi Hx Hlo. eapply plain_same; [done|done|by eapply Hp|by eapply C1].
  - intros id sp x pa Hi Hu. rewrite (user_page_same _ m) in Hu by by eapply Hp.
    destruct (C2 _ _ _ _ Hi Hu) as (Hd & j & -> & Hj & Ht & Hw). split; [done|]. exists j. split_and!; [done|auto| |].
    + by rewrite (some_table_same _ m).
    + rewrite (page_valid_page_same _ m) by by eapply Hp. intros Hv. eapply data_frame_mono; [exact Har|apply Ha|apply Hf|by apply Hw].
  - intros id h hd f Hh Hf'. destruct (C3 _ _ _ _ Hh Hf') as (j & -> & Hj & Ht). exists j.
    split_and!; [done|auto|]. by rewrite (some_table_same _ m).
  - intros id h hd f a sp x pa Hh Hf' Hi Hu. rewrite (user_page_same _ m) in Hu by by eapply Hp. by eapply C5.
  - intros id h hd f a va Hh Ho. destruct (C6 _ _ _ _ _ _ Hh Ho) as (H1 & H2 & H3 & H4). split_and!; [done..|].
    intros sp Hi. destruct (H4 sp Hi) as [H5 H6]. pose proof (Hp a sp va Hi) as Hva.
    unfold USER_SPACE_END, FRAME_SIZE in H3. split; [fold m'; by destruct Hva as [[-> _] _]|].
    eapply same_page_leaf; [exact Hva| |done]. apply user_canonical; unfold is_u64, W64, USER_SPACE_END; lia.
Qed.

Lemma caps_ext H sps s s' l : ms_mem s' = ms_mem s → ms_fa s' = ms_fa s → caps_inv H sps s l → caps_inv H sps s' l.
Proof.
  intros Em Ef HC. eapply caps_mono; [exact HC| |by apply same_area_fa|done|done]. by rewrite Em.
Qed.

(** Fewer handles. *)
Lemma caps_drop H H' sps s l :
  caps_inv H sps s l → (∀ id h hd, H' id h = Some hd → H id h = Some hd) → caps_inv H' sps s l.
Proof. intros [C1 C2 C3 C4 C5 C6 C7] Hs. split; eauto. Qed.

(** A frame nobody holds and no page maps is freed. *)
Lemma caps_free H sps s l j :
  caps_inv H sps s l → (∀ id h hd, H id h = Some hd → held (object hd) ≠ Some (frame_at j)) →
  (∀ id sp x pa, AddressSpaceTable_get sps id = Some sp → user_page sp (ms_mem s) x pa →
     pa / FRAME_SIZE ≠ Z.of_nat j) →
  caps_inv H sps s (<[j := Free]> l).
Proof.
  intros [C1 C2 C3 C4 C5 C6 C7] Hno Hun. split; try done.
  - intros id sp x pa Hi Hu. destruct (C2 _ _ _ _ Hi Hu) as (Hd & i & -> & Hj & Ht & Hw). split; [done|]. exists i.
    specialize (Hun _ _ _ _ Hi Hu). rewrite frame_page in Hun. assert (i ≠ j) by congruence.
    unfold data_frame. rewrite list_lookup_insert_ne by done. done.
  - intros id h hd f Hh Hf. destruct (C3 _ _ _ _ Hh Hf) as (i & -> & Hj & Ht). exists i.
    specialize (Hno _ _ _ Hh). assert (i ≠ j) by congruence. by rewrite list_lookup_insert_ne.
Qed.

(** One more handle, which holds a frame that nobody held. *)
Lemma caps_give H H' sps s l c n hd :
  caps_inv H sps s l → (∀ id h hd', H' id h = Some hd' → H id h = Some hd' ∨ (id = c ∧ h = n ∧ hd' = hd)) →
  (∀ f, held (object hd) = Some f →
     (∃ j, f = frame_at j ∧ l !! j = Some Allocated ∧ ¬ some_table sps (ms_mem s) (frame_at j)) ∧
     (∀ id h hd', H id h = Some hd' → held (object hd') ≠ Some f) ∧
     (∀ a sp x pa, AddressSpaceTable_get sps a = Some sp → user_page sp (ms_mem s) x pa → pa / FRAME_SIZE = f / FRAME_SIZE →
        ∃ va, object hd = ObjMapping f a va ∧ x / PAGE_SIZE = va / PAGE_SIZE)) →
  (∀ f a va, object hd = ObjMapping f a va →
    0 ≤ va ∧ va mod PAGE_SIZE = 0 ∧ va + FRAME_SIZE ≤ USER_SPACE_END ∧
    ∀ sp, AddressSpaceTable_get sps a = Some sp →
      PageTable_to_physical (root sp) (ms_mem s) va = Some f ∧ walks_to_leaf (root sp) (ms_mem s) va) →
  (∀ a, space_of (object hd) = Some a → is_Some (AddressSpaceTable_get sps a)) →
  caps_inv H' sps s l.
Proof.
  intros [C1 C2 C3 C4 C5 C6 C7] Hs Hnew Hmap Hsp. split; try done.
  - intros id h hd' f [Hh|(-> & -> & ->)]%Hs Hf; [by eapply C3|by apply Hnew].
  - intros id h hd1 id' h' hd2 f [Hh|(-> & -> & ->)]%Hs Hf [Hh'|(-> & -> & ->)]%Hs Hf'.
    + by eapply C4.
    + destruct (Hnew f Hf') as (_ & Hno & _). by destruct (Hno _ _ _ Hh).
    + destruct (Hnew f Hf) as (_ & Hno & _). by destruct (Hno _ _ _ Hh').
    + done.
  - intros id h hd' f a sp x pa [Hh|(-> & -> & ->)]%Hs Hf; [by eapply C5|]. by apply Hnew.
  - intros id h hd' f a va [Hh|(-> & -> & ->)]%Hs; [by eapply C6|apply Hmap].
  - intros id h hd' a [Hh|(-> & -> & ->)]%Hs; [by eapply C7|apply Hsp].
Qed.

(** ** Mapping and unmapping *)

Section one_space.
Context (H : TaskId → usize → option Handle) (sps : AddressSpaceTable) (s s' : MState) (l l' : list FrameState).
Context (id : AddressSpaceId) (sp : AddressSpace) (va : VirtualAddr).
Abbreviation m := (ms_mem s).
Abbreviation m' := (ms_mem s').
Context (HC : caps_inv H sps s l) (Har : same_area s s') (Hsp : AddressSpaceTable_get sps id = Some sp).
Context (Hoth : others_kept sps id m m') (Hsame : others_same (root sp) m m' va).
Context (Hnew : ∀ f, own_table (root sp) m' f → own_table (root sp) m f ∨ ∃ k, f = frame_at k ∧ l !! k = Some Free).
Context (Hst : ∀ k, ¬ some_table sps m (frame_at k) → l !! k ≠ Some Free → l' !! k = l !! k).

(** No other page is concerned. *)
Definition elsewhere (a : AddressSpaceId) (x : VirtualAddr) : Prop := a ≠ id ∨ x / PAGE_SIZE ≠ va / PAGE_SIZE.

Lemma elsewhere_same a sp' x :
  AddressSpaceTable_get sps a = Some sp' → is_u64 x → elsewhere a x → same_page (root sp') m m' x.
Proof.
  intros Ha Hx Hne. destruct (decide (a = id)) as [->|Hn].
  - simplify_eq. apply Hsame; [done|]. by destruct Hne.
  - by apply (Hoth a sp').
Qed.

Lemma no_new_table k : l !! k ≠ Some Free → ¬ some_table sps m (frame_at k) → ¬ some_table sps m' (frame_at k).
Proof.
  intros Hk Hno (a & sp' & Ha & Ho). apply Hno. destruct (decide (a = id)) as [->|Hn].
  - simplify_eq. exists id, sp. split; [done|]. destruct (Hnew _ Ho) as [?|(k' & E & Hf)]; [done|].
    apply frame_at_inj in E as <-. done.
  - exists a, sp'. split; [done|]. by apply (Hoth a sp').
Qed.

Lemma one_plain :
  (∀ x, is_u64 x → x < USER_SPACE_END → x / PAGE_SIZE = va / PAGE_SIZE → walk (root sp) m' x = None ∨ walks_to_leaf (root sp) m' x) →
  ∀ a sp' x, AddressSpaceTable_get sps a = Some sp' → is_u64 x → x < USER_SPACE_END →
    walk (root sp') m' x = None ∨ walks_to_leaf (root sp') m' x.
Proof.
  intros Hva a sp' x Ha Hx Hlo. destruct (decide (a = id ∧ x / PAGE_SIZE = va / PAGE_SIZE)) as [[-> E]|Hne].
  - simplify_eq. by apply Hva.
  - eapply plain_same; [done|done|eapply elsewhere_same; [done|done|]|by eapply (cp_plain _ _ _ _ HC)].
    unfold elsewhere. destruct (decide (a = id)); [right; tauto|by left].
Qed.

Lemma one_backed a sp' x pa :
  AddressSpaceTable_get sps a = Some sp' → elsewhere a x → user_page sp' m' x pa →
  user_page sp' m x pa ∧ backed sps s' l' sp' x pa.
Proof.
  intros Ha Hne Hu. pose proof (elsewhere_same a sp' x Ha (proj1 Hu) Hne) as Hs.
  rewrite (user_page_same _ m) in Hu by done. split; [done|].
  destruct (cp_backed _ _ _ _ HC _ _ _ _ Ha Hu) as (Hd & j & -> & Hj & Ht & Hw). split; [done|]. exists j.
  rewrite Hst by done. split_and!; try done.
  - by apply no_new_table.
  - rewrite (page_valid_page_same _ m) by done. intros Hv.
    eapply (data_frame_mono l); [exact Har|by rewrite Hst..|by apply Hw].
Qed.

Lemma one_held i h hd f :
  H i h = Some hd → held (object hd) = Some f →
  ∃ j, f = frame_at j ∧ l' !! j = Some Allocated ∧ ¬ some_table sps m' (frame_at j).
Proof.
  intros Hh Hf. destruct (cp_held _ _ _ _ HC _ _ _ _ Hh Hf) as (j & -> & Hj & Ht). exists j.
  rewrite Hst by congruence. split_and!; try done. apply no_new_table; congruence.
Qed.

Lemma one_mapping i h hd f a v :
  H i h = Some hd → object hd = ObjMapping f a v → elsewhere a v →
  ∀ sp', AddressSpaceTable_get sps a = Some sp' →
    PageTable_to_physical (root sp') m' v = Some f ∧ walks_to_leaf (root sp') m' v.
Proof.
  intros Hh Ho Hne sp' Ha. destruct (cp_mapping _ _ _ _ HC _ _ _ _ _ _ Hh Ho) as (H1 & H2 & H3 & H4).
  destruct (H4 sp' Ha) as [H5 H6]. unfold FRAME_SIZE, USER_SPACE_END in H3.
  assert (Hu : is_u64 v) by (unfold is_u64, W64; lia).
  pose proof (elsewhere_same a sp' v Ha Hu Hne) as Hs. split; [by destruct Hs as [[-> _] _]|].
  eapply same_page_leaf; [done|apply user_canonical; [done|unfold USER_SPACE_END; lia]|done].
Qed.
End one_space.

(** No handle stands for the frame [j] that a page was mapped to. *)
Lemma caps_mapped_at H sps s s' l l' id sp va j perms :
  caps_inv H sps s l → AddressSpaceTable_get sps id = Some sp → is_u64 va →
  others_kept sps id (ms_mem s) (ms_mem s') → map_ok_post (root sp) va (frame_at j) perms s s' l l' →
  data_frame l' s' j → ¬ some_table sps (ms_mem s') (frame_at j) →
  (∀ i h hd, H i h = Some hd → held (object hd) ≠ Some (frame_at j)) →
  caps_inv H sps s' l' ∧
  ∀ a sp' x pa, AddressSpaceTable_get sps a = Some sp' → user_page sp' (ms_mem s') x pa →
    user_page sp' (ms_mem s) x pa ∨ a = id ∧ x / PAGE_SIZE = va / PAGE_SIZE.
Proof.
  intros HC Hsp Hva Hoth [M1 M2 M3 M4 M5 M6 M7 M8 M9 M10 _ Har] Hj' Ht' Hno.
  assert (Hst : ∀ k, ¬ some_table sps (ms_mem s) (frame_at k) → l !! k ≠ Some Free → l' !! k = l !! k).
  { intros k _ Hk. destruct (M10 k) as [?|[? _]]; done. }
  assert (Hwhere : ∀ a x, elsewhere id va a x ∨ a = id ∧ x / PAGE_SIZE = va / PAGE_SIZE).
  { intros a x. unfold elsewhere. destruct (decide (a = id)); [|by left; left].
    destruct (decide (x / PAGE_SIZE = va / PAGE_SIZE)); [by right|by left; right]. }
  assert (Hpage : ∀ x pa, x / PAGE_SIZE = va / PAGE_SIZE → user_page sp (ms_mem s') x pa → pa = frame_at j + x mod PAGE_SIZE).
  { intros x pa Ex (Hx & _ & Hp). destruct (M2 x Hx Ex) as [E _]. congruence. }
  pose proof (one_backed _ _ s s' l l' id sp va HC Har Hsp Hoth M5 M7 Hst) as Hback.
  split; [split|].
  - eapply one_plain; try done. intros x Hx Hlo Ex. right. destruct M3 as (es & Hes & Hl). exists es.
    by rewrite (walk_page (root sp) _ x va).
  - intros a sp' x pa Ha Hu. destruct (Hwhere a x) as [Hne|[-> Ex]]; [by apply (Hback a)|].
    simplify_eq. pose proof (Hpage x pa Ex Hu) as Epa. rewrite Epa in *.
    split; [|exists j; split_and!; [done|by eapply data_frame_used|done..]].
    assert (Hda : data_at (root sp) l' s' x j).
    { split_and!; [apply Hu|done|]. intros Ho. apply Ht'. by exists id, sp. }
    pose proof (data_vcell _ _ _ _ _ M1 Hda) as Ev. unfold vcell in Ev. rewrite (proj1 Hda) in Ev. by eexists.
  - intros i h hd f. by eapply one_held.
  - apply HC.
  - intros i h hd f a sp' x pa Hh Hf Ha Hu E. destruct (Hwhere a x) as [Hne|[-> Ex]].
    + eapply (cp_excl _ _ _ _ HC); try done. by apply (Hback a).
    + simplify_eq. rewrite (Hpage x pa Ex Hu), frame_page in E.
      destruct (cp_held _ _ _ _ HC _ _ _ _ Hh Hf) as (i' & -> & _). rewrite frame_at_div in E.
      assert (i' = j) as -> by lia. by destruct (Hno _ _ _ Hh).
  - intros i h hd f a v Hh Ho. destruct (cp_mapping _ _ _ _ HC _ _ _ _ _ _ Hh Ho) as (H1 & H2 & H3 & H4).
    split_and!; try done. destruct (Hwhere a v) as [Hne|[-> Ex]]; [by eapply one_mapping|].
    intros sp' Ha. simplify_eq. destruct (H4 sp Hsp) as [H5 H6]. unfold USER_SPACE_END, FRAME_SIZE in H3.
    destruct (M4 v) as [[E _] _]; [unfold is_u64, W64; lia|done|]. congruence.
  - apply HC.
  - intros a sp' x pa Ha Hu. destruct (Hwhere a x) as [Hne|?]; [left|by right]. by apply (Hback a).
Qed.

Lemma caps_mapped H sps s s' l l' id sp va j perms :
  caps_inv H sps s l → AddressSpaceTable_get sps id = Some sp → is_u64 va →
  others_kept sps id (ms_mem s) (ms_mem s') → map_ok_post (root sp) va (frame_at j) perms s s' l l' →
  l !! j = Some Allocated → ¬ some_table sps (ms_mem s) (frame_at j) →
  (∀ i h hd, H i h = Some hd → held (object hd) ≠ Some (frame_at j)) →
  (∀ a sp' x pa, AddressSpaceTable_get sps a = Some sp' → user_page sp' (ms_mem s) x pa → pa / FRAME_SIZE ≠ Z.of_nat j) →
  caps_inv H sps s' l' ∧ ¬ some_table sps (ms_mem s') (frame_at j) ∧ l' !! j = Some Allocated ∧
  ∀ a sp' x pa, AddressSpaceTable_get sps a = Some sp' → user_page sp' (ms_mem s') x pa →
    pa / FRAME_SIZE = Z.of_nat j → a = id ∧ x / PAGE_SIZE = va / PAGE_SIZE.
Proof.
  intros HC Hsp Hva Hoth Hpost Hj Ht Hno Hun.
  assert (Hj' : l' !! j = Some Allocated).
  { destruct (mo_states _ _ _ _ _ _ _ _ Hpost j) as [->|[? _]]; [done|congruence]. }
  assert (Ht' : ¬ some_table sps (ms_mem s') (frame_at j)).
  { apply (no_new_table sps s s' l id sp Hsp Hoth (mo_tables _ _ _ _ _ _ _ _ Hpost)); [congruence|done]. }
  destruct (caps_mapped_at H sps s s' l l' id sp va j perms HC Hsp Hva Hoth Hpost (or_introl Hj') Ht' Hno) as [HC' Hwhere].
  split_and!; try done. intros a sp' x pa Ha Hu E. destruct (Hwhere a sp' x pa Ha Hu) as [Hu0|?]; [|done].
  by destruct (Hun _ _ _ _ Ha Hu0).
Qed.

Lemma caps_unmapped H sps s s' l l' id sp va f :
  caps_inv H sps s l → AddressSpaceTable_get sps id = Some sp →
  others_kept sps id (ms_mem s) (ms_mem s') → unmap_post (root sp) va f s s' l l' →
  (∀ i h hd g v, H i h = Some hd → object hd = ObjMapping g id v → v / PAGE_SIZE ≠ va / PAGE_SIZE) →
  caps_inv H sps s' l' ∧
  (∀ k, l !! k ≠ Some Free → ¬ some_table sps (ms_mem s) (frame_at k) →
     l' !! k = l !! k ∧ ¬ some_table sps (ms_mem s') (frame_at k)) ∧
  (∀ a sp' x pa, AddressSpaceTable_get sps a = Some sp' → user_page sp' (ms_mem s') x pa →
     user_page sp' (ms_mem s) x pa ∧ elsewhere id va a x).
Proof.
  intros HC Hsp Hoth [U1 U2 U3 U4 U5 U6 U7 U8 U9 _ Har] Hno.
  assert (Hnew : ∀ f, own_table (root sp) (ms_mem s') f → own_table (root sp) (ms_mem s) f ∨
    ∃ k, f = frame_at k ∧ l !! k = Some Free) by (intros g Hg; left; by apply U7).
  assert (Hst : ∀ k, ¬ some_table sps (ms_mem s) (frame_at k) → l !! k ≠ Some Free → l' !! k = l !! k).
  { intros k Hk _. destruct (U5 k) as [?|(_ & _ & ? & _)]; [done|]. destruct Hk. by exists id, sp. }
  assert (Hmap : ∀ a sp' x pa, AddressSpaceTable_get sps a = Some sp' → user_page sp' (ms_mem s') x pa → elsewhere id va a x).
  { intros a sp' x pa Ha Hu. unfold elsewhere. destruct (decide (a = id)) as [->|]; [right|by left]. intros E.
    simplify_eq. destruct Hu as (Hx & _ & Hp). destruct (U3 x Hx E) as [[E' _] _]. congruence. }
  pose proof (one_backed _ _ s s' l l' id sp va HC Har Hsp Hoth U4 Hnew Hst) as Hback.
  split_and!.
  - split.
    + eapply one_plain; try done. intros x Hx Hlo Ex. left. apply U3; [done|done|]. by apply user_canonical.
    + intros a sp' x pa Ha Hu. apply (Hback a); [done|by eapply Hmap|done].
    + intros i h hd g. by eapply one_held.
    + apply HC.
    + intros i h hd g a sp' x pa Hh Hf Ha Hu E. eapply (cp_excl _ _ _ _ HC); try done.
      apply (Hback a); [done|by eapply Hmap|done].
    + intros i h hd g a v Hh Ho. destruct (cp_mapping _ _ _ _ HC _ _ _ _ _ _ Hh Ho) as (H1 & H2 & H3 & H4).
      split_and!; try done. eapply one_mapping; try done. unfold elsewhere.
      destruct (decide (a = id)) as [->|]; [right; by eapply Hno|by left].
    + apply HC.
  - intros k Hk Hkt. split; [by apply Hst|]. by eapply no_new_table.
  - intros a sp' x pa Ha Hu. pose proof (Hmap _ _ _ _ Ha Hu) as Hne. split; [|done].
    by apply (Hback a).
Qed.
