(* ===== verification/Calls.v ===== *)
(** * System calls on frames and mappings

    What [sys_frame_alloc], [sys_frame_dealloc], [sys_map] and [sys_unmap] of
    [src/syscall/table.rs] do, for the running task and all the others: the answer, the handle
    tables, the page tables, and that the invariant of handles and pages holds again. *)

From S2P Require Import Prelude Memory Bytes Frame Paging PageTree PageMap PageUnmap AddressSpace VirtMem Stack Spaces.
From S2P Require Import Ring Tcb Kernel Scheduler Registers Tasks User Syscall Ipc Caps.

(** ** The state of the kernel between system calls *)

Record world (paging : PagingConfig) (k : KState) (a : AbsSched) (l : list FrameState) : Prop := {
  w_kernel : kernel_ok k a;
  w_set : k_allocator_set k = true;
  w_spaces : spaces_inv paging (k_spaces k) (k_mem k) l;
  w_caps : caps_inv (handle_at (k_sched k)) (k_spaces k) (k_mem k) l;
  w_limit : ∀ j, is_Some (l !! j) → frame_at j < physical_address_limit paging;
}.

Section world.
Context (paging : PagingConfig) (k : KState) (a : AbsSched) (l : list FrameState).
Context (W : world paging k a l).

Lemma world_flag b : world paging (set_k_interrupts b k) a l.
Proof. destruct W as [W1 W2 W3 W4 W5]. split; try done. by apply kernel_ok_flag. Qed.

Lemma world_caller c :
  ab_current a = Some c → ∃ t sp, caller paging k a c t sp l.
Proof.
  intros Hc. destruct (ko_cpu _ _ (w_kernel _ _ _ _ W) c Hc) as (t & sp & Ht & Hs & _).
  destruct (si_space _ _ _ _ (w_spaces _ _ _ _ W) _ _ Hs) as (Hi & _ & Hp). exists t, sp. split; try done. apply W.
Qed.

(** Another memory, for the same handles. *)
Lemma world_mem s' l' :
  spaces_inv paging (k_spaces k) s' l' →
  ms_cr3 s' = ms_cr3 (k_mem k) → (∀ j, is_Some (l' !! j) → is_Some (l !! j)) →
  caps_inv (handle_at (k_sched k)) (k_spaces k) s' l' → world paging (set_k_mem s' k) a l'.
Proof.
  intros Hs Hcr Hlen HC. destruct W as [W1 W2 W3 W4 W5]. split; try done.
  - by apply kernel_ok_mem.
  - intros j Hj. by apply W5, Hlen.
Qed.

Lemma world_alloc :
  (alloc_frame k = Done (None, k) ∧ Free ∉ l) ∨
  ∃ j s1, alloc_frame k = Done (Some (frame_at j), set_k_mem s1 k) ∧ l !! j = Some Free ∧
    world paging (set_k_mem s1 k) a (<[j := Allocated]> l) ∧
    spaces_same (k_spaces k) (ms_mem (k_mem k)) (ms_mem s1) ∧ same_layout (k_mem k) s1 ∧
    (∀ x, in_frame (direct_map (ms_fa (k_mem k))) (Z.of_nat j) x → load8 (ms_mem s1) x = 0) ∧
    (∀ i st, l !! i = Some st → st ≠ Reserved → i ≠ j → kept_frame (k_mem k) s1 i) ∧
    (∀ i, data_frame l (k_mem k) i → kept_frame (k_mem k) s1 i).
Proof.
  pose proof (si_fa _ _ _ _ (w_spaces _ _ _ _ W)) as Hfa0.
  destruct (alloc_contract (k_mem k) l (si_fa _ _ _ _ (w_spaces _ _ _ _ W)))
    as [[E Hno]|(j & s1 & E & Hj & Hfa & Hl & Hz & Hk)]; [left|right].
  - split; [|done]. unfold alloc_frame. erewrite masked_flag.
    2: { mred. simpl. rewrite (w_set _ _ _ _ W). apply on_part_Done. exact E. }
    by destruct k.
  - destruct (spaces_alloc paging (k_spaces k) (k_mem k) s1 l j (w_spaces _ _ _ _ W) Hj Hfa Hl Hk) as [Hs Hsame].
    exists j, s1. split_and!; try done.
    + unfold alloc_frame. erewrite masked_flag.
      2: { mred. simpl. rewrite (w_set _ _ _ _ W). apply on_part_Done. exact E. }
      by destruct k.
    + apply world_mem; try done; [by destruct Hl as (_ & _ & -> & _)|intros i; by rewrite !lookup_lt_is_Some, length_insert|].
      eapply caps_mono; [apply W|exact Hsame|by apply same_area_layout| |].
      * intros i Hi. by rewrite list_lookup_insert_ne by congruence.
      * intros i. destruct (decide (j = i)) as [->|]; [|by rewrite list_lookup_insert_ne].
        rewrite list_lookup_insert_eq by (by eapply lookup_lt_Some). done.
    + intros i Hi. eapply alloc_off; [exact Hfa0|exact E|by eapply data_off_frame|]. intros ->. by apply data_frame_used in Hi.
Qed.

(** Freeing a frame that is in no handle and no page. *)
Lemma world_dealloc j :
  l !! j = Some Allocated → ¬ some_table (k_spaces k) (ms_mem (k_mem k)) (frame_at j) →
  (∀ id h hd, handle_at (k_sched k) id h = Some hd → held (object hd) ≠ Some (frame_at j)) →
  (∀ id sp x pa, AddressSpaceTable_get (k_spaces k) id = Some sp → user_page sp (ms_mem (k_mem k)) x pa →
     pa / FRAME_SIZE ≠ Z.of_nat j) →
  ∃ s1, dealloc_frame (frame_at j) k = Done (tt, set_k_mem s1 k) ∧
    world paging (set_k_mem s1 k) a (<[j := Free]> l) ∧
    spaces_same (k_spaces k) (ms_mem (k_mem k)) (ms_mem s1) ∧ same_layout (k_mem k) s1 ∧
    (∀ i st, l !! i = Some st → st ≠ Reserved → kept_frame (k_mem k) s1 i) ∧
    (∀ i, data_frame l (k_mem k) i → kept_frame (k_mem k) s1 i).
Proof.
  intros Hj Hno Hh Hu. pose proof (si_fa _ _ _ _ (w_spaces _ _ _ _ W)) as Hfa0.
  destruct (dealloc_contract (k_mem k) l j (si_fa _ _ _ _ (w_spaces _ _ _ _ W)) Hj) as (s1 & E & Hfa & Hl & Hk).
  destruct (spaces_dealloc paging (k_spaces k) (k_mem k) s1 l j (w_spaces _ _ _ _ W) Hno Hfa Hl Hk) as [Hs Hsame].
  exists s1. split_and!; try done.
  - unfold dealloc_frame. erewrite masked_flag.
    2: { mred. simpl. rewrite (w_set _ _ _ _ W). apply on_part_Done. exact E. }
    by destruct k.
  - apply world_mem; try done; [by destruct Hl as (_ & _ & -> & _)|intros i; by rewrite !lookup_lt_is_Some, length_insert|].
    eapply (caps_mono _ _ (k_mem k) _ (<[j := Free]> l)); [|exact Hsame|by apply same_area_layout|done|done].
    apply caps_free; [apply W|done|done].
  - intros i Hi. eapply dealloc_off; [exact Hfa0|exact Hj|exact E|by eapply data_off_frame].
Qed.
End world.

(** The bytes that the variable at [out] of a task in [sp] occupies. *)
Definition out_cell (sp : AddressSpace) (k : KState) (out : usize) (a : Z) : Prop :=
  ∃ x, out ≤ x < out + USIZE ∧ vcell (root sp) (ms_mem (k_mem k)) x = Some a.

(** The bytes of the page tables of [sp]. *)
Definition own_byte (sp : AddressSpace) (k : KState) (a : Z) : Prop :=
  ∃ j, own_table (root sp) (ms_mem (k_mem k)) (frame_at j) ∧ in_frame (direct_map (ms_fa (k_mem k))) (Z.of_nat j) a.

Lemma vcell_in_frame cpu m dm x a j :
  dm = pt_direct_map cpu → vcell cpu m x = Some a → in_frame dm (Z.of_nat j) a →
  ∃ pa, PageTable_to_physical cpu m x = Some pa ∧ pa / FRAME_SIZE = Z.of_nat j.
Proof.
  intros -> Hv Hin. unfold vcell in Hv. destruct (PageTable_to_physical cpu m x) as [pa|]; [|done]. exists pa. split; [done|].
  simpl in Hv. unfold DirectMap_translate, checked_add in Hv. destruct (_ <? _); [|done]. injection Hv as <-.
  unfold in_frame, frame_virt, FRAME_SIZE in *. dmlia.
Qed.

Lemma vcell_same cpu m m' x : same_page cpu m m' x → vcell cpu m' x = vcell cpu m x.
Proof. intros [[E _] _]. unfold vcell. by rewrite E. Qed.

(** ** The handle table of the caller *)

Lemma handle_at_upd sch c t hs id h :
  lookup_task sch c = Some t →
  handle_at (upd_task c (Some (set_handles hs t)) sch) id h =
  if decide (id = c) then HandleTable_get hs h else handle_at sch id h.
Proof.
  intros Ht. unfold handle_at. rewrite lookup_upd_task by (by eapply lookup_task_range).
  case_decide; case_decide; try congruence; done.
Qed.

Lemma self_task_mut_Done {A} c (f : M KState (result A Status)) k t r k' :
  lookup_task (k_sched k) c = Some t → f (set_k_interrupts false k) = Done (r, k') →
  self_task_mut c f k = Done (r, set_k_interrupts (k_interrupts k) k').
Proof.
  intros Ht E. unfold self_task_mut. by rewrite (bind_Done _ _ _ _ _ (with_task_mut_Done _ _ _ _ _ _ Ht E)).
Qed.

(** The kernel with the handles of task [c], whose block is [t], replaced. *)
Definition set_k_handles (c : TaskId) (t : Tcb) (hs : HandleTable) (k : KState) : KState :=
  set_k_sched (upd_task c (Some (set_handles hs t)) (k_sched k)) k.

Lemma on_handles_Done {A} c (op : M HandleTable A) k t r hs :
  lookup_task (k_sched k) c = Some t → op (tcb_handles t) = Done (r, hs) →
  on_task c (on_handles op) k = Done (r, set_k_handles c t hs k).
Proof. intros Ht E. unfold set_k_handles. eapply on_task_Done; [done|]. by apply on_part_Done. Qed.

Lemma world_handles paging k a l c t hs :
  world paging k a l → lookup_task (k_sched k) c = Some t →
  caps_inv (λ id h, if decide (id = c) then HandleTable_get hs h else handle_at (k_sched k) id h)
    (k_spaces k) (k_mem k) l →
  world paging (set_k_handles c t hs k) a l.
Proof.
  intros [W1 W2 W3 W4 W5] Ht HC. split; try done; [by eapply kernel_ok_task|].
  eapply caps_drop; [exact HC|]. intros id h hd. simpl. by rewrite handle_at_upd.
Qed.

(** ** Writing results *)

Section write_out.
Context (paging : PagingConfig) (k : KState) (a : AbsSched) (l : list FrameState).
Context (W : world paging k a l) (c : TaskId) (t : Tcb) (sp : AddressSpace) (Hca : caller paging k a c t sp l).
Abbreviation m := (ms_mem (k_mem k)).

(** A page the task may write lies in a frame of its own. *)
Lemma valid_user_page x :
  is_u64 x → x < USER_SPACE_END → page_valid sp m true x = true →
  ∃ j, PageTable_to_physical (root sp) m x = Some (frame_at j + x mod PAGE_SIZE) ∧
    data_frame l (k_mem k) j ∧ ¬ some_table (k_spaces k) m (frame_at j).
Proof.
  intros Hx Hlo Hv. pose proof (user_canonical (root sp) x Hx Hlo) as Hc.
  assert (Hsome : is_Some (PageTable_to_physical (root sp) m x)).
  { destruct (cp_plain _ _ _ _ (w_caps _ _ _ _ W) _ _ _ (ca_space _ _ _ _ _ _ _ Hca) Hx Hlo) as [Hn|Hl].
    - unfold page_valid, AddressSpace_mapping in Hv.
      rewrite (proj2 (view_walk _ _ _ _ (ca_inv _ _ _ _ _ _ _ Hca) Hc)), Hn in Hv. done.
    - by eapply walk_to_leaf_translates; [apply Hca|..]. }
  destruct Hsome as [pa Hpa].
  destruct (cp_backed _ _ _ _ (w_caps _ _ _ _ W) _ _ _ _ (ca_space _ _ _ _ _ _ _ Hca) (conj Hx (conj Hlo Hpa)))
    as (_ & j & -> & _ & Ht & Hal). exists j. auto.
Qed.

Definition frame_of (x : VirtualAddr) : nat :=
  Z.to_nat (default 0 (PageTable_to_physical (root sp) m x) / FRAME_SIZE).

Lemma valid_data x :
  is_u64 x → x < USER_SPACE_END → page_valid sp m true x = true →
  data_at (root sp) l (k_mem k) x (frame_of x) ∧ ¬ some_table (k_spaces k) m (frame_at (frame_of x)).
Proof.
  intros Hx Hlo Hv. destruct (valid_user_page x Hx Hlo Hv) as (j & Hp & Hj & Ht).
  assert (frame_of x = j) as ->; [|].
  { unfold frame_of. rewrite Hp. simpl. rewrite frame_page. lia. }
  split; [|done]. split_and!; [done|done|]. intros Ho. apply Ht. exists (as_id t), sp. split; [apply Hca|done].
Qed.

Lemma world_write out v :
  is_u64 out → out mod USIZE = 0 → range_valid sp m out USIZE true →
  ∃ s', write_user_usize paging out v k = Done (Ok tt, set_k_mem s' k) ∧
    world paging (set_k_mem s' k) a l ∧ vbytes (root sp) (ms_mem s') out USIZE = le_bytes 8 v ∧
    spaces_same (k_spaces k) m (ms_mem s') ∧
    (∀ b, ¬ out_cell sp k out b → load8 (ms_mem s') b = load8 m b).
Proof.
  intros Ho Hal Hr. pose proof Hr as (R1 & R2 & R3). set (P := λ x, out ≤ x < out + USIZE).
  assert (HP : ∀ x, P x → is_u64 x ∧ x < USER_SPACE_END ∧ page_valid sp m true x = true).
  { intros x Hx. specialize (R3 x Hx). unfold P, is_u64, W64, USER_SPACE_END, USIZE in *. split_and!; [lia..|done]. }
  assert (Hf : user_frames sp (k_mem k) l frame_of P).
  { split; [intros x Hx _; by apply valid_data; apply HP|]. intros x y Hx Hy _ _ []. unfold P, USIZE, PAGE_SIZE in *. dmlia. }
  destruct (write_user_usize_Done paging sp l frame_of P k out v) as (s' & E & V); try done.
  { pose proof (active_table_root _ _ _ _ _ _ _ Hca (k_interrupts k)) as Ea. by rewrite set_k_interrupts_id in Ea. }
  { apply Hca. } { unfold is_u64 in Ho. lia. }
  destruct (spaces_stored paging (k_spaces k) (root sp) frame_of (le_bytes 8 v) out (k_mem k) s' l) as [Hs Hsame];
    [apply W|apply Hca|done| |].
  { rewrite length_le_bytes. intros i Hi. apply valid_data; apply HP; unfold P, USIZE; lia. }
  exists s'. split_and!; try done.
  - apply (world_mem paging k a l W); try done; [apply V|]. eapply caps_mono; [apply W|done|apply same_area_fa, V|done|done].
  - replace USIZE with (slice_len (le_bytes 8 v)) by (unfold slice_len; by rewrite length_le_bytes).
    eapply (vbytes_stored sp l frame_of P (le_bytes 8 v) out (k_mem k) s'); try done.
    apply le_bytes_range.
  - intros b Hb. apply (vs_off _ _ _ _ _ _ _ V). rewrite length_le_bytes. intros i Hi ->. apply Hb.
    exists (out + i). split; [unfold USIZE; lia|]. apply (data_vcell _ l); [apply Hca|].
    apply valid_data; apply HP; unfold P, USIZE; lia.
Qed.
End write_out.

(** ** Allocating a frame *)

Lemma caller_world paging k a c t sp l k' t' l' :
  caller paging k a c t sp l → world paging k' a l' → k_spaces k' = k_spaces k →
  lookup_task (k_sched k') c = Some t' → as_id t' = as_id t → caller paging k' a c t' sp l'.
Proof.
  intros [C1 C2 C3 C4 C5 C6] W Es Ht Ea. split; try done; [apply W|by rewrite Es, Ea|].
  rewrite <- Es in C4. by apply (si_space _ _ _ _ (w_spaces _ _ _ _ W) (as_id t) sp).
Qed.

(** A free frame is in no handle and in no page. *)
Lemma free_unheld paging k a l j :
  world paging k a l → l !! j = Some Free →
  (∀ id h hd, handle_at (k_sched k) id h = Some hd → held (object hd) ≠ Some (frame_at j)) ∧
  (∀ id sp x pa, AddressSpaceTable_get (k_spaces k) id = Some sp → user_page sp (ms_mem (k_mem k)) x pa →
     pa / FRAME_SIZE ≠ Z.of_nat j) ∧ ¬ some_table (k_spaces k) (ms_mem (k_mem k)) (frame_at j).
Proof.
  intros W Hj. split_and!.
  - intros id h hd Hh Hf. destruct (cp_held _ _ _ _ (w_caps _ _ _ _ W) _ _ _ _ Hh Hf) as (i & E & Hi & _).
    apply frame_at_inj in E as <-. congruence.
  - intros id sp x pa Hs Hu E. destruct (cp_backed _ _ _ _ (w_caps _ _ _ _ W) _ _ _ _ Hs Hu) as (_ & i & -> & Hi & _).
    rewrite frame_page in E. assert (i = j) as -> by lia. done.
  - intros Ht%(some_table_allocated _ _ _ _ _ (w_spaces _ _ _ _ W)). congruence.
Qed.

Definition frame_handle (j : nat) : Handle := mkHandle (ObjFrame (frame_at j)) (Rights_bitor RIGHTS_RWX RIGHT_MAP).

Definition put_handle (h : usize) (o : option Handle) (hs : HandleTable) : HandleTable :=
  mkHandleTable (zset (handles hs) h o).

Lemma put_handle_get hs h o h' :
  0 ≤ h < Z.of_nat (length (handles hs)) →
  HandleTable_get (put_handle h o hs) h' = if decide (h' = h) then o else HandleTable_get hs h'.
Proof.
  intros Hh. unfold HandleTable_get, put_handle. simpl. case_decide.
  - subst. by rewrite zget_zset_eq.
  - by rewrite zget_zset_ne.
Qed.

(** A handle to a frame that is not in use by anything else. *)
Lemma caps_give_frame H H' sps s l c n j r :
  caps_inv H sps s l → (∀ id h hd', H' id h = Some hd' → H id h = Some hd' ∨ (id = c ∧ h = n ∧ hd' = mkHandle (ObjFrame (frame_at j)) r)) →
  l !! j = Some Allocated → ¬ some_table sps (ms_mem s) (frame_at j) →
  (∀ id h hd, H id h = Some hd → held (object hd) ≠ Some (frame_at j)) →
  (∀ id sp x pa, AddressSpaceTable_get sps id = Some sp → user_page sp (ms_mem s) x pa → pa / FRAME_SIZE ≠ Z.of_nat j) →
  caps_inv H' sps s l.
Proof.
  intros HC Hs Hj Ht Hh Hu. eapply caps_give; [exact HC|exact Hs| |done|done].
  intros f [= <-]. split_and!; [by exists j|done|]. intros a sp x pa Ha Hp E. rewrite frame_at_div in E.
  by destruct (Hu _ _ _ _ Ha Hp).
Qed.

(** Why a frame is refused. *)
Definition frame_alloc_error (k : KState) (t : Tcb) (sp : AddressSpace) (l : list FrameState) (out : usize)
    (e : Status) : Prop :=
  match e with
  | InvalidArgument => out = 0 ∨ out mod USIZE ≠ 0
  | BadAddress => ¬ range_valid sp (ms_mem (k_mem k)) out USIZE true
  | StatusOutOfMemory => Free ∉ l ∨ position_none (handles (tcb_handles t)) = None
  | _ => False
  end.

(** The caller got frame [j] under handle [h]. *)
Record frame_given (c : TaskId) (t : Tcb) (sp : AddressSpace) (out : usize) (l : list FrameState) (k : KState)
    (h : usize) (j : nat) (k' : KState) : Prop := {
  fg_free : l !! j = Some Free;
  fg_slot : position_none (handles (tcb_handles t)) = Some h;
  fg_state : ∃ s', k' = set_k_handles c t (put_handle h (Some (frame_handle j)) (tcb_handles t)) (set_k_mem s' k);
  fg_out : vbytes (root sp) (ms_mem (k_mem k')) out USIZE = le_bytes 8 h;
  fg_zero : ∀ x, in_frame (direct_map (ms_fa (k_mem k))) (Z.of_nat j) x → load8 (ms_mem (k_mem k')) x = 0;
  fg_same : spaces_same (k_spaces k) (ms_mem (k_mem k)) (ms_mem (k_mem k'));
  fg_kept : data_kept l (out_cell sp k out) (k_mem k) (k_mem k');
}.

Lemma spaces_same_trans sps m1 m2 m3 : spaces_same sps m1 m2 → spaces_same sps m2 m3 → spaces_same sps m1 m3.
Proof.
  intros H1 H2 id sp Hs. destruct (H1 id sp Hs) as [A1 A2], (H2 id sp Hs) as [B1 B2]. split.
  - intros x. by eapply same_page_trans.
  - intros f. by rewrite B2, A2.
Qed.

Lemma range_valid_same sp sps id m m' start len need :
  AddressSpaceTable_get sps id = Some sp → spaces_same sps m m' →
  range_valid sp m start len need → range_valid sp m' start len need.
Proof.
  intros Hs Hsame (H1 & H2 & H3). split_and!; [done|done|]. intros x Hx.
  rewrite (page_valid_page_same _ m) by apply (Hsame id sp Hs). by apply H3.
Qed.

Section frame_alloc.
Context (paging : PagingConfig) (k : KState) (a : AbsSched) (l : list FrameState).
Context (W : world paging k a l) (c : TaskId) (t : Tcb) (sp : AddressSpace) (Hca : caller paging k a c t sp l).
Context (out : usize) (Hout : is_u64 out) (Hal : out mod USIZE = 0).
Context (Hv : range_valid sp (ms_mem (k_mem k)) out USIZE true).
Context (j : nat) (s1 : MState) (Hj : l !! j = Some Free).
Abbreviation k1 := (set_k_mem s1 k).
Abbreviation l1 := (<[j := Allocated]> l).
Context (W1 : world paging k1 a l1) (Hsame : spaces_same (k_spaces k) (ms_mem (k_mem k)) (ms_mem s1)).
Context (Hlay : same_layout (k_mem k) s1).
Context (Hz : ∀ x, in_frame (direct_map (ms_fa (k_mem k))) (Z.of_nat j) x → load8 (ms_mem s1) x = 0).
Context (Hkd : ∀ i, data_frame l (k_mem k) i → kept_frame (k_mem k) s1 i).

Lemma new_frame_free :
  (∀ id h hd, handle_at (k_sched k) id h = Some hd → held (object hd) ≠ Some (frame_at j)) ∧
  (∀ id sp x pa, AddressSpaceTable_get (k_spaces k) id = Some sp → user_page sp (ms_mem s1) x pa →
     pa / FRAME_SIZE ≠ Z.of_nat j) ∧ ¬ some_table (k_spaces k) (ms_mem s1) (frame_at j) ∧ l1 !! j = Some Allocated.
Proof.
  destruct (free_unheld _ _ _ _ _ W Hj) as (H1 & H2 & H3). split_and!; [done| | |].
  - intros id sp' x pa Hs Hu. eapply H2; [done|]. by rewrite <- (user_page_same _ _ (ms_mem s1)) by apply (Hsame id sp' Hs).
  - by rewrite (some_table_same _ (ms_mem (k_mem k))).
  - apply list_lookup_insert_eq. by eapply lookup_lt_Some.
Qed.

(** The handle table has room. *)
Lemma frame_push h :
  position_none (handles (tcb_handles t)) = Some h →
  ∃ k', (let! r := on_task c (on_handles (HandleTable_push (frame_handle j))) in
         match r with
         | Err handle => match object handle with
             | ObjFrame frame => do! dealloc_frame frame ;;; ret (Err StatusOutOfMemory)
             | _ => panic "internal error: entered unreachable code: pushed handle was not a frame"
             end
         | Ok handle_id => write_user_usize paging out handle_id
         end) (set_k_interrupts false k1) = Done (Ok tt, k') ∧
    world paging (set_k_interrupts (k_interrupts k) k') a l1 ∧
    frame_given c t sp out l k h j (set_k_interrupts (k_interrupts k) k').
Proof.
  intros Hh. destruct new_frame_free as (N1 & N2 & N3 & N4). set (hs := put_handle h (Some (frame_handle j)) (tcb_handles t)).
  pose proof (position_none_Some _ _ Hh) as (Hr & Hnone & _).
  assert (Ht : lookup_task (k_sched k) c = Some t) by apply Hca.
  set (k2 := set_k_handles c t hs (set_k_interrupts false k1)).
  assert (W2 : world paging k2 a l1).
  { apply world_handles; [by apply world_flag|done|]. simpl.
    eapply (caps_give_frame (handle_at (k_sched k))); [apply W1| |done|done|done|done].
    intros id h' hd. case_decide as Hid; [|by left]. subst. unfold hs. rewrite put_handle_get by done.
    case_decide; [intros [= <-]; right; done|]. left. unfold handle_at. rewrite Ht. done. }
  assert (Hca2 : caller paging k2 a c (set_handles hs t) sp l1).
  { eapply caller_world; [exact Hca|done|done| |done]. simpl. rewrite lookup_upd_task by (by eapply lookup_task_range).
    by rewrite decide_True. }
  destruct (world_write paging k2 a l1 W2 c (set_handles hs t) sp Hca2 out h Hout Hal) as (s' & E & W3 & Hb & Hs3 & Hk).
  { eapply range_valid_same; [apply Hca|exact Hsame|done]. }
  exists (set_k_mem s' k2). split_and!.
  - rewrite (bind_Done _ _ _ (Ok h) k2); [exact E|]. apply on_handles_Done; [done|]. unfold HandleTable_push. mred. by rewrite Hh.
  - by apply world_flag.
  - split; try done.
    + exists s'. by destruct k.
    + intros x Hx. simpl. change (ms_mem (k_mem k2)) with (ms_mem s1) in *. rewrite Hk; [by apply Hz|].
      intros (y & Hy & Hc). destruct (vcell_in_frame _ _ _ _ _ j (pi_dm _ _ _ (ca_inv _ _ _ _ _ _ _ Hca)) Hc Hx) as (pa & Hp & Hpj).
      refine (N2 (as_id t) sp y pa (ca_space _ _ _ _ _ _ _ Hca) _ Hpj). destruct Hv as (V1 & V2 & _).
      unfold user_page, is_u64, W64, USER_SPACE_END, USIZE in *. split_and!; [lia|lia|lia|done].
    + by eapply spaces_same_trans.
    + intros i x Hi Hx Hno. simpl. change (ms_mem (k_mem k2)) with (ms_mem s1) in *. rewrite Hk; [by apply (Hkd i)|].
      intros (y & Hy & Hc). apply Hno. exists y. split; [done|]. rewrite <- Hc. symmetry. apply vcell_same.
      by apply (Hsame (as_id t) sp), Hca.
Qed.

(** It has none: the frame is given back. *)
Lemma frame_push_full :
  position_none (handles (tcb_handles t)) = None →
  ∃ s', (let! r := on_task c (on_handles (HandleTable_push (frame_handle j))) in
         match r with
         | Err handle => match object handle with
             | ObjFrame frame => do! dealloc_frame frame ;;; ret (Err StatusOutOfMemory)
             | _ => panic "internal error: entered unreachable code: pushed handle was not a frame"
             end
         | Ok handle_id => write_user_usize paging out handle_id
         end) (set_k_interrupts false k1) = Done (Err StatusOutOfMemory, set_k_interrupts false (set_k_mem s' k)) ∧
    world paging (set_k_mem s' k) a l ∧ spaces_same (k_spaces k) (ms_mem (k_mem k)) (ms_mem s') ∧
    (∀ i, data_frame l (k_mem k) i → kept_frame (k_mem k) s' i).
Proof.
  intros Hh. destruct new_frame_free as (N1 & N2 & N3 & N4). assert (Ht : lookup_task (k_sched k) c = Some t) by apply Hca.
  destruct (world_dealloc paging (set_k_interrupts false k1) a l1 (world_flag _ _ _ _ W1 false) j) as (s' & E & W2 & Hs & _ & _ & Hd);
    [done..|]. exists s'. split_and!.
  - erewrite bind_Done.
    2: { apply on_handles_Done; [done|]. unfold HandleTable_push. mred. rewrite Hh. done. }
    simpl. unfold set_k_handles. simpl. replace (set_handles (tcb_handles t) t) with t by (by destruct t).
    rewrite upd_task_id by done.
    replace (set_k_sched (k_sched k) (set_k_interrupts false k1)) with (set_k_interrupts false k1) by (by destruct k).
    rewrite (bind_Done _ _ _ _ _ E). by destruct k.
  - rewrite list_insert_insert_eq, list_insert_id in W2 by done.
    pose proof (world_flag _ _ _ _ W2 (k_interrupts k)) as W3. by destruct k.
  - by eapply spaces_same_trans.
  - intros i Hi. assert (i ≠ j) by (intros ->; by apply data_frame_used in Hi).
    eapply kept_frame_trans; [exact Hlay|by apply Hkd|]. apply Hd.
    eapply data_frame_mono; [by apply same_area_layout|..|exact Hi]; by rewrite list_lookup_insert_ne.
Qed.
End frame_alloc.

Lemma spaces_same_refl sps m : spaces_same sps m m.
Proof. intros id sp _. split; [|done]. intros x. by split. Qed.

Lemma set_k_mem_id k : set_k_mem (k_mem k) k = k.
Proof. by destruct k. Qed.

(** Only memory differs, and of that only the allocator's records and frames that are free: every
    page of every address space translates as before and every byte of every frame that holds data
    or a page table is the same. *)
Definition unchanged (l : list FrameState) (k k' : KState) : Prop :=
  ∃ s', k' = set_k_mem s' k ∧ spaces_same (k_spaces k) (ms_mem (k_mem k)) (ms_mem s') ∧
    ∀ i, data_frame l (k_mem k) i → kept_frame (k_mem k) s' i.

Lemma unchanged_refl l k : unchanged l k k.
Proof. exists (k_mem k). split; [by rewrite set_k_mem_id|]. split; [apply spaces_same_refl|done]. Qed.

Lemma bad_out_handle_spec out : bad_out_handle out = true ↔ out = 0 ∨ out mod USIZE ≠ 0.
Proof. unfold bad_out_handle. rewrite orb_true_iff, negb_true_iff, Z.eqb_eq, Z.eqb_neq. done. Qed.

Lemma frame_alloc_spec paging k a l c t sp out :
  world paging k a l → caller paging k a c t sp l → is_u64 out →
  ∃ r k' l', sys_frame_alloc paging out k = Done (r, k') ∧ world paging k' a l' ∧
    match r with
    | Ok _ => ∃ h j, frame_given c t sp out l k h j k' ∧ l' = <[j := Allocated]> l
    | Err e => unchanged l k k' ∧ l' = l ∧ frame_alloc_error k t sp l out e
    end.
Proof.
  intros W Hca Hout. unfold sys_frame_alloc. destruct (bad_out_handle out) eqn:Eb.
  { exists (Err InvalidArgument), k, l. apply bad_out_handle_spec in Eb.
    split_and!; [done|done|apply unchanged_refl|done|done]. }
  rewrite (bind_Done _ _ _ _ _ (current_task_Done _ _ _ _ _ _ _ Hca)).
  destruct (self_validate _ _ _ _ _ _ _ Hca out USIZE true) as (r & E & Hr & Hv);
    [done|unfold is_u64, USIZE, W64; lia|].
  assert (Hal : out mod USIZE = 0).
  { unfold bad_out_handle in Eb. apply orb_false_iff in Eb as [_ Eb]. apply negb_false_iff in Eb. by apply Z.eqb_eq. }
  destruct r as [[]|e].
  2: { rewrite (bind_ok_Err _ _ _ _ _ E). destruct Hr as [|[= ->]]; [done|]. exists (Err BadAddress), k, l.
       split_and!; [done|done|apply unchanged_refl|done|]. intros H. by apply Hv in H. }
  rewrite (bind_ok_Ok _ _ _ _ _ E). pose proof (proj1 Hv eq_refl) as Hr'.
  destruct (world_alloc paging k a l W) as [[Ea Hno]|(j & s1 & Ea & Hj & W1 & Hsame & Hlay & Hz & _ & Hkd)];
    rewrite (bind_Done _ _ _ _ _ Ea); cbn [ok_or]; mred.
  { exists (Err StatusOutOfMemory), k, l. split_and!; [done|done|apply unchanged_refl|done|by left]. }
  assert (Hca1 : caller paging (set_k_mem s1 k) a c t sp (<[j := Allocated]> l))
    by (eapply caller_world; [exact Hca|done|done|apply Hca|done]).
  rewrite (bind_Done _ _ _ _ _ (current_task_Done _ _ _ _ _ _ _ Hca1)). fold (frame_handle j).
  destruct (position_none (handles (tcb_handles t))) as [h|] eqn:Eh.
  - destruct (frame_push paging k a l W c t sp Hca out Hout Hal Hr' j s1 Hj W1 Hsame Hlay Hz Hkd h Eh) as (k' & E2 & W2 & Hg).
    rewrite (self_task_mut_Done _ _ _ _ _ _ (ca_task _ _ _ _ _ _ _ Hca1) E2).
    eexists (Ok tt), _, _. split_and!; [done|exact W2|]. by exists h, j.
  - destruct (frame_push_full paging k a l W c t sp Hca out Hr' j s1 Hj W1 Hsame Hlay Hz Hkd Eh) as (s' & E2 & W2 & Hs & Hd).
    rewrite (self_task_mut_Done _ _ _ _ _ _ (ca_task _ _ _ _ _ _ _ Hca1) E2).
    exists (Err StatusOutOfMemory), (set_k_mem s' k), l. split_and!; [by destruct k|done|by exists s'|done|by right].
Qed.

(** ** Taking handles and putting them back *)

Lemma take_Done hs h : HandleTable_take h hs = Done (HandleTable_get hs h, put_handle h None hs).
Proof.
  unfold HandleTable_take, HandleTable_get, put_handle. mred. unfold zget, zset.
  destruct ((0 <=? h) && (h <? Z.of_nat (length (handles hs)))) eqn:E; [|by destruct hs].
  destruct (handles hs !! Z.to_nat h) as [slot|] eqn:El; [done|].
  apply lookup_ge_None in El. apply andb_true_iff in E as [E1%Z.leb_le E2%Z.ltb_lt]. lia.
Qed.

Lemma get_handle_range hs h hd :
  HandleTable_get hs h = Some hd → 0 ≤ h < Z.of_nat (length (handles hs)) ∧ zget (handles hs) h = Some (Some hd).
Proof.
  unfold HandleTable_get. destruct (zget (handles hs) h) as [o|] eqn:E; [|done]. simpl. intros ->.
  split; [by eapply zget_Some_lt|done].
Qed.

Lemma zset_twice {A} (l : list A) i x y : zset (zset l i x) i y = zset l i y.
Proof.
  unfold zset. destruct ((0 <=? i) && (i <? Z.of_nat (length l))) eqn:E; [|by rewrite E].
  rewrite length_insert, E. by rewrite list_insert_insert_eq.
Qed.

Lemma put_handle_twice hs h o o' : put_handle h o (put_handle h o' hs) = put_handle h o hs.
Proof. unfold put_handle. simpl. by rewrite zset_twice. Qed.

Lemma put_handle_id hs h o :
  HandleTable_get hs h = o → put_handle h o hs = hs.
Proof.
  intros Eo. destruct hs as [l]. unfold put_handle. simpl. f_equal. unfold HandleTable_get, zget in Eo. simpl in Eo. unfold zset.
  destruct ((0 <=? h) && (h <? Z.of_nat (length l))) eqn:E; [|done]. apply list_insert_id.
  destruct (lookup_lt_is_Some_2 l (Z.to_nat h)) as [x Hx]; [|rewrite Hx in *; simpl in Eo; by subst].
  apply andb_true_iff in E as [E1%Z.leb_le E2%Z.ltb_lt]. lia.
Qed.

Lemma upd_task_twice s id o o' : upd_task id o (upd_task id o' s) = upd_task id o s.
Proof. destruct s as [ts q cur]. unfold upd_task, set_tasks. simpl. by rewrite zset_twice. Qed.

Lemma set_k_handles_twice c t hs hs' k :
  set_k_handles c (set_handles hs t) hs' (set_k_handles c t hs k) = set_k_handles c t hs' k.
Proof. unfold set_k_handles. simpl. rewrite upd_task_twice. by destruct k, t. Qed.

Lemma set_k_handles_id c t k : lookup_task (k_sched k) c = Some t → set_k_handles c t (tcb_handles t) k = k.
Proof.
  intros Ht. unfold set_k_handles. replace (set_handles (tcb_handles t) t) with t by (by destruct t).
  rewrite upd_task_id by done. by destruct k.
Qed.

Lemma lookup_set_k_handles c t hs k :
  lookup_task (k_sched k) c = Some t → lookup_task (k_sched (set_k_handles c t hs k)) c = Some (set_handles hs t).
Proof. intros Ht. simpl. rewrite lookup_upd_task by (by eapply lookup_task_range). by rewrite decide_True. Qed.

Lemma take_handle_Done c t h k :
  lookup_task (k_sched k) c = Some t →
  on_task c (on_handles (HandleTable_take h)) k =
    Done (HandleTable_get (tcb_handles t) h, set_k_handles c t (put_handle h None (tcb_handles t)) k).
Proof. intros Ht. apply on_handles_Done; [done|apply take_Done]. Qed.

(** Putting something back into the slot that was emptied. *)
Lemma put_back_Done c t h hd hd' k :
  lookup_task (k_sched k) c = Some (set_handles (put_handle h None (tcb_handles t)) t) →
  HandleTable_get (tcb_handles t) h = Some hd →
  put_back c h hd' k =
    Done (tt, set_k_handles c (set_handles (put_handle h None (tcb_handles t)) t)
                (put_handle h (Some hd') (tcb_handles t)) k).
Proof.
  intros Ht Hh. apply get_handle_range in Hh as [Hr _]. unfold put_back. erewrite bind_Done.
  2: { apply on_handles_Done; [exact Ht|]. unfold HandleTable_put. mred. simpl. rewrite zget_zset_eq by done. done. }
  unfold put_handle. simpl. by rewrite zset_twice.
Qed.

(** ** Freeing a frame *)

Lemma take_subset sch c t hs h id h' hd :
  lookup_task sch c = Some t → hs = put_handle h None (tcb_handles t) →
  handle_at (upd_task c (Some (set_handles hs t)) sch) id h' = Some hd →
  handle_at sch id h' = Some hd ∧ ¬ (id = c ∧ h' = h).
Proof.
  intros Ht ->. rewrite handle_at_upd by done. case_decide as Hid; [|intros Hh; split; [done|by intros [? _]]]. subst.
  unfold handle_at. rewrite Ht. simpl. intros Hh. apply get_handle_range in Hh as Hr. destruct Hr as [Hr _].
  simpl in Hr. rewrite length_zset in Hr. destruct (decide (h' = h)) as [->|Hne].
  - rewrite put_handle_get, decide_True in Hh by done. done.
  - split; [|by intros [_ ?]]. revert Hh. unfold HandleTable_get, put_handle. simpl. by rewrite zget_zset_ne.
Qed.

Lemma world_take paging k a l c t h :
  world paging k a l → lookup_task (k_sched k) c = Some t →
  world paging (set_k_handles c t (put_handle h None (tcb_handles t)) k) a l.
Proof.
  intros W Ht. pose proof W as [W1 W2 W3 W4 W5]. split; try done; [by eapply kernel_ok_task|].
  eapply caps_drop; [exact W4|]. intros id h' hd Hh. simpl in Hh. by apply (take_subset _ _ _ _ h) in Hh as [? _].
Qed.

(** Once the only handle is gone, nothing holds or maps the frame. *)
Lemma taken_unheld paging k a l c t h f r :
  world paging k a l → lookup_task (k_sched k) c = Some t →
  HandleTable_get (tcb_handles t) h = Some (mkHandle (ObjFrame f) r) →
  ∃ j, f = frame_at j ∧ l !! j = Some Allocated ∧ ¬ some_table (k_spaces k) (ms_mem (k_mem k)) (frame_at j) ∧
    (∀ id h' hd, handle_at (upd_task c (Some (set_handles (put_handle h None (tcb_handles t)) t)) (k_sched k)) id h' = Some hd →
       held (object hd) ≠ Some (frame_at j)) ∧
    (∀ id sp x pa, AddressSpaceTable_get (k_spaces k) id = Some sp → user_page sp (ms_mem (k_mem k)) x pa →
       pa / FRAME_SIZE ≠ Z.of_nat j).
Proof.
  intros W Ht Hh. pose proof (w_caps _ _ _ _ W) as HC.
  assert (Hat : handle_at (k_sched k) c h = Some (mkHandle (ObjFrame f) r)) by (unfold handle_at; by rewrite Ht).
  destruct (cp_held _ _ _ _ HC _ _ _ f Hat eq_refl) as (j & -> & Hj & Hno). exists j. split_and!; try done.
  - intros id h' hd Hh' Hf. apply (take_subset _ _ _ _ h) in Hh' as [Hh' Hne]; [|done|done].
    apply Hne. destruct (cp_inj _ _ _ _ HC _ _ _ _ _ _ _ Hat eq_refl Hh' Hf) as [<- <-]. done.
  - intros id sp x pa Hs Hu E. rewrite <- frame_at_div in E.
    destruct (cp_excl _ _ _ _ HC _ _ _ _ _ _ _ _ Hat eq_refl Hs Hu E) as (va & Hva & _). done.
Qed.

Lemma frame_dealloc_spec paging k a l c t sp h :
  world paging k a l → caller paging k a c t sp l →
  match HandleTable_get (tcb_handles t) h with
  | None => sys_frame_dealloc h k = Done (Err BadHandle, k)
  | Some hd =>
      match object hd with
      | ObjFrame f => ∃ j s', sys_frame_dealloc h k =
            Done (Ok tt, set_k_handles c t (put_handle h None (tcb_handles t)) (set_k_mem s' k)) ∧
          f = frame_at j ∧ l !! j = Some Allocated ∧
          spaces_same (k_spaces k) (ms_mem (k_mem k)) (ms_mem s') ∧
          world paging (set_k_handles c t (put_handle h None (tcb_handles t)) (set_k_mem s' k)) a (<[j := Free]> l)
      | _ => sys_frame_dealloc h k = Done (Err InvalidArgument, k)
      end
  end.
Proof.
  intros W Hca. assert (Ht : lookup_task (k_sched k) c = Some t) by apply Hca. unfold sys_frame_dealloc.
  rewrite (bind_Done _ _ _ _ _ (current_task_Done _ _ _ _ _ _ _ Hca)).
  set (hs := put_handle h None (tcb_handles t)). set (k0 := set_k_interrupts false k).
  assert (Ht0 : lookup_task (k_sched k0) c = Some t) by done.
  destruct (HandleTable_get (tcb_handles t) h) as [[o r]|] eqn:Eh.
  2: { erewrite self_task_mut_Done; [|done|].
       2: { rewrite (bind_Done _ _ _ _ _ (take_handle_Done c t h k0 Ht0)), Eh. cbn [ok_or]. mred. reflexivity. }
       fold hs. unfold hs. rewrite put_handle_id by done. rewrite set_k_handles_id by done. by destruct k. }
  assert (Hput : ∀ r' : result unit Status, (do! put_back c h (mkHandle o r) ;;; ret r') (set_k_handles c t hs k0) = Done (r', k0)).
  { intros r'. rewrite (bind_Done _ _ _ _ _ (put_back_Done c t h _ _ _ (lookup_set_k_handles _ _ _ _ Ht0) Eh)).
    fold hs. rewrite set_k_handles_twice, put_handle_id, set_k_handles_id by done. done. }
  destruct o as [id|f|f id va|id]; cbn [object].
  2: { destruct (taken_unheld _ _ _ _ _ _ _ _ _ W Ht Eh) as (j & -> & Hj & Hno & Hhd & Hpg).
       destruct (world_dealloc paging (set_k_handles c t hs k0) a l) with (j := j) as (s1 & E & W1 & Hs & _); try done.
       { by apply world_take; [apply world_flag|]. }
       exists j, s1. split_and!; try done.
       - erewrite self_task_mut_Done; [|done|].
         2: { rewrite (bind_Done _ _ _ _ _ (take_handle_Done c t h k0 Ht0)), Eh. cbn [ok_or]. mred. cbn [object].
              fold hs. rewrite (bind_Done _ _ _ _ _ E). reflexivity. }
         by destruct k.
       - pose proof (world_flag _ _ _ _ W1 (k_interrupts k)) as W2. by destruct k. }
  all: rewrite (self_task_mut_Done c _ k t (Err InvalidArgument) k0 Ht); [by destruct k|].
  all: rewrite (bind_Done _ _ _ _ _ (take_handle_Done c t h k0 Ht0)), Eh; cbn [ok_or]; mred; cbn [object]; apply Hput.
Qed.

(** ** Running code on one address space *)

Lemma with_address_space_Done {A} id (f : AddressSpace → M KState A) k sp r k' :
  AddressSpaceTable_get (k_spaces k) id = Some sp → f sp (set_k_interrupts false k) = Done (r, k') →
  with_address_space id f k = Done (Some r, set_k_interrupts (k_interrupts k) k').
Proof.
  intros Hs E. unfold with_address_space. apply masked_flag. mred. simpl. rewrite Hs.
  by rewrite (bind_Done _ _ _ _ _ E).
Qed.

Lemma with_address_space_None {A} id (f : AddressSpace → M KState A) k :
  AddressSpaceTable_get (k_spaces k) id = None → with_address_space id f k = Done (None, k).
Proof.
  intros Hs. unfold with_address_space. erewrite masked_flag by (mred; simpl; by rewrite Hs). by destruct k.
Qed.

Lemma with_allocator_Done {A} (f : M MState A) k r s' :
  k_allocator_set k = true → f (k_mem k) = Done (r, s') → with_allocator f k = Done (r, set_k_mem s' k).
Proof.
  intros Hset E. unfold with_allocator. erewrite masked_flag.
  2: { mred. simpl. rewrite Hset. cbn [massert]. mred. apply on_part_Done. exact E. }
  by destruct k.
Qed.

(** Memory operations on a space of the table. *)
Lemma space_op_Done {A} id (f : AddressSpace → M MState A) k sp r s' :
  AddressSpaceTable_get (k_spaces k) id = Some sp → k_allocator_set k = true → f sp (k_mem k) = Done (r, s') →
  with_address_space id (λ target_as, with_allocator (f target_as)) k = Done (Some r, set_k_mem s' k).
Proof.
  intros Hs Hset E. erewrite with_address_space_Done; [|done|by apply with_allocator_Done]. by destruct k.
Qed.

Lemma take_self_Done c t h k :
  lookup_task (k_sched k) c = Some t →
  self_task_mut c (let! o := on_task c (on_handles (HandleTable_take h)) in ret (ok_or o BadHandle)) k =
    Done (ok_or (HandleTable_get (tcb_handles t) h) BadHandle, set_k_handles c t (put_handle h None (tcb_handles t)) k).
Proof.
  intros Ht. erewrite self_task_mut_Done; [|done|].
  2: { rewrite (bind_Done _ _ _ _ _ (take_handle_Done c t h (set_k_interrupts false k) Ht)). reflexivity. }
  by destruct k.
Qed.

(** Putting a handle back from outside the task's block. *)
Lemma put_self_Done c t h hd hd' k :
  lookup_task (k_sched k) c = Some t → HandleTable_get (tcb_handles t) h = Some hd →
  ∀ s, let k1 := set_k_mem s (set_k_handles c t (put_handle h None (tcb_handles t)) k) in
  with_task_mut c (put_back c h hd') k1 =
    Done (Some tt, set_k_handles c t (put_handle h (Some hd') (tcb_handles t)) (set_k_mem s k)).
Proof.
  intros Ht Hh s k1. pose proof (lookup_set_k_handles c t (put_handle h None (tcb_handles t)) k Ht) as Ht1.
  erewrite with_task_mut_Done; [|exact Ht1|].
  2: { eapply put_back_Done; [exact Ht1|exact Hh]. }
  unfold k1. do 2 f_equal. unfold set_k_handles. simpl. rewrite upd_task_twice. by destruct k.
Qed.

Lemma set_k_mem_handles s c t hs k : set_k_mem s (set_k_handles c t hs k) = set_k_handles c t hs (set_k_mem s k).
Proof. by destruct k. Qed.

(** ** Unmapping *)

(** The mapping handle [h] of task [c] became a frame handle again. *)
Record unmapped (c : TaskId) (t : Tcb) (h : usize) (f : FrameAddr) (r : Rights) (id : AddressSpaceId)
    (sp : AddressSpace) (va : VirtualAddr) (l l' : list FrameState) (k k' : KState) : Prop := {
  um_state : ∃ s', k' = set_k_handles c t (put_handle h (Some (mkHandle (ObjFrame f) r)) (tcb_handles t)) (set_k_mem s' k);
  um_post : unmap_post (root sp) va f (k_mem k) (k_mem k') l l';
  um_others : others_kept (k_spaces k) id (ms_mem (k_mem k)) (ms_mem (k_mem k'));
}.

Section unmap.
Context (paging : PagingConfig) (k : KState) (a : AbsSched) (l : list FrameState).
Context (W : world paging k a l) (c : TaskId) (t : Tcb) (Ht : lookup_task (k_sched k) c = Some t).
Context (h : usize) (f : FrameAddr) (id : AddressSpaceId) (va : VirtualAddr) (r : Rights).
Context (Hh : HandleTable_get (tcb_handles t) h = Some (mkHandle (ObjMapping f id va) r)).
Context (sp : AddressSpace) (Hsp : AddressSpaceTable_get (k_spaces k) id = Some sp).
Abbreviation hs := (put_handle h None (tcb_handles t)).
Abbreviation m := (ms_mem (k_mem k)).

Lemma unmap_handle_at : handle_at (k_sched k) c h = Some (mkHandle (ObjMapping f id va) r).
Proof. unfold handle_at. by rewrite Ht. Qed.

Lemma unmap_page :
  is_u64 va ∧ va < USER_SPACE_END ∧ is_canonical (root sp) va = true ∧ va mod PAGE_SIZE = 0 ∧
  PageTable_to_physical (root sp) m va = Some f ∧ walks_to_leaf (root sp) m va.
Proof.
  destruct (cp_mapping _ _ _ _ (w_caps _ _ _ _ W) _ _ _ _ _ _ unmap_handle_at eq_refl) as (H1 & H2 & H3 & H4).
  destruct (H4 sp Hsp) as [H5 H6]. unfold USER_SPACE_END, FRAME_SIZE in H3.
  assert (Hu : is_u64 va ∧ va < USER_SPACE_END) by (unfold is_u64, W64, USER_SPACE_END; lia).
  destruct Hu as [Hu Hlo]. split_and!; try done. by apply user_canonical.
Qed.

(** No other handle stands for the same page. *)
Lemma unmap_only i h' hd g v :
  handle_at (upd_task c (Some (set_handles hs t)) (k_sched k)) i h' = Some hd →
  object hd = ObjMapping g id v → v / PAGE_SIZE ≠ va / PAGE_SIZE.
Proof.
  intros Hi Ho E. apply (take_subset _ _ _ _ h) in Hi as [Hi Hne]; [|done|done]. pose proof (w_caps _ _ _ _ W) as HC.
  destruct (cp_mapping _ _ _ _ HC _ _ _ _ _ _ Hi Ho) as (H1 & H2 & _ & H4). destruct (H4 sp Hsp) as [H5 _].
  destruct unmap_page as (_ & _ & _ & P4 & P5 & _).
  assert (v = va) as -> by (unfold PAGE_SIZE in *; dmlia). rewrite P5 in H5. injection H5 as <-. apply Hne.
  destruct (cp_inj _ _ _ _ HC _ _ _ _ _ _ f unmap_handle_at eq_refl Hi) as [<- <-]; [by rewrite Ho|done].
Qed.

Lemma unmap_done :
  ∃ s' l', AddressSpace_unmap sp va (k_mem k) = Done (Ok f, s') ∧
    let k' := set_k_handles c t (put_handle h (Some (mkHandle (ObjFrame f) r)) (tcb_handles t)) (set_k_mem s' k) in
    unmapped c t h f r id sp va l l' k k' ∧ world paging k' a l'.
Proof.
  destruct unmap_page as (P1 & P2 & P3 & P4 & P5 & P6).
  destruct (si_space _ _ _ _ (w_spaces _ _ _ _ W) _ _ Hsp) as (Hi & Hkind & _).
  destruct (unmap_leaf_ok (root sp) (k_mem k) l va Hi P1 P3 P4 P6) as (f' & s' & l' & E & Hpost).
  assert (f' = f) as ->.
  { pose proof (up_frame _ _ _ _ _ _ _ Hpost va P1 eq_refl) as E'. rewrite P5, P4 in E'. injection E' as E'. lia. }
  destruct (spaces_unmap paging (k_spaces k) (k_mem k) s' l l' id sp va f (w_spaces _ _ _ _ W) Hsp P1 P2 P3 Hpost) as [Hs' Hoth].
  pose proof (world_take paging k a l c t h W Ht) as W1.
  destruct (caps_unmapped _ (k_spaces k) (k_mem k) s' l l' id sp va f (w_caps _ _ _ _ W1) Hsp Hoth Hpost) as (HC & Hkeep & Hpages).
  { intros i h' hd g v. by apply unmap_only. }
  exists s', l'. split; [|intros k'; split].
  - unfold AddressSpace_unmap. rewrite Hkind. rewrite bool_decide_true by done.
    rewrite (proj2 (Z.leb_gt _ va)) by (unfold USER_SPACE_END in P2; lia). simpl. by rewrite (bind_Done _ _ _ _ _ E).
  - split; [by exists s'|done|done].
  - unfold k'. clear k'. pose proof (w_caps _ _ _ _ W) as HC0. pose proof unmap_handle_at as Hat.
    destruct (cp_held _ _ _ _ HC0 _ _ _ f Hat eq_refl) as (j & -> & Hj & Hno).
    assert (W2 : world paging (set_k_mem s' (set_k_handles c t hs k)) a l').
    { apply (world_mem paging _ a l W1); try done; [apply Hpost|]. intros i [st Hst].
      destruct (up_freed _ _ _ _ _ _ _ Hpost i) as [<-|(E1 & _)]; eauto. }
    rewrite <- (set_k_handles_twice c t hs _ (set_k_mem s' k)), <- set_k_mem_handles.
    apply world_handles; [done|by apply lookup_set_k_handles|]. destruct (Hkeep j) as [Hj' Hno']; [congruence|done|].
    eapply (caps_give_frame _ _ _ _ _ c h j r); [exact HC| |congruence|done| |].
    + intros i h' hd. case_decide as Hid; [|by left]. subst. pose proof (get_handle_range _ _ _ Hh) as [Hr _].
      rewrite put_handle_get by done. case_decide; [intros [= <-]; by right|]. intros Hg. left. simpl.
      rewrite handle_at_upd, decide_True by done. rewrite put_handle_get, decide_False by done. done.
    + intros i h' hd Hi' Hf. apply (take_subset _ _ _ _ h) in Hi' as [Hi' Hne]; [|done|done]. apply Hne.
      destruct (cp_inj _ _ _ _ HC0 _ _ _ _ _ _ _ Hat eq_refl Hi' Hf) as [<- <-]. done.
    + intros i sp' x pa Hi' Hu Epa. destruct (Hpages _ _ _ _ Hi' Hu) as [Hu0 Hels]. rewrite <- frame_at_div in Epa.
      destruct (cp_excl _ _ _ _ HC0 _ _ _ _ _ _ _ _ Hat eq_refl Hi' Hu0 Epa) as (v & [= -> ->] & Ev).
      by destruct Hels.
Qed.
End unmap.

Lemma unmap_call_spec paging k a l c t sp h :
  world paging k a l → caller paging k a c t sp l →
  match HandleTable_get (tcb_handles t) h with
  | None => sys_unmap h k = Done (Err BadHandle, k)
  | Some hd =>
      match object hd with
      | ObjMapping f id va => ∃ target k' l', sys_unmap h k = Done (Ok tt, k') ∧
          AddressSpaceTable_get (k_spaces k) id = Some target ∧
          unmapped c t h f (rights hd) id target va l l' k k' ∧ world paging k' a l'
      | _ => sys_unmap h k = Done (Err InvalidArgument, k)
      end
  end.
Proof.
  intros W Hca. assert (Ht : lookup_task (k_sched k) c = Some t) by apply Hca.
  pose proof (world_take paging k a l c t h W Ht) as W1. set (hs := put_handle h None (tcb_handles t)) in *.
  pose proof (lookup_set_k_handles c t hs k Ht) as Ht1.
  assert (Hcur : ∀ s', current_task (set_k_mem s' (set_k_handles c t hs k)) = Done (c, set_k_mem s' (set_k_handles c t hs k))).
  { intros s'. unfold current_task. mred. simpl.
    by rewrite (sr_current _ _ (ko_sched _ _ (ca_ok _ _ _ _ _ _ _ Hca))), (ca_current _ _ _ _ _ _ _ Hca). }
  pose proof (Hcur (k_mem k)) as Hcur0. change (set_k_mem (k_mem k) (set_k_handles c t hs k)) with (set_k_handles c t hs k) in Hcur0.
  unfold sys_unmap. rewrite (bind_Done _ _ _ _ _ (current_task_Done _ _ _ _ _ _ _ Hca)).
  destruct (HandleTable_get (tcb_handles t) h) as [[o r]|] eqn:Eh.
  2: { rewrite (bind_ok_Err _ _ _ BadHandle k); [done|]. rewrite take_self_Done with (t := t), Eh by done.
       by rewrite put_handle_id, set_k_handles_id. }
  rewrite (bind_ok_Ok _ _ _ (mkHandle o r) (set_k_handles c t hs k)) by (rewrite take_self_Done with (t := t), Eh; done).
  assert (Hput : ∀ hd', with_task_mut c (put_back c h hd') (set_k_handles c t hs k) =
    Done (Some tt, set_k_handles c t (put_handle h (Some hd') (tcb_handles t)) k)).
  { intros hd'. pose proof (put_self_Done c t h _ hd' k Ht Eh (k_mem k)) as E. cbn zeta in E. fold hs in E.
    rewrite set_k_mem_id in E. exact E. }
  assert (Hsame : set_k_handles c t (put_handle h (Some (mkHandle o r)) (tcb_handles t)) k = k)
    by (rewrite put_handle_id, set_k_handles_id; done).
  destruct o as [id|f|f id va|id]; cbn [object rights].
  3: { destruct (cp_space _ _ _ _ (w_caps _ _ _ _ W) c h (mkHandle (ObjMapping f id va) r) id) as [target Es];
         [unfold handle_at; by rewrite Ht|done|].
       destruct (unmap_done paging k a l W c t Ht h f id va r Eh target Es) as (s' & l' & E & Hu & W').
       erewrite (bind_Done (with_address_space _ _)).
       2: { eapply (space_op_Done id (λ target, AddressSpace_unmap target va)); [exact Es|apply W|exact E]. }
       cbn beta iota. rewrite Z.eqb_refl. rewrite (bind_Done _ _ _ _ _ (Hcur s')).
       rewrite (bind_Done _ _ _ _ _ (put_self_Done c t h _ _ k Ht Eh s')). eexists target, _, l'. done. }
  all: rewrite (bind_Done _ _ _ _ _ Hcur0), (bind_Done _ _ _ _ _ (Hput _)), Hsame; done.
Qed.

(** ** Mapping *)

Definition asks_write (permissions : usize) : bool := negb (Z.land permissions (Z.shiftl 1 0) =? 0).
Definition asks_execute (permissions : usize) : bool := negb (Z.land permissions (Z.shiftl 1 1) =? 0).

(** What [sys_map] accepts without looking at the caller. *)
Definition map_args_ok (va permissions out : usize) : Prop :=
  out ≠ 0 ∧ out mod USIZE = 0 ∧ va mod FRAME_SIZE = 0 ∧ Z.land permissions (not64 3) = 0 ∧
  va + FRAME_SIZE ≤ USER_SPACE_END.

Definition needed_rights (w x : bool) : Rights :=
  let required := Rights_bitor RIGHT_READ RIGHT_MAP in
  let required := if w then Rights_bitor required RIGHT_WRITE else required in
  if x then Rights_bitor required RIGHT_EXECUTE else required.

(** The caller's handles allow mapping frame [f] into space [id]. *)
Definition map_allowed (t : Tcb) (as_handle frame_handle : usize) (w x : bool) (id : AddressSpaceId)
    (f : FrameAddr) (r : Rights) : Prop :=
  (∃ ra, HandleTable_get (tcb_handles t) as_handle = Some (mkHandle (ObjAddressSpace id) ra) ∧
     Z.land ra RIGHT_WRITE ≠ 0) ∧
  HandleTable_get (tcb_handles t) frame_handle = Some (mkHandle (ObjFrame f) r) ∧
  has_rights r (needed_rights w x) = true.

Definition check_error (k : KState) (t : Tcb) (sp : AddressSpace) (as_handle frame_handle out : usize) (w x : bool)
    (e : Status) : Prop :=
  match e with
  | BadAddress => ¬ range_valid sp (ms_mem (k_mem k)) out USIZE true
  | BadHandle => HandleTable_get (tcb_handles t) as_handle = None ∨ HandleTable_get (tcb_handles t) frame_handle = None
  | InvalidArgument => ∀ id f r, ¬ map_allowed t as_handle frame_handle w x id f r
  | _ => False
  end.

Lemma map_check_spec paging k a c t sp l ah fh w x out b :
  caller paging k a c t sp l → is_u64 out →
  ∃ r, map_check t ah fh w x out (set_k_interrupts b k) = Done (r, set_k_interrupts b k) ∧
    match r with
    | Ok id => range_valid sp (ms_mem (k_mem k)) out USIZE true ∧ ∃ f rt, map_allowed t ah fh w x id f rt
    | Err e => check_error k t sp ah fh out w x e
    end.
Proof.
  intros Hca Hout. unfold map_check, map_allowed, check_error.
  destruct (validate_spec (set_k_interrupts b k) (as_id t) sp l out USIZE true) as (r & E & Hr & Hv);
    [apply Hca|apply Hca|done|unfold is_u64, USIZE, W64; lia|].
  destruct r as [[]|e].
  2: { rewrite (bind_ok_Err _ _ _ _ _ E). exists (Err e). split; [done|]. destruct Hr as [|[= ->]]; [done|].
       intros H. by apply Hv in H. }
  rewrite (bind_ok_Ok _ _ _ _ _ E). pose proof (proj1 Hv eq_refl) as Hrv.
  destruct (HandleTable_get (tcb_handles t) ah) as [[oa ra]|] eqn:Ea; cbn [ok_or]; mred.
  2: { exists (Err BadHandle). split; [done|]. by left. }
  destruct oa as [id|fa|fa ia va|ia]; cbn [object rights];
    try (exists (Err InvalidArgument); split; [done|]; intros id f r [(ra' & Ha & _) _]; congruence).
  destruct (Z.eqb_spec (Z.land ra RIGHT_WRITE) 0) as [Hw|Hw].
  { exists (Err InvalidArgument). split; [done|]. intros id' f r [(ra' & Ha & Hne) _]. congruence. }
  destruct (HandleTable_get (tcb_handles t) fh) as [[fo rf]|] eqn:Ef; cbn [ok_or]; mred.
  2: { exists (Err BadHandle). split; [done|]. by right. }
  destruct fo as [i0|f|f0 i0 v0|i0]; cbn [object rights];
    try (exists (Err InvalidArgument); split; [done|]; intros id' f' r' (_ & Hf & _); congruence).
  fold (needed_rights w x). destruct (has_rights rf (needed_rights w x)) eqn:Er.
  - exists (Ok id). split; [done|]. split; [done|]. exists f, rf. split_and!; [by exists ra|done|done].
  - exists (Err InvalidArgument). split; [done|]. intros id' f' r' (_ & Hf & Hr'). congruence.
Qed.

(** Why [map] refuses a user page. *)
Definition map_refused (sp : AddressSpace) (s : MState) (l : list FrameState) (va : VirtualAddr) (x : bool) (e : Status) : Prop :=
  match e with
  | InvalidArgument => is_Some (walk (root sp) (ms_mem s) va) ∨ x = false ∧ nx_enabled (pt_config (root sp)) = false
  | StatusOutOfMemory => count_state Free l < Z.of_nat (length (levels (root sp)))
  | _ => False
  end.

Lemma user_map_spec sp s l va j w x :
  pt_inv (root sp) s l → kind sp = User → is_u64 va → va < USER_SPACE_END → va mod PAGE_SIZE = 0 →
  (∀ j, is_Some (l !! j) → frame_at j < physical_address_limit (pt_config (root sp))) → l !! j = Some Allocated →
  (walk (root sp) (ms_mem s) va = None ∨ walks_to_leaf (root sp) (ms_mem s) va) →
  ∃ r s', AddressSpace_map sp (frame_at j) va (mkPagePermissions w x true) WriteBack s = Done (r, s') ∧
    match r with
    | Ok _ => ∃ l', map_ok_post (root sp) va (frame_at j) (mkPagePermissions w x true) s s' l l'
    | Err e => map_err_post (root sp) s s' l ∧ ∃ st, map_status e = Some st ∧ map_refused sp s l va x st
    end.
Proof.
  intros Hinv Hk Hva Hlo Hal Hlim Hj Hpl. pose proof (user_canonical (root sp) va Hva Hlo) as Hc.
  assert (Hfr : frame_at j mod FRAME_SIZE = 0) by (unfold frame_at; by rewrite Z.mod_mul).
  assert (Hfu : is_u64 (frame_at j)).
  { pose proof (pi_alloc _ _ _ Hinv) as Hfa. pose proof (inv_index_bound _ _ Hfa _ _ Hj). pose proof (inv_cover _ _ Hfa).
    pose proof (inv_offset _ _ Hfa). unfold frame_virt, frame_at, FRAME_SIZE, is_u64 in *. lia. }
  unfold AddressSpace_map. rewrite Hk. simpl. rewrite (proj2 (Z.leb_gt _ _)) by done. mred.
  unfold FrameAddr_from_start_address. rewrite Hfr. simpl. mred.
  destruct (map_spec (root sp) s l va (frame_at j) (mkPagePermissions w x true) WriteBack false Hinv Hva Hfu Hfr)
    as (r & s' & E & Hr).
  rewrite (bind_Done _ _ _ _ _ E). eexists _, s'. split; [done|]. destruct r as [[]|e]; [done|].
  destruct Hr as [Hp He]. split; [done|].
  assert (Hshort : ¬ ∃ es, walk (root sp) (ms_mem s) va = Some es ∧ (length es ≤ length (levels (root sp)))%nat).
  { intros (es & Hes & Hlen). destruct Hpl as [?|(es' & Hes' & Hlen')]; [congruence|]. rewrite Hes in Hes'.
    injection Hes' as <-. lia. }
  destruct e; simpl in He |- *; try congruence; try done.
  - destruct He as [He|(i & Hi & He)]; [specialize (Hlim j ltac:(by eexists))|specialize (Hlim i ltac:(by eexists))]; lia.
  - eexists. split; [done|]. by left.
  - eexists. split; [done|]. by right.
  - by eexists.
Qed.

Section map.
Context (paging : PagingConfig) (k : KState) (a : AbsSched) (l : list FrameState).
Context (W : world paging k a l) (c : TaskId) (t : Tcb) (Ht : lookup_task (k_sched k) c = Some t).
Context (h : usize) (f : FrameAddr) (r : Rights).
Context (Hh : HandleTable_get (tcb_handles t) h = Some (mkHandle (ObjFrame f) r)).
Context (id : AddressSpaceId) (sp : AddressSpace) (Hsp : AddressSpaceTable_get (k_spaces k) id = Some sp).
Context (va : VirtualAddr) (perms : PagePermissions) (Hva : is_u64 va) (Hal : va mod PAGE_SIZE = 0).
Context (Hend : va + FRAME_SIZE ≤ USER_SPACE_END).
Context (s1 : MState) (l1 : list FrameState) (Hpost : map_ok_post (root sp) va f perms (k_mem k) s1 l l1).
Abbreviation hs := (put_handle h None (tcb_handles t)).
Abbreviation hd' := (mkHandle (ObjMapping f id va) r).

Lemma map_done :
  world paging (set_k_handles c t (put_handle h (Some hd') (tcb_handles t)) (set_k_mem s1 k)) a l1 ∧
  others_kept (k_spaces k) id (ms_mem (k_mem k)) (ms_mem s1).
Proof.
  assert (Hlo : va < USER_SPACE_END) by (unfold FRAME_SIZE in Hend; lia).
  pose proof (user_canonical (root sp) va Hva Hlo) as Hc. pose proof (world_take paging k a l c t h W Ht) as W1.
  pose proof (mo_new _ _ _ _ _ _ _ _ Hpost va Hva eq_refl) as [Hnew _]. rewrite Hal, Z.add_0_r in Hnew.
  pose proof (mo_leaf _ _ _ _ _ _ _ _ Hpost) as Hleaf.
  destruct (taken_unheld _ _ _ _ _ _ _ _ _ W Ht Hh) as (j & Ej & Hj & Hno & Hhd & Hpg).
  destruct (spaces_map paging (k_spaces k) (k_mem k) s1 l l1 id sp va f perms (w_spaces _ _ _ _ W) Hsp Hva Hlo Hc Hpost) as [Hs1 Hoth].
  split; [|done]. rewrite Ej in Hpost.
  destruct (caps_mapped _ (k_spaces k) (k_mem k) s1 l l1 id sp va j perms (w_caps _ _ _ _ W1) Hsp Hva Hoth Hpost Hj Hno Hhd Hpg)
    as (HC & Hno1 & Hj1 & Hpages).
  assert (W2 : world paging (set_k_mem s1 (set_k_handles c t hs k)) a l1).
  { apply (world_mem paging _ a l W1); try done; [apply Hpost|]. intros i [st Hst].
    destruct (mo_states _ _ _ _ _ _ _ _ Hpost i) as [<-|[E1 _]]; eauto. }
  rewrite <- (set_k_handles_twice c t hs _ (set_k_mem s1 k)), <- set_k_mem_handles.
  apply world_handles; [done|by apply lookup_set_k_handles|].
  eapply (caps_give _ _ _ _ _ c h hd'); [exact HC| | | |intros i [= <-]; by eexists].
  - intros i h' hd. case_decide as Hid; [|by left]. subst i. pose proof (get_handle_range _ _ _ Hh) as [Hr _].
    rewrite put_handle_get by done. case_decide; [intros [= <-]; by right|]. intros Hg. left. simpl.
    rewrite handle_at_upd, decide_True by done. rewrite put_handle_get, decide_False by done. done.
  - intros g [= <-]. split_and!; [exists j; done|rewrite Ej; exact Hhd|].
    intros a' sp' x pa Ha Hu E. rewrite Ej, frame_at_div in E. destruct (Hpages _ _ _ _ Ha Hu E) as [-> Ex]. by exists va.
  - intros g a' v [= <- <- <-]. split_and!; [unfold is_u64 in Hva; lia|done|done|]. intros sp' Ha. simpl in Ha. simplify_eq. done.
Qed.
End map.

(** The caller mapped frame [f] of handle [h] at [va] in the space [id]. *)
Record mapped (l : list FrameState) (c : TaskId) (t : Tcb) (sp : AddressSpace) (h : usize) (f : FrameAddr) (r : Rights)
    (id : AddressSpaceId) (target : AddressSpace) (va : VirtualAddr) (perms : PagePermissions) (out : usize)
    (k k' : KState) : Prop := {
  mp_state : ∃ s', k' = set_k_handles c t (put_handle h (Some (mkHandle (ObjMapping f id va) r)) (tcb_handles t)) (set_k_mem s' k);
  mp_new : maps_page (root target) (ms_mem (k_mem k')) va f perms;
  mp_old : unmapped_page (root target) (ms_mem (k_mem k)) va;
  mp_same : others_same (root target) (ms_mem (k_mem k)) (ms_mem (k_mem k')) va;
  mp_others : ∀ id' sp' x, id' ≠ id → AddressSpaceTable_get (k_spaces k) id' = Some sp' →
    same_page (root sp') (ms_mem (k_mem k)) (ms_mem (k_mem k')) x;
  mp_out : vbytes (root sp) (ms_mem (k_mem k')) out USIZE = le_bytes 8 h;
  mp_kept : data_kept l (λ b, out_cell sp k out b ∨ own_byte target k b) (k_mem k) (k_mem k');
}.

(** Why [sys_map] refuses. *)
Definition map_call_error (k : KState) (t : Tcb) (sp : AddressSpace) (l : list FrameState)
    (as_handle frame_handle va permissions out : usize) (e : Status) : Prop :=
  ¬ map_args_ok va permissions out ∧ e = InvalidArgument ∨
  check_error k t sp as_handle frame_handle out (asks_write permissions) (asks_execute permissions) e ∨
  ∃ id target f r, map_allowed t as_handle frame_handle (asks_write permissions) (asks_execute permissions) id f r ∧
    AddressSpaceTable_get (k_spaces k) id = Some target ∧
    map_refused target (k_mem k) l va (asks_execute permissions) e.

Lemma map_args_spec va permissions out :
  is_u64 va → is_u64 out →
  bad_out_handle out = false ∧ negb (va mod FRAME_SIZE =? 0) || negb (Z.land permissions (not64 3) =? 0) = false ∧
    va + FRAME_SIZE ≤ USER_SPACE_END ↔ map_args_ok va permissions out.
Proof.
  intros Hva Hout. unfold map_args_ok, bad_out_handle. rewrite !orb_false_iff, !negb_false_iff, !Z.eqb_eq, Z.eqb_neq. tauto.
Qed.

Section map_call.
Context (paging : PagingConfig) (k : KState) (a : AbsSched) (l : list FrameState).
Context (W : world paging k a l) (c : TaskId) (t : Tcb) (sp : AddressSpace) (Hca : caller paging k a c t sp l).
Context (ah fh va permissions out : usize) (Hva : is_u64 va) (Hout : is_u64 out).
Abbreviation w := (asks_write permissions).
Abbreviation x := (asks_execute permissions).
Abbreviation perms := (mkPagePermissions w x true).
Context (Hargs : map_args_ok va permissions out).
Context (Hrv : range_valid sp (ms_mem (k_mem k)) out USIZE true).
Context (id : AddressSpaceId) (f : FrameAddr) (r : Rights) (Hallow : map_allowed t ah fh w x id f r).

(** The end of [sys_map], once the page table was asked. *)
Definition map_finish (frame : FrameAddr) (rt : Rights) (map_result : result unit MapError) : M KState (result unit Status) :=
  match map_result with
  | Ok _ =>
      let! current := current_task in
      let! _ := with_task_mut current (put_back current fh (mkHandle (ObjMapping frame id va) rt)) in
      let! r := write_user_usize paging out fh in
      match r with
      | Ok _ => ret (Ok tt)
      | Err _ => panic "out_handle has already been checked"
      end
  | Err err =>
      let! o := with_task_mut c (put_back c fh (mkHandle (ObjFrame frame) rt)) in
      do! expect o "failed to resolve self task" ;;;
      match map_status err with
      | Some status => ret (Err status)
      | None => panic "validated user mapping failed with an impossible error"
      end
  end.

(** The rest of [sys_map] once the frame handle is taken. *)
Definition map_taken (handle : Handle) : M KState (result unit Status) :=
  match object handle with
  | ObjFrame frame =>
      let! o := with_address_space id (λ target_as,
        with_allocator (AddressSpace_map target_as frame va perms WriteBack)) in
      let! map_result := expect o "failed to resolve self address space" in
      map_finish frame (rights handle) map_result
  | _ => panic "validated frame handle changed before it was taken"
  end.

Abbreviation k1 := (set_k_handles c t (put_handle fh None (tcb_handles t)) k).

Section target.
Context (target : AddressSpace) (Htg : AddressSpaceTable_get (k_spaces k) id = Some target) (s1 : MState).

(** The result pointer still leads to the same cells. *)
Lemma map_out_same l1 :
  map_ok_post (root target) va f perms (k_mem k) s1 l l1 → others_kept (k_spaces k) id (ms_mem (k_mem k)) (ms_mem s1) →
  ∀ y, out ≤ y < out + USIZE → same_page (root sp) (ms_mem (k_mem k)) (ms_mem s1) y.
Proof.
  intros Hpost Hoth y Hy. pose proof (ca_space _ _ _ _ _ _ _ Hca) as Hcs.
  destruct (decide (as_id t = id)) as [Hid|Hne]; [|by apply (Hoth (as_id t) sp Hne)].
  rewrite Hid in Hcs. simplify_eq. destruct Hrv as (V1 & V2 & V3). specialize (V3 y Hy).
  assert (Hy64 : is_u64 y) by (unfold is_u64, W64, USER_SPACE_END, USIZE in *; lia).
  apply (mo_others _ _ _ _ _ _ _ _ Hpost); [done|]. intros Ey.
  destruct (mo_old _ _ _ _ _ _ _ _ Hpost y Hy64 Ey) as [[_ Hn] _]. unfold page_valid, AddressSpace_mapping in V3.
  by rewrite Hn in V3.
Qed.

Lemma map_finish_ok l1 :
  map_ok_post (root target) va f perms (k_mem k) s1 l l1 →
  ∃ k' l', map_finish f r (Ok tt) (set_k_mem s1 k1) = Done (Ok tt, k') ∧ world paging k' a l' ∧
    mapped l c t sp fh f r id target va perms out k k'.
Proof.
  intros Hpost. assert (Ht : lookup_task (k_sched k) c = Some t) by apply Hca.
  destruct Hallow as (_ & Hfh & _). destruct Hargs as (_ & A2 & A3 & _ & A5).
  destruct (map_done paging k a l W c t Ht fh f r Hfh id target Htg va perms Hva A3 A5 s1 l1 Hpost) as [W1 Hoth].
  assert (Hcur : current_task (set_k_mem s1 k1) = Done (c, set_k_mem s1 k1)).
  { unfold current_task. mred. simpl.
    by rewrite (sr_current _ _ (ko_sched _ _ (ca_ok _ _ _ _ _ _ _ Hca))), (ca_current _ _ _ _ _ _ _ Hca). }
  unfold map_finish.
  rewrite (bind_Done _ _ _ _ _ Hcur), (bind_Done _ _ _ _ _ (put_self_Done c t fh _ (mkHandle (ObjMapping f id va) r) k Ht Hfh s1)).
  set (hs' := put_handle fh _ _) in *. set (k2 := set_k_handles c t hs' (set_k_mem s1 k)) in *.
  assert (Hca2 : caller paging k2 a c (set_handles hs' t) sp l1)
    by (eapply caller_world; [exact Hca|done|done|by apply lookup_set_k_handles|done]).
  destruct (world_write paging k2 a l1 W1 c (set_handles hs' t) sp Hca2 out fh Hout A2) as (s2 & E2 & W2 & Hb & Hs2 & Hkb).
  { destruct Hrv as (V1 & V2 & V3). split_and!; [done|done|]. intros y Hy. simpl.
    rewrite (page_valid_page_same _ (ms_mem (k_mem k))) by by eapply map_out_same. by apply V3. }
  rewrite (bind_Done _ _ _ _ _ E2). exists (set_k_mem s2 k2), l1. split_and!; [done|done|].
  assert (Hs2t : ∀ y, same_page (root target) (ms_mem s1) (ms_mem s2) y) by by apply (Hs2 id target Htg).
  split; simpl; try done.
  - exists s2. by destruct k.
  - eapply maps_page_same; [|apply Hpost]. intros y _ _. apply Hs2t.
  - apply Hpost.
  - intros y Hy Ey. eapply same_page_trans; [by apply (mo_others _ _ _ _ _ _ _ _ Hpost)|apply Hs2t].
  - intros id' sp' y Hne Hs'. eapply same_page_trans; [by apply (Hoth id' sp' Hne Hs')|by apply (Hs2 id' sp' Hs')].
  - intros i b Hi Hib Hno. change (ms_mem (k_mem k2)) with (ms_mem s1) in *. rewrite Hkb.
    + apply (mo_data _ _ _ _ _ _ _ _ Hpost i); [done| |done]. intros Ho. apply Hno. right. by exists i.
    + intros (y & Hy & Hc). apply Hno. left. exists y. split; [done|]. rewrite <- Hc. symmetry.
      apply vcell_same. by eapply map_out_same.
Qed.

(** The page table refused: the frame handle is put back. *)
Lemma map_finish_err e st :
  map_err_post (root target) (k_mem k) s1 l → map_status e = Some st →
  map_finish f r (Err e) (set_k_mem s1 k1) = Done (Err st, set_k_mem s1 k) ∧
  world paging (set_k_mem s1 k) a l ∧ unchanged l k (set_k_mem s1 k).
Proof.
  intros Hpost Est. assert (Ht : lookup_task (k_sched k) c = Some t) by apply Hca. destruct Hallow as (_ & Hfh & _).
  destruct (si_space _ _ _ _ (w_spaces _ _ _ _ W) _ _ Htg) as (Hi & _).
  destruct (spaces_map_err paging (k_spaces k) (k_mem k) s1 l target (w_spaces _ _ _ _ W) Hpost) as [Hs1 Hsame].
  { by rewrite (pi_dm _ _ _ (me_inv _ _ _ _ Hpost)), (pi_dm _ _ _ Hi). }
  assert (Hcr : ms_cr3 s1 = ms_cr3 (k_mem k)) by apply Hpost. split_and!; [| |].
  3: { exists s1. split; [done|]. split; [done|]. apply (me_data _ _ _ _ Hpost). }
  - unfold map_finish. rewrite (bind_Done _ _ _ _ _ (put_self_Done c t fh _ (mkHandle (ObjFrame f) r) k Ht Hfh s1)).
    cbn [expect]. mred. rewrite Est, put_handle_id by done. by rewrite set_k_handles_id.
  - apply (world_mem paging k a l W); try done. eapply caps_mono; [apply W|done|apply Hpost|done|done].
Qed.
End target.

Lemma map_taken_spec :
  ∃ r' k' l', map_taken (mkHandle (ObjFrame f) r) k1 = Done (r', k') ∧ world paging k' a l' ∧
    match r' with
    | Ok _ => ∃ target, AddressSpaceTable_get (k_spaces k) id = Some target ∧
        mapped l c t sp fh f r id target va perms out k k'
    | Err e => unchanged l k k' ∧ l' = l ∧ ∃ target, AddressSpaceTable_get (k_spaces k) id = Some target ∧
        map_refused target (k_mem k) l va x e
    end.
Proof.
  assert (Ht : lookup_task (k_sched k) c = Some t) by apply Hca. pose proof (w_caps _ _ _ _ W) as HC.
  pose proof Hallow as ((ra & Hah & _) & Hfh & _). pose proof Hargs as (_ & _ & A3 & _ & A5).
  destruct (cp_space _ _ _ _ HC c ah (mkHandle (ObjAddressSpace id) ra) id) as [target Htg];
    [unfold handle_at; by rewrite Ht|done|].
  destruct (si_space _ _ _ _ (w_spaces _ _ _ _ W) _ _ Htg) as (Hi & Hkind & Hpg).
  destruct (taken_unheld _ _ _ _ _ _ _ _ _ W Ht Hfh) as (j & Ej & Hj & _).
  assert (Hlo : va < USER_SPACE_END) by (unfold FRAME_SIZE in A5; lia).
  destruct (user_map_spec target (k_mem k) l va j w x Hi Hkind Hva Hlo A3) as (rm & s1 & Em & Hr); try done.
  { intros i Hsome. rewrite Hpg. by apply W. } { by eapply (cp_plain _ _ _ _ HC). }
  rewrite <- Ej in Em, Hr. unfold map_taken. cbn [object rights].
  erewrite (bind_Done (with_address_space _ _)).
  2: { eapply (space_op_Done id (λ target, AddressSpace_map target f va perms WriteBack)); [exact Htg|apply W|exact Em]. }
  cbn [expect]. mred. destruct rm as [[]|e].
  - destruct Hr as [l1 Hpost]. destruct (map_finish_ok target Htg s1 l1 Hpost) as (k' & l' & E & W' & Hm).
    exists (Ok tt), k', l'. split_and!; [done|done|]. by exists target.
  - destruct Hr as (Hpost & st & Est & Href). destruct (map_finish_err target Htg s1 e st Hpost Est) as (E & W' & Hu).
    exists (Err st), (set_k_mem s1 k), l. split_and!; [done|done|done|done|by exists target].
Qed.
End map_call.

(** What [sys_map] promises of its answer and of the state it leaves. *)
Definition map_outcome (paging : PagingConfig) (k : KState) (a : AbsSched) (l : list FrameState) (c : TaskId) (t : Tcb)
    (sp : AddressSpace) (ah fh va permissions out : usize) (o : outcome (result unit Status * KState)) : Prop :=
  ∃ r k' l', o = Done (r, k') ∧ world paging k' a l' ∧
    match r with
    | Ok _ => ∃ id target f rt, map_args_ok va permissions out ∧
        map_allowed t ah fh (asks_write permissions) (asks_execute permissions) id f rt ∧
        AddressSpaceTable_get (k_spaces k) id = Some target ∧
        mapped l c t sp fh f rt id target va
          (mkPagePermissions (asks_write permissions) (asks_execute permissions) true) out k k'
    | Err e => unchanged l k k' ∧ l' = l ∧ map_call_error k t sp l ah fh va permissions out e
    end.

Lemma map_call_spec paging k a l c t sp ah fh va permissions out :
  world paging k a l → caller paging k a c t sp l → is_u64 va → is_u64 out →
  map_outcome paging k a l c t sp ah fh va permissions out (sys_map paging ah fh va permissions out k).
Proof.
  intros W Hca Hva Hout. pose proof (map_args_spec va permissions out Hva Hout) as Hargs.
  assert (Hbad : ¬ map_args_ok va permissions out →
    map_outcome paging k a l c t sp ah fh va permissions out (Done (Err InvalidArgument, k))).
  { intros Hno. exists (Err InvalidArgument), k, l. split_and!; [done|done|apply unchanged_refl|done|by left]. }
  unfold sys_map. destruct (bad_out_handle out) eqn:E1; [apply Hbad; rewrite <- Hargs; naive_solver|].
  destruct (negb (va mod FRAME_SIZE =? 0) || negb (Z.land permissions (not64 3) =? 0)) eqn:E2;
    [apply Hbad; rewrite <- Hargs; naive_solver|].
  unfold checked_add. destruct (Z.ltb_spec (va + FRAME_SIZE) W64) as [Hw|Hw]; cbn [ok_or]; mred.
  2: { apply Hbad. rewrite <- Hargs. unfold USER_SPACE_END, W64 in *. lia. }
  destruct (Z.ltb_spec USER_SPACE_END (va + FRAME_SIZE)) as [Hend|Hend].
  { apply Hbad. rewrite <- Hargs. lia. }
  assert (Hok : map_args_ok va permissions out) by tauto. clear Hbad Hargs.
  rewrite (bind_Done _ _ _ _ _ (current_task_Done _ _ _ _ _ _ _ Hca)).
  fold (asks_write permissions) (asks_execute permissions).
  destruct (map_check_spec paging k a c t sp l ah fh (asks_write permissions) (asks_execute permissions) out false Hca Hout)
    as (r & Ec & Hr).
  pose proof (self_task_Done _ _ _ _ _ _ _ Hca (λ task, map_check task ah fh (asks_write permissions) (asks_execute permissions) out) _ _ Ec) as Es.
  replace (set_k_interrupts (k_interrupts k) (set_k_interrupts false k)) with k in Es by (by destruct k).
  destruct r as [id|e].
  2: { rewrite (bind_ok_Err _ _ _ _ _ Es). exists (Err e), k, l.
       split_and!; [done|done|apply unchanged_refl|done|by right; left]. }
  rewrite (bind_ok_Ok _ _ _ _ _ Es). destruct Hr as (Hrv & f & rt & Hallow).
  rewrite (bind_ok_Ok _ _ _ (mkHandle (ObjFrame f) rt) (set_k_handles c t (put_handle fh None (tcb_handles t)) k)).
  2: { rewrite take_self_Done with (t := t) by apply Hca. by rewrite (proj1 (proj2 Hallow)). }
  destruct (map_taken_spec paging k a l W c t sp Hca ah fh va permissions out Hva Hout Hok Hrv id f rt Hallow)
    as (r & k' & l' & E & W' & Hr).
  exists r, k', l'. split_and!; [exact E|done|]. destruct r as [[]|e].
  - destruct Hr as (target & Htg & Hm). by exists id, target, f, rt.
  - destruct Hr as (Hu & -> & target & Htg & Href). split_and!; [done|done|]. right. right. by exists id, target, f, rt.
Qed.

(** * Theorems *)

(** C14: [sys_frame_alloc] always returns.  On success one free frame becomes allocated and reads as
    zeroes, the first free slot of the caller's table holds a handle to it with the rights to
    read, write, execute and map, the slot's number is in the user variable, and no translation
    of any address space differs; no byte of a frame in use changes but those of the variable.  On failure
    every translation, every frame state and every byte of the frames that hold data, the variable
    included, is as before, and the error
    is the argument's, the pointer's, or that there is no free frame or no free slot. *)
Theorem frame_alloc_correct (paging : PagingConfig) (k : KState) (a : AbsSched) (l : list FrameState)
    (c : TaskId) (t : Tcb) (sp : AddressSpace) (out : usize) :
  world paging k a l → caller paging k a c t sp l → is_u64 out →
  ∃ r k' l', sys_frame_alloc paging out k = Done (r, k') ∧ world paging k' a l' ∧
    match r with
    | Ok _ => ∃ h j, frame_given c t sp out l k h j k' ∧ l' = <[j := Allocated]> l
    | Err e => unchanged l k k' ∧ l' = l ∧ frame_alloc_error k t sp l out e
    end.
Proof. apply frame_alloc_spec. Qed.

(** [sys_frame_dealloc] frees the frame of a frame handle and empties its slot; a missing handle
    is [BadHandle], and a handle to anything else, a mapped frame included, is
    [InvalidArgument] and stays in its slot. *)
Theorem frame_dealloc_correct (paging : PagingConfig) (k : KState) (a : AbsSched) (l : list FrameState)
    (c : TaskId) (t : Tcb) (sp : AddressSpace) (h : usize) :
  world paging k a l → caller paging k a c t sp l →
  match HandleTable_get (tcb_handles t) h with
  | None => sys_frame_dealloc h k = Done (Err BadHandle, k)
  | Some hd =>
      match object hd with
      | ObjFrame f => ∃ j s', sys_frame_dealloc h k =
            Done (Ok tt, set_k_handles c t (put_handle h None (tcb_handles t)) (set_k_mem s' k)) ∧
          f = frame_at j ∧ l !! j = Some Allocated ∧
          spaces_same (k_spaces k) (ms_mem (k_mem k)) (ms_mem s') ∧
          world paging (set_k_handles c t (put_handle h None (tcb_handles t)) (set_k_mem s' k)) a (<[j := Free]> l)
      | _ => sys_frame_dealloc h k = Done (Err InvalidArgument, k)
      end
  end.
Proof. apply frame_dealloc_spec. Qed.

(** C13: [sys_map] always returns.  On success the caller's frame handle has become a mapping handle
    in the same slot, the page, unmapped before, maps the frame with the permissions asked for,
    every other page of that space and every page of every other space translates as before,
    and the slot's number is in the user variable; no byte of an allocated or reserved frame changes but those of
    the variable and of the page tables of that space.  On failure the frame handle is back, the error says
    why, every translation is as before and no byte of any frame that holds data has changed: not even
    the variable is written. *)
Theorem map_call_correct (paging : PagingConfig) (k : KState) (a : AbsSched) (l : list FrameState)
    (c : TaskId) (t : Tcb) (sp : AddressSpace) (as_handle frame_handle va permissions out : usize) :
  world paging k a l → caller paging k a c t sp l → is_u64 va → is_u64 out →
  map_outcome paging k a l c t sp as_handle frame_handle va permissions out
    (sys_map paging as_handle frame_handle va permissions out k).
Proof. apply map_call_spec. Qed.

(** C15: [sys_unmap] takes the page of a mapping handle away and turns the handle back into a frame
    handle with the same rights: exactly the tables of the page's path
    that became empty are freed, every other page of
    that space and of all others stays and no byte of any frame that holds data changes.  The page is always there, so the panics of the handler
    cannot happen.  A missing handle is [BadHandle], another kind of handle [InvalidArgument],
    and then nothing changed. *)
Theorem unmap_call_correct (paging : PagingConfig) (k : KState) (a : AbsSched) (l : list FrameState)
    (c : TaskId) (t : Tcb) (sp : AddressSpace) (h : usize) :
  world paging k a l → caller paging k a c t sp l →
  match HandleTable_get (tcb_handles t) h with
  | None => sys_unmap h k = Done (Err BadHandle, k)
  | Some hd =>
      match object hd with
      | ObjMapping f id va => ∃ target k' l', sys_unmap h k = Done (Ok tt, k') ∧
          AddressSpaceTable_get (k_spaces k) id = Some target ∧
          unmapped c t h f (rights hd) id target va l l' k k' ∧ world paging k' a l'
      | _ => sys_unmap h k = Done (Err InvalidArgument, k)
      end
  end.
Proof. apply unmap_call_spec. Qed.

(** ** Concrete runs *)

(** Two tasks in one address space with nothing mapped. *)
Definition demo_empty : KState :=
  set_k_mem (mkMState (ms_mem roomy_state) (ms_fa roomy_state) 8192 (ms_flushed roomy_state)) demo_running.

Lemma walk_empty self m x :
  (∀ j, idx_ok j → heap_of self m (pt_frame self) j = 0) → walk self m x = None.
Proof.
  intros Hz. unfold walk. pose proof (path_of_ok (levels self) x) as Hok. pose proof (path_of_length (levels self) x) as Hl.
  fold (path self x) in Hok, Hl. destruct (path self x) as [|i p]; [simpl in Hl; lia|].
  apply Forall_cons in Hok as [Hi _]. simpl. by rewrite Hz.
Qed.

Lemma roomy_empty x : walk demo_pt (ms_mem roomy_state) x = None.
Proof.
  destruct (page_table_new_spec roomy_alloc_state (Reserved :: Reserved :: replicate 18 Free)
    demo_dm demo_config) as (r & s' & E & H); [apply roomy_refines|done|apply demo_config_wf|].
  unfold roomy_state. rewrite E.
  assert (r = Ok demo_pt) as -> by (eapply returned_Done; [exact E|vm_compute; reflexivity]).
  destruct H as (k & _ & _ & _ & _ & Hz & _). by apply walk_empty.
Qed.

Lemma demo_spaces id sp : AddressSpaceTable_get (k_spaces demo_running) id = Some sp → id = 0 ∧ sp = demo_space User.
Proof.
  assert (k_spaces demo_running = mkAddressSpaceTable (Some (demo_space User) :: replicate 31 None)) as ->
    by (vm_compute; reflexivity).
  unfold AddressSpaceTable_get. simpl. intros H. destruct (zget _ id) as [o|] eqn:E; [|done]. simpl in H. subst o.
  pose proof (zget_Some_lt _ _ _ E) as Hr. rewrite zget_lookup in E by lia.
  destruct (Z.to_nat id) as [|n] eqn:En; simpl in E.
  - injection E as <-. split; [lia|done].
  - change (replicate 31 None !! n = Some (Some sp)) in E. by apply lookup_replicate in E as [? _].
Qed.

(** The tasks only hold handles to threads. *)
Lemma demo_handles id h hd : handle_at (k_sched demo_running) id h = Some hd → ∃ i, object hd = ObjThread i.
Proof.
  unfold handle_at. destruct (lookup_task (k_sched demo_running) id) as [t|] eqn:Et; [|done]. simpl.
  intros [_ H]%get_handle_range. apply lookup_task_slot in Et. pose proof (zget_Some_lt _ _ _ Et) as Hr.
  pose proof (zget_Some_lt _ _ _ H) as Hr'. rewrite zget_lookup in Et by lia. rewrite zget_lookup in H by lia.
  set (ok := λ s : option Handle, match s with Some (mkHandle (ObjThread _) _) | None => true | _ => false end).
  assert (Hall : forallb (from_option (λ t, forallb ok (handles (tcb_handles t))) true) (tasks (k_sched demo_running)) = true)
    by (vm_compute; reflexivity).
  rewrite forallb_forall in Hall. apply list_elem_of_lookup_2, list_elem_of_In, Hall in Et. simpl in Et.
  rewrite forallb_forall in Et. apply list_elem_of_lookup_2, list_elem_of_In, Et in H. destruct hd as [[] r]; try done.
  by eexists.
Qed.

Lemma k_mem_set s k : k_mem (set_k_mem s k) = s.
Proof. done. Qed.
Lemma k_spaces_set s k : k_spaces (set_k_mem s k) = k_spaces k.
Proof. done. Qed.

Lemma demo_empty_world : world demo_config demo_empty demo_abs_running roomy_frames.
Proof.
  pose proof (pt_inv_cr3 _ _ _ 8192 roomy_pt_inv) as Hpt. unfold demo_empty. split.
  - apply kernel_ok_mem; [exact demo_running_ok|]. vm_compute. reflexivity.
  - vm_compute. reflexivity.
  - rewrite k_spaces_set, k_mem_set. split; [apply Hpt| |].
    + intros id sp [-> ->]%demo_spaces. split; [exact Hpt|]. split; reflexivity.
    + intros id id' sp sp' Hne [-> _]%demo_spaces [-> _]%demo_spaces. by destruct Hne.
  - rewrite k_sched_set_mem, k_spaces_set, k_mem_set. cbn [ms_mem]. split.
    + intros id sp x [-> ->]%demo_spaces _ _. left. apply roomy_empty.
    + intros id sp x pa [-> ->]%demo_spaces (Hx & Hlo & Hp). exfalso.
      pose proof (user_canonical demo_pt x Hx Hlo) as Hc. change (root (demo_space User)) with demo_pt in Hp.
      cbn [ms_mem] in Hp. rewrite (proj1 (view_walk _ _ _ _ roomy_pt_inv Hc)), roomy_empty in Hp. done.
    + intros id h hd f [i Ho]%demo_handles Hf. rewrite Ho in Hf. done.
    + intros id h hd id' h' hd' f [i Ho]%demo_handles Hf. rewrite Ho in Hf. done.
    + intros id h hd f a sp x pa [i Ho]%demo_handles Hf. rewrite Ho in Hf. done.
    + intros id h hd f a va [i Ho]%demo_handles Hf. rewrite Ho in Hf. done.
    + intros id h hd a [i Ho]%demo_handles Hf. rewrite Ho in Hf. done.
  - intros j [st Hj]. apply lookup_lt_Some in Hj. change (length roomy_frames) with 20%nat in Hj.
    change (physical_address_limit demo_config) with (2 ^ 40). unfold frame_at, FRAME_SIZE. lia.
Qed.

(** A fresh frame mapped for the user, in the way the loader and the stacks do it. *)
Definition give_page (sp : AddressSpace) (va : VirtualAddr) (perms : PagePermissions) : M KState (result unit MapError) :=
  let! o := alloc_frame in
  match o with
  | Some f => with_allocator (AddressSpace_map sp f va perms WriteBack)
  | None => panic "no frame"
  end.

Lemma give_page_world paging k a l id sp va w x k' :
  world paging k a l → AddressSpaceTable_get (k_spaces k) id = Some sp → is_u64 va → va < USER_SPACE_END →
  va mod PAGE_SIZE = 0 → give_page sp va (mkPagePermissions w x true) k = Done (Ok tt, k') →
  ∃ l' s' f, world paging k' a l' ∧ k' = set_k_mem s' k ∧
    maps_page (root sp) (ms_mem s') va f (mkPagePermissions w x true).
Proof.
  intros W Hsp Hva Hlo Hal E. unfold give_page in E.
  destruct (world_alloc paging k a l W) as [[Ea _]|(j & s1 & Ea & Hj & W1 & Hsame & _)];
    rewrite (bind_Done _ _ _ _ _ Ea) in E; [done|].
  destruct (free_unheld _ _ _ _ _ W Hj) as (N1 & N2 & N3). set (l1 := <[j := Allocated]> l) in *.
  assert (Hj1 : l1 !! j = Some Allocated) by (apply list_lookup_insert_eq; by eapply lookup_lt_Some).
  destruct (si_space _ _ _ _ (w_spaces _ _ _ _ W1) _ _ Hsp) as (Hi & Hkind & Hpg).
  destruct (user_map_spec sp s1 l1 va j w x Hi Hkind Hva Hlo Hal) as (r & s2 & Em & Hr); [|done| |].
  { intros i Hs. rewrite Hpg. by apply W1. } { by eapply (cp_plain _ _ _ _ (w_caps _ _ _ _ W1)). }
  assert (Ew : with_allocator (AddressSpace_map sp (frame_at j) va (mkPagePermissions w x true) WriteBack) (set_k_mem s1 k) =
    Done (r, set_k_mem s2 (set_k_mem s1 k))) by (apply with_allocator_Done; [apply W1|exact Em]).
  rewrite Ew in E. injection E as -> <-. destruct Hr as [l2 Hpost].
  destruct (spaces_map paging (k_spaces k) s1 s2 l1 l2 id sp va (frame_at j) _ (w_spaces _ _ _ _ W1) Hsp Hva Hlo
    (user_canonical _ _ Hva Hlo) Hpost) as [Hs2 Hoth].
  exists l2, s2, (frame_at j). split_and!; [|by destruct k|apply Hpost].
  apply (world_mem paging (set_k_mem s1 k) a l1 W1); [done|apply Hpost| |].
  - intros i [st Hst]. destruct (mo_states _ _ _ _ _ _ _ _ Hpost i) as [<-|[E1 _]]; eauto.
  - eapply (caps_mapped _ (k_spaces k) s1 s2 l1 l2 id sp va j); try done; [apply W1| |].
    + by rewrite (some_table_same _ (ms_mem (k_mem k))).
    + intros i sp' y pa Hs' Hu. eapply N2; [exact Hs'|]. by rewrite <- (user_page_same _ _ (ms_mem s1)) by apply (Hsame i sp' Hs').
Qed.

(** A page at 0x3F000, and a handle of task 0 to its address space in slot 5. *)
Definition demo_page : KState :=
  state_of (give_page (demo_space User) 0x3F000 (mkPagePermissions true false true) demo_empty).
Definition demo_caller_task : Tcb :=
  set_handles (put_handle 5 (Some (mkHandle (ObjAddressSpace 0) RIGHT_WRITE)) (tcb_handles (demo_t 0))) (demo_t 0).
Definition demo_call : KState := set_k_handles 0 (demo_t 0) (tcb_handles demo_caller_task) demo_page.

Lemma demo_page_world :
  ∃ l s f, world demo_config demo_page demo_abs_running l ∧ demo_page = set_k_mem s demo_empty ∧
    maps_page demo_pt (ms_mem s) 0x3F000 f (mkPagePermissions true false true).
Proof.
  apply (give_page_world demo_config demo_empty demo_abs_running roomy_frames 0 (demo_space User) 0x3F000 true false).
  - exact demo_empty_world.
  - vm_compute. reflexivity.
  - unfold is_u64, W64. lia.
  - unfold USER_SPACE_END. lia.
  - reflexivity.
  - refine (state_of_Done (give_page (demo_space User) 0x3F000 (mkPagePermissions true false true) demo_empty) (Ok tt) _).
    vm_compute. reflexivity.
Qed.

Lemma demo_lookup : lookup_task (k_sched demo_page) 0 = Some (demo_t 0).
Proof. vm_compute. reflexivity. Qed.

Lemma demo_call_world :
  ∃ l, world demo_config demo_call demo_abs_running l ∧
    caller demo_config demo_call demo_abs_running 0 demo_caller_task (demo_space User) l.
Proof.
  destruct demo_page_world as (l & s & f & W & _). exists l.
  assert (W' : world demo_config demo_call demo_abs_running l).
  { apply world_handles; [exact W|exact demo_lookup|].
    eapply (caps_give _ _ _ _ _ 0 5 (mkHandle (ObjAddressSpace 0) RIGHT_WRITE)); [exact (w_caps _ _ _ _ W)| | | |].
    - intros id h hd. case_decide as Hid; [|intros H; left; exact H]. subst id.
      unfold demo_caller_task. cbn [tcb_handles set_handles]. rewrite put_handle_get by (vm_compute; split; [discriminate|reflexivity]).
      case_decide as Hh; [intros [= <-]; right; split_and!; [reflexivity|exact Hh|reflexivity]|]. intros H. left.
      unfold handle_at. rewrite demo_lookup. exact H.
    - intros g Hg. discriminate.
    - intros g i v Hg. discriminate.
    - intros i [= <-]. vm_compute. eexists. reflexivity. }
  split; [exact W'|]. destruct (world_caller _ _ _ _ W' 0 eq_refl) as (t & sp & Hca).
  assert (Ht : lookup_task (k_sched demo_call) 0 = Some demo_caller_task) by (vm_compute; reflexivity).
  rewrite (ca_task _ _ _ _ _ _ _ Hca) in Ht. injection Ht as ->.
  assert (Hs : AddressSpaceTable_get (k_spaces demo_call) (as_id demo_caller_task) = Some (demo_space User))
    by (vm_compute; reflexivity).
  rewrite (ca_space _ _ _ _ _ _ _ Hca) in Hs. injection Hs as ->. exact Hca.
Qed.

Lemma frame_alloc_correct_witness :
  ∃ k' l l' h j, sys_frame_alloc demo_config 0x3F000 demo_call = Done (Ok tt, k') ∧ world demo_config k' demo_abs_running l' ∧
    frame_given 0 demo_caller_task (demo_space User) 0x3F000 l demo_call h j k'.
Proof.
  destruct demo_call_world as (l & W & Hca).
  destruct (frame_alloc_correct demo_config demo_call demo_abs_running l 0 demo_caller_task (demo_space User) 0x3F000 W Hca)
    as (r & k' & l' & E & W' & Hr); [unfold is_u64, W64; lia|].
  assert (r = Ok tt) as -> by (eapply returned_Done; [exact E|vm_compute; reflexivity]).
  destruct Hr as (h & j & Hg & _). exists k', l, l', h, j. split; [exact E|]. split; [exact W'|exact Hg].
Defined.

(** Task 0 has a frame, in slot 1. *)
Definition demo_given : KState := state_of (sys_frame_alloc demo_config 0x3F000 demo_call).
(** Task 0 has mapped it at 0x50000. *)
Definition demo_mapped : KState := state_of (sys_map demo_config 5 1 0x50000 1 0x3F000 demo_given).

Lemma demo_given_world : ∃ l, world demo_config demo_given demo_abs_running l.
Proof.
  destruct demo_call_world as (l & W & Hca).
  destruct (frame_alloc_spec demo_config demo_call demo_abs_running l 0 demo_caller_task (demo_space User) 0x3F000 W Hca)
    as (r & k' & l' & E & W' & Hr); [unfold is_u64, W64; lia|].
  exists l'. unfold demo_given. rewrite E. exact W'.
Qed.

Lemma demo_mapped_world : ∃ l, world demo_config demo_mapped demo_abs_running l.
Proof.
  destruct demo_given_world as (l & W). destruct (world_caller _ _ _ _ W 0 eq_refl) as (t & sp & Hca).
  destruct (map_call_spec demo_config demo_given demo_abs_running l 0 t sp 5 1 0x50000 1 0x3F000 W Hca)
    as (r & k' & l' & E & W' & Hr); [unfold is_u64, W64; lia|unfold is_u64, W64; lia|].
  exists l'. unfold demo_mapped. rewrite E. exact W'.
Qed.

Lemma handle_at_caller paging k a c t sp l h :
  caller paging k a c t sp l → HandleTable_get (tcb_handles t) h = handle_at (k_sched k) c h.
Proof. intros Hca. unfold handle_at. by rewrite (ca_task _ _ _ _ _ _ _ Hca). Qed.

Lemma frame_dealloc_correct_witness :
  ∃ k' l', sys_frame_dealloc 1 demo_given = Done (Ok tt, k') ∧ world demo_config k' demo_abs_running l'.
Proof.
  destruct demo_given_world as (l & W). destruct (world_caller _ _ _ _ W 0 eq_refl) as (t & sp & Hca).
  pose proof (frame_dealloc_correct demo_config demo_given demo_abs_running l 0 t sp 1 W Hca) as H.
  assert (Hh : ∃ f r, handle_at (k_sched demo_given) 0 1 = Some (mkHandle (ObjFrame f) r))
    by (vm_compute; eexists _, _; reflexivity).
  destruct Hh as (f & r & Hh). rewrite (handle_at_caller _ _ _ _ _ _ _ _ Hca), Hh in H. cbn [object] in H.
  destruct H as (j & s' & E & _ & _ & _ & W'). eexists _, _. split; [exact E|exact W'].
Defined.

Lemma map_call_correct_witness :
  ∃ k' l target f rt t sp, sys_map demo_config 5 1 0x50000 1 0x3F000 demo_given = Done (Ok tt, k') ∧
    mapped l 0 t sp 1 f rt 0 target 0x50000 (mkPagePermissions true false true) 0x3F000 demo_given k'.
Proof.
  destruct demo_given_world as (l & W). destruct (world_caller _ _ _ _ W 0 eq_refl) as (t & sp & Hca).
  destruct (map_call_correct demo_config demo_given demo_abs_running l 0 t sp 5 1 0x50000 1 0x3F000 W Hca)
    as (r & k' & l' & E & W' & Hr); [unfold is_u64, W64; lia|unfold is_u64, W64; lia|].
  assert (r = Ok tt) as -> by (eapply returned_Done; [exact E|vm_compute; reflexivity]).
  destruct Hr as (id & target & f & rt & _ & ((ra & Ha & _) & _ & _) & Htg & Hm).
  rewrite (handle_at_caller _ _ _ _ _ _ _ _ Hca) in Ha.
  assert (Hh : handle_at (k_sched demo_given) 0 5 = Some (mkHandle (ObjAddressSpace 0) RIGHT_WRITE)) by (vm_compute; reflexivity).
  rewrite Ha in Hh. injection Hh as -> ->. exists k', l, target, f, rt, t, sp. split; [exact E|exact Hm].
Defined.

Lemma unmap_call_correct_witness :
  ∃ k' l l' t target f rt, sys_unmap 1 demo_mapped = Done (Ok tt, k') ∧
    unmapped 0 t 1 f rt 0 target 0x50000 l l' demo_mapped k'.
Proof.
  destruct demo_mapped_world as (l & W). destruct (world_caller _ _ _ _ W 0 eq_refl) as (t & sp & Hca).
  pose proof (unmap_call_correct demo_config demo_mapped demo_abs_running l 0 t sp 1 W Hca) as H.
  assert (Hh : ∃ f r, handle_at (k_sched demo_mapped) 0 1 = Some (mkHandle (ObjMapping f 0 0x50000) r))
    by (vm_compute; eexists _, _; reflexivity).
  destruct Hh as (f & r & Hh). rewrite (handle_at_caller _ _ _ _ _ _ _ _ Hca), Hh in H. cbn [object rights] in H.
  destruct H as (target & k' & l' & E & _ & Hu & _). exists k', l, l', t, target, f, r. split; [exact E|exact Hu].
Defined.
