(* ===== verification/Create.v ===== *)
(** * Creating address spaces

    [sys_as_create] of [src/syscall/table.rs]: a new address space shares the kernel half with the
    caller's and has nothing else mapped, so that the invariant of handles and pages holds with
    one more space in the table; when the table or the caller's handles are full the new page
    table is destroyed again. *)

From S2P Require Import Prelude Memory Bytes Frame Paging PageTree PageMap PageUnmap AddressSpace VirtMem Stack Spaces Destroy.
From S2P Require Import Ring Tcb Kernel Scheduler Registers Tasks User Syscall Ipc Caps Calls.

(** ** The new page table *)

(** [u] is a copy of the kernel half of [self] in the frame [k], in memory [s']. *)
Record fresh_space (self u : AddressSpace) (k : nat) (s s' : MState) (l : list FrameState) : Prop := {
  fs_kind : kind u = User;
  fs_free : l !! k = Some Free;
  fs_root : root u = mkPageTable (pt_direct_map (root self)) (pt_config (root self)) (frame_at k);
  fs_inv : pt_inv (root u) s' (<[k := Allocated]> l);
  fs_cr3 : ms_cr3 s' = ms_cr3 s;
  fs_area : same_area s s';
  fs_kept : ∀ j, l !! j = Some Allocated → kept_frame s s' j;
  fs_entries : ∀ j, idx_ok j → heap_of (root u) (ms_mem s') (frame_at k) j =
    if 256 <=? j then heap_of (root self) (ms_mem s) (pt_frame (root self)) j else 0;
  fs_data : ∀ j, data_frame l s j → kept_frame s s' j;
}.

Lemma page_table_new_layout dm config s l r s1 :
  fa_inv s l → PageTable_new dm config s = Done (Ok r, s1) → same_layout s s1.
Proof.
  intros Hfa. unfold PageTable_new.
  destruct (alloc_contract s l Hfa) as [[E _]|(k & s' & E & _ & _ & Hl & _)]; rewrite (bind_Done _ _ _ _ _ E); [done|].
  destruct (_ <=? _); [|by intros [= _ <-]]. unfold bind. by destruct (FrameAllocator_dealloc _ s') as [[]| |].
Qed.

Lemma page_table_new_error dm config s l e s1 :
  fa_inv s l → (∀ j, is_Some (l !! j) → frame_at j < physical_address_limit config) →
  PageTable_new dm config s = Done (Err e, s1) → Free ∉ l.
Proof.
  intros Hfa Hlim. unfold PageTable_new.
  destruct (alloc_contract s l Hfa) as [[E Hno]|(k & s' & E & Hk & _)]; rewrite (bind_Done _ _ _ _ _ E); [done|].
  specialize (Hlim k ltac:(by eexists)). unfold frame_at in Hlim. by rewrite (proj2 (Z.leb_gt _ _)).
Qed.

Lemma new_user_fresh self s l :
  pt_inv (root self) s l → (∀ j, is_Some (l !! j) → frame_at j < physical_address_limit (pt_config (root self))) →
  ∃ r s', AddressSpace_new_user self s = Done (r, s') ∧
    match r with
    | Ok u => ∃ k, fresh_space self u k s s' l
    | Err _ => fa_inv s' l ∧ same_layout s s' ∧ (∀ j, data_frame l s j → kept_frame s s' j) ∧ Free ∉ l
    end.
Proof.
  intros Hk Hlim. destruct (new_user_spec self s l Hk) as (r & s' & E & Hr). exists r, s'. split; [done|].
  revert E. unfold AddressSpace_new_user.
  destruct (page_table_new_spec s l (pt_direct_map (root self)) (pt_config (root self)) (pi_alloc _ _ _ Hk)
    (pi_dm _ _ _ Hk) (pi_config _ _ _ Hk)) as (r1 & s1 & E1 & Hr1).
  destruct r1 as [ur|e]; [rewrite (bind_ok_Ok _ _ _ _ _ E1)|rewrite (bind_ok_Err _ _ _ _ _ E1)].
  2: { intros [= <- <-]. destruct Hr1 as (H1 & H2 & _ & H3). split_and!; try done.
       - intros j Hj. eapply page_table_new_off; [apply Hk|exact E1|by eapply data_off_frame; [apply Hk|]|by eapply data_frame_used].
       - by eapply page_table_new_error; [apply Hk|exact Hlim|exact E1]. }
  destruct Hr1 as (k & Hfree & -> & Hu & _ & Hz & Hkept). set (ur := mkPageTable _ _ _) in *. set (l1 := <[k := Allocated]> l) in *.
  destruct (page_table_new_layout _ _ _ _ _ _ (pi_alloc _ _ _ Hk) E1) as (Hb & Hd & Hcr & _).
  assert (Hal : ∀ j, l !! j = Some Allocated → l1 !! j = Some Allocated ∧ j ≠ k).
  { intros j Hj. assert (j ≠ k) by congruence. unfold l1. by rewrite list_lookup_insert_ne. }
  assert (Hroot : table_ok (pt_config (root self)) l (pt_frame (root self))).
  { apply (own_table_ok (root self) s l Hk). exists []. split_and!; [constructor|simpl; lia|done]. }
  destruct (copy_kernel_mappings_spec (root self) ur s1 l1 Hu eq_refl) as (s2 & E2 & [W1 (W5 & W2 & W3 & _) W4] & [R1 R2]).
  { split; [apply Hroot|]. by apply Hal, Hroot. }
  rewrite (bind_Done _ _ _ _ _ E2). intros [= <- <-]. destruct Hr as (_ & k' & Hk' & Ef & Hinv & _).
  apply frame_at_inj in Ef as <-. exists k.
  assert (Hdata : ∀ j, data_frame l s j → kept_frame s s2 j).
  { intros j Hj. pose proof (data_frame_used _ _ _ Hj) as Huse. eapply kept_trans; [by rewrite (pi_dm _ _ _ Hu), (pi_dm _ _ _ Hk)| |].
    - eapply page_table_new_off; [apply Hk|exact E1|by eapply data_off_frame; [apply Hk|]|done].
    - apply W4. intros E%frame_at_inj. congruence. }
  split; try done; [congruence|by split; congruence|intros j Hj; apply Hdata; by left|].
  - intros j Hj. cbn [root]. rewrite R2; [|by eapply (own_table_ok ur s1 l1 Hu); exists []; split_and!; [constructor|simpl; lia|done]|done].
    change (pt_frame ur) with (frame_at k). rewrite Z.eqb_refl. cbn [andb]. destruct (256 <=? j); [|by apply Hz].
    eapply kept_heap; [apply Hk|exact Hroot|done|]. apply Hkept; [|apply Hroot]. by apply Hal, Hroot.
Qed.

Section fresh.
Context (paging : PagingConfig) (sps : AddressSpaceTable) (s s' : MState) (l : list FrameState).
Context (H : spaces_inv paging sps s l) (id0 : AddressSpaceId) (self : AddressSpace).
Context (Hself : AddressSpaceTable_get sps id0 = Some self).
Context (u : AddressSpace) (k : nat) (F : fresh_space self u k s s' l).
Abbreviation l1 := (<[k := Allocated]> l).
Abbreviation m := (ms_mem s).
Abbreviation m' := (ms_mem s').

Lemma fresh_dm : direct_map (ms_fa s') = direct_map (ms_fa s).
Proof.
  destruct (si_space _ _ _ _ H _ _ Hself) as (Hi & _).
  by rewrite (pi_dm _ _ _ (fs_inv _ _ _ _ _ _ F)), (pi_dm _ _ _ Hi), (fs_root _ _ _ _ _ _ F).
Qed.

(** The spaces there were see nothing of it. *)
Lemma fresh_spaces : spaces_inv paging sps s' l1 ∧ spaces_same sps m m'.
Proof.
  apply (spaces_kept_frames paging sps s s' l); [done|apply F|apply fresh_dm|].
  intros j Hj%(some_table_allocated _ _ _ _ _ H). split; [|by apply F].
  rewrite list_lookup_insert_ne; [done|]. intros <-. pose proof (fs_free _ _ _ _ _ _ F). congruence.
Qed.

Lemma fresh_heap mm : heap_of (root u) mm = heap_of (root self) mm.
Proof. unfold heap_of. by rewrite (fs_root _ _ _ _ _ _ F). Qed.

Lemma fresh_levels : levels (root u) = levels (root self).
Proof. unfold levels. by rewrite (fs_root _ _ _ _ _ _ F). Qed.

(** Its lower half is empty, its upper half is that of the space it was made from. *)
Lemma fresh_entry i :
  idx_ok i →
  heap_of (root u) m' (frame_at k) i = (if 256 <=? i then heap_of (root self) m (pt_frame (root self)) i else 0) ∧
  heap_of (root self) m' (pt_frame (root self)) i = heap_of (root self) m (pt_frame (root self)) i.
Proof.
  intros Hi. split; [by apply F|]. destruct (si_space _ _ _ _ H _ _ Hself) as (Hs & _).
  assert (Hok : table_ok (pt_config (root self)) l (pt_frame (root self))).
  { apply (own_table_ok _ _ _ Hs). exists []. split_and!; [constructor|simpl; lia|done]. }
  eapply kept_heap; [apply Hs|exact Hok|done|]. apply F, Hok.
Qed.

Lemma fresh_follow i q :
  idx_ok i →
  follow (pt_config (root u)) (heap_of (root u) m') (pt_frame (root u)) (i :: q) =
  if 256 <=? i then follow (pt_config (root self)) (heap_of (root self) m') (pt_frame (root self)) (i :: q) else None.
Proof.
  intros Hi. destruct (fresh_entry i Hi) as [E E']. pose proof (fs_root _ _ _ _ _ _ F) as Er. rewrite fresh_heap in *.
  cbn [follow]. replace (pt_frame (root u)) with (frame_at k) by (by rewrite Er).
  replace (pt_config (root u)) with (pt_config (root self)) by (by rewrite Er). rewrite E, E'.
  by destruct (256 <=? i).
Qed.

Lemma fresh_resolve i q :
  idx_ok i → (256 <=? i) = true →
  resolve (pt_config (root u)) (heap_of (root u) m') (pt_frame (root u)) (i :: q) =
  resolve (pt_config (root self)) (heap_of (root self) m') (pt_frame (root self)) (i :: q).
Proof.
  intros Hi H256. destruct (fresh_entry i Hi) as [E E']. rewrite H256 in E. rewrite fresh_heap in *.
  pose proof (fs_root _ _ _ _ _ _ F) as Er. cbn [resolve]. replace (pt_frame (root u)) with (frame_at k) by (by rewrite Er).
  replace (pt_config (root u)) with (pt_config (root self)) by (by rewrite Er). by rewrite E, E'.
Qed.

Lemma fresh_tables f :
  own_table (root u) m' f →
  f = frame_at k ∨ kernel_table (root u) m' f ∧ kernel_table (root self) m' f ∧ own_table (root self) m' f.
Proof.
  intros ([|i q] & Hp & Hl & Hf).
  { left. injection Hf as <-. by rewrite (fs_root _ _ _ _ _ _ F). }
  right. pose proof (fresh_follow i q (Forall_inv Hp)) as E. rewrite Hf in E. destruct (Z.leb_spec 256 i) as [Hi|Hi]; [|done].
  rewrite fresh_levels in Hl. split_and!; [exists i, q; by rewrite fresh_levels|by exists i, q|by exists (i :: q)].
Qed.

Lemma fresh_walk x : is_u64 x → x < USER_SPACE_END → walk (root u) m' x = None.
Proof.
  intros Hx Hlo. destruct (user_path_head (root u) x Hx Hlo (user_canonical _ _ Hx Hlo)) as (i & p & Ep & Hi).
  pose proof (path_of_ok (levels (root u)) x) as Hok. fold (path (root u) x) in Hok. rewrite Ep in Hok.
  pose proof (fs_entries _ _ _ _ _ _ F i (Forall_inv Hok)) as E. rewrite (proj2 (Z.leb_gt _ _)) in E by lia.
  unfold walk. rewrite Ep. cbn [resolve]. replace (pt_frame (root u)) with (frame_at k) by (by rewrite (fs_root _ _ _ _ _ _ F)).
  by rewrite E.
Qed.

Lemma fresh_no_page x pa : ¬ user_page u m' x pa.
Proof.
  intros (Hx & Hlo & Hp).
  rewrite (proj1 (view_walk _ _ _ _ (fs_inv _ _ _ _ _ _ F) (user_canonical _ _ Hx Hlo))), fresh_walk in Hp; done.
Qed.

(** The frames of the new tables were free, or were tables before. *)
Lemma fresh_apart j :
  l !! j ≠ Some Free → ¬ some_table sps m (frame_at j) → ¬ own_table (root u) m' (frame_at j).
Proof.
  intros Hj Hno [Ho|(_ & _ & Ho)]%fresh_tables.
  - apply frame_at_inj in Ho as ->. apply Hj. apply F.
  - apply Hno. exists id0, self. split; [done|]. by apply (proj2 fresh_spaces id0 self Hself).
Qed.

(** Destroying it again gives back its root. *)
Lemma fresh_destroy :
  active_root (root u) s' = false →
  ∃ s2, AddressSpace_destroy u s' = Done (tt, s2) ∧ ms_cr3 s2 = ms_cr3 s ∧ same_area s s2 ∧
    spaces_inv paging sps s2 l ∧ spaces_same sps m (ms_mem s2) ∧ (∀ j, data_frame l s j → kept_frame s s2 j).
Proof.
  intros Hna. pose proof (fs_free _ _ _ _ _ _ F) as Hfree. pose proof (fs_root _ _ _ _ _ _ F) as Er.
  destruct (space_destroy_spec u s' l1 (fs_inv _ _ _ _ _ _ F) Hna) as (s2 & l2 & E & HD).
  assert (Hdoom : ∀ g, doomed u m' g ↔ g = frame_at k).
  { intros g. unfold doomed. rewrite (fs_kind _ _ _ _ _ _ F). split; [|intros ->; right; by rewrite Er].
    intros [(i & q & Hp & _ & Hi & Hf)| ->]; [|by rewrite Er].
    rewrite fresh_follow, (proj2 (Z.leb_gt _ _)) in Hf by (lia || by apply Forall_inv in Hp). done. }
  pose proof (destroyed_ext _ _ _ _ _ _ _ Hdoom HD) as [D1 D2 D3 D4 D5 D6].
  assert (l2 = l) as ->.
  { apply list_eq. intros j. destruct (decide (j = k)) as [->|Hj]; [by rewrite D3|].
    rewrite D4 by (intros Hc%frame_at_inj; done). by rewrite list_lookup_insert_ne. }
  exists s2. split; [done|]. pose proof D2 as (_ & Ddm & Dcr & _).
  split; [rewrite Dcr; apply F|]. split; [etrans; [apply F|by apply same_area_layout]|].
  assert (Hdata : ∀ j, data_frame l s j → kept_frame s s2 j).
  { intros j Hj. assert (j ≠ k) by (intros ->; by apply data_frame_used in Hj).
    eapply kept_trans; [apply fresh_dm|by apply (fs_data _ _ _ _ _ _ F)|]. apply D6.
    - eapply data_off_frame; [apply F|]. eapply data_frame_mono; [apply F| | |exact Hj]; by rewrite list_lookup_insert_ne.
    - rewrite Er. cbn [pt_frame]. intros Hc%frame_at_inj. done.
    - intros Hc%frame_at_inj. done. }
  destruct (spaces_kept_frames paging sps s s2 l l H D1 ltac:(by rewrite Ddm, fresh_dm)) as [Hs Hsame]; [|done].
  intros j Hj%(some_table_allocated _ _ _ _ _ H). split; [done|]. apply Hdata. by left.
Qed.

(** ** The space in the table *)
Section insert.
Context (sps' : AddressSpaceTable) (id : AddressSpaceId).
Context (Hid : AddressSpaceTable_get sps id = None) (Hnew : AddressSpaceTable_get sps' id = Some u).
Context (Hold : ∀ j, j ≠ id → AddressSpaceTable_get sps' j = AddressSpaceTable_get sps j).

Lemma insert_cases j sp : AddressSpaceTable_get sps' j = Some sp → j = id ∧ sp = u ∨ j ≠ id ∧ AddressSpaceTable_get sps j = Some sp.
Proof. intros E. destruct (decide (j = id)) as [->|Hj]; [left|right; by rewrite <- Hold]. by rewrite E in Hnew; injection Hnew as ->. Qed.

Lemma insert_spaces : spaces_inv paging sps' s' l1.
Proof.
  pose proof fresh_spaces as [Hs Hsame]. pose proof (fs_root _ _ _ _ _ _ F) as Er.
  assert (Hfree : ∀ j sp, AddressSpaceTable_get sps j = Some sp → ¬ own_table (root sp) m' (frame_at k)).
  { intros j sp Hj Ho. rewrite (proj2 (Hsame j sp Hj)) in Ho.
    pose proof (some_table_allocated _ _ _ _ k H ltac:(by exists j, sp)). pose proof (fs_free _ _ _ _ _ _ F). congruence. }
  split; [apply Hs| |].
  - intros j sp [[-> ->]|[_ Hj]]%insert_cases; [|by apply (si_space _ _ _ _ Hs j)].
    split_and!; [apply F|apply F|]. rewrite Er. by apply (si_space _ _ _ _ H id0 self).
  - intros i j sp sp' Hne [[-> ->]|[Hi Hi']]%insert_cases [[-> ->]|[Hj Hj']]%insert_cases f Ho Ho'; [done| | |].
    + destruct (fresh_tables f Ho) as [->|[? _]]; [|done]. by destruct (Hfree j sp' Hj').
    + destruct (fresh_tables f Ho') as [->|(_ & Hks & Hos)]; [by destruct (Hfree i sp Hi')|].
      destruct (decide (i = id0)) as [->|Hn]; [by simplify_eq|].
      by apply (si_shared _ _ _ _ Hs i id0 sp self).
    + by apply (si_shared _ _ _ _ Hs i j sp sp').
Qed.

Lemma insert_caps Hd : caps_inv Hd sps s l → caps_inv Hd sps' s' l1.
Proof.
  intros HC0. pose proof fresh_spaces as [Hs Hsame].
  assert (HC : caps_inv Hd sps s' l1).
  { eapply caps_mono; [exact HC0|exact Hsame|apply F| |].
    - intros j Hj. rewrite list_lookup_insert_ne; [done|]. intros <-. pose proof (fs_free _ _ _ _ _ _ F). congruence.
    - intros j. destruct (decide (k = j)) as [->|]; [|by rewrite list_lookup_insert_ne].
      rewrite list_lookup_insert_eq; [done|]. eapply lookup_lt_Some, F. }
  assert (Hst : ∀ j, l !! j ≠ Some Free → ¬ some_table sps m' (frame_at j) → ¬ some_table sps' m' (frame_at j)).
  { intros j Hj Hno (i & sp & [[-> ->]|[_ Hi]]%insert_cases & Ho); [|by apply Hno; exists i, sp].
    eapply fresh_apart; [exact Hj| |exact Ho]. by rewrite <- (some_table_same _ m m'). }
  split.
  - intros i sp x [[-> ->]|[_ Hi]]%insert_cases Hx Hlo; [left; by apply fresh_walk|by eapply (cp_plain _ _ _ _ HC)].
  - intros i sp x pa [[-> ->]|[_ Hi]]%insert_cases Hu; [by destruct (fresh_no_page _ _ Hu)|].
    destruct (cp_backed _ _ _ _ HC _ _ _ _ Hi Hu) as (Hdm & j & E & Hj & Ht & Hw). split; [done|]. exists j. split_and!; try done.
    apply Hst; [|done]. rewrite (user_page_same _ m) in Hu by by apply (Hsame i sp Hi).
    destruct (cp_backed _ _ _ _ HC0 _ _ _ _ Hi Hu) as (_ & j' & E' & Hj' & _). assert (j = j') as ->; [|done].
    rewrite E in E'. apply frame_at_inj. lia.
  - intros i h hd f Hh Hf. destruct (cp_held _ _ _ _ HC _ _ _ _ Hh Hf) as (j & -> & Hj & Ht). exists j.
    split_and!; try done. apply Hst; [|done]. destruct (cp_held _ _ _ _ HC0 _ _ _ _ Hh Hf) as (j' & E' & Hj' & _).
    apply frame_at_inj in E' as <-. congruence.
  - apply HC.
  - intros i h hd f a sp x pa Hh Hf [[-> ->]|[_ Ha]]%insert_cases Hu; [by destruct (fresh_no_page _ _ Hu)|]. by eapply (cp_excl _ _ _ _ HC).
  - intros i h hd f a va Hh Ho. destruct (cp_mapping _ _ _ _ HC _ _ _ _ _ _ Hh Ho) as (H1 & H2 & H3 & H4). split_and!; try done.
    intros sp [[-> ->]|[_ Ha]]%insert_cases; [|by apply H4].
    destruct (cp_space _ _ _ _ HC _ _ _ id Hh) as [? ?]; [by rewrite Ho|congruence].
  - intros i h hd a Hh Ha. destruct (cp_space _ _ _ _ HC _ _ _ _ Hh Ha) as [sp Hsp]. exists sp. rewrite Hold; [done|]. intros ->. congruence.
Qed.
End insert.
End fresh.

(** ** The table of address spaces *)

Definition put_space (id : AddressSpaceId) (o : option AddressSpace) (sps : AddressSpaceTable) : AddressSpaceTable :=
  mkAddressSpaceTable (zset (as_entries sps) id o).

Lemma put_space_get id o sps j :
  0 ≤ id < Z.of_nat (length (as_entries sps)) →
  AddressSpaceTable_get (put_space id o sps) j = if decide (j = id) then o else AddressSpaceTable_get sps j.
Proof.
  intros Hr. unfold AddressSpaceTable_get, put_space. simpl. case_decide.
  - subst. by rewrite zget_zset_eq.
  - by rewrite zget_zset_ne.
Qed.

Lemma insert_Done u k :
  match position_none (as_entries (k_spaces k)) with
  | Some id => insert_address_space u k = Done (Ok id, set_k_spaces (put_space id (Some u) (k_spaces k)) k)
  | None => insert_address_space u k = Done (Err u, k)
  end.
Proof.
  unfold insert_address_space, on_spaces, on_part, AddressSpaceTable_insert. mred.
  destruct (position_none (as_entries (k_spaces k))); [done|]. by destruct k.
Qed.

Lemma remove_Done u k id :
  position_none (as_entries (k_spaces k)) = Some id →
  remove_address_space id (set_k_spaces (put_space id (Some u) (k_spaces k)) k) = Done (Some u, k).
Proof.
  intros (Hr & Hn & _)%position_none_Some. unfold remove_address_space, on_spaces, on_part, AddressSpaceTable_remove. mred.
  simpl. rewrite zget_zset_eq by done. unfold bind, put, ret. rewrite zset_twice.
  replace (zset (as_entries (k_spaces k)) id None) with (as_entries (k_spaces k)).
  - by destruct k as [? ? [] ? ? ? ? ? ?].
  - rewrite zset_insert by lia. rewrite zget_lookup in Hn by lia. by rewrite list_insert_id.
Qed.

Lemma kernel_ok_spaces k a sps' :
  kernel_ok k a → (∀ j sp, AddressSpaceTable_get (k_spaces k) j = Some sp → AddressSpaceTable_get sps' j = Some sp) →
  kernel_ok (set_k_spaces sps' k) a.
Proof.
  intros [K1 K2 K3] Hsub. split; [done| |].
  - intros id t Ht. destruct (K2 id t Ht) as [sp Hsp]. exists sp. by apply Hsub.
  - intros id Hid. destruct (K3 id Hid) as (t & sp & Ht & Hsp & R). exists t, sp. split_and!; try done; [by apply Hsub|apply R..].
Qed.

(** ** The system call *)

Section create.
Context (paging : PagingConfig) (k : KState) (a : AbsSched) (l : list FrameState).
Context (W : world paging k a l) (c : TaskId) (t : Tcb) (sp : AddressSpace) (Hca : caller paging k a c t sp l).

Lemma caller_limit j : is_Some (l !! j) → frame_at j < physical_address_limit (pt_config (root sp)).
Proof. rewrite (ca_paging _ _ _ _ _ _ _ Hca). apply W. Qed.

(** CR3 holds the root of the caller, so a frame that was free is not in use there. *)
Lemma fresh_inactive u j s' :
  fresh_space sp u j (k_mem k) s' l → active_root (root u) s' = false.
Proof.
  intros F. unfold active_root. rewrite (fs_cr3 _ _ _ _ _ _ F), (fs_root _ _ _ _ _ _ F). cbn [pt_config pt_frame].
  destruct (ko_cpu _ _ (w_kernel _ _ _ _ W) c (ca_current _ _ _ _ _ _ _ Hca)) as (t' & sp' & Ht & Hs & -> & _).
  rewrite (ca_task _ _ _ _ _ _ _ Hca) in Ht. injection Ht as <-. rewrite (ca_space _ _ _ _ _ _ _ Hca) in Hs. injection Hs as <-.
  pose proof (ca_inv _ _ _ _ _ _ _ Hca) as Hi.
  assert (Hok : table_ok (pt_config (root sp)) l (pt_frame (root sp))).
  { apply (own_table_ok _ _ _ Hi). exists []. split_and!; [constructor|simpl; lia|done]. }
  fold (entry_physical_address (pt_frame (root sp)) (pt_config (root sp))).
  rewrite (entry_physical_address_bits _ _ (pt_frame (root sp))) by (done || apply Hi || apply Hok).
  apply Z.eqb_neq. intros E. pose proof (fs_free _ _ _ _ _ _ F) as Hf. destruct Hok as [_ Hok].
  rewrite E, frame_at_index in Hok. congruence.
Qed.

Lemma new_user_Done :
  ∃ r s', with_address_space (as_id t) (λ caller_as, with_allocator (AddressSpace_new_user caller_as)) k =
      Done (Some r, set_k_mem s' k) ∧
    match r with
    | Ok u => ∃ j, fresh_space sp u j (k_mem k) s' l
    | Err _ => world paging (set_k_mem s' k) a l ∧ unchanged l k (set_k_mem s' k) ∧ Free ∉ l
    end.
Proof.
  destruct (new_user_fresh sp (k_mem k) l (ca_inv _ _ _ _ _ _ _ Hca) caller_limit) as (r & s' & E & Hr).
  exists r, s'. split; [eapply (space_op_Done _ AddressSpace_new_user); [apply Hca|apply W|exact E]|].
  destruct r as [u|e]; [done|]. destruct Hr as (Hfa & Hl & Hk & Hno).
  pose proof Hl as (_ & Hdm & Hcr & _).
  destruct (spaces_kept_frames paging (k_spaces k) (k_mem k) s' l l (w_spaces _ _ _ _ W) Hfa Hdm) as [Hs Hsame].
  { intros j Hj%(some_table_allocated _ _ _ _ _ (w_spaces _ _ _ _ W)). split; [done|apply Hk; by left]. }
  split_and!; [|by exists s'|done].
  apply (world_mem paging k a l W); try done. eapply caps_mono; [apply W|done|by apply same_area_layout|done|done].
Qed.

Context (u : AddressSpace) (j : nat) (s1 : MState) (F : fresh_space sp u j (k_mem k) s1 l).
Abbreviation l1 := (<[j := Allocated]> l).

(** The new page table is destroyed again. *)
Lemma destroy_Done :
  ∃ s2, AddressSpace_destroy u s1 = Done (tt, s2) ∧
    world paging (set_k_mem s2 k) a l ∧ unchanged l k (set_k_mem s2 k).
Proof.
  destruct (fresh_destroy paging (k_spaces k) (k_mem k) s1 l (w_spaces _ _ _ _ W) (as_id t) sp (ca_space _ _ _ _ _ _ _ Hca)
    u j F (fresh_inactive u j s1 F)) as (s2 & E & Hcr & Har & Hs & Hsame & Hdata).
  exists s2. split_and!; [exact E| |by exists s2].
  apply (world_mem paging k a l W); try done. eapply caps_mono; [apply W|done..].
Qed.

Section insert.
Context (id : AddressSpaceId) (Hid : position_none (as_entries (k_spaces k)) = Some id).
Abbreviation sps' := (put_space id (Some u) (k_spaces k)).
Abbreviation k1 := (set_k_spaces sps' (set_k_mem s1 k)).

Lemma new_id_facts :
  AddressSpaceTable_get (k_spaces k) id = None ∧ AddressSpaceTable_get sps' id = Some u ∧
  ∀ i, i ≠ id → AddressSpaceTable_get sps' i = AddressSpaceTable_get (k_spaces k) i.
Proof.
  apply position_none_Some in Hid as (Hr & Hn & _). split_and!.
  - unfold AddressSpaceTable_get. by rewrite Hn.
  - by rewrite put_space_get, decide_True.
  - intros i Hi. by rewrite put_space_get, decide_False.
Qed.

Lemma world_insert : world paging k1 a l1.
Proof.
  destruct new_id_facts as (Hn & Hnew & Hold). pose proof W as [W1 W2 W3 W4 W5].
  pose proof (ca_space _ _ _ _ _ _ _ Hca) as Hsp. split.
  - apply kernel_ok_spaces; [by apply kernel_ok_mem; [|apply F]|]. intros i sp' Hi. simpl in Hi. rewrite Hold; [done|]. intros ->. congruence.
  - done.
  - by eapply insert_spaces.
  - by eapply insert_caps.
  - intros i Hi. apply W5. rewrite !lookup_lt_is_Some, length_insert in *. done.
Qed.

(** The other spaces see nothing of the new one. *)
Lemma insert_same : spaces_same (k_spaces k) (ms_mem (k_mem k)) (ms_mem s1).
Proof. eapply fresh_spaces; [apply W|apply Hca|exact F]. Qed.

Abbreviation new_handle := (mkHandle (ObjAddressSpace id) RIGHTS_RWX).

(** What follows once the space is in the table. *)
Definition hand_out (out : usize) : M KState (result unit Status) :=
  let! r := on_task c (on_handles (HandleTable_push new_handle)) in
  match r with
  | Err handle =>
      match object handle with
      | ObjAddressSpace as_id =>
          let! o := remove_address_space as_id in
          let! address_space := expect o "address space was just inserted" in
          do! with_allocator (AddressSpace_destroy address_space) ;;;
          ret (Err StatusOutOfMemory)
      | _ => panic "internal error: entered unreachable code: pushed handle was not an address space"
      end
  | Ok handle_id => write_user_usize paging out handle_id
  end.

(** The caller got the new space [u] under the number [id] and handle [h]. *)
Record space_created (out h : usize) (k' : KState) : Prop := {
  sc_slot : position_none (handles (tcb_handles t)) = Some h;
  sc_state : ∃ s', k' = set_k_spaces sps' (set_k_handles c t (put_handle h (Some new_handle) (tcb_handles t)) (set_k_mem s' k));
  sc_kind : kind u = User;
  sc_empty : ∀ x, is_u64 x → x < USER_SPACE_END → PageTable_to_physical (root u) (ms_mem (k_mem k')) x = None;
  sc_kernel : ∀ x, is_u64 x → is_canonical (root sp) x = true → 2 ^ 63 ≤ x →
    PageTable_to_physical (root u) (ms_mem (k_mem k')) x = PageTable_to_physical (root sp) (ms_mem (k_mem k)) x ∧
    PageTable_mapping (root u) (ms_mem (k_mem k')) x = PageTable_mapping (root sp) (ms_mem (k_mem k)) x;
  sc_same : spaces_same (k_spaces k) (ms_mem (k_mem k)) (ms_mem (k_mem k'));
  sc_out : vbytes (root sp) (ms_mem (k_mem k')) out USIZE = le_bytes 8 h;
  sc_kept : data_kept l (out_cell sp k out) (k_mem k) (k_mem k');
}.

(** The upper half translates as in the space it was made from. *)
Lemma fresh_kernel_half x :
  is_u64 x → is_canonical (root sp) x = true → 2 ^ 63 ≤ x →
  PageTable_to_physical (root u) (ms_mem s1) x = PageTable_to_physical (root sp) (ms_mem (k_mem k)) x ∧
  PageTable_mapping (root u) (ms_mem s1) x = PageTable_mapping (root sp) (ms_mem (k_mem k)) x.
Proof.
  intros Hx Hc Hhi. destruct (insert_same (as_id t) sp (ca_space _ _ _ _ _ _ _ Hca)) as [Hsame _].
  destruct (Hsame x) as [[<- <-] _].
  destruct (si_space _ _ _ _ (proj1 (fresh_spaces _ _ _ _ _ (w_spaces _ _ _ _ W) _ _ (ca_space _ _ _ _ _ _ _ Hca) _ _ F)) _ _
    (ca_space _ _ _ _ _ _ _ Hca)) as (Hi & _).
  destruct (top_index (root sp) x Hx Hc) as (i & p & Hp & Hlp & Hi256). rewrite (proj2 (Z.leb_le (2 ^ 63) x) Hhi) in Hi256.
  pose proof (path_of_ok (levels (root sp)) x) as Hok. fold (path (root sp) x) in Hok. rewrite Hp in Hok.
  pose proof (fs_root _ _ _ _ _ _ F) as Er. assert (Hcu : is_canonical (root u) x = true) by (rewrite Er; exact Hc).
  assert (Hw : walk (root u) (ms_mem s1) x = walk (root sp) (ms_mem s1) x).
  { unfold walk. replace (path (root u) x) with (i :: p) by (by rewrite Er). rewrite Hp.
    eapply fresh_resolve; [apply W|apply Hca|exact F|by apply Forall_inv in Hok|done]. }
  destruct (view_walk _ _ _ _ (fs_inv _ _ _ _ _ _ F) Hcu) as [-> ->], (view_walk _ _ _ _ Hi Hc) as [-> ->].
  rewrite Hw, Er. done.
Qed.

(** There is a free handle. *)
Lemma hand_out_ok out h :
  is_u64 out → out mod USIZE = 0 → range_valid sp (ms_mem (k_mem k)) out USIZE true →
  position_none (handles (tcb_handles t)) = Some h →
  ∃ k', hand_out out (set_k_interrupts false k1) = Done (Ok tt, k') ∧
    world paging (set_k_interrupts (k_interrupts k) k') a l1 ∧
    space_created out h (set_k_interrupts (k_interrupts k) k').
Proof.
  intros Hout Hal Hv Hh. pose proof (position_none_Some _ _ Hh) as (Hr & _ & _).
  assert (Ht : lookup_task (k_sched k) c = Some t) by apply Hca. set (hs := put_handle h (Some new_handle) (tcb_handles t)).
  set (k2 := set_k_handles c t hs (set_k_interrupts false k1)). destruct new_id_facts as (Hn & Hnew & Hold).
  assert (W2 : world paging k2 a l1).
  { apply world_handles; [apply world_flag, world_insert|done|]. simpl.
    eapply (caps_give (handle_at (k_sched k)) _ _ _ _ c h new_handle); [apply world_insert| | |done|intros i [= <-]; by eexists].
    - intros i h' hd. case_decide as Hi; [|by left]. subst i. unfold hs. rewrite put_handle_get by done.
      case_decide; [intros [= <-]; right; done|]. left. unfold handle_at. by rewrite Ht.
    - by intros g Hg. }
  assert (Hne : as_id t ≠ id) by (intros E; pose proof (ca_space _ _ _ _ _ _ _ Hca); congruence).
  assert (Hca2 : caller paging k2 a c (set_handles hs t) sp l1).
  { assert (Hs2 : AddressSpaceTable_get (k_spaces k2) (as_id t) = Some sp) by (simpl; rewrite Hold by done; apply Hca).
    split; [apply W2|exact (ca_current _ _ _ _ _ _ _ Hca)|by apply lookup_set_k_handles|exact Hs2| |exact (ca_paging _ _ _ _ _ _ _ Hca)].
    by apply (si_space _ _ _ _ (w_spaces _ _ _ _ W2) (as_id t) sp). }
  destruct (world_write paging k2 a l1 W2 c (set_handles hs t) sp Hca2 out h Hout Hal) as (s' & E & W3 & Hb & Hs3 & Hkb).
  { eapply range_valid_same; [apply Hca|apply insert_same|done]. }
  assert (Hu3 : ∀ x, same_page (root u) (ms_mem s1) (ms_mem s') x) by by apply (Hs3 id u).
  exists (set_k_mem s' k2). split_and!; [|by apply world_flag|].
  - unfold hand_out. rewrite (bind_Done _ _ _ (Ok h) k2); [exact E|]. apply on_handles_Done; [done|]. unfold HandleTable_push. mred. by rewrite Hh.
  - split; try done; [by exists s'; destruct k|apply F| | | |].
    + intros x Hx Hlo. simpl. destruct (Hu3 x) as [[-> _] _].
      destruct (PageTable_to_physical (root u) (ms_mem s1) x) as [pa|] eqn:Ep; [|done].
      exfalso. eapply fresh_no_page; [exact F|]. exact (conj Hx (conj Hlo Ep)).
    + intros x Hx Hc Hhi. simpl. destruct (Hu3 x) as [[-> ->] _]. by apply fresh_kernel_half.
    + eapply spaces_same_trans; [apply insert_same|]. intros i sp' Hi. apply (Hs3 i sp'). simpl. rewrite Hold; [done|]. intros ->. congruence.
    + intros i b Hi Hib Hno. simpl. change (ms_mem (k_mem k2)) with (ms_mem s1) in *. rewrite Hkb; [by apply (fs_data _ _ _ _ _ _ F i)|].
      intros (y & Hy & Hc). apply Hno. exists y. split; [done|]. rewrite <- Hc. symmetry. apply vcell_same.
      apply (insert_same (as_id t) sp), Hca.
Qed.

(** There is none: the space is taken out of the table and destroyed. *)
Lemma hand_out_full out :
  position_none (handles (tcb_handles t)) = None →
  ∃ s2, hand_out out (set_k_interrupts false k1) = Done (Err StatusOutOfMemory, set_k_interrupts false (set_k_mem s2 k)) ∧
    world paging (set_k_mem s2 k) a l ∧ unchanged l k (set_k_mem s2 k).
Proof.
  intros Hh. assert (Ht : lookup_task (k_sched k) c = Some t) by apply Hca.
  destruct destroy_Done as (s2 & E & W2 & Hu). exists s2. split_and!; [|done|done].
  unfold hand_out. erewrite bind_Done.
  2: { apply on_handles_Done; [exact Ht|]. unfold HandleTable_push. mred. rewrite Hh. done. }
  cbn [object]. rewrite set_k_handles_id by done.
  change (set_k_interrupts false k1) with (set_k_spaces sps' (set_k_interrupts false (set_k_mem s1 k))).
  rewrite (bind_Done _ _ _ _ _ (remove_Done u (set_k_interrupts false (set_k_mem s1 k)) id Hid)). cbn [expect]. mred.
  rewrite (bind_Done _ _ _ tt (set_k_interrupts false (set_k_mem s2 k))); [done|].
  by rewrite (with_allocator_Done _ _ tt s2); [|apply W|exact E].
Qed.
End insert.
End create.

(** Why [sys_as_create] refuses. *)
Definition as_create_error (k : KState) (t : Tcb) (sp : AddressSpace) (l : list FrameState) (out : usize) (e : Status) : Prop :=
  match e with
  | InvalidArgument => out = 0 ∨ out mod USIZE ≠ 0
  | BadAddress => ¬ range_valid sp (ms_mem (k_mem k)) out USIZE true
  | StatusOutOfMemory => Free ∉ l ∨ position_none (as_entries (k_spaces k)) = None ∨
      position_none (handles (tcb_handles t)) = None
  | _ => False
  end.

Definition as_create_outcome (paging : PagingConfig) (k : KState) (a : AbsSched) (l : list FrameState) (c : TaskId) (t : Tcb)
    (sp : AddressSpace) (out : usize) (o : outcome (result unit Status * KState)) : Prop :=
  ∃ r k' l', o = Done (r, k') ∧ world paging k' a l' ∧
    match r with
    | Ok _ => ∃ u j id h, l !! j = Some Free ∧ l' = <[j := Allocated]> l ∧ pt_frame (root u) = frame_at j ∧
        position_none (as_entries (k_spaces k)) = Some id ∧ space_created k l c t sp u id out h k'
    | Err e => unchanged l k k' ∧ l' = l ∧ as_create_error k t sp l out e
    end.

(** The checks, and the new page table. *)
Lemma as_create_start paging k a l c t sp out :
  world paging k a l → caller paging k a c t sp l → is_u64 out →
  ∃ r s1, self_task c (λ task,
      let? _ := validate_user_range (as_id task) out USIZE true in
      let! o := with_address_space (as_id task)
                  (λ caller_as, with_allocator (AddressSpace_new_user caller_as)) in
      match o with
      | Some (Ok as_space) => ret (Ok as_space)
      | _ => ret (Err StatusOutOfMemory)
      end) k = Done (r, set_k_mem s1 k) ∧
    match r with
    | Ok u => range_valid sp (ms_mem (k_mem k)) out USIZE true ∧ ∃ j, fresh_space sp u j (k_mem k) s1 l
    | Err e => world paging (set_k_mem s1 k) a l ∧ unchanged l k (set_k_mem s1 k) ∧
        (e = BadAddress ∧ ¬ range_valid sp (ms_mem (k_mem k)) out USIZE true ∨ e = StatusOutOfMemory ∧ Free ∉ l)
    end.
Proof.
  intros W Hca Hout. set (k0 := set_k_interrupts false k). pose proof (world_flag _ _ _ _ W false) as W0.
  pose proof (caller_flag _ _ _ _ _ _ _ false Hca) as Hca0.
  destruct (validate_spec k0 (as_id t) sp l out USIZE true) as (r & E & Hr & Hv);
    [apply Hca|apply Hca|done|unfold is_u64, USIZE, W64; lia|]. destruct Hr as [-> | ->].
  2: { exists (Err BadAddress), (k_mem k). split.
       - rewrite set_k_mem_id. erewrite self_task_Done; [|done|by rewrite (bind_ok_Err _ _ _ _ _ E)]. by destruct k.
       - rewrite set_k_mem_id. split_and!; [done|apply unchanged_refl|]. left. split; [done|]. intros H%Hv. done. }
  destruct (new_user_Done paging k0 a l W0 c t sp Hca0) as (r & s1 & E1 & Hr1).
  destruct r as [u|e]; [exists (Ok u), s1|exists (Err StatusOutOfMemory), s1]; split.
  - erewrite self_task_Done; [|done|by rewrite (bind_ok_Ok _ _ _ _ _ E), (bind_Done _ _ _ _ _ E1)]. by destruct k.
  - split; [by apply Hv|exact Hr1].
  - erewrite self_task_Done; [|done|by rewrite (bind_ok_Ok _ _ _ _ _ E), (bind_Done _ _ _ _ _ E1)]. by destruct k.
  - destruct Hr1 as (W1 & (s' & Es & Hsame) & Hno). injection Es as <-. split_and!; [|by exists s1|by right].
    pose proof (world_flag _ _ _ _ W1 (k_interrupts k)) as W2. by destruct k.
Qed.

Lemma as_create_spec paging k a l c t sp out :
  world paging k a l → caller paging k a c t sp l → is_u64 out →
  as_create_outcome paging k a l c t sp out (sys_as_create paging out k).
Proof.
  intros W Hca Hout. unfold sys_as_create. destruct (bad_out_handle out) eqn:Eb.
  { apply bad_out_handle_spec in Eb. exists (Err InvalidArgument), k, l. split_and!; [done|done|apply unchanged_refl|done|done]. }
  assert (Hal : out mod USIZE = 0).
  { destruct (decide (out mod USIZE = 0)) as [|Hn]; [done|]. by rewrite (proj2 (bad_out_handle_spec out)) in Eb by (by right). }
  rewrite (bind_Done _ _ _ _ _ (current_task_Done _ _ _ _ _ _ _ Hca)).
  destruct (as_create_start paging k a l c t sp out W Hca Hout) as (r & s1 & E & Hr). destruct r as [u|e].
  2: { rewrite (bind_ok_Err _ _ _ _ _ E). destruct Hr as (W1 & Hu & Hc). exists (Err e), (set_k_mem s1 k), l.
       split_and!; try done. destruct Hc as [[-> ?]|[-> ?]]; [done|by left]. }
  rewrite (bind_ok_Ok _ _ _ _ _ E). destruct Hr as (Hv & j & F).
  destruct (destroy_Done paging k a l W c t sp Hca u j s1 F) as (s2 & Ed & W2 & Hu2).
  pose proof (insert_Done u (set_k_mem s1 k)) as Hi. change (k_spaces (set_k_mem s1 k)) with (k_spaces k) in Hi.
  destruct (position_none (as_entries (k_spaces k))) as [id|] eqn:Eid; rewrite (bind_Done _ _ _ _ _ Hi).
  2: { rewrite (bind_Done _ _ _ tt (set_k_mem s2 k)).
       - exists (Err StatusOutOfMemory), (set_k_mem s2 k), l. split_and!; try done. right. by left.
       - rewrite (with_allocator_Done _ _ tt s2); [by destruct k|apply W|exact Ed]. }
  set (k1 := set_k_spaces _ _). assert (Ht1 : lookup_task (k_sched k1) c = Some t) by apply Hca.
  assert (Hcur : current_task k1 = Done (c, k1)).
  { unfold current_task. mred. simpl.
    by rewrite (sr_current _ _ (ko_sched _ _ (ca_ok _ _ _ _ _ _ _ Hca))), (ca_current _ _ _ _ _ _ _ Hca). }
  rewrite (bind_Done _ _ _ _ _ Hcur). fold (hand_out paging c id out).
  destruct (position_none (handles (tcb_handles t))) as [h|] eqn:Eh.
  - destruct (hand_out_ok paging k a l W c t sp Hca u j s1 F id Eid out h Hout Hal Hv Eh) as (k' & Ek & W' & Hc).
    rewrite (self_task_mut_Done _ _ _ _ _ _ Ht1 Ek). eexists (Ok tt), _, _. split_and!; [done|exact W'|].
    exists u, j, id, h. split_and!; [apply F|done|by rewrite (fs_root _ _ _ _ _ _ F)|done|done].
  - destruct (hand_out_full paging k a l W c t sp Hca u j s1 F id Eid out Eh) as (s3 & Ek & W' & Hu3).
    rewrite (self_task_mut_Done _ _ _ _ _ _ Ht1 Ek). exists (Err StatusOutOfMemory), (set_k_mem s3 k), l.
    split_and!; [by destruct k|done|done|done|]. right. by right.
Qed.

(** * Theorems *)

(** C16: [sys_as_create] always returns.  On success there is one more address space, under a number
    that was free: nothing is mapped in its lower half, its upper half translates as the caller's,
    and no translation of any other space differs; the first free slot of the caller's table holds
    a handle to it and the slot's number is in the user variable, the only bytes of a frame that holds data that
    changed.  On failure, the new page
    table's frame is free again, the table of address spaces and every translation are as before, and no
    byte of any frame that holds data has changed, the user variable included. *)
Theorem as_create_correct (paging : PagingConfig) (k : KState) (a : AbsSched) (l : list FrameState)
    (c : TaskId) (t : Tcb) (sp : AddressSpace) (out : usize) :
  world paging k a l → caller paging k a c t sp l → is_u64 out →
  as_create_outcome paging k a l c t sp out (sys_as_create paging out k).
Proof. apply as_create_spec. Qed.

(** Task 0 of the concrete run creates a second address space. *)
Lemma as_create_correct_witness :
  ∃ k' l u h, sys_as_create demo_config 0x3F000 demo_call = Done (Ok tt, k') ∧
    space_created demo_call l 0 demo_caller_task (demo_space User) u 1 0x3F000 h k'.
Proof.
  destruct demo_call_world as (l & W & Hca).
  destruct (as_create_correct demo_config demo_call demo_abs_running l 0 demo_caller_task (demo_space User) 0x3F000 W Hca)
    as (r & k' & l' & E & _ & Hr); [unfold is_u64, W64; lia|].
  assert (r = Ok tt) as -> by (eapply returned_Done; [exact E|vm_compute; reflexivity]).
  destruct Hr as (u & j & id & h & _ & _ & _ & Hid & Hc).
  assert (Hid1 : position_none (as_entries (k_spaces demo_call)) = Some 1) by (vm_compute; reflexivity).
  rewrite Hid in Hid1. injection Hid1 as ->. exists k', l, u, h. split; [exact E|exact Hc].
Defined.
