(* ===== verification/Console.v ===== *)
(** * Writing to the console

    [sys_write] of [src/syscall/table.rs] sends a user buffer over the serial port in chunks of at
    most 128 bytes: together the chunks are the buffer, whatever its length. *)

From S2P Require Import Prelude Memory Bytes Frame Paging PageTree PageMap PageUnmap AddressSpace VirtMem Stack Spaces.
From S2P Require Import Ring Tcb Kernel Scheduler Registers Tasks User Syscall Device Serial Ipc Caps Calls.

(** ** User memory *)

Section memory.
Context (paging : PagingConfig) (k : KState) (a : AbsSched) (l : list FrameState).
Context (W : world paging k a l) (c : TaskId) (t : Tcb) (sp : AddressSpace) (Hca : caller paging k a c t sp l).

(** What a task may read is there. *)
Lemma world_backed start len :
  0 ≤ start → start + len ≤ USER_SPACE_END → user_backed sp (k_mem k) start len.
Proof.
  intros H0 Hend x Hx Hv.
  assert (Hx64 : is_u64 x ∧ x < USER_SPACE_END) by (unfold is_u64, W64, USER_SPACE_END in *; lia).
  destruct Hx64 as [Hx64 Hlo]. pose proof (user_canonical (root sp) x Hx64 Hlo) as Hc.
  pose proof (ca_space _ _ _ _ _ _ _ Hca) as Hsp. pose proof (w_caps _ _ _ _ W) as HC.
  destruct (cp_plain _ _ _ _ HC _ _ _ Hsp Hx64 Hlo) as [Hn|Hl].
  - unfold page_valid, AddressSpace_mapping in Hv.
    rewrite (proj2 (view_walk _ _ _ _ (ca_inv _ _ _ _ _ _ _ Hca) Hc)), Hn in Hv. done.
  - assert (Hsome : is_Some (PageTable_to_physical (root sp) (ms_mem (k_mem k)) x))
      by (by eapply walk_to_leaf_translates; [apply Hca|..]).
    destruct Hsome as [pa Hpa].
    destruct (cp_backed _ _ _ _ HC _ _ _ _ Hsp (conj Hx64 (conj Hlo Hpa))) as [Hd _]. unfold vcell. by rewrite Hpa.
Qed.

(** Writing to a range that was checked. *)
Lemma world_write_user dst b :
  0 ≤ dst → range_valid sp (ms_mem (k_mem k)) dst (slice_len b) true →
  ∃ s', write_user paging dst b k = Done (Ok tt, set_k_mem s' k) ∧ world paging (set_k_mem s' k) a l ∧
    spaces_same (k_spaces k) (ms_mem (k_mem k)) (ms_mem s').
Proof.
  intros H0 Hr. pose proof Hr as (R1 & R2 & R3).
  assert (HP : ∀ x, dst ≤ x < dst + slice_len b → is_u64 x ∧ x < USER_SPACE_END ∧ page_valid sp (ms_mem (k_mem k)) true x = true).
  { intros x Hx. specialize (R3 x Hx). unfold is_u64, W64, USER_SPACE_END in *. split_and!; [lia..|done]. }
  assert (Hda := λ x Hx, valid_data paging k a l W c t sp Hca x (proj1 (HP x Hx)) (proj1 (proj2 (HP x Hx))) (proj2 (proj2 (HP x Hx)))).
  destruct (write_user_data paging sp l (frame_of k sp) k dst b) as (s' & E & V); try done.
  { pose proof (active_table_root _ _ _ _ _ _ _ Hca (k_interrupts k)) as Ea. by rewrite set_k_interrupts_id in Ea. }
  { apply Hca. } { intros x Hx. by apply Hda. }
  destruct (spaces_stored paging (k_spaces k) (root sp) (frame_of k sp) b dst (k_mem k) s' l) as [Hs Hsame];
    [apply W|apply Hca|done| |].
  { intros i Hi. apply Hda. unfold slice_len. lia. }
  exists s'. split_and!; try done. apply (world_mem paging k a l W); try done; [apply V|]. eapply caps_mono; [apply W|done|apply same_area_fa, V|done|done].
Qed.
End memory.

(** A result that is written only through a pointer that is not null. *)
Lemma world_write_out paging k a l c t sp ptr v :
  world paging k a l → caller paging k a c t sp l → is_u64 ptr → out_ok sp (ms_mem (k_mem k)) ptr →
  ∃ s', (if negb (ptr =? 0) then write_user_usize paging ptr v else ret (Ok tt)) k = Done (Ok tt, set_k_mem s' k) ∧
    world paging (set_k_mem s' k) a l ∧ spaces_same (k_spaces k) (ms_mem (k_mem k)) (ms_mem s') ∧
    (ptr ≠ 0 → vbytes (root sp) (ms_mem s') ptr USIZE = le_bytes 8 v).
Proof.
  intros W Hca Hp Hok. destruct (Z.eqb_spec ptr 0) as [E|E]; cbn [negb].
  - exists (k_mem k). rewrite set_k_mem_id. split_and!; [done|done|apply spaces_same_refl|done].
  - destruct Hok as [?|[Hal Hv]]; [done|].
    destruct (world_write paging k a l W c t sp Hca ptr v Hp Hal Hv) as (s' & Es & W' & Hb & Hs & _). by exists s'.
Qed.

(** ** The console *)

(** The kernel after bytes [b] were sent. *)
Definition sent (b : bytes) (k : KState) : KState := set_k_serial (k_serial k ++ (b ≫= wire)) k.

Lemma sent_app b1 b2 k : sent b2 (sent b1 k) = sent (b1 ++ b2) k.
Proof. unfold sent. simpl. by rewrite bind_app, app_assoc. Qed.

Lemma sent_nil k : sent [] k = k.
Proof. unfold sent. simpl. rewrite app_nil_r. by destruct k. Qed.

Lemma vbytes_app cpu m va n1 n2 :
  0 ≤ n1 → 0 ≤ n2 → vbytes cpu m va (n1 + n2) = vbytes cpu m va n1 ++ vbytes cpu m (va + n1) n2.
Proof.
  intros H1 H2. unfold vbytes, range. rewrite !Z.sub_0_r, seqZ_app, fmap_app by done. f_equal.
  rewrite Z.add_0_l. apply list_eq. intros i. rewrite !list_lookup_fmap.
  destruct (decide (Z.of_nat i < n2)) as [Hi|Hi].
  - rewrite !lookup_seqZ_lt by done. simpl. f_equal. f_equal. lia.
  - by rewrite !lookup_seqZ_ge by lia.
Qed.

(** The invariant says nothing about the serial port. *)
Lemma world_sent paging k a l b : world paging k a l → world paging (sent b k) a l.
Proof. intros [[K1 K2 K3] W2 W3 W4 W5]. by split. Qed.

Lemma caller_sent paging k a c t sp l b : caller paging k a c t sp l → caller paging (sent b k) a c t sp l.
Proof. intros [[K1 K2 K3] C2 C3 C4 C5 C6]. by split. Qed.

Section write.
Context (paging : PagingConfig) (a : AbsSched) (l : list FrameState) (c : TaskId) (t : Tcb) (sp : AddressSpace).
Context (m : memory) (buf_ptr len : usize) (Hb : is_u64 buf_ptr) (Hl : is_u64 len).
Context (Hv : range_valid sp m buf_ptr len false).
Context (Hback : ∀ x, buf_ptr ≤ x < buf_ptr + len → page_valid sp m false x = true → is_Some (vcell (root sp) m x)).

(** The loop, from the point where [written] bytes have been sent. *)
Lemma write_chunks_spec fuel k written :
  caller paging k a c t sp l → ms_mem (k_mem k) = m → 0 ≤ written ≤ len → len - written ≤ 128 * (Z.of_nat fuel - 1) →
  write_chunks paging fuel buf_ptr len written k =
    Done (Ok len, sent (vbytes (root sp) m (buf_ptr + written) (len - written)) k).
Proof.
  revert k written. induction fuel as [|fuel IH]; intros k written Hca Hm Hw Hf; [lia|]. cbn [write_chunks].
  pose proof Hv as (V1 & V2 & V3). destruct (Z.ltb_spec written len) as [Hlt|Hge].
  2: { assert (written = len) as -> by lia. rewrite Z.sub_diag. unfold vbytes, range. simpl. by rewrite sent_nil. }
  set (n := Z.min (len - written) 128).
  rewrite (bind_Done _ _ _ _ _ (usub_le len written k ltac:(lia))).
  rewrite (bind_Done _ _ _ _ _ (uadd_lt buf_ptr written k ltac:(unfold USER_SPACE_END, W64 in *; lia))). fold n.
  rewrite (bind_ok_Ok _ _ _ (vbytes (root sp) m (buf_ptr + written) n) k).
  2: { rewrite <- Hm. apply (read_user_Done paging k a c t sp l Hca); [unfold is_u64 in *; lia|lia| |].
       - rewrite Hm. split_and!; [lia|lia|]. intros x Hx. apply V3. lia.
       - intros x Hx. rewrite Hm. apply Hback. lia. }
  rewrite (bind_Done _ _ _ _ _ (serial_write_bytes_spec _ k)). fold (sent (vbytes (root sp) m (buf_ptr + written) n) k).
  rewrite (bind_Done _ _ _ _ _ (uadd_lt written n _ ltac:(unfold is_u64, W64 in *; lia))), IH; [|by apply caller_sent|done|lia|lia]. rewrite sent_app.
  do 3 f_equal. rewrite Z.add_assoc, <- vbytes_app by lia. f_equal. lia.
Qed.
End write.

(** Why [sys_write] refuses. *)
Definition write_error (sp : AddressSpace) (m : memory) (fd buf_ptr len out_ptr : usize) (e : Status) : Prop :=
  match e with
  | BadFileDescriptor => fd ≠ 1 ∧ fd ≠ 2
  | BadAddress => ¬ range_valid sp m buf_ptr len false ∨ out_ptr ≠ 0 ∧ ¬ range_valid sp m out_ptr USIZE true
  | InvalidArgument => out_ptr ≠ 0 ∧ out_ptr mod USIZE ≠ 0
  | _ => False
  end.

(** The checks of [sys_write]. *)
Lemma write_check_spec paging k a l c t sp buf_ptr len out_ptr :
  caller paging k a c t sp l → is_u64 buf_ptr → is_u64 len → is_u64 out_ptr →
  ∃ r, self_task c (λ task,
      let? _ := validate_user_range (as_id task) buf_ptr len false in
      check_out_ptr (as_id task) out_ptr) k = Done (r, k) ∧
    match r with
    | Ok _ => range_valid sp (ms_mem (k_mem k)) buf_ptr len false ∧ out_ok sp (ms_mem (k_mem k)) out_ptr
    | Err e => ∀ fd, write_error sp (ms_mem (k_mem k)) fd buf_ptr len out_ptr e
    end.
Proof.
  intros Hca Hb Hl Ho. set (k0 := set_k_interrupts false k).
  destruct (validate_spec k0 (as_id t) sp l buf_ptr len false) as (r & E & Hr & Hv); [apply Hca|apply Hca|done|done|].
  assert (Hk : set_k_interrupts (k_interrupts k) k0 = k) by (by destruct k). destruct Hr as [-> | ->].
  2: { exists (Err BadAddress). split; [|intros fd; left; intros H; by apply Hv in H].
       by erewrite (self_task_Done _ _ _ _ _ _ _ Hca), Hk by (by rewrite (bind_ok_Err _ _ _ _ _ E)). }
  unfold check_out_ptr. destruct (Z.eqb_spec out_ptr 0) as [Ez|Ez].
  { exists (Ok tt). split; [|split; [by apply Hv|by left]].
    by erewrite (self_task_Done _ _ _ _ _ _ _ Hca), Hk by (by rewrite (bind_ok_Ok _ _ _ _ _ E)). }
  destruct (Z.eqb_spec (out_ptr mod USIZE) 0) as [Ea|Ea].
  2: { exists (Err InvalidArgument). split; [|by intros fd].
       by erewrite (self_task_Done _ _ _ _ _ _ _ Hca), Hk by (by rewrite (bind_ok_Ok _ _ _ _ _ E)). }
  destruct (validate_spec k0 (as_id t) sp l out_ptr USIZE true) as (r & E' & Hr & Hv');
    [apply Hca|apply Hca|done|unfold is_u64, USIZE, W64; lia|].
  exists r. split; [by erewrite (self_task_Done _ _ _ _ _ _ _ Hca), Hk by (rewrite (bind_ok_Ok _ _ _ _ _ E); exact E')|].
  destruct Hr as [-> | ->]; [split; [by apply Hv|right; split; [done|by apply Hv']]|].
  intros fd. right. split; [done|]. intros H. by apply Hv' in H.
Qed.

Lemma write_spec paging k a l c t sp fd buf_ptr len out_ptr :
  world paging k a l → caller paging k a c t sp l → is_u64 buf_ptr → is_u64 len → is_u64 out_ptr →
  ∃ r k', sys_write paging fd buf_ptr len out_ptr k = Done (r, k') ∧ world paging k' a l ∧
    match r with
    | Ok _ => (fd = 1 ∨ fd = 2) ∧ range_valid sp (ms_mem (k_mem k)) buf_ptr len false ∧ out_ok sp (ms_mem (k_mem k)) out_ptr ∧
        ∃ s', k' = set_k_mem s' (sent (vbytes (root sp) (ms_mem (k_mem k)) buf_ptr len) k) ∧
          spaces_same (k_spaces k) (ms_mem (k_mem k)) (ms_mem s') ∧
          (out_ptr ≠ 0 → vbytes (root sp) (ms_mem s') out_ptr USIZE = le_bytes 8 len)
    | Err e => k' = k ∧ write_error sp (ms_mem (k_mem k)) fd buf_ptr len out_ptr e
    end.
Proof.
  intros W Hca Hb Hl Ho. unfold sys_write.
  destruct (negb (fd =? 1) && negb (fd =? 2)) eqn:Efd.
  { apply andb_true_iff in Efd as [E1 E2]. rewrite !negb_true_iff, Z.eqb_neq in *. by exists (Err BadFileDescriptor), k. }
  assert (Hfd : fd = 1 ∨ fd = 2).
  { apply andb_false_iff in Efd. rewrite !negb_false_iff, !Z.eqb_eq in Efd. done. }
  rewrite (bind_Done _ _ _ _ _ (current_task_Done _ _ _ _ _ _ _ Hca)).
  destruct (write_check_spec paging k a l c t sp buf_ptr len out_ptr Hca Hb Hl Ho) as (r & E & Hr).
  destruct r as [[]|e]; [rewrite (bind_ok_Ok _ _ _ _ _ E)|rewrite (bind_ok_Err _ _ _ _ _ E)].
  2: { by exists (Err e), k. }
  destruct Hr as (Hv & Hok). pose proof Hv as (_ & Hend & _).
  rewrite (bind_ok_Ok _ _ _ len (sent (vbytes (root sp) (ms_mem (k_mem k)) buf_ptr len) k)).
  2: { erewrite (write_chunks_spec paging a l c t sp (ms_mem (k_mem k)) buf_ptr len Hb Hl Hv); [by rewrite Z.add_0_r, Z.sub_0_r| |done|done| |].
       - apply (world_backed paging k a l W c t sp Hca); [apply Hb|done].
       - unfold is_u64 in Hl. lia.
       - unfold div_ceil, is_u64 in *. assert (0 ≤ (len + 128 - 1) / 128) by (apply Z.div_pos; lia).
         rewrite Nat2Z.inj_succ, Z2Nat.id by done. dmlia. }
  destruct (world_write_out paging (sent (vbytes (root sp) (ms_mem (k_mem k)) buf_ptr len) k) a l c t sp out_ptr len)
    as (s' & E' & W' & Hs & Hout); [by apply world_sent|by apply caller_sent|done|done|].
  exists (Ok tt), (set_k_mem s' (sent (vbytes (root sp) (ms_mem (k_mem k)) buf_ptr len) k)). split_and!; try done. by exists s'.
Qed.

(** * Theorems *)

(** C19: [sys_write] always returns, in chunks of at most 128 bytes whatever the length.  Through a valid
    buffer and a valid or null result pointer it sends exactly the bytes of the buffer in order,
    a carriage return before every newline, and leaves their number at the result pointer; no
    translation of any address space differs.  A bad descriptor, buffer or pointer is
    reported before anything is sent, and nothing has changed. *)
Theorem write_correct (paging : PagingConfig) (k : KState) (a : AbsSched) (l : list FrameState) (c : TaskId) (t : Tcb)
    (sp : AddressSpace) (fd buf_ptr len out_ptr : usize) :
  world paging k a l → caller paging k a c t sp l → is_u64 buf_ptr → is_u64 len → is_u64 out_ptr →
  ∃ r k', sys_write paging fd buf_ptr len out_ptr k = Done (r, k') ∧ world paging k' a l ∧
    match r with
    | Ok _ => (fd = 1 ∨ fd = 2) ∧ range_valid sp (ms_mem (k_mem k)) buf_ptr len false ∧ out_ok sp (ms_mem (k_mem k)) out_ptr ∧
        ∃ s', k' = set_k_mem s' (sent (vbytes (root sp) (ms_mem (k_mem k)) buf_ptr len) k) ∧
          spaces_same (k_spaces k) (ms_mem (k_mem k)) (ms_mem s') ∧
          (out_ptr ≠ 0 → vbytes (root sp) (ms_mem s') out_ptr USIZE = le_bytes 8 len)
    | Err e => k' = k ∧ write_error sp (ms_mem (k_mem k)) fd buf_ptr len out_ptr e
    end.
Proof. apply write_spec. Qed.

(** Task 0 of the concrete run writes 300 bytes, in three chunks. *)
Lemma write_correct_witness :
  ∃ k' s', sys_write demo_config 1 0x3F010 300 0x3F000 demo_call = Done (Ok tt, k') ∧
    k' = set_k_mem s' (sent (vbytes (root (demo_space User)) (ms_mem (k_mem demo_call)) 0x3F010 300) demo_call).
Proof.
  destruct demo_call_world as (l & W & Hca).
  destruct (write_correct demo_config demo_call demo_abs_running l 0 demo_caller_task (demo_space User) 1 0x3F010 300 0x3F000 W Hca)
    as (r & k' & E & _ & Hr); [unfold is_u64, W64; lia..|].
  assert (r = Ok tt) as -> by (eapply returned_Done; [exact E|vm_compute; reflexivity]).
  destruct Hr as (_ & _ & _ & s' & Ek & _). exists k', s'. split; [exact E|exact Ek].
Defined.
