(* ===== verification/Keeps.v ===== *)
(** * Computations that keep memory, handles and mailboxes

    The operations of the scheduler change which task runs, and nothing that tasks own.  A
    computation that keeps the memory and what the tasks own is recognised by its structure, by
    instances of a class. *)

From S2P Require Import Prelude Memory Bytes Frame Paging PageTree PageMap PageUnmap AddressSpace VirtMem Stack Spaces.
From S2P Require Import Ring Tcb Kernel Scheduler Registers Tasks User Syscall Ipc Caps Calls.

(** What a task owns. *)
Definition task_view (s : Scheduler) (id : TaskId) : option (HandleTable * AddressSpaceId * Mailbox) :=
  (λ t, (tcb_handles t, as_id t, mailbox t)) <$> lookup_task s id.

Lemma handle_at_view s id h : handle_at s id h = v ← task_view s id; HandleTable_get v.1.1 h.
Proof. unfold handle_at, task_view. by destruct (lookup_task s id). Qed.

(** ** Computations of the kernel *)

Record keeps (k k' : KState) : Prop := {
  kp_set : k_allocator_set k' = k_allocator_set k;
  kp_spaces : k_spaces k' = k_spaces k;
  kp_mem : ms_mem (k_mem k') = ms_mem (k_mem k);
  kp_fa : ms_fa (k_mem k') = ms_fa (k_mem k);
  kp_tasks : ∀ id, task_view (k_sched k') id = task_view (k_sched k) id;
}.

#[export] Instance keeps_preorder : PreOrder keeps.
Proof.
  split; [by intros k; split|]. intros k1 k2 k3 [A1 A2 A3 A4 A5] [B1 B2 B3 B4 B5].
  split; [congruence..|]. intros id. by rewrite B5.
Qed.

Class Keeping {A} (c : M KState A) : Prop := keeping k r k' : c k = Done (r, k') → keeps k k'.
Class SKeeping {A} (c : M Scheduler A) : Prop :=
  skeeping s r s' : c s = Done (r, s') → ∀ id, task_view s' id = task_view s id.

#[export] Instance keeping_ret {A} (a : A) : Keeping (ret a).
Proof. by intros k r k' [= <- <-]. Qed.
#[export] Instance keeping_get : Keeping get.
Proof. by intros k r k' [= <- <-]. Qed.
#[export] Instance keeping_gets {A} (f : KState → A) : Keeping (gets f).
Proof. by intros k r k' [= <- <-]. Qed.
#[export] Instance keeping_panic {A} why : Keeping (A := A) (panic why).
Proof. by intros k r k'. Qed.
#[export] Instance keeping_expect {A} (o : option A) why : Keeping (expect o why).
Proof. destruct o; apply _. Qed.
#[export] Instance keeping_massert b why : Keeping (massert b why).
Proof. destruct b; apply _. Qed.
#[export] Instance keeping_uadd x y : Keeping (uadd x y).
Proof. apply _. Qed.
#[export] Instance keeping_bind {A B} (c : M KState A) (f : A → M KState B) :
  Keeping c → (∀ a, Keeping (f a)) → Keeping (bind c f).
Proof.
  intros Hc Hf k r k' E. apply bind_Done_inv in E as (a & k1 & E1 & E2). etrans; [by eapply Hc|by eapply Hf].
Qed.
#[export] Instance keeping_bind_ok {A B E} (c : M KState (result A E)) (f : A → M KState (result B E)) :
  Keeping c → (∀ a, Keeping (f a)) → Keeping (bind_ok c f).
Proof. intros Hc Hf. unfold bind_ok. apply keeping_bind; [done|]. intros []; apply _. Qed.

#[export] Instance keeping_flag b : Keeping (modify (set_k_interrupts b)).
Proof. by intros k r k' [= <- <-]. Qed.
#[export] Instance keeping_context x : Keeping (modify (set_k_context x)).
Proof. by intros k r k' [= <- <-]. Qed.
#[export] Instance keeping_stacks v : Keeping (modify (set_k_stacks v)).
Proof. by intros k r k' [= <- <-]. Qed.

#[export] Instance keeping_save : Keeping disable_interrupts_and_save.
Proof. by intros k r k' [= <- <-]. Qed.
#[export] Instance keeping_masked {A} (body : M KState A) : Keeping body → Keeping (with_interrupts_masked body).
Proof. intros H. unfold with_interrupts_masked, restore_interrupts. apply _. Qed.

#[export] Instance keeping_sched {A} (c : M Scheduler A) : SKeeping c → Keeping (on_sched c).
Proof.
  intros H k r k'. unfold on_sched, on_part. destruct (c (k_sched k)) as [[x s]|w|] eqn:E; [|done|done].
  intros [= <- <-]. split; try done. intros id. by eapply H.
Qed.

#[export] Instance keeping_activate sp : Keeping (on_memory (AddressSpace_activate sp)).
Proof. by intros k r k' [= <- <-]. Qed.

#[export] Instance keeping_space {A} id (f : AddressSpace → M KState A) :
  (∀ sp, Keeping (f sp)) → Keeping (with_address_space id f).
Proof.
  intros Hf. unfold with_address_space. apply keeping_masked, keeping_bind; [apply _|]. intros k.
  destruct (AddressSpaceTable_get (k_spaces k) id); apply _.
Qed.

#[export] Instance keeping_perform sw : Keeping (Switch_perform sw).
Proof.
  unfold Switch_perform, set_kernel_stack, switch_context. apply keeping_bind; [|apply _].
  destruct (activate_address_space sw); apply _.
Qed.

(** ** The scheduler *)

#[export] Instance skeeping_ret {A} (a : A) : SKeeping (ret a).
Proof. by intros s r s' [= <- <-]. Qed.
#[export] Instance skeeping_get : SKeeping get.
Proof. by intros s r s' [= <- <-]. Qed.
#[export] Instance skeeping_halt {A} : SKeeping (A := A) halt.
Proof. by intros s r s'. Qed.
#[export] Instance skeeping_expect {A} (o : option A) why : SKeeping (expect o why).
Proof. destruct o; [apply _|by intros s r s']. Qed.
#[export] Instance skeeping_massert b why : SKeeping (massert b why).
Proof. destruct b; [apply _|by intros s r s']. Qed.
#[export] Instance skeeping_bind {A B} (c : M Scheduler A) (f : A → M Scheduler B) :
  SKeeping c → (∀ a, SKeeping (f a)) → SKeeping (bind c f).
Proof.
  intros Hc Hf s r s' E id. apply bind_Done_inv in E as (a & s1 & E1 & E2).
  rewrite (Hf a _ _ _ E2). by eapply Hc.
Qed.
#[export] Instance skeeping_current c : SKeeping (modify (set_current c)).
Proof. by intros s r s' [= <- <-]. Qed.
#[export] Instance skeeping_ready {A} (c : M ReadyQueue A) : SKeeping (on_ready c).
Proof.
  intros s r s'. unfold on_ready, on_part. destruct (c (ready s)) as [[x q]|w|]; [|done|done].
  by intros [= <- <-].
Qed.

(** Replacing a task by one that owns the same. *)
Lemma task_view_set s id t t' id' :
  zget (tasks s) id = Some (Some t) → tcb_handles t' = tcb_handles t → as_id t' = as_id t → mailbox t' = mailbox t →
  task_view (set_tasks (zset (tasks s) id (Some t')) s) id' = task_view s id'.
Proof.
  intros Ht E1 E2 E3. unfold task_view, lookup_task. simpl. destruct (decide (id' = id)) as [->|Hne].
  - rewrite zget_zset_eq, Ht by (by eapply zget_Some_lt). simpl. by rewrite E1, E2, E3.
  - by rewrite zget_zset_ne.
Qed.

#[export] Instance skeeping_state id st : SKeeping (set_task_state id st).
Proof.
  intros s r s' E id'. unfold set_task_state, task_at in E. rewrite bind_assoc in E. revert E. mred.
  destruct (zget (tasks s) id) as [[t|]|] eqn:Et; simpl; [|done|done]. intros [= <- <-].
  by eapply task_view_set.
Qed.

#[export] Instance skeeping_switch c n : SKeeping (make_switch c n).
Proof. unfold make_switch, task_at. apply _. Qed.

#[export] Instance keeping_block reason : Keeping (block_current reason).
Proof.
  unfold block_current. apply keeping_bind; [apply _|]. intros b. apply keeping_bind; [|apply _].
  apply keeping_sched, skeeping_bind; [apply _|]. intros []; apply _.
Qed.

#[export] Instance keeping_yield : Keeping yield_current.
Proof.
  unfold yield_current, restore_interrupts. apply keeping_bind; [apply _|]. intros b.
  apply keeping_bind; [apply _|]. intros []; apply _.
Qed.

#[export] Instance keeping_exit reason : Keeping (exit_current reason).
Proof.
  unfold exit_current, disable_interrupts. apply keeping_bind; [apply _|]. intros _. apply keeping_bind; [|apply _].
  apply keeping_sched, skeeping_bind; [apply _|]. intros s. apply skeeping_bind; [apply _|]. intros c.
  apply skeeping_bind; [apply _|]. intros []; apply _.
Qed.

#[export] Instance keeping_unblock id : Keeping (unblock id).
Proof.
  unfold unblock. apply keeping_masked, keeping_sched. intros s r s' E id'. revert E. mred.
  destruct (zget (tasks s) id) as [[t|]|] eqn:Et; cbn [expect]; mred; [|by intros [= <- <-]|done].
  destruct (state t); try by intros [= <- <-]. unfold set_task. mred. intros E.
  assert (Hk : SKeeping (let! pushed := on_ready (ReadyQueue_push_back id) in
    massert pushed "assertion failed: scheduler.ready.push_back(id)")) by apply _.
  rewrite (Hk _ _ _ E). by eapply task_view_set.
Qed.

#[export] Instance keeping_start : Keeping start.
Proof.
  unfold start, disable_interrupts. apply keeping_bind; [apply _|]. intros _. apply keeping_bind; [|apply _].
  apply keeping_sched, skeeping_bind; [apply _|]. intros o. apply skeeping_bind; [apply _|]. intros n.
  intros s r s' E id'. revert E. mred. destruct (zget (tasks s) n) as [[t|]|] eqn:Et; simpl; [|done|done].
  unfold set_task. mred. intros [= <- <-]. unfold task_view. change (lookup_task (set_current ?c ?s0) ?i) with (lookup_task s0 i).
  by eapply task_view_set.
Qed.

Lemma run_op_keeps op : Keeping (run_op op).
Proof. destruct op; simpl; apply _. Qed.

(** ** What it means for the invariant of handles and pages *)

Lemma pt_inv_ext rt s s' l : ms_mem s' = ms_mem s → ms_fa s' = ms_fa s → pt_inv rt s l → pt_inv rt s' l.
Proof. destruct s, s'. simpl. intros -> -> [H1 [] H3 H4]. by split. Qed.

Lemma spaces_inv_ext paging sps s s' l :
  ms_mem s' = ms_mem s → ms_fa s' = ms_fa s → spaces_inv paging sps s l → spaces_inv paging sps s' l.
Proof.
  intros Em Ef [H1 H2 H3]. split.
  - destruct s, s'. simpl in *. subst. by destruct H1.
  - intros id sp Hs. destruct (H2 id sp Hs) as (Hi & Hr). split; [by eapply pt_inv_ext|done].
  - intros id id' sp sp' Hne Hs Hs'. rewrite Em. by eapply H3.
Qed.

Lemma world_keeps paging k k' a a' l : world paging k a l → keeps k k' → kernel_ok k' a' → world paging k' a' l.
Proof.
  intros [W1 W2 W3 W4 W5] [K1 K2 K3 K4 K5] Hk. split; [done|congruence| | |done].
  - rewrite K2. by eapply spaces_inv_ext.
  - rewrite K2. eapply caps_drop; [eapply caps_ext; [exact K3|exact K4|exact W4]|]. intros id h hd. by rewrite !handle_at_view, K5.
Qed.
