(* ===== verification/System.v ===== *)
(** * The calls of all tasks

    What every system call but [sys_task_create] does to the invariant of the kernel: handles and
    pages as in [Caps], and in every mailbox a queue of well-formed messages.  A call that
    switches away leaves the rest of it behind, which keeps the invariant as well whenever it is
    run. *)

From S2P Require Import Prelude Memory Bytes Frame Paging PageTree PageMap PageUnmap AddressSpace VirtMem Stack Spaces.
From S2P Require Import Ring Tcb Kernel Scheduler Registers Tasks User Syscall Ipc Caps Calls Create Console Keeps.

(** ** The invariant *)

Definition mail_ok (s : Scheduler) : Prop :=
  ∀ id t, lookup_task s id = Some t → ∃ q, mailbox_rep (mailbox t) q ∧ Forall message_ok q.

Record system (paging : PagingConfig) (k : KState) (a : AbsSched) (l : list FrameState) : Prop := {
  sy_world : world paging k a l;
  sy_mail : mail_ok (k_sched k);
}.

(** The tasks and their address spaces stay. *)
Definition tasks_kept (s s' : Scheduler) : Prop :=
  ∀ id, as_id <$> lookup_task s' id = as_id <$> lookup_task s id.

#[export] Instance tasks_kept_preorder : PreOrder tasks_kept.
Proof. split; [by intros s id|]. intros s1 s2 s3 H1 H2 id. by rewrite H2. Qed.

(** The calls on frames and mappings change at most handles. *)
Definition handles_only (s s' : Scheduler) : Prop :=
  s' = s ∨ ∃ c t hs, lookup_task s c = Some t ∧ s' = upd_task c (Some (set_handles hs t)) s.

Lemma handles_only_kept s s' : handles_only s s' → mail_ok s → mail_ok s' ∧ tasks_kept s s'.
Proof.
  intros [->|(c & t & hs & Ht & ->)] Hm; [done|]. pose proof (lookup_task_range _ _ _ Ht) as Hr. split.
  - intros id t'. rewrite lookup_upd_task by done. case_decide; [|apply Hm]. intros [= <-]. by apply (Hm c t).
  - intros id. rewrite lookup_upd_task by done. case_decide; [|done]. subst. by rewrite Ht.
Qed.

Lemma system_handles paging k k' a l l' :
  system paging k a l → world paging k' a l' → handles_only (k_sched k) (k_sched k') →
  system paging k' a l' ∧ tasks_kept (k_sched k) (k_sched k').
Proof. intros [W M] W' Hh. destruct (handles_only_kept _ _ Hh M). done. Qed.

(** Another scheduler state, with the same handles. *)
Lemma world_same paging k k' a a' l :
  world paging k a l → k_allocator_set k' = k_allocator_set k → k_spaces k' = k_spaces k → k_mem k' = k_mem k →
  (∀ id h, handle_at (k_sched k') id h = handle_at (k_sched k) id h) → kernel_ok k' a' → world paging k' a' l.
Proof.
  intros [W1 W2 W3 W4 W5] K1 K2 K3 K4 Hk. split; [done|congruence|by rewrite K2, K3| |done].
  rewrite K2, K3. eapply caps_drop; [exact W4|]. intros id h hd. by rewrite K4.
Qed.

(** ** Messages *)

Lemma mailbox_rep_inj mb q q' : mailbox_rep mb q → mailbox_rep mb q' → q = q'.
Proof.
  intros [_ _ L1 _ E1] [_ _ L2 _ E2]. rewrite length_fmap in L1, L2. apply list_eq. intros i.
  destruct (decide (i < length q)%nat) as [Hi|Hi].
  - destruct (lookup_lt_is_Some_2 q i Hi) as [x Hx], (lookup_lt_is_Some_2 q' i) as [y Hy]; [lia|].
    assert (Hz : ∀ (r : list Message) z, r !! i = Some z → zget (Some <$> r) (Z.of_nat i) = Some (Some z))
      by (intros r z Hr; rewrite zget_lookup, Nat2Z.id, list_lookup_fmap, Hr by lia; done).
    specialize (E1 (Z.of_nat i) (Some x) ltac:(lia) (Hz _ _ Hx)). specialize (E2 (Z.of_nat i) (Some y) ltac:(lia) (Hz _ _ Hy)).
    congruence.
  - rewrite !lookup_ge_None_2 by lia. done.
Qed.

Lemma task_id_u64 paging k a c t sp l : caller paging k a c t sp l → is_u64 c.
Proof.
  intros Hca. pose proof (lookup_task_range _ _ _ (ca_task _ _ _ _ _ _ _ Hca)) as Hr.
  rewrite (sr_length _ _ (ko_sched _ _ (ca_ok _ _ _ _ _ _ _ Hca))) in Hr. unfold is_u64, W64, MAX_TASKS in *. lia.
Qed.

Lemma send_system paging k a l c t sp dest msg_ptr len :
  system paging k a l → caller paging k a c t sp l → is_u64 msg_ptr → is_u64 len →
  ∃ r k' a', sys_send paging dest msg_ptr len k = Done (r, k') ∧ system paging k' a' l ∧ tasks_kept (k_sched k) (k_sched k').
Proof.
  intros [W M] Hca Hp Hl. destruct (send_spec paging k a c t sp l dest msg_ptr len Hca) as (r & k' & E & Hr); try done.
  { intros id t' Ht'. destruct (M id t' Ht') as (q & Hq & _). by exists q. }
  { intros (_ & Hend & _). apply (world_backed paging k a l W c t sp Hca); [apply Hp|done]. }
  destruct r as [[]|e]; [|exists (Err e), k, a; destruct Hr as [-> _]; done].
  destruct Hr as (Hlen & _ & td & td' & q & Ht & Hq & _ & Hq' & Etd & Hlk & Ek & Hok). eexists _, k', _. split; [exact E|].
  assert (Hhd : tcb_handles td' = tcb_handles td ∧ as_id td' = as_id td) by (by rewrite Etd). destruct Hhd as [Hhd Has].
  split; [split|].
  - apply (world_same paging k k' a _ l W); try (by rewrite Ek); [|exact Hok]. intros id h. unfold handle_at. rewrite Hlk.
    case_decide; [|done]. subst. rewrite Ht. simpl. by rewrite Hhd.
  - intros id t'. rewrite Hlk. case_decide; [|apply M]. subst. intros [= <-]. eexists. split; [exact Hq'|].
    destruct (M id td Ht) as (q0 & Hq0 & Hf). rewrite (mailbox_rep_inj _ _ _ Hq Hq0). apply Forall_app. split; [done|].
    apply Forall_singleton, message_at_ok; [unfold is_u64 in *; lia|by eapply task_id_u64].
  - intros id. rewrite Hlk. case_decide; [|done]. subst. rewrite Ht. simpl. by rewrite Has.
Qed.

Lemma out_ok_same sp sps id m m' ptr :
  AddressSpaceTable_get sps id = Some sp → spaces_same sps m m' → out_ok sp m ptr → out_ok sp m' ptr.
Proof. intros Hs Hsame [?|[? Hv]]; [by left|]. right. split; [done|]. by eapply range_valid_same. Qed.

(** A task that only its mailbox changed. *)
Lemma system_mailbox paging k a l c t mb q :
  system paging k a l → lookup_task (k_sched k) c = Some t → mailbox_rep mb q → Forall message_ok q →
  let k1 := set_k_sched (upd_task c (Some (set_mailbox mb t)) (k_sched k)) k in
  system paging k1 a l ∧ tasks_kept (k_sched k) (k_sched k1) ∧ lookup_task (k_sched k1) c = Some (set_mailbox mb t).
Proof.
  intros [W M] Ht Hmb Hq k1. pose proof (lookup_task_range _ _ _ Ht) as Hr.
  assert (Hlk : ∀ id, lookup_task (k_sched k1) id = if decide (c = id) then Some (set_mailbox mb t) else lookup_task (k_sched k) id)
    by (intros id; by apply lookup_upd_task).
  split_and!; [split| |by rewrite Hlk, decide_True].
  - apply (world_same paging k k1 a a l W); try done; [|by eapply kernel_ok_task; [apply W|..]].
    intros id h. unfold handle_at. rewrite Hlk. case_decide; [|done]. subst. by rewrite Ht.
  - intros id t'. rewrite Hlk. case_decide; [|apply M]. intros [= <-]. by exists q.
  - intros id. rewrite Hlk. case_decide; [|done]. subst. by rewrite Ht.
Qed.

Section receive.
Context (paging : PagingConfig) (k : KState) (a : AbsSched) (l : list FrameState) (S : system paging k a l).
Context (c : TaskId) (t : Tcb) (sp : AddressSpace) (Hca : caller paging k a c t sp l).
Context (out_ptr max_len out_len out_sender : usize).
Context (Hp : is_u64 out_ptr) (Hml : is_u64 max_len) (Hol : is_u64 out_len) (Hos : is_u64 out_sender).

(** Handing the three results out. *)
Lemma hand_out_message data n snd :
  range_valid sp (ms_mem (k_mem k)) out_ptr (slice_len data) true →
  out_ok sp (ms_mem (k_mem k)) out_len → out_ok sp (ms_mem (k_mem k)) out_sender →
  ∃ s', (let? _ := write_user paging out_ptr data in
         let? _ := (if negb (out_len =? 0) then write_user_usize paging out_len n else ret (Ok tt)) in
         if negb (out_sender =? 0) then write_user_usize paging out_sender snd else ret (Ok tt)) k =
      Done (Ok tt, set_k_mem s' k) ∧ world paging (set_k_mem s' k) a l.
Proof.
  intros Hv Hl Hs. pose proof (sy_world _ _ _ _ S) as W. pose proof (ca_space _ _ _ _ _ _ _ Hca) as Hsp.
  destruct (world_write_user paging k a l W c t sp Hca out_ptr data (proj1 Hp) Hv) as (s1 & E1 & W1 & H1).
  assert (Hca1 : caller paging (set_k_mem s1 k) a c t sp l) by (eapply caller_world; [exact Hca|done|done|apply Hca|done]).
  destruct (world_write_out paging (set_k_mem s1 k) a l c t sp out_len n W1 Hca1 Hol) as (s2 & E2 & W2 & H2 & _).
  { eapply out_ok_same; [exact Hsp|exact H1|done]. }
  assert (Hca2 : caller paging (set_k_mem s2 (set_k_mem s1 k)) a c t sp l)
    by (eapply caller_world; [exact Hca|done|done|apply Hca|done]).
  destruct (world_write_out paging (set_k_mem s2 (set_k_mem s1 k)) a l c t sp out_sender snd W2 Hca2 Hos) as (s3 & E3 & W3 & _ & _).
  { eapply out_ok_same; [exact Hsp|exact H2|]. eapply out_ok_same; [exact Hsp|exact H1|done]. }
  exists s3. split; [|by destruct k]. rewrite (bind_ok_Ok _ _ _ _ _ E1), (bind_ok_Ok _ _ _ _ _ E2), E3. by destruct k.
Qed.
End receive.

Lemma recv_message_system paging k a l c t sp out_ptr max_len out_len out_sender :
  system paging k a l → caller paging k a c t sp l →
  is_u64 out_ptr → is_u64 max_len → is_u64 out_len → is_u64 out_sender →
  recv_pointers_ok sp (ms_mem (k_mem k)) out_ptr max_len out_len out_sender →
  ∃ r k', recv_message paging out_ptr max_len out_len out_sender k = Done (r, k') ∧
    system paging k' a l ∧ tasks_kept (k_sched k) (k_sched k').
Proof.
  intros S Hca Hp Hml Hol Hos (Hv & Hl & Hs). pose proof (ca_task _ _ _ _ _ _ _ Hca) as Ht.
  destruct (sy_mail _ _ _ _ S c t Ht) as (msgs & Hmb & Hall). unfold recv_message.
  rewrite (bind_Done _ _ _ _ _ (current_task_Done _ _ _ _ _ _ _ Hca)). destruct msgs as [|m q].
  - exists (Err NoSuchTask), k. split; [|done]. erewrite bind_ok_Err; [done|].
    assert (Hb : on_mailbox Mailbox_pop t = Done (None, t)).
    { unfold on_mailbox. rewrite (on_part_Done _ _ _ _ _ _ (mailbox_pop_nil _ Hmb)). by destruct t. }
    erewrite self_task_mut_Done; [|exact Ht|].
    2: { erewrite bind_Done by (eapply on_task_Done; [exact Ht|exact Hb]). reflexivity. }
    simpl. rewrite upd_task_id by done. by destruct k.
  - destruct (pop_Done paging k a c t sp l m q Hca Hmb) as (mb & Hq & E1). rewrite (bind_ok_Ok _ _ _ _ _ E1).
    apply Forall_cons in Hall as [[M1 M2 _ _] Hall]. set (k1 := set_k_sched _ k).
    destruct (system_mailbox paging k a l c t mb q S Ht Hq Hall) as (S1 & Hk1 & Ht1). fold k1 in S1, Hk1, Ht1.
    assert (Hn : 0 ≤ Z.min (msg_length m) max_len ≤ slice_len (msg_data m)) by (unfold is_u64 in *; lia).
    rewrite (bind_Done _ _ _ _ _ (slice_Done (msg_data m) 0 (Z.min (msg_length m) max_len) k1 ltac:(lia) ltac:(lia))).
    rewrite Z.sub_0_r, drop_0. set (data := take _ (msg_data m)).
    assert (Hdl : slice_len data = Z.min (msg_length m) max_len) by (unfold data, slice_len in *; rewrite length_take; lia).
    assert (Hca1 : caller paging k1 a c (set_mailbox mb t) sp l) by (eapply caller_world; [exact Hca|apply S1|done|done|done]).
    destruct (hand_out_message paging k1 a l S1 c (set_mailbox mb t) sp Hca1 out_ptr out_len out_sender Hp Hol Hos
      data (msg_length m) (sender m)) as (s' & E2 & W2); [|done|done|].
    { rewrite Hdl. destruct Hv as (V1 & V2 & V3). split_and!; [done|lia|]. intros x Hx. apply V3. lia. }
    exists (Ok tt), (set_k_mem s' k1). split; [exact E2|]. split; [|exact Hk1]. split; [done|apply S1].
Qed.

(** What is left of [sys_recv], at whatever time it is run. *)
Lemma recv_rest_system paging task flag k a l c t sp out_ptr max_len out_len out_sender :
  system paging k a l → caller paging k a c t sp l → as_id task = as_id t →
  is_u64 out_ptr → is_u64 max_len → is_u64 out_len → is_u64 out_sender →
  ∃ r k', recv_rest paging task flag out_ptr max_len out_len out_sender k = Done (r, k') ∧
    system paging k' a l ∧ tasks_kept (k_sched k) (k_sched k').
Proof.
  intros S Hca Has H1 H2 H3 H4. unfold recv_rest.
  destruct (recv_check_spec k task sp l out_ptr max_len out_len out_sender) as (r & E & Hr & Hv); try done.
  { rewrite Has. apply Hca. } { apply Hca. }
  rewrite (bind_Done _ _ _ _ _ E). unfold restore_interrupts. rewrite bind_modify, bind_ok_ret.
  assert (S' : system paging (set_k_interrupts flag k) a l) by (split; [apply world_flag|]; apply S).
  destruct r as [[]|e].
  - apply (recv_message_system paging (set_k_interrupts flag k) a l c t sp); try done; [by apply caller_flag|by apply Hv].
  - by exists (Err e), (set_k_interrupts flag k).
Qed.

(** ** Calls that only change handles, pages and the console *)

(** A call that returned in a state of the system, with its task still running. *)
Definition keeps_system (paging : PagingConfig) (k : KState) (a : AbsSched) (c : M KState (result unit Status)) : Prop :=
  ∃ r k' a' l', c k = Done (r, k') ∧ system paging k' a' l' ∧ tasks_kept (k_sched k) (k_sched k').

Section calls.
Context (paging : PagingConfig) (k : KState) (a : AbsSched) (l : list FrameState) (S : system paging k a l).
Context (c : TaskId) (t : Tcb) (sp : AddressSpace) (Hca : caller paging k a c t sp l).
Abbreviation W := (sy_world _ _ _ _ S).
Abbreviation Ht := (ca_task _ _ _ _ _ _ _ Hca).

Lemma keeps_handles (call : M KState (result unit Status)) r k' l' :
  call k = Done (r, k') → world paging k' a l' → handles_only (k_sched k) (k_sched k') → keeps_system paging k a call.
Proof. intros E W' Hh. destruct (system_handles _ _ _ _ _ _ S W' Hh). by exists r, k', a, l'. Qed.

Lemma keeps_same (call : M KState (result unit Status)) r : call k = Done (r, k) → keeps_system paging k a call.
Proof. intros E. exists r, k, a, l. split_and!; done. Qed.

Lemma keeps_unchanged (call : M KState (result unit Status)) r k' l' :
  call k = Done (r, k') → world paging k' a l' → unchanged l k k' → keeps_system paging k a call.
Proof. intros E W' (s' & -> & _). eapply keeps_handles; [exact E|exact W'|by left]. Qed.

(** The caller's handles and the memory changed. *)
Lemma handles_set hs s' sps : handles_only (k_sched k) (k_sched (set_k_spaces sps (set_k_handles c t hs (set_k_mem s' k)))).
Proof. right. exists c, t, hs. split; [exact Ht|done]. Qed.

Lemma frame_alloc_keeps out : is_u64 out → keeps_system paging k a (sys_frame_alloc paging out).
Proof.
  intros Hout. destruct (frame_alloc_spec paging k a l c t sp out W Hca Hout) as (r & k' & l' & E & W' & Hr).
  destruct r as [[]|e]; [|by eapply keeps_unchanged; [exact E|exact W'|apply Hr]].
  destruct Hr as (h & j & [_ _ [s' ->] _ _ _ _] & _). eapply keeps_handles; [exact E|exact W'|apply (handles_set _ _ (k_spaces k))].
Qed.

Lemma frame_dealloc_keeps h : keeps_system paging k a (sys_frame_dealloc h).
Proof.
  pose proof (frame_dealloc_spec paging k a l c t sp h W Hca) as H.
  destruct (HandleTable_get (tcb_handles t) h) as [[[] rt]|]; cbn [object] in H; try by eapply keeps_same.
  destruct H as (j & s' & E & _ & _ & _ & W'). eapply keeps_handles; [exact E|exact W'|apply (handles_set _ _ (k_spaces k))].
Qed.

Lemma map_keeps ah fh va permissions out :
  is_u64 va → is_u64 out → keeps_system paging k a (sys_map paging ah fh va permissions out).
Proof.
  intros Hva Hout. destruct (map_call_spec paging k a l c t sp ah fh va permissions out W Hca Hva Hout) as (r & k' & l' & E & W' & Hr).
  destruct r as [[]|e]; [|by eapply keeps_unchanged; [exact E|exact W'|apply Hr]].
  destruct Hr as (id & target & f & rt & _ & _ & _ & [[s' ->] _ _ _ _ _ _]).
  eapply keeps_handles; [exact E|exact W'|apply (handles_set _ _ (k_spaces k))].
Qed.

Lemma unmap_keeps h : keeps_system paging k a (sys_unmap h).
Proof.
  pose proof (unmap_call_spec paging k a l c t sp h W Hca) as H.
  destruct (HandleTable_get (tcb_handles t) h) as [[[] rt]|]; cbn [object] in H; try by eapply keeps_same.
  destruct H as (target & k' & l' & E & _ & [[s' ->] _ _] & W').
  eapply keeps_handles; [exact E|exact W'|apply (handles_set _ _ (k_spaces k))].
Qed.

Lemma as_create_keeps out : is_u64 out → keeps_system paging k a (sys_as_create paging out).
Proof.
  intros Hout. destruct (as_create_spec paging k a l c t sp out W Hca Hout) as (r & k' & l' & E & W' & Hr).
  destruct r as [[]|e]; [|by eapply keeps_unchanged; [exact E|exact W'|apply Hr]].
  destruct Hr as (u & j & id & h & _ & _ & _ & _ & [_ [s' ->] _ _ _ _ _ _]).
  eapply keeps_handles; [exact E|exact W'|apply handles_set].
Qed.

Lemma write_keeps fd buf_ptr len out_ptr :
  is_u64 buf_ptr → is_u64 len → is_u64 out_ptr → keeps_system paging k a (sys_write paging fd buf_ptr len out_ptr).
Proof.
  intros H1 H2 H3. destruct (write_spec paging k a l c t sp fd buf_ptr len out_ptr W Hca H1 H2 H3) as (r & k' & E & W' & Hr).
  eapply keeps_handles; [exact E|exact W'|left]. destruct r as [[]|e]; [|by destruct Hr as [-> _]].
  by destruct Hr as (_ & _ & _ & s' & -> & _).
Qed.

Lemma send_keeps dest msg_ptr len : is_u64 msg_ptr → is_u64 len → keeps_system paging k a (sys_send paging dest msg_ptr len).
Proof.
  intros H1 H2. destruct (send_system paging k a l c t sp dest msg_ptr len S Hca H1 H2) as (r & k' & a' & E & S' & Hk).
  by exists r, k', a', l.
Qed.

(** ** Calls that switch *)

(** An operation of the scheduler. *)
Lemma keeps_kernel k' a' : keeps k k' → kernel_ok k' a' → system paging k' a' l ∧ tasks_kept (k_sched k) (k_sched k').
Proof.
  intros Hk Ho. split; [split; [by eapply world_keeps; [exact W|..]|]|].
  - intros id t' Hl. pose proof (kp_tasks _ _ Hk id) as Hv. unfold task_view in Hv. rewrite Hl in Hv.
    destruct (lookup_task (k_sched k) id) as [t0|] eqn:E0; [|done]. injection Hv as _ _ ->. by apply (sy_mail _ _ _ _ S id).
  - intros id. pose proof (kp_tasks _ _ Hk id) as Hv. unfold task_view in Hv.
    by destruct (lookup_task (k_sched k') id), (lookup_task (k_sched k) id); simplify_eq/=; try f_equal.
Qed.
End calls.

(** What a task that switched away does when it runs again: whatever happened in between, it
    returns. *)
Definition resumes {A} (paging : PagingConfig) (c : TaskId) (id : AddressSpaceId) (rest : M KState A) : Prop :=
  ∀ k a l t sp, system paging k a l → caller paging k a c t sp l → as_id t = id →
    ∃ r k' l', rest k = Done (r, k') ∧ system paging k' a l' ∧ tasks_kept (k_sched k) (k_sched k').

(** A call of task [c], with address space [id], halts only when no other task is ready. *)
Definition serves {A} (paging : PagingConfig) (c : TaskId) (id : AddressSpaceId) (k : KState) (a : AbsSched)
    (o : outcome (sysret A * KState)) : Prop :=
  o = Halt ∧ ab_queue a = [] ∨
  ∃ r k' a' l', o = Done (r, k') ∧ system paging k' a' l' ∧ tasks_kept (k_sched k) (k_sched k') ∧
    ∀ rest, r = Suspended rest → resumes paging c id rest.

Lemma serves_returns paging c id k a call :
  keeps_system paging k a call → serves paging c id k a (returns call k).
Proof.
  intros (r & k' & a' & l' & E & S' & Hk). right. exists (Returned r), k', a', l'.
  unfold returns. rewrite (bind_Done _ _ _ _ _ E). done.
Qed.

Lemma bind_Halt {T A B} (x : M T A) (f : A → M T B) s : x s = Halt → bind x f s = Halt.
Proof. intros H. unfold bind. by rewrite H. Qed.

Lemma try_from_create num : SyscallNumber_try_from num = Some SysTaskCreate → num = 11.
Proof.
  unfold SyscallNumber_try_from. intros H. destruct num as [|p|p]; [done| |done].
  do 4 (destruct p as [p|p|]; try done).
Qed.

Section switching.
Context (paging : PagingConfig) (k : KState) (a : AbsSched) (l : list FrameState) (S : system paging k a l).
Context (c : TaskId) (t : Tcb) (sp : AddressSpace) (Hca : caller paging k a c t sp l).
Abbreviation Hok := (ca_ok _ _ _ _ _ _ _ Hca).
Abbreviation Hcur := (ca_current _ _ _ _ _ _ _ Hca).

Lemma resumes_flag flag : resumes paging c (as_id t) (do! restore_interrupts flag ;;; ret (Ok tt : result unit Status)).
Proof.
  intros k2 a2 l2 t2 sp2 S2 H2 _. exists (Ok tt), (set_k_interrupts flag k2), l2. split; [done|]. split; [|done].
  split; [apply world_flag|]; apply S2.
Qed.

Lemma yield_serves : serves paging c (as_id t) k a (sys_yield k).
Proof.
  right. unfold sys_yield. pose proof (yield_current_spec k a c Hok Hcur) as Hy. destruct (ab_queue a) as [|x q].
  - rewrite (bind_Done _ _ _ _ _ Hy). by exists (Returned (Ok tt)), k, a, l.
  - destruct Hy as (k' & E & Hk'). rewrite (bind_Done _ _ _ _ _ E).
    destruct (keeps_kernel _ _ _ _ S k' _ (keeping_yield _ _ _ E) Hk') as [S' Hk]. eexists _, k', _, l.
    split; [done|]. split; [exact S'|]. split; [done|]. intros rest [= <-]. apply resumes_flag.
Qed.

Lemma exit_serves {A} reason : serves (A := A) paging c (as_id t) k a ((do! exit_current reason ;;; ret Gone) k).
Proof.
  pose proof (exit_current_spec k a c reason Hok Hcur) as Hy. destruct (ab_queue a) as [|x q] eqn:Eq.
  - left. split; [by apply bind_Halt|done].
  - right. destruct Hy as (k' & E & Hk'). rewrite (bind_Done _ _ _ _ _ E).
    destruct (keeps_kernel _ _ _ _ S k' _ (keeping_exit _ _ _ _ E) Hk') as [S' Hk]. by eexists _, k', _, l.
Qed.

Section recv.
Context (out_ptr max_len out_len out_sender : usize).
Context (Hp : is_u64 out_ptr) (Hml : is_u64 max_len) (Hol : is_u64 out_len) (Hos : is_u64 out_sender).

Lemma resumes_recv flag flag' :
  resumes paging c (as_id t) (do! restore_interrupts flag ;;; recv_rest paging t flag' out_ptr max_len out_len out_sender).
Proof.
  intros k2 a2 l2 t2 sp2 S2 H2 Has. unfold restore_interrupts. rewrite bind_modify.
  destruct (recv_rest_system paging t flag' (set_k_interrupts flag k2) a2 l2 c t2 sp2 out_ptr max_len out_len out_sender)
    as (r & k' & E & S' & Hk); try done.
  - split; [apply world_flag|]; apply S2.
  - by apply caller_flag.
  - by exists r, k', l2.
Qed.

Lemma recv_serves : serves paging c (as_id t) k a (sys_recv paging out_ptr max_len out_len out_sender k).
Proof.
  destruct (decide (out_ptr = 0)) as [->|H0]; [by right; exists (Returned (Err InvalidArgument)), k, a, l|].
  destruct (sy_mail _ _ _ _ S c t (ca_task _ _ _ _ _ _ _ Hca)) as (msgs & Hmb & _).
  rewrite (recv_spec paging k a c t sp l msgs) by done. set (k0 := set_k_interrupts false k).
  assert (S0 : system paging k0 a l) by (split; [apply world_flag|]; apply S).
  pose proof (caller_flag _ _ _ _ _ _ _ false Hca) as Hca0. fold k0 in Hca0. destruct msgs as [|m q].
  - pose proof (block_current_spec k0 a c BlockRecv (ca_ok _ _ _ _ _ _ _ Hca0) Hcur) as Hb.
    destruct (ab_queue a) as [|x w] eqn:Eq; [left; split; [by apply bind_Halt|done]|right].
    destruct Hb as (k' & E & Hk'). rewrite (bind_Done _ _ _ _ _ E).
    destruct (keeps_kernel _ _ _ _ S0 k' _ (keeping_block _ _ _ _ E) Hk') as [S' Hk]. eexists _, k', _, l.
    split; [done|]. split; [exact S'|]. split; [exact Hk|]. intros rest [= <-]. apply resumes_recv.
  - right. destruct (recv_rest_system paging t (k_interrupts k) k0 a l c t sp out_ptr max_len out_len out_sender)
      as (r & k' & E & S' & Hk); try done.
    exists (Returned r), k', a, l. unfold returns. rewrite (bind_Done _ _ _ _ _ E). done.
Qed.
End recv.

(** Every call but the creation of tasks. *)
Lemma dispatch_serves ute n arg0 arg1 arg2 arg3 arg4 :
  n ≠ SysTaskCreate → is_u64 arg0 → is_u64 arg1 → is_u64 arg2 → is_u64 arg3 → is_u64 arg4 →
  serves paging c (as_id t) k a (dispatch paging ute n arg0 arg1 arg2 arg3 arg4 k).
Proof.
  intros Hn H0 H1 H2 H3 H4. destruct n; cbn [dispatch].
  - apply yield_serves.
  - apply exit_serves.
  - apply serves_returns. by eapply write_keeps.
  - apply serves_returns. by eapply send_keeps.
  - by apply recv_serves.
  - apply serves_returns. by eapply frame_alloc_keeps.
  - apply serves_returns. by eapply frame_dealloc_keeps.
  - apply serves_returns. by eapply as_create_keeps.
  - apply serves_returns. by eapply map_keeps.
  - apply serves_returns. by eapply unmap_keeps.
  - done.
Qed.

(** With the result in [rax]. *)
Lemma handle_serves ute num arg0 arg1 arg2 arg3 arg4 :
  num ≠ 11 → is_u64 arg0 → is_u64 arg1 → is_u64 arg2 → is_u64 arg3 → is_u64 arg4 →
  serves paging c (as_id t) k a (handle_syscall paging ute num arg0 arg1 arg2 arg3 arg4 k).
Proof.
  intros Hn H0 H1 H2 H3 H4. unfold handle_syscall.
  assert (Hs : serves (A := result unit Status) paging c (as_id t) k a
    (match SyscallNumber_try_from num with
     | None => do! exit_current (Faulted BadSystemCall) ;;; ret Gone
     | Some syscall => dispatch paging ute syscall arg0 arg1 arg2 arg3 arg4
     end k)).
  { destruct (SyscallNumber_try_from num) as [n|] eqn:En; [|apply exit_serves]. apply dispatch_serves; try done.
    intros ->. apply Hn. by apply try_from_create. }
  destruct Hs as [[E Hq]|(r & k' & a' & l' & E & S' & Hk & Hr)].
  - left. split; [by apply bind_Halt|done].
  - right. rewrite (bind_Done _ _ _ _ _ E). eexists _, k', a', l'. split; [done|]. split; [exact S'|]. split; [exact Hk|].
    intros rest Heq. destruct r as [r|rest'|]; try done. injection Heq as <-. intros k2 a2 l2 t2 sp2 S2 Hc2 Has.
    destruct (Hr rest' eq_refl k2 a2 l2 t2 sp2 S2 Hc2 Has) as (r & k3 & l3 & E3 & S3 & Hk3).
    exists (result_code r), k3, l3. by rewrite (bind_Done _ _ _ _ _ E3).
Qed.
End switching.
