(* ===== verification/Safety.v ===== *)
(** * Safety of the system

    Whatever calls the tasks make, in whatever order they run, the invariant of handles, pages and
    mailboxes holds, no call panics, and a task that was switched away from in a call finishes
    it. *)

From stdpp Require Import gmap.
From S2P Require Import Prelude Memory Bytes Device Frame Paging PageTree PageMap PageUnmap AddressSpace VirtMem Stack Spaces.
From S2P Require Import Ring Tcb Entry Kernel Scheduler Registers Tasks Interrupts User Syscall Ipc Caps Calls Create Console.
From S2P Require Import Keeps System.

(** ** The machine *)

(** The kernel, and for every task that is inside a call what is left of the call. *)
Record machine := mkMachine {
  mc_kernel : KState;
  mc_waiting : gmap TaskId (M KState Z);
}.

(** After a call of task [c]. *)
Definition leave (c : TaskId) (r : sysret Z) (w : gmap TaskId (M KState Z)) : gmap TaskId (M KState Z) :=
  match r with Suspended rest => <[c := rest]> w | _ => w end.

(** The running task makes a system call, goes on with the one it is in, or faults. *)
Inductive machine_step (paging : PagingConfig) (ute : Z) : machine → machine → Prop :=
| step_call c num arg0 arg1 arg2 arg3 arg4 r k k' w :
    current (k_sched k) = Some c → w !! c = None → num ≠ 11 →
    is_u64 arg0 → is_u64 arg1 → is_u64 arg2 → is_u64 arg3 → is_u64 arg4 →
    handle_syscall paging ute num arg0 arg1 arg2 arg3 arg4 k = Done (r, k') →
    machine_step paging ute (mkMachine k w) (mkMachine k' (leave c r w))
| step_resume c rest v k k' w :
    current (k_sched k) = Some c → w !! c = Some rest → rest k = Done (v, k') →
    machine_step paging ute (mkMachine k w) (mkMachine k' (delete c w))
| step_fault c frame k k' w :
    current (k_sched k) = Some c → w !! c = None → exceptions_handle frame k = Done (tt, k') →
    machine_step paging ute (mkMachine k w) (mkMachine k' w).

Record machine_ok (paging : PagingConfig) (m : machine) (a : AbsSched) (l : list FrameState) : Prop := {
  mo_system : system paging (mc_kernel m) a l;
  mo_waiting : ∀ c rest, mc_waiting m !! c = Some rest →
    ∃ t, lookup_task (k_sched (mc_kernel m)) c = Some t ∧ resumes paging c (as_id t) rest;
}.

Lemma running_caller paging k a l c :
  system paging k a l → current (k_sched k) = Some c → ∃ t sp, caller paging k a c t sp l.
Proof.
  intros S Hc. rewrite (sr_current _ _ (ko_sched _ _ (w_kernel _ _ _ _ (sy_world _ _ _ _ S)))) in Hc.
  apply world_caller; [apply S|done].
Qed.

(** What waits goes on waiting. *)
Lemma waiting_kept paging k k' (w : gmap TaskId (M KState Z)) :
  (∀ c rest, w !! c = Some rest → ∃ t, lookup_task (k_sched k) c = Some t ∧ resumes paging c (as_id t) rest) →
  tasks_kept (k_sched k) (k_sched k') →
  ∀ c rest, w !! c = Some rest → ∃ t, lookup_task (k_sched k') c = Some t ∧ resumes paging c (as_id t) rest.
Proof.
  intros Hw Hk c rest Hc. destruct (Hw c rest Hc) as (t & Ht & Hr). specialize (Hk c). rewrite Ht in Hk.
  destruct (lookup_task (k_sched k') c) as [t'|]; [|done]. injection Hk as Hk. exists t'. by rewrite Hk.
Qed.

Lemma machine_step_ok paging ute m m' a l :
  machine_step paging ute m m' → machine_ok paging m a l → ∃ a' l', machine_ok paging m' a' l'.
Proof.
  intros [c num arg0 arg1 arg2 arg3 arg4 r k k' w Hc Hw Hn H0 H1 H2 H3 H4 E|c rest v k k' w Hc Hw E|c frame k k' w Hc Hw E] [S M];
    simpl in *; destruct (running_caller _ _ _ _ _ S Hc) as (t & sp & Hca); pose proof (ca_task _ _ _ _ _ _ _ Hca) as Ht.
  - destruct (handle_serves paging k a l S c t sp Hca ute num arg0 arg1 arg2 arg3 arg4 Hn H0 H1 H2 H3 H4)
      as [[E' _]|(r' & k1 & a' & l' & E' & S' & Hk & Hr)]; [congruence|]. rewrite E in E'. injection E' as <- <-.
    exists a', l'. split; [done|]. simpl. destruct r as [v|rest|]; simpl; try by eapply waiting_kept.
    intros c' rest'. destruct (decide (c' = c)) as [->|Hne]; [|rewrite lookup_insert_ne by done; by eapply waiting_kept].
    rewrite lookup_insert_eq. intros [= <-]. specialize (Hk c). rewrite Ht in Hk.
    destruct (lookup_task (k_sched k') c) as [t'|]; [|done]. injection Hk as Hk. exists t'. rewrite Hk. split; [done|by apply Hr].
  - destruct (M c rest Hw) as (t' & Ht' & Hr). rewrite Ht in Ht'. injection Ht' as <-.
    destruct (Hr k a l t sp S Hca eq_refl) as (v' & k1 & l' & E' & S' & Hk). rewrite E in E'. injection E' as <- <-.
    exists a, l'. split; [done|]. simpl. intros c' rest' [_ Hc']%lookup_delete_Some. by eapply waiting_kept.
  - unfold exceptions_handle in E. destruct (negb _); [done|].
    destruct (exit_serves (A := Z) paging k a l S c t sp Hca (Faulted (fault_of (as_u8 (if_vector frame)))))
      as [[E' _]|(r' & k1 & a' & l' & E' & S' & Hk & _)]; rewrite (bind_Done _ _ _ _ _ E) in E'; [done|].
    injection E' as <- <-. exists a', l'. split; [done|]. by eapply waiting_kept.
Qed.

Lemma machine_steps_ok paging ute m m' a l :
  rtc (machine_step paging ute) m m' → machine_ok paging m a l → ∃ a' l', machine_ok paging m' a' l'.
Proof.
  intros Hs. revert a l. induction Hs as [|m1 m2 m3 H12 _ IH]; intros a l W; [eauto|].
  destruct (machine_step_ok _ _ _ _ _ _ H12 W) as (a' & l' & W'). by eapply IH.
Qed.

(** ** What is safe *)

(** No page of a user leads to a free frame or to a page table; the frame of a handle is allocated, is
    no page table, belongs to that handle alone and is reached by the page that the handle names
    and by no other. *)
Record frames_safe (k : KState) (l : list FrameState) : Prop := {
  sf_frames : fa_inv (k_mem k) l;
  sf_page : ∀ id sp x pa, AddressSpaceTable_get (k_spaces k) id = Some sp → user_page sp (ms_mem (k_mem k)) x pa →
    ∃ j, pa = frame_at j + x mod PAGE_SIZE ∧ l !! j ≠ Some Free ∧ ¬ some_table (k_spaces k) (ms_mem (k_mem k)) (frame_at j);
  sf_held : ∀ id h hd f, handle_at (k_sched k) id h = Some hd → held (object hd) = Some f →
    ∃ j, f = frame_at j ∧ l !! j = Some Allocated ∧ ¬ some_table (k_spaces k) (ms_mem (k_mem k)) f;
  sf_alone : ∀ id h hd f id' h' hd', handle_at (k_sched k) id h = Some hd → held (object hd) = Some f →
    handle_at (k_sched k) id' h' = Some hd' → held (object hd') = Some f → id' = id ∧ h' = h;
  sf_reach : ∀ id h hd f a sp x pa, handle_at (k_sched k) id h = Some hd → held (object hd) = Some f →
    AddressSpaceTable_get (k_spaces k) a = Some sp → user_page sp (ms_mem (k_mem k)) x pa →
    pa / FRAME_SIZE = f / FRAME_SIZE → ∃ va, object hd = ObjMapping f a va ∧ x / PAGE_SIZE = va / PAGE_SIZE;
  sf_mapping : ∀ id h hd f a va sp, handle_at (k_sched k) id h = Some hd → object hd = ObjMapping f a va →
    AddressSpaceTable_get (k_spaces k) a = Some sp → PageTable_to_physical (root sp) (ms_mem (k_mem k)) va = Some f;
}.

Lemma world_frames_safe paging k a l : world paging k a l → frames_safe k l.
Proof.
  intros W. pose proof (w_caps _ _ _ _ W) as HC. split.
  - apply W.
  - intros id sp x pa Hsp Hu. destruct (cp_backed _ _ _ _ HC _ _ _ _ Hsp Hu) as (_ & j & E & Hf & Ht & _). by exists j.
  - intros id h hd f Hh Hf. destruct (cp_held _ _ _ _ HC _ _ _ _ Hh Hf) as (j & -> & Hj & Ht). by exists j.
  - intros id h hd f id' h' hd' Hh Hf Hh' Hf'. by destruct (cp_inj _ _ _ _ HC _ _ _ _ _ _ _ Hh Hf Hh' Hf') as [<- <-].
  - intros id h hd f a' sp x pa Hh Hf. by apply (cp_excl _ _ _ _ HC id h).
  - intros id h hd f a' va sp Hh Ho Hsp. by apply (cp_mapping _ _ _ _ HC _ _ _ _ _ _ Hh Ho).
Qed.

Lemma no_ready k a : kernel_ok k a → ab_queue a = [] → ∀ id t, lookup_task (k_sched k) id = Some t → state t ≠ Ready.
Proof.
  intros Hk Hq id t Ht Hs. pose proof (ko_sched _ _ Hk) as Hr. pose proof (aw_queue _ (sr_wf _ _ Hr) id) as Hi.
  rewrite (sr_states _ _ Hr), Ht, Hq in Hi. simpl in Hi. rewrite Hs in Hi. apply proj2 in Hi. specialize (Hi eq_refl).
  by apply elem_of_nil in Hi.
Qed.

(** ** Mapping and unmapping again *)

Lemma map_call_roundtrip_spec paging k a l c t sp ah fh va permissions out k1 :
  world paging k a l → caller paging k a c t sp l → is_u64 va → is_u64 out →
  sys_map paging ah fh va permissions out k = Done (Ok tt, k1) →
  ∃ k2 l', sys_unmap fh k1 = Done (Ok tt, k2) ∧ world paging k2 a l' ∧ k_sched k2 = k_sched k ∧
    ∀ id sp' x, AddressSpaceTable_get (k_spaces k) id = Some sp' → is_u64 x →
      same_page (root sp') (ms_mem (k_mem k)) (ms_mem (k_mem k2)) x.
Proof.
  intros W Hca Hva Hout E.
  destruct (map_call_spec paging k a l c t sp ah fh va permissions out W Hca Hva Hout) as (r & k' & l1 & E' & W1 & Hr).
  rewrite E in E'. injection E' as <- <-. destruct Hr as (id & target & f & rt & _ & (_ & Hfh & _) & Htg & Hm).
  pose proof (get_handle_range _ _ _ Hfh) as [Hrange _]. assert (Ht : lookup_task (k_sched k) c = Some t) by apply Hca.
  destruct Hm as [[s1 E1] Mnew Mold Msame Moth _]. set (hs := put_handle fh _ _) in E1. subst k1.
  set (k1 := set_k_handles c t hs (set_k_mem s1 k)) in *.
  assert (Ht1 : lookup_task (k_sched k1) c = Some (set_handles hs t)) by by apply lookup_set_k_handles.
  assert (Hca1 : caller paging k1 a c (set_handles hs t) sp l1) by (eapply caller_world; [exact Hca|exact W1|done|exact Ht1|done]).
  pose proof (unmap_call_spec paging k1 a l1 c (set_handles hs t) sp fh W1 Hca1) as Hu. cbn [tcb_handles set_handles] in Hu.
  assert (Hget : HandleTable_get hs fh = Some (mkHandle (ObjMapping f id va) rt))
    by (unfold hs; rewrite put_handle_get by exact Hrange; by rewrite decide_True).
  rewrite Hget in Hu. cbn [object rights] in Hu.
  change (k_spaces k1) with (k_spaces k) in Hu.
  destruct Hu as (target' & k2 & l2 & E2 & Htg' & [[s2 E2'] Hp Ho] & W2). subst k2.
  rewrite Htg in Htg'. injection Htg' as <-.
  eexists _, l2. split_and!; [exact E2|exact W2| |].
  - change (set_k_mem s2 k1) with (set_k_handles c t hs (set_k_mem s2 k)). rewrite set_k_handles_twice.
    cbn [tcb_handles set_handles]. unfold hs. rewrite put_handle_twice, (put_handle_id (tcb_handles t)) by done.
    by rewrite set_k_handles_id.
  - intros id' sp' x Hs' Hx. destruct (decide (id' = id)) as [->|Hne].
    + simplify_eq. destruct (decide (x / PAGE_SIZE = va / PAGE_SIZE)) as [Ex|Ex].
      * destruct (Mold x Hx Ex) as [[O1 O2] O3], (up_gone _ _ _ _ _ _ _ Hp x Hx Ex) as [[G1 G2] G3].
        split; [split; congruence|]. intros Hc. by rewrite O3, G3.
      * eapply same_page_trans; [by apply Msame|by apply (up_others _ _ _ _ _ _ _ Hp)].
    + eapply same_page_trans; [by eapply Moth|by apply (Ho id' sp' Hne)].
Qed.

(** * Theorems *)

(** C1: Whatever system calls the tasks make, with any numbers and arguments but the one that
    creates tasks, and in whatever order they fault, block, wake each other and take turns: no page of any address space that a
    user can reach leads to a free frame or to a page table; the frame of a handle is allocated and
    holds no page table; no two handles, of the same task or of two, stand for the same frame; a
    frame that a handle stands for is reached by no page but the one the handle names; and a
    mapping handle names a page that maps its frame.  The next call never panics: it is served, or
    the machine halts and no task is ready; and a task that was switched away from inside a call
    finishes the call when it runs again. *)
Theorem capability_safe (paging : PagingConfig) (ute : Z) (k0 : KState) (a0 : AbsSched) (l0 : list FrameState)
    (k : KState) (w : gmap TaskId (M KState Z)) :
  system paging k0 a0 l0 → rtc (machine_step paging ute) (mkMachine k0 ∅) (mkMachine k w) →
  (∃ l, frames_safe k l) ∧
  ∀ c, current (k_sched k) = Some c →
    match w !! c with
    | Some rest => ∃ v k', rest k = Done (v, k')
    | None => ∀ num arg0 arg1 arg2 arg3 arg4,
        num ≠ 11 → is_u64 arg0 → is_u64 arg1 → is_u64 arg2 → is_u64 arg3 → is_u64 arg4 →
        (∃ r k', handle_syscall paging ute num arg0 arg1 arg2 arg3 arg4 k = Done (r, k')) ∨
        handle_syscall paging ute num arg0 arg1 arg2 arg3 arg4 k = Halt ∧
          ∀ id t, lookup_task (k_sched k) id = Some t → state t ≠ Ready
    end.
Proof.
  intros S0 Hs. destruct (machine_steps_ok _ _ _ _ a0 l0 Hs) as (a & l & [S M]); [by split|]. simpl in *.
  split; [exists l; eapply world_frames_safe, S|]. intros c Hc.
  destruct (running_caller _ _ _ _ _ S Hc) as (t & sp & Hca). destruct (w !! c) as [rest|] eqn:Hw.
  - destruct (M c rest Hw) as (t' & Ht' & Hr). rewrite (ca_task _ _ _ _ _ _ _ Hca) in Ht'. injection Ht' as <-.
    destruct (Hr k a l t sp S Hca eq_refl) as (v & k' & _ & E & _). eauto.
  - intros num arg0 arg1 arg2 arg3 arg4 Hn H0 H1 H2 H3 H4.
    destruct (handle_serves paging k a l S c t sp Hca ute num arg0 arg1 arg2 arg3 arg4 Hn H0 H1 H2 H3 H4)
      as [[E Hq]|(r & k' & _ & _ & E & _)]; [right|left; eauto].
    split; [exact E|]. by eapply no_ready; [apply Hca|].
Qed.

(** A frame that was mapped and is unmapped again leaves the scheduler, all the tasks with their
    handles and mailboxes, and every translation of every address space as they were before the
    two calls; the second call cannot fail. *)
Theorem map_call_roundtrip (paging : PagingConfig) (k : KState) (a : AbsSched) (l : list FrameState) (c : TaskId) (t : Tcb)
    (sp : AddressSpace) (as_handle frame_handle va permissions out : usize) (k1 : KState) :
  world paging k a l → caller paging k a c t sp l → is_u64 va → is_u64 out →
  sys_map paging as_handle frame_handle va permissions out k = Done (Ok tt, k1) →
  ∃ k2 l', sys_unmap frame_handle k1 = Done (Ok tt, k2) ∧ world paging k2 a l' ∧ k_sched k2 = k_sched k ∧
    ∀ id sp' x, AddressSpaceTable_get (k_spaces k) id = Some sp' → is_u64 x →
      same_page (root sp') (ms_mem (k_mem k)) (ms_mem (k_mem k2)) x.
Proof. apply map_call_roundtrip_spec. Qed.

(** ** Concrete runs *)

(** What a call makes of the machine. *)
Definition after_call (c num arg0 arg1 arg2 arg3 : Z) (m : machine) : machine :=
  match handle_syscall demo_config 0x8000 num arg0 arg1 arg2 arg3 0x3F000 (mc_kernel m) with
  | Done (r, k') => mkMachine k' (leave c r (mc_waiting m))
  | _ => m
  end.

Definition after_rest (c : TaskId) (m : machine) : machine :=
  match mc_waiting m !! c with
  | Some rest =>
      match rest (mc_kernel m) with Done (_, k') => mkMachine k' (delete c (mc_waiting m)) | _ => m end
  | None => m
  end.

(** The task that may make the call, and whether the call is served. *)
Definition call_goes (c num arg0 arg1 arg2 arg3 : Z) (m : machine) : bool :=
  bool_decide (current (k_sched (mc_kernel m)) = Some c) && bool_decide (num ≠ 11) &&
  forallb (λ x, (0 <=? x) && (x <? W64)) [arg0; arg1; arg2; arg3] &&
  match mc_waiting m !! c, handle_syscall demo_config 0x8000 num arg0 arg1 arg2 arg3 0x3F000 (mc_kernel m) with
  | None, Done _ => true
  | _, _ => false
  end.

Definition rest_goes (c : TaskId) (m : machine) : bool :=
  bool_decide (current (k_sched (mc_kernel m)) = Some c) &&
  match mc_waiting m !! c with
  | Some rest => match rest (mc_kernel m) with Done _ => true | _ => false end
  | None => false
  end.

Lemma after_call_step c num arg0 arg1 arg2 arg3 m :
  call_goes c num arg0 arg1 arg2 arg3 m = true →
  machine_step demo_config 0x8000 m (after_call c num arg0 arg1 arg2 arg3 m).
Proof.
  unfold call_goes, after_call. destruct m as [k w]. cbn [mc_kernel mc_waiting].
  intros [[[Hc%bool_decide_eq_true Hn%bool_decide_eq_true]%andb_prop Ha]%andb_prop Hr]%andb_prop.
  destruct (w !! c) eqn:Hw; [done|].
  destruct (handle_syscall _ _ _ _ _ _ _ _ k) as [[r k']| |] eqn:E; [|done|done].
  assert (Hu : ∀ x, (0 <=? x) && (x <? W64) = true → is_u64 x)
    by (intros x [H1%Z.leb_le H2%Z.ltb_lt]%andb_prop; split; assumption).
  cbn [forallb] in Ha. rewrite !andb_true_iff in Ha. destruct Ha as (A0 & A1 & A2 & A3 & _).
  eapply step_call; [exact Hc|exact Hw|exact Hn| | | | | |exact E];
    apply Hu; [rewrite ?andb_true_iff; first [exact A0|exact A1|exact A2|exact A3|split; reflexivity]..].
Qed.

Lemma after_rest_step c m : rest_goes c m = true → machine_step demo_config 0x8000 m (after_rest c m).
Proof.
  unfold rest_goes, after_rest. destruct m as [k w]. cbn [mc_kernel mc_waiting].
  intros [Hc%bool_decide_eq_true Hr]%andb_prop. destruct (w !! c) as [rest|] eqn:Hw; [|done].
  destruct (rest k) as [[v k']| |] eqn:E; [|done|done]. by eapply step_resume.
Qed.

Lemma demo_call_system : ∃ l, system demo_config demo_call demo_abs_running l.
Proof.
  destruct demo_call_world as (l & W & _). exists l. split; [exact W|]. intros id t Ht. exists []. split; [|constructor].
  assert (Hall : Forall (from_option (λ t, mailbox t = Mailbox_new) True) (tasks (k_sched demo_call)))
    by (vm_compute; repeat (apply Forall_cons; split; [first [exact I | reflexivity]|]); apply Forall_nil; exact I).
  apply lookup_task_slot in Ht. pose proof (zget_Some_lt _ _ _ Ht) as Hr. rewrite zget_lookup in Ht by lia.
  pose proof (Forall_lookup_1 _ _ _ _ Hall Ht) as Hm. cbn [from_option] in Hm. rewrite Hm. apply mailbox_new_rep.
Qed.

(** Task 0 gets a frame, maps it and waits for a message; task 1 sends it one and yields; task 0
    finishes its call. *)
Definition demo_machine_1 : machine := after_call 0 6 0x3F000 0 0 0 (mkMachine demo_call ∅).
Definition demo_machine_2 : machine := after_call 0 9 5 1 0x50000 1 demo_machine_1.
Definition demo_machine_3 : machine := after_call 0 5 0x3F100 128 0x3F200 0x3F208 demo_machine_2.
Definition demo_machine_4 : machine := after_call 1 4 0 0x3F000 4 0 demo_machine_3.
Definition demo_machine_5 : machine := after_call 1 1 0 0 0 0 demo_machine_4.
Definition demo_machine : machine := after_rest 0 demo_machine_5.

Lemma demo_steps : rtc (machine_step demo_config 0x8000) (mkMachine demo_call ∅) demo_machine.
Proof.
  apply (rtc_l _ _ demo_machine_1); [apply after_call_step; vm_compute; reflexivity|].
  apply (rtc_l _ _ demo_machine_2); [apply after_call_step; vm_compute; reflexivity|].
  apply (rtc_l _ _ demo_machine_3); [apply after_call_step; vm_compute; reflexivity|].
  apply (rtc_l _ _ demo_machine_4); [apply after_call_step; vm_compute; reflexivity|].
  apply (rtc_l _ _ demo_machine_5); [apply after_call_step; vm_compute; reflexivity|].
  apply rtc_once, after_rest_step. vm_compute. reflexivity.
Qed.

Lemma machine_eta m : m = mkMachine (mc_kernel m) (mc_waiting m).
Proof. by destruct m. Qed.

Lemma capability_safe_witness :
  ∃ f l j, handle_at (k_sched (mc_kernel demo_machine)) 0 1 =
      Some (mkHandle (ObjMapping f 0 0x50000) (Rights_bitor RIGHTS_RWX RIGHT_MAP)) ∧
    PageTable_to_physical demo_pt (ms_mem (k_mem (mc_kernel demo_machine))) 0x50000 = Some f ∧
    fa_inv (k_mem (mc_kernel demo_machine)) l ∧ f = frame_at j ∧ l !! j = Some Allocated ∧
    vbytes demo_pt (ms_mem (k_mem (mc_kernel demo_machine))) 0x3F200 USIZE = le_bytes 8 4.
Proof.
  destruct demo_call_system as (l0 & S). pose proof demo_steps as Hs. rewrite (machine_eta demo_machine) in Hs.
  destruct (capability_safe demo_config 0x8000 demo_call demo_abs_running l0 _ _ S Hs) as ((l & [Hfa _ Hh _ _ Hm]) & _).
  assert (Hat : ∃ f, handle_at (k_sched (mc_kernel demo_machine)) 0 1 =
      Some (mkHandle (ObjMapping f 0 0x50000) (Rights_bitor RIGHTS_RWX RIGHT_MAP))) by (vm_compute; eexists; reflexivity).
  destruct Hat as [f Hat].
  assert (Hsp : AddressSpaceTable_get (k_spaces (mc_kernel demo_machine)) 0 = Some (demo_space User)) by (vm_compute; reflexivity).
  destruct (Hh 0 1 _ f Hat eq_refl) as (j & E & Hj & _).
  exists f, l, j. split; [exact Hat|]. split; [exact (Hm 0 1 _ f 0 0x50000 (demo_space User) Hat eq_refl Hsp)|].
  split; [exact Hfa|]. split; [exact E|]. split; [exact Hj|]. vm_compute. reflexivity.
Defined.

Lemma map_call_roundtrip_witness :
  ∃ k2, sys_unmap 1 demo_mapped = Done (Ok tt, k2) ∧ k_sched k2 = k_sched demo_given.
Proof.
  destruct demo_given_world as (l & W). destruct (world_caller _ _ _ _ W 0 eq_refl) as (t & sp & Hca).
  destruct (map_call_roundtrip demo_config demo_given demo_abs_running l 0 t sp 5 1 0x50000 1 0x3F000 demo_mapped W Hca)
    as (k2 & l' & E & _ & Hs & _); [unfold is_u64, W64; lia|unfold is_u64, W64; lia| |].
  - refine (state_of_Done (sys_map demo_config 5 1 0x50000 1 0x3F000 demo_given) (Ok tt) _). vm_compute. reflexivity.
  - exists k2. split; [exact E|exact Hs].
Defined.
