(* ===== verification/Bootstrap.v ===== *)
(** * The first task

    What [spawn] of [src/task/bootstrap.rs] leaves behind.  An address space that is built page by page,
    from the initramfs, fresh frames for the stack and the frames that [load_elf] fills, keeps the
    invariant of pages and page tables from the moment it is created; when the task is added and
    the scheduler starts, the whole system satisfies the invariant that every system call keeps. *)

From stdpp Require Import gmap.
From S2P Require Import Prelude Memory Bytes Frame Paging PageTree PageMap PageUnmap AddressSpace VirtMem Stack Spaces.
From S2P Require Import Ring Tcb Kernel Scheduler Registers Tasks User Cpio Elf Loader Syscall Ipc Caps Calls Create Keeps.
From S2P Require Import System Safety Acpi.

(** ** Success keeps an invariant *)

Definition keeps_ok {S A X} (I : S → Prop) (c : M S (result A X)) : Prop :=
  ∀ s a s', I s → c s = Done (Ok a, s') → I s'.

Lemma keeps_ok_mfor {S A X} (I : S → Prop) (xs : list A) (f : A → M S (result unit X)) :
  (∀ x, x ∈ xs → keeps_ok I (f x)) → keeps_ok I (mfor_ok xs f).
Proof.
  intros Hf. induction xs as [|x xs IH]; intros s a s' HI E; [by injection E as _ <-|].
  cbn [mfor_ok] in E. unfold bind_ok in E. apply bind_Done_inv in E as ([u|e] & s1 & E1 & E2); [|done].
  eapply IH; [|by eapply Hf; [left|..]|done]. intros y Hy. apply Hf. by right.
Qed.

Lemma expect_inv {S A} (o : option A) why (s s' : S) a : expect o why s = Done (a, s') → o = Some a ∧ s' = s.
Proof. destruct o; [|done]. by intros [= -> ->]. Qed.

Lemma checked_mul_Some a b c : checked_mul a b = Some c → c = a * b ∧ a * b < W64.
Proof. unfold checked_mul. destruct (Z.ltb_spec (a * b) W64); naive_solver. Qed.

(** A stack is mapped page by page, each to a frame just allocated. *)
Lemma keeps_ok_stack (I : MState → Prop) sp size top perms :
  size ≤ top →
  (∀ va, top - size ≤ va → is_u64 va → ∀ s frame s1 a s', I s → FrameAllocator_alloc s = Done (Some frame, s1) →
     AddressSpace_map sp frame va perms WriteBack s1 = Done (Ok a, s') → I s') →
  keeps_ok I (StackMapping_allocate sp size top perms).
Proof.
  intros Htop Hpage s a s' HI E. unfold StackMapping_allocate in E. destruct (negb _); [done|].
  destruct (checked_sub top size) as [vs|] eqn:Evs in E; [|done]. apply checked_sub_Some in Evs as [Hle ->].
  cbn [ok_or] in E. rewrite bind_ok_ret in E. cbn iota in E.
  destruct (checked_sub (top - size) FRAME_SIZE) as [gp|] in E; [|done]. cbn [ok_or] in E. rewrite bind_ok_ret in E. cbn iota in E.
  apply bind_Done_inv in E as (s1 & ? & [= -> ->] & E). destruct (bool_decide _) in E; [done|].
  unfold bind_ok in E. apply bind_Done_inv in E as ([u|e] & s1 & E1 & E); [|done].
  apply bind_Done_inv in E as (s2 & ? & [= -> ->] & E). apply bind_Done_inv in E as (? & ? & Em & E).
  unfold massert in Em. destruct (bool_decide _) in Em; [|done]. injection Em as _ <-. injection E as _ <-.
  revert HI E1. apply keeps_ok_mfor. intros i Hi%elem_of_range sa ? sb HI E. unfold stack_map_page in E.
  apply bind_Done_inv in E as (o & ? & [[-> _]%checked_mul_Some ->]%expect_inv & E).
  destruct (checked_add _ _) as [va|] eqn:Ev in E; [|done]. apply checked_add_Some in Ev as [-> Hv].
  cbn [ok_or] in E. rewrite bind_ok_ret in E. cbn iota in E.
  apply bind_Done_inv in E as ([frame|] & sc & Ea & E); [|by apply bind_Done_inv in E as (? & ? & _ & ?)].
  apply bind_Done_inv in E as ([[]|e] & sd & E2 & E); [|apply bind_Done_inv in E as (? & ? & _ & E); by apply bind_Done_inv in E as (? & ? & _ & ?)].
  injection E as _ <-. by eapply Hpage; [..|exact HI|exact Ea|exact E2]; unfold is_u64, FRAME_SIZE in *; lia.
Qed.

(** ** An address space under construction *)

Definition no_handles : TaskId → usize → option Handle := λ _ _, None.

Section building.
Context (paging : PagingConfig) (sps : AddressSpaceTable) (id : AddressSpaceId) (sp : AddressSpace).
Context (Hsp : AddressSpaceTable_get sps id = Some sp).
Context (s0 : MState) (l0 : list FrameState).

(** Since [s0], pages have been mapped in the space [id], to frames that hold data. *)
Record built (s : MState) (l : list FrameState) : Prop := {
  bt_spaces : spaces_inv paging sps s l;
  bt_caps : caps_inv no_handles sps s l;
  bt_area : same_area s0 s;
  bt_cr3 : ms_cr3 s = ms_cr3 s0;
  bt_states : ∀ k, l !! k = l0 !! k ∨ (l0 !! k = Some Free ∧ l !! k = Some Allocated);
  bt_others : ∀ id' sp', id' ≠ id → AddressSpaceTable_get sps id' = Some sp' →
    ∀ x, same_page (root sp') (ms_mem s0) (ms_mem s) x;
  bt_data : ∀ k, l0 !! k = Some Allocated → ¬ some_table sps (ms_mem s0) (frame_at k) →
    ¬ some_table sps (ms_mem s) (frame_at k);
}.

Lemma built_start : spaces_inv paging sps s0 l0 → caps_inv no_handles sps s0 l0 → built s0 l0.
Proof. intros. split; try done. by left. Qed.

Lemma states_step (l l' : list FrameState) :
  (∀ k, l !! k = l0 !! k ∨ (l0 !! k = Some Free ∧ l !! k = Some Allocated)) →
  (∀ k, l' !! k = l !! k ∨ (l !! k = Some Free ∧ l' !! k = Some Allocated)) →
  ∀ k, l' !! k = l0 !! k ∨ (l0 !! k = Some Free ∧ l' !! k = Some Allocated).
Proof.
  intros H1 H2 k. destruct (H1 k) as [E1|[F1 A1]], (H2 k) as [E2|[F2 A2]]; rewrite ?E2, ?E1 in *; auto; congruence.
Qed.

Lemma built_alloc s l k s1 :
  built s l → l !! k = Some Free → fa_inv s1 (<[k := Allocated]> l) → same_layout s s1 →
  (∀ j st, l !! j = Some st → st ≠ Reserved → j ≠ k → kept_frame s s1 j) →
  built s1 (<[k := Allocated]> l) ∧ ¬ some_table sps (ms_mem s1) (frame_at k).
Proof.
  intros [B1 B2 B3 B4 B5 B6 B7] Hk Hfa Hl Hkept.
  destruct (spaces_alloc paging sps s s1 l k B1 Hk Hfa Hl Hkept) as [Hs Hsame].
  assert (Hlk : ∀ j, <[k := Allocated]> l !! j = l !! j ∨ (l !! j = Some Free ∧ <[k := Allocated]> l !! j = Some Allocated)).
  { intros j. destruct (decide (j = k)) as [->|]; [right|left; by rewrite list_lookup_insert_ne].
    split; [done|]. apply list_lookup_insert_eq. by eapply lookup_lt_Some. }
  split; [split; try done|].
  - eapply caps_mono; [exact B2|done|by apply same_area_layout| |].
    + intros j Hj. destruct (Hlk j) as [->|[? _]]; [done|congruence].
    + intros j Hj. destruct (Hlk j) as [E|[? _]]; [by rewrite <- E|congruence].
  - etrans; [done|by apply same_area_layout].
  - destruct Hl as (_ & _ & -> & _). done.
  - by apply (states_step l).
  - intros id' sp' Hne Hg x. eapply same_page_trans; [by eapply B6|]. by apply (Hsame id' sp').
  - intros j Hj Hno. rewrite (some_table_same _ (ms_mem s)) by done. by apply B7.
  - rewrite (some_table_same _ (ms_mem s)) by done. intros Ht%(some_table_allocated _ _ _ _ _ B1). congruence.
Qed.

(** A page is mapped to a frame that holds data. *)
Lemma built_map s l va j perms s' l' :
  built s l → is_u64 va → va < USER_SPACE_END → map_ok_post (root sp) va (frame_at j) perms s s' l l' →
  data_frame l' s' j → ¬ some_table sps (ms_mem s') (frame_at j) → built s' l'.
Proof.
  intros [B1 B2 B3 B4 B5 B6 B7] Hva Hlo Hpost Hj Ht.
  destruct (spaces_map paging sps s s' l l' id sp va (frame_at j) perms B1 Hsp Hva Hlo) as [Hs Hoth];
    [by apply user_canonical|done|].
  split; try done.
  - by eapply (caps_mapped_at no_handles sps s s' l l' id sp va j perms).
  - etrans; [done|apply Hpost].
  - by rewrite (mo_cr3 _ _ _ _ _ _ _ _ Hpost).
  - apply (states_step l); [done|]. apply (mo_states _ _ _ _ _ _ _ _ Hpost).
  - intros id' sp' Hne Hg x. eapply same_page_trans; [by eapply B6|]. by apply (Hoth id' sp').
  - intros k Hk Hno. apply (no_new_table sps s s' l id sp Hsp Hoth (mo_tables _ _ _ _ _ _ _ _ Hpost)); [|by apply B7].
    destruct (B5 k) as [->|[? _]]; congruence.
Qed.

Definition building (s : MState) : Prop := ∃ l, built s l.

(** A frame that the allocator knows to be in use but did not give out. *)
Definition spare_frame (l : list FrameState) (s : MState) (j : nat) : Prop :=
  l !! j ≠ Some Free ∧ l !! j ≠ Some Allocated ∧
  off_bitmap (bitmap (ms_fa s)) (direct_map (ms_fa s)) (Z.of_nat j) ∧
  frame_virt (direct_map (ms_fa s)) (Z.of_nat j + 1) ≤ W64.

Lemma spare_built s l j :
  spare_frame l0 s0 j → built s l → data_frame l s j ∧ ¬ some_table sps (ms_mem s) (frame_at j).
Proof.
  intros (H1 & H2 & H3 & H4) B. assert (E : l !! j = l0 !! j) by (by destruct (bt_states _ _ B j) as [?|[? _]]).
  split.
  - right. destruct (bt_area _ _ B) as [-> ->]. by rewrite E.
  - intros Ht%(some_table_allocated _ _ _ _ _ (bt_spaces _ _ B)). congruence.
Qed.

Lemma build_map s l va j perms cp a s' :
  kind sp = User → built s l → data_frame l s j → ¬ some_table sps (ms_mem s) (frame_at j) → is_u64 va → is_u64 (frame_at j) →
  AddressSpace_map sp (frame_at j) va perms cp s = Done (Ok a, s') → building s'.
Proof.
  intros Hkind B Hd Ht Hv Hp E.
  destruct (AddressSpace_map_spec sp s l (frame_at j) va perms cp) as (r & s1 & E1 & Hr);
    [by apply (si_space _ _ _ _ (bt_spaces _ _ B) id)|done..|].
  rewrite E in E1. injection E1 as <- <-. destruct Hr as [Hu (l1 & Hpost)]. exists l1. destruct (Hu Hkind) as [Hlo _].
  pose proof (spaces_map paging sps s s' l l1 id sp _ _ perms (bt_spaces _ _ B) Hsp Hv Hlo (user_canonical _ _ Hv Hlo) Hpost)
    as [_ Hoth].
  apply (built_map s l va j perms); [exact B|done|done|exact Hpost| |].
  - eapply data_frame_mono; [apply Hpost| | |exact Hd].
    + intros Ha. by apply (mo_kept _ _ _ _ _ _ _ _ Hpost).
    + intros Hf. by destruct (mo_states _ _ _ _ _ _ _ _ Hpost j) as [<-|[? _]].
  - apply (no_new_table sps s s' l id sp Hsp Hoth (mo_tables _ _ _ _ _ _ _ _ Hpost)); [by eapply data_frame_used|done].
Qed.

Lemma build_range ps vs len perms cp :
  kind sp = User → 0 ≤ ps → 0 ≤ vs →
  (∀ i, 0 ≤ i < len / FRAME_SIZE → ∃ j, ps + i * FRAME_SIZE = frame_at j ∧ spare_frame l0 s0 j) →
  keeps_ok building (AddressSpace_map_range sp ps vs len perms cp).
Proof.
  intros Hkind Hps Hvs Hspare s a s' HI E. unfold AddressSpace_map_range in E.
  destruct (len =? 0); [by injection E as _ <-|]. repeat (destruct (negb _); [done|]).
  apply bind_Done_inv in E as (lo & s1 & [_ ->]%expect_inv & E).
  destruct (checked_add ps _); [|done]. destruct (checked_add vs _); [|done]. cbn [ok_or] in E. rewrite !bind_ok_ret in E. cbn iota in E.
  revert HI E. apply keeps_ok_mfor. clear s s' a. intros i Hi%elem_of_range s a s' [l B] E. unfold map_range_page in E.
  apply bind_Done_inv in E as (o & ? & [[-> _]%checked_mul_Some ->]%expect_inv & E).
  apply bind_Done_inv in E as (pa & ? & [[-> Hp]%checked_add_Some ->]%expect_inv & E).
  apply bind_Done_inv in E as (va & ? & [[-> Hv]%checked_add_Some ->]%expect_inv & E).
  apply bind_Done_inv in E as ([[]|e] & s1 & E1 & E); [|by apply bind_Done_inv in E as (? & ? & _ & ?)].
  injection E as _ <-. destruct (Hspare i Hi) as (j & Ej & Hj). destruct (spare_built s l j Hj B) as [Hd Ht].
  rewrite Ej in *. unfold FRAME_SIZE in *. by eapply (build_map s l); [..|exact E1]; unfold is_u64, frame_at, FRAME_SIZE in *; try lia.
Qed.

Lemma build_stack size top perms :
  kind sp = User → 0 ≤ size ≤ top → keeps_ok building (StackMapping_allocate sp size top perms).
Proof.
  intros Hkind Htop. apply keeps_ok_stack; [lia|]. intros va Hlo Hva s frame s1 a s' [l B] Ea Em.
  destruct (alloc_contract s l (si_fa _ _ _ _ (bt_spaces _ _ B))) as [[E _]|(k & s2 & E & Hk & Hfa & Hl & _ & Hkept)];
    rewrite Ea in E; [done|]. injection E as -> ->.
  destruct (built_alloc s l k s2 B Hk Hfa Hl Hkept) as [B1 Ht].
  eapply (build_map s2 _ _ k); [done|exact B1|left|done|done| |exact Em].
  - apply list_lookup_insert_eq. by eapply lookup_lt_Some.
  - pose proof (inv_index_bound _ _ (si_fa _ _ _ _ (bt_spaces _ _ B)) _ _ Hk) as Hb.
    pose proof (inv_frame_count_bound _ _ (si_fa _ _ _ _ (bt_spaces _ _ B))) as Hc.
    unfold is_u64, frame_at, FRAME_SIZE in *. lia.
Qed.

Lemma build_page sg page :
  is_bytes (sg_data sg) → 0 ≤ sg_address sg → 0 ≤ page → page < USER_SPACE_END →
  keeps_ok building (load_page sp (pt_direct_map (root sp)) sg (sg_address sg + slice_len (sg_data sg)) (segment_permissions sg) page).
Proof.
  intros Hd Ha Hp Hlo s a s' [l B] E.
  assert (Hw : page + FRAME_SIZE < W64) by (unfold FRAME_SIZE, USER_SPACE_END, W64 in *; lia).
  assert (Hv : is_u64 page) by (unfold is_u64, FRAME_SIZE in *; lia).
  destruct (load_page_spec sp sg (segment_permissions sg) page s l) as (r & s1 & E1 & Hr); try done.
  { by apply (si_space _ _ _ _ (bt_spaces _ _ B) id). }
  rewrite E in E1. injection E1 as <- <-. destruct Hr as (k & l1 & [Hpost Hfree Hheld Hdata _]). exists l1.
  destruct (spaces_map paging sps s s' l l1 id sp _ _ _ (bt_spaces _ _ B) Hsp Hv Hlo (user_canonical _ _ Hv Hlo) Hpost)
    as [_ Hoth].
  apply (built_map s l page k (segment_permissions sg)); [exact B|done|done|exact Hpost|by left|].
  intros (id' & sp' & Hg & Ho). destruct (decide (id' = id)) as [->|Hne]; [by simplify_eq|].
  apply (Hoth id' sp' Hne Hg) in Ho.
  assert (l !! k = Some Allocated); [|congruence]. eapply some_table_allocated; [apply B|]. by exists id', sp'.
Qed.

Lemma build_segments b entry items ats ee :
  is_bytes b → Forall2 (λ c at_, ∀ s, ∃ r, c s = Done (r, s) ∧ step_result b at_ r) items ats →
  keeps_ok building (load_segments sp (pt_direct_map (root sp)) entry items ee).
Proof.
  intros Hb Hit. revert ee. induction Hit as [|c at_ items ats Hc _ IH]; intros ee s a s' HI E; [by injection E as _ <-|].
  cbn [load_segments] in E. destruct (Hc s) as (r & Ec & _ & Hsome). rewrite (bind_Done _ _ _ _ _ Ec) in E.
  destruct r as [[sg|e]|]; [|done|by eapply IH]. destruct (proj1 (Hsome sg) eq_refl) as (_ & _ & ->).
  destruct (described_ok b at_ Hb) as (Hd & Ha & Hm). set (sg := described b at_) in *.
  destruct (segment_end sg) as [end_|] eqn:Ee; [|done]. cbn [ok_or] in E. rewrite bind_ok_ret in E. cbn iota in E.
  destruct (sg_memory_size sg =? 0); [by eapply IH|].
  apply bind_Done_inv in E as (fe & ? & [[-> _]%checked_add_Some ->]%expect_inv & E).
  unfold bind_ok in E. apply bind_Done_inv in E as ([u|e] & s1 & E1 & E); [|done]. eapply IH; [|exact E].
  revert HI E1. apply keeps_ok_mfor. intros page (i & -> & Hi & Hlt)%elem_of_pages.
  unfold segment_end in Ee. destruct (checked_add _ _) as [x|] in Ee; [|done].
  destruct (Z.leb_spec x USER_SPACE_END); [|done]. injection Ee as ->.
  apply build_page; [done|apply Ha| |lia].
  change (FRAME_SIZE - 1) with (2 ^ 12 - 1). rewrite land_not64_mask by (done || lia).
  pose proof (Z.mod_le (sg_address sg) (2 ^ 12) (proj1 Ha) ltac:(lia)). unfold FRAME_SIZE. lia.
Qed.

Lemma build_elf b : is_bytes b → slice_len b < 2 ^ 63 → keeps_ok building (load_elf b sp (pt_direct_map (root sp))).
Proof.
  intros Hb Hl s a s' HI E. unfold load_elf in E. destruct (parse_spec b Hb Hl s) as (r & Ep & Hr).
  rewrite (bind_Done _ _ _ _ _ Ep) in E. destruct r as [elf|e]; [|done].
  destruct (proj1 (Hr elf) eq_refl) as [Hac ->]. unfold bind_ok in E.
  apply bind_Done_inv in E as ([ee|e] & s1 & E1 & E); [|done].
  assert (s' = s1) as -> by (by destruct ee; injection E as _ <-).
  revert HI E1. eapply build_segments; [done|]. apply segments_steps; [done|done|apply Hac].
Qed.
End building.

(** ** The kernel half under construction *)

Section kernel_half.
Context (kas : AddressSpace) (s0 : MState) (l0 : list FrameState).

(** Since [s0], pages have been mapped in the kernel half. *)
Record extended (s : MState) (l : list FrameState) : Prop := {
  ex_inv : pt_inv (root kas) s l;
  ex_area : same_area s0 s;
  ex_cr3 : ms_cr3 s = ms_cr3 s0;
  ex_states : ∀ k, l !! k = l0 !! k ∨ (l0 !! k = Some Free ∧ l !! k = Some Allocated);
  ex_mapped : ∀ x, is_u64 x → is_Some (PageTable_to_physical (root kas) (ms_mem s0) x) →
    same_page (root kas) (ms_mem s0) (ms_mem s) x;
  ex_user : ∀ x, is_u64 x → x < USER_SPACE_END → walk (root kas) (ms_mem s) x = None;
}.

Definition extending (s : MState) : Prop := ∃ l, extended s l.

Lemma extended_alloc s l k s1 :
  extended s l → l !! k = Some Free → fa_inv s1 (<[k := Allocated]> l) → same_layout s s1 →
  (∀ j st, l !! j = Some st → st ≠ Reserved → j ≠ k → kept_frame s s1 j) →
  extended s1 (<[k := Allocated]> l).
Proof.
  intros [X1 X2 X3 X4 X5 X6] Hk Hfa Hl Hkept.
  destruct (pt_inv_alloc (root kas) s l k s1 X1 Hk Hfa Hl) as (Hinv1 & Hs1 & Ht1); [by eauto|]. split; try done.
  - etrans; [done|by apply same_area_layout].
  - by destruct Hl as (_ & _ & -> & _).
  - apply (states_step l0 l); [done|]. intros j. destruct (decide (j = k)) as [->|]; [right|left; by rewrite list_lookup_insert_ne].
    split; [done|]. apply list_lookup_insert_eq. by eapply lookup_lt_Some.
  - intros x Hx Hm. eapply same_page_trans; [by apply X5|apply Hs1].
  - intros x Hx Hlo. destruct (plain_same kas (ms_mem s) (ms_mem s1) x Hx Hlo (Hs1 x)) as [?|Hle]; [left; by apply X6|done|].
    apply (same_page_leaf _ _ _ _ (Hs1 x)) in Hle; [|by apply user_canonical]. destruct Hle as (es & E & _).
    rewrite X6 in E by done. done.
Qed.

Lemma extended_map s l va frame perms cp a s' :
  extended s l → is_u64 va → USER_SPACE_END ≤ va → is_u64 frame →
  AddressSpace_map kas frame va perms cp s = Done (Ok a, s') → extending s'.
Proof.
  intros [X1 X2 X3 X4 X5 X6] Hva Hhi Hf E.
  destruct (AddressSpace_map_spec kas s l frame va perms cp X1 Hva Hf) as (r & s1 & E1 & Hr).
  rewrite E in E1. injection E1 as <- <-. destruct Hr as [_ (l1 & [M1 M2 M3 M4 M5 M6 M7 M8 M9 M10 M11 M12])].
  exists l1. split; try done.
  - by etrans.
  - congruence.
  - by apply (states_step l0 l).
  - intros x Hx Hm. pose proof (X5 x Hx Hm) as Hs. eapply same_page_trans; [exact Hs|]. apply M5; [done|].
    intros Ex. destruct (M4 x Hx Ex) as [[Hn _] _]. destruct Hs as [[Hs _] _]. rewrite Hs in Hn. by destruct Hm; congruence.
  - intros x Hx Hlo. assert (Hs : same_page (root kas) (ms_mem s) (ms_mem s') x).
    { apply M5; [done|]. unfold USER_SPACE_END, PAGE_SIZE in *. dmlia. }
    destruct Hs as [_ Hs]. specialize (Hs (user_canonical _ _ Hx Hlo)). rewrite X6 in Hs by done.
    by destruct (walk (root kas) (ms_mem s') x).
Qed.
Lemma extend_stack size top perms :
  size ≤ top → USER_SPACE_END ≤ top - size → keeps_ok extending (StackMapping_allocate kas size top perms).
Proof.
  intros Htop Hhi. apply keeps_ok_stack; [done|]. intros va Hlo Hva s frame s1 a s' [l X] Ea Em.
  pose proof (pi_alloc _ _ _ (ex_inv _ _ X)) as Hfa0.
  destruct (alloc_contract s l Hfa0) as [[E _]|(k & s2 & E & Hk & Hfa & Hl & _ & Hkept)]; rewrite Ea in E; [done|].
  injection E as -> ->. pose proof (extended_alloc s l k s2 X Hk Hfa Hl Hkept) as X1.
  eapply (extended_map s2 _ va); [exact X1|done|lia| |exact Em].
  pose proof (inv_index_bound _ _ Hfa0 _ _ Hk). pose proof (inv_frame_count_bound _ _ Hfa0). unfold is_u64, FRAME_SIZE in *. lia.
Qed.

Lemma extend_pool p st p' :
  extending (ps_mem p) → KernelStackPool_allocate kas p = Done (Ok st, p') → extending (ps_mem p').
Proof.
  intros HI E. unfold KernelStackPool_allocate in E. apply bind_Done_inv in E as (p1 & ? & [= <- <-] & E).
  fold (free_slot (ps_pool p)) in E. destruct (free_slot (ps_pool p)) as [slot|] eqn:Es; [|done].
  apply free_slot_Some in Es as [Hs _]. apply bind_Done_inv in E as (? & ? & [= _ <-] & E).
  apply bind_Done_inv in E as (? & ? & [[-> _]%checked_add_Some ->]%expect_inv & E).
  apply bind_Done_inv in E as (? & ? & [[-> _]%checked_mul_Some ->]%expect_inv & E).
  apply bind_Done_inv in E as (? & ? & [[-> _]%checked_add_Some ->]%expect_inv & E).
  unfold on_mem in E. destruct (KernelStack_allocate _ _ _) as [[r s1]| |] eqn:E1; [|done..]. injection E as -> <-.
  unfold KernelStack_allocate, bind_ok in E1. apply bind_Done_inv in E1 as ([m|e] & s2 & E1 & E2); [|done].
  injection E2 as _ <-. revert HI E1. apply extend_stack; unfold USER_SPACE_END, KERNEL_STACK_SIZE, KERNEL_STACK_BASE,
    KERNEL_SLOT_SIZE, KERNEL_STACK_PAGES, GUARD_PAGES, FRAME_SIZE; lia.
Qed.
End kernel_half.

Lemma extended_refl kas s l :
  pt_inv (root kas) s l → (∀ x, is_u64 x → x < USER_SPACE_END → walk (root kas) (ms_mem s) x = None) → extended kas s l s l.
Proof. intros. split; try done. by left. Qed.

(** ** The state the first task is started in *)

Record boot_ready (paging : PagingConfig) (kas : AddressSpace) (k : KState) (l : list FrameState)
    (live : list (Z * list nat)) (lost : list Z) : Prop := {
  br_sched : kernel_ok k (mkAbsSched None [] ∅);
  br_spaces : k_spaces k = AddressSpaceTable_new;
  br_pool : pool_inv kas (mkPoolState (stacks (k_sched k)) (k_mem k)) l live lost;
  br_paging : pt_config (root kas) = paging;
  br_user : ∀ x, is_u64 x → x < USER_SPACE_END → walk (root kas) (ms_mem (k_mem k)) x = None;
  br_limit : ∀ j, is_Some (l !! j) → frame_at j < physical_address_limit paging;
}.

(** The number of pages the initramfs is mapped with. *)
Definition image_pages (img : InitramfsImage) : Z := (ii_length img + 0xFFF) / FRAME_SIZE.

(** The initramfs lies in frames the allocator does not give out, one after the other. *)
Record image_ok (kas : AddressSpace) (img : InitramfsImage) (s : MState) (l : list FrameState) : Prop := {
  io_start : is_u64 (ii_start img);
  io_length : 0 ≤ ii_length img < 2 ^ 63;
  io_frames : ∃ j, PageTable_to_physical (root kas) (ms_mem s) (ii_start img) = Some (frame_at j) ∧ frame_at j < W64 ∧
    ∀ i, 0 ≤ i < image_pages img → spare_frame l s (j + Z.to_nat i);
}.

Lemma spare_mono l l' s s' j :
  same_area s s' → (∀ k, l' !! k = l !! k ∨ (l !! k = Some Free ∧ l' !! k = Some Allocated)) →
  spare_frame l s j → spare_frame l' s' j.
Proof.
  intros [E1 E2] Hl (H1 & H2 & H3 & H4). unfold spare_frame. rewrite E1, E2.
  by destruct (Hl j) as [->|[? _]].
Qed.

Lemma kernel_ok_idle k k' :
  kernel_ok k (mkAbsSched None [] ∅) → k_spaces k' = k_spaces k → tasks (k_sched k') = tasks (k_sched k) →
  ready (k_sched k') = ready (k_sched k) → current (k_sched k') = current (k_sched k) →
  kernel_ok k' (mkAbsSched None [] ∅).
Proof.
  intros [[S1 S2 S3 S4 S5 S6] K2 K3] Es Et Er Ec. unfold lookup_task in *. split; [|by rewrite Es; unfold lookup_task; rewrite Et|done].
  split; unfold lookup_task; rewrite ?Et, ?Er, ?Ec; done.
Qed.

(** ** The kernel's page table among the others *)

(** To say that building a user space leaves the kernel's page table alone, it is put into a table
    beside the new one. *)
Definition kernel_view (kas : AddressSpace) : AddressSpace := mkAddressSpace (root kas) User.
Definition beside (kas : AddressSpace) (o : option AddressSpace) : AddressSpaceTable :=
  mkAddressSpaceTable [Some (kernel_view kas); o].

Lemma beside_get kas o i sp :
  AddressSpaceTable_get (beside kas o) i = Some sp → i = 0 ∧ sp = kernel_view kas ∨ i = 1 ∧ o = Some sp.
Proof.
  unfold AddressSpaceTable_get. destruct (zget _ i) as [x|] eqn:E; [|done]. simpl. intros ->.
  pose proof (zget_Some_lt _ _ _ E) as Hi. simpl in Hi. rewrite zget_lookup in E by lia.
  assert (i = 0 ∨ i = 1) as [-> | ->] by lia; simpl in E; [left|right]; split; try done; congruence.
Qed.

Section space.
Context (paging : PagingConfig) (kas : AddressSpace) (s0 s : MState) (l0 l : list FrameState).
Context (X : extended kas s0 l0 s l) (Hpaging : pt_config (root kas) = paging).

Lemma beside_inv :
  spaces_inv paging (beside kas None) s l ∧ caps_inv no_handles (beside kas None) s l.
Proof.
  pose proof (ex_inv _ _ _ _ _ X) as Hinv. split.
  - split; [apply Hinv| |].
    + intros i sp [[-> ->]|[_ ?]]%beside_get; [|done]. split; [exact Hinv|]. done.
    + intros i j sp sp' Hne [[-> ->]|[_ ?]]%beside_get [[-> ->]|[_ ?]]%beside_get; done.
  - split; try done.
    + intros i sp x [[-> ->]|[_ ?]]%beside_get Hx Hlo; [|done]. left. by apply (ex_user _ _ _ _ _ X).
    + intros i sp x pa [[-> ->]|[_ ?]]%beside_get (Hx & Hlo & Hp); [|done]. change (root (kernel_view kas)) with (root kas) in Hp.
      rewrite (proj1 (view_walk _ _ _ _ Hinv (user_canonical _ _ Hx Hlo))), (ex_user _ _ _ _ _ X) in Hp; done.
Qed.

Lemma new_space :
  (∀ j, is_Some (l !! j) → frame_at j < physical_address_limit paging) →
  ∃ r s', AddressSpace_new_user kas s = Done (r, s') ∧
    ∀ u, r = Ok u → ∃ j, l !! j = Some Free ∧ kind u = User ∧ pt_direct_map (root u) = pt_direct_map (root kas) ∧
      built paging (beside kas (Some u)) 1 s' (<[j := Allocated]> l) s' (<[j := Allocated]> l) ∧ same_area s s' ∧
      ms_cr3 s' = ms_cr3 s ∧ (∀ x, same_page (root kas) (ms_mem s) (ms_mem s') x) ∧
      (∀ i, l !! i ≠ Some Free → ¬ own_table (root kas) (ms_mem s) (frame_at i) →
         ¬ some_table (beside kas (Some u)) (ms_mem s') (frame_at i)).
Proof.
  intros Hlim. destruct beside_inv as [Hs HC]. rewrite <- Hpaging in Hlim.
  destruct (new_user_fresh kas s l (ex_inv _ _ _ _ _ X) Hlim) as (r & s' & E & Hr). exists r, s'. split; [done|].
  intros u ->. destruct Hr as (j & F0).
  assert (F : fresh_space (kernel_view kas) u j s s' l) by (by destruct F0; split).
  assert (Hg : AddressSpaceTable_get (beside kas None) 0 = Some (kernel_view kas)) by done.
  assert (Hold : ∀ i, i ≠ 1 → AddressSpaceTable_get (beside kas (Some u)) i = AddressSpaceTable_get (beside kas None) i).
  { intros i Hi. destruct (AddressSpaceTable_get (beside kas (Some u)) i) as [sp|] eqn:Ei.
    - apply beside_get in Ei as [[-> ->]|[? _]]; done.
    - destruct (AddressSpaceTable_get (beside kas None) i) as [sp|] eqn:Ei'; [|done].
      apply beside_get in Ei' as [[-> ->]|[_ ?]]; done. }
  pose proof (fresh_spaces paging _ s s' l Hs 0 _ Hg u j F) as [Hs' Hsame].
  exists j. split_and!; try by apply F.
  - by rewrite (fs_root _ _ _ _ _ _ F).
  - apply built_start.
    + by apply (insert_spaces paging _ s s' l Hs 0 _ Hg u j F _ 1).
    + by apply (insert_caps paging _ s s' l Hs 0 _ Hg u j F _ 1).
  - intros x. by apply (Hsame 0 (kernel_view kas) Hg).
  - intros i Hi Hno (i' & sp & [[-> ->]|[-> [= <-]]]%beside_get & Ho).
    + apply Hno. by apply (Hsame 0 (kernel_view kas) Hg) in Ho.
    + eapply (fresh_apart paging _ s s' l Hs 0 _ Hg u j F i Hi); [|exact Ho].
      intros (i' & sp & [[-> ->]|[_ ?]]%beside_get & Ho'); done.
Qed.
End space.

(** ** The first thread *)

Lemma first_handle hd :
  ∃ hs, HandleTable_push hd HandleTable_new = Done (Ok 0, hs) ∧ position_none (handles hs) ≠ None ∧
    ∀ h hd', HandleTable_get hs h = Some hd' → hd' = hd.
Proof.
  destruct (handle_push_room HandleTable_new hd) as (i & hs & E & Hi & Hrest); [by vm_compute|].
  assert (i = 0) as -> by (vm_compute in E; by injection E as <- _). exists hs. split; [done|]. split.
  - vm_compute in E. injection E as <-. by vm_compute.
  - intros h hd' Hh. destruct (decide (h = 0)) as [->|Hne]; [congruence|]. rewrite Hrest in Hh by done.
    unfold HandleTable_get in Hh. destruct (zget _ h) as [o|] eqn:Eo; [|done]. pose proof (zget_Some_lt _ _ _ Eo) as Hb.
    rewrite zget_lookup in Eo by lia. apply lookup_replicate in Eo as [-> _]. done.
Qed.

Lemma thread_Done paging sps cpu ute aid stk entry ustk s l kf :
  spaces_inv paging sps s l → caps_inv no_handles sps s l →
  stack_page cpu s l (KernelStack_top stk - PAGE_SIZE) kf → ¬ some_table sps (ms_mem s) (frame_at kf) →
  ∃ t s', Tcb_new_user cpu ute aid stk entry ustk s = Done (t, s') ∧ as_id t = aid ∧ mailbox t = Mailbox_new ∧
    position_none (handles (tcb_handles t)) ≠ None ∧
    (∀ h hd, HandleTable_get (tcb_handles t) h = Some hd → object hd = ObjAddressSpace aid) ∧
    spaces_inv paging sps s' l ∧ caps_inv no_handles sps s' l ∧ ms_cr3 s' = ms_cr3 s.
Proof.
  intros Hs HC Hp Ht. unfold Tcb_new_user, ThreadContext_new. set (top := KernelStack_top stk) in *.
  pose proof (sp_range _ _ _ _ _ Hp) as (R1 & R2 & R3).
  destruct (stack_words_spec cpu s l (top - PAGE_SIZE) kf (initial_frame entry ustk ute) (top - 56) Hp)
    as (s1 & E & V & _); [unfold PAGE_SIZE in *; simpl; lia..|].
  rewrite !bind_assoc. unfold PAGE_SIZE in *. mstep usub_le. rewrite bind_assoc, (bind_Done _ _ _ _ _ E).
  rewrite bind_assoc. mstep usub_le. mred.
  set (hd := mkHandle (ObjAddressSpace aid) _). destruct (first_handle hd) as (hs & Eh & Hroom & Hget).
  unfold on_local. rewrite (bind_Done _ _ _ ((Ok 0, hs)) s1) by (by rewrite Eh).
  eexists _, s1. split; [reflexivity|]. cbn [as_id mailbox tcb_handles].
  destruct (spaces_stored paging sps cpu (λ _, kf) _ _ s s1 l Hs (sp_inv _ _ _ _ _ Hp) V) as [Hs1 Hsame]; [by intros|].
  split_and!; try done.
  - intros h hd' ->%Hget. done.
  - eapply caps_mono; [exact HC|exact Hsame|apply same_area_fa, V|done|done].
  - apply V.
Qed.

(** ** One space *)

Lemma caps_without H sps s l :
  caps_inv no_handles sps s l →
  (∀ i h hd, H i h = Some hd → held (object hd) = None ∧
     ∀ a, space_of (object hd) = Some a → is_Some (AddressSpaceTable_get sps a)) → caps_inv H sps s l.
Proof.
  intros [C1 C2 C3 C4 C5 C6 C7] HH. split; try done.
  - intros i h hd f Hh Hf. destruct (HH _ _ _ Hh). congruence.
  - intros i h hd i' h' hd' f Hh Hf. destruct (HH _ _ _ Hh). congruence.
  - intros i h hd f a sp x pa Hh Hf. destruct (HH _ _ _ Hh). congruence.
  - intros i h hd f a va Hh Ho. destruct (HH _ _ _ Hh) as [Hn _]. rewrite Ho in Hn. done.
  - intros i h hd a Hh. by apply (HH _ _ _ Hh).
Qed.

Lemma only_user paging kas u sps id s l :
  spaces_inv paging (beside kas (Some u)) s l → caps_inv no_handles (beside kas (Some u)) s l →
  (∀ j, AddressSpaceTable_get sps j = if decide (j = id) then Some u else None) →
  spaces_inv paging sps s l ∧ caps_inv no_handles sps s l.
Proof.
  intros Hs HC Hg. assert (Hu : AddressSpaceTable_get (beside kas (Some u)) 1 = Some u) by done.
  assert (Hone : ∀ j sp, AddressSpaceTable_get sps j = Some sp → j = id ∧ sp = u).
  { intros j sp. rewrite Hg. case_decide; [|done]. by intros [= <-]. }
  split; split; try done.
  - apply Hs.
  - intros j sp [-> ->]%Hone. by apply (si_space _ _ _ _ Hs 1).
  - intros i j sp sp' Hne [-> ->]%Hone [-> ->]%Hone. done.
  - intros j sp x [-> ->]%Hone. by apply (cp_plain _ _ _ _ HC 1).
  - intros j sp x pa [-> ->]%Hone Hp. destruct (cp_backed _ _ _ _ HC 1 u x pa Hu Hp) as (Hd & i & E & Hi & Ht & Hw).
    split; [done|]. exists i. split_and!; try done. intros (j & sp & [-> ->]%Hone & Ho). apply Ht. by exists 1, u.
Qed.

(** The middle of [spawn]: the user space is made and the program loaded, before anything is done with them. *)
Definition with_space {A} (kas : AddressSpace) (img : InitramfsImage) (b : bytes)
    (f : AddressSpace → VirtualAddr → VirtualAddr → M KState A) : M KState A :=
  let! k := get in
  let! initramfs_physical_addr :=
    expect (AddressSpace_to_physical kas (ms_mem (k_mem k)) (ii_start img))
      "failed to translate initramfs start address" in
  let! r := on_memory (AddressSpace_new_user kas) in
  let! address_space := expect_ok r "address space allocation failed" in
  let! length := uadd (ii_length img) 0xFFF in
  let! r := on_memory (AddressSpace_map_range address_space initramfs_physical_addr 0x40000000
              (Z.land length (not64 0xFFF)) (mkPagePermissions true false true) WriteBack) in
  do! expect_ok r "failed to map initramfs" ;;;
  let! r := on_memory (UserStack_allocate address_space) in
  let! user_stack := expect_ok r "user stack allocation failed" in
  let! r := on_memory (load_elf b address_space (pt_direct_map (root kas))) in
  let! entry := expect_ok r "invalid ELF" in
  f address_space entry (UserStack_top user_stack).

Section spawning.
Context (paging : PagingConfig) (kas : AddressSpace) (k : KState) (l : list FrameState).
Context (live : list (Z * list nat)) (lost : list Z) (R : boot_ready paging kas k l live lost).
Abbreviation s0 := (k_mem k).

Lemma ready_extended : extended kas s0 l s0 l.
Proof. apply extended_refl; [apply (po_pt _ _ _ _ _ (br_pool _ _ _ _ _ _ R))|apply R]. Qed.

(** The kernel stack of the task. *)
Lemma stack_Done :
  ∃ r k1, allocate_kernel_stack kas k = Done (r, k1) ∧
    ∀ st, r = Ok st → ∃ slot ks l1, st = slot_stack slot ∧ extended kas s0 l (k_mem k1) l1 ∧
      stack_live kas (k_mem k1) l1 (slot, ks) ∧ kernel_ok k1 (mkAbsSched None [] ∅) ∧ k_spaces k1 = AddressSpaceTable_new ∧
      k_allocator_set k1 = k_allocator_set k.
Proof.
  destruct (pool_allocate_spec kas _ l live lost (br_pool _ _ _ _ _ _ R)) as (r & p' & l1 & E & Hr).
  eexists r, _. split; [apply masked_flag, on_part_Done; exact E|]. intros st ->.
  destruct (free_slot _) as [slot|]; [|by destruct Hr]. destruct Hr as (-> & ks & Hp).
  assert (extending kas s0 l (ps_mem p')) as (l2 & X) by (eapply extend_pool; [|exact E]; exists l; apply ready_extended).
  simpl in *.
  assert (l2 = l1) as -> by (eapply fa_inv_unique; [..|apply (po_pt _ _ _ _ _ Hp)|apply (ex_inv _ _ _ _ _ X)]; done).
  exists slot, ks, l1. split_and!; [done|exact X| | |apply R|done].
  - apply (po_live _ _ _ _ _ Hp). left.
  - eapply kernel_ok_idle; [apply R|done..].
Qed.
(** The ways in which the first task can fail to start. *)
Definition spawn_panics : list string :=
  ["missing from initramfs"; "kernel stack allocation failed"; "address space allocation failed"; "failed to map initramfs";
   "user stack allocation failed"; "invalid ELF"].

(** The task is ready, and everything is as the system calls need it. *)
Record spawned (id : TaskId) (k' : KState) (l' : list FrameState) : Prop := {
  sd_sched : kernel_ok k' (abs_add id (mkAbsSched None [] ∅));
  sd_spaces : spaces_inv paging (k_spaces k') (k_mem k') l';
  sd_caps : caps_inv (handle_at (k_sched k')) (k_spaces k') (k_mem k') l';
  sd_mail : mail_ok (k_sched k');
  sd_limit : ∀ j, is_Some (l' !! j) → frame_at j < physical_address_limit paging;
}.

(** With its space built and its stack in place, the thread is made and added. *)
Lemma add_first ute stk entry ustk u k5 l5 kf :
  kernel_ok k5 (mkAbsSched None [] ∅) → k_spaces k5 = AddressSpaceTable_new → kind u = User →
  spaces_inv paging (beside kas (Some u)) (k_mem k5) l5 → caps_inv no_handles (beside kas (Some u)) (k_mem k5) l5 →
  stack_page (root kas) (k_mem k5) l5 (KernelStack_top stk - PAGE_SIZE) kf →
  ¬ some_table (beside kas (Some u)) (ms_mem (k_mem k5)) (frame_at kf) →
  (∀ j, is_Some (l5 !! j) → frame_at j < physical_address_limit paging) →
  ∃ id k', (let! r := insert_address_space u in
            let! as_id := expect_ok r "address space table is full" in
            let! task := on_memory (Tcb_new_user (root kas) ute as_id stk entry ustk) in
            let! r := add_task task in
            expect_ok r "scheduler is full") k5 = Done (id, k') ∧ spawned id k' l5.
Proof.
  intros Hk Ht Hkind Hs HC Hp Hno Hlim.
  pose proof (insert_Done u k5) as Ei. rewrite Ht in Ei.
  change (position_none (as_entries AddressSpaceTable_new)) with (Some 0) in Ei. cbn iota in Ei.
  rewrite (bind_Done _ _ _ _ _ Ei). cbn [expect_ok]. mred. set (T := put_space 0 (Some u) AddressSpaceTable_new) in *.
  assert (HT : ∀ j, AddressSpaceTable_get T j = if decide (j = 0) then Some u else None).
  { intros j. unfold T. rewrite put_space_get by done. case_decide; [done|]. unfold AddressSpaceTable_get.
    destruct (zget _ j) as [o|] eqn:Eo; [|done]. pose proof (zget_Some_lt _ _ _ Eo) as Hb.
    rewrite zget_lookup in Eo by lia. apply lookup_replicate in Eo as [-> _]. done. }
  destruct (thread_Done paging _ (root kas) ute 0 stk entry ustk (k_mem k5) l5 kf Hs HC Hp Hno)
    as (t & s6 & Et & Ha & Hm & Hroom & Hh & Hs6 & HC6 & Hcr).
  erewrite bind_Done by (by apply on_part_Done). set (k6 := set_k_mem s6 (set_k_spaces T k5)).
  destruct (only_user paging kas u T 0 s6 l5 Hs6 HC6 HT) as [HsT HCT].
  assert (Hk6 : kernel_ok k6 (mkAbsSched None [] ∅)).
  { apply kernel_ok_mem; [|exact Hcr]. apply kernel_ok_spaces; [done|]. intros j sp. rewrite Ht.
    unfold AddressSpaceTable_get. destruct (zget _ j) as [o|] eqn:Eo; [|done]. pose proof (zget_Some_lt _ _ _ Eo) as Hb.
    rewrite zget_lookup in Eo by lia. by apply lookup_replicate in Eo as [-> _]. }
  destruct (add_task_spec k6 _ t Hk6 Hroom) as [(id & t' & k' & E & (rq & Ek) & Hid & _ & Hk' & Hl & Ha' & _ & _ & Hm' & h & Hg & Hgs)|[_ Hfull]].
  { rewrite Ha. simpl. rewrite HT. by eexists. }
  2: { destruct (Hfull 0 ltac:(done)) as [? Hc]. simpl in Hc. by rewrite lookup_empty in Hc. }
  rewrite (bind_Done _ _ _ _ _ E). exists id, k'. split; [done|].
  assert (Hall : ∀ i t0, lookup_task (k_sched k') i = Some t0 → i = id ∧ t0 = t').
  { intros i t0 Hi. pose proof (sr_states _ _ (ko_sched _ _ Hk') i) as Hst. rewrite Hi in Hst. simpl in Hst.
    destruct (decide (i = id)) as [->|Hne]; [split; [done|congruence]|]. by rewrite lookup_insert_ne, lookup_empty in Hst. }
  assert (Hsp : k_spaces k' = T) by (by rewrite Ek). assert (Hme : k_mem k' = s6) by (by rewrite Ek).
  split; rewrite ?Hsp, ?Hme; try done.
  - eapply caps_without; [exact HCT|]. intros i h' hd. unfold handle_at.
    destruct (lookup_task (k_sched k') i) as [t0|] eqn:Ei'; [|done]. simpl. apply Hall in Ei' as [-> ->].
    destruct (decide (h' = h)) as [->|Hne]; [rewrite Hg; by intros [= <-]|]. rewrite Hgs by done. intros Hh'%Hh. rewrite Hh'.
    split; [done|]. intros a [= <-]. rewrite HT. by eexists.
  - intros i t0 [-> ->]%Hall. rewrite Hm', Hm. exists []. split; [apply mailbox_new_rep|constructor].
Qed.
(** The pages of the kernel stack while the space is built. *)
Lemma stack_page_kept slot ks s1 l1 u s lf :
  stack_live kas s1 l1 (slot, ks) → spaces_inv paging (beside kas (Some u)) s lf →
  (∀ x, same_page (root kas) (ms_mem s1) (ms_mem s) x) → (∀ j, l1 !! j = Some Allocated → lf !! j = Some Allocated) →
  (∀ j, l1 !! j = Some Allocated → ¬ own_table (root kas) (ms_mem s1) (frame_at j) →
     ¬ some_table (beside kas (Some u)) (ms_mem s) (frame_at j)) →
  ∃ kf, stack_page (root kas) s lf (KernelStack_top (slot_stack slot) - PAGE_SIZE) kf ∧
    ¬ some_table (beside kas (Some u)) (ms_mem s) (frame_at kf).
Proof.
  intros (Hslot & Hlen & [P1 P2 P3] & _) Hs Hsame Hal Hno. simpl in *. set (n := KERNEL_STACK_PAGES - 1).
  assert (Hn : 0 ≤ n < Z.of_nat (length ks)) by (rewrite Hlen; unfold n, KERNEL_STACK_PAGES; lia).
  set (kf := nth (Z.to_nat n) ks 0%nat). exists kf.
  assert (Hin : kf ∈ ks) by (apply list_elem_of_In, nth_In; lia). destruct (P3 kf Hin) as [Ha Ho].
  assert (Hkv : AddressSpaceTable_get (beside kas (Some u)) 0 = Some (kernel_view kas)) by done.
  assert (Htop : KernelStack_top (slot_stack slot) - PAGE_SIZE = slot_start slot + n * FRAME_SIZE).
  { unfold KernelStack_top, slot_stack, slot_start, slot_bottom, n, KERNEL_SLOT_SIZE, KERNEL_STACK_PAGES, GUARD_PAGES, FRAME_SIZE, PAGE_SIZE.
    simpl. lia. }
  split; [|by apply Hno]. split.
  - by apply (si_space _ _ _ _ Hs 0 (kernel_view kas)).
  - rewrite Htop. unfold slot_start, slot_bottom, n, MAX_KERNEL_STACKS, KERNEL_STACK_BASE, KERNEL_SLOT_SIZE, KERNEL_STACK_PAGES,
      GUARD_PAGES, FRAME_SIZE, PAGE_SIZE, W64 in *. split_and!; [lia|lia|]. dmlia.
  - exists kernel_stack_perms. split; [done|]. rewrite Htop. eapply maps_page_same; [|by apply (P1 n Hn)]. auto.
  - split; [by apply Hal|]. intros Hc. apply (Hno kf Ha Ho). by exists 0, (kernel_view kas).
Qed.

Lemma image_bytes img m : is_bytes (InitramfsImage_data img m).
Proof.
  unfold InitramfsImage_data, raw_slice. apply Forall_fmap, Forall_forall. intros x _. apply load8_range.
Qed.

Lemma image_length img m : 0 ≤ ii_length img → slice_len (InitramfsImage_data img m) = ii_length img.
Proof.
  intros H. unfold InitramfsImage_data, raw_slice, range, slice_len. rewrite length_fmap, length_seqZ. lia.
Qed.
Context (ute : Z) (name : bytes) (img : InitramfsImage) (HI : image_ok kas img s0 l).

(** The allocator gave frames out since, and nothing else. *)
Lemma image_frames s1 l1 s2 l2 j :
  extended kas s0 l s1 l1 → same_area s1 s2 →
  (∀ k, l2 !! k = l1 !! k ∨ (l1 !! k = Some Free ∧ l2 !! k = Some Allocated)) →
  (∀ i, 0 ≤ i < image_pages img → spare_frame l s0 (j + Z.to_nat i)) →
  ∀ i, 0 ≤ i < Z.land (ii_length img + 0xFFF) (not64 0xFFF) / FRAME_SIZE →
    ∃ j', frame_at j + i * FRAME_SIZE = frame_at j' ∧ spare_frame l2 s2 j'.
Proof.
  intros X Har Hst Hspare i Hi. exists (j + Z.to_nat i)%nat. split; [unfold frame_at, FRAME_SIZE; lia|].
  eapply spare_mono; [exact Har|exact Hst|]. eapply spare_mono; [apply X|apply X|]. apply Hspare.
  pose proof (io_length _ _ _ _ HI) as Hlen. change 0xFFF with (2 ^ 12 - 1) in Hi.
  rewrite land_not64_mask in Hi by (unfold is_u64, W64; lia). unfold image_pages, FRAME_SIZE in *. dmlia.
Qed.

Ltac run := repeat (mred; cbn [expect expect_ok]; mred;
  erewrite bind_Done by first [apply on_part_Done; eassumption|match goal with H : ∀ s, uadd _ _ s = _ |- _ => apply H end]);
  mred; cbn [expect expect_ok]; mred.

(** The new space is filled: each step fails, or goes on. *)
Lemma fill_space u s2 l2 ps len b :
  built paging (beside kas (Some u)) 1 s2 l2 s2 l2 → kind u = User → pt_direct_map (root u) = pt_direct_map (root kas) →
  is_u64 ps → ps mod FRAME_SIZE = 0 → is_u64 len →
  (∀ i, 0 ≤ i < len / FRAME_SIZE → ∃ j, ps + i * FRAME_SIZE = frame_at j ∧ spare_frame l2 s2 j) →
  is_bytes b → slice_len b < 2 ^ 63 →
  let perms := mkPagePermissions true false true in
  ∃ r s3, AddressSpace_map_range u ps 0x40000000 len perms WriteBack s2 = Done (r, s3) ∧ (r = Ok tt →
    ∃ r s4, UserStack_allocate u s3 = Done (r, s4) ∧ ∀ st, r = Ok st →
      ∃ r s5, load_elf b u (pt_direct_map (root kas)) s4 = Done (r, s5) ∧ ∀ entry, r = Ok entry →
        ∃ l5, built paging (beside kas (Some u)) 1 s2 l2 s5 l5).
Proof.
  intros B2 Hkind Hdm Hps Hal Hlu Hfr Hb Hlen perms.
  assert (Hg : AddressSpaceTable_get (beside kas (Some u)) 1 = Some u) by done.
  assert (Hpt : ∀ s l0, built paging (beside kas (Some u)) 1 s2 l2 s l0 → pt_inv (root u) s l0).
  { intros s l0 B. by apply (si_space _ _ _ _ (bt_spaces _ _ _ _ _ _ _ B) 1). }
  destruct (map_range_spec u ps 0x40000000 perms WriteBack s2 l2 (Hpt _ _ B2) (proj1 Hps) ltac:(done) Hal ltac:(done) len)
    as (r & s3 & E3 & _); [done..|]. exists r, s3. split; [done|]. intros ->.
  assert (building paging (beside kas (Some u)) 1 s2 l2 s3) as (l3 & B3).
  { eapply build_range; [exact Hg|done|apply Hps|..|exact E3]; [|exact Hfr|by exists l2]. done. }
  destruct (stack_allocate_spec u USER_STACK_SIZE USER_STACK_TOP perms s3 l3 (Hpt _ _ B3)) as (r & s4 & _ & E4 & _); [done..|].
  exists (match r with Ok m => Ok (mkUserStack m) | Err e => Err e end), s4. split.
  { unfold UserStack_allocate. by destruct r; [rewrite (bind_ok_Ok _ _ _ _ _ E4)|rewrite (bind_ok_Err _ _ _ _ _ E4)]. }
  intros st Hst. destruct r as [m|e]; [|done].
  assert (building paging (beside kas (Some u)) 1 s2 l2 s4) as (l4 & B4).
  { eapply build_stack; [exact Hg|done|..|exact E4]; [|by exists l3]. done. }
  destruct (load_elf_spec u b s4 l4 (Hpt _ _ B4) Hb Hlen) as (r & s5 & E5 & _). rewrite Hdm in E5.
  exists r, s5. split; [done|]. intros entry ->. rewrite <- Hdm in E5.
  eapply build_elf; [exact Hg|exact Hb|exact Hlen| |exact E5]. by exists l4.
Qed.

(** The user space, from its creation until the program is in it. *)
Lemma space_Done k1 l1 b :
  extended kas s0 l (k_mem k1) l1 → is_bytes b → slice_len b < 2 ^ 63 →
  (∃ w, (∀ A (f : _ → _ → _ → M KState A), with_space kas img b f k1 = Panic w) ∧ w ∈ spawn_panics) ∨
  ∃ u entry ustk s5 l5, (∀ A (f : _ → _ → _ → M KState A), with_space kas img b f k1 = f u entry ustk (set_k_mem s5 k1)) ∧
    kind u = User ∧ spaces_inv paging (beside kas (Some u)) s5 l5 ∧ caps_inv no_handles (beside kas (Some u)) s5 l5 ∧
    ms_cr3 s5 = ms_cr3 (k_mem k1) ∧ (∀ x, same_page (root kas) (ms_mem (k_mem k1)) (ms_mem s5) x) ∧
    (∀ j, l5 !! j = l1 !! j ∨ (l1 !! j = Some Free ∧ l5 !! j = Some Allocated)) ∧
    (∀ j, l1 !! j = Some Allocated → ¬ own_table (root kas) (ms_mem (k_mem k1)) (frame_at j) →
       ¬ some_table (beside kas (Some u)) (ms_mem s5) (frame_at j)).
Proof.
  intros X Hb Hlen. pose proof HI as [I1 I2 (j & Hp & Hp64 & Hspare)]. unfold with_space.
  assert (Ep : AddressSpace_to_physical kas (ms_mem (k_mem k1)) (ii_start img) = Some (frame_at j)).
  { unfold AddressSpace_to_physical. destruct (ex_mapped _ _ _ _ _ X (ii_start img) I1) as [[-> _] _]; [by eexists|done]. }
  assert (Hlim : ∀ j, is_Some (l1 !! j) → frame_at j < physical_address_limit paging).
  { intros i Hi. apply R. destruct (ex_states _ _ _ _ _ X i) as [<-|[E _]]; [done|by eexists]. }
  destruct (new_space paging kas s0 (k_mem k1) l l1 X (br_paging _ _ _ _ _ _ R) Hlim) as (r & s2 & E2 & Hr).
  destruct r as [u|e]; [|left; eexists; split; [intros A f; mred; rewrite Ep; by run|unfold spawn_panics; set_solver]].
  destruct (Hr u eq_refl) as (f & Hf & Hkind & Hdm & B2 & Har & Hcr & Hsame & Hapart). set (l2 := <[f := Allocated]> l1) in *.
  assert (Hst2 : ∀ i, l2 !! i = l1 !! i ∨ (l1 !! i = Some Free ∧ l2 !! i = Some Allocated)).
  { intros i. destruct (decide (i = f)) as [->|]; [right|left; by apply list_lookup_insert_ne].
    split; [done|]. apply list_lookup_insert_eq. by eapply lookup_lt_Some. }
  assert (El : ∀ s : KState, uadd (ii_length img) 0xFFF s = Done (ii_length img + 0xFFF, s)) by (intros; apply uadd_lt; unfold W64; lia).
  destruct (fill_space u s2 l2 (frame_at j) (Z.land (ii_length img + 0xFFF) (not64 0xFFF)) b B2 Hkind Hdm) as (r & s3 & E3 & H3); try done.
  { unfold is_u64, frame_at, FRAME_SIZE in *. lia. } { unfold frame_at, FRAME_SIZE. by rewrite Z.mod_mul. }
  { replace 0xFFF with (2 ^ 12 - 1) by done. rewrite land_not64_mask by (unfold is_u64, W64; lia). unfold is_u64, W64. dmlia. }
  { by apply (image_frames (k_mem k1) l1). }
  destruct r as [[]|e]; [|left; eexists; split; [intros A g; mred; rewrite Ep; by run|unfold spawn_panics; set_solver]].
  destruct (H3 eq_refl) as (r & s4 & E4 & H4).
  destruct r as [m|e]; [|left; eexists; split; [intros A g; mred; rewrite Ep; by run|unfold spawn_panics; set_solver]].
  destruct (H4 m eq_refl) as (r & s5 & E5 & H5).
  destruct r as [entry|e]; [|left; eexists; split; [intros A g; mred; rewrite Ep; by run|unfold spawn_panics; set_solver]].
  destruct (H5 entry eq_refl) as (l5 & [S5 C5 A5 Cr5 L5 O5 D5]).
  right. exists u, entry, (UserStack_top m), s5, l5. split; [intros A g; mred; rewrite Ep; by run|].
  split_and!; try done.
  - congruence.
  - intros x. eapply same_page_trans; [apply Hsame|]. by apply (O5 0 (kernel_view kas)).
  - by apply (states_step l1 l2).
  - intros i Hi Hno. apply D5.
    + destruct (Hst2 i) as [->|[? _]]; [done|congruence].
    + apply Hapart; [congruence|done].
Qed.
Lemma spawn_spec :
  (∃ w, spawn ute name img kas (pt_direct_map (root kas)) k = Panic w ∧ w ∈ spawn_panics) ∨
  ∃ id k' l', spawn ute name img kas (pt_direct_map (root kas)) k = Done (id, k') ∧ spawned id k' l'.
Proof.
  unfold spawn. mred. set (archive := InitramfsImage_data img (ms_mem (k_mem k))). pose proof (io_length _ _ _ _ HI) as Hil.
  assert (Hal : slice_len archive = ii_length img) by (apply image_length; lia).
  destruct (find_file_from_total (S (length archive)) archive name 0 k) as (r & Ef & Hr);
    [rewrite Hal; lia|unfold slice_len; lia|unfold slice_len; lia|].
  unfold find_file. rewrite (bind_Done _ _ _ _ _ Ef).
  destruct r as [b|]; [|left; eexists; split; [by mred|unfold spawn_panics; set_solver]]. cbn [expect]. mred.
  destruct (Hr b eq_refl) as (pre & post & Ea).
  assert (Hb : is_bytes b). { pose proof (image_bytes img (ms_mem (k_mem k))) as H. fold archive in H. rewrite Ea in H.
    apply Forall_app in H as [_ H]. by apply Forall_app in H as [H _]. }
  assert (Hbl : slice_len b < 2 ^ 63). { rewrite Ea in Hal. unfold slice_len in *. rewrite !length_app in Hal. lia. }
  destruct stack_Done as (r & k1 & E1 & H1). rewrite (bind_Done _ _ _ _ _ E1).
  destruct r as [st|e]; [|left; eexists; split; [done|unfold spawn_panics; set_solver]].
  destruct (H1 st eq_refl) as (slot & ks & l1 & -> & X & Hlive & Hk1 & Hsp1 & _). cbn [expect_ok]. mred.
  match goal with |- context [?c k1] => change (c k1) with (with_space kas img b (λ u entry ustk,
    let! r := insert_address_space u in
    let! as_id := expect_ok r "address space table is full" in
    let! task := on_memory (Tcb_new_user (root kas) ute as_id (slot_stack slot) entry ustk) in
    let! r := add_task task in expect_ok r "scheduler is full") k1) end.
  destruct (space_Done k1 l1 b X Hb Hbl) as [(w & Ew & Hw)|(u & entry & ustk & s5 & l5 & E5 & Hkind & S5 & C5 & Hcr & Hsame & Hst & Hno)];
    [left; exists w; by rewrite Ew|right]. rewrite E5.
  destruct (stack_page_kept slot ks (k_mem k1) l1 u s5 l5 Hlive S5 Hsame) as (kf & Hpage & Hkf); [|done|].
  { intros j Hj. destruct (Hst j) as [->|[? _]]; [done|congruence]. }
  destruct (add_first ute (slot_stack slot) entry ustk u (set_k_mem s5 k1) l5 kf) as (id & k' & E' & Hs); try done.
  - by apply kernel_ok_mem.
  - intros j Hj. apply R. destruct (Hst j) as [E|[E _]].
    + rewrite E in Hj. destruct (ex_states _ _ _ _ _ X j) as [<-|[E' _]]; [done|by eexists].
    + destruct (ex_states _ _ _ _ _ X j) as [<-|[E' _]]; by eexists.
  - by exists id, k', l5.
Qed.
End spawning.

(** ** Starting the scheduler *)

(** The end of [kernel_main]: the first task, the globals, and the switch into it. *)
Definition launch (user_thread_entry : Z) (name : bytes) (initramfs : InitramfsImage) (address_space : AddressSpace)
    (direct_map : DirectMap) : M KState unit :=
  let! _ := spawn user_thread_entry name initramfs address_space direct_map in
  let! k := get in
  do! init_frame_allocator (ms_fa (k_mem k)) ;;;
  do! init_kernel_address_space address_space ;;;
  start.

Lemma mail_kept (s s' : Scheduler) : mail_ok s → (∀ id, task_view s' id = task_view s id) → mail_ok s'.
Proof.
  intros Hm Hv id t Ht. specialize (Hv id). unfold task_view in Hv. rewrite Ht in Hv.
  destruct (lookup_task s id) as [t0|] eqn:Ht0; [|done]. injection Hv as _ _ ->. by eapply Hm.
Qed.

Lemma launch_spec paging kas k l live lost ute name img :
  boot_ready paging kas k l live lost → image_ok kas img (k_mem k) l →
  (∃ w, launch ute name img kas (pt_direct_map (root kas)) k = Panic w ∧ w ∈ spawn_panics) ∨
  ∃ id k' a l', launch ute name img kas (pt_direct_map (root kas)) k = Done (tt, k') ∧
    system paging k' a l' ∧ ab_current a = Some id.
Proof.
  intros R HI. unfold launch.
  destruct (spawn_spec paging kas k l live lost R ute name img HI) as [(w & E & Hw)|(id & k1 & l1 & E & [S1 S2 S3 S4 S5])];
    [left; exists w; by rewrite (bind_Panic _ _ _ _ E)|right].
  rewrite (bind_Done _ _ _ _ _ E). mred. unfold init_frame_allocator, init_kernel_address_space.
  erewrite bind_Done by (apply masked_flag; reflexivity). erewrite bind_Done by (apply masked_flag; reflexivity).
  match goal with |- context [start ?x] => set (k2 := x) end.
  assert (Hk2 : kernel_ok k2 (abs_add id (mkAbsSched None [] ∅))) by (destruct S1; by split).
  destruct (start_spec k2 _ id [] Hk2 eq_refl eq_refl) as (k3 & E3 & Hk3).
  assert (W2 : world paging k2 (abs_add id (mkAbsSched None [] ∅)) l1).
  { split; [done|done| | |done].
    - by eapply spaces_inv_ext; [..|exact S2].
    - by eapply caps_ext; [..|exact S3]. }
  pose proof (keeping_start _ _ _ E3) as K.
  eexists id, k3, (abs_start id [] _), l1. split; [exact E3|]. split; [split|done].
  - by eapply world_keeps.
  - eapply mail_kept; [exact S4|apply K].
Qed.

(** From a state in which a task runs on, the system is safe. *)
Definition runs_safely (paging : PagingConfig) (ute : Z) (id : TaskId) (k : KState) : Prop :=
  current (k_sched k) = Some id ∧ cpu_runs k id ∧
  ∀ m', rtc (machine_step paging ute) (mkMachine k ∅) m' → ∃ a l', machine_ok paging m' a l' ∧ frames_safe (mc_kernel m') l'.

Lemma system_runs paging ute k a l id : system paging k a l → ab_current a = Some id → runs_safely paging ute id k.
Proof.
  intros S Hc. pose proof (w_kernel _ _ _ _ (sy_world _ _ _ _ S)) as Hk.
  split_and!; [by rewrite (sr_current _ _ (ko_sched _ _ Hk))|by apply Hk|].
  intros m' Hm. destruct (machine_steps_ok paging ute (mkMachine k ∅) m' a l Hm) as (a1 & l1 & Hok).
  { split; [exact S|]. intros c rest Hr. simpl in Hr. by rewrite lookup_empty in Hr. }
  exists a1, l1. split; [done|]. eapply world_frames_safe, Hok.
Qed.

(** ** Theorem *)

(** The system is safe from its first task on.  Started with the kernel's own page table, no task and
    an initramfs in frames that the allocator does not give out, the kernel either panics for one of six
    reasons, for lack of memory or because the archive holds no such program, or the first task runs,
    and whatever the tasks do from then on, the invariant of handles, pages, page tables and mailboxes
    holds and every frame is used safely.  No index, addition or assertion on the way fails. *)
Theorem first_task_safe (paging : PagingConfig) (kas : AddressSpace) (k : KState) (l : list FrameState)
    (live : list (Z * list nat)) (lost : list Z) (ute : Z) (name : bytes) (img : InitramfsImage) :
  boot_ready paging kas k l live lost → image_ok kas img (k_mem k) l →
  (∃ w, launch ute name img kas (pt_direct_map (root kas)) k = Panic w ∧ w ∈ spawn_panics) ∨
  ∃ id k', launch ute name img kas (pt_direct_map (root kas)) k = Done (tt, k') ∧
    current (k_sched k') = Some id ∧ cpu_runs k' id ∧
    ∀ m', rtc (machine_step paging ute) (mkMachine k' ∅) m' →
      ∃ a l', machine_ok paging m' a l' ∧ frames_safe (mc_kernel m') l'.
Proof.
  intros R HI. destruct (launch_spec paging kas k l live lost ute name img R HI) as [?|(id & k' & a & l' & E & S & Hc)];
    [by left|right]. exists id, k'. split; [done|]. by eapply system_runs.
Qed.

(** ** Witness *)

(** Eighty frames of memory behind the direct map, and the archive with one program in frame 100. *)
Definition boot_archive : bytes := encode_archive [mkFile (ascii "omega3.elf") demo_elf demo_meta] demo_meta.
Definition boot_memory : memory := λ a, default 0xAB (zget boot_archive (a - 0xFFFF800000064000)).
Definition boot_regions : list MemoryRegion := [mkMemoryRegion 0x1000 0x4F000 Usable].
Definition boot_alloc : MState :=
  match FrameAllocator_new boot_regions demo_dm boot_memory with
  | Done (Ok fa, m) => mkMState m fa 0 []
  | _ => demo_state
  end.
Definition boot_table : MState :=
  match PageTable_new demo_dm demo_config boot_alloc with
  | Done (_, s) => s
  | _ => demo_state
  end.
Definition boot_state : MState :=
  match AddressSpace_map (demo_space Kernel) (frame_at 100) 0xFFFF800000064000 (mkPagePermissions true false false) WriteBack boot_table with
  | Done (_, s) => s
  | _ => demo_state
  end.
Definition boot_kernel : KState :=
  mkKState boot_state false AddressSpaceTable_new None Scheduler_new true 0 0 BootstrapContext [].
Definition boot_image : InitramfsImage := mkInitramfsImage 0xFFFF800000064000 372.
Definition boot_frames : list FrameState := Reserved :: Reserved :: replicate 78 Free.

Lemma boot_regions_wf : Forall region_wf boot_regions.
Proof. repeat (apply Forall_cons; split; [by vm_compute|]). apply Forall_nil. done. Qed.

Lemma boot_regions_nodup : NoDup (usable_frames boot_regions).
Proof. apply (bool_decide_unpack _). by vm_compute. Qed.

Lemma boot_refines : refines boot_alloc (mkAbs boot_frames 2).
Proof.
  destruct (new_spec_ok boot_regions demo_dm boot_memory 80 1 boot_regions_wf boot_regions_nodup
    eq_refl eq_refl ltac:(by vm_compute)) as (m' & n & E & Hm & _).
  unfold boot_alloc. rewrite E.
  apply (new_fa_inv boot_regions demo_dm m' 80 1 n 0 []); try done; by vm_compute.
Qed.

(** Mapping one page of the kernel half of a new page table. *)
Lemma first_mapping dm config s l pt s1 va j perms cp s2 :
  fa_inv s l → direct_map (ms_fa s) = dm → config_wf config → PageTable_new dm config s = Done (Ok pt, s1) →
  is_u64 va → USER_SPACE_END ≤ va → va mod PAGE_SIZE = 0 → is_u64 (frame_at j) →
  AddressSpace_map (mkAddressSpace pt Kernel) (frame_at j) va perms cp s1 = Done (Ok tt, s2) →
  ∃ l1 l2, extended (mkAddressSpace pt Kernel) s1 l1 s2 l2 ∧ length l1 = length l ∧ same_area s s1 ∧
    PageTable_to_physical pt (ms_mem s2) va = Some (frame_at j).
Proof.
  intros Hfa Hdm Hcfg E Hva Hhi Hal Hj Em.
  pose proof (page_table_new_layout _ _ _ _ _ _ Hfa E) as Hl.
  destruct (page_table_new_spec s l dm config Hfa Hdm Hcfg) as (r & s' & E' & H). rewrite E in E'. injection E' as <- <-.
  destruct H as (f & _ & -> & Hinv & _ & Hz & _). set (pt := mkPageTable dm config (frame_at f)) in *. set (l1 := <[f := Allocated]> l) in *.
  assert (X0 : extended (mkAddressSpace pt Kernel) s1 l1 s1 l1).
  { apply extended_refl; [exact Hinv|]. intros x _ _. by apply walk_empty. }
  destruct (extended_map _ _ _ _ _ _ _ _ _ _ _ X0 Hva Hhi Hj Em) as [l2 X].
  exists l1, l2. split_and!; [exact X|by unfold l1; rewrite length_insert|by apply same_area_layout|].
  destruct (AddressSpace_map_spec (mkAddressSpace pt Kernel) s1 l1 (frame_at j) va perms cp Hinv Hva Hj) as (r & s3 & E3 & Hr).
  rewrite Em in E3. injection E3 as <- <-. destruct Hr as [_ (l3 & Hpost)].
  destruct (mo_new _ _ _ _ _ _ _ _ Hpost va Hva eq_refl) as [Hp _]. rewrite Hal, Z.add_0_r in Hp. exact Hp.
Qed.

Lemma boot_extended :
  ∃ l1 l, extended (demo_space Kernel) boot_table l1 boot_state l ∧ length l1 = 80%nat ∧ same_area boot_alloc boot_table ∧
    PageTable_to_physical demo_pt (ms_mem boot_state) 0xFFFF800000064000 = Some (frame_at 100).
Proof.
  assert (Et : PageTable_new demo_dm demo_config boot_alloc = Done (Ok demo_pt, boot_table)).
  { unfold boot_table. assert (H : returned (PageTable_new demo_dm demo_config boot_alloc) = Some (Ok demo_pt)) by (vm_compute; reflexivity).
    destruct (PageTable_new demo_dm demo_config boot_alloc) as [[r s]| |]; [|discriminate H..]. by injection H as ->. }
  assert (Em : AddressSpace_map (demo_space Kernel) (frame_at 100) 0xFFFF800000064000 (mkPagePermissions true false false)
      WriteBack boot_table = Done (Ok tt, boot_state)).
  { unfold boot_state. assert (H : returned (AddressSpace_map (demo_space Kernel) (frame_at 100) 0xFFFF800000064000
      (mkPagePermissions true false false) WriteBack boot_table) = Some (Ok tt)) by (vm_compute; reflexivity).
    destruct (AddressSpace_map _ _ _ _ _ boot_table) as [[r s]| |]; [|discriminate H..]. by injection H as ->. }
  assert (Hd : direct_map (ms_fa boot_alloc) = demo_dm) by (vm_compute; reflexivity).
  assert (Hv : is_u64 0xFFFF800000064000) by (unfold is_u64, W64; lia).
  assert (Hj : is_u64 (frame_at 100)) by (unfold is_u64, W64, frame_at, FRAME_SIZE; lia).
  exact (first_mapping demo_dm demo_config boot_alloc boot_frames demo_pt boot_table 0xFFFF800000064000 100
    (mkPagePermissions true false false) WriteBack boot_state (proj1 boot_refines) Hd demo_config_wf Et Hv ltac:(unfold USER_SPACE_END; lia)
    eq_refl Hj Em).
Qed.

Lemma boot_area : bitmap (ms_fa boot_alloc) = mkBitmap 0xFFFF800000001000 80 ∧ direct_map (ms_fa boot_alloc) = demo_dm.
Proof. split; vm_compute; reflexivity. Qed.

(** One page in frame 100, which the allocator knows nothing of. *)
Lemma boot_image_ok kas s1 l1 s l :
  extended kas s1 l1 s l → length l1 = 80%nat → same_area boot_alloc s1 →
  PageTable_to_physical (root kas) (ms_mem s) 0xFFFF800000064000 = Some (frame_at 100) → image_ok kas boot_image s l.
Proof.
  intros X Hl Har Hp. destruct boot_area as [Eb Ed]. split.
  - unfold is_u64, W64. simpl. lia.
  - simpl. lia.
  - exists 100%nat. split; [exact Hp|]. split; [unfold frame_at, FRAME_SIZE, W64; lia|]. intros i Hi.
    change (image_pages boot_image) with 1 in Hi. assert (i = 0) as -> by lia.
    eapply spare_mono; [apply X|apply X|]. eapply spare_mono; [exact Har|by left|].
    unfold spare_frame. rewrite Eb, Ed, lookup_ge_None_2 by (rewrite Hl; lia). split_and!; [done|done| |].
    + right. unfold frame_virt, FRAME_SIZE. vm_compute. discriminate.
    + unfold frame_virt, FRAME_SIZE. vm_compute. discriminate.
Qed.

Lemma boot_kernel_ready kas s1 l1 s l :
  extended kas s1 l1 s l → length l1 = 80%nat → pt_config (root kas) = demo_config →
  boot_ready demo_config kas (mkKState s false AddressSpaceTable_new None Scheduler_new true 0 0 BootstrapContext []) l [] [].
Proof.
  intros X Hl Hc. split; try done.
  - by apply kernel_ok_new.
  - apply pool_inv_init, X.
  - apply X.
  - intros j [st Hj]. assert (j < 80)%nat.
    { rewrite <- Hl. apply lookup_lt_is_Some. destruct (ex_states _ _ _ _ _ X j) as [<-|[? _]]; by eexists. }
    change (physical_address_limit demo_config) with (2 ^ 40). unfold frame_at, FRAME_SIZE. lia.
Qed.

Lemma first_task_safe_witness :
  ∃ k', launch 0xFFFFFFFF80001000 (ascii "omega3.elf") boot_image (demo_space Kernel) demo_dm boot_kernel = Done (tt, k') ∧
    current (k_sched k') = Some 0 ∧
    ∀ m', rtc (machine_step demo_config 0xFFFFFFFF80001000) (mkMachine k' ∅) m' →
      ∃ a l', machine_ok demo_config m' a l' ∧ frames_safe (mc_kernel m') l'.
Proof.
  destruct boot_extended as (l1 & l & X & Hl & Har & Hp).
  destruct (first_task_safe demo_config (demo_space Kernel) boot_kernel l [] [] 0xFFFFFFFF80001000 (ascii "omega3.elf") boot_image
    (boot_kernel_ready _ _ _ _ _ X Hl eq_refl) (boot_image_ok _ _ _ _ _ X Hl Har Hp)) as [(w & E & _)|(id & k' & E & Hc & _ & H)].
  - assert (Hr : returned (launch 0xFFFFFFFF80001000 (ascii "omega3.elf") boot_image (demo_space Kernel) demo_dm boot_kernel) = Some tt)
      by (vm_compute; reflexivity).
    change (pt_direct_map (root (demo_space Kernel))) with demo_dm in E. rewrite E in Hr. discriminate Hr.
  - change (pt_direct_map (root (demo_space Kernel))) with demo_dm in E. exists k'. split; [exact E|].
    assert (Hr : match launch 0xFFFFFFFF80001000 (ascii "omega3.elf") boot_image (demo_space Kernel) demo_dm boot_kernel with
                 | Done (_, k) => current (k_sched k) = Some 0 | _ => False end) by (vm_compute; reflexivity).
    rewrite E in Hr. split; [exact Hr|exact H].
Defined.
