(* ===== verification/KernelSpace.v ===== *)
(** * The kernel's address space

    What [AddressSpace::new_kernel] of [src/memory/address_space.rs] builds: the direct map of the
    memory regions and the segments of the kernel, in the upper half and for the kernel alone. *)

From S2P Require Import Prelude Memory Bytes Frame Paging PageTree PageMap PageUnmap AddressSpace VirtMem Stack Spaces.
From S2P Require Import Destroy Ring Tcb Kernel Scheduler Registers Tasks User Syscall Ipc Caps Calls Create Bootstrap.

(** ** Ranges of pages *)

(** The bytes of a range translate one to one, with these permissions. *)
Definition maps_range (self : PageTable) (m : memory) (vs ps len : Z) (perms : PagePermissions) : Prop :=
  ∀ x, vs ≤ x < vs + len →
    PageTable_to_physical self m x = Some (ps + (x - vs)) ∧ PageTable_mapping self m x = Some (mkPageTableMapping perms).

Lemma maps_range_at self m vs ps len perms x pa :
  maps_range self m vs ps len perms → vs ≤ x < vs + len → pa = ps + (x - vs) →
  PageTable_to_physical self m x = Some pa ∧ PageTable_mapping self m x = Some (mkPageTableMapping perms).
Proof. intros H Hx ->. by apply H. Qed.

Section ranges.
Context (kas : AddressSpace).

(** A range that was mapped ends within the address space. *)
Lemma map_range_bound ps vs len perms cp s a s' :
  ps mod FRAME_SIZE = 0 → vs mod FRAME_SIZE = 0 → len mod FRAME_SIZE = 0 → len ≠ 0 →
  AddressSpace_map_range kas ps vs len perms cp s = Done (Ok a, s') → vs + len ≤ W64.
Proof.
  intros Ap Av Al Hn E. unfold AddressSpace_map_range in E. rewrite (proj2 (Z.eqb_neq _ _) Hn), Ap, Av, Al in E. simpl in E.
  apply bind_Done_inv in E as (o & ? & [[_ ->]%checked_sub_Some ->]%expect_inv & E).
  destruct (checked_add ps _) in E; [|done]. destruct (checked_add vs _) eqn:Ev in E; [|done]. apply checked_add_Some in Ev as [_ Ev].
  unfold FRAME_SIZE, W64 in *. dmlia.
Qed.

Lemma map_range_any ps vs len perms cp s l :
  pt_inv (root kas) s l → is_u64 ps → is_u64 vs → is_u64 len →
  ∃ r s', AddressSpace_map_range kas ps vs len perms cp s = Done (r, s') ∧ (∃ l', pt_inv (root kas) s' l') ∧
    (r = Ok tt → (vs + len ≤ W64 ∨ len = 0) ∧ maps_range (root kas) (ms_mem s') vs ps len perms).
Proof.
  intros Hinv Hps Hvs Hlen. destruct (decide (ps mod FRAME_SIZE = 0 ∧ vs mod FRAME_SIZE = 0 ∧ len mod FRAME_SIZE = 0)) as [(Ap & Av & Al)|Hn].
  - destruct (map_range_spec kas ps vs perms cp s l Hinv (proj1 Hps) (proj1 Hvs) Ap Av len Hps Hvs Hlen) as (r & s' & E & Hr).
    exists r, s'. split; [done|]. destruct r as [[]|e]; destruct Hr as (l' & Hr); [destruct Hr as (Hr & _)|]; (split; [exists l'; apply Hr|]); [|done].
    intros _. destruct (decide (len = 0)) as [->|Hne]; [split; [by right|]; intros x Hx; lia|].
    pose proof (map_range_bound _ _ _ _ _ _ _ _ Ap Av Al Hne E) as Hb. split; [by left|].
    intros x Hx. destruct (rm_pages _ _ _ _ _ _ _ _ _ Hr ((x - vs) / FRAME_SIZE)) as (Hm & _ & _); [unfold FRAME_SIZE in *; dmlia|].
    destruct (Hm x) as [H1 H2]; [unfold is_u64 in *; lia|unfold FRAME_SIZE, PAGE_SIZE in *; dmlia|].
    split; [|exact H2]. rewrite H1. f_equal. unfold FRAME_SIZE, PAGE_SIZE in *. dmlia.
  - exists (if len =? 0 then Ok tt else Err (if negb (ps mod FRAME_SIZE =? 0) then PhysicalAddressUnaligned
      else if negb (vs mod FRAME_SIZE =? 0) then VirtualAddressUnaligned else RangeLengthUnaligned)), s.
    unfold AddressSpace_map_range. destruct (Z.eqb_spec len 0) as [->|]; [split_and!; [done|by exists l|]|].
    { intros _. split; [by right|]. intros x Hx. lia. }
    destruct (Z.eqb_spec (ps mod FRAME_SIZE) 0), (Z.eqb_spec (vs mod FRAME_SIZE) 0), (Z.eqb_spec (len mod FRAME_SIZE) 0);
      simpl; try (split_and!; [done|by exists l|done]). tauto.
Qed.

Context (s0 : MState) (l0 : list FrameState).

Lemma extend_range ps vs len perms cp :
  0 ≤ ps → USER_SPACE_END ≤ vs → keeps_ok (extending kas s0 l0) (AddressSpace_map_range kas ps vs len perms cp).
Proof.
  intros Hps Hvs s a s' HI E. unfold AddressSpace_map_range in E.
  destruct (len =? 0); [by injection E as _ <-|]. repeat (destruct (negb _); [done|]).
  apply bind_Done_inv in E as (lo & s1 & [_ ->]%expect_inv & E).
  destruct (checked_add ps _); [|done]. destruct (checked_add vs _); [|done]. cbn [ok_or] in E. rewrite !bind_ok_ret in E. cbn iota in E.
  revert HI E. apply keeps_ok_mfor. clear s s' a. intros i Hi%elem_of_range s a s' [l X] E. unfold map_range_page in E.
  apply bind_Done_inv in E as (o & ? & [[-> _]%checked_mul_Some ->]%expect_inv & E).
  apply bind_Done_inv in E as (pa & ? & [[-> Hp]%checked_add_Some ->]%expect_inv & E).
  apply bind_Done_inv in E as (va & ? & [[-> Hv]%checked_add_Some ->]%expect_inv & E).
  apply bind_Done_inv in E as ([[]|e] & s1 & E1 & E); [|by apply bind_Done_inv in E as (? & ? & _ & ?)].
  injection E as _ <-. unfold FRAME_SIZE, USER_SPACE_END in *.
  eapply extended_map; [exact X| | | |exact E1]; unfold is_u64, USER_SPACE_END; lia.
Qed.

(** What was mapped stays mapped while more is mapped. *)
Lemma maps_range_kept s l s' l' vs ps len perms :
  extended kas s l s' l' → 0 ≤ vs → (vs + len ≤ W64 ∨ len = 0) →
  maps_range (root kas) (ms_mem s) vs ps len perms → maps_range (root kas) (ms_mem s') vs ps len perms.
Proof.
  intros X Hv Hb Hm x Hx. destruct (Hm x Hx) as [H1 H2].
  destruct (ex_mapped _ _ _ _ _ X x) as [[-> ->] _]; [unfold is_u64; lia|by eexists|done].
Qed.

Lemma extended_trans s l s' l' s'' l'' :
  extended kas s l s' l' → extended kas s' l' s'' l'' → extended kas s l s'' l''.
Proof.
  intros [X1 X2 X3 X4 X5 X6] [Y1 Y2 Y3 Y4 Y5 Y6]. split; try done.
  - by etrans.
  - congruence.
  - by apply (states_step l l').
  - intros x Hx Hm. pose proof (X5 x Hx Hm) as Hs. eapply same_page_trans; [exact Hs|]. apply Y5; [done|].
    destruct Hs as [[-> _] _]. done.
Qed.

End ranges.

(** ** Mapping leaves CR3 alone *)

Lemma keeps_mfor_ok {A E} v (l : list A) (f : A → M MState (result unit E)) :
  (∀ x, keeps_cr3 v (f x)) → keeps_cr3 v (mfor_ok l f).
Proof. intros Hf. induction l as [|x l IH]; simpl; [apply keeps_ret|]. by apply keeps_bind_ok. Qed.

Lemma keeps_mfind {A} v (l : list A) (f : A → M MState bool) :
  (∀ x, keeps_cr3 v (f x)) → keeps_cr3 v (mfind l f).
Proof. intros Hf. induction l as [|x l IH]; simpl; keeps. Qed.

Lemma keeps_usub v a b : keeps_cr3 v (usub a b).
Proof. unfold usub. keeps. Qed.
#[local] Hint Resolve keeps_usub : keeps.

Lemma keeps_alloc v : keeps_cr3 v FrameAllocator_alloc.
Proof.
  unfold FrameAllocator_alloc, FrameAllocator_alloc_nozero, find_free_frame, find_free_in, FrameAddr_from_index.
  keeps; apply keeps_mfind; intros ?; keeps.
Qed.
#[local] Hint Resolve keeps_alloc : keeps.

Lemma keeps_alloc_private v self user count tables : keeps_cr3 v (alloc_private self user count tables).
Proof. revert tables. induction count as [|n IH]; intros tables; simpl; keeps; apply IH. Qed.

Lemma keeps_link_private v self address user leaf lvls tables :
  keeps_cr3 v (link_private self address user leaf lvls tables).
Proof.
  revert tables. induction lvls as [|lv lvls IH]; intros [|t ts]; cbn [link_private]; keeps.
Qed.
#[local] Hint Resolve keeps_alloc_private keeps_link_private : keeps.

Lemma keeps_page_map v self va frame perms cp global : keeps_cr3 v (PageTable_map self va frame perms cp global).
Proof. unfold PageTable_map, prepare_private, apply_user_upgrades. keeps. Qed.
#[local] Hint Resolve keeps_page_map : keeps.

Lemma keeps_map_range v self ps vs len perms cp : keeps_cr3 v (AddressSpace_map_range self ps vs len perms cp).
Proof.
  unfold AddressSpace_map_range. keeps. apply keeps_mfor_ok. intros ?. unfold map_range_page, AddressSpace_map, map_range_rollback. keeps.
Qed.

(** ** The loops of [new_kernel] *)

(** A segment of the kernel image: no end beyond the address space, mapped in the upper half. *)
Definition segment_wf (seg : KernelSegment) : Prop :=
  0 ≤ seg_physical_base seg ∧ is_u64 (seg_length seg) ∧ seg_physical_base seg + seg_length seg < W64 ∧
  is_u64 (seg_virtual_base seg) ∧ USER_SPACE_END ≤ seg_virtual_base seg.

(** Each segment starts where the one before it stops. *)
Fixpoint segments_from (stop : option Z) (segs : list KernelSegment) : Prop :=
  match segs with
  | [] => True
  | seg :: segs => (∀ p, stop = Some p → seg_physical_base seg = p) ∧
      segments_from (Some (seg_physical_base seg + seg_length seg)) segs
  end.

Section loops.
Context (kas : AddressSpace) (dm : DirectMap) (layout : KernelMemoryLayout).

Definition mapped_to (m : memory) (vs ps len : Z) (perms : PagePermissions) : Prop :=
  (vs + len ≤ W64 ∨ len = 0) ∧ maps_range (root kas) m vs ps len perms.

Definition region_mapped (m : memory) (r : MemoryRegion) : Prop :=
  region_skipped layout r = false → mapped_to m (region_start r + offset dm) (region_start r) (region_length r) (mkPagePermissions true false false).

Definition segment_mapped (m : memory) (seg : KernelSegment) : Prop :=
  mapped_to m (seg_virtual_base seg) (seg_physical_base seg) (seg_length seg) (seg_permissions seg).

Lemma mapped_to_kept s l s' l' vs ps len perms :
  extended kas s l s' l' → 0 ≤ vs → mapped_to (ms_mem s) vs ps len perms → mapped_to (ms_mem s') vs ps len perms.
Proof. intros X Hv [Hb Hm]. split; [done|]. by eapply maps_range_kept. Qed.

(** The space as it is built: what is mapped stays, and it is not in use. *)
Record growing (s : MState) (l : list FrameState) : Prop := {
  gr_ext : extended kas s l s l;
  gr_idle : active_root (root kas) s = false;
}.

Lemma growing_ext s l s' l' : growing s l → extended kas s l s' l' → growing s' l'.
Proof.
  intros [_ Hi] X. split; [apply extended_refl; apply X|]. unfold active_root in *. by rewrite (ex_cr3 _ _ _ _ _ X).
Qed.

Lemma grow_range s l ps vs len perms cp :
  growing s l → is_u64 ps → is_u64 vs → is_u64 len → USER_SPACE_END ≤ vs →
  ∃ r s', AddressSpace_map_range kas ps vs len perms cp s = Done (r, s') ∧
    match r with
    | Ok _ => ∃ l', extended kas s l s' l' ∧ mapped_to (ms_mem s') vs ps len perms
    | Err _ => ∃ s'' l'', AddressSpace_destroy kas s' = Done (tt, s'') ∧ fa_inv s'' l''
    end.
Proof.
  intros [X Hi] Hps Hvs Hlen Hhi.
  destruct (map_range_any kas ps vs len perms cp s l (ex_inv _ _ _ _ _ X) Hps Hvs Hlen) as (r & s' & E & [l' Hl'] & Hr).
  exists r, s'. split; [done|]. destruct r as [[]|e].
  - destruct (extend_range kas s l ps vs len perms cp (proj1 Hps) Hhi s tt s') as [l1 X1]; [by exists l|done|].
    exists l1. split; [done|]. by apply Hr.
  - assert (Hi' : active_root (root kas) s' = false).
    { unfold active_root in *. by rewrite (keeps_map_range (ms_cr3 s) _ _ _ _ _ _ _ _ _ eq_refl E). }
    destruct (space_destroy_spec kas s' l' Hl' Hi') as (s'' & l'' & E' & HD). exists s'', l''. split; [done|]. apply HD.
Qed.

Lemma grow_region s l r :
  growing s l → is_u64 (offset dm) → USER_SPACE_END ≤ offset dm → region_wf r →
  ∃ o s', new_kernel_region kas dm layout r s = Done (o, s') ∧
    match o with Ok _ => ∃ l', extended kas s l s' l' ∧ region_mapped (ms_mem s') r | Err _ => ∃ l', fa_inv s' l' end.
Proof.
  intros G Hoff Hhi [Hs Hl]. pose proof (gr_ext _ _ G) as X. unfold new_kernel_region, region_mapped. destruct (region_skipped layout r) eqn:Hk.
  { exists (Ok tt), s. split; [done|]. by exists l. }
  unfold DirectMap_translate. destruct (checked_add _ _) as [vs|] eqn:E; cbn [ok_or]; rewrite bind_ok_ret; cbn iota.
  2:{ exists (Err AddressOutsideDirectMap), s. split; [done|]. exists l. apply (pi_alloc _ _ _ (ex_inv _ _ _ _ _ X)). }
  apply checked_add_Some in E as [-> Hb].
  destruct (grow_range s l (region_start r) (region_start r + offset dm) (region_length r) (mkPagePermissions true false false)
    (region_cache_policy (region_kind r)) G Hs) as (o & s' & E & Ho); try (unfold is_u64 in *; lia).
  rewrite (bind_Done _ _ _ _ _ E). destruct o as [[]|e].
  - exists (Ok tt), s'. split; [done|]. destruct Ho as (l' & X' & Hm). by exists l'.
  - destruct Ho as (s'' & l'' & E' & Hfa). rewrite (bind_Done _ _ _ _ _ E'). eexists _, s''. split; [done|]. by exists l''.
Qed.

Lemma grow_regions regions s l :
  growing s l → is_u64 (offset dm) → USER_SPACE_END ≤ offset dm → Forall region_wf regions →
  ∃ o s', mfor_ok regions (new_kernel_region kas dm layout) s = Done (o, s') ∧
    match o with Ok _ => ∃ l', extended kas s l s' l' ∧ Forall (region_mapped (ms_mem s')) regions | Err _ => ∃ l', fa_inv s' l' end.
Proof.
  intros G Hoff Hhi Hwf. revert s l G. induction Hwf as [|r rs Hr _ IH]; intros s l G; cbn [mfor_ok].
  { exists (Ok tt), s. split; [done|]. exists l. split; [apply G|done]. }
  destruct (grow_region s l r G Hoff Hhi Hr) as (o & s1 & E & Ho). unfold bind_ok. rewrite (bind_Done _ _ _ _ _ E).
  destruct o as [[]|e]; [|eexists _, s1; split; [reflexivity|exact Ho]]. destruct Ho as (l1 & X1 & Hm).
  destruct (IH s1 l1 (growing_ext _ _ _ _ G X1)) as (o & s2 & E2 & Ho). exists o, s2. split; [done|].
  destruct o as [[]|e]; [|done]. destruct Ho as (l2 & X2 & Hms). exists l2. split; [by eapply extended_trans|].
  constructor; [|done]. intros Hk. eapply mapped_to_kept; [exact X2| |by apply Hm]. destruct Hr as [[? _] _], Hoff. lia.
Qed.

Lemma grow_segments segs stop s l :
  growing s l → Forall segment_wf segs → segments_from stop segs →
  ∃ o s', new_kernel_segments kas segs stop s = Done (o, s') ∧
    match o with Ok _ => ∃ l', extended kas s l s' l' ∧ Forall (segment_mapped (ms_mem s')) segs | Err _ => ∃ l', fa_inv s' l' end.
Proof.
  intros G Hwf. revert stop s l G. induction Hwf as [|r rs (H1 & H2 & H3 & H4 & H5) _ IH]; intros stop s l G Hst; cbn [new_kernel_segments].
  { exists (Ok tt), s. split; [done|]. exists l. split; [apply G|done]. }
  destruct Hst as [Hp Hst].
  assert (Ea : (match stop with Some st => seg_physical_base r =? st | None => true end) = true).
  { destruct stop as [p|]; [|done]. apply Z.eqb_eq. by apply Hp. }
  rewrite Ea. rewrite (bind_Done _ _ s tt s) by done. rewrite (bind_Done _ _ _ _ _ (uadd_lt _ _ s H3)).
  destruct (grow_range s l (seg_physical_base r) (seg_virtual_base r) (seg_length r) (seg_permissions r) WriteBack G) as (o & s1 & E & Ho);
    try (unfold is_u64 in *; lia).
  rewrite (bind_Done _ _ _ _ _ E). destruct o as [[]|e].
  - destruct Ho as (l1 & X1 & Hm). destruct (IH _ s1 l1 (growing_ext _ _ _ _ G X1) Hst) as (o & s2 & E2 & Ho). exists o, s2. split; [done|].
    destruct o as [[]|e]; [|done]. destruct Ho as (l2 & X2 & Hms). exists l2. split; [by eapply extended_trans|].
    constructor; [|done]. eapply mapped_to_kept; [exact X2| |exact Hm]. apply H4.
  - destruct Ho as (s'' & l'' & E' & Hfa). rewrite (bind_Done _ _ _ _ _ E'). eexists _, s''. split; [reflexivity|]. by exists l''.
Qed.

End loops.

Lemma new_kernel_spec (dm : DirectMap) (regions : list MemoryRegion) (layout : KernelMemoryLayout)
    (config : PagingConfig) (s : MState) (l : list FrameState) :
  fa_inv s l → direct_map (ms_fa s) = dm → config_wf config → is_u64 (offset dm) → USER_SPACE_END ≤ offset dm →
  Forall region_wf regions → Forall segment_wf (segments layout) → segments_from None (segments layout) →
  (∀ j, l !! j = Some Free → active_root (mkPageTable dm config (frame_at j)) s = false) →
  ∃ r s' l', AddressSpace_new_kernel dm regions layout config s = Done (r, s') ∧ fa_inv s' l' ∧
    match r with
    | Ok kas => kind kas = Kernel ∧ pt_config (root kas) = config ∧ pt_inv (root kas) s' l' ∧ same_area s s' ∧ ms_cr3 s' = ms_cr3 s ∧
        (∀ k, l' !! k = l !! k ∨ (l !! k = Some Free ∧ l' !! k = Some Allocated)) ∧
        (∀ x, is_u64 x → x < USER_SPACE_END → walk (root kas) (ms_mem s') x = None) ∧
        (∀ r, r ∈ regions → region_skipped layout r = false →
           maps_range (root kas) (ms_mem s') (region_start r + offset dm) (region_start r) (region_length r)
             (mkPagePermissions true false false)) ∧
        (∀ seg, seg ∈ segments layout →
           maps_range (root kas) (ms_mem s') (seg_virtual_base seg) (seg_physical_base seg) (seg_length seg)
             (seg_permissions seg))
    | Err _ => True
    end.
Proof.
  intros Hfa Hdm Hcfg Hoff Hhi Hrs Hseg Hst Hidle. unfold AddressSpace_new_kernel.
  destruct (page_table_new_spec s l dm config Hfa Hdm Hcfg) as (r & s1 & E1 & Hr). rewrite (bind_Done _ _ _ _ _ E1).
  destruct r as [pt|e]; [|eexists _, s1, l; split; [reflexivity|split; [apply Hr|done]]].
  pose proof (page_table_new_layout _ _ _ _ _ _ Hfa E1) as Hl.
  destruct Hr as (f & Hf & -> & Hinv & _ & Hz & _). set (l1 := <[f := Allocated]> l) in *.
  cbn [map_err]. rewrite bind_ok_ret. cbn iota zeta. set (kas := mkAddressSpace (mkPageTable dm config (frame_at f)) Kernel).
  assert (G1 : growing kas s1 l1).
  { split; [apply extended_refl; [exact Hinv|]; intros x _ _; by apply walk_empty|].
    specialize (Hidle f Hf). unfold active_root in *. destruct Hl as (_ & _ & -> & _). exact Hidle. }
  destruct (grow_regions kas dm layout regions s1 l1 G1 Hoff Hhi Hrs) as (o & s2 & E2 & Ho). unfold bind_ok at 1. rewrite (bind_Done _ _ _ _ _ E2).
  destruct o as [[]|e]; [|destruct Ho as (l2 & Hfa2); by eexists _, s2, l2]. destruct Ho as (l2 & X2 & Hm2).
  destruct (grow_segments kas (segments layout) None s2 l2 (growing_ext _ _ _ _ _ G1 X2) Hseg Hst) as (o & s3 & E3 & Ho).
  unfold bind_ok. rewrite (bind_Done _ _ _ _ _ E3).
  destruct o as [[]|e]; [|destruct Ho as (l3 & Hfa3); by eexists _, s3, l3]. destruct Ho as (l3 & X3 & Hm3).
  pose proof (extended_trans _ _ _ _ _ _ _ X2 X3) as X. exists (Ok kas), s3, l3.
  split; [done|]. split; [apply (pi_alloc _ _ _ (ex_inv _ _ _ _ _ X))|]. split_and!; try apply X; [done|done| | | | |].
  - etrans; [by apply same_area_layout|apply X].
  - rewrite (ex_cr3 _ _ _ _ _ X). by destruct Hl as (_ & _ & -> & _).
  - apply (states_step l l1); [|apply X]. intros j. destruct (decide (j = f)) as [->|]; [right|left; by apply list_lookup_insert_ne].
    split; [done|]. apply list_lookup_insert_eq. by eapply lookup_lt_Some.
  - intros r Hr Hk. rewrite Forall_forall in Hm2, Hrs. destruct (Hrs r Hr) as [[Hr0 _] _].
    apply (mapped_to_kept kas _ _ _ _ _ _ _ _ X3); [destruct Hoff; lia|by apply Hm2].
  - intros seg Hs. rewrite Forall_forall in Hm3. by apply Hm3.
Qed.

(** * Theorems *)


(** A memory map with a region to skip, and an image of three pages. *)
Definition image_regions : list MemoryRegion :=
  [mkMemoryRegion 0x1000 0x3000 Usable; mkMemoryRegion 0x100000 0x3000 KernelAndModules; mkMemoryRegion 0x200000 0x1000 Framebuffer].
Definition image_layout : KernelMemoryLayout := mkKernelMemoryLayout
  (mkKernelSegment 0x100000 0xFFFFFFFF80000000 0x1000 (mkPagePermissions false true false))
  (mkKernelSegment 0x101000 0xFFFFFFFF80001000 0x1000 (mkPagePermissions false false false))
  (mkKernelSegment 0x102000 0xFFFFFFFF80002000 0x1000 (mkPagePermissions true false false)).

Lemma image_regions_wf : Forall region_wf image_regions.
Proof. repeat (apply Forall_cons; split; [by vm_compute|]). by apply Forall_nil. Qed.

Lemma image_segments_wf : Forall segment_wf (segments image_layout) ∧ segments_from None (segments image_layout).
Proof.
  split; [|simpl; split_and!; try done; by intros p [= <-]].
  repeat (apply Forall_cons; split; [by vm_compute|]). by apply Forall_nil.
Qed.

Lemma boot_idle : ∀ j, boot_frames !! j = Some Free → active_root (mkPageTable demo_dm demo_config (frame_at j)) boot_alloc = false.
Proof.
  intros j Hj. assert (Hc : ms_cr3 boot_alloc = 0) by (vm_compute; reflexivity). unfold active_root. rewrite Hc.
  destruct j as [|j]; [discriminate Hj|]. apply Z.eqb_neq. cbn [pt_frame]. unfold frame_at, FRAME_SIZE. rewrite Z.land_0_l. lia.
Qed.

