(* ===== verification/Drivers.v ===== *)
(** * The drivers on any hardware

    Whatever the devices answer, the drivers of the serial port and of the interrupt controllers return,
    and all they do to memory is to map their registers: a calculus of total computations over the devices,
    and the kernel's page table as their invariant. *)

From S2P Require Import Prelude Memory Bytes Layout Machine Descriptors Acpi Frame Paging PageTree PageMap PageUnmap AddressSpace VirtMem.
From S2P Require Import Stack Spaces Ring Tcb Device Apic Kernel Scheduler User Syscall Serial Ipc Caps Calls Create Bootstrap KernelSpace.

Section does.
Context {D : Type} `{!Hardware D}.

(** What is kept speaks of memory alone; the count taken at the interrupt of the PIT fits its register. *)
Definition drivers_ok (R : MState → Prop) (s : Io D) : Prop := R (io_mem s) ∧ is_u32 (LAPIC_COUNT_AT_PIT (io_counters s)).

(** From every such state the computation returns, in such a state. *)
Definition does (R : MState → Prop) {A} (c : M (Io D) A) (Q : A → Prop) : Prop :=
  ∀ s, drivers_ok R s → ∃ a s', c s = Done (a, s') ∧ drivers_ok R s' ∧ Q a.

Context (R : MState → Prop).

Lemma does_ret {A} (a : A) (Q : A → Prop) : Q a → does R (ret a) Q.
Proof. intros Ha s Hs. by exists a, s. Qed.

Lemma does_bind {A B} (c : M (Io D) A) (k : A → M (Io D) B) Q Q' :
  does R c Q → (∀ a, Q a → does R (k a) Q') → does R (bind c k) Q'.
Proof.
  intros Hc Hk s Hs. destruct (Hc s Hs) as (a & s1 & E & Hs1 & Ha). rewrite (bind_Done _ _ _ _ _ E). by apply (Hk a).
Qed.

Lemma does_then {A B} (c : M (Io D) A) (k : A → M (Io D) B) Q' :
  does R c (λ _, True) → (∀ a, does R (k a) Q') → does R (bind c k) Q'.
Proof. intros Hc Hk. eapply does_bind; [exact Hc|]. intros a _. apply Hk. Qed.

Lemma does_bind_ok {A B E} (c : M (Io D) (result A E)) (k : A → M (Io D) (result B E)) Q :
  does R c Q → (∀ a, Q (Ok a) → does R (k a) (λ _, True)) → does R (bind_ok c k) (λ _, True).
Proof. intros Hc Hk. eapply does_bind; [exact Hc|]. intros [a|e] Ha; [by apply Hk|by apply does_ret]. Qed.

Lemma does_any {A} (c : M (Io D) A) Q : does R c Q → does R c (λ _, True).
Proof. intros Hc s Hs. destruct (Hc s Hs) as (a & s1 & E & Hs1 & _). by exists a, s1. Qed.

Lemma does_modify f :
  (∀ s, drivers_ok R s → drivers_ok R (f s)) → does R (modify f) (λ _, True).
Proof. intros Hf s Hs. exists tt, (f s). split; [done|]. split; [by apply Hf|done]. Qed.

Lemma does_gets {A} (f : Io D → A) : does R (gets f) (λ _, True).
Proof. intros s Hs. by exists (f s), s. Qed.

(** The time that has passed is what the count is short of its start. *)
Lemma does_elapsed {A} (k : Z → M (Io D) A) Q :
  (∀ e, does R (k e) Q) →
  does R (let! count := gets (λ s, LAPIC_COUNT_AT_PIT (io_counters s)) in let! elapsed := usub (W32 - 1) count in k elapsed) Q.
Proof.
  intros Hk s Hs. mred. pose proof (proj2 Hs) as Hc. unfold is_u32 in Hc.
  rewrite (bind_Done _ _ s (W32 - 1 - LAPIC_COUNT_AT_PIT (io_counters s)) s) by (apply usub_le; lia). by apply Hk.
Qed.

Lemma does_dev_in f : does R (dev_in f) (λ _, True).
Proof. intros s Hs. destruct (f (io_dev s)) as [v d] eqn:E. rewrite (dev_in_Done _ _ _ _ E). by eexists _, _. Qed.

Lemma does_dev_out f : does R (dev_out f) (λ _, True).
Proof. by apply does_modify. Qed.

Lemma does_read_msr msr : does R (read_msr msr) is_u64.
Proof.
  eapply does_bind; [apply does_dev_in|]. intros v _. apply does_ret. cbv beta zeta.
  pose proof (as_u32_range v) as Hl. pose proof (as_u32_range (Z.shiftr v 32)) as Hh. unfold is_u32 in *.
  apply is_u64_bits. split; [apply Z.lor_nonneg; split; [apply Z.shiftl_nonneg|]; lia|]. intros i Hi.
  rewrite Z.lor_spec, Z.shiftl_spec by lia. unfold as_u32, W32. by rewrite !Z.mod_pow2_bits_high by lia.
Qed.

Lemma does_map kas pa va perms cp :
  (∀ s r s', R s → AddressSpace_map kas pa va perms cp s = Done (r, s') → R s') →
  (∀ s, R s → ∃ l, pt_inv (root kas) s l) → is_u64 va → is_u64 pa →
  does R (on_io_mem (D := D) (AddressSpace_map kas pa va perms cp)) (λ _, True).
Proof.
  intros Hmap Hinv Hva Hpa s [Hs Hc]. destruct (Hinv _ Hs) as [l Hl].
  destruct (AddressSpace_map_spec kas (io_mem s) l pa va perms cp Hl Hva Hpa) as (r & s' & E & _).
  exists r, (set_io_mem s' s). split; [by apply on_part_Done|]. split; [split; [by eapply Hmap|done]|done].
Qed.
End does.

(** Follow the structure of a computation. *)
Ltac does_step :=
  lazymatch goal with
  | |- does _ (ret _) _ => apply does_ret; exact I
  | |- does _ (bind (gets _) (λ _, bind (usub _ _) _)) _ => apply does_elapsed; intros ?
  | |- does _ (bind _ _) _ => apply does_then; [|intros ?]
  | |- does _ (bind_ok _ _) _ => apply does_bind_ok with (Q := λ _, True); [|intros ? _]
  | |- does _ (gets _) _ => apply does_gets
  | |- does _ (dev_in _) _ => apply does_dev_in
  | |- does _ (dev_out _) _ => apply does_dev_out
  | |- does _ (read_msr _) _ => eapply does_any, does_read_msr
  | |- does _ (match ?x with _ => _ end) _ => destruct x
  | |- _ => solve [auto with does nocore]
  end.
Ltac does := repeat does_step.
Create HintDb does.

Section serial.
Context {D : Type} `{!Hardware D} (R : MState → Prop).

Lemma does_wait fuel self : does R (wait_transfer fuel self) (λ _, True).
Proof. induction fuel; simpl; [does|]. unfold can_transfer, read_register, read_u8. does. Qed.

Lemma does_write_byte fuel self byte : does R (SerialPort_write_byte fuel self byte) (λ _, True).
Proof.
  unfold SerialPort_write_byte, send_byte, write_register, write_u8. pose proof (does_wait fuel self). does.
Qed.

Lemma does_serial_init fuel : does R (serial_init fuel) (λ _, True).
Proof.
  unfold serial_init, SerialPort_init, read_register, write_register, read_u8, write_u8. pose proof (does_write_byte fuel com1). does.
Qed.
End serial.

(** ** The interrupt controllers *)

Section apic.
Context {D : Type} `{!Hardware D} (R : MState → Prop).

Lemma does_access_read a offset : does R (LocalApicAccess_read a offset) (λ _, True).
Proof. unfold LocalApicAccess_read, read_volatile. does. Qed.
Lemma does_access_write a offset v : does R (LocalApicAccess_write a offset v) (λ _, True).
Proof. unfold LocalApicAccess_write, write_msr_halves, write_volatile. does. Qed.
Hint Resolve does_access_read does_access_write : does.

Lemma does_current_access : does R current_access (λ _, True).
Proof. unfold current_access. does. Qed.
Hint Resolve does_current_access : does.

Lemma does_io_read io r : does R (IoApic_read io r) (λ _, True).
Proof. unfold IoApic_read, read_volatile, write_volatile. does. Qed.
Lemma does_io_write io r v : does R (IoApic_write io r v) (λ _, True).
Proof. unfold IoApic_write, write_volatile. does. Qed.
Hint Resolve does_io_read does_io_write : does.

(** The counters are updated within their range. *)
Lemma does_counters f :
  (∀ c, is_u32 (LAPIC_COUNT_AT_PIT c) → is_u32 (LAPIC_COUNT_AT_PIT (f c))) → does R (update_counters (D := D) f) (λ _, True).
Proof. intros Hf. apply does_modify. intros s [Hs Hc]. split; [done|]. by apply Hf. Qed.

Lemma does_pit : does R record_pit_calibration (λ _, True).
Proof.
  eapply does_bind with (Q := is_u32).
  - apply does_then; [does|]. intros a. apply does_then; [does|]. intros v. apply does_ret, as_u32_range.
  - intros v Hv. apply does_counters. intros c _. exact Hv.
Qed.
Hint Resolve does_pit : does.

Lemma does_handle vector : does R (apic_vectors_handle vector) (λ _, True).
Proof.
  unfold apic_vectors_handle, record_timer, record_error, end_of_interrupt, LocalApicAccess_end_of_interrupt.
  does; apply does_counters; by intros c.
Qed.

Lemma does_spin : does R spin_loop (λ _, True).
Proof.
  intros s Hs. unfold spin_loop. mred. destruct (elapse (io_dev s)) as [vector d]. mred.
  destruct vector as [v|]; [destruct (io_if s)|]; [by apply (does_handle v)|by eexists _, _..].
Qed.

Lemma does_wait_pit fuel : does R (wait_for_pit fuel) (λ _, True).
Proof. pose proof does_spin. induction fuel; simpl; [does|]. unfold current_timer_count. does. Qed.

Lemma does_calibrate fuel la io route : does R (calibrate_local_apic fuel la io route) (λ _, True).
Proof.
  unfold calibrate_local_apic, unmask, mask, LocalApic_start_calibration_counter, LocalApic_stop_timer, start_pit_one_shot, write_u8, sti, cli.
  pose proof (does_wait_pit fuel). does; try (apply does_modify; by intros s); try (apply does_counters; intros c _; unfold is_u32, W32; simpl; lia).
Qed.
Hint Resolve does_calibrate : does.

Lemma does_on_madt {A} (f : memory → result A AcpiError) e (Q : A → Prop) :
  (∀ m a, f m = Ok a → Q a) → does R (on_madt (D := D) f e) (λ r, ∀ a, r = Ok a → Q a).
Proof.
  intros HQ s Hs. unfold on_madt. mred. eexists _, s. split; [done|]. split; [done|]. intros a Ha.
  destruct (f _) eqn:E; [|done]. injection Ha as <-. by eapply HQ.
Qed.

Lemma does_err_as {A E F} (f : E → F) (c : M (Io D) (result A E)) : does R c (λ _, True) → does R (err_as f c) (λ _, True).
Proof. intros Hc. unfold err_as. does. Qed.

Lemma does_setup a : does R (LocalApic_setup a) (λ _, True).
Proof. unfold LocalApic_setup, write_u8. does. Qed.
Hint Resolve does_setup : does.

Context (kas : AddressSpace).
Hypothesis Hinv : ∀ s, R s → ∃ l, pt_inv (root kas) s l.
Hypothesis Hmap : ∀ pa va perms cp s r s', is_u64 pa → is_u64 va → USER_SPACE_END ≤ va → R s →
  AddressSpace_map kas pa va perms cp s = Done (r, s') → R s'.

Lemma does_device_map pa va :
  is_u64 pa → is_u64 va → USER_SPACE_END ≤ va → does R (on_io_mem (D := D) (AddressSpace_map kas pa va DEVICE_PERMISSIONS Uncacheable)) (λ _, True).
Proof. intros Hp Hv Hhi. apply does_map; [|done..]. intros s r s'. by apply Hmap. Qed.

Lemma does_local_apic pa : does R (LocalApic_init pa kas) (λ _, True).
Proof.
  eapply does_bind; [apply does_read_msr|]. intros base Hb. cbv zeta. destruct (Z.eqb_spec pa (Z.land base APIC_BASE_ADDRESS_MASK)) as [->|]; cbn [negb]; [|does].
  apply address_mask_u64 in Hb.
  assert (H : does R (on_io_mem (D := D) (AddressSpace_map kas (Z.land base APIC_BASE_ADDRESS_MASK) LOCAL_APIC_VIRTUAL_ADDRESS DEVICE_PERMISSIONS Uncacheable)) (λ _, True)).
  { apply does_device_map; [done|by vm_compute..]. }
  does.
Qed.

Lemma does_io_apic id pa gsi : is_u64 pa → does R (IoApic_new id pa gsi IOAPIC_VIRTUAL_ADDRESS kas) (λ _, True).
Proof.
  intros Hp. unfold IoApic_new. apply does_then; [apply does_device_map; [done|by vm_compute..]|]. intros r. does.
Qed.

Lemma does_prepare madt : does R (prepare_controller madt kas) (λ _, True).
Proof.
  unfold prepare_controller. pose proof does_local_apic.
  eapply does_bind_ok; [by apply (does_on_madt _ _ (λ _, True))|]. intros pa _.
  eapply does_bind_ok; [by apply does_err_as|]. intros la _.
  eapply does_bind_ok; [apply (does_on_madt _ _ (λ i, is_u64 (info_apic_address i))); intros m i; apply sole_io_apic_range|]. intros info Hi.
  eapply does_bind_ok; [by apply (does_on_madt _ _ (λ _, True))|]. intros route _.
  eapply does_bind_ok; [by apply does_err_as, does_io_apic, Hi|]. intros io _.
  destruct (negb _); [does|]. apply does_bind_ok with (Q := λ _, True); [by apply does_ret|]. intros dest _.
  eapply does_bind_ok; [apply does_err_as; unfold configure_masked; does|]. intros _ _. does.
Qed.

Lemma does_controller fuel madt : does R (init_interrupt_controller fuel madt kas) (λ _, True).
Proof. unfold init_interrupt_controller. pose proof (does_prepare madt). does. Qed.
End apic.
