(* ===== verification/Main.v ===== *)
(** * From the boot loader to the first task

    Model of [src/main.rs] and of [init] and [enter_kernel] of [src/arch/x86_64/mod.rs]: the kernel's two
    entry points, as the composition of all that the other files model.  The addresses of statics and of
    assembly routines, CPUID and the answers of the boot loader are parameters; the devices are any
    hardware at all. *)

From S2P Require Import Prelude Memory Bytes Layout Machine Descriptors Acpi Frame Paging Features PageTree PageMap PageUnmap.
From S2P Require Import AddressSpace VirtMem Stack Spaces Destroy Ring Tcb Entry Device Apic Kernel Scheduler Registers Tasks.
From S2P Require Import Interrupts User Cpio Elf Loader Boot Syscall Serial Ipc Caps Calls Create Keeps System Safety Bootstrap KernelSpace.

(** ** Definitions *)

(** What [_start] leaves behind for [kernel_main]. *)
Record KernelHandoff := mkKernelHandoff {
  ho_allocator : FrameAllocator;
  ho_address_space : AddressSpace;
  ho_direct_map : DirectMap;
  ho_boot_info : BootInfo;
  ho_handoff_frame : FrameAddr;
}.

(** The registers that [lgdt], [lidt] and [ltr] load. *)
Record TableRegs := mkTableRegs { gdtr_base : Z; gdtr_limit : Z; idtr_base : Z; idtr_limit : Z; task_register : Z }.

(** The kernel with the devices and the processor it runs on. *)
Record Computer (D : Type) := mkComputer {
  c_kernel : KState;
  c_dev : D;
  c_counters : Counters;
  c_control : ControlRegs;
  c_cpu : cpu;                (* registers and MSRs; memory is in [c_kernel] *)
  c_tables : TableRegs;
  c_gdt : list Z;             (* GDT *)
  c_tss : TaskStateSegment;   (* TSS *)
  c_idt : list IdtEntry;      (* IDT *)
}.
Arguments mkComputer {D}.
Arguments c_kernel {D}.
Arguments c_dev {D}.
Arguments c_counters {D}.
Arguments c_control {D}.
Arguments c_cpu {D}.
Arguments c_tables {D}.
Arguments c_gdt {D}.
Arguments c_tss {D}.
Arguments c_idt {D}.

(** A loop that did not end within its fuel ends the computation. *)
Definition bind_some {S A B} (c : M S (option A)) (k : A → M S (option B)) : M S (option B) :=
  bind c (λ o, match o with Some a => k a | None => ret None end).

(** The addresses that the linker and the compiler choose, and what the processor and the boot loader
    answer; [repr] are the bytes of a [KernelHandoff] in memory. *)
Record Platform := mkPlatform {
  pl_cpuid : Z → CpuidResult;
  pl_types : MemmapTypes;
  pl_symbols : Symbols;
  pl_limine : Limine;
  pl_stub : Z → Z;
  pl_tss : Z; pl_double_fault_stack : Z; pl_gdt : Z; pl_idt : Z;
  pl_syscall_entry : Z; pl_boot_cpu : Z; pl_user_thread_entry : Z;
  pl_repr : KernelHandoff → bytes;
}.

Section computer.
Context {D : Type} `{!Hardware D} (P : Platform).

Definition set_c_kernel (k : KState) (c : Computer D) : Computer D :=
  mkComputer k (c_dev c) (c_counters c) (c_control c) (c_cpu c) (c_tables c) (c_gdt c) (c_tss c) (c_idt c).
Definition set_c_control (r : ControlRegs) (c : Computer D) : Computer D :=
  mkComputer (c_kernel c) (c_dev c) (c_counters c) r (c_cpu c) (c_tables c) (c_gdt c) (c_tss c) (c_idt c).
Definition set_c_cpu (u : cpu) (c : Computer D) : Computer D :=
  mkComputer (c_kernel c) (c_dev c) (c_counters c) (c_control c) u (c_tables c) (c_gdt c) (c_tss c) (c_idt c).
Definition set_c_gdt (u : cpu) (t : TableRegs) (g : list Z) (tss : TaskStateSegment) (c : Computer D) : Computer D :=
  mkComputer (c_kernel c) (c_dev c) (c_counters c) (c_control c) u t g tss (c_idt c).
Definition set_c_idt (t : TableRegs) (idt : list IdtEntry) (c : Computer D) : Computer D :=
  mkComputer (c_kernel c) (c_dev c) (c_counters c) (c_control c) (c_cpu c) t (c_gdt c) (c_tss c) idt.

(** The part that the drivers see: memory and the interrupt flag are the kernel's. *)
Definition io_of (c : Computer D) : Io D :=
  mkIo (k_mem (c_kernel c)) (c_dev c) (k_interrupts (c_kernel c)) (c_counters c).
Definition set_io (io : Io D) (c : Computer D) : Computer D :=
  mkComputer (set_k_interrupts (io_if io) (set_k_mem (io_mem io) (c_kernel c))) (io_dev io) (io_counters io)
    (c_control c) (c_cpu c) (c_tables c) (c_gdt c) (c_tss c) (c_idt c).

Definition with_kernel {A} (m : M KState A) : M (Computer D) A := on_part c_kernel set_c_kernel m.
Definition with_io {A} (m : M (Io D) A) : M (Computer D) A := on_part io_of set_io m.
Definition with_control {A} (m : M ControlRegs A) : M (Computer D) A := on_part c_control set_c_control m.

(** [println!] of a text without arguments. *)
Definition println (text : string) : M (Computer D) unit := with_kernel (serial_write_bytes (ascii text ++ [10])).

(** *** [arch::init] *)

(** [gdt_reload]: [lgdt], a far return for the code segment, the data segments, [ltr]. *)
Definition gdt_reload : M (Computer D) unit :=
  modify (λ c,
    let t := c_tables c in
    set_c_gdt (set_segments KERNEL_CODE_SELECTOR KERNEL_DATA_SELECTOR (c_cpu c))
      (mkTableRegs (pl_gdt P) (8 * 7 - 1) (idtr_base t) (idtr_limit t) TSS_SELECTOR) (c_gdt c) (c_tss c) c).

Definition load_gdt : M (Computer D) unit :=
  do! modify (λ c, let '(gdt, tss) := gdt_init (pl_tss P) (pl_double_fault_stack P) in
                   set_c_gdt (c_cpu c) (c_tables c) gdt tss c) ;;;
  gdt_reload.

Definition load_idt : M (Computer D) unit :=
  modify (λ c,
    let t := c_tables c in
    set_c_idt (mkTableRegs (gdtr_base t) (gdtr_limit t) (pl_idt P) (16 * 256 - 1) (task_register t))
      (idt_init (pl_stub P)) c).

Definition arch_init : M (Computer D) PagingConfig :=
  do! with_kernel disable_interrupts ;;;
  do! println "Loading GDT..." ;;;
  do! load_gdt ;;;
  do! println "Loading IDT..." ;;;
  do! load_idt ;;;
  do! println "Detecting CPU features..." ;;;
  let! cpu_features := with_control (detect_features_and_enable (pl_cpuid P)) in
  let! features := expect_ok cpu_features "required CPU features are not supported" in
  ret (PagingConfig_from_features features).

(** *** [kernel_main] *)

Definition read_tables {A} (f : memory → result A AcpiError) : M (Computer D) (result A AcpiError) :=
  gets (λ c, f (ms_mem (k_mem (c_kernel c)))).

(** The object behind the pointer was moved there by [_start]. *)
Definition kernel_main (fuel : nat) (handoff : KernelHandoff) : M (Computer D) (option unit) :=
  let address_space := ho_address_space handoff in
  let direct_map := ho_direct_map handoff in
  let boot_info := ho_boot_info handoff in
  do! with_kernel (on_memory (modify (set_fa (ho_allocator handoff)))) ;;;
  do! with_kernel (on_memory (FrameAllocator_dealloc (ho_handoff_frame handoff))) ;;;
  do! with_kernel (on_memory (FrameAllocator_reclaim_regions (memory_regions boot_info) BootloaderReclaimable)) ;;;
  do! println "Initializing local ACPI..." ;;;
  let! r := read_tables (λ m, acpi_init m (rsdp boot_info) direct_map) in
  let! acpi := expect_ok r "failed to initialize ACPI" in
  do! println "Parsing MADT..." ;;;
  let! r := read_tables (λ m, AcpiTables_madt m acpi) in
  let! found := expect_ok r "failed to parse ACPI" in
  let! madt := expect found "MADT not found" in
  do! println "Initializing interrupt controller..." ;;;
  bind_some (with_io (init_interrupt_controller fuel madt address_space)) (λ r,
  do! expect_ok r "failed to initialize interrupt controller" ;;;
  do! with_kernel (launch (pl_user_thread_entry P) (ascii "omega3.elf") (initramfs boot_info) address_space direct_map) ;;;
  ret (Some tt)).

(** *** [enter_kernel] *)

Definition enter_kernel_code (stack_top handoff : Z) : list instr :=
  [Mov (Reg RSP) (Imm stack_top); Xor RBP; Mov (Reg RDI) (Imm handoff)].

(** The stacks in the TSS and in the CPU-local block, the system call registers, and the call of
    [kernel_main] on its own stack. *)
Definition enter_kernel (fuel : nat) (stack_top : VirtualAddr) (handoff_addr : VirtualAddr) (handoff : KernelHandoff) :
    M (Computer D) (option unit) :=
  do! modify (λ c, set_c_gdt (c_cpu c) (c_tables c) (c_gdt c) (gdt_set_kernel_stack stack_top (c_tss c)) c) ;;;
  do! with_kernel (set_kernel_stack stack_top) ;;;
  do! modify (λ c, set_c_cpu (syscall_init (pl_syscall_entry P) (pl_boot_cpu P) (c_cpu c)) c) ;;;
  do! modify (λ c, set_c_cpu (run (enter_kernel_code stack_top handoff_addr) (c_cpu c)) c) ;;;
  kernel_main fuel handoff.

(** *** [_start] *)

(** The allocator is made from memory alone and becomes the one in use. *)
Definition make_allocator (regions : list MemoryRegion) (direct_map : DirectMap) :
    M MState (result unit FrameAllocatorInitError) :=
  let! r := on_part ms_mem set_mem (FrameAllocator_new regions direct_map) in
  match r with
  | Ok allocator => do! modify (set_fa allocator) ;;; ret (Ok tt)
  | Err e => ret (Err e)
  end.

Definition write_handoff (handoff_addr : VirtualAddr) (handoff : KernelHandoff) : M MState unit :=
  modify (λ s, set_mem (copy_bytes (ms_mem s) handoff_addr (pl_repr P handoff)) s).

Definition _start (fuel : nat) : M (Computer D) (option unit) :=
  bind_some (with_io (serial_init fuel)) (λ r,
  do! expect_ok r "called `Result::unwrap()` on an `Err` value" ;;;
  let! paging := arch_init in
  let! (r, _) := on_local tt (load_boot_info (pl_types P) (pl_symbols P) (pl_limine P)) in
  let! boot_info := expect_ok r "called `Result::unwrap()` on an `Err` value" in
  let direct_map := mkDirectMap (hhdm_offset boot_info) in
  let! r := with_kernel (on_memory (make_allocator (memory_regions boot_info) direct_map)) in
  do! expect_ok r "failed to create frame allocator" ;;;
  do! println "Initializing page table..." ;;;
  let! r := with_kernel (on_memory (AddressSpace_new_kernel direct_map (memory_regions boot_info)
              (kernel_layout boot_info) paging)) in
  let! address_space := expect_ok r "failed to create page table" in
  do! println "Entering kernel main..." ;;;
  let! r := with_kernel (allocate_kernel_stack address_space) in
  let! kernel_stack := expect_ok r "failed to allocate bootstrap stack" in
  let! o := with_kernel (on_memory FrameAllocator_alloc) in
  let! handoff_frame := expect o "failed to allocate frame for kernel handoff" in
  let! handoff_addr := expect (AddressSpace_to_virtual address_space handoff_frame) "failed to map kernel handoff" in
  let bootstrap_stack_top := KernelStack_top kernel_stack in
  let! c := get in
  let handoff := mkKernelHandoff (ms_fa (k_mem (c_kernel c))) address_space direct_map boot_info handoff_frame in
  do! with_kernel (on_memory (write_handoff handoff_addr handoff)) ;;;
  do! with_kernel (on_memory (AddressSpace_activate (ho_address_space handoff))) ;;;
  enter_kernel fuel bootstrap_stack_top handoff_addr handoff).

(** *** [panic] and [hcf] *)

(** [hcf]: the processor is halted for good. *)
Definition hcf {A} : M (Computer D) A := λ _, Halt.

(** The text of a [PanicInfo] is made by the language's library. *)
Definition panic_handler {A} (info : string) : M (Computer D) A :=
  do! println "Uh oh, something went wrong!" ;;;
  do! println info ;;;
  hcf.
End computer.
