(* ===== verification/Startup.v ===== *)
(** * The machine after boot

    What [_start] and [kernel_main] of [src/main.rs] establish: the steps from the boot loader's memory map
    to the first task, each with the state of frames and page tables that the next one needs. *)

From S2P Require Import Prelude Memory Bytes Layout Machine Descriptors Acpi Frame Paging Features PageTree PageMap PageUnmap.
From S2P Require Import AddressSpace VirtMem Stack Spaces Destroy Ring Tcb Entry Device Apic Kernel Scheduler Registers Tasks.
From S2P Require Import Interrupts User Cpio Elf Loader Boot Syscall Serial Ipc Caps Calls Create Keeps System Safety Bootstrap KernelSpace.
From S2P Require Import Drivers Main.

(** A page table keeps its contents when other frames change hands. *)
Lemma pt_inv_grown rt s l s' l' :
  pt_inv rt s l → fa_inv s' l' → direct_map (ms_fa s') = direct_map (ms_fa s) →
  (∀ k, l !! k = Some Allocated → l' !! k = Some Allocated) → (∀ k, l !! k = Some Allocated → kept_frame s s' k) →
  pt_inv rt s' l' ∧ ∀ x, same_page rt (ms_mem s) (ms_mem s') x.
Proof.
  intros Hinv Hfa Hdm Hl Hkept. pose proof (pi_tree _ _ _ Hinv) as Htree.
  assert (Hag : ∀ f j, table_ok (pt_config rt) l f → idx_ok j → heap_of rt (ms_mem s') f j = heap_of rt (ms_mem s) f j).
  { intros f j Hf Hj. eapply kept_heap; [apply Hinv|done|done|]. destruct Hf as [_ Hf]. by eapply Hkept. }
  assert (Hw := λ q Hq Hlq, tree_walk_agree _ _ _ _ _ Htree (heap_of rt (ms_mem s')) q Hq Hlq Hag).
  pose proof (tree_inv_agree _ _ _ _ _ Htree _ Hag) as Htree1.
  assert (Hinv1 : pt_inv rt s' l').
  { split; [apply Hinv|done|rewrite Hdm; apply Hinv|]. eapply tree_inv_weaken; [exact Htree1|]. intros p f Hp Hlp Hf.
    destruct (ti_table _ _ _ _ _ Htree1 p f Hp Hlp Hf) as [Hf1 Hf2]. split; [done|by apply Hl]. }
  split; [done|]. intros x. apply (view_same rt s l s' l' x Hinv Hinv1). apply Hw; [apply path_of_ok|].
  unfold path. rewrite path_of_length. lia.
Qed.

(** ** What the boot loader must have handed over *)

Section memory_map.
Context (config : PagingConfig) (regions : list MemoryRegion) (layout : KernelMemoryLayout) (dm : DirectMap).
Context (img : InitramfsImage) (module : MemoryRegion).

(** The frames of the region that the initramfs lies in. *)
Definition module_frame (i : Z) : Prop :=
  region_start module < (i + 1) * FRAME_SIZE ∧ i * FRAME_SIZE < region_start module + region_length module.

Definition reclaimed : list Z := regions ≫= frames_of_kind BootloaderReclaimable.

(** The memory map: within the reach of the processor and of the direct map, memory that is given out
    apart from memory that is not; the kernel's image in the upper half; the initramfs at page boundaries
    in a region of its own.  [cr3] is the boot loader's page table. *)
Record map_ok (cr3 : Z) : Prop := {
  mp_config : config_wf config;
  mp_regions : Forall region_wf regions;
  mp_offset : is_u64 (offset dm) ∧ USER_SPACE_END ≤ offset dm ∧ offset dm mod FRAME_SIZE = 0;
  mp_reach : ∀ r, r ∈ regions → should_track (region_kind r) = true ∨ r = module →
    region_start r + region_length r ≤ physical_address_limit config ∧ region_start r + region_length r + offset dm ≤ W64;
  mp_usable : NoDup (usable_frames regions);
  mp_reclaim : ∀ i, i ∈ reclaimed → i ∉ usable_frames regions;
  mp_segments : Forall segment_wf (segments layout) ∧ segments_from None (segments layout);
  mp_module : module ∈ regions ∧ region_skipped layout module = false;
  mp_apart : ∀ i, module_frame i → i ∉ usable_frames regions ∧ i ∉ reclaimed;
  mp_image : 0 < ii_length img ∧ (ii_start img - offset dm) mod FRAME_SIZE = 0 ∧
    region_start module + offset dm ≤ ii_start img ∧
    ii_start img + ii_length img ≤ region_start module + region_length module + offset dm;
  mp_cr3 : ∀ i, i ∈ usable_frames regions → Z.land cr3 (physical_address_mask config) ≠ i * FRAME_SIZE;
}.

(** What holds of the allocator's geometry, whatever is allocated. *)
Record geometry (s : MState) : Prop := {
  ge_dm : direct_map (ms_fa s) = dm;
  ge_limit : frame_count (bitmap (ms_fa s)) * FRAME_SIZE ≤ physical_address_limit config;
  ge_reclaim : ∀ i, i ∈ reclaimed → 0 ≤ i < frame_count (bitmap (ms_fa s)) ∧ off_bitmap (bitmap (ms_fa s)) (direct_map (ms_fa s)) i;
  ge_module : ∀ i, 0 ≤ i → module_frame i → off_bitmap (bitmap (ms_fa s)) (direct_map (ms_fa s)) i;
}.

Lemma geometry_area s s' : same_area s s' → geometry s → geometry s'.
Proof. intros [E1 E2] [H1 H2 H3 H4]. split; rewrite ?E1, ?E2; done. Qed.

(** The module's frames are neither free nor given out. *)
Definition module_apart (l : list FrameState) : Prop :=
  ∀ i, module_frame (Z.of_nat i) → l !! i ≠ Some Free ∧ l !! i ≠ Some Allocated.

Context (cr3 : Z) (Hmap : map_ok cr3).

(** ** The allocator *)

Lemma usable_frames_elem i :
  i ∈ usable_frames regions → ∃ r a b, r ∈ regions ∧ region_kind r = Usable ∧ usable_frame_range r = Ok (a, b) ∧ a ≤ i < b.
Proof.
  intros (r & Hi & Hr)%list_elem_of_bind. unfold frames_of in Hi. destruct (is_initially_free (region_kind r)) eqn:Ek; [|by apply not_elem_of_nil in Hi].
  apply bool_decide_eq_true in Ek. destruct (usable_frame_range r) as [[a b]|] eqn:E; [|by apply not_elem_of_nil in Hi].
  apply elem_of_range in Hi. by exists r, a, b.
Qed.

Lemma usable_frames_intro r a b i :
  r ∈ regions → region_kind r = Usable → usable_frame_range r = Ok (a, b) → a ≤ i < b → i ∈ usable_frames regions.
Proof.
  intros Hr Hk E Hi. apply list_elem_of_bind. exists r. split; [|done]. unfold frames_of. rewrite Hk, E. by apply elem_of_range.
Qed.

Lemma reclaimed_elem i :
  i ∈ reclaimed → ∃ r a b, r ∈ regions ∧ region_kind r = BootloaderReclaimable ∧ usable_frame_range r = Ok (a, b) ∧ a ≤ i < b.
Proof.
  intros (r & Hi & Hr)%list_elem_of_bind. unfold frames_of_kind in Hi. destruct (decide _) as [Ek|]; [|by apply not_elem_of_nil in Hi].
  destruct (usable_frame_range r) as [[a b]|] eqn:E; [|by apply not_elem_of_nil in Hi].
  apply elem_of_range in Hi. by exists r, a, b.
Qed.

(** What is not usable lies away from the bitmap. *)
Lemma not_usable_off h lo i :
  0 ≤ h → h * 4096 < W64 → new_bitmap_start regions (bitmap_frames h) = Ok (Some lo) → i ∉ usable_frames regions →
  off_bitmap (mkBitmap (lo * FRAME_SIZE + offset dm) h) dm i.
Proof.
  intros H0 Hh Hlo Hi. destruct (new_bitmap_start_spec _ _ _ Hlo) as (r & y & Hr & Hk & Er & Hlt & Hfit).
  destruct (bitmap_frames_bounds h H0 Hh) as (Hb1 & Hb2 & Hb3).
  assert (¬ (lo ≤ i < lo + bitmap_frames h)).
  { intros Hin. apply Hi. eapply usable_frames_intro; [done..|lia]. }
  unfold off_bitmap, frame_virt, FRAME_SIZE. simpl. lia.
Qed.

Lemma allocator_made s :
  ms_cr3 s = cr3 →
  ∃ r s', make_allocator regions dm s = Done (r, s') ∧
    (r = Ok tt → ∃ l, fa_inv s' l ∧ geometry s' ∧ module_apart l ∧ ms_cr3 s' = cr3 ∧
       ∀ j, l !! j = Some Free → Z.of_nat j ∈ usable_frames regions).
Proof.
  intros Hcr. destruct Hmap as [_ Hwf [Hoff _] Hreach Hnd Hre _ _ Hap _ _]. unfold make_allocator.
  destruct (new_cases regions dm (ms_mem s) Hwf Hnd) as [(e & E)|(h & lo & Hh & Hlo & Htr & Hb)].
  { erewrite bind_Done by (apply on_part_Done; exact E). by eexists _, _. }
  destruct (new_spec_ok _ _ (ms_mem s) _ _ Hwf Hnd Hh Hlo Htr) as (m' & n & E & Hm & H0 & Hlo0 & Hbf & Hfit).
  erewrite bind_Done by (apply on_part_Done; exact E). eexists _, _. split; [reflexivity|]. intros _.
  assert (Htop : h * FRAME_SIZE ≤ physical_address_limit config ∧ frame_virt dm h ≤ W64).
  { destruct (new_highest_frame_max _ _ _ Hh) as [?|(r & a & Hr & Hk & Er)]; [done|].
    rewrite Forall_forall in Hwf. destruct (usable_frame_range_Ok _ _ _ (Hwf r Hr) Er) as (_ & -> & _).
    destruct (Hreach r Hr (or_introl Hk)). unfold frame_virt, FRAME_SIZE in *. split; dmlia. }
  destruct (new_fa_inv regions dm m' h lo n (ms_cr3 s) (ms_flushed s) Hm H0 Hb Hlo0 Hfit (proj1 Hoff) (proj2 Htop)) as [Hfa _].
  eexists. split; [exact Hfa|]. cbn [a_frames]. split_and!.
  - split; [done|apply Htop| |].
    + intros i Hi. split; [|by apply (not_usable_off h lo); auto]. cbn.
      apply reclaimed_elem in Hi as (r & a & b & Hr & Hk & Er & Hi).
      destruct (new_highest_frame_spec _ _ _ Hwf Hh ltac:(done)) as (_ & Htrack & _).
      destruct (Htrack r Hr ltac:(by rewrite Hk)) as (a' & b' & Er' & Hle). rewrite Er in Er'. injection Er' as <- <-.
      rewrite Forall_forall in Hwf. destruct (usable_frame_range_Ok _ _ _ (Hwf r Hr) Er) as (_ & _ & Ha & _). lia.
    + intros i H1 Hi. apply (not_usable_off h lo); [done..|]. by apply Hap.
  - intros i Hi. destruct (Hap _ Hi) as [Hu _]. destruct (marked _ _ _ _ !! i) as [st|] eqn:El; [|done].
    apply lookup_marked in El as [_ ->]. rewrite decide_False by (by intros [? _]). done.
  - done.
  - intros j Hj. apply lookup_marked in Hj as [_ Hj]. case_decide as Hd; [apply Hd|done].
Qed.

(** ** The kernel's address space *)

(** No task, the kernel's page table in use or about to be, the initramfs mapped and left alone; [lost] are
    the kernel stacks that are never given back, the bootstrap stack for one. *)
Record stage (kas : AddressSpace) (s : MState) (sch : Scheduler) (l : list FrameState) (lost : list Z) : Prop := {
  sg_half : extended kas s l s l;
  sg_config : pt_config (root kas) = config;
  sg_dm : pt_direct_map (root kas) = dm;
  sg_tasks : tasks sch = tasks Scheduler_new;
  sg_queue : ready sch = ready Scheduler_new;
  sg_current : current sch = current Scheduler_new;
  sg_pool : pool_inv kas (mkPoolState (stacks sch) s) l [] lost;
  sg_geometry : geometry s;
  sg_image : PageTable_to_physical (root kas) (ms_mem s) (ii_start img) = Some (ii_start img - offset dm);
  sg_apart : module_apart l;
}.

Lemma pool_idle kas p s l lost s' l' :
  pool_inv kas (mkPoolState p s) l [] lost → pt_inv (root kas) s' l' → pool_inv kas (mkPoolState p s') l' [] lost.
Proof. intros [_ H2 H3 H4 H5 H6] Hinv. split; try done. by intros e ?%not_elem_of_nil. Qed.

(** The page table is kept, and frames that are not the module's may change hands. *)
Lemma stage_step kas s sch l lost s' l' :
  stage kas s sch l lost → pt_inv (root kas) s' l' →
  (∀ x, is_u64 x → x < USER_SPACE_END → walk (root kas) (ms_mem s') x = None) → same_area s s' →
  same_page (root kas) (ms_mem s) (ms_mem s') (ii_start img) → module_apart l' → stage kas s' sch l' lost.
Proof.
  intros [G1 G2 G3 G4 G5 G6 G7 G8 G9 G10] Hinv Hu Har [[Hp _] _] Hap. split; try done.
  - by apply extended_refl.
  - by eapply pool_idle.
  - by eapply geometry_area.
  - by rewrite Hp.
Qed.

Lemma user_same kas m m' x :
  is_u64 x → x < USER_SPACE_END → same_page (root kas) m m' x → walk (root kas) m x = None → walk (root kas) m' x = None.
Proof.
  intros Hx Hlo [_ Hs] E. specialize (Hs (user_canonical _ _ Hx Hlo)). rewrite E in Hs. by destruct (walk (root kas) m' x).
Qed.

Lemma stage_same kas s sch l lost s' l' :
  stage kas s sch l lost → pt_inv (root kas) s' l' → (∀ x, same_page (root kas) (ms_mem s) (ms_mem s') x) → same_area s s' →
  module_apart l' → stage kas s' sch l' lost.
Proof.
  intros G Hinv Hs Har Hap. eapply stage_step; try done. intros x Hx Hlo. eapply user_same; [done|done|apply Hs|].
  by apply (ex_user _ _ _ _ _ (sg_half _ _ _ _ _ G)).
Qed.

Lemma module_states l l' :
  module_apart l → (∀ k, l' !! k = l !! k ∨ (l !! k = Some Free ∧ l' !! k = Some Allocated)) → module_apart l'.
Proof. intros Ha Hl i Hi. destruct (Ha i Hi). by destruct (Hl i) as [->|[? _]]. Qed.

Lemma image_start_u64 : is_u64 (ii_start img) ∧ is_u64 (ii_start img - offset dm) ∧ module_frame ((ii_start img - offset dm) / FRAME_SIZE).
Proof.
  destruct (mp_image _ Hmap) as (H1 & H2 & H3 & H4). destruct (mp_offset _ Hmap) as [Ho _].
  destruct (mp_module _ Hmap) as [Hm _]. destruct (mp_reach _ Hmap module Hm ltac:(by right)) as [_ Hr].
  pose proof (mp_regions _ Hmap) as Hwf. rewrite Forall_forall in Hwf. destruct (Hwf _ Hm) as [Hs _].
  unfold is_u64, module_frame, FRAME_SIZE in *. split_and!; dmlia.
Qed.

Lemma stage_extended kas s sch l lost s' l' :
  stage kas s sch l lost → extended kas s l s' l' → stage kas s' sch l' lost.
Proof.
  intros G X. eapply stage_step; try done; [apply X|apply X|apply X| |].
  - apply (ex_mapped _ _ _ _ _ X); [apply image_start_u64|]. rewrite (sg_image _ _ _ _ _ G). by eexists.
  - eapply module_states; [apply G|apply X].
Qed.

(** With this the first task can be started. *)
Lemma stage_ready kas k l lost :
  stage kas (k_mem k) (k_sched k) l lost → k_spaces k = AddressSpaceTable_new →
  boot_ready config kas k l [] lost ∧ image_ok kas img (k_mem k) l.
Proof.
  intros [G1 G2 G3 G4 G5 G6 G7 G8 G9 G10] Hs. split.
  - split; try done.
    + eapply kernel_ok_idle; [apply (kernel_ok_new (set_k_sched Scheduler_new k)); done|done..].
    + apply G1.
    + intros j [st Hj]. pose proof (inv_index_bound _ _ (pi_alloc _ _ _ (ex_inv _ _ _ _ _ G1)) _ _ Hj).
      pose proof (ge_limit _ G8). unfold frame_at, FRAME_SIZE in *. lia.
  - destruct image_start_u64 as (H1 & H2 & _). destruct (mp_image _ Hmap) as (I1 & I2 & I3 & I4).
    destruct (mp_module _ Hmap) as [Hm _]. destruct (mp_reach _ Hmap module Hm ltac:(by right)) as [Hlim Hr].
    pose proof (mp_offset _ Hmap) as (Ho & Hhi & Hal).
    assert (physical_address_limit config ≤ 2 ^ 52) by (unfold physical_address_limit; destruct (mp_config _ Hmap); rewrite Z.shiftl_1_l; by apply Z.pow_le_mono_r).
    pose proof (mp_regions _ Hmap) as Hwf. rewrite Forall_forall in Hwf. destruct (Hwf _ Hm) as [Hrs _].
    split; [done|unfold is_u64 in *; lia|].
    exists (Z.to_nat ((ii_start img - offset dm) / FRAME_SIZE)).
    assert (E : frame_at (Z.to_nat ((ii_start img - offset dm) / FRAME_SIZE)) = ii_start img - offset dm).
    { unfold frame_at, FRAME_SIZE, is_u64 in *. rewrite Z2Nat.id; dmlia. }
    rewrite E. split; [done|]. split; [apply H2|]. intros i Hi.
    set (j := (Z.to_nat ((ii_start img - offset dm) / FRAME_SIZE) + Z.to_nat i)%nat).
    assert (Ej : Z.of_nat j * FRAME_SIZE = ii_start img - offset dm + i * FRAME_SIZE).
    { unfold j, frame_at, FRAME_SIZE in *. lia. }
    assert (Hj : module_frame (Z.of_nat j)).
    { unfold module_frame, image_pages, FRAME_SIZE in *. dmlia. }
    destruct (G10 j Hj). unfold spare_frame. rewrite (ge_dm _ G8). split_and!; try done.
    + rewrite <- (ge_dm _ G8) at 1. by apply (ge_module _ G8); [lia|].
    + destruct Hj as [_ Hj]. unfold frame_virt, FRAME_SIZE, W64 in *. dmlia.
Qed.

(** ** The steps *)

Lemma kernel_made s l :
  fa_inv s l → geometry s → module_apart l → ms_cr3 s = cr3 → (∀ j, l !! j = Some Free → Z.of_nat j ∈ usable_frames regions) →
  ∃ r s', AddressSpace_new_kernel dm regions layout config s = Done (r, s') ∧
    ∀ kas, r = Ok kas → ∃ l', stage kas s' Scheduler_new l' [].
Proof.
  intros Hfa Hg Hap Hcr Hfree. destruct (mp_offset _ Hmap) as (Ho & Hhi & _). destruct (mp_segments _ Hmap) as [Hsw Hsf].
  destruct (new_kernel_spec dm regions layout config s l Hfa (ge_dm _ Hg) (mp_config _ Hmap) Ho Hhi (mp_regions _ Hmap) Hsw Hsf)
    as (r & s' & l' & E & _ & Hr).
  { intros j Hj. apply Z.eqb_neq. rewrite Hcr. by apply (mp_cr3 _ Hmap), Hfree. }
  exists r, s'. split; [done|]. intros kas ->. destruct Hr as (_ & Hc & Hinv & Har & _ & Hst & Hu & Hreg & _). exists l'.
  destruct (mp_module _ Hmap) as [Hm Hsk]. destruct (mp_image _ Hmap) as (I1 & I2 & I3 & I4).
  pose proof (geometry_area _ _ Har Hg) as Hg'. split; try done.
  - by apply extended_refl.
  - by rewrite <- (pi_dm _ _ _ Hinv), (ge_dm _ Hg').
  - by apply pool_inv_init.
  - destruct (Hreg module Hm Hsk (ii_start img)) as [-> _]; [lia|]. f_equal. lia.
  - by eapply module_states.
Qed.

Section staged.
Context (kas : AddressSpace).

Lemma stage_stack k l lost :
  stage kas (k_mem k) (k_sched k) l lost →
  ∃ r k', allocate_kernel_stack kas k = Done (r, k') ∧ k_spaces k' = k_spaces k ∧
    ∀ st, r = Ok st → ∃ l' lost', stage kas (k_mem k') (k_sched k') l' lost'.
Proof.
  intros G. destruct (pool_allocate_spec kas _ l [] lost (sg_pool _ _ _ _ _ G)) as (r & p' & l1 & E & Hr).
  eexists r, _. split; [apply masked_flag, on_part_Done; exact E|]. split; [done|]. intros st ->.
  destruct (free_slot _) as [slot|] eqn:Es; [|by destruct Hr]. destruct Hr as (_ & ks & Hp). simpl in *.
  assert (extending kas (k_mem k) l (ps_mem p')) as (l2 & X) by (eapply extend_pool; [|exact E]; exists l; apply G).
  assert (l2 = l1) as -> by (eapply fa_inv_unique; [..|apply (po_pt _ _ _ _ _ Hp)|apply (ex_inv _ _ _ _ _ X)]; done).
  exists l1, (slot :: lost). destruct (stage_extended _ _ _ _ _ _ _ G X) as [G1 G2 G3 G4 G5 G6 G7 G8 G9 G10]. split; try done.
  apply free_slot_Some in Es as [Hs _]. destruct Hp as [P1 P2 P3 P4 P5 P6]. split; try done.
  - by intros e ?%not_elem_of_nil.
  - intros i [->|Hi]%elem_of_cons; [done|by apply P5].
  - apply NoDup_nil_2.
Qed.

(** A frame that the kernel holds and that is no table. *)
Definition holds (s : MState) (l : list FrameState) (f : nat) : Prop :=
  l !! f = Some Allocated ∧ ¬ own_table (root kas) (ms_mem s) (frame_at f).

Lemma stage_alloc s sch l lost :
  stage kas s sch l lost →
  FrameAllocator_alloc s = Done (None, s) ∨
  ∃ f s' l', FrameAllocator_alloc s = Done (Some (frame_at f), s') ∧ stage kas s' sch l' lost ∧ holds s' l' f.
Proof.
  intros G. pose proof (ex_inv _ _ _ _ _ (sg_half _ _ _ _ _ G)) as Hinv. pose proof (pi_alloc _ _ _ Hinv) as Hfa.
  destruct (alloc_contract s l Hfa) as [[E _]|(f & s' & E & Hf & Hfa' & Hl & _ & Hk)]; [by left|right].
  destruct (pt_inv_alloc (root kas) s l f s' Hinv Hf Hfa' Hl Hk) as (Hinv' & Hs & Ht).
  exists f, s', (<[f := Allocated]> l). split; [done|]. split; [|split].
  - eapply stage_extended; [done|]. by apply (extended_alloc kas s l s l); [apply G|..].
  - apply list_lookup_insert_eq. by eapply lookup_lt_Some.
  - intros Ho%Ht. destruct (own_table_ok _ _ _ Hinv _ Ho) as [_ Hal]. rewrite frame_at_index in Hal. congruence.
Qed.

(** Writing to that frame changes nothing else. *)
Lemma stage_write s sch l lost f data :
  stage kas s sch l lost → holds s l f → is_bytes data → slice_len data ≤ FRAME_SIZE →
  let s' := set_mem (copy_bytes (ms_mem s) (frame_at f + offset dm) data) s in stage kas s' sch l lost ∧ holds s' l f.
Proof.
  intros G [Hf Hno] Hb Hlen s'. pose proof (ex_inv _ _ _ _ _ (sg_half _ _ _ _ _ G)) as Hinv. pose proof (pi_alloc _ _ _ Hinv) as Hfa.
  assert (Hout : ∀ x, ¬ in_frame (direct_map (ms_fa s)) (Z.of_nat f) x → load8 (ms_mem s') x = load8 (ms_mem s) x).
  { intros x Hx. unfold s'. cbn [ms_mem set_mem]. rewrite load8_copy_bytes by done.
    destruct (zget data _) as [b|] eqn:Ez; [|done]. exfalso. apply Hx. pose proof (zget_Some_lt _ _ _ Ez).
    rewrite (ge_dm _ (sg_geometry _ _ _ _ _ G)). unfold in_frame, frame_virt, frame_at, slice_len in *. lia. }
  assert (Hfa' : fa_inv s' l).
  { destruct (data_frame_fits l s f Hfa ltac:(by left)) as [Hoff _]. destruct Hfa as [H1 H2 H3 H4 H5 H6 H7]. split; try done.
    eapply bitmap_rep_frame; [done|]. intros x Hx. apply Hout. intros Hin.
    pose proof (off_bitmap_outside _ _ _ Hoff Hin). unfold outside_bitmap in *. cbn [s' set_mem ms_fa] in *. lia. }
  destruct (pt_inv_data (root kas) l s s' f Hinv Hfa' eq_refl Hno) as (Hinv' & Hs & Ht).
  { intros j st _ _ Hne x Hx. apply Hout. intros Hx'. pose proof (in_frame_inj _ _ _ _ Hx Hx'). lia. }
  split; [|split; [done|by rewrite Ht]]. eapply stage_same; try done; apply G.
Qed.

Lemma same_page_refl m x : same_page (root kas) m m x.
Proof. split; [done|]. by intros _. Qed.

Lemma stage_activate s sch l lost f :
  stage kas s sch l lost → holds s l f →
  let s' := mkMState (ms_mem s) (ms_fa s) (pt_frame (root kas)) (ms_flushed s) in stage kas s' sch l lost ∧ holds s' l f.
Proof.
  intros G Hf s'. split; [|done]. apply (stage_same kas s sch l lost s' l G); [|intros x; apply same_page_refl|done|apply G].
  apply pt_inv_cr3, (ex_inv _ _ _ _ _ (sg_half _ _ _ _ _ G)).
Qed.

Lemma stage_dealloc s sch l lost f :
  stage kas s sch l lost → holds s l f → ∃ s' l', FrameAllocator_dealloc (frame_at f) s = Done (tt, s') ∧ stage kas s' sch l' lost.
Proof.
  intros G [Hf Hno]. pose proof (ex_inv _ _ _ _ _ (sg_half _ _ _ _ _ G)) as Hinv.
  destruct (dealloc_contract s l f (pi_alloc _ _ _ Hinv) Hf) as (s' & E & Hfa & Hl & Hk).
  destruct (pt_inv_dealloc (root kas) s l f s' Hinv Hf Hno Hfa Hl Hk) as (Hinv' & Hs & _).
  exists s', (<[f := Free]> l). split; [done|]. eapply stage_same; try done; [by apply same_area_layout|].
  intros i Hi. destruct (sg_apart _ _ _ _ _ G i Hi). rewrite list_lookup_insert_ne; [done|]. intros ->. congruence.
Qed.

Lemma stage_reclaim s sch l lost :
  stage kas s sch l lost →
  ∃ s' l', FrameAllocator_reclaim_regions regions BootloaderReclaimable s = Done (tt, s') ∧ stage kas s' sch l' lost.
Proof.
  intros G. pose proof (ex_inv _ _ _ _ _ (sg_half _ _ _ _ _ G)) as Hinv. pose proof (pi_alloc _ _ _ Hinv) as Hfa.
  destruct (reclaim_regions_spec BootloaderReclaimable regions s _ (fa_inv_refines _ _ Hfa)) as (s' & E & [Hfa' _] & [Hl Hm]).
  { intros r Hr Hk. pose proof (mp_regions _ Hmap) as Hwf. rewrite Forall_forall in Hwf. destruct (Hwf r Hr) as [Hs Hle].
    destruct (mp_reach _ Hmap r Hr) as [_ Hb]; [left; by rewrite Hk|]. destruct (mp_offset _ Hmap) as (Ho & Hhi & _).
    unfold usable_frame_range. unfold is_u64, USER_SPACE_END in *. rewrite checked_add_lt by lia. cbn [ok_or result_bind].
    rewrite align_up_spec by (unfold is_u64; lia). rewrite (proj2 (Z.ltb_lt _ _)) by lia. by eexists. }
  { apply (ge_reclaim _ (sg_geometry _ _ _ _ _ G)). }
  set (l' := a_frames _) in Hfa'.
  assert (Hl' : ∀ i, l' !! i = match l !! i with Some Reserved => Some (if decide (Z.of_nat i ∈ reclaimed) then Free else Reserved) | o => o end).
  { intros i. unfold l'. rewrite foldl_abs_reclaim; [done|]. intros j Hj. by apply (ge_reclaim _ (sg_geometry _ _ _ _ _ G)). }
  exists s', l'. split; [done|].
  destruct (pt_inv_grown (root kas) s l s' l' Hinv Hfa' ltac:(apply Hl)) as [Hinv' Hs].
  { intros k Hk. by rewrite Hl', Hk. }
  { intros k Hk x Hx. apply Hm. eapply off_bitmap_outside; [|done]. by eapply (inv_storage _ _ Hfa). }
  eapply stage_same; try done; [by apply same_area_layout|].
  intros i Hi. destruct (sg_apart _ _ _ _ _ G i Hi). destruct (mp_apart _ Hmap _ Hi) as [_ Hn]. rewrite Hl'.
  destruct (l !! i) as [[]|]; try done. by rewrite decide_False.
Qed.

(** Mapping a page of the upper half, whether it succeeds or not. *)
Lemma stage_map sch lost pa va perms cp s r s' :
  is_u64 pa → is_u64 va → USER_SPACE_END ≤ va → (∃ l, stage kas s sch l lost) →
  AddressSpace_map kas pa va perms cp s = Done (r, s') → ∃ l, stage kas s' sch l lost.
Proof.
  intros Hp Hv Hhi [l G] E. pose proof (sg_half _ _ _ _ _ G) as X. destruct r as [[]|e].
  - destruct (extended_map kas s l s l va pa perms cp tt s' X Hv Hhi Hp E) as [l' X']. exists l'. by eapply stage_extended.
  - destruct (AddressSpace_map_spec kas s l pa va perms cp (ex_inv _ _ _ _ _ X) Hv Hp) as (r' & s1 & E1 & Hr).
    rewrite E in E1. injection E1 as <- <-. destruct Hr as [M1 M2 _ _ _ _ _ M8]. exists l. by eapply stage_same; [..|apply G].
Qed.
End staged.
End memory_map.

(** ** Following the entry points *)

(** The ways in which the kernel can fail to start. *)
Definition boot_panics : list string :=
  ["called `Result::unwrap()` on an `Err` value"; "failed to create frame allocator"; "failed to create page table";
   "failed to allocate bootstrap stack"; "failed to allocate frame for kernel handoff"; "failed to initialize ACPI";
   "failed to parse ACPI"; "MADT not found"; "failed to initialize interrupt controller"] ++ spawn_panics.

Ltac listed := unfold boot_panics, spawn_panics; cbn [app]; set_solver.

Section follow.
Context {D : Type} `{!Hardware D} (config : PagingConfig) (ute : Z).

(** No address space of a task, and [F] of memory and the scheduler. *)
Definition good (F : MState → Scheduler → Prop) (c : Computer D) : Prop :=
  k_spaces (c_kernel c) = AddressSpaceTable_new ∧ is_u32 (LAPIC_COUNT_AT_PIT (c_counters c)) ∧ F (k_mem (c_kernel c)) (k_sched (c_kernel c)).

(** A step panics for a reason of the list, or leads on. *)
Definition leads (F : MState → Scheduler → Prop) {A} (m : M (Computer D) A) (G : A → MState → Scheduler → Prop) : Prop :=
  ∀ c, good F c → (∃ w, m c = Panic w ∧ w ∈ boot_panics) ∨ ∃ a c', m c = Done (a, c') ∧ good (G a) c'.

(** The rest panics for such a reason, waits for a device, or ends in a task. *)
Definition ends (F : MState → Scheduler → Prop) (m : M (Computer D) (option unit)) : Prop :=
  ∀ c, good F c → (∃ w, m c = Panic w ∧ w ∈ boot_panics) ∨ (∃ c', m c = Done (None, c')) ∨
    ∃ id c', m c = Done (Some tt, c') ∧ runs_safely config ute id (c_kernel c').

Lemma ends_bind F {A} (m : M (Computer D) A) G k : leads F m G → (∀ a, ends (G a) (k a)) → ends F (bind m k).
Proof.
  intros Hm Hk c Hc. destruct (Hm c Hc) as [(w & E & Hw)|(a & c' & E & Hc')]; [left; exists w; by rewrite (bind_Panic _ _ _ _ E)|].
  rewrite (bind_Done _ _ _ _ _ E). by apply Hk.
Qed.

Lemma ends_some F {A} (m : M (Computer D) (option A)) G k :
  leads F m (λ o s sch, ∀ a, o = Some a → G a s sch) → (∀ a, ends (G a) (k a)) → ends F (bind_some m k).
Proof.
  intros Hm Hk. unfold bind_some. eapply ends_bind; [exact Hm|]. intros [a|] c (H1 & H2 & H3).
  - apply Hk. split_and!; [done|done|by apply H3].
  - right. left. by exists c.
Qed.

Lemma ends_get F k : (∀ c, ends (λ s sch, F s sch ∧ s = k_mem (c_kernel c)) (k c)) → ends F (bind get k).
Proof. intros Hk c (H1 & H2 & H3). mred. by apply Hk. Qed.

Lemma ends_pre F F' m : ends F' m → (∀ s sch, F s sch → F' s sch) → ends F m.
Proof. intros Hm HF c (H1 & H2 & H3). apply Hm. split_and!; [done|done|by apply HF]. Qed.

Lemma ends_ex {X} (F : X → MState → Scheduler → Prop) m : (∀ x, ends (F x) m) → ends (λ s sch, ∃ x, F x s sch) m.
Proof. intros Hm c (H1 & H2 & x & H3). by apply (Hm x). Qed.

Lemma ends_and (φ : Prop) F m : (φ → ends F m) → ends (λ s sch, φ ∧ F s sch) m.
Proof. intros Hm c (H1 & H2 & Hφ & H3). by apply Hm. Qed.

Lemma leads_kernel F {A} (m : M KState A) G :
  (∀ k, k_spaces k = AddressSpaceTable_new → F (k_mem k) (k_sched k) →
     ∃ a k', m k = Done (a, k') ∧ k_spaces k' = AddressSpaceTable_new ∧ G a (k_mem k') (k_sched k')) →
  leads F (with_kernel m) G.
Proof.
  intros Hm c (H1 & H2 & H3). right. destruct (Hm _ H1 H3) as (a & k' & E & H4 & H5).
  exists a, (set_c_kernel k' c). split; [by apply on_part_Done|done].
Qed.

Lemma leads_memory F {A} (m : M MState A) G :
  (∀ s sch, F s sch → ∃ a s', m s = Done (a, s') ∧ G a s' sch) → leads F (with_kernel (on_memory m)) G.
Proof.
  intros Hm. apply leads_kernel. intros k Hs HF. destruct (Hm _ _ HF) as (a & s' & E & HG).
  exists a, (set_k_mem s' k). split; [by apply on_part_Done|done].
Qed.

(** A step of the kernel that is not about memory or tasks. *)
Lemma leads_quiet F (m : M KState unit) (f : KState → KState) :
  (∀ k, m k = Done (tt, f k) ∧ k_mem (f k) = k_mem k ∧ k_spaces (f k) = k_spaces k ∧ k_sched (f k) = k_sched k) →
  leads F (with_kernel m) (λ _, F).
Proof.
  intros Hm. apply leads_kernel. intros k Hs HF. destruct (Hm k) as (E & E1 & E2 & E3). exists tt, (f k).
  split; [done|]. by rewrite E1, E2, E3.
Qed.

Lemma leads_println F text : leads F (println text) (λ _, F).
Proof. eapply leads_quiet. intros k. split; [apply serial_write_bytes_spec|done]. Qed.

Lemma leads_modify F f :
  (∀ c, c_kernel (f c) = c_kernel c ∧ c_counters (f c) = c_counters c) → leads F (modify f) (λ _, F).
Proof.
  intros Hf c (H1 & H2 & H3). right. exists tt, (f c). split; [done|]. destruct (Hf c) as [E1 E2]. unfold good. by rewrite E1, E2.
Qed.

Lemma leads_expect_ok F {A E} (r : result A E) why :
  why ∈ boot_panics → leads F (expect_ok r why) (λ a s sch, r = Ok a ∧ F s sch).
Proof.
  intros Hw c (H1 & H2 & H3). destruct r as [a|e]; [right; by exists a, c|left; by exists why].
Qed.

Lemma leads_expect F {A} (o : option A) why : why ∈ boot_panics → leads F (expect o why) (λ a s sch, o = Some a ∧ F s sch).
Proof. intros Hw c (H1 & H2 & H3). destruct o as [a|]; [right; by exists a, c|left; by exists why]. Qed.

Lemma leads_weaken F {A} (m : M (Computer D) A) G G' : leads F m G → (∀ a s sch, G a s sch → G' a s sch) → leads F m G'.
Proof.
  intros Hm HG c Hc. destruct (Hm c Hc) as [?|(a & c' & E & H1 & H2 & H3)]; [by left|right]. exists a, c'. split; [done|].
  split_and!; [done|done|by apply HG].
Qed.

Lemma leads_ok F {A E} (r : result A E) why : why ∈ boot_panics → leads F (expect_ok r why) (λ _, F).
Proof. intros Hw. eapply leads_weaken; [by apply leads_expect_ok|]. by intros a s sch [_ ?]. Qed.

Lemma leads_found F {A} (o : option A) why : why ∈ boot_panics → leads F (expect o why) (λ _, F).
Proof. intros Hw. eapply leads_weaken; [by apply leads_expect|]. by intros a s sch [_ ?]. Qed.

Lemma leads_Some F {A} (o : option A) a why : (∀ s sch, F s sch → o = Some a) → leads F (expect o why) (λ b s sch, b = a ∧ F s sch).
Proof. intros Ho c (H1 & H2 & H3). right. rewrite (Ho _ _ H3). by exists a, c. Qed.

Lemma leads_tables F {A} (f : memory → result A AcpiError) : leads F (read_tables f) (λ _, F).
Proof. intros c Hc. right. by eexists _, c. Qed.

Lemma leads_io F {A} (m : M (Io D) A) :
  (∀ sch, does (λ s, F s sch) m (λ _, True)) → leads F (with_io m) (λ _, F).
Proof.
  intros Hm c (H1 & H2 & H3). right. destruct (Hm _ (io_of c) (conj H3 H2)) as (a & io & E & [H4 H5] & _).
  exists a, (set_io io c). split; [by apply on_part_Done|done].
Qed.
End follow.

(** ** The entry points *)

Section entry.
Context {D : Type} `{!Hardware D} (P : Platform) (config : PagingConfig) (bi : BootInfo) (module : MemoryRegion) (cr3 : Z).

Abbreviation regions := (memory_regions bi).
Abbreviation dm := (mkDirectMap (hhdm_offset bi)).
Abbreviation ute := (pl_user_thread_entry P).
Abbreviation staged kas := (stage config regions dm (initramfs bi) module kas).

Context (Hmap : map_ok config regions (kernel_layout bi) dm (initramfs bi) module cr3).
Context (Hrepr : ∀ h, is_bytes (pl_repr P h) ∧ slice_len (pl_repr P h) ≤ FRAME_SIZE).

Lemma launch_ends kas :
  ends (D := D) config ute (λ s sch, ∃ l lost, staged kas s sch l lost)
    (do! with_kernel (launch ute (ascii "omega3.elf") (initramfs bi) kas dm) ;;; ret (Some tt)).
Proof.
  intros c (Hs & _ & l & lost & G).
  destruct (stage_ready config regions (kernel_layout bi) dm (initramfs bi) module cr3 Hmap kas _ l lost G Hs) as [R HI].
  rewrite <- (sg_dm _ _ _ _ _ _ _ _ _ _ G).
  destruct (launch_spec config kas _ l [] lost ute (ascii "omega3.elf") (initramfs bi) R HI) as [(w & E & Hw)|(id & k' & a & l' & E & S & Hc)].
  - left. exists w. split; [|unfold boot_panics; set_solver]. unfold with_kernel. apply bind_Panic. unfold on_part. by rewrite E.
  - right. right. eexists id, _. unfold with_kernel. split; [by rewrite (bind_Done _ _ _ _ _ (on_part_Done _ _ _ _ _ _ E))|]. by eapply system_runs.
Qed.

Lemma kernel_main_ends fuel kas fa f :
  ends (D := D) config ute (λ s sch, ∃ l lost, staged kas s sch l lost ∧ holds kas s l f ∧ ms_fa s = fa)
    (kernel_main P fuel (mkKernelHandoff fa kas dm bi (frame_at f))).
Proof.
  unfold kernel_main. cbn [ho_address_space ho_direct_map ho_boot_info ho_allocator ho_handoff_frame].
  eapply ends_bind with (G := λ _ s sch, ∃ l lost, staged kas s sch l lost ∧ holds kas s l f); [|intros _].
  { apply leads_memory. intros s sch (l & lost & G & Hf & <-). exists tt, s. split; [by destruct s|]. by exists l, lost. }
  eapply ends_bind with (G := λ _ s sch, ∃ l lost, staged kas s sch l lost); [|intros _].
  { apply leads_memory. intros s sch (l & lost & G & Hf).
    destruct (stage_dealloc config regions dm (initramfs bi) module kas s sch l lost f G Hf) as (s' & l' & E & G'). exists tt, s'. split; [done|]. by exists l', lost. }
  eapply ends_bind with (G := λ _ s sch, ∃ l lost, staged kas s sch l lost); [|intros _].
  { apply leads_memory. intros s sch (l & lost & G).
    destruct (stage_reclaim config regions (kernel_layout bi) dm (initramfs bi) module cr3 Hmap kas s sch l lost G) as (s' & l' & E & G'). exists tt, s'. split; [done|]. by exists l', lost. }
  eapply ends_bind; [apply leads_println|intros ?; cbv beta].
  eapply ends_bind; [apply leads_tables|intros r]. eapply ends_bind; [apply leads_ok; listed|intros acpi].
  eapply ends_bind; [apply leads_println|intros ?; cbv beta].
  eapply ends_bind; [apply leads_tables|intros r']. eapply ends_bind; [apply leads_ok; listed|intros found].
  eapply ends_bind; [apply leads_found; listed|intros madt]. eapply ends_bind; [apply leads_println|intros ?; cbv beta].
  eapply ends_some with (G := λ _ s sch, ∃ l lost, staged kas s sch l lost).
  { eapply leads_weaken; [apply leads_io|intros o s sch G x Hx; exact G]. intros sch. apply does_controller.
    - intros s (l & lost & G). exists l. apply (ex_inv _ _ _ _ _ (sg_half _ _ _ _ _ _ _ _ _ _ G)).
    - intros pa va perms cp s r0 s' Hp Hv Hhi (l & lost & G) E.
      destruct (stage_map config regions (kernel_layout bi) dm (initramfs bi) module cr3 Hmap kas sch lost pa va perms cp s r0 s' Hp Hv Hhi
        (ex_intro _ l G) E) as [l' G']. by exists l', lost. }
  intros r0. eapply ends_bind; [apply leads_ok; listed|intros controller; cbv beta]. apply launch_ends.
Qed.

Lemma enter_kernel_ends fuel kas fa f top addr :
  ends (D := D) config ute (λ s sch, ∃ l lost, staged kas s sch l lost ∧ holds kas s l f ∧ ms_fa s = fa)
    (enter_kernel P fuel top addr (mkKernelHandoff fa kas dm bi (frame_at f))).
Proof.
  unfold enter_kernel. eapply ends_bind; [apply leads_modify; intros ?; by split|intros ?; cbv beta].
  eapply ends_bind; [eapply leads_quiet; intros k; split; [reflexivity|done]|intros ?; cbv beta].
  eapply ends_bind; [apply leads_modify; intros ?; by split|intros ?; cbv beta]. eapply ends_bind; [apply leads_modify; intros ?; by split|intros ?; cbv beta].
  apply kernel_main_ends.
Qed.

(** From the stack to the jump. *)
Lemma handoff_ends fuel kas :
  ends (D := D) config ute (λ s sch, ∃ l lost, staged kas s sch l lost)
    (let! r := with_kernel (allocate_kernel_stack kas) in
     let! kernel_stack := expect_ok r "failed to allocate bootstrap stack" in
     let! o := with_kernel (on_memory FrameAllocator_alloc) in
     let! handoff_frame := expect o "failed to allocate frame for kernel handoff" in
     let! handoff_addr := expect (AddressSpace_to_virtual kas handoff_frame) "failed to map kernel handoff" in
     let! c := get in
     let handoff := mkKernelHandoff (ms_fa (k_mem (c_kernel c))) kas dm bi handoff_frame in
     do! with_kernel (on_memory (write_handoff P handoff_addr handoff)) ;;;
     do! with_kernel (on_memory (AddressSpace_activate (ho_address_space handoff))) ;;;
     enter_kernel P fuel (KernelStack_top kernel_stack) handoff_addr handoff).
Proof.
  eapply ends_bind with (G := λ r s sch, ∀ st, r = Ok st → ∃ l lost, staged kas s sch l lost); [|intros r].
  { apply leads_kernel. intros k Hs (l & lost & G).
    destruct (stage_stack config regions (kernel_layout bi) dm (initramfs bi) module cr3 Hmap kas k l lost G) as (r & k' & E & Hs' & Hr).
    exists r, k'. split; [done|]. split; [congruence|exact Hr]. }
  eapply ends_bind; [apply leads_expect_ok; listed|intros stack; cbv beta].
  eapply ends_bind with (G := λ o s sch, ∀ fr, o = Some fr → ∃ f l lost, fr = frame_at f ∧ staged kas s sch l lost ∧ holds kas s l f); [|intros o].
  { apply leads_memory. intros s sch [-> HF]. destruct (HF _ eq_refl) as (l & lost & G).
    destruct (stage_alloc config regions (kernel_layout bi) dm (initramfs bi) module cr3 Hmap kas s sch l lost G) as [E|(f & s' & l' & E & G' & Hf)].
    - by exists None, s.
    - eexists _, s'. split; [exact E|]. intros fr [= <-]. by exists f, l', lost. }
  eapply ends_bind; [apply leads_expect; listed|intros fr; cbv beta].
  apply (ends_pre _ _ _ (λ s sch, ∃ f, fr = frame_at f ∧ ∃ l lost, staged kas s sch l lost ∧ holds kas s l f)).
  2:{ intros s sch [-> HF]. destruct (HF _ eq_refl) as (f & l & lost & -> & G). exists f. split; [done|]. by exists l, lost. }
  apply ends_ex. intros f. apply ends_and. intros ->.
  eapply ends_bind; [apply leads_Some with (a := frame_at f + offset dm)|intros addr; cbv beta].
  { intros s sch (l & lost & G & Hf & _). pose proof (pi_alloc _ _ _ (ex_inv _ _ _ _ _ (sg_half _ _ _ _ _ _ _ _ _ _ G))) as Hfa.
    destruct (data_frame_fits l s f Hfa ltac:(by left)) as [_ Hw]. unfold AddressSpace_to_virtual, PageTable_to_virtual, DirectMap_translate.
    rewrite (sg_dm _ _ _ _ _ _ _ _ _ _ G). rewrite (ge_dm _ _ _ _ _ (sg_geometry _ _ _ _ _ _ _ _ _ _ G)) in Hw.
    apply checked_add_lt. unfold frame_virt, frame_at, FRAME_SIZE in *. lia. }
  apply ends_and. intros ->. apply ends_get. intros c. cbv zeta. set (h := mkKernelHandoff _ _ _ _ _).
  eapply ends_bind with (G := λ _ s sch, ∃ l lost, staged kas s sch l lost ∧ holds kas s l f ∧ ms_fa s = ho_allocator h); [|intros ?].
  { apply leads_memory. intros s sch [(l & lost & G & Hf) ->]. destruct (Hrepr h) as [Hb Hlen].
    destruct (stage_write config regions dm (initramfs bi) module kas _ sch l lost f (pl_repr P h) G Hf Hb Hlen) as [G' Hf'].
    eexists tt, _. split; [reflexivity|]. by exists l, lost. }
  eapply ends_bind with (G := λ _ s sch, ∃ l lost, staged kas s sch l lost ∧ holds kas s l f ∧ ms_fa s = ho_allocator h); [|intros ?].
  { apply leads_memory. intros s sch (l & lost & G & Hf & Hfa).
    destruct (stage_activate config regions dm (initramfs bi) module kas s sch l lost f G Hf) as [G' Hf'].
    eexists tt, _. split; [reflexivity|]. by exists l, lost. }
  apply enter_kernel_ends.
Qed.

(** [arch::init] on a processor with the features that are needed. *)
Lemma arch_init_spec features ctl (c : Computer D) :
  detect_features_and_enable (pl_cpuid P) (c_control c) = Done (Ok features, ctl) →
  ∃ c', arch_init P c = Done (PagingConfig_from_features features, c') ∧ c_counters c' = c_counters c ∧
    k_mem (c_kernel c') = k_mem (c_kernel c) ∧ k_spaces (c_kernel c') = k_spaces (c_kernel c) ∧ k_sched (c_kernel c') = k_sched (c_kernel c).
Proof.
  intros E. unfold arch_init. erewrite bind_Done by reflexivity.
  erewrite bind_Done by (apply on_part_Done, serial_write_bytes_spec). erewrite bind_Done by reflexivity.
  erewrite bind_Done by (apply on_part_Done, serial_write_bytes_spec). erewrite bind_Done by reflexivity.
  erewrite bind_Done by (apply on_part_Done, serial_write_bytes_spec).
  erewrite bind_Done by (apply on_part_Done; exact E). eexists. split; [reflexivity|]. done.
Qed.

Lemma boot_ends fuel :
  load_boot_info (pl_types P) (pl_symbols P) (pl_limine P) tt = Done (Ok bi, tt) →
  ends (D := D) config ute (λ s sch, sch = Scheduler_new ∧ ms_cr3 s = cr3)
    (let! (r, _) := on_local tt (load_boot_info (pl_types P) (pl_symbols P) (pl_limine P)) in
     let! boot_info := expect_ok r "called `Result::unwrap()` on an `Err` value" in
     let direct_map := mkDirectMap (hhdm_offset boot_info) in
     let! r := with_kernel (on_memory (make_allocator (memory_regions boot_info) direct_map)) in
     do! expect_ok r "failed to create frame allocator" ;;;
     do! println "Initializing page table..." ;;;
     let! r := with_kernel (on_memory (AddressSpace_new_kernel direct_map (memory_regions boot_info) (kernel_layout boot_info) config)) in
     let! address_space := expect_ok r "failed to create page table" in
     do! println "Entering kernel main..." ;;;
     let! r := with_kernel (allocate_kernel_stack address_space) in
     let! kernel_stack := expect_ok r "failed to allocate bootstrap stack" in
     let! o := with_kernel (on_memory FrameAllocator_alloc) in
     let! handoff_frame := expect o "failed to allocate frame for kernel handoff" in
     let! handoff_addr := expect (AddressSpace_to_virtual address_space handoff_frame) "failed to map kernel handoff" in
     let bootstrap_stack_top := KernelStack_top kernel_stack in
     let! c := get in
     let handoff := mkKernelHandoff (ms_fa (k_mem (c_kernel c))) address_space direct_map boot_info handoff_frame in
     do! with_kernel (on_memory (write_handoff P handoff_addr handoff)) ;;;
     do! with_kernel (on_memory (AddressSpace_activate (ho_address_space handoff))) ;;;
     enter_kernel P fuel bootstrap_stack_top handoff_addr handoff).
Proof.
  intros Hload c Hc. erewrite (bind_Done _ _ c (Ok bi, tt) c) by (unfold on_local; by rewrite Hload). cbn [expect_ok]. rewrite bind_ret. cbv zeta.
  refine ((_ : ends config ute (λ s sch, sch = Scheduler_new ∧ ms_cr3 s = cr3) _) c Hc). clear c Hc.
  eapply ends_bind with (G := λ r s sch, sch = Scheduler_new ∧ (r = Ok tt → ∃ l, fa_inv s l ∧ geometry config regions dm module s ∧
    module_apart module l ∧ ms_cr3 s = cr3 ∧ ∀ j, l !! j = Some Free → Z.of_nat j ∈ usable_frames regions)); [|intros r].
  { apply leads_memory. intros s sch [-> Hcr].
    destruct (allocator_made config regions (kernel_layout bi) dm (initramfs bi) module cr3 Hmap s Hcr) as (r & s' & E & Hr). by exists r, s'. }
  eapply ends_bind; [apply leads_expect_ok; listed|intros []; cbv beta]. eapply ends_bind; [apply leads_println|intros ?; cbv beta].
  eapply ends_bind with (G := λ r s sch, ∀ kas, r = Ok kas → ∃ l lost, staged kas s sch l lost); [|intros r'].
  { apply leads_memory. intros s sch (-> & -> & Hl). destruct (Hl eq_refl) as (l & Hfa & Hg & Hap & Hcr & Hfree).
    destruct (kernel_made config regions (kernel_layout bi) dm (initramfs bi) module cr3 Hmap s l Hfa Hg Hap Hcr Hfree) as (r' & s' & E & Hr).
    exists r', s'. split; [done|]. intros kas Hk. destruct (Hr kas Hk) as [l' G]. by exists l', []. }
  eapply ends_bind; [apply leads_expect_ok; listed|intros kas; cbv beta]. eapply ends_bind; [apply leads_println|intros ?; cbv beta].
  eapply ends_pre; [apply handoff_ends|]. intros s sch [-> HG]. by apply HG.
Qed.
End entry.

(** ** Theorem *)

(** The statics as they are linked: no task, no address space, no stack. *)
Record fresh_kernel (k : KState) : Prop := {
  fk_spaces : k_spaces k = AddressSpaceTable_new;
  fk_sched : k_sched k = Scheduler_new;
}.

(** C2: The kernel boots into a safe system.  It is assumed that the processor has the features the kernel needs,
    that the boot loader's answers are complete and load, and that its memory map is in order ([map_ok]): what
    is given out lies apart from the initramfs and from the boot loader's page table.  Then, whatever the
    devices behind the I/O ports and the mapped registers answer, [_start] has one of three outcomes.  It panics for one of
    fifteen reasons: no serial port, memory that is used up, damaged firmware tables, a missing timer, a
    missing or damaged program.  It waits, for as long as it may, at the serial port or for the timer.  Or
    the first task runs, and from then on, over every sequence of faults, resumed calls and system calls
    other than number 11, the invariant of handles, pages, page tables
    and mailboxes holds and every frame is used safely.  Call 11, which creates a task and which the first
    program of the repository makes, is not a step of [machine_step]: nothing is said of a run after it,
    nor of stores by user code and interrupts of devices while tasks run.  On the way the frames are counted, the kernel's page
    table is built and switched to, the boot loader's memory is taken over and the interrupt controllers
    are set up; no addition, index or assertion fails, and nothing that was mapped is lost. *)
Theorem boot_safe {D} `{!Hardware D} (P : Platform) (fuel : nat) (c : Computer D) (features : CpuFeatures)
    (ctl : ControlRegs) (bi : BootInfo) (module : MemoryRegion) :
  fresh_kernel (c_kernel c) → is_u32 (LAPIC_COUNT_AT_PIT (c_counters c)) →
  detect_features_and_enable (pl_cpuid P) (c_control c) = Done (Ok features, ctl) →
  load_boot_info (pl_types P) (pl_symbols P) (pl_limine P) tt = Done (Ok bi, tt) →
  map_ok (PagingConfig_from_features features) (memory_regions bi) (kernel_layout bi) (mkDirectMap (hhdm_offset bi)) (initramfs bi) module
    (ms_cr3 (k_mem (c_kernel c))) →
  (∀ h, is_bytes (pl_repr P h) ∧ slice_len (pl_repr P h) ≤ FRAME_SIZE) →
  (∃ w, _start P fuel c = Panic w ∧ w ∈ boot_panics) ∨
  (∃ c', _start P fuel c = Done (None, c')) ∨
  ∃ id c', _start P fuel c = Done (Some tt, c') ∧
    current (k_sched (c_kernel c')) = Some id ∧ cpu_runs (c_kernel c') id ∧
    ∀ m', rtc (machine_step (PagingConfig_from_features features) (pl_user_thread_entry P)) (mkMachine (c_kernel c') ∅) m' →
      ∃ a l', machine_ok (PagingConfig_from_features features) m' a l' ∧ frames_safe (mc_kernel m') l'.
Proof.
  intros [Hsp Hsc] Hu Hdet Hload Hmap Hrepr. unfold _start, bind_some.
  destruct (does_serial_init (λ s, s = k_mem (c_kernel c)) fuel (io_of c) (conj eq_refl Hu)) as (o & io & E & [Em Hu'] & _).
  rewrite (bind_Done _ _ _ _ _ (on_part_Done io_of set_io _ c _ _ E : with_io _ _ = _)). destruct o as [r|]; [|right; left; eexists; reflexivity].
  destruct r as [[]|e]; [|left; eexists; split; [reflexivity|listed]]. cbn [expect_ok]. rewrite bind_ret.
  destruct (arch_init_spec P features ctl (set_io io c) Hdet) as (c1 & E1 & Ec & Ek & Es & Ed). erewrite bind_Done by exact E1.
  refine (boot_ends P _ bi module _ Hmap Hrepr fuel Hload c1 _). split_and!; [by rewrite Es|by rewrite Ec|by rewrite Ed|].
  rewrite Ek. cbn. by rewrite Em.
Qed.

(** ** Witness *)

(** A serial port and interrupt controllers on one bus. *)
#[export] Instance board_hardware : Hardware (Uart * Bench) := {
  port_in p d := if (COM1_BASE <=? p) && (p <? COM1_BASE + 8)
                 then let '(v, u) := port_in p d.1 in (v, (u, d.2)) else let '(v, b) := port_in p d.2 in (v, (d.1, b));
  port_out p v d := if (COM1_BASE <=? p) && (p <? COM1_BASE + 8) then (port_out p v d.1, d.2) else (d.1, port_out p v d.2);
  mmio_in a d := let '(v, b) := mmio_in a d.2 in (v, (d.1, b));
  mmio_out a v d := (d.1, mmio_out a v d.2);
  msr_in i d := let '(v, b) := msr_in i d.2 in (v, (d.1, b));
  msr_out i v d := (d.1, msr_out i v d.2);
  elapse d := let '(v, b) := elapse d.2 in (v, ((elapse d.1).2, b));
}.

Definition board : Uart * Bench :=
  (mkUart 0 0 0 0 0 0 0 [] 0 1, mkBench 0xFEE00900 0 3 0 (λ r, if r =? 0 then 0x2000000 else 0x170000) []).

Definition board_cpuid (f : Z) : CpuidResult :=
  if f =? 0x80000000 then mkCpuidResult 0x80000008 0 0 0
  else if f =? 0x80000001 then mkCpuidResult 0 0 0 0x100800
  else if f =? 0x80000008 then mkCpuidResult 0x3028 0 0 0
  else mkCpuidResult 0 0 0 0x2020.

Definition board_symbols : Symbols := mkSymbols 0xFFFFFFFF80000000 0xFFFFFFFF80001000 0xFFFFFFFF80001000 0xFFFFFFFF80002000
  0xFFFFFFFF80002000 0xFFFFFFFF80003000.

Definition board_limine : Limine :=
  mkLimine true (Some (mkExecutableAddress 0x100000 0xFFFFFFFF80000000)) (Some []) (Some [mkInitramfsImage 0xFFFF800000080000 372])
    (Some 0xFFFF800000000000) (Some 0xFFFF800000000100)
    (Some [mkMemmapEntry 0 0x1000 2; mkMemmapEntry 0x1000 0x6F000 0; mkMemmapEntry 0x70000 0x2000 5; mkMemmapEntry 0x80000 0x1000 6;
           mkMemmapEntry 0x100000 0x3000 6]).

Definition board_platform : Platform :=
  mkPlatform board_cpuid demo_types board_symbols board_limine (λ v, 0xFFFFFFFF80000800 + 16 * v) 0xFFFFFFFF80002000 0xFFFFFFFF80002400
    0xFFFFFFFF80002100 0xFFFFFFFF80002200 0xFFFFFFFF80000400 0xFFFFFFFF80002300 0xFFFFFFFF80000500 (λ _, replicate 64 7).

(** The firmware's tables in frame 0, the archive in frame 128; the boot loader's page table in frame 113. *)
Definition board_memory : memory := λ a,
  if a - 0xFFFF800000000000 <? 0x1000 then demo_acpi_memory (a - 0xFFFF7FFFFFFFF000)
  else default 0xAB (zget boot_archive (a - 0xFFFF800000080000)).

Definition board_kernel : KState :=
  mkKState (mkMState board_memory (ms_fa demo_state) 0x71000 []) false AddressSpaceTable_new None Scheduler_new true 0 0 BootstrapContext [].

Definition board_computer : Computer (Uart * Bench) :=
  mkComputer board_kernel board (mkCounters 0 0 0 false 0) (mkControlRegs 0 0) (mkCpu (λ _, 0) 0 0 false 0 0 (λ _, 0) (λ _, 0))
    (mkTableRegs 0 0 0 0 0) [] TaskStateSegment_new [].

Definition board_module : MemoryRegion := mkMemoryRegion 0x80000 0x1000 KernelAndModules.
Definition board_regions : list MemoryRegion :=
  [mkMemoryRegion 0 0x1000 AcpiReclaimable; mkMemoryRegion 0x1000 0x6F000 Usable; mkMemoryRegion 0x70000 0x2000 BootloaderReclaimable;
   board_module; mkMemoryRegion 0x100000 0x3000 KernelAndModules].
Definition board_layout : KernelMemoryLayout := image_layout.

Lemma board_usable : usable_frames board_regions = range 1 0x70.
Proof. vm_compute. reflexivity. Qed.
Lemma board_reclaimed : reclaimed board_regions = [0x70; 0x71].
Proof. vm_compute. reflexivity. Qed.

Lemma board_map_ok :
  map_ok demo_config board_regions board_layout demo_dm (mkInitramfsImage 0xFFFF800000080000 372) board_module 0x71000.
Proof.
  split; rewrite ?board_usable, ?board_reclaimed.
  - apply demo_config_wf.
  - repeat (apply Forall_cons; split; [by vm_compute|]). by apply Forall_nil.
  - by vm_compute.
  - intros r Hr _. change (physical_address_limit demo_config) with (2 ^ 40). change (offset demo_dm) with 0xFFFF800000000000. unfold W64.
    unfold board_regions, board_module in Hr. repeat (apply elem_of_cons in Hr as [->|Hr]; [cbn; lia|]). by apply not_elem_of_nil in Hr.
  - apply NoDup_seqZ.
  - intros i Hi Hu%elem_of_range. apply elem_of_cons in Hi as [->|Hi]; [lia|]. apply list_elem_of_singleton in Hi. lia.
  - exact image_segments_wf.
  - split; [|by vm_compute]. unfold board_regions. do 3 apply list_elem_of_further. apply list_elem_of_here.
  - intros i [H1 H2]. unfold board_module, FRAME_SIZE in *. cbn in H1, H2. assert (i = 0x80) as -> by lia. split.
    + intros Hu%elem_of_range. lia.
    + intros Hi. apply elem_of_cons in Hi as [?|Hi]; [lia|]. apply list_elem_of_singleton in Hi. lia.
  - by vm_compute.
  - intros i Hi%elem_of_range. change (Z.land 0x71000 (physical_address_mask demo_config)) with 0x71000. unfold FRAME_SIZE. lia.
Qed.

Lemma board_features :
  ∃ ctl, detect_features_and_enable board_cpuid (mkControlRegs 0 0) = Done (Ok (mkCpuFeatures true true true 40 48 false), ctl).
Proof. eexists. vm_compute. reflexivity. Qed.

Lemma board_info :
  ∃ bi, load_boot_info demo_types board_symbols board_limine tt = Done (Ok bi, tt) ∧ memory_regions bi = board_regions ∧
    kernel_layout bi = board_layout ∧ hhdm_offset bi = 0xFFFF800000000000 ∧ initramfs bi = mkInitramfsImage 0xFFFF800000080000 372.
Proof. eexists. split; [vm_compute; reflexivity|]. split_and!; vm_compute; reflexivity. Qed.

Lemma boot_safe_witness :
  ∃ c', _start board_platform 100 board_computer = Done (Some tt, c') ∧ current (k_sched (c_kernel c')) = Some 0 ∧
    ∀ m', rtc (machine_step demo_config 0xFFFFFFFF80000500) (mkMachine (c_kernel c') ∅) m' →
      ∃ a l', machine_ok demo_config m' a l' ∧ frames_safe (mc_kernel m') l'.
Proof.
  assert (Hc : is_u32 0) by by split.
  assert (Hh : ∀ h, is_bytes (pl_repr board_platform h) ∧ slice_len (pl_repr board_platform h) ≤ FRAME_SIZE)
    by (intros h; split; [by apply Forall_replicate|by vm_compute]).
  destruct board_features as [ctl Hf]. destruct board_info as (bi & Hb & Er & El & Eh & Ei).
  assert (Hm : map_ok (PagingConfig_from_features (mkCpuFeatures true true true 40 48 false)) (memory_regions bi) (kernel_layout bi)
    (mkDirectMap (hhdm_offset bi)) (initramfs bi) board_module 0x71000) by (rewrite Er, El, Eh, Ei; exact board_map_ok).
  assert (Hr : match _start board_platform 100 board_computer with
    | Done (Some _, c') => current (k_sched (c_kernel c')) = Some 0 | _ => False end) by (vm_compute; reflexivity).
  destruct (boot_safe board_platform 100 board_computer _ ctl bi board_module (Build_fresh_kernel board_kernel eq_refl eq_refl) Hc Hf Hb Hm
    Hh) as [(w & E & _)|[(c' & E)|(id & c' & E & _ & _ & H)]];
    rewrite E in Hr; [destruct Hr..|]. exists c'. split; [exact E|]. split; [exact Hr|exact H].
Defined.
